(* ===== verification/_CoqProject ===== *)
-Q . S2P
Prelude.v
External.v
Ids.v
Wire.v
Framing.v
Capability.v
Pairing.v
Qr.v
Selection.v
Filename.v
Transfer.v
Stream.v
Policy.v
Identity.v
Store.v
Control.v
UnixFs.v
Utf8.v
MigrateFs.v
Migration.v
Downloads.v
MigrationFacts.v
MigrationCrash.v
Sink.v
Transfers.v
TransfersFacts.v
TransfersStored.v
TransferRuns.v
Approval.v
StoreFacts.v
MigrationRuns.v
Panel.v
Gui.v
PanelFacts.v
GuiFacts.v
Views.v
ViewsFacts.v
GuiPrompt.v
GuiPromptFacts.v
Cli.v
Replay.v
Discovery.v
Endpoint.v
NotifyContract.v
NotifyText.v
NotifyQueue.v
NotifyMirror.v
Notifications.v
NotifyFacts.v
NotifyLive.v
NotifyRuns.v
NotifyBus.v
NotifyBusFacts.v
NotifyBusRuns.v
Tray.v
TrayFacts.v
Battery.v
Dedup.v
Clipboard.v
ClipboardFacts.v
ClipboardRuns.v
WlClipboard.v
WlClipboardFacts.v
ClipDesk.v
ClipDeskRuns.v
Session.v
SessionFacts.v
SessionLoop.v
Tls.v
Listener.v
Daemon.v
DaemonFacts.v
ListenerRuns.v
ControlServer.v
ControlServerFacts.v
ControlRuns.v
CliServe.v
ViewsServe.v
PromptServe.v
ViewsRuns.v
