(* ===== verification/Prelude.v ===== *)
(** * The Pliwee desktop daemon: a verification library

    The program pairs a desktop with a phone over the local network and then
    lets the two exchange files, notifications, clipboard contents and battery
    state. Its desktop half is a Rust workspace under [src/desktop]; the wire
    format is under [src/protocol]. This library translates the parts that
    decide who is trusted and what a peer can make the machine do, the desktop
    services they act on and the clients a person uses, and proves what they
    promise.

    ** The program and the files

    Two devices meet by mDNS ([core/src/discovery.rs]), authenticate by TLS with
    pinned keys ([core/src/tls.rs], [runtime/src/listener.rs]), and run a
    handshake on a framed protobuf stream ([core/src/session.rs], [framing.rs]).
    An unknown key can only get further through a pairing window ([pairing.rs]),
    opened by a human and reached by scanning a QR code ([qr.rs]). Trust is kept
    in a store on disk ([store.rs] over [secret_store.rs] and
    [platform/unix_fs.rs]). An established session routes messages to the
    negotiated capabilities ([capability.rs]); the daemon
    ([runtime/src/state.rs], [server.rs], [renegotiate.rs]) answers the
    sessions' questions about trust and carries out the user's decisions. The
    capabilities are file transfer ([capabilities/files], with the approval
    broker of [runtime/src/approval.rs]), clipboard sharing
    ([capabilities/clipboard]), notification mirroring
    ([capabilities/notifications] over the contract of
    [core/src/notifications.rs]) and battery levels ([capabilities/battery]).
    The window ([gui]), the command line ([cli]) and the tray item
    ([platform-linux/src/tray]) reach the daemon over a local socket or are
    served by it.

    - [Prelude.v]: results, byte strings, Unicode text, sorted maps, tactics and
      the hint databases. [External.v]: the third-party crates as classes (hex,
      base32, base64, protobuf, JSON, SHA-256 and HMAC) with the documented laws
      the theorems use, and executable instances that meet them.
    - [Ids.v] ([error.rs], [profile.rs], [fingerprint.rs]), [Wire.v] (the
      protobuf messages), [Framing.v] ([framing.rs] and the frames of a data
      stream), [Capability.v], [Pairing.v], [Qr.v], [Discovery.v], [Endpoint.v]
      (the advertised addresses and the control socket's place), [Replay.v]
      (replay guard and envelope factory of [session.rs]).
    - [Tls.v], [Listener.v], [ListenerRuns.v]: the certificate verifiers and
      configurations of [tls.rs] over a class of TLS 1.3 connections, the
      listener with its permits and time limits, and the two composed with the
      handshakes.
    - [Policy.v], [Identity.v], [Store.v], [UnixFs.v], [StoreFacts.v]: policies,
      identities, the trust store, its Unix storage, and what the store
      guarantees. [SecretStore] and [IdentityBackend] are the source's traits as
      classes; [UnixFs.v] and [Identity.v] discharge them.
    - [Session.v], [SessionFacts.v], [SessionLoop.v]: the two handshakes and the
      message loop. [SessionHost] is the source's trait as a class; the
      handshakes are proved against it and [Daemon.v] is its instance.
    - [Daemon.v], [DaemonFacts.v]: the daemon's state and the requests that
      change trust.
    - [Filename.v], [Transfer.v], [Stream.v], [Sink.v], [Downloads.v] (where
      files go), [Transfers.v] and [TransfersFacts.v], [TransfersStored.v],
      [TransferRuns.v]: file transfer, from names, ids and copy loops to the
      manager with its tasks.
    - [Approval.v]: asking a person about an incoming file.
    - [Dedup.v], [Clipboard.v], [ClipboardFacts.v], [ClipboardRuns.v]: clipboard
      sharing, its bounded memories, the manager and its watcher.
      [WlClipboard.v], [WlClipboardFacts.v]: the backends
      ([clipboard/src/backend]) with their trait and its laws as classes;
      [ClipDesk.v], [ClipDeskRuns.v]: the manager over any lawful backend.
    - [NotifyContract.v] (wire contract, roles, snapshots), [NotifyText.v]
      (sanitising), [NotifyQueue.v] (the bounded work queue), [NotifyMirror.v]
      (what is on the screen), [Notifications.v] (the manager and its workers),
      [NotifyFacts.v], [NotifyLive.v] (its theorems), [NotifyRuns.v] (runs).
      [NotifyBus.v], [NotifyBusFacts.v], [NotifyBusRuns.v]: the notification
      server and logind on their buses, and the manager that asks them.
    - [Battery.v]: battery levels.
    - [Utf8.v] (the decoder of [String::from_utf8]), [MigrateFs.v] (a base
      directory, its system calls, crashes and power failures), [Migration.v],
      [MigrationFacts.v], [MigrationCrash.v], [MigrationRuns.v]: the move of an
      older installation's state and configuration
      ([platform-linux/src/legacy_migration.rs]).
    - [Control.v]: the types of the control protocol ([control/src/lib.rs]).
      [ControlServer.v], [ControlServerFacts.v], [ControlRuns.v]: the daemon's
      request handler ([runtime/src/server.rs]) over the managers above.
    - [Panel.v], [PanelFacts.v]: the decision half of the Quick Panel
      ([gui/src/panel/model.rs]), a pure function of the daemon's reports.
      [Selection.v], [Gui.v], [GuiFacts.v]: the chosen device, the window's
      state and its polling. [Views.v], [ViewsFacts.v], [ViewsServe.v],
      [ViewsRuns.v]: the settings pages, their switches and badges, and the
      daemon behind them. [GuiPrompt.v], [GuiPromptFacts.v], [PromptServe.v]:
      the window's connections and questions, and the daemon that asks them.
    - [Cli.v], [CliServe.v]: the command-line client ([cli/src/main.rs]) and the
      daemon behind it.
    - [Tray.v], [TrayFacts.v]: the tray item, its menu, the shell it registers
      with, D-Bus activation and the older unit name ([platform-linux/src/tray],
      [activation.rs], [systemd_transition.rs]).

    ** How state and effects are modelled

    A record of the source is a [Record], an enum an [Inductive], a function a
    [Definition] of the same name. Integers that can wrap are kept at their
    width; clocks are numbers passed in. A pure fallible function returns
    [result]; the handshakes are programs of a state and error monad that
    records every question put to the host. Concurrency is explicit: whatever
    awaits is cut at its await points, and the other tasks are either an
    arbitrary sequence of host changes (the handshakes) or further steps of one
    step function (the transfer manager, the session loop, the store, the
    window, the tray). System calls draw their faults from a list, so every
    failure of every call is covered; a bus, a shell tool or a window system is
    a class whose answers may depend on every call made before. Random values
    are inputs.

    ** What the theorems show

    - Trust: a connection becomes a session only after a TLS handshake proved by
      the key it is known by (C2, C6), at most 32 are served at a time (C35),
      and a handshake completes only for a trusted key or through an open
      pairing window with the right proof and a human yes (C1, C5, C7, C8; with
      the daemon as host, [daemon_window_single_use]); a revoked device is
      refused at every door and stays revoked through failures and restarts (C3,
      C4, C23, [revoked_device_denied], [unpair_takes_effect]); a fresh pairing
      is allowed only the minimum ([fresh_pairing_is_minimal]).
    - Storage: an identity is never replaced and every reachable store is well
      formed (C21, C22).
    - The wire: frames and discovery records round-trip, and readers are bounded
      (C27, C28, [discovery_roundtrip]); the bounded replay guard decides
      exactly the unbounded specification (C24), and an honest writer passes it
      ([honest_writer_admitted]).
    - Sessions: capabilities see only negotiated, admitted messages (C15);
      silent peers are probed and dropped on time ([liveness_tick]); pings are
      echoed ([ping_echo]); closing an old session never removes its successor
      ([late_close_keeps_session]); a session is renegotiated at most once
      ([one_reconnect_per_session]), and a selector names at most one device
      ([resolve_device_sound]).
    - Files: names are safe and ordinary names unchanged (C38,
      [sanitize_fixpoints]); ids are read exactly ([transfer_id_hex]); a copy is
      exact, end to end ([receive_exactly_exact], C39); storing overwrites
      nothing (C40); transfers follow their state machine (C20); a stream is let
      in once and only for its peer (C19); revocation and the reaper end what
      must end ([cancel_peer_stops_all], [reap_once_exact]); a stored file was
      agreed to and is intact (C14); the daemon accepts an offer only as it was
      agreed to ([accepted_only_when_agreed]), and with the window, only if a
      person accepted that offer in a dialog that showed it (C13).
    - Clipboard: every write and every send has an allowed cause (C11), what was
      written for a peer does not go out again (C18), the bounded event cache
      answers as the whole history would ([event_cache_refines]); what the
      platform is handed is an allowed clip, whole and marked as it is (C12),
      and no change of the clipboard goes unsignalled ([watch_never_misses]).
    - Notifications: what reaches the screen was sent by a permitted peer and
      has the form the lock state allows (C9), as safe text ([presented_safe]),
      and with logind's answers nothing but a name is shown unless the screen is
      known to be unlocked (C10); only human dismissals go back (C16); peers are
      isolated (C17); coalescing is invisible (C25) and closing work is never
      evicted ([queue_keeps_closing_work]); snapshots complete exactly
      ([snapshot_completes_exactly]); replaced sessions are counted exactly
      ([sessions_counted]); a worker finishes its batch (C26); validation, roles
      and the table of mirrors are exact ([validate_upsert_exact],
      [peer_roles_latest], [announced_is_heard], [mirror_insert_exact]).
    - Battery: a report arrives as made and in range, and the newest is held
      ([battery_report_arrives], [battery_newest_held]).
    - Control: a request changes rights only when it is a grant for that device,
      and only as asked (C30); an unpairing reaches every component (C29).
    - Window: the panel offers exactly the actions the daemon would accept
      ([panel_offers_exactly]), does not depend on the order of the reports
      ([panel_order_independent]), shows the newest activity first
      ([recent_newest]), and what it addresses is the device it shows (C31); a
      drawn state is one whole poll ([polls_drawn_whole]); a switch shows what
      the daemon holds ([switch_follows_daemon]) and does what it says (C32);
      the badges tell what the notification manager would do
      ([badges_tell_the_truth]).
    - Command line: a device is paired by a typed yes after it was named and not
      otherwise (C33); a command does at most the operation it names
      ([command_store]); what is printed to be typed back names the device it
      was printed for ([apply_hint_names_the_clip]); the daemon's own reports
      never make it panic ([transfers_print], [progress_prints]); a size is
      shown to the nearest tenth of its unit ([human_bytes_nearest]).
    - Tray: only clicks open windows, and a token leaves at most as often as it
      was offered (C34), and no click is lost ([no_click_lost]); the shell that
      runs is told of the item ([running_shell_is_told]); the objects are served
      before the name is taken ([served_before_named]); activation is repaired
      by at most one reload ([self_heal_reloads_once]).
    - Migration: whatever call fails, stores other data than it was given, or is
      cut short by a crash and a power failure, the old directory is untouched
      and the new one is as it was or a whole copy (C36); an undisturbed run
      then completes (C37); its record round-trips
      ([migration_record_roundtrip]).

    The witnesses run the definitions on concrete inputs. Some examples record
    behaviour that differs from what the source documents:
    [stale_temp_file_breaks_write], [add_peer_failed_write_still_trusts],
    [revocation_between_lookup_and_registration], [failed_unpair_keeps_session],
    [truncated_name_ends_in_dot], [broken_connection_keeps_the_question],
    [cut_breaks_an_entity], [eviction_drops_the_lock], [error_after_the_move],
    [record_cut_at_line_break], [device_id_names_another],
    [window_outlives_its_session], [older_session_closes_newer_window],
    [unknown_direction_is_received], [told_twice], [lost_transfer_is_success],
    and those of the files of runs.

    ** Bounds and fuel

    The copy loops of [Stream.v] take as fuel the number of bytes still to come:
    each turn moves at least one byte or returns, and the theorems include that
    the fuel is enough. The search for a free file name is bounded by the
    source's own 1000 candidates; decimal printing takes ten digits for a [u32]
    and twenty for a [u64]. The reader of markup in [NotifyText.v] takes the
    length of the text plus one. A worker's batch is bounded by a weight that
    every step lowers (C26); a follower of the shell parks after three waits and
    one for each change ([running_shell_is_told]). The loop that picks the unit
    of a size has the source's four steps. All other recursion is structural.

    ** What is not modelled

    The inside of TLS (rustls is a class: what a completed handshake proves of
    the keys), of GTK, of the D-Bus library and of the wl-clipboard tools;
    sockets and the tokio runtime; the widgets of the panel window and of the
    list of files ([gui/src/panel/mod.rs], [gui/src/views/files.rs]), which draw
    what [Panel.v] and [Gui.v] decide; parsing of command lines; the daemon's
    [main], which builds the parts in order; the Android application, which is
    written in Kotlin, the browser extension and the packaging. *)
From Stdlib Require Export Strings.Byte NArith ZArith Lia.
From stdpp Require Export base numbers list gmap strings sorting.

Open Scope N_scope.

(** * Results: the language's [Result<T, E>] *)

Inductive result (E A : Type) : Type :=
| Ok (a : A)
| Err (e : E).
Arguments Ok {_ _} _.
Arguments Err {_ _} _.

#[global] Instance result_ret {E} : MRet (result E) := fun A a => Ok a.
#[global] Instance result_bind {E} : MBind (result E) :=
  fun A B f r => match r with Ok a => f a | Err e => Err e end.
#[global] Instance result_fmap {E} : FMap (result E) :=
  fun A B f r => match r with Ok a => Ok (f a) | Err e => Err e end.

(** [Result::map_err] *)
Definition map_err {E E' A} (f : E -> E') (r : result E A) : result E' A :=
  match r with Ok a => Ok a | Err e => Err (f e) end.

(** [Option::ok_or] *)
Definition ok_or {E A} (e : E) (o : option A) : result E A :=
  match o with Some a => Ok a | None => Err e end.

(** [Result::is_ok] *)
Definition is_ok {E A} (r : result E A) : bool :=
  match r with Ok _ => true | Err _ => false end.

(** The early return of [if cond { return Err(e); }]. *)
Definition guard_err {E} (b : bool) (e : E) : result E unit :=
  if b then Err e else Ok tt.

Lemma bind_ok {E A B} (r : result E A) (f : A -> result E B) b :
  (r ≫= f) = Ok b <-> exists a, r = Ok a /\ f a = Ok b.
Proof.
  destruct r as [a|e]; cbn; split; [eauto | by intros (? & [= ->] & ?) | done | by intros (? & ? & ?)].
Qed.

Lemma map_err_ok {E E' A} (f : E -> E') (r : result E A) a :
  map_err f r = Ok a <-> r = Ok a.
Proof. destruct r; simpl; naive_solver. Qed.

Lemma ok_or_ok {E A} (e : E) (o : option A) a : ok_or e o = Ok a <-> o = Some a.
Proof. destruct o; simpl; naive_solver. Qed.

Lemma guard_err_ok {E} b (e : E) u : guard_err b e = Ok u <-> b = false.
Proof. destruct b, u; simpl; naive_solver. Qed.

(** * Machine integers

    Unsigned integers are [N] with their width written out where the source
    relies on it. *)

Definition u8_max : N := 255.
Definition u32_max : N := 4294967295.
Definition u64_max : N := 18446744073709551615.

(** [u64::saturating_add] *)
Definition sat_add_u64 (a b : N) : N := N.min (a + b) u64_max.

(** [+=] on a [u64] in a release build: wrap-around. *)
Definition wrap_add_u64 (a b : N) : N := (a + b) mod (u64_max + 1).

(** Seconds and milliseconds of a [Duration], in nanoseconds. *)
Definition from_secs (n : N) : N := n * 1000000000.
Definition from_millis (n : N) : N := n * 1000000.

(** The length of a list as an unsigned integer ([len()] of a slice or Vec). *)
Definition len {A} (l : list A) : N := N.of_nat (length l).

Lemma len_nil {A} : len (@nil A) = 0. Proof. reflexivity. Qed.
Lemma len_cons {A} (x : A) l : len (x :: l) = 1 + len l.
Proof. unfold len. simpl. lia. Qed.
Lemma len_app {A} (l k : list A) : len (l ++ k) = len l + len k.
Proof. unfold len. rewrite length_app. lia. Qed.
Lemma len_zero {A} (l : list A) : len l = 0 <-> l = [].
Proof. unfold len. destruct l; simpl; split; intros; (done || lia). Qed.

(** * Bytes *)

Abbreviation bytes := (list byte).

#[global] Instance byte_eq_decision : EqDecision byte := byte_eq_dec.
#[global] Program Instance byte_countable : Countable byte :=
  {| encode b := encode (to_N b); decode p := decode p ≫= of_N |}.
Next Obligation. intros b. simpl. rewrite decode_encode. apply of_to_N. Qed.

(** [as u8] *)
Definition byte_of_N (n : N) : byte :=
  match of_N (n mod 256) with Some b => b | None => x00 end.

Lemma to_N_lt b : to_N b < 256.
Proof. pose proof (to_N_bounded b). lia. Qed.

Lemma to_N_byte_of_N n : to_N (byte_of_N n) = n mod 256.
Proof.
  unfold byte_of_N. destruct (of_N (n mod 256)) as [b|] eqn:Hb.
  - by apply to_of_N.
  - apply of_N_None_iff in Hb. pose proof (N.mod_lt n 256). lia.
Qed.

Lemma to_N_inj a b : to_N a = to_N b -> a = b.
Proof. intros H. apply (f_equal of_N) in H. rewrite !of_to_N in H. naive_solver. Qed.

Lemma byte_of_N_to_N b : byte_of_N (to_N b) = b.
Proof.
  apply to_N_inj. rewrite to_N_byte_of_N. pose proof (to_N_lt b).
  by rewrite N.mod_small.
Qed.

(** [u32::to_be_bytes] and [u32::from_be_bytes]. *)
Definition u32_to_be_bytes (n : N) : bytes :=
  [byte_of_N (n / 16777216); byte_of_N (n / 65536);
   byte_of_N (n / 256); byte_of_N n].

Definition u32_from_be_bytes (b : bytes) : N :=
  foldl (fun acc x => acc * 256 + to_N x) 0 b.

Lemma u32_be_roundtrip n : n <= u32_max -> u32_from_be_bytes (u32_to_be_bytes n) = n.
Proof.
  unfold u32_max. intros Hn. unfold u32_from_be_bytes, u32_to_be_bytes.
  cbn [foldl]. rewrite !to_N_byte_of_N.
  assert (n / 16777216 = n / 256 / 256 / 256) as -> by (rewrite !N.Div0.div_div; done).
  assert (n / 65536 = n / 256 / 256) as -> by (rewrite !N.Div0.div_div; done).
  pose proof (N.div_mod' n 256). pose proof (N.div_mod' (n / 256) 256).
  pose proof (N.div_mod' (n / 256 / 256) 256).
  assert (n / 256 / 256 / 256 < 256) by (rewrite !N.Div0.div_div; apply N.Div0.div_lt_upper_bound; lia).
  rewrite (N.mod_small (n / 256 / 256 / 256)) by done. lia.
Qed.

Lemma u32_to_be_bytes_length n : length (u32_to_be_bytes n) = 4%nat.
Proof. done. Qed.

Lemma u32_from_be_bytes_le b : length b = 4%nat -> u32_from_be_bytes b <= u32_max.
Proof.
  destruct b as [|b0 [|b1 [|b2 [|b3 []]]]]; try done. intros _.
  unfold u32_from_be_bytes, u32_max. cbn [foldl].
  pose proof (to_N_lt b0). pose proof (to_N_lt b1).
  pose proof (to_N_lt b2). pose proof (to_N_lt b3). lia.
Qed.

(** * Fixed-width byte arrays: [[u8; n]] *)

Record bytesn (n : nat) : Type := BytesN {
  bn_bytes :> bytes;
  bn_ok : bool_decide (length bn_bytes = n)
}.
Arguments BytesN {_} _ _.
Arguments bn_bytes {_} _.

Lemma bytesn_eq {n} (a b : bytesn n) : bn_bytes a = bn_bytes b -> a = b.
Proof. destruct a, b; simpl; intros ->. f_equal. apply proof_irrel. Qed.

Lemma bytesn_length {n} (a : bytesn n) : length (bn_bytes a) = n.
Proof. destruct a as [b H]. simpl. by apply bool_decide_unpack in H. Qed.

#[global] Instance bytesn_eq_dec n : EqDecision (bytesn n).
Proof.
  intros a b. destruct (decide (bn_bytes a = bn_bytes b)) as [H|H].
  - left. by apply bytesn_eq.
  - right. congruence.
Defined.

(** [<[u8; n]>::try_from(&[u8])] *)
Definition try_into (n : nat) (b : bytes) : option (bytesn n) :=
  match decide (bool_decide (length b = n)) with
  | left H => Some (BytesN b H)
  | right _ => None
  end.

Lemma try_into_bytes {n} (a : bytesn n) : try_into n (bn_bytes a) = Some a.
Proof.
  unfold try_into. destruct a as [b H]; simpl.
  case_decide as H'; [|done]. f_equal. by apply bytesn_eq.
Qed.

Lemma try_into_some {n} b (a : bytesn n) : try_into n b = Some a <-> bn_bytes a = b.
Proof.
  split; [|intros <-; apply try_into_bytes].
  unfold try_into. case_decide; intros; by simplify_eq.
Qed.

Lemma try_into_none n b : try_into n b = None <-> length b <> n.
Proof.
  unfold try_into. case_decide as H; split; try done;
  [intros []; by apply bool_decide_unpack in H|].
  intros _ Hl. apply H. by apply bool_decide_pack.
Qed.

#[global] Program Instance bytesn_countable n : Countable (bytesn n) :=
  {| encode a := encode (bn_bytes a); decode p := decode p ≫= try_into n |}.
Next Obligation. intros n a. simpl. rewrite decode_encode. apply try_into_bytes. Qed.

(** * Strings

    A [String] is the list of its Unicode scalar values; [str_bytes] is its
    UTF-8 encoding and [str_len] the length the language's [len()] reports. *)

Abbreviation str := (list N).

Definition char_utf8 (c : N) : bytes :=
  if c <? 128 then [byte_of_N c]
  else if c <? 2048 then
    [byte_of_N (192 + c / 64); byte_of_N (128 + c mod 64)]
  else if c <? 65536 then
    [byte_of_N (224 + c / 4096); byte_of_N (128 + (c / 64) mod 64);
     byte_of_N (128 + c mod 64)]
  else
    [byte_of_N (240 + c / 262144); byte_of_N (128 + (c / 4096) mod 64);
     byte_of_N (128 + (c / 64) mod 64); byte_of_N (128 + c mod 64)].

(** [char::len_utf8] *)
Definition char_len (c : N) : N := len (char_utf8 c).

Definition str_bytes (s : str) : bytes := s ≫= char_utf8.

(** [str::len] *)
Definition str_len (s : str) : N := len (str_bytes s).

(** Source string and byte-string literals (ASCII). *)
Definition lit (s : string) : str := to_N <$> String.list_byte_of_string s.
Definition blit (s : string) : bytes := String.list_byte_of_string s.

Lemma str_bytes_app s t : str_bytes (s ++ t) = str_bytes s ++ str_bytes t.
Proof. unfold str_bytes. by rewrite bind_app. Qed.

Lemma str_len_nil : str_len [] = 0. Proof. reflexivity. Qed.
Lemma str_len_cons c s : str_len (c :: s) = char_len c + str_len s.
Proof. unfold str_len, str_bytes, char_len. simpl. by rewrite len_app. Qed.
Lemma str_len_app s t : str_len (s ++ t) = str_len s + str_len t.
Proof. unfold str_len. by rewrite str_bytes_app, len_app. Qed.

Lemma char_len_bounds c : 1 <= char_len c <= 4.
Proof. unfold char_len, char_utf8. repeat case_match; compute; split; congruence. Qed.

Lemma char_len_ascii c : c < 128 -> char_len c = 1.
Proof.
  intros H. unfold char_len, char_utf8.
  destruct (N.ltb_spec c 128); [done | lia].
Qed.

Lemma str_len_ascii s : Forall (fun c => c < 128) s -> str_len s = len s.
Proof.
  induction 1 as [|c s Hc Hs IH]; [done|].
  rewrite str_len_cons, len_cons, IH, char_len_ascii; done.
Qed.

Lemma len_le_str_len s : len s <= str_len s.
Proof.
  induction s as [|c s IH]; [done|].
  rewrite str_len_cons, len_cons. pose proof (char_len_bounds c). lia.
Qed.

Lemma str_len_zero s : str_len s = 0 <-> s = [].
Proof.
  split; [|by intros ->]. pose proof (len_le_str_len s). intros.
  apply len_zero. lia.
Qed.

(** Character classes of [char] and [u8]. *)
Definition in_range (a b c : N) : bool := (a <=? c) && (c <=? b).
Definition is_ascii_digit (c : N) : bool := in_range 48 57 c.
Definition is_ascii_hexdigit (c : N) : bool :=
  is_ascii_digit c || in_range 97 102 c || in_range 65 70 c.
(** [char::is_control]: general category Cc. *)
Definition is_control (c : N) : bool := (c <=? 31) || in_range 127 159 c.
(** [char::is_whitespace]: the White_Space property. *)
Definition is_whitespace (c : N) : bool :=
  in_range 9 13 c || (c =? 32) || (c =? 133) || (c =? 160) || (c =? 5760)
  || in_range 8192 8202 c || (c =? 8232) || (c =? 8233) || (c =? 8239)
  || (c =? 8287) || (c =? 12288).
(** [to_ascii_lowercase] *)
Definition ascii_lower (c : N) : N := if in_range 65 90 c then c + 32 else c.
Definition ascii_upper (c : N) : N := if in_range 97 122 c then c - 32 else c.

(** [slice::chunks(4)] *)
Fixpoint chunks4 (fuel : nat) (s : list N) : list (list N) :=
  match fuel with
  | O => []
  | S fuel => match s with [] => [] | _ => take 4 s :: chunks4 fuel (drop 4 s) end
  end.

Fixpoint drop_while {A} (p : A -> bool) (l : list A) : list A :=
  match l with
  | [] => []
  | x :: l' => if p x then drop_while p l' else l
  end.

(** [str::trim_start] and [trim_end_matches] with a character predicate. *)
Definition trim_start (s : str) : str := drop_while is_whitespace s.
Definition trim_end_matches (p : N -> bool) (s : str) : str :=
  rev (drop_while p (rev s)).
Definition trim (s : str) : str := trim_end_matches is_whitespace (trim_start s).

(** [str::starts_with] *)
Fixpoint starts_with (p s : str) : bool :=
  match p, s with
  | [], _ => true
  | a :: p', b :: s' => (a =? b) && starts_with p' s'
  | _, [] => false
  end.

Lemma starts_with_prefix p s : starts_with p s = true <-> p `prefix_of` s.
Proof.
  revert s. induction p as [|a p IH]; intros s; simpl.
  { split; [intros; apply prefix_nil | done]. }
  destruct s as [|b s]; [split; [done|intros H%prefix_nil_inv; done]|].
  rewrite andb_true_iff, N.eqb_eq, IH. split.
  - intros [-> ?]. by apply prefix_cons.
  - intros H. split; [by apply prefix_cons_inv_1 in H | by apply prefix_cons_inv_2 in H].
Qed.

Lemma drop_while_split {A} (p : A -> bool) l : exists k, l = k ++ drop_while p l /\ Forall (fun x => p x = true) k.
Proof.
  induction l as [|x l (k & Hk & Hall)]; [by exists []|]. simpl. destruct (p x) eqn:Hp.
  - exists (x :: k). split; [by rewrite Hk at 1 | by constructor].
  - by exists [].
Qed.

Lemma drop_while_suffix {A} (p : A -> bool) l : exists k, l = k ++ drop_while p l.
Proof.
  induction l as [|x l [k IH]]; simpl; [by exists []|].
  destruct (p x); [exists (x :: k); simpl; congruence | by exists []].
Qed.

Lemma drop_while_head {A} (p : A -> bool) l x l' :
  drop_while p l = x :: l' -> p x = false.
Proof. induction l as [|y l IH]; simpl; [done|]. destruct (p y) eqn:?; naive_solver. Qed.

Lemma drop_while_id {A} (p : A -> bool) l :
  (forall x l', l = x :: l' -> p x = false) -> drop_while p l = l.
Proof. destruct l as [|x l]; [done|]. intros H. simpl. by rewrite (H x l). Qed.

(** [str::split_once] on a character. *)
Fixpoint split_once (c : N) (s : str) : option (str * str) :=
  match s with
  | [] => None
  | x :: s' =>
      if x =? c then Some ([], s')
      else match split_once c s' with Some (a, b) => Some (x :: a, b) | None => None end
  end.

(** [str::splitn]: at most [n] pieces, the last one the remainder. *)
Fixpoint splitn (n : nat) (c : N) (s : str) : list str :=
  match n with
  | O => []
  | 1%nat => [s]
  | S n' => match split_once c s with Some (a, b) => a :: splitn n' c b | None => [s] end
  end.

(** [str::split] on a character: one piece more than the string has separators. *)
Fixpoint split (c : N) (s : str) : list str :=
  match s with
  | [] => [[]]
  | x :: s' =>
      if x =? c then [] :: split c s'
      else match split c s' with p :: ps => (x :: p) :: ps | [] => [[x]] end
  end.

(** [slice::join] *)
Fixpoint join (sep : str) (l : list str) : str :=
  match l with
  | [] => []
  | [x] => x
  | x :: l' => x ++ sep ++ join sep l'
  end.

(** [str::strip_prefix] *)
Definition strip_prefix (p s : str) : option str :=
  if starts_with p s then Some (drop (length p) s) else None.

(** [u32::to_string] *)
Fixpoint digits (fuel : nat) (n : N) : str :=
  match fuel with
  | O => []
  | S fuel' => if n <? 10 then [48 + n] else digits fuel' (n / 10) ++ [48 + n mod 10]
  end.
Definition u32_to_string (n : N) : str := digits 10 n.

(** Separators and dots of file names. *)
Definition SLASH : N := 47.
Definition BACKSLASH : N := 92.
Definition DOT : N := 46.

Lemma split_once_app c a b : c ∉ a -> split_once c (a ++ c :: b) = Some (a, b).
Proof.
  induction a as [|x a IH]; intros Hc; simpl; [by rewrite N.eqb_refl|].
  apply not_elem_of_cons in Hc as [Hx Ha]. rewrite (proj2 (N.eqb_neq x c)) by done.
  by rewrite IH.
Qed.

Lemma filter_all {A} (P : A -> Prop) `{forall x, Decision (P x)} l : Forall P l -> filter P l = l.
Proof. induction 1 as [|x l Hx _ IH]; [done|]. rewrite filter_cons_True by done. by rewrite IH. Qed.

Lemma filter_none {A} (P : A -> Prop) `{forall x, Decision (P x)} l : Forall (fun x => ~ P x) l -> filter P l = [].
Proof. induction 1 as [|x l Hx _ IH]; [done|]. by rewrite filter_cons_False by done. Qed.

Fixpoint take_while {A} (p : A -> bool) (l : list A) : list A :=
  match l with
  | [] => []
  | x :: l' => if p x then x :: take_while p l' else []
  end.

(** [str::rfind(c)]: the text before the last [c], and the text from it on. *)
Fixpoint rfind_split (c : N) (s : str) : option (str * str) :=
  match s with
  | [] => None
  | x :: s' =>
      match rfind_split c s' with
      | Some (a, b) => Some (x :: a, b)
      | None => if x =? c then Some ([], s) else None
      end
  end.

(** [str::is_char_boundary] and [&s[..i]] for a boundary [i]. *)
Fixpoint is_char_boundary (s : str) (i : N) : bool :=
  (i =? 0) || match s with [] => false | c :: s' => (char_len c <=? i) && is_char_boundary s' (i - char_len c) end.
Fixpoint str_to (s : str) (i : N) : str :=
  match s with
  | [] => []
  | c :: s' => if char_len c <=? i then c :: str_to s' (i - char_len c) else []
  end.

Lemma rfind_split_some c s a b : rfind_split c s = Some (a, b) ->
  s = a ++ b /\ exists t, b = c :: t /\ c ∉ t.
Proof.
  revert a b. induction s as [|x s IH]; intros a b; simpl; [done|].
  destruct (rfind_split c s) as [[a' b']|] eqn:Hs.
  { intros [= <- <-]. destruct (IH _ _ eq_refl) as [-> ?]. done. }
  destruct (N.eqb_spec x c) as [->|]; [|done]. intros [= <- <-]. split; [done|].
  exists s. split; [done|]. clear IH. induction s as [|y s IHs]; [apply not_elem_of_nil|].
  simpl in Hs. destruct (rfind_split c s) as [[]|]; [done|].
  destruct (N.eqb_spec y c); [done|]. set_solver.
Qed.

Lemma str_to_app a b : str_to (a ++ b) (str_len a) = a.
Proof.
  induction a as [|c a IH]; simpl; [by destruct b as [|x b]; [|simpl; pose proof (char_len_bounds x);
    destruct (N.leb_spec (char_len x) (str_len [])); [rewrite str_len_nil in *; lia|]]|].
  rewrite str_len_cons. destruct (N.leb_spec (char_len c) (char_len c + str_len a)); [|lia].
  f_equal. by replace (char_len c + str_len a - char_len c) with (str_len a) by lia.
Qed.

Lemma str_to_prefix s i : str_to s i `prefix_of` s.
Proof.
  revert i. induction s as [|c s IH]; intros i; simpl; [done|].
  case_match; [by apply prefix_cons | apply prefix_nil].
Qed.

Lemma str_to_boundary s i : is_char_boundary s i = true -> str_len (str_to s i) = i.
Proof.
  revert i. induction s as [|c s IH]; intros i; simpl; destruct (N.eqb_spec i 0) as [->|Hi]; simpl; try done.
  { intros _. pose proof (char_len_bounds c). destruct (N.leb_spec (char_len c) 0); [lia|done]. }
  intros [Hle Hb]%andb_true_iff. rewrite Hle. apply N.leb_le in Hle.
  rewrite str_len_cons, (IH _ Hb). lia.
Qed.

(** A character boundary is at most three bytes below any index. *)
Lemma boundary_near s i : i <= str_len s -> exists j, j <= i <= j + 3 /\ is_char_boundary s j = true.
Proof.
  revert i. induction s as [|c s IH]; intros i Hi.
  { exists 0. rewrite str_len_nil in Hi. split; [lia|done]. }
  rewrite str_len_cons in Hi. destruct (N.leb_spec (char_len c) i) as [Hle|Hlt].
  - destruct (IH (i - char_len c)) as (j & Hj & Hb); [lia|].
    exists (j + char_len c). split; [lia|]. simpl.
    pose proof (char_len_bounds c). destruct (N.eqb_spec (j + char_len c) 0); [done|]. simpl.
    destruct (N.leb_spec (char_len c) (j + char_len c)); [|lia].
    by replace (j + char_len c - char_len c) with j by lia.
  - exists 0. pose proof (char_len_bounds c). split; [lia | by destruct s].
Qed.

Lemma take_while_prefix {A} (p : A -> bool) l : take_while p l `prefix_of` l.
Proof. induction l as [|x l IH]; simpl; [done|]. case_match; [by apply prefix_cons | apply prefix_nil]. Qed.

Lemma take_while_all {A} (p : A -> bool) l : Forall (fun x => p x = true) (take_while p l).
Proof. induction l as [|x l IH]; simpl; [done|]. case_match; auto. Qed.

Lemma take_while_id {A} (p : A -> bool) l : Forall (fun x => p x = true) l -> take_while p l = l.
Proof. induction 1 as [|x l Hx _ IH]; simpl; [done|]. by rewrite Hx, IH. Qed.

(** * Ordered maps: the iteration order of a [BTreeMap]

    Maps are [gmap]s; a [BTreeMap] iterates by increasing key.  Keys are
    compared through [key_code], the sequence of their bytes or characters,
    lexicographically (UTF-8 preserves the order of scalar values). *)

Class KeyCode (K : Type) := {
  key_code : K -> list N;
  key_code_inj : forall a b, key_code a = key_code b -> a = b
}.

Fixpoint lex_leb (a b : list N) : bool :=
  match a, b with
  | [], _ => true
  | _ :: _, [] => false
  | x :: a', y :: b' => (x <? y) || ((x =? y) && lex_leb a' b')
  end.

Lemma lex_leb_refl a : lex_leb a a = true.
Proof. induction a as [|x a IH]; simpl; [done|]. rewrite N.eqb_refl, IH. apply orb_true_r. Qed.

Lemma lex_leb_total a b : lex_leb a b = true \/ lex_leb b a = true.
Proof.
  revert b. induction a as [|x a IH]; intros [|y b]; simpl; auto.
  destruct (N.lt_trichotomy x y) as [H|[->|H]].
  - left. by rewrite (proj2 (N.ltb_lt _ _) H).
  - rewrite N.ltb_irrefl, N.eqb_refl. simpl. apply IH.
  - right. by rewrite (proj2 (N.ltb_lt _ _) H).
Qed.

Lemma lex_leb_trans a b c : lex_leb a b = true -> lex_leb b c = true -> lex_leb a c = true.
Proof.
  revert b c. induction a as [|x a IH]; intros [|y b] [|z c]; simpl; try done.
  rewrite !orb_true_iff, !andb_true_iff, !N.ltb_lt, !N.eqb_eq.
  intros [?|[-> ?]] [?|[-> ?]]; eauto; left; lia.
Qed.

Lemma lex_leb_antisym a b : lex_leb a b = true -> lex_leb b a = true -> a = b.
Proof.
  revert b. induction a as [|x a IH]; intros [|y b]; simpl; try done.
  rewrite !orb_true_iff, !andb_true_iff, !N.ltb_lt, !N.eqb_eq.
  intros [?|[-> ?]] [?|[? ?]]; try lia. f_equal; eauto.
Qed.

#[global] Instance str_key : KeyCode str := {| key_code s := s; key_code_inj a b H := H |}.
#[global] Program Instance bytesn_key n : KeyCode (bytesn n) :=
  {| key_code a := to_N <$> bn_bytes a |}.
Next Obligation.
  intros n a b H. apply bytesn_eq. cbv beta in H.
  revert H. generalize (bn_bytes a) as l, (bn_bytes b) as k.
  induction l as [|x l IH]; intros [|y k] H; try done.
  rewrite !fmap_cons in H. injection H as Hx Hl. f_equal; [by apply to_N_inj | by apply IH].
Qed.

Section Ordered.
Context {K : Type} `{!EqDecision K, !Countable K, !KeyCode K}.

Definition key_le (a b : K) : Prop := lex_leb (key_code a) (key_code b) = true.

#[global] Instance key_le_dec a b : Decision (key_le a b).
Proof. unfold key_le. apply _. Defined.
#[global] Instance key_le_total : Total key_le.
Proof. intros a b. apply lex_leb_total. Qed.
#[global] Instance key_le_trans : Transitive key_le.
Proof. intros a b c. apply lex_leb_trans. Qed.
#[global] Instance key_le_antisym : AntiSymm eq key_le.
Proof. intros a b H1 H2. apply key_code_inj. by apply lex_leb_antisym. Qed.

Definition item_le {V} (a b : K * V) : Prop := key_le a.1 b.1.
#[global] Instance item_le_dec {V} (a b : K * V) : Decision (item_le a b).
Proof. unfold item_le. apply _. Defined.
#[global] Instance item_le_total {V} : Total (@item_le V).
Proof. intros a b. apply (total key_le). Qed.
#[global] Instance item_le_trans {V} : Transitive (@item_le V).
Proof. intros a b c. apply (transitivity (R := key_le)). Qed.

(** [BTreeMap::iter], [keys] and [values]. *)
Definition bt_items {V} (m : gmap K V) : list (K * V) :=
  merge_sort item_le (map_to_list m).
Definition bt_keys {V} (m : gmap K V) : list K := (bt_items m).*1.
Definition bt_values {V} (m : gmap K V) : list V := (bt_items m).*2.

Lemma elem_of_bt_items {V} (m : gmap K V) k v : (k, v) ∈ bt_items m <-> m !! k = Some v.
Proof. unfold bt_items. by rewrite merge_sort_Permutation, elem_of_map_to_list. Qed.

Lemma elem_of_bt_values {V} (m : gmap K V) v :
  v ∈ bt_values m <-> exists k, m !! k = Some v.
Proof.
  unfold bt_values. rewrite list_elem_of_fmap. split.
  - intros ([k v'] & -> & H). exists k. by apply elem_of_bt_items.
  - intros [k H]. exists (k, v). split; [done|]. by apply elem_of_bt_items.
Qed.

Lemma elem_of_bt_keys {V} (m : gmap K V) k : k ∈ bt_keys m <-> is_Some (m !! k).
Proof.
  unfold bt_keys. rewrite list_elem_of_fmap. split.
  - intros ([k' v'] & -> & H). exists v'. by apply elem_of_bt_items.
  - intros [v H]. exists (k, v). split; [done|]. by apply elem_of_bt_items.
Qed.

Lemma bt_keys_nodup {V} (m : gmap K V) : NoDup (bt_keys m).
Proof.
  unfold bt_keys, bt_items. rewrite merge_sort_Permutation. apply NoDup_fst_map_to_list.
Qed.

Lemma bt_items_sorted {V} (m : gmap K V) : StronglySorted item_le (bt_items m).
Proof. apply (StronglySorted_merge_sort _); apply _. Qed.

Lemma list_to_map_bt_items {V} (m : gmap K V) : list_to_map (bt_items m) = m.
Proof.
  rewrite <- (list_to_map_to_list m) at 2. apply list_to_map_proper.
  - apply bt_keys_nodup.
  - apply merge_sort_Permutation.
Qed.
End Ordered.

(** [.collect::<BTreeMap>()] of an iterator of pairs: a later pair replaces an
    earlier one with the same key. *)
Definition collect_map {K V} `{Countable K} (l : list (K * V)) : gmap K V :=
  foldl (fun m kv => <[kv.1 := kv.2]> m) ∅ l.

Lemma collect_map_snoc {K V} `{Countable K} (l : list (K * V)) k v :
  collect_map (l ++ [(k, v)]) = <[k := v]> (collect_map l).
Proof. unfold collect_map. by rewrite foldl_app. Qed.

Lemma collect_map_nodup {K V} `{Countable K} (l : list (K * V)) :
  NoDup l.*1 -> collect_map l = list_to_map l.
Proof.
  induction l as [|[k v] l IH] using rev_ind; [done|].
  rewrite fmap_app. simpl. intros (Hl & Hk & _)%NoDup_app.
  rewrite collect_map_snoc, IH by done.
  rewrite list_to_map_app. simpl. rewrite insert_empty, <- insert_union_singleton_r; [done|].
  apply not_elem_of_list_to_map_1. intros Hin. apply (Hk k Hin). set_solver.
Qed.

Lemma collect_map_lookup_in {K V} `{Countable K} (l : list (K * V)) k v :
  collect_map l !! k = Some v -> (k, v) ∈ l.
Proof.
  induction l as [|[k' v'] l IH] using rev_ind; [done|].
  rewrite collect_map_snoc, elem_of_app. destruct (decide (k' = k)) as [->|Hne].
  - rewrite lookup_insert_eq. intros [= ->]. set_solver.
  - rewrite lookup_insert_ne by done. auto.
Qed.

(** * Lists *)

(** [Iterator::position] *)
Fixpoint position {A} (p : A -> bool) (l : list A) : option nat :=
  match l with
  | [] => None
  | x :: l' => if p x then Some 0%nat else S <$> position p l'
  end.

Lemma position_some {A} (p : A -> bool) l i :
  position p l = Some i ->
  exists x, l !! i = Some x /\ p x = true /\ forall j y, (j < i)%nat -> l !! j = Some y -> p y = false.
Proof.
  revert i. induction l as [|x l IH]; intros i; simpl; [done|].
  destruct (p x) eqn:Hx.
  - intros [= <-]. exists x. split_and!; try done. intros; lia.
  - destruct (position p l) as [i'|]; simpl; [|done]. intros [= <-].
    destruct (IH i' eq_refl) as (y & Hy & Hpy & Hlt). exists y. split_and!; try done.
    intros [|j] z Hj Hz; simpl in *; [congruence|]. apply (Hlt j); [lia | done].
Qed.

Lemma position_none {A} (p : A -> bool) l : position p l = None <-> Forall (fun x => p x = false) l.
Proof.
  induction l as [|x l IH]; simpl; [split; auto|].
  destruct (p x) eqn:Hx.
  - split; [done|]. intros H. inversion H. congruence.
  - rewrite fmap_None, IH, Forall_cons. naive_solver.
Qed.

(** [Iterator::find] with a boolean test. *)
Definition find_b {A} (p : A -> bool) (l : list A) : option A := List.find p l.

Lemma find_b_some {A} (p : A -> bool) l x : find_b p l = Some x -> x ∈ l /\ p x = true.
Proof. intros H. apply List.find_some in H. by rewrite list_elem_of_In. Qed.

Lemma find_b_none {A} (p : A -> bool) l x : find_b p l = None -> x ∈ l -> p x = false.
Proof. intros H Hx. apply (List.find_none _ _ H). by rewrite <- list_elem_of_In. Qed.

(** [Iterator::find_map] *)
Fixpoint find_map {A B} (f : A -> option B) (l : list A) : option B :=
  match l with [] => None | a :: l' => match f a with Some b => Some b | None => find_map f l' end end.

Lemma find_map_some {A B} (f : A -> option B) l b : find_map f l = Some b -> exists a, a ∈ l /\ f a = Some b.
Proof.
  induction l as [|a l IH]; simpl; [done|]. destruct (f a) eqn:Hf; [intros [= <-]; exists a; split; [by left|done]|].
  intros (a' & ? & ?)%IH. exists a'. split; [by right|done].
Qed.

(** * Boolean equality on decidable types, as the language's [==]. *)
Definition eqb {A} `{EqDecision A} (a b : A) : bool := bool_decide (a = b).

Lemma eqb_true {A} `{EqDecision A} (a b : A) : eqb a b = true <-> a = b.
Proof. apply bool_decide_eq_true. Qed.
Lemma eqb_false {A} `{EqDecision A} (a b : A) : eqb a b = false <-> a <> b.
Proof. apply bool_decide_eq_false. Qed.
Lemma eqb_eq {A} `{EqDecision A} (a b : A) : eqb a b = true -> a = b.
Proof. apply eqb_true. Qed.
Lemma eqb_neq {A} `{EqDecision A} (a b : A) : eqb a b = false -> a <> b.
Proof. apply eqb_false. Qed.
Lemma eqb_refl {A} `{EqDecision A} (a : A) : eqb a a = true.
Proof. by apply eqb_true. Qed.

(** [slice::contains] and [iter().any(|g| g == c)] for decidable equality. *)
Definition mem {A} `{EqDecision A} (x : A) (l : list A) : bool := existsb (eqb x) l.

Lemma mem_true {A} `{EqDecision A} (x : A) l : mem x l = true <-> x ∈ l.
Proof.
  unfold mem. rewrite existsb_exists. setoid_rewrite eqb_true. rewrite list_elem_of_In.
  naive_solver.
Qed.
Lemma mem_false {A} `{EqDecision A} (x : A) l : mem x l = false <-> x ∉ l.
Proof. rewrite <- mem_true. by destruct (mem x l). Qed.

(** * Automation *)

Create HintDb pliwee.
Create Rewrite HintDb result_inv.
Create Rewrite HintDb len.
Create Rewrite HintDb bool_prop.
#[export] Hint Resolve lex_leb_refl eqb_refl try_into_bytes bytesn_length : pliwee.
#[export] Hint Rewrite @bind_ok @map_err_ok @ok_or_ok @guard_err_ok : result_inv.
#[export] Hint Rewrite @len_nil @len_cons @len_app : len.
#[export] Hint Rewrite @eqb_true @eqb_false @mem_true @mem_false
  andb_true_iff andb_false_iff orb_true_iff orb_false_iff negb_true_iff negb_false_iff
  N.eqb_eq N.eqb_neq N.ltb_lt N.ltb_ge N.leb_le N.leb_gt : bool_prop.

(** Turns boolean hypotheses and goals into propositions. *)
Ltac to_prop := autorewrite with bool_prop in *.

(** Inverts a computation in the [result] monad that ended in [Ok]. *)
Ltac inv_result :=
  repeat match goal with
  | H : (_ ≫= _) = Ok _ |- _ => apply bind_ok in H; destruct H as (? & ? & H)
  | H : map_err _ _ = Ok _ |- _ => apply map_err_ok in H
  | H : ok_or _ _ = Ok _ |- _ => apply ok_or_ok in H
  | H : guard_err _ _ = Ok _ |- _ => apply guard_err_ok in H
  | H : Ok _ = Ok _ |- _ => injection H as H
  | H : Err _ = Ok _ |- _ => discriminate H
  | H : mret _ = Ok _ |- _ => injection H as H
  end; subst.

(** Case analysis on the conditionals and matches of a goal. *)
Ltac cases := repeat (case_match; simplify_eq/=; try done).
