(* ===== verification/External.v ===== *)
(** Third-party code, as the program uses it.

    Each class is one crate the sources call and do not contain: its fields are
    the functions called, its laws the documented behaviour the theorems rely
    on.  The definitions of the other files take these as arguments; the
    implementations at the end of this file show that the laws can be met, and
    are what the concrete runs use. *)
From S2P Require Import Prelude.

(** * Interfaces *)

(** [data_encoding::HEXLOWER] (and [HEXUPPER] for display). *)
Class HexCodec := {
  hexlower_encode : bytes -> str;
  hexlower_decode : bytes -> option bytes;
  hexlower_decode_encode b : hexlower_decode (str_bytes (hexlower_encode b)) = Some b;
  hexlower_canonical raw b :
    hexlower_decode raw = Some b -> raw = str_bytes (hexlower_encode b);
  hexlower_alphabet b :
    Forall (fun c => is_ascii_digit c || in_range 97 102 c = true) (hexlower_encode b);
  hexlower_encode_len b : length (hexlower_encode b) = (2 * length b)%nat
}.

(** [data_encoding::BASE32_NOPAD]. *)
Class Base32Codec := {
  base32_encode : bytes -> str;
  base32_decode : bytes -> option bytes;
  base32_decode_encode b : base32_decode (str_bytes (base32_encode b)) = Some b;
  base32_alphabet b :
    Forall (fun c => in_range 65 90 c || in_range 50 55 c = true) (base32_encode b);
  base32_encode_len b : (length (base32_encode b) <= 2 * length b)%nat
}.

(** [sha2::Sha256] and [hmac::Hmac<Sha256>].  No law: every theorem holds for
    any pair of functions of these types. *)
Class Crypto := {
  sha256 : bytes -> bytesn 32;
  hmac_sha256 : bytes -> bytes -> bytesn 32
}.

(** [prost::Message] for one message type: [encode_to_vec] and [decode]. *)
Class Prost (M : Type) := {
  encode_to_vec : M -> bytes;
  prost_decode : bytes -> option M;
  prost_decode_encode m : prost_decode (encode_to_vec m) = Some m
}.

(** [serde_json] for one document type: [to_vec_pretty] and [from_slice].
    Serialization of the document types of this program does not fail. *)
Class Json (D : Type) := {
  to_vec_pretty : D -> bytes;
  from_slice : bytes -> option D;
  from_slice_to_vec d : from_slice (to_vec_pretty d) = Some d
}.

(** [data_encoding::BASE64]. *)
Class Base64Codec := {
  base64_encode : bytes -> str;
  base64_decode : bytes -> option bytes;
  base64_decode_encode b : base64_decode (str_bytes (base64_encode b)) = Some b
}.

(** [rcgen] and [rustls]'s key handling: a fresh key pair as PKCS#8, a
    self-signed certificate for a key and a device id, whether a key parses,
    and whether it belongs to a certificate.  [entropy] is one draw of the
    system's generator. *)
Inductive KeysMatch := KeysEqual | KeysUnknown | KeysDiffer.

Class KeyOps := {
  entropy : Type;
  keypair_generate : entropy -> option bytes;
  random_16 : entropy -> option (bytesn 16);
  self_signed : entropy -> bytes -> str -> option bytes;
  any_ecdsa_type : bytes -> bool;
  keys_match : bytes -> bytes -> KeysMatch
}.

(** [x509_parser]: the SubjectPublicKeyInfo of a DER certificate. *)
Class X509 := { parse_spki : bytes -> option bytes }.

(** [std::net::SocketAddr]: [Display] and [FromStr], which the standard
    library documents as inverse; the printed form has no comma. *)
Class SockAddr := {
  socket_addr : Type;
  #[global] socket_addr_eq_dec :: EqDecision socket_addr;
  addr_to_string : socket_addr -> str;
  addr_parse : str -> option socket_addr;
  addr_parse_to_string a : addr_parse (addr_to_string a) = Some a;
  addr_to_string_no_comma a : 44 ∉ addr_to_string a;
  addr_to_string_nonempty a : addr_to_string a <> []
}.

(** * Concrete hexadecimal digits *)

Definition hex_digit (n : N) : N := if n <? 10 then 48 + n else 87 + n.

Definition hex_byte (b : byte) : str :=
  [hex_digit (to_N b / 16); hex_digit (to_N b mod 16)].

(** The value of a hexadecimal digit, either case ([from_str_radix(_, 16)] of
    one digit). *)
Definition hex_val (c : N) : option N :=
  if is_ascii_digit c then Some (c - 48)
  else if in_range 97 102 c then Some (c - 87)
  else if in_range 65 70 c then Some (c - 55)
  else None.

Definition hex_val_lower (c : N) : option N :=
  if in_range 65 70 c then None else hex_val c.

Fixpoint hex_pairs (val : N -> option N) (l : list N) : option bytes :=
  match l with
  | [] => Some []
  | a :: b :: l' =>
      x ← val a; y ← val b; r ← hex_pairs val l';
      Some (byte_of_N (16 * x + y) :: r)
  | _ => None
  end.

Definition hex_string (b : bytes) : str := b ≫= hex_byte.

Lemma hex_byte_spec b :
  exists hi lo, hex_byte b = [hi; lo] /\ hi < 128 /\ lo < 128 /\
    hex_val_lower hi = Some (to_N b / 16) /\ hex_val_lower lo = Some (to_N b mod 16) /\
    hex_val hi = Some (to_N b / 16) /\ hex_val lo = Some (to_N b mod 16) /\
    byte_of_N (16 * (to_N b / 16) + to_N b mod 16) = b.
Proof.
  eexists _, _. split; [reflexivity|].
  rewrite <- N.div_mod', byte_of_N_to_N.
  destruct b; vm_compute; repeat split; done.
Qed.

Lemma hex_pairs_string (val : N -> option N) b :
  (forall x, exists hi lo, hex_byte x = [hi; lo] /\
     val hi = Some (to_N x / 16) /\ val lo = Some (to_N x mod 16)) ->
  hex_pairs val (hex_string b) = Some b.
Proof.
  intros Hv. induction b as [|x b IH]; [done|].
  unfold hex_string in *. rewrite bind_cons.
  destruct (Hv x) as (hi & lo & Hx & Hhi & Hlo). rewrite Hx. cbn [app hex_pairs].
  rewrite Hhi, Hlo. simpl. rewrite IH. simpl.
  by rewrite <- N.div_mod', byte_of_N_to_N.
Qed.

Lemma hex_string_ascii b : Forall (fun c => c < 128) (hex_string b).
Proof.
  induction b as [|x b IH]; [done|]. unfold hex_string. rewrite bind_cons.
  destruct (hex_byte_spec x) as (hi & lo & -> & ? & ? & _). by repeat constructor.
Qed.

Lemma hex_string_length b : length (hex_string b) = (2 * length b)%nat.
Proof.
  induction b as [|x b IH]; [done|]. unfold hex_string in *.
  rewrite bind_cons, length_app, IH. simpl. lia.
Qed.

(** * Implementations *)

Lemma str_bytes_ascii s : Forall (fun c => c < 128) s -> to_N <$> str_bytes s = s.
Proof.
  induction 1 as [|c s Hc Hs IH]; [done|].
  unfold str_bytes in *. rewrite bind_cons, fmap_app, IH.
  unfold char_utf8. rewrite (proj2 (N.ltb_lt _ _) Hc). simpl.
  rewrite to_N_byte_of_N, N.mod_small by lia. done.
Qed.

Lemma str_bytes_of_ascii raw : Forall (fun b => to_N b < 128) raw ->
  str_bytes (to_N <$> raw) = raw.
Proof.
  induction 1 as [|b raw Hb Hr IH]; [done|].
  unfold str_bytes in *. rewrite fmap_cons, bind_cons, IH.
  unfold char_utf8. rewrite (proj2 (N.ltb_lt _ _) Hb). simpl. by rewrite byte_of_N_to_N.
Qed.

Lemma hex_val_lower_digit c v : hex_val_lower c = Some v ->
  c < 128 /\ v < 16 /\ hex_digit v = c.
Proof.
  unfold hex_val_lower, hex_val, is_ascii_digit, in_range, hex_digit.
  intros H. repeat case_match; simplify_eq; to_prop; lia.
Qed.

Lemma hex_byte_of_digits x y : x < 16 -> y < 16 ->
  hex_byte (byte_of_N (16 * x + y)) = [hex_digit x; hex_digit y].
Proof.
  intros Hx Hy. unfold hex_byte. rewrite to_N_byte_of_N, N.mod_small by lia.
  assert ((16 * x + y) / 16 = x) as ->.
  { symmetry. apply (N.div_unique _ 16 x y); lia. }
  assert ((16 * x + y) mod 16 = y) as ->.
  { symmetry. apply (N.mod_unique _ 16 x y); lia. }
  done.
Qed.

Lemma hex_pairs_canonical l b : hex_pairs hex_val_lower l = Some b ->
  hex_string b = l /\ Forall (fun c => c < 128) l.
Proof.
  revert b. induction l as [l IH] using (induction_ltof1 _ length). intros b.
  destruct l as [|c1 [|c2 l]]; simpl; try done.
  { intros [= <-]. done. }
  destruct (hex_val_lower c1) as [x|] eqn:H1; simpl; [|done].
  destruct (hex_val_lower c2) as [y|] eqn:H2; simpl; [|done].
  destruct (hex_pairs hex_val_lower l) as [r|] eqn:H3; simpl; [|done].
  intros [= <-].
  apply hex_val_lower_digit in H1 as (? & ? & <-).
  apply hex_val_lower_digit in H2 as (? & ? & <-).
  apply IH in H3 as [<- Hl]; [|unfold ltof; simpl; lia].
  split; [|by repeat constructor].
  unfold hex_string. by rewrite bind_cons, hex_byte_of_digits.
Qed.

Definition std_hex_decode (raw : bytes) : option bytes :=
  hex_pairs hex_val_lower (to_N <$> raw).

Program Definition std_hex : HexCodec := {|
  hexlower_encode := hex_string; hexlower_decode := std_hex_decode |}.
Next Obligation.
  intros b. unfold std_hex_decode. rewrite str_bytes_ascii by apply hex_string_ascii.
  apply hex_pairs_string. intros x.
  destruct (hex_byte_spec x) as (hi & lo & ? & _ & _ & ? & ? & _). eauto.
Qed.
Next Obligation.
  intros raw b H. apply hex_pairs_canonical in H as [-> Hl].
  rewrite str_bytes_of_ascii; [done|]. by apply Forall_fmap in Hl.
Qed.
Next Obligation.
  intros b. induction b as [|x b IH]; [done|]. unfold hex_string in *. rewrite bind_cons.
  apply Forall_app. split; [|done]. destruct x; vm_compute; repeat constructor.
Qed.
Next Obligation. apply hex_string_length. Qed.

(** A sixteen-letter subset of the base-32 alphabet: two letters per byte. *)
Definition letter_byte (b : byte) : str := [65 + to_N b / 16; 65 + to_N b mod 16].
Definition letter_val (c : N) : option N := if in_range 65 80 c then Some (c - 65) else None.

Lemma letter_byte_spec x : hex_pairs letter_val (letter_byte x) = Some [x] /\
  Forall (fun c => in_range 65 90 c || in_range 50 55 c = true) (letter_byte x) /\
  Forall (fun c => c < 128) (letter_byte x).
Proof. destruct x; vm_compute; repeat split; repeat constructor. Qed.

Program Definition letters32 : Base32Codec := {|
  base32_encode b := b ≫= letter_byte;
  base32_decode raw := hex_pairs letter_val (to_N <$> raw) |}.
Next Obligation.
  intros b. simpl. rewrite str_bytes_ascii.
  - induction b as [|x b IH]; [done|]. rewrite bind_cons.
    destruct (letter_byte_spec x) as (Hx & _). unfold letter_byte in *. cbn [app hex_pairs] in *.
    destruct (letter_val (65 + to_N x / 16)); simpl in *; [|done].
    destruct (letter_val (65 + to_N x mod 16)); simpl in *; [|done].
    simplify_eq. by rewrite IH.
  - induction b as [|x b IH]; [done|]. rewrite bind_cons. apply Forall_app.
    split; [apply letter_byte_spec | done].
Qed.
Next Obligation.
  intros b. simpl. induction b as [|x b IH]; [done|]. rewrite bind_cons. apply Forall_app.
  split; [apply letter_byte_spec | done].
Qed.
Next Obligation.
  intros b. simpl. induction b as [|x b IH]; [done|].
  rewrite bind_cons, length_app. simpl in *. lia.
Qed.

(** Any function is a hash for the purposes of a run: this one pads. *)
Definition pad32 (b : bytes) : bytes := take 32 (b ++ replicate 32 x00).

Lemma pad32_ok b : bool_decide (length (pad32 b) = 32%nat).
Proof.
  apply bool_decide_pack. unfold pad32. rewrite length_take, length_app, length_replicate. lia.
Qed.

Definition pad_array (b : bytes) : bytesn 32 := BytesN (pad32 b) (pad32_ok b).

(** Sums the bytes of a message, so that a changed message changes the code. *)
Definition checksum (b : bytes) : bytes :=
  u32_to_be_bytes (foldl (fun acc x => (acc * 31 + to_N x + 1) mod 4294967296) 7 b).

Definition toy_crypto : Crypto := {|
  sha256 b := pad_array (checksum b ++ b);
  hmac_sha256 k m := pad_array (checksum (k ++ m)) |}.

Definition whole_certificate : X509 := {| parse_spki b := Some b |}.

(** Socket addresses reduced to a number printed in unary digits. *)
Program Definition unary_addr : SockAddr := {|
  socket_addr := nat;
  addr_to_string n := replicate (S n) 49;
  addr_parse s := match s with [] => None | _ :: s' => Some (length s') end |}.
Next Obligation. intros n. simpl. by rewrite length_replicate. Qed.
Next Obligation. intros n H. apply elem_of_replicate in H as [H _]. done. Qed.
Next Obligation. done. Qed.

(** Any countable type has a message encoding: the binary digits of its code,
    seven to a byte, the last byte short and marked by its leading digit. *)
Fixpoint pos_bits (p : positive) : list bool :=
  match p with
  | xH => []
  | xO p' => false :: pos_bits p'
  | xI p' => true :: pos_bits p'
  end.

Definition bits_pos (l : list bool) : positive :=
  foldr (fun (b : bool) p => if b then xI p else xO p) xH l.

Lemma bits_pos_pos_bits p : bits_pos (pos_bits p) = p.
Proof. induction p as [p IH|p IH|]; simpl; congruence. Qed.
Lemma pos_bits_bits_pos l : pos_bits (bits_pos l) = l.
Proof. induction l as [|[] l IH]; simpl; congruence. Qed.

(** The byte of seven digits. *)
Definition byte7 (l : list bool) : byte :=
  byte_of_N (128 + foldr (fun (b : bool) n => (if b then 1 else 0) + 2 * n) 0 l).

Fixpoint pack (l : list bool) : bytes :=
  match l with
  | a :: b :: c :: d :: e :: f :: g :: l' => byte7 [a; b; c; d; e; f; g] :: pack l'
  | _ => [byte_of_N (N.pos (bits_pos l))]
  end.

Definition bits7 (n : N) : list bool := map (N.testbit n) [0; 1; 2; 3; 4; 5; 6].

Fixpoint unpack (b : bytes) : option (list bool) :=
  match b with
  | [] => None
  | x :: b' =>
      if 128 <=? to_N x then app (bits7 (to_N x)) <$> unpack b'
      else match b', to_N x with
           | [], Npos p => Some (pos_bits p)
           | _, _ => None
           end
  end.

Lemma unpack_byte7 a b c d e f g :
  (128 <=? to_N (byte7 [a; b; c; d; e; f; g])) = true /\
  bits7 (to_N (byte7 [a; b; c; d; e; f; g])) = [a; b; c; d; e; f; g].
Proof. destruct a, b, c, d, e, f, g; vm_compute; done. Qed.

Lemma unpack_last l : (length l <= 6)%nat -> unpack [byte_of_N (N.pos (bits_pos l))] = Some l.
Proof.
  intros Hl.
  destruct l as [|[] [|[] [|[] [|[] [|[] [|[] [|? ?]]]]]]]; simpl in Hl; try (vm_compute; reflexivity); lia.
Qed.

Lemma unpack_pack l : unpack (pack l) = Some l.
Proof.
  remember (length l) as n eqn:Hn. revert l Hn.
  induction n as [n IH] using lt_wf_ind. intros l ->.
  destruct l as [|a [|b [|c [|d [|e [|f [|g l]]]]]]];
    try (apply unpack_last; simpl; lia).
  change (pack (a :: b :: c :: d :: e :: f :: g :: l)) with (byte7 [a; b; c; d; e; f; g] :: pack l).
  destruct (unpack_byte7 a b c d e f g) as [H1 H2]. cbn [unpack]. rewrite H1, H2.
  rewrite (IH (length l)); [done|simpl; lia|done].
Qed.

Definition pos_bytes (p : positive) : bytes := pack (pos_bits p).
Definition bytes_pos (b : bytes) : option positive := bits_pos <$> unpack b.

Lemma bytes_pos_pos_bytes p : bytes_pos (pos_bytes p) = Some p.
Proof. unfold bytes_pos, pos_bytes. rewrite unpack_pack. simpl. by rewrite bits_pos_pos_bits. Qed.

Program Definition countable_prost (M : Type) `{Countable M} : Prost M := {|
  encode_to_vec m := pos_bytes (encode m);
  prost_decode b := bytes_pos b ≫= decode |}.
Next Obligation. intros. simpl. rewrite bytes_pos_pos_bytes. apply decode_encode. Qed.

Program Definition countable_json (M : Type) `{Countable M} : Json M := {|
  to_vec_pretty m := pos_bytes (encode m);
  from_slice b := bytes_pos b ≫= decode |}.
Next Obligation. intros. simpl. rewrite bytes_pos_pos_bytes. apply decode_encode. Qed.

Program Definition letters64 : Base64Codec := {|
  base64_encode b := b ≫= letter_byte;
  base64_decode := @base32_decode letters32 |}.
Next Obligation. intros b. apply (@base32_decode_encode letters32). Qed.

(** Keys that are their own certificate; [None] is a generator without entropy. *)
Definition toy_keys : KeyOps := {|
  entropy := option byte;
  keypair_generate e := (fun b => [b; b]) <$> e;
  random_16 e := b ← e; try_into 16 (replicate 16 b);
  self_signed e key _ := Some key;
  any_ecdsa_type key := len key =? 2;
  keys_match cert key := if eqb cert key then KeysEqual else KeysDiffer |}.
