(* ===== verification/Ids.v ===== *)
(** Errors, identity profiles and fingerprints.

    [core/src/error.rs], [core/src/profile.rs], [core/src/fingerprint.rs] and the
    identifiers of [core/src/lib.rs].  The theorems: the hexadecimal form of a
    fingerprint round-trips and is canonical, and the two profiles share no
    identifier. *)
From S2P Require Import Prelude External.

(** * [error.rs] *)

Inductive PairingError :=
| NotInPairingMode | BadProof | Expired | AlreadyUsed | RateLimited | DeclinedByUser.

#[export] Instance PairingError_eq_dec : EqDecision PairingError.
Proof. solve_decision. Defined.

(** The kinds of [std::io::Error] the sources distinguish. *)
Inductive io_kind := UnexpectedEof | InvalidData | OtherIo (code : N).

#[export] Instance io_kind_eq_dec : EqDecision io_kind.
Proof. solve_decision. Defined.

(** Message texts are kept where they are literals; [Store] carries the code of
    the state it reports (see [Store.v]). *)
Inductive Error :=
| EIo (e : io_kind)
| ETls
| EDecode
| EProtocol (what : string)
| EFrameTooLarge (got limit : N)
| EVersionUnsupported
| ENotAuthorized
| EPairing (e : PairingError)
| ECertificate (what : string)
| EStore (what : string)
| EClosed
| EPeerError (code : N).

#[export] Instance Error_eq_dec : EqDecision Error.
Proof. solve_decision. Defined.

Abbreviation Result := (result Error).

(** * [lib.rs] *)

Definition DEFAULT_PORT : N := 55432.
Definition ALPN_PROTOCOL : bytes := blit "pliwee/1".
Definition LEGACY_ALPN_PROTOCOL : bytes := blit "omnibridge/1".
Definition ALPN_DATA_PROTOCOL : bytes := blit "pliwee-data/1".
Definition LEGACY_ALPN_DATA_PROTOCOL : bytes := blit "omnibridge-data/1".
Definition SERVICE_TYPE : str := lit "_pliwee._tcp.local.".
Definition LEGACY_SERVICE_TYPE : str := lit "_omnibridge._tcp.local.".
(** [qr.rs] *)
Definition QR_SCHEME : str := lit "pliwee1".
Definition LEGACY_QR_SCHEME : str := lit "omnibridge1".

(** * [profile.rs] *)

Module Profile.

Inductive t := Pliwee | OmniBridge.

#[global] Instance eq_dec : EqDecision t.
Proof. solve_decision. Defined.

Definition ALL : list t := [Pliwee; OmniBridge].

Definition as_str (p : t) : str :=
  match p with Pliwee => lit "pliwee" | OmniBridge => lit "omnibridge" end.

Definition from_name (name : str) : option t :=
  find_b (fun p => eqb (as_str p) name) ALL.

Definition control_alpn (p : t) : bytes :=
  match p with Pliwee => ALPN_PROTOCOL | OmniBridge => LEGACY_ALPN_PROTOCOL end.

Definition data_alpn (p : t) : bytes :=
  match p with Pliwee => ALPN_DATA_PROTOCOL | OmniBridge => LEGACY_ALPN_DATA_PROTOCOL end.

Definition service_type (p : t) : str :=
  match p with Pliwee => SERVICE_TYPE | OmniBridge => LEGACY_SERVICE_TYPE end.

Definition qr_scheme (p : t) : str :=
  match p with Pliwee => QR_SCHEME | OmniBridge => LEGACY_QR_SCHEME end.

Definition pairing_proof_domain (p : t) : bytes :=
  match p with
  | Pliwee => blit "pliwee/pairing-proof/v1"
  | OmniBridge => blit "omnibridge/pairing-proof/v1"
  end.

Definition pairing_confirm_domain (p : t) : bytes :=
  match p with
  | Pliwee => blit "pliwee/pairing-confirm/v1"
  | OmniBridge => blit "omnibridge/pairing-confirm/v1"
  end.

Lemma from_name_as_str p : from_name (as_str p) = Some p.
Proof. by destruct p. Qed.

Lemma from_name_some n p : from_name n = Some p -> as_str p = n.
Proof. intros H%find_b_some. destruct H as [_ H]. by to_prop. Qed.

(** The ALPN a connection negotiated determines both its profile and its
    channel: the four identifiers are distinct. *)
Lemma alpn_distinct :
  NoDup (flat_map (fun p => [control_alpn p; data_alpn p]) ALL).
Proof. apply (bool_decide_unpack _). vm_compute. exact I. Qed.

End Profile.

Abbreviation Profile := Profile.t.

(** * [fingerprint.rs] *)

Abbreviation Fingerprint := (bytesn 32).

Section Fingerprint.
Context `{HexCodec, Crypto, X509}.

Definition from_spki_der (spki : bytes) : Fingerprint := sha256 spki.

Definition from_certificate_der (cert_der : bytes) : Result Fingerprint :=
  match parse_spki cert_der with
  | None => Err (ECertificate "malformed X.509 certificate")
  | Some spki => Ok (from_spki_der spki)
  end.

Definition to_hex (fp : Fingerprint) : str := hexlower_encode (bn_bytes fp).

Definition from_hex (s : str) : Result Fingerprint :=
  raw ← ok_or (ECertificate "fingerprint is not lowercase hex") (hexlower_decode (str_bytes s));
  ok_or (ECertificate "fingerprint is not 32 bytes") (try_into 32 raw).

Lemma from_hex_to_hex fp : from_hex (to_hex fp) = Ok fp.
Proof. unfold from_hex, to_hex. rewrite hexlower_decode_encode. cbn. by rewrite try_into_bytes. Qed.

(** Canonical: whatever parses is the printed form of what it parsed to. *)
Lemma from_hex_canonical s fp : from_hex s = Ok fp -> str_bytes s = str_bytes (to_hex fp).
Proof.
  unfold from_hex. intros H2. inv_result.
  apply try_into_some in H2. subst. by apply hexlower_canonical.
Qed.

Lemma to_hex_inj a b : to_hex a = to_hex b -> a = b.
Proof.
  intros Heq. pose proof (from_hex_to_hex a) as Ha. rewrite Heq, from_hex_to_hex in Ha.
  congruence.
Qed.

Lemma to_hex_length fp : length (to_hex fp) = 64%nat.
Proof. unfold to_hex. rewrite hexlower_encode_len, bytesn_length. done. Qed.
End Fingerprint.

#[export] Hint Resolve from_hex_to_hex Profile.from_name_as_str : pliwee.
