(* ===== verification/Wire.v ===== *)
(** The messages of the control session.

    [protocol/proto/pliwee/v1/core.proto] and [envelope.proto]: one record per
    message, one inductive type per enum and for the envelope's [oneof].  An enum
    field is an [i32] on the wire ([Z]); [*_try_from] is the generated
    [TryFrom<i32>]. *)
From S2P Require Import Prelude External.

(** * [core.proto] *)

Inductive Platform := PlatformUnspecified | Android | Linux.
Definition platform_i32 (p : Platform) : Z :=
  match p with PlatformUnspecified => 0 | Android => 1 | Linux => 2 end%Z.

Record DeviceInfo := {
  di_device_id : str;
  di_device_name : str;
  di_platform : Z;
  di_identity_fingerprint : str
}.

Record Hello := {
  h_device : option DeviceInfo;
  h_min_protocol_version : N;
  h_max_protocol_version : N;
  h_capabilities : list str
}.

Inductive HelloStatus :=
| HsUnspecified | HsTrusted | HsPairingRequired | HsVersionUnsupported | HsRejected.

Definition hello_status_i32 (s : HelloStatus) : Z :=
  match s with
  | HsUnspecified => 0 | HsTrusted => 1 | HsPairingRequired => 2
  | HsVersionUnsupported => 3 | HsRejected => 4
  end%Z.

Definition hello_status_try_from (z : Z) : option HelloStatus :=
  match z with
  | 0 => Some HsUnspecified | 1 => Some HsTrusted | 2 => Some HsPairingRequired
  | 3 => Some HsVersionUnsupported | 4 => Some HsRejected
  | _ => None
  end%Z.

Record HelloAck := {
  ha_device : option DeviceInfo;
  ha_status : Z;
  ha_negotiated_protocol_version : N;
  ha_capabilities : list str;
  ha_pairing_nonce : bytes
}.

Record PairRequest := { pr_proof : bytes }.

Inductive PairStatus :=
| PsUnspecified | PsAccepted | PsRejected | PsDeclinedByUser | PsNotInPairingMode | PsRateLimited.

#[export] Instance PairStatus_eq_dec : EqDecision PairStatus.
Proof. solve_decision. Defined.

Definition pair_status_i32 (s : PairStatus) : Z :=
  match s with
  | PsUnspecified => 0 | PsAccepted => 1 | PsRejected => 2 | PsDeclinedByUser => 3
  | PsNotInPairingMode => 4 | PsRateLimited => 5
  end%Z.

Definition pair_status_try_from (z : Z) : option PairStatus :=
  match z with
  | 0 => Some PsUnspecified | 1 => Some PsAccepted | 2 => Some PsRejected
  | 3 => Some PsDeclinedByUser | 4 => Some PsNotInPairingMode | 5 => Some PsRateLimited
  | _ => None
  end%Z.

Record PairResponse := { ps_status : Z; ps_confirmation : bytes }.

Record CapabilityAnnounce := { an_capabilities : list str }.
Record Ping := { ping_payload : bytes }.
Record Pong := { pong_payload : bytes }.

(** [ERROR_CODE_UNSUPPORTED_CAPABILITY] *)
Definition ERROR_UNSUPPORTED_CAPABILITY : Z := 3.

(** [ErrorCode::try_from(code).unwrap_or(Unspecified)], as the code's number. *)
Definition error_code_or_unspecified (z : Z) : N :=
  if bool_decide (0 <= z <= 7)%Z then Z.to_N z else 0.

Record WireError := { we_code : Z; we_message : str; we_fatal : bool }.

(** * [envelope.proto] *)

Record CapabilityMessage := { cm_capability_id : str; cm_payload : bytes }.

Inductive Body :=
| BHello (h : Hello)
| BHelloAck (a : HelloAck)
| BPairRequest (r : PairRequest)
| BPairResponse (r : PairResponse)
| BCapabilityAnnounce (a : CapabilityAnnounce)
| BPing (p : Ping)
| BPong (p : Pong)
| BError (e : WireError)
| BCapabilityMessage (m : CapabilityMessage).

Record Envelope := {
  e_protocol_version : N;
  e_message_id : bytes;
  e_sequence : N;
  e_timestamp_unix_ms : Z;
  e_correlation_id : bytes;
  e_body : option Body
}.

Lemma hello_status_roundtrip s : hello_status_try_from (hello_status_i32 s) = Some s.
Proof. by destruct s. Qed.
Lemma pair_status_roundtrip s : pair_status_try_from (pair_status_i32 s) = Some s.
Proof. by destruct s. Qed.

(** * A concrete encoding, for the runs *)

#[export] Instance DeviceInfo_eq_dec : EqDecision DeviceInfo.
Proof. solve_decision. Defined.
#[export] Instance DeviceInfo_countable : Countable DeviceInfo.
Proof.
  refine (inj_countable' (fun '(Build_DeviceInfo x0 x1 x2 x3) => (x0, x1, x2, x3))
    (fun '(x0, x1, x2, x3) => Build_DeviceInfo x0 x1 x2 x3) _); by intros [].
Defined.
#[export] Instance Hello_eq_dec : EqDecision Hello.
Proof. solve_decision. Defined.
#[export] Instance Hello_countable : Countable Hello.
Proof.
  refine (inj_countable' (fun '(Build_Hello x0 x1 x2 x3) => (x0, x1, x2, x3))
    (fun '(x0, x1, x2, x3) => Build_Hello x0 x1 x2 x3) _); by intros [].
Defined.
#[export] Instance HelloAck_eq_dec : EqDecision HelloAck.
Proof. solve_decision. Defined.
#[export] Instance HelloAck_countable : Countable HelloAck.
Proof.
  refine (inj_countable' (fun '(Build_HelloAck x0 x1 x2 x3 x4) => (x0, x1, x2, x3, x4))
    (fun '(x0, x1, x2, x3, x4) => Build_HelloAck x0 x1 x2 x3 x4) _); by intros [].
Defined.
#[export] Instance PairRequest_eq_dec : EqDecision PairRequest.
Proof. solve_decision. Defined.
#[export] Instance PairRequest_countable : Countable PairRequest.
Proof.
  refine (inj_countable' (fun '(Build_PairRequest x0) => x0)
    (fun x0 => Build_PairRequest x0) _); by intros [].
Defined.
#[export] Instance PairResponse_eq_dec : EqDecision PairResponse.
Proof. solve_decision. Defined.
#[export] Instance PairResponse_countable : Countable PairResponse.
Proof.
  refine (inj_countable' (fun '(Build_PairResponse x0 x1) => (x0, x1))
    (fun '(x0, x1) => Build_PairResponse x0 x1) _); by intros [].
Defined.
#[export] Instance CapabilityAnnounce_eq_dec : EqDecision CapabilityAnnounce.
Proof. solve_decision. Defined.
#[export] Instance CapabilityAnnounce_countable : Countable CapabilityAnnounce.
Proof.
  refine (inj_countable' (fun '(Build_CapabilityAnnounce x0) => x0)
    (fun x0 => Build_CapabilityAnnounce x0) _); by intros [].
Defined.
#[export] Instance Ping_eq_dec : EqDecision Ping.
Proof. solve_decision. Defined.
#[export] Instance Ping_countable : Countable Ping.
Proof.
  refine (inj_countable' (fun '(Build_Ping x0) => x0)
    (fun x0 => Build_Ping x0) _); by intros [].
Defined.
#[export] Instance Pong_eq_dec : EqDecision Pong.
Proof. solve_decision. Defined.
#[export] Instance Pong_countable : Countable Pong.
Proof.
  refine (inj_countable' (fun '(Build_Pong x0) => x0)
    (fun x0 => Build_Pong x0) _); by intros [].
Defined.
#[export] Instance WireError_eq_dec : EqDecision WireError.
Proof. solve_decision. Defined.
#[export] Instance WireError_countable : Countable WireError.
Proof.
  refine (inj_countable' (fun '(Build_WireError x0 x1 x2) => (x0, x1, x2))
    (fun '(x0, x1, x2) => Build_WireError x0 x1 x2) _); by intros [].
Defined.
#[export] Instance CapabilityMessage_eq_dec : EqDecision CapabilityMessage.
Proof. solve_decision. Defined.
#[export] Instance CapabilityMessage_countable : Countable CapabilityMessage.
Proof.
  refine (inj_countable' (fun '(Build_CapabilityMessage x0 x1) => (x0, x1))
    (fun '(x0, x1) => Build_CapabilityMessage x0 x1) _); by intros [].
Defined.
#[export] Instance Body_eq_dec : EqDecision Body.
Proof. solve_decision. Defined.
#[export] Instance Body_countable : Countable Body.
Proof.
  refine (inj_countable'
    (fun b => match b with
     | BHello x => inl x
     | BHelloAck x => inr (inl x)
     | BPairRequest x => inr (inr (inl x))
     | BPairResponse x => inr (inr (inr (inl x)))
     | BCapabilityAnnounce x => inr (inr (inr (inr (inl x))))
     | BPing x => inr (inr (inr (inr (inr (inl x)))))
     | BPong x => inr (inr (inr (inr (inr (inr (inl x))))))
     | BError x => inr (inr (inr (inr (inr (inr (inr (inl x)))))))
     | BCapabilityMessage x => inr (inr (inr (inr (inr (inr (inr (inr x))))))) 
     end)
    (fun s => match s with
     | inl x => BHello x
     | inr (inl x) => BHelloAck x
     | inr (inr (inl x)) => BPairRequest x
     | inr (inr (inr (inl x))) => BPairResponse x
     | inr (inr (inr (inr (inl x)))) => BCapabilityAnnounce x
     | inr (inr (inr (inr (inr (inl x))))) => BPing x
     | inr (inr (inr (inr (inr (inr (inl x)))))) => BPong x
     | inr (inr (inr (inr (inr (inr (inr (inl x))))))) => BError x
     | inr (inr (inr (inr (inr (inr (inr (inr x))))))) => BCapabilityMessage x
     end) _); by intros [].
Defined.
#[export] Instance Envelope_eq_dec : EqDecision Envelope.
Proof. solve_decision. Defined.
#[export] Instance Envelope_countable : Countable Envelope.
Proof.
  refine (inj_countable' (fun '(Build_Envelope x0 x1 x2 x3 x4 x5) => (x0, x1, x2, x3, x4, x5))
    (fun '(x0, x1, x2, x3, x4, x5) => Build_Envelope x0 x1 x2 x3 x4 x5) _); by intros [].
Defined.

Definition envelope_codec : Prost Envelope := countable_prost Envelope.
