(* ===== verification/Framing.v ===== *)
(** Length-prefixed frames.

    [core/src/framing.rs] (the control session) and the two handshake frames of a
    data stream in [capabilities/files/src/stream.rs].  A byte stream is what is
    still to be read with how it ends; a writer is what it has taken with the
    room left before it fails.  The theorems: what is written is read back, with
    the rest of the stream untouched; a length prefix over the limit is refused
    after four bytes; a reader never consumes more than a maximal frame. *)
From S2P Require Import Prelude External Ids Wire.

(** * Streams *)

(** What a reader will deliver, and the error at its end. *)
Record Reader := { rd_bytes : bytes; rd_end : io_kind }.

(** [AsyncReadExt::read_exact]: the bytes and the stream after them; a stream
    that ends first fails, with its bytes consumed. *)
Definition read_exact (n : N) (r : Reader) : result io_kind bytes * Reader :=
  if n <=? len (rd_bytes r)
  then (Ok (take (N.to_nat n) (rd_bytes r)),
        {| rd_bytes := drop (N.to_nat n) (rd_bytes r); rd_end := rd_end r |})
  else (Err (rd_end r), {| rd_bytes := []; rd_end := rd_end r |}).

(** What a writer has taken, and after how many more bytes it fails. *)
Record Writer := { wr_bytes : bytes; wr_room : option (N * io_kind) }.

(** [AsyncWriteExt::write_all] *)
Definition write_all (b : bytes) (w : Writer) : result io_kind unit * Writer :=
  match wr_room w with
  | None => (Ok tt, {| wr_bytes := wr_bytes w ++ b; wr_room := None |})
  | Some (room, k) =>
      if len b <=? room
      then (Ok tt, {| wr_bytes := wr_bytes w ++ b; wr_room := Some (room - len b, k) |})
      else (Err k, {| wr_bytes := wr_bytes w ++ take (N.to_nat room) b; wr_room := Some (0, k) |})
  end.

(** [flush]: nothing is buffered in this model, so it fails only on a writer
    with no room left. *)
Definition flush (w : Writer) : result io_kind unit :=
  match wr_room w with Some (0, k) => Err k | _ => Ok tt end.

(** * [framing.rs] *)

Definition MAX_FRAME_LEN : N := 64 * 1024.

Section Envelopes.
Context `{!Prost Envelope}.

Definition write_envelope (w : Writer) (envelope : Envelope) : Result unit * Writer :=
  let body := encode_to_vec envelope in
  if u32_max <? len body then (Err (EFrameTooLarge u32_max MAX_FRAME_LEN), w)
  else if MAX_FRAME_LEN <? len body then (Err (EFrameTooLarge (len body) MAX_FRAME_LEN), w)
  else
    match write_all (u32_to_be_bytes (len body)) w with
    | (Err k, w1) => (Err (EIo k), w1)
    | (Ok _, w1) =>
        match write_all body w1 with
        | (Err k, w2) => (Err (EIo k), w2)
        | (Ok _, w2) => (map_err EIo (flush w2), w2)
        end
    end.

(** The two [read_exact] of the source map an early end to [Closed]. *)
Definition closed_on_eof (k : io_kind) : Error :=
  match k with UnexpectedEof => EClosed | _ => EIo k end.

Definition read_envelope (r : Reader) : Result Envelope * Reader :=
  match read_exact 4 r with
  | (Err k, r1) => (Err (closed_on_eof k), r1)
  | (Ok len_buf, r1) =>
      let n := u32_from_be_bytes len_buf in
      if MAX_FRAME_LEN <? n then (Err (EFrameTooLarge n MAX_FRAME_LEN), r1)
      else if n =? 0 then (Err (EProtocol "zero-length frame"), r1)
      else
        match read_exact n r1 with
        | (Err k, r2) => (Err (closed_on_eof k), r2)
        | (Ok body, r2) => (ok_or EDecode (prost_decode body), r2)
        end
  end.

End Envelopes.

(** * [capabilities/files/src/stream.rs]: the data-stream frames *)

Definition MAX_DATA_STREAM_FRAME : N := 4096.

Section DataFrames.
Context {M : Type} `{!Prost M}.

Definition write_frame (w : Writer) (message : M) : result io_kind unit * Writer :=
  let body := encode_to_vec message in
  if MAX_DATA_STREAM_FRAME <? len body then (Err InvalidData, w)
  else
    match write_all (u32_to_be_bytes (len body)) w with
    | (Err k, w1) => (Err k, w1)
    | (Ok _, w1) =>
        match write_all body w1 with
        | (Err k, w2) => (Err k, w2)
        | (Ok _, w2) => (flush w2, w2)
        end
    end.

Definition read_frame (r : Reader) : result io_kind M * Reader :=
  match read_exact 4 r with
  | (Err k, r1) => (Err k, r1)
  | (Ok len_buf, r1) =>
      let n := u32_from_be_bytes len_buf in
      if n =? 0 then (Err InvalidData, r1)
      else if MAX_DATA_STREAM_FRAME <? n then (Err InvalidData, r1)
      else
        match read_exact n r1 with
        | (Err k, r2) => (Err k, r2)
        | (Ok body, r2) => (ok_or InvalidData (prost_decode body), r2)
        end
  end.

End DataFrames.

(** * Lemmas *)

Lemma read_exact_app b rest e :
  read_exact (len b) {| rd_bytes := b ++ rest; rd_end := e |} =
    (Ok b, {| rd_bytes := rest; rd_end := e |}).
Proof.
  unfold read_exact, len. simpl. rewrite length_app.
  destruct (N.leb_spec (N.of_nat (length b)) (N.of_nat (length b + length rest))); [|lia].
  rewrite Nat2N.id. by rewrite take_app_length, drop_app_length.
Qed.

Lemma read_exact_prefix n r v r' : read_exact n r = (v, r') ->
  exists used, rd_bytes r = used ++ rd_bytes r' /\ rd_end r' = rd_end r /\
    (v = Ok used /\ len used = n \/ v = Err (rd_end r) /\ len used < n).
Proof.
  unfold read_exact. destruct (N.leb_spec n (len (rd_bytes r))); intros [= <- <-]; simpl.
  - exists (take (N.to_nat n) (rd_bytes r)). rewrite take_drop. split_and!; try done.
    left. split; [done|]. unfold len in *. rewrite length_take. lia.
  - exists (rd_bytes r). rewrite app_nil_r. split_and!; try done. right. split; [done|lia].
Qed.

Lemma write_all_unlimited b w : wr_room w = None ->
  write_all b w = (Ok tt, {| wr_bytes := wr_bytes w ++ b; wr_room := None |}).
Proof. intros H. unfold write_all. by rewrite H. Qed.

Lemma write_all_ok_bytes b w w' : write_all b w = (Ok tt, w') -> wr_bytes w' = wr_bytes w ++ b.
Proof. unfold write_all. intros H. cases. Qed.

(** The bytes of one frame. *)
Definition frame_of (body : bytes) : bytes := u32_to_be_bytes (len body) ++ body.

Lemma read_frame_header body rest e : len body <= u32_max ->
  exists hdr, read_exact 4 {| rd_bytes := frame_of body ++ rest; rd_end := e |} =
    (Ok hdr, {| rd_bytes := body ++ rest; rd_end := e |}) /\ u32_from_be_bytes hdr = len body.
Proof.
  intros Hlen. exists (u32_to_be_bytes (len body)). split.
  - unfold frame_of. rewrite <- app_assoc. apply (read_exact_app (u32_to_be_bytes _)).
  - by apply u32_be_roundtrip.
Qed.

Section EnvelopeTheorems.
Context `{!Prost Envelope}.

Lemma write_envelope_frame w e w' : write_envelope w e = (Ok tt, w') ->
  len (encode_to_vec e) <= MAX_FRAME_LEN /\
  wr_bytes w' = wr_bytes w ++ frame_of (encode_to_vec e).
Proof.
  unfold write_envelope. intros H.
  destruct (N.ltb_spec u32_max (len (encode_to_vec e))) as [|Hu]; [done|].
  destruct (N.ltb_spec MAX_FRAME_LEN (len (encode_to_vec e))) as [|Hm]; [done|].
  destruct (write_all _ w) as [[[]|] w1] eqn:H1; [|done].
  destruct (write_all (encode_to_vec e) w1) as [[[]|] w2] eqn:H2; [|done].
  injection H as Hf <-. apply write_all_ok_bytes in H1, H2.
  split; [done|]. unfold frame_of. by rewrite H2, H1, <- app_assoc.
Qed.

(** C27: what [write_envelope] puts on the wire, [read_envelope] gives back,
    leaving exactly what follows the frame; the only condition is that the
    message has an encoding at all (an empty one is refused as a zero-length
    frame). *)
Theorem envelope_roundtrip w e w' rest k :
  write_envelope w e = (Ok tt, w') -> encode_to_vec e <> [] ->
  exists frame, wr_bytes w' = wr_bytes w ++ frame /\
    read_envelope {| rd_bytes := frame ++ rest; rd_end := k |} =
      (Ok e, {| rd_bytes := rest; rd_end := k |}).
Proof.
  intros [Hmax Hw]%write_envelope_frame Hne. exists (frame_of (encode_to_vec e)).
  split; [done|]. unfold read_envelope.
  destruct (read_frame_header (encode_to_vec e) rest k) as (hdr & -> & ->).
  { unfold MAX_FRAME_LEN, u32_max in *. lia. }
  rewrite (proj2 (N.ltb_ge _ _) Hmax).
  destruct (N.eqb_spec (len (encode_to_vec e)) 0) as [H0|_].
  { by apply len_zero in H0. }
  rewrite read_exact_app. by rewrite prost_decode_encode.
Qed.

(** C28: the length is checked before anything is read for it: a frame whose
    prefix claims more than [MAX_FRAME_LEN] costs its four bytes and an error,
    and no successful or failed read consumes more than a maximal frame. *)
Theorem read_envelope_bounded r v r' :
  read_envelope r = (v, r') ->
  exists used, rd_bytes r = used ++ rd_bytes r' /\ len used <= 4 + MAX_FRAME_LEN /\
    ((4 <= len (rd_bytes r) /\
      MAX_FRAME_LEN < u32_from_be_bytes (take 4 (rd_bytes r))) ->
     v = Err (EFrameTooLarge (u32_from_be_bytes (take 4 (rd_bytes r))) MAX_FRAME_LEN) /\
     len used = 4).
Proof.
  unfold read_envelope. destruct (read_exact 4 r) as [v1 r1] eqn:H1.
  pose proof (read_exact_prefix _ _ _ _ H1) as (u1 & Hr & He & Hv).
  assert (Htake : 4 <= len (rd_bytes r) -> v1 = Ok (take 4 (rd_bytes r))).
  { intros Hle. unfold read_exact in H1. rewrite (proj2 (N.leb_le _ _) Hle) in H1. by simplify_eq. }
  destruct Hv as [[-> Hlen]|[-> Hlen]].
  2: { intros [= <- <-]. exists u1. split_and!; [done|lia|]. intros [H4 _].
       specialize (Htake H4). done. }
  destruct (N.ltb_spec MAX_FRAME_LEN (u32_from_be_bytes u1)) as [Hbig|Hsmall].
  { intros [= <- <-]. exists u1. split_and!; [done|lia|]. intros [H4 _].
    injection (Htake H4) as Ht. by rewrite <- Ht. }
  assert (Hnot : ~ (4 <= len (rd_bytes r) /\ MAX_FRAME_LEN < u32_from_be_bytes (take 4 (rd_bytes r)))).
  { intros [H4 Hb]. injection (Htake H4) as Ht. rewrite <- Ht in Hb. lia. }
  destruct (N.eqb_spec (u32_from_be_bytes u1) 0).
  { intros [= <- <-]. exists u1. split_and!; [done|lia|]. intros; exfalso; auto. }
  destruct (read_exact (u32_from_be_bytes u1) r1) as [v2 r2] eqn:H2.
  pose proof (read_exact_prefix _ _ _ _ H2) as (u2 & Hr2 & _ & Hv2).
  intros Heq. assert (r' = r2) as -> by (destruct v2; by simplify_eq).
  exists (u1 ++ u2). rewrite len_app, Hr, Hr2, app_assoc.
  split_and!; [done | destruct Hv2 as [[_ ?]|[_ ?]]; lia | ].
  rewrite <- app_assoc, <- Hr2, <- Hr. intros; exfalso; auto.
Qed.

End EnvelopeTheorems.

Section DataFrameTheorems.
Context {M : Type} `{!Prost M}.

(** The two frames that open a data stream round-trip likewise. *)
Lemma data_frame_roundtrip (w : Writer) (m : M) w' rest k :
  write_frame w m = (Ok tt, w') -> encode_to_vec m <> [] ->
  exists frame, wr_bytes w' = wr_bytes w ++ frame /\
    read_frame {| rd_bytes := frame ++ rest; rd_end := k |} =
      (Ok m, {| rd_bytes := rest; rd_end := k |}).
Proof.
  unfold write_frame. intros H Hne.
  destruct (N.ltb_spec MAX_DATA_STREAM_FRAME (len (encode_to_vec m))) as [|Hmax]; [done|].
  destruct (write_all _ w) as [[[]|] w1] eqn:H1; [|done].
  destruct (write_all (encode_to_vec m) w1) as [[[]|] w2] eqn:H2; [|done].
  injection H as Hf <-. apply write_all_ok_bytes in H1, H2.
  exists (frame_of (encode_to_vec m)). split.
  { unfold frame_of. by rewrite H2, H1, <- app_assoc. }
  unfold read_frame.
  destruct (read_frame_header (encode_to_vec m) rest k) as (hdr & -> & ->).
  { unfold MAX_DATA_STREAM_FRAME, u32_max in *. lia. }
  destruct (N.eqb_spec (len (encode_to_vec m)) 0) as [H0|_].
  { by apply len_zero in H0. }
  rewrite (proj2 (N.ltb_ge _ _) Hmax), read_exact_app. by rewrite prost_decode_encode.
Qed.

End DataFrameTheorems.

(** * Runs *)

Definition ping_envelope : Envelope := {|
  e_protocol_version := 1; e_message_id := [x01; x02]; e_sequence := 1;
  e_timestamp_unix_ms := 0; e_correlation_id := [];
  e_body := Some (BPing {| ping_payload := [x2a] |}) |}.

Lemma envelope_roundtrip_witness :
  let w := {| wr_bytes := [x07]; wr_room := None |} in
  exists w', @write_envelope envelope_codec w ping_envelope = (Ok tt, w') /\
  exists frame, wr_bytes w' = wr_bytes w ++ frame /\
    @read_envelope envelope_codec {| rd_bytes := frame ++ [x01]; rd_end := UnexpectedEof |} =
      (Ok ping_envelope, {| rd_bytes := [x01]; rd_end := UnexpectedEof |}).
Proof.
  eexists. split; [vm_compute; reflexivity|].
  refine (@envelope_roundtrip envelope_codec _ ping_envelope _ [x01] UnexpectedEof _ _);
    [vm_compute; reflexivity | vm_compute; discriminate].
Defined.

Lemma read_envelope_bounded_witness :
  let r := {| rd_bytes := [xff; xff; xff; xff; x01; x02]; rd_end := UnexpectedEof |} in
  exists v r', @read_envelope envelope_codec r = (v, r') /\
  exists used, rd_bytes r = used ++ rd_bytes r' /\ len used <= 4 + MAX_FRAME_LEN /\
    ((4 <= len (rd_bytes r) /\
      MAX_FRAME_LEN < u32_from_be_bytes (take 4 (rd_bytes r))) ->
     v = Err (EFrameTooLarge (u32_from_be_bytes (take 4 (rd_bytes r))) MAX_FRAME_LEN) /\
     len used = 4).
Proof.
  eexists _, _. split; [vm_compute; reflexivity|].
  refine (@read_envelope_bounded envelope_codec _ _ _ _). vm_compute. reflexivity.
Defined.
