(* ===== verification/Capability.v ===== *)
(** The capability registry.

    [core/src/capability.rs]: a registry is a [BTreeMap] from capability id to
    handler; [negotiate] is the intersection with what a peer advertises, sorted
    and without duplicates.  The theorem: the answer depends only on the set a
    peer announced, not on how it announced it. *)
From S2P Require Import Prelude.

(** [slice::sort] *)
Definition sort (l : list str) : list str := merge_sort key_le l.

(** [Vec::dedup]: drops an element equal to the one kept before it. *)
Fixpoint dedup (l : list str) : list str :=
  match l with
  | [] => []
  | x :: l' =>
      match dedup l' with
      | [] => [x]
      | y :: k => if eqb x y then y :: k else x :: y :: k
      end
  end.

(** [capability.rs]: what a handler is asked to send. *)
Record OutboundMessage := { om_capability_id : str; om_payload : bytes }.

Abbreviation CapabilityRegistry H := (gmap str H).

Section Registry.
Context {H : Type} (id : H -> str).

Definition builder : CapabilityRegistry H := ∅.

Definition register (r : CapabilityRegistry H) (capability : H) : CapabilityRegistry H :=
  <[id capability := capability]> r.

Definition advertised (r : CapabilityRegistry H) : list str := bt_keys r.

Definition supports (r : CapabilityRegistry H) (i : str) : bool := bool_decide (is_Some (r !! i)).

Definition negotiate (r : CapabilityRegistry H) (peer_advertised : list str) : list str :=
  dedup (sort (filter (fun i => supports r i = true) peer_advertised)).
End Registry.

(** Strict increase in key order. *)
Definition key_lt (a b : str) : Prop := key_le a b /\ a <> b.

#[export] Instance key_lt_trans : Transitive key_lt.
Proof.
  intros a b c [Hab Hne] [Hbc Hne']. split; [by etrans|].
  intros ->. by apply Hne, (anti_symm key_le).
Qed.

Lemma elem_of_dedup x l : x ∈ dedup l <-> x ∈ l.
Proof.
  induction l as [|y l IH]; [done|]. simpl. rewrite elem_of_cons, <- IH. clear IH.
  destruct (dedup l) as [|z k]; [set_solver|].
  destruct (eqb y z) eqn:He; [|set_solver].
  apply eqb_true in He as ->. set_solver.
Qed.

Lemma dedup_sorted l : StronglySorted key_le l -> StronglySorted key_lt (dedup l).
Proof.
  induction 1 as [|x l Hl IH Hx]; [constructor|]. simpl.
  assert (Forall (key_le x) (dedup l)) as Hx'.
  { apply Forall_forall. intros y Hy. apply (elem_of_dedup y l) in Hy. exact (proj1 (Forall_forall _ _) Hx y Hy). }
  destruct (dedup l) as [|y k]; [repeat constructor|].
  destruct (eqb x y) eqn:He; [done|]. apply eqb_false in He.
  constructor; [done|]. apply Forall_cons in Hx' as [Hxy _].
  constructor; [done|]. apply StronglySorted_inv in IH as [_ Hk].
  eapply Forall_impl; [exact Hk|]. intros z Hz. by trans y.
Qed.

Lemma key_lt_sorted_unique l k :
  StronglySorted key_lt l -> StronglySorted key_lt k -> (forall x, x ∈ l <-> x ∈ k) -> l = k.
Proof.
  assert (Hle : forall m, StronglySorted key_lt m -> StronglySorted key_le m /\ NoDup m).
  { induction 1 as [|x m _ [IH1 IH2] Hx]; [repeat constructor|]. split; constructor; try done.
    - eapply Forall_impl; [exact Hx|]. by intros y [].
    - intros Hin. by destruct (proj1 (Forall_forall _ _) Hx x Hin). }
  intros [Hl Hnl]%Hle [Hk Hnk]%Hle Heq.
  apply (StronglySorted_unique key_le); [done..|]. by apply NoDup_Permutation.
Qed.

Section Negotiate.
Context {H : Type} (r : CapabilityRegistry H).

Lemma supports_true i : supports r i = true <-> is_Some (r !! i).
Proof. apply bool_decide_eq_true. Qed.

Lemma elem_of_negotiate l i : i ∈ negotiate r l <-> i ∈ l /\ is_Some (r !! i).
Proof.
  unfold negotiate, sort. rewrite elem_of_dedup, merge_sort_Permutation, list_elem_of_filter.
  rewrite supports_true. naive_solver.
Qed.

Lemma negotiate_sorted l : StronglySorted key_lt (negotiate r l).
Proof. apply dedup_sorted, (StronglySorted_merge_sort _). Qed.

Lemma negotiate_set l k : (forall i, i ∈ l <-> i ∈ k) -> negotiate r l = negotiate r k.
Proof.
  intros Heq. apply key_lt_sorted_unique; [apply negotiate_sorted..|].
  intros i. rewrite !elem_of_negotiate. naive_solver.
Qed.

(** Negotiating with ourselves gives everything we advertise. *)
Lemma negotiate_advertised : negotiate r (advertised r) = advertised r.
Proof.
  apply key_lt_sorted_unique; [apply negotiate_sorted| |].
  - assert (Hs : StronglySorted key_le (advertised r)).
    { unfold advertised, bt_keys. generalize (bt_items_sorted r).
      generalize (bt_items r) as l. induction 1 as [|x l _ IH Hx]; simpl; constructor; [done|].
      apply Forall_fmap. exact Hx. }
    pose proof (bt_keys_nodup r) as Hn. fold (advertised r) in Hn.
    induction Hs as [|x l _ IH Hx]; constructor; inversion Hn as [|?? Hnot Hn']; subst; [by apply IH|].
    apply Forall_forall. intros y Hy. split; [exact (proj1 (Forall_forall _ _) Hx y Hy)|]. by intros ->.
  - intros i. rewrite elem_of_negotiate. unfold advertised. rewrite elem_of_bt_keys. naive_solver.
Qed.

Lemma register_supports (id : H -> str) h i :
  supports (register id r h) i = true <-> i = id h \/ supports r i = true.
Proof.
  unfold supports. rewrite !bool_decide_eq_true. unfold register. destruct (decide (i = id h)) as [->|Hne].
  - rewrite lookup_insert_eq. naive_solver.
  - rewrite lookup_insert_ne by done. naive_solver.
Qed.
End Negotiate.


