(* ===== verification/Pairing.v ===== *)
(** Pairing: the token, the proofs and the pairing window.

    [core/src/pairing.rs].  A [PairingSession] is the record of the source with
    its clock as a number of nanoseconds: [Instant::now()] is an argument, and
    the system's random generator is the argument of [PairingSession_new].
    The theorems: the transcript a proof authenticates determines the profile,
    the role, both identities and the nonce; a window accepts at most one proof,
    never after its time, and never after three wrong ones, whatever the
    sequence of attempts. *)
From S2P Require Import Prelude External Ids.

Definition TOKEN_LEN : nat := 20.
Definition NONCE_LEN : nat := 32.
Definition DEFAULT_TOKEN_TTL : N := from_secs 120.
Definition MAX_FAILED_ATTEMPTS : N := 3.

Definition PairingToken : Type := bytesn TOKEN_LEN.

Section Token.
Context `{!Base32Codec}.

Definition to_base32 (t : PairingToken) : str := base32_encode t.

Definition from_base32 (s : str) : Result PairingToken :=
  raw ← ok_or (EPairing BadProof) (base32_decode (str_bytes s));
  ok_or (EPairing BadProof) (try_into TOKEN_LEN raw).

Lemma from_base32_to_base32 t : from_base32 (to_base32 t) = Ok t.
Proof.
  unfold from_base32, to_base32. rewrite base32_decode_encode. simpl.
  by rewrite (try_into_bytes t).
Qed.
End Token.

(** * Proofs *)

(** [update_len_prefixed]: what it feeds to the MAC. *)
Definition len_prefixed (data : bytes) : bytes := u32_to_be_bytes (len data) ++ data.

(** The message [mac] authenticates. *)
Definition transcript (domain : bytes) (responder initiator : Fingerprint) (nonce : bytes) : bytes :=
  domain ++ len_prefixed responder ++ len_prefixed initiator ++ len_prefixed nonce.

Section Proofs.
Context `{!Crypto}.

Definition mac (domain : bytes) (token : PairingToken) (responder initiator : Fingerprint)
    (nonce : bytes) : bytesn 32 :=
  hmac_sha256 token (transcript domain responder initiator nonce).

Definition compute_proof (profile : Profile) (token : PairingToken)
    (responder initiator : Fingerprint) (nonce : bytes) : bytesn 32 :=
  mac (Profile.pairing_proof_domain profile) token responder initiator nonce.

Definition compute_confirmation (profile : Profile) (token : PairingToken)
    (responder initiator : Fingerprint) (nonce : bytes) : bytesn 32 :=
  mac (Profile.pairing_confirm_domain profile) token responder initiator nonce.

(** The comparison is over all bytes; [ct_eq] compares slices of one length. *)
Definition verify_proof (expected : bytesn 32) (received : bytes) : bool :=
  if negb (len received =? len (bn_bytes expected)) then false
  else eqb (bn_bytes expected) received.

(** * The pairing window *)

Record PairingSession := {
  ps_token : PairingToken;
  ps_opened_at : N;
  ps_ttl : N;
  ps_failed_attempts : N;
  ps_consumed : bool
}.

(** [PairingSession::new]: [None] is a generator that has no entropy. *)
Definition PairingSession_new (rng : option PairingToken) (now ttl : N) : Result PairingSession :=
  token ← ok_or (EStore "system CSPRNG unavailable") rng;
  Ok {| ps_token := token; ps_opened_at := now; ps_ttl := ttl;
        ps_failed_attempts := 0; ps_consumed := false |}.

(** [Instant::elapsed] saturates at zero, as [N] subtraction does. *)
Definition is_expired (s : PairingSession) (now : N) : bool :=
  ps_ttl s <=? now - ps_opened_at s.

Definition remaining (s : PairingSession) (now : N) : N := ps_ttl s - (now - ps_opened_at s).

Definition verify_and_consume (s : PairingSession) (now : N) (profile : Profile)
    (responder initiator : Fingerprint) (nonce received_proof : bytes)
    : result PairingError (bytesn 32) * PairingSession :=
  if ps_consumed s then (Err AlreadyUsed, s)
  else if is_expired s now then (Err Expired, s)
  else if MAX_FAILED_ATTEMPTS <=? ps_failed_attempts s then (Err RateLimited, s)
  else
    let expected := compute_proof profile (ps_token s) responder initiator nonce in
    if negb (verify_proof expected received_proof) then
      (Err BadProof,
       {| ps_token := ps_token s; ps_opened_at := ps_opened_at s; ps_ttl := ps_ttl s;
          ps_failed_attempts := ps_failed_attempts s + 1; ps_consumed := ps_consumed s |})
    else
      (Ok (compute_confirmation profile (ps_token s) responder initiator nonce),
       {| ps_token := ps_token s; ps_opened_at := ps_opened_at s; ps_ttl := ps_ttl s;
          ps_failed_attempts := ps_failed_attempts s; ps_consumed := true |}).

Definition is_exhausted (s : PairingSession) (now : N) : bool :=
  ps_consumed s || is_expired s now || (MAX_FAILED_ATTEMPTS <=? ps_failed_attempts s).

(** One call of [verify_and_consume] by a connection. *)
Record Attempt := {
  at_now : N; at_profile : Profile; at_responder : Fingerprint; at_initiator : Fingerprint;
  at_nonce : bytes; at_proof : bytes
}.

Definition attempt (s : PairingSession) (a : Attempt) : result PairingError (bytesn 32) * PairingSession :=
  verify_and_consume s (at_now a) (at_profile a) (at_responder a) (at_initiator a) (at_nonce a) (at_proof a).

(** The answers a window gives to a sequence of attempts, from any connections
    in any order. *)
Fixpoint attempts (s : PairingSession) (l : list Attempt) : list (result PairingError (bytesn 32)) :=
  match l with
  | [] => []
  | a :: l' => let '(v, s') := attempt s a in v :: attempts s' l'
  end.

(** * Theorems *)

Lemma verify_proof_true expected received :
  verify_proof expected received = true <-> received = bn_bytes expected.
Proof.
  unfold verify_proof. split.
  - destruct (negb _); [done|]. intros He. symmetry. by apply eqb_true.
  - intros ->. rewrite N.eqb_refl. simpl. by apply eqb_true.
Qed.

(** Every answer of the window, by cases. *)
Lemma verify_and_consume_cases s now p r i n proof v s' :
  verify_and_consume s now p r i n proof = (v, s') ->
  (s' = s /\ is_exhausted s now = true /\
     (v = Err AlreadyUsed \/ v = Err Expired \/ v = Err RateLimited)) \/
  (is_exhausted s now = false /\ v = Err BadProof /\
     proof <> bn_bytes (compute_proof p (ps_token s) r i n) /\
     ps_failed_attempts s' = ps_failed_attempts s + 1 /\ ps_consumed s' = false /\
     ps_token s' = ps_token s /\ ps_opened_at s' = ps_opened_at s /\ ps_ttl s' = ps_ttl s) \/
  (is_exhausted s now = false /\ proof = bn_bytes (compute_proof p (ps_token s) r i n) /\
     v = Ok (compute_confirmation p (ps_token s) r i n) /\ ps_consumed s' = true).
Proof.
  unfold verify_and_consume, is_exhausted.
  destruct (ps_consumed s) eqn:Hc; [intros [= <- <-]; left; auto|].
  destruct (is_expired s now) eqn:He; [intros [= <- <-]; left; auto|].
  destruct (MAX_FAILED_ATTEMPTS <=? ps_failed_attempts s) eqn:Hf; [intros [= <- <-]; left; auto|].
  destruct (verify_proof _ proof) eqn:Hv; simpl; intros [= <- <-]; right; [right|left].
  - apply verify_proof_true in Hv. auto.
  - split_and!; try done. intros Hp. apply verify_proof_true in Hp. congruence.
Qed.

Lemma consumed_absorbs s l : ps_consumed s = true ->
  Forall (fun v => v = Err AlreadyUsed) (attempts s l).
Proof.
  intros Hc. induction l as [|a l IH]; simpl; [done|].
  unfold attempt, verify_and_consume. rewrite Hc. auto.
Qed.

(** The attempts that got an [Ok] or a [BadProof] answer: those that were
    compared with the expected proof. *)
Definition accepted (v : result PairingError (bytesn 32)) : bool := is_ok v.
Definition bad_proof (v : result PairingError (bytesn 32)) : bool :=
  match v with Err BadProof => true | _ => false end.
Definition count {A} (p : A -> bool) (l : list A) : N := len (filter (fun x => p x = true) l).

Lemma count_cons {A} (p : A -> bool) x l : count p (x :: l) = (if p x then 1 else 0) + count p l.
Proof.
  unfold count. rewrite filter_cons. case_decide as Hp; [by rewrite Hp, len_cons|].
  by destruct (p x).
Qed.

Lemma count_none {A} (p : A -> bool) l : Forall (fun x => p x = false) l -> count p l = 0.
Proof. induction 1 as [|x l Hx _ IH]; [done|]. by rewrite count_cons, Hx, IH. Qed.

Lemma attempts_bound s l :
  count accepted (attempts s l) <= 1 /\
  count bad_proof (attempts s l) <= MAX_FAILED_ATTEMPTS - ps_failed_attempts s.
Proof.
  revert s. induction l as [|a l IH]; intros s; simpl; [rewrite (count_none accepted), (count_none bad_proof) by done; lia|].
  destruct (attempt s a) as [v s'] eqn:Ha. rewrite !count_cons.
  unfold attempt in Ha. apply verify_and_consume_cases in Ha as
    [(-> & _ & Hv)|[(Hex & -> & _ & Hf & _)|(_ & _ & -> & Hc)]].
  - destruct (IH s). destruct Hv as [->|[->| ->]]; simpl; lia.
  - destruct (IH s') as [? Hb]. rewrite Hf in Hb. simpl.
    unfold is_exhausted in Hex. to_prop. destruct Hex as [[_ _] Hlt].
    unfold MAX_FAILED_ATTEMPTS in *. lia.
  - pose proof (consumed_absorbs s' l Hc) as Habs. simpl.
    rewrite (count_none accepted), (count_none bad_proof); [lia|..];
      (eapply Forall_impl; [exact Habs|]; by intros ? ->).
Qed.

(** C7: the pairing window.  Whatever attempts any connections make in any
    order, at most one is ever accepted, at most three are compared with the
    expected proof and found wrong, and an attempt is accepted only while the
    window is open, with exactly the proof of the identities, profile and nonce
    of its own connection under the window's token; the answer is then the
    confirmation of the same transcript. *)
Theorem pairing_window_single_use s l :
  count accepted (attempts s l) <= 1 /\
  count bad_proof (attempts s l) <= MAX_FAILED_ATTEMPTS /\
  forall k a c, l !! k = Some a -> attempts s l !! k = Some (Ok c) ->
    is_expired s (at_now a) = false /\
    at_proof a = bn_bytes (compute_proof (at_profile a) (ps_token s)
                             (at_responder a) (at_initiator a) (at_nonce a)) /\
    c = compute_confirmation (at_profile a) (ps_token s)
          (at_responder a) (at_initiator a) (at_nonce a).
Proof.
  destruct (attempts_bound s l) as [Ha Hb]. split_and!; [done|lia|].
  clear Ha Hb. revert s. induction l as [|a0 l IH]; intros s k a c; simpl; [done|].
  destruct (attempt s a0) as [v s'] eqn:Hat. unfold attempt in Hat.
  apply verify_and_consume_cases in Hat as
    [(-> & _ & Hv)|[(Hex & -> & _ & _ & _ & Ht & Ho & Hl)|(Hex & Hp & -> & Hc)]];
    destruct k as [|k]; simpl; intros Hk Hc'; simplify_eq.
  - by destruct Hv as [?|[?|?]]; simplify_eq.
  - by eapply IH.
  - specialize (IH s' k a c Hk Hc'). unfold is_expired in *. by rewrite Ht, Ho, Hl in IH.
  - unfold is_exhausted in Hex. to_prop. naive_solver.
  - pose proof (consumed_absorbs s' l Hc) as Habs.
    by pose proof (Forall_lookup_1 _ _ _ _ Habs Hc').
Qed.

(** ** What a proof authenticates *)

(** The role of a transcript: the initiator's proof or the responder's
    confirmation. *)
Inductive Role := Proof | Confirmation.

Definition domain_of (role : Role) (p : Profile) : bytes :=
  match role with
  | Proof => Profile.pairing_proof_domain p
  | Confirmation => Profile.pairing_confirm_domain p
  end.

(** No domain is a prefix of another: two messages that start with domains start
    with the same one. *)
Lemma domain_of_prefix_free role p role' p' m m' :
  domain_of role p ++ m = domain_of role' p' ++ m' -> role = role' /\ p = p' /\ m = m'.
Proof. by destruct role, p, role', p'; intros Heq; simplify_eq/=. Qed.

Lemma len_prefixed_inj a b m m' : len a <= u32_max -> len b <= u32_max ->
  len_prefixed a ++ m = len_prefixed b ++ m' -> a = b /\ m = m'.
Proof.
  unfold len_prefixed. intros Ha Hb. rewrite <- !app_assoc. intros Heq.
  apply app_inj_1 in Heq as [Hn Heq]; [|done].
  apply (f_equal u32_from_be_bytes) in Hn. rewrite !u32_be_roundtrip in Hn by done.
  apply app_inj_1 in Heq as [-> ->]; [done|]. unfold len in Hn. lia.
Qed.

Lemma bytesn_len {n} (a : bytesn n) : len (bn_bytes a) = N.of_nat n.
Proof. unfold len. by rewrite bytesn_length. Qed.

Lemma transcript_inj role p r i n role' p' r' i' n' :
  len n <= u32_max -> len n' <= u32_max ->
  transcript (domain_of role p) r i n = transcript (domain_of role' p') r' i' n' ->
  role = role' /\ p = p' /\ r = r' /\ i = i' /\ n = n'.
Proof.
  unfold transcript. intros Hn Hn' Heq.
  apply domain_of_prefix_free in Heq as (-> & -> & Heq).
  apply len_prefixed_inj in Heq as [Hr Heq]; [|by rewrite bytesn_len..].
  apply len_prefixed_inj in Heq as [Hi Heq]; [|by rewrite bytesn_len..].
  rewrite <- (app_nil_r (len_prefixed n)), <- (app_nil_r (len_prefixed n')) in Heq.
  apply len_prefixed_inj in Heq as [-> _]; [|done..].
  split_and!; try done; by apply bytesn_eq.
Qed.

(** Two different messages with one code under one key. *)
Definition mac_collision (key : bytes) : Prop :=
  exists m m', m <> m' /\ hmac_sha256 key m = hmac_sha256 key m'.


End Proofs.

(** * Runs *)

Definition demo_token : PairingToken := @BytesN 20 (replicate 20 x11) I.
Definition demo_fp (b : byte) : Fingerprint := pad_array (replicate 32 b).

