(* ===== verification/Qr.v ===== *)
(** The QR payload.

    [core/src/qr.rs]: [pliwee1:<fingerprint>:<token>:<device id>:<addr>,...].
    The theorems: the parser gives back what the encoder was given, and what it
    accepts is one of the two schemes with a valid fingerprint, token and device
    id. *)
From S2P Require Import Prelude External Ids Pairing.

Definition COLON : N := 58.
Definition COMMA : N := 44.

Definition KNOWN_SCHEME_BRANDS : list str := [lit "pliwee"; lit "omnibridge"].
Definition MAX_QR_PAYLOAD_LEN : N := 512.

Definition is_hex (s : str) : bool := forallb is_ascii_hexdigit s.

Definition profile_of_scheme (scheme : str) : Result Profile :=
  match find_b (fun p => eqb (Profile.qr_scheme p) scheme) Profile.ALL with
  | Some profile => Ok profile
  | None =>
      let recognised := existsb (fun brand =>
        match strip_prefix brand scheme with
        | Some v => negb (eqb v []) && forallb is_ascii_digit v
        | None => false
        end) KNOWN_SCHEME_BRANDS in
      if recognised then Err (EProtocol "unsupported QR payload version")
      else Err (EProtocol "unknown QR scheme")
  end.

Section Qr.
Context `{HC : !HexCodec, BC : !Base32Codec, SA : !SockAddr}.

Record QrPayload := {
  qr_profile : Profile;
  qr_fingerprint : Fingerprint;
  qr_token_base32 : str;
  qr_device_id : str;
  qr_addresses : list socket_addr
}.

Definition QrPayload_encode (fingerprint : Fingerprint) (token : PairingToken) (device_id : str)
    (addresses : list socket_addr) : str :=
  let addrs := join [COMMA] (map addr_to_string addresses) in
  QR_SCHEME ++ [COLON] ++ to_hex fingerprint ++ [COLON] ++ to_base32 token ++ [COLON]
    ++ device_id ++ [COLON] ++ addrs.

(** [parts.next().unwrap_or_default()] for the [i]-th piece. *)
Definition part (parts : list str) (i : nat) : str := default [] (parts !! i).

Definition QrPayload_parse (input : str) : Result QrPayload :=
  _ ← guard_err (MAX_QR_PAYLOAD_LEN <? str_len input) (EProtocol "QR payload too large");
  let parts := splitn 5 COLON input in
  profile ← profile_of_scheme (part parts 0);
  fingerprint ← from_hex (part parts 1);
  let token_base32 := part parts 2 in
  _ ← from_base32 token_base32;
  let device_id := part parts 3 in
  _ ← guard_err (eqb device_id [] || (64 <? str_len device_id) || negb (is_hex device_id))
        (EProtocol "malformed device id in QR payload");
  let addresses := omap addr_parse (filter (fun s => s <> []) (split COMMA (part parts 4))) in
  Ok {| qr_profile := profile; qr_fingerprint := fingerprint; qr_token_base32 := token_base32;
        qr_device_id := device_id; qr_addresses := addresses |}.

Definition QrPayload_token (q : QrPayload) : Result PairingToken := from_base32 (qr_token_base32 q).

(** * Lemmas *)

Lemma split_no_sep c a : c ∉ a -> split c a = [a].
Proof.
  induction a as [|x a IH]; intros Hc; simpl; [done|].
  apply not_elem_of_cons in Hc as [Hx Ha]. rewrite (proj2 (N.eqb_neq x c)) by done.
  by rewrite IH.
Qed.

Lemma split_app c a b : c ∉ a -> split c (a ++ c :: b) = a :: split c b.
Proof.
  induction a as [|x a IH]; intros Hc; simpl; [by rewrite N.eqb_refl|].
  apply not_elem_of_cons in Hc as [Hx Ha]. rewrite (proj2 (N.eqb_neq x c)) by done.
  by rewrite IH.
Qed.

Lemma split_join c l : Forall (fun s => c ∉ s) l -> l <> [] -> split c (join [c] l) = l.
Proof.
  induction 1 as [|x l Hx Hl IH]; [done|]. intros _. destruct l as [|y l].
  - by apply split_no_sep.
  - assert (join [c] (x :: y :: l) = x ++ c :: join [c] (y :: l)) as -> by done.
    by rewrite split_app, IH.
Qed.

Lemma parse_addresses addrs :
  omap addr_parse (filter (fun s => s <> []) (split COMMA (join [COMMA] (map addr_to_string addrs))))
  = addrs.
Proof.
  destruct (decide (addrs = [])) as [->|Hne]; [done|].
  rewrite split_join.
  - clear Hne. induction addrs as [|a l IH]; [done|]. cbn [map]. rewrite filter_cons_True
      by apply addr_to_string_nonempty. csimpl. by rewrite addr_parse_to_string, IH.
  - apply Forall_forall. intros s Hs. apply list_elem_of_In, in_map_iff in Hs as (a & <- & _).
    apply addr_to_string_no_comma.
  - by destruct addrs.
Qed.

(** A class of characters that has no separator. *)
Lemma forall_no_colon (p : N -> bool) s :
  p COLON = false -> Forall (fun c => p c = true) s -> COLON ∉ s.
Proof. intros Hp Hs Hin. pose proof (proj1 (Forall_forall _ _) Hs _ Hin) as Hc. cbv beta in Hc. congruence. Qed.

Lemma is_hex_no_colon s : is_hex s = true -> COLON ∉ s.
Proof. unfold is_hex. intros Hs. apply (forall_no_colon is_ascii_hexdigit); [done|]. apply Forall_forall. intros c Hc. rewrite list_elem_of_In in Hc. by eapply forallb_forall in Hc. Qed.

(** The payload a desktop displays is read back by a phone that scans it:
    the same fingerprint (which it pins before it connects), a token equal to
    the one behind the code, the same device id and addresses, under the
    canonical profile. *)
Theorem qr_roundtrip fp token device_id addrs :
  str_len (QrPayload_encode fp token device_id addrs) <= MAX_QR_PAYLOAD_LEN ->
  device_id <> [] -> str_len device_id <= 64 -> is_hex device_id = true ->
  exists q, QrPayload_parse (QrPayload_encode fp token device_id addrs) = Ok q /\
    qr_profile q = Profile.Pliwee /\ qr_fingerprint q = fp /\ QrPayload_token q = Ok token /\
    qr_device_id q = device_id /\ qr_addresses q = addrs.
Proof.
  intros Hlen Hne H64 Hhex. unfold QrPayload_parse.
  rewrite (proj2 (N.ltb_ge _ _) Hlen). unfold QrPayload_encode.
  assert (Hsplit : splitn 5 COLON (QR_SCHEME ++ [COLON] ++ to_hex fp ++ [COLON] ++ to_base32 token
      ++ [COLON] ++ device_id ++ [COLON] ++ join [COMMA] (map addr_to_string addrs)) =
      [QR_SCHEME; to_hex fp; to_base32 token; device_id; join [COMMA] (map addr_to_string addrs)]).
  { cbn [splitn app]. 
    rewrite split_once_app by (vm_compute; set_solver).
    rewrite split_once_app by (eapply forall_no_colon; [|apply hexlower_alphabet]; done).
    rewrite split_once_app by (eapply forall_no_colon; [|apply base32_alphabet]; done).
    by rewrite split_once_app by (by apply is_hex_no_colon). }
  rewrite Hsplit. cbv [part lookup list_lookup default from_option id]. change (profile_of_scheme QR_SCHEME) with (@Ok Error _ Profile.Pliwee).
  unfold guard_err at 1. cbn [mbind result_bind].
  rewrite from_hex_to_hex. cbn [mbind result_bind]. rewrite from_base32_to_base32. cbn [mbind result_bind].
  rewrite (proj2 (eqb_false _ _) Hne), (proj2 (N.ltb_ge _ _) H64), Hhex. cbn.
  eexists. split; [done|]. split_and!; try done.
  - apply from_base32_to_base32.
  - apply parse_addresses.
Qed.

Lemma profile_of_scheme_ok scheme p :
  profile_of_scheme scheme = Ok p <-> scheme = Profile.qr_scheme p.
Proof.
  unfold profile_of_scheme. split.
  - destruct (find_b _ Profile.ALL) as [q|] eqn:Hf; [|by destruct (existsb _ _)].
    intros [= ->]. apply find_b_some in Hf as [_ Hq]. to_prop. done.
  - intros ->. by destruct p.
Qed.

(** Everything a payload that parses guarantees: one of the two schemes, a token
    that decodes, a short hexadecimal device id. *)
Lemma qr_parse_strict input q : QrPayload_parse input = Ok q ->
  str_len input <= MAX_QR_PAYLOAD_LEN /\
  part (splitn 5 COLON input) 0 = Profile.qr_scheme (qr_profile q) /\
  (exists t, QrPayload_token q = Ok t) /\
  qr_device_id q <> [] /\ str_len (qr_device_id q) <= 64 /\ is_hex (qr_device_id q) = true.
Proof.
  unfold QrPayload_parse. intros Hq. inv_result.
  match goal with Hg : (_ || _ || _) = false |- _ => rewrite !orb_false_iff in Hg; destruct Hg as [[? ?] ?] end.
  match goal with Hp : profile_of_scheme _ = Ok _ |- _ => apply profile_of_scheme_ok in Hp end.
  to_prop. simpl. split_and!; eauto.
Qed.

End Qr.

(** * Runs *)

Lemma qr_roundtrip_witness :
  exists q, @QrPayload_parse std_hex letters32 unary_addr
      (@QrPayload_encode std_hex letters32 unary_addr (demo_fp xa5) demo_token (lit "00ff") [2%nat; 5%nat])
      = Ok q /\
    qr_profile q = Profile.Pliwee /\ qr_fingerprint q = demo_fp xa5 /\
    @QrPayload_token letters32 unary_addr q = Ok demo_token /\
    qr_device_id q = lit "00ff" /\ qr_addresses q = [2%nat; 5%nat].
Proof.
  refine (@qr_roundtrip std_hex letters32 unary_addr (demo_fp xa5) demo_token (lit "00ff") [2%nat; 5%nat] _ _ _ _);
    vm_compute; congruence.
Defined.
