(* ===== verification/Selection.v ===== *)
(** The person's choice of a device.

    [gui/src/selection.rs]: one fingerprint, kept in a small JSON file, that the
    two windows of the graphical client share.  The JSON library is a class; the
    file is its text, and a write that fails leaves whatever it leaves. *)
From S2P Require Import Prelude External Ids Qr.

(** * JSON *)

(** A member of an object; of an array or an object inside it only the text is
    kept, since nothing looks further. *)
Inductive JMember := JNull | JBool (b : bool) | JNumber (n : N) | JString (s : str) | JNested (text : str).

Inductive JValue := JPlain (m : JMember) | JArray (text : str) | JObject (fields : list (str * JMember)).

(** [serde_json]: what is printed is parsed, a line feed after it or not. *)
Class JsonText := {
  to_string_pretty : JValue -> str;
  from_str : str -> option JValue;
  from_str_pretty v : from_str (to_string_pretty v ++ [10]) = Some v
}.

(** [Value::get]: of a key given twice the last counts. *)
Definition json_get (key : str) (v : JValue) : option JMember :=
  match v with
  | JObject fields => snd <$> find_b (fun kv => eqb kv.1 key) (rev fields)
  | _ => None
  end.

Definition as_str (v : JMember) : option str := match v with JString s => Some s | _ => None end.

(** * [selection.rs] *)

Definition SCHEMA : N := 1.
Definition MAX_HEX : N := 128.

Definition normalise (fingerprint : str) : option str :=
  let hex := ascii_lower <$> trim fingerprint in
  if eqb hex [] || (MAX_HEX <? str_len hex) || negb (is_hex hex) then None else Some hex.

Section Selection.
Context `{JT : JsonText}.

(** [parse] *)
Definition parse_selection (text : str) : option str :=
  doc ← from_str text;
  v ← json_get (lit "selected_peer") doc;
  s ← as_str v;
  normalise s.

(** The choice and the text of its file, if there is one that can be read. *)
Record Selection := { sel_current : option str; sel_file : option str }.

(** [Selection::at] *)
Definition Selection_at (file : option str) : Selection :=
  {| sel_current := file ≫= parse_selection; sel_file := file |}.

(** How writing the file goes: it is written, or fails and leaves something. *)
Inductive WriteOutcome := Wrote | LeftBehind (file : option str).

Definition document (current : option str) : str :=
  to_string_pretty (JObject ((lit "schema", JNumber SCHEMA) ::
    match current with Some hex => [(lit "selected_peer", JString hex)] | None => [] end)) ++ [10].

Definition persist (current : option str) (o : WriteOutcome) : Selection :=
  {| sel_current := current; sel_file := match o with Wrote => Some (document current) | LeftBehind f => f end |}.

Definition choose (s : Selection) (fingerprint : str) (o : WriteOutcome) : Selection :=
  match normalise fingerprint with
  | None => s
  | Some hex => if eqb (sel_current s) (Some hex) then s else persist (Some hex) o
  end.

Definition clear_selection (s : Selection) (o : WriteOutcome) : Selection :=
  match sel_current s with None => s | Some _ => persist None o end.

Definition forget_if (s : Selection) (fingerprint : str) (o : WriteOutcome) : bool * Selection :=
  match normalise fingerprint with
  | None => (false, s)
  | Some hex => if negb (eqb (sel_current s) (Some hex)) then (false, s) else (true, clear_selection s o)
  end.

(** What a window does to the choice. *)
Inductive Gesture := Choose (fingerprint : str) (o : WriteOutcome) | Forget (fingerprint : str) (o : WriteOutcome) | Clear (o : WriteOutcome).

Definition gesture (s : Selection) (g : Gesture) : Selection :=
  match g with
  | Choose f o => choose s f o
  | Forget f o => (forget_if s f o).2
  | Clear o => clear_selection s o
  end.

Definition gestures (s : Selection) (l : list Gesture) : Selection := foldl gesture s l.
End Selection.

(** * Theorems *)

(** A fingerprint as it is stored: short, lower-case and hexadecimal. *)
Definition stored_hex (h : str) : Prop :=
  h <> [] /\ str_len h <= MAX_HEX /\ is_hex h = true /\ ascii_lower <$> h = h.

Lemma ascii_lower_idem c : ascii_lower (ascii_lower c) = ascii_lower c.
Proof.
  unfold ascii_lower at 2 3. destruct (in_range 65 90 c) eqn:E; [|unfold ascii_lower; by rewrite E].
  unfold ascii_lower. destruct (in_range 65 90 (c + 32)) eqn:E2; [|done].
  unfold in_range in *. apply andb_true_iff in E as [?%N.leb_le ?%N.leb_le], E2 as [?%N.leb_le ?%N.leb_le]. lia.
Qed.

Lemma normalise_some f h : normalise f = Some h -> stored_hex h.
Proof.
  unfold normalise. destruct (_ || _) eqn:E; [done|]. intros [= <-].
  rewrite !orb_false_iff, negb_false_iff, N.ltb_ge in E. destruct E as [[E1 E2] E3]. apply eqb_neq in E1.
  split_and!; [done..|]. rewrite <- list_fmap_compose. apply list_fmap_ext. intros i c _. apply ascii_lower_idem.
Qed.

(** No hexadecimal digit is white space. *)
Lemma hexdigit_not_space c : is_ascii_hexdigit c = true -> is_whitespace c = false.
Proof.
  intros H. destruct (is_whitespace c) eqn:E; [exfalso|done].
  unfold is_whitespace, is_ascii_hexdigit, is_ascii_digit, in_range in *.
  repeat (rewrite ?orb_true_iff, ?andb_true_iff, ?N.leb_le, ?N.eqb_eq in * ). lia.
Qed.

Lemma drop_while_keep {A} (p : A -> bool) l : Forall (fun x => p x = false) l -> drop_while p l = l.
Proof. destruct 1 as [|x l Hx _]; simpl; [done|]. by rewrite Hx. Qed.

Lemma trim_solid s : Forall (fun c => is_whitespace c = false) s -> trim s = s.
Proof.
  intros H. unfold trim, trim_start, trim_end_matches. rewrite (drop_while_keep _ s) by done.
  rewrite drop_while_keep; [apply rev_involutive|]. apply Forall_forall. intros c Hc. rewrite list_elem_of_In, <- in_rev, <- list_elem_of_In in Hc. by eapply Forall_forall in H.
Qed.

Lemma normalise_stored h : stored_hex h -> normalise h = Some h.
Proof.
  intros (Hne & Hlen & Hhex & Hlow). unfold normalise.
  rewrite trim_solid, Hlow, Hhex; [|apply Forall_forall; intros c Hc; apply hexdigit_not_space].
  - assert (eqb h [] = false) as -> by (by apply eqb_false). assert ((MAX_HEX <? str_len h) = false) as -> by (by apply N.ltb_ge). done.
  - unfold is_hex in Hhex. rewrite forallb_forall in Hhex. apply Hhex. by apply list_elem_of_In.
Qed.

Section Facts.
Context `{JT : JsonText}.

(** What was written is read. *)
Lemma parse_document cur : (forall h, cur = Some h -> stored_hex h) -> parse_selection (document cur) = cur.
Proof.
  intros Hcur. unfold parse_selection, document. rewrite from_str_pretty. destruct cur as [h|]; [|done].
  cbn -[normalise]. by apply normalise_stored, Hcur.
Qed.

Definition wrote (g : Gesture) : Prop := match g with Choose _ o | Forget _ o | Clear o => o = Wrote end.

(** The choice is a stored fingerprint, and so is that of the file. *)
Definition valid (s : Selection) : Prop := forall h, sel_current s = Some h -> stored_hex h.

Lemma at_valid f : valid (Selection_at f).
Proof.
  intros h. unfold Selection_at, parse_selection. simpl. destruct f as [t|]; [|done]. simpl.
  destruct (from_str t) as [d|]; [|done]. simpl. destruct (json_get _ d) as [v|]; [|done]. simpl.
  destruct (as_str v); [|done]. apply normalise_some.
Qed.

Lemma clear_valid s o : valid (clear_selection s o).
Proof. unfold clear_selection, valid. destruct (sel_current s) eqn:E; simpl; [done|]. by rewrite E. Qed.

Lemma gesture_valid s g : valid s -> valid (gesture s g).
Proof.
  intros Hv. destruct g as [f o|f o|o]; simpl; [| |apply clear_valid].
  - unfold choose. destruct (normalise f) as [h|] eqn:Hn; [|done]. destruct (eqb _ _); [done|].
    intros h' [= <-]. by eapply normalise_some.
  - unfold forget_if. destruct (normalise f); [|done]. destruct (negb _); [done|]. apply clear_valid.
Qed.

Lemma clear_current s o : sel_current (clear_selection s o) = None.
Proof. unfold clear_selection. by destruct (sel_current s) eqn:E. Qed.

(** What a gesture means: naming a device chooses it, forgetting one drops the
    choice only if it is that one, and clearing drops it; what is not a
    fingerprint means nothing. *)
Definition meant (cur : option str) (g : Gesture) : option str :=
  match g with
  | Choose f _ => match normalise f with Some h => Some h | None => cur end
  | Forget f _ => if decide (is_Some (normalise f) /\ normalise f = cur) then None else cur
  | Clear _ => None
  end.

Lemma gesture_meant s g : sel_current (gesture s g) = meant (sel_current s) g.
Proof.
  destruct g as [f o|f o|o]; simpl; [| |apply clear_current].
  - unfold choose. destruct (normalise f) as [h|]; [|done]. destruct (eqb _ _) eqn:E; [by apply eqb_eq in E|done].
  - unfold forget_if. destruct (decide _) as [[[h Hn] Hs]|Hno].
    + rewrite Hn in *. rewrite <- Hs, eqb_refl. apply clear_current.
    + destruct (normalise f) as [h|] eqn:Hn; [|done]. destruct (eqb (sel_current s) (Some h)) eqn:E; [|done].
      apply eqb_eq in E. destruct Hno. by rewrite E.
Qed.

Lemma gesture_synced s g : valid s -> wrote g -> Selection_at (sel_file s) = s -> Selection_at (sel_file (gesture s g)) = gesture s g.
Proof.
  intros Hv Hw Hs. pose proof (gesture_valid s g Hv) as Hv'.
  assert (Hp : forall cur, (forall h, cur = Some h -> stored_hex h) -> Selection_at (sel_file (persist cur Wrote)) = persist cur Wrote).
  { intros cur Hc. unfold Selection_at, persist. simpl. by rewrite parse_document. }
  destruct g as [f o|f o|o]; simpl in *; subst; unfold choose, forget_if, clear_selection in *;
    repeat case_match; simpl in *; try done; apply Hp; done.
Qed.

(** The choice is the person's, and lasts.  Whatever the file held, the
    choice is nothing or a well-formed fingerprint, and over any sequence of
    gestures it is exactly what they meant, whether or not the file could be
    written; and if it could, the next start finds that same choice. *)
Theorem choice_kept file l :
  let s := gestures (Selection_at file) l in
  sel_current s = foldl meant (sel_current (Selection_at file)) l /\
  (forall h, sel_current s = Some h -> stored_hex h) /\
  (Forall wrote l -> sel_current (Selection_at (sel_file s)) = sel_current s).
Proof.
  assert (forall l s, valid s -> sel_current (gestures s l) = foldl meant (sel_current s) l /\ valid (gestures s l) /\
    (Forall wrote l -> Selection_at (sel_file s) = s -> Selection_at (sel_file (gestures s l)) = gestures s l)) as H.
  { clear. induction l as [|g l IH]; intros s Hv; [done|]. simpl.
    destruct (IH (gesture s g) (gesture_valid s g Hv)) as (H1 & H2 & H3). split_and!; [by rewrite H1, gesture_meant|done|].
    intros Hw Hs. inversion Hw; subst. apply H3; [done|]. by apply gesture_synced. }
  destruct (H l (Selection_at file) (at_valid file)) as (H1 & H2 & H3). split_and!; [done..|].
  intros Hw. by rewrite H3.
Qed.
End Facts.

(** * Runs *)

(** Values written as one number. *)
Definition member_code (m : JMember) : unit + bool + N + str + str :=
  match m with
  | JNull => inl (inl (inl (inl tt))) | JBool b => inl (inl (inl (inr b))) | JNumber n => inl (inl (inr n))
  | JString s => inl (inr s) | JNested s => inr s
  end.
Definition code_member (c : unit + bool + N + str + str) : JMember :=
  match c with
  | inl (inl (inl (inl _))) => JNull | inl (inl (inl (inr b))) => JBool b | inl (inl (inr n)) => JNumber n
  | inl (inr s) => JString s | inr s => JNested s
  end.

#[export] Instance JMember_eq_dec : EqDecision JMember.
Proof. solve_decision. Defined.
#[export] Program Instance JMember_countable : Countable JMember := inj_countable' member_code code_member _.
Next Obligation. by intros []. Qed.

#[export] Instance JValue_eq_dec : EqDecision JValue.
Proof. solve_decision. Defined.
#[export] Program Instance JValue_countable : Countable JValue := inj_countable'
  (fun v => match v with JPlain m => inl (inl m) | JArray t => inl (inr t) | JObject f => inr f end)
  (fun c => match c with inl (inl m) => JPlain m | inl (inr t) => JArray t | inr f => JObject f end) _.
Next Obligation. by intros []. Qed.

Definition number_text (v : JValue) : str := [N.pos (encode v)].
Definition text_value (s : str) : option JValue := match s with Npos p :: _ => decode p | _ => None end.

Lemma text_value_number v : text_value (number_text v ++ [10]) = Some v.
Proof. apply (decode_encode v). Qed.

Definition number_json : JsonText := {|
  to_string_pretty := number_text; from_str := text_value; from_str_pretty := text_value_number |}.

Section Runs.
#[local] Existing Instance number_json.

Definition run_gestures : list Gesture :=
  [Choose (lit " AB12 ") Wrote; Forget (lit "ff") Wrote; Choose (lit "not hex") Wrote; Choose (lit "cd34") Wrote; Forget (lit "CD34") Wrote; Choose (lit "ef") Wrote].

Lemma choice_kept_witness : Forall wrote run_gestures /\
  sel_current (Selection_at (sel_file (gestures (Selection_at None) run_gestures))) = sel_current (gestures (Selection_at None) run_gestures) /\
  sel_current (gestures (Selection_at None) run_gestures) = Some (lit "ef").
Proof.
  assert (Forall wrote run_gestures) as Hw by (repeat constructor). split; [exact Hw|]. split; [|reflexivity].
  apply (choice_kept None run_gestures). exact Hw.
Defined.

(** A file that is not an object, or names no fingerprint, chooses nobody. *)
Example broken_choice :
  sel_current (Selection_at (Some (to_string_pretty (JArray (lit "[]")) ++ [10]))) = None /\
  sel_current (Selection_at (Some (to_string_pretty (JObject [(lit "selected_peer", JString (lit "../etc"))])))) = None /\
  sel_current (Selection_at (Some (to_string_pretty (JObject [(lit "selected_peer", JNumber 7)])))) = None.
Proof. vm_compute. done. Qed.
End Runs.
