(* ===== verification/Filename.v ===== *)
(** Safe names for received files.

    [capabilities/files/src/filename.rs]: [sanitize] reduces a peer-supplied name
    to a bare, bounded, printable file name, or refuses it.  The theorems say what
    holds of every name that comes out, and exactly which names go through
    unchanged. *)
From S2P Require Import Prelude.

Definition MAX_FILENAME_BYTES : N := 255.

Definition RESERVED_STEMS : list str := lit <$>
  ["con"; "prn"; "aux"; "nul"; "com1"; "com2"; "com3"; "com4"; "com5"; "com6"; "com7"; "com8";
   "com9"; "lpt1"; "lpt2"; "lpt3"; "lpt4"; "lpt5"; "lpt6"; "lpt7"; "lpt8"; "lpt9";
   "conin$"; "conout$"]%string.

(** Less-than, greater-than, colon, double quote, bar, question mark, star. *)
Definition WINDOWS_ILLEGAL : list N := [60; 62; 58; 34; 124; 63; 42].

Definition is_format_char (c : N) : bool :=
  (c =? 0x00AD)
  || in_range 0x0600 0x0605 c || (c =? 0x061C) || (c =? 0x06DD) || (c =? 0x070F)
  || in_range 0x0890 0x0891 c || (c =? 0x08E2)
  || (c =? 0x180E)
  || in_range 0x200B 0x200F c
  || in_range 0x202A 0x202E c
  || in_range 0x2060 0x2064 c || in_range 0x2066 0x206F c
  || (c =? 0xFEFF)
  || in_range 0xFFF9 0xFFFB c
  || (c =? 0x110BD) || (c =? 0x110CD)
  || in_range 0x13430 0x1343F c
  || in_range 0x1BCA0 0x1BCA3 c
  || in_range 0x1D173 0x1D17A c
  || (c =? 0xE0001) || in_range 0xE0020 0xE007F c.

(** [str::floor_char_boundary]: walk back from [index] to a boundary. *)
Fixpoint walk_back (s : str) (i : nat) : N :=
  match i with
  | O => 0
  | S i' => if is_char_boundary s (N.of_nat i) then N.of_nat i else walk_back s i'
  end.
Definition floor_char_boundary (s : str) (index : N) : N :=
  if str_len s <=? index then str_len s else walk_back s (N.to_nat index).

Definition extension_of (name : str) : str :=
  match rfind_split DOT name with
  | Some (_ :: _, ext) => ext
  | _ => []
  end.

Definition truncate_preserving_extension (name : str) : str :=
  if str_len name <=? MAX_FILENAME_BYTES then name
  else
    let extension := extension_of name in
    let extension := if str_len extension <=? 16 then extension else [] in
    let budget := MAX_FILENAME_BYTES - str_len extension in
    let stem := str_to name (str_len name - str_len extension) in
    let cut := floor_char_boundary stem budget in
    str_to stem cut ++ extension.

Definition is_separator (c : N) : bool := (c =? SLASH) || (c =? BACKSLASH).

(** The text after the last separator of either kind. *)
Definition basename (raw : str) : str := rev (take_while (fun c => negb (is_separator c)) (rev raw)).

(** What the cleaning pass keeps. *)
Definition keeps (c : N) : bool :=
  negb (is_control c) && negb (c =? SLASH) && negb (c =? BACKSLASH)
  && negb (is_format_char c) && negb (mem c WINDOWS_ILLEGAL).

Definition trailing (c : N) : bool := (c =? 32) || (c =? DOT) || (c =? 9).

(** [trimmed.split] at the dots, first part. *)
Definition stem_of (name : str) : str := take_while (fun c => negb (c =? DOT)) name.

Definition reserved (name : str) : bool := mem (map ascii_lower (stem_of name)) RESERVED_STEMS.

Definition sanitize (raw : str) : option str :=
  let base := basename raw in
  let cleaned := filter (fun c => keeps c = true) base in
  let trimmed := trim_end_matches trailing (trim_start cleaned) in
  if eqb trimmed [] || eqb trimmed (lit ".") || eqb trimmed (lit "..") then None
  else if reserved trimmed then None
  else
    let capped := truncate_preserving_extension trimmed in
    if eqb capped [] then None else Some capped.

Example sanitize_traversal : sanitize (lit "../../etc/passwd") = Some (lit "passwd").
Proof. reflexivity. Qed.
Example sanitize_stream : sanitize (lit "C:\dir\report.pdf:payload.exe") = Some (lit "report.pdfpayload.exe").
Proof. reflexivity. Qed.
Example sanitize_device : sanitize (lit "dir/NUL.txt") = None.
Proof. reflexivity. Qed.

(** * Cutting at a character boundary *)

Lemma walk_back_spec s i :
  walk_back s i <= N.of_nat i /\ is_char_boundary s (walk_back s i) = true /\
  forall k, k <= N.of_nat i -> is_char_boundary s k = true -> k <= walk_back s i.
Proof.
  induction i as [|i (IH1 & IH2 & IH3)]; simpl walk_back.
  { split; [lia|]. split; [by destruct s | intros; lia]. }
  destruct (is_char_boundary s (N.of_nat (S i))) eqn:Hb.
  - split; [lia|]. split; [done | intros; lia].
  - split; [lia|]. split; [done|]. intros k Hk Hkb. apply IH3; [|done].
    destruct (decide (k = N.of_nat (S i))); [congruence | lia].
Qed.

Lemma boundary_end s : is_char_boundary s (str_len s) = true.
Proof.
  induction s as [|c s IH]; [done|]. rewrite str_len_cons. simpl. apply orb_true_iff. right.
  apply andb_true_iff. split; [apply N.leb_le; lia|].
  by replace (char_len c + str_len s - char_len c) with (str_len s) by lia.
Qed.

Lemma floor_spec s i :
  floor_char_boundary s i <= i /\ is_char_boundary s (floor_char_boundary s i) = true /\
  (i <= str_len s -> i <= floor_char_boundary s i + 3).
Proof.
  unfold floor_char_boundary. destruct (N.leb_spec (str_len s) i) as [Hle|Hlt].
  { split; [done|]. split; [apply boundary_end | intros; lia]. }
  destruct (walk_back_spec s (N.to_nat i)) as (H1 & H2 & H3). rewrite N2Nat.id in *.
  split; [done|]. split; [done|]. intros Hi.
  destruct (boundary_near s i Hi) as (j & Hj & Hb). specialize (H3 j ltac:(lia) Hb). lia.
Qed.

Lemma extension_of_suffix name : exists a, name = a ++ extension_of name /\
  (extension_of name = [] \/ exists t, extension_of name = DOT :: t).
Proof.
  unfold extension_of. destruct (rfind_split DOT name) as [[[|x a] b]|] eqn:Hs;
    [exists name; rewrite app_nil_r; eauto | | exists name; rewrite app_nil_r; eauto].
  apply rfind_split_some in Hs as (-> & t & -> & _). exists (x :: a). eauto.
Qed.

(** Truncation keeps a prefix of at least 236 bytes, and the extension whole or
    not at all. *)
Lemma truncate_spec name : 255 < str_len name -> exists p m ext,
  name = p ++ m ++ ext /\ truncate_preserving_extension name = p ++ ext /\
  str_len (p ++ ext) <= MAX_FILENAME_BYTES /\ 236 <= str_len p /\ (ext = [] \/ exists t, ext = DOT :: t).
Proof.
  intros Hlong. unfold truncate_preserving_extension, MAX_FILENAME_BYTES.
  destruct (N.leb_spec (str_len name) 255); [lia|]. cbv zeta.
  set (ext := if str_len (extension_of name) <=? 16 then extension_of name else []).
  assert (exists a, name = a ++ ext /\ str_len ext <= 16 /\ (ext = [] \/ exists t, ext = DOT :: t))
    as (a & Ha & Hshort & Hshape).
  { subst ext. destruct (N.leb_spec (str_len (extension_of name)) 16) as [Hle|_].
    - destruct (extension_of_suffix name) as (a & Ha & Hshape). eauto.
    - exists name. rewrite app_nil_r. split; [done|]. rewrite str_len_nil. split; [lia | by left]. }
  clearbody ext. subst name. rewrite str_len_app in *.
  replace (str_len a + str_len ext - str_len ext) with (str_len a) by lia. rewrite str_to_app.
  destruct (floor_spec a (255 - str_len ext)) as (Hf1 & Hf2 & Hf3).
  pose proof (str_to_boundary _ _ Hf2) as Hlen.
  destruct (str_to_prefix a (floor_char_boundary a (255 - str_len ext))) as [m Hm].
  exists (str_to a (floor_char_boundary a (255 - str_len ext))), m, ext.
  rewrite str_len_app, Hlen. split; [rewrite Hm at 1; by rewrite <- app_assoc|]. split; [done|].
  split; [lia|]. split; [lia|done].
Qed.

Lemma truncate_short name : str_len name <= 255 -> truncate_preserving_extension name = name.
Proof.
  intros H. unfold truncate_preserving_extension, MAX_FILENAME_BYTES.
  destruct (N.leb_spec (str_len name) 255); [done|lia].
Qed.

(** * Reserved names *)

Lemma reserved_short name : reserved name = true -> (length (stem_of name) <= 7)%nat.
Proof.
  unfold reserved. intros Hm. apply mem_true in Hm.
  assert (forallb (fun s => length s <=? 7)%nat RESERVED_STEMS = true) as Hall by reflexivity.
  rewrite forallb_forall in Hall. apply list_elem_of_In, Hall, Nat.leb_le in Hm. by rewrite length_map in Hm.
Qed.

Lemma stem_of_app_dot p x : DOT ∈ p -> stem_of (p ++ x) = stem_of p.
Proof.
  unfold stem_of. induction p as [|c p IH]; simpl; [set_solver|].
  destruct (N.eqb_spec c DOT); simpl; [done|]. intros [Heq|Hin]%elem_of_cons; [congruence|]. by rewrite IH.
Qed.

Lemma stem_of_app_clean p x : DOT ∉ p -> stem_of (p ++ x) = p ++ stem_of x.
Proof.
  unfold stem_of. induction p as [|c p IH]; simpl; [done|]. intros [Hc Hp]%not_elem_of_cons.
  destruct (N.eqb_spec c DOT); [congruence|]. simpl. by rewrite IH.
Qed.

Lemma reserved_truncated p m ext : 236 <= str_len p -> ext = [] \/ (exists t, ext = DOT :: t) ->
  reserved (p ++ m ++ ext) = false -> reserved (p ++ ext) = false.
Proof.
  intros Hp Hext Hres. destruct (decide (DOT ∈ p)) as [Hdot|Hdot].
  { unfold reserved in *. by rewrite stem_of_app_dot in * by done. }
  destruct (reserved (p ++ ext)) eqn:Hr; [|done]. apply reserved_short in Hr.
  rewrite stem_of_app_clean in Hr by done.
  assert (str_len p <= 4 * len p) as Hbytes.
  { clear. induction p as [|c p IH]; [done|]. rewrite str_len_cons, len_cons.
    pose proof (char_len_bounds c). lia. }
  rewrite length_app in Hr. unfold len in Hbytes. lia.
Qed.

(** * Trimming *)

Lemma trim_end_prefix p s : exists k, s = trim_end_matches p s ++ k.
Proof.
  unfold trim_end_matches. destruct (drop_while_suffix p (rev s)) as [k Hk]. exists (rev k).
  rewrite <- rev_app_distr, <- Hk. by rewrite rev_involutive.
Qed.

Lemma trim_end_last p s x k : trim_end_matches p s = k ++ [x] -> p x = false.
Proof.
  unfold trim_end_matches. intros H. apply (f_equal (@rev N)) in H.
  rewrite rev_involutive, rev_app_distr in H. by apply drop_while_head in H.
Qed.

Lemma trim_end_id p s : (forall k x, s = k ++ [x] -> p x = false) -> trim_end_matches p s = s.
Proof.
  intros H. unfold trim_end_matches. rewrite drop_while_id; [apply rev_involutive|].
  intros x l Hl. apply (H (rev l)). rewrite <- (rev_involutive s), Hl. done.
Qed.

Lemma trim_start_sublist s : trim_start s `sublist_of` s.
Proof.
  unfold trim_start. destruct (drop_while_suffix is_whitespace s) as [k Hk].
  rewrite Hk at 2. by apply sublist_inserts_l.
Qed.

Lemma trim_end_sublist p s : trim_end_matches p s `sublist_of` s.
Proof. destruct (trim_end_prefix p s) as [k Hk]. rewrite Hk at 2. by apply sublist_inserts_r. Qed.

Lemma basename_suffix raw : exists k, raw = k ++ basename raw.
Proof.
  unfold basename. destruct (take_while_prefix (fun c => negb (is_separator c)) (rev raw)) as [k Hk].
  exists (rev k). rewrite <- (rev_involutive raw) at 1. rewrite Hk at 1. by rewrite rev_app_distr.
Qed.

Lemma truncate_sublist name : truncate_preserving_extension name `sublist_of` name.
Proof.
  destruct (N.le_gt_cases (str_len name) 255) as [Hs|Hl]; [by rewrite truncate_short|].
  destruct (truncate_spec name Hl) as (p & m & ext & -> & -> & _).
  apply sublist_app; [done|]. by apply sublist_inserts_l.
Qed.

(** The trimmed text [sanitize] judges. *)
Definition trimmed (raw : str) : str :=
  trim_end_matches trailing (trim_start (filter (fun c => keeps c = true) (basename raw))).

Lemma sanitize_some raw name : sanitize raw = Some name <->
  trimmed raw <> [] /\ reserved (trimmed raw) = false /\ name = truncate_preserving_extension (trimmed raw).
Proof.
  unfold sanitize. fold (trimmed raw). cbv zeta.
  assert (Hlast : forall s : str, trimmed raw <> s ++ lit ".").
  { intros s H. by apply trim_end_last in H. }
  destruct (eqb (trimmed raw) []) eqn:H1; simpl; to_prop; [naive_solver|].
  destruct (eqb (trimmed raw) (lit ".")) eqn:H2; simpl; to_prop; [by destruct (Hlast [])|].
  destruct (eqb (trimmed raw) (lit "..")) eqn:H3; simpl; to_prop; [by destruct (Hlast (lit "."))|].
  destruct (reserved (trimmed raw)); [naive_solver|].
  destruct (eqb (truncate_preserving_extension (trimmed raw)) []) eqn:H4; to_prop; [|naive_solver].
  exfalso. destruct (N.le_gt_cases (str_len (trimmed raw)) 255) as [Hs|Hl].
  { by rewrite truncate_short in H4. }
  destruct (truncate_spec _ Hl) as (p & m & ext & _ & Ht & _ & Hp & _). rewrite Ht in H4.
  apply app_nil in H4 as [-> _]. rewrite str_len_nil in Hp. lia.
Qed.

Lemma trimmed_sublist raw : trimmed raw `sublist_of` filter (fun c => keeps c = true) (basename raw).
Proof. unfold trimmed. etrans; [apply trim_end_sublist | apply trim_start_sublist]. Qed.

Lemma sublist_Forall {A} (P : A -> Prop) (l k : list A) : l `sublist_of` k -> Forall P k -> Forall P l.
Proof. induction 1; inversion 1; subst; auto. Qed.

Lemma keeps_filter (P : N -> bool) s : Forall (fun c => P c = true) (filter (fun c => P c = true) s).
Proof. apply Forall_forall. by intros x [? _]%list_elem_of_filter. Qed.

Lemma filter_kept (P : N -> bool) s : Forall (fun c => P c = true) s -> filter (fun c => P c = true) s = s.
Proof. induction 1 as [|c s Hc _ IH]; [done|]. rewrite filter_cons_True by done. by rewrite IH. Qed.

(** What may stand in a stored name: printable, no separator, nothing invisible
    or that turns the direction of the text, nothing Windows gives a meaning to. *)
Record safe_char (c : N) : Prop := {
  sc_printable : 31 < c /\ (c < 127 \/ 159 < c);
  sc_separator : c <> SLASH /\ c <> BACKSLASH;
  sc_visible : is_format_char c = false;
  sc_windows : c ∉ WINDOWS_ILLEGAL
}.

Lemma keeps_safe c : keeps c = true <-> safe_char c.
Proof.
  unfold keeps. rewrite !andb_true_iff, !negb_true_iff. unfold is_control, in_range. split.
  - intros [[[[Hc Hs] Hb] Hf] Hw]. split; [|split| |]; try done; [|by apply N.eqb_neq..|].
    + to_prop. lia.
    + by apply mem_false.
  - intros [[H1 H2] [H3 H4] Hf Hw]. split_and!; try done; try by apply N.eqb_neq.
    + to_prop. lia.
    + by apply mem_false.
Qed.

Lemma keeps_safe_all s : Forall (fun c => keeps c = true) s <-> Forall safe_char s.
Proof. apply Forall_iff. intros c. apply keeps_safe. Qed.

(** A device of the Windows namespace, with or without an extension. *)
Definition device_name (name : str) : Prop :=
  exists dev, dev ∈ RESERVED_STEMS /\
    (map ascii_lower name = dev \/ exists ext, map ascii_lower name = dev ++ DOT :: ext).

Lemma stem_of_lower name : stem_of (map ascii_lower name) = map ascii_lower (stem_of name).
Proof.
  unfold stem_of. induction name as [|c name IH]; [done|]. simpl.
  assert ((ascii_lower c =? DOT) = (c =? DOT)) as ->.
  { unfold ascii_lower, in_range, DOT. case_match eqn:Hc; [|done]. to_prop.
    destruct (N.eqb_spec (c + 32) 46), (N.eqb_spec c 46); lia. }
  destruct (c =? DOT); [done|]. simpl. by rewrite IH.
Qed.

Lemma stem_of_cases name : name = stem_of name \/ exists ext, name = stem_of name ++ DOT :: ext.
Proof.
  unfold stem_of. induction name as [|c name IH]; [by left|]. simpl.
  destruct (N.eqb_spec c DOT) as [->|Hc]; [right; by exists name|]. simpl.
  destruct IH as [IH|[ext IH]]; [left; congruence | right; exists ext; congruence].
Qed.

Lemma stem_of_app stem ext : DOT ∉ stem -> stem_of (stem ++ DOT :: ext) = stem /\ stem_of stem = stem.
Proof.
  unfold stem_of. induction stem as [|c stem IH]; simpl; [done|]. intros Hn.
  apply not_elem_of_cons in Hn as [Hc Hn]. destruct (N.eqb_spec c DOT); [done|]. simpl.
  destruct (IH Hn) as [-> ->]. done.
Qed.

Lemma reserved_no_dot dev : dev ∈ RESERVED_STEMS -> DOT ∉ dev.
Proof.
  assert (Forall (fun d => mem DOT d = false) RESERVED_STEMS) as H by (repeat constructor).
  intros Hd. apply mem_false. by apply (proj1 (Forall_forall _ _) H).
Qed.

Lemma reserved_device name : reserved name = true <-> device_name name.
Proof.
  unfold reserved, device_name. rewrite mem_true, <- stem_of_lower. split.
  - intros Hin. exists (stem_of (map ascii_lower name)). split; [done|]. apply stem_of_cases.
  - intros (dev & Hin & Hname). destruct (stem_of_app dev [] (reserved_no_dot _ Hin)) as [_ Hs].
    destruct Hname as [->|[ext ->]]; [by rewrite Hs|].
    by rewrite (proj1 (stem_of_app dev ext (reserved_no_dot _ Hin))).
Qed.

Lemma not_reserved_device name : reserved name = false <-> ~ device_name name.
Proof. rewrite <- reserved_device. by destruct (reserved name). Qed.

(** C38: what [sanitize] lets through cannot leave the download directory or
    deceive whoever reads it.  The name is not empty and has at most 255 bytes;
    it has no separator, control, format or Windows-reserved character; it is
    neither a dot directory nor a reserved device, with any extension; and
    nothing in it was invented: its characters come from the last component of
    the peer's string, in order. *)
Theorem sanitize_safe raw name : sanitize raw = Some name ->
  name <> [] /\ str_len name <= 255 /\ Forall safe_char name /\
  name <> lit "." /\ name <> lit ".." /\ ~ device_name name /\ name `sublist_of` basename raw.
Proof.
  rewrite <- keeps_safe_all, <- not_reserved_device. intros (Hne & Hres & ->)%sanitize_some.
  pose proof (truncate_sublist (trimmed raw)) as Hsub.
  assert (Hclean : Forall (fun c => keeps c = true) (truncate_preserving_extension (trimmed raw))).
  { eapply sublist_Forall; [etrans; [exact Hsub | apply trimmed_sublist] | apply keeps_filter]. }
  assert (Hbase : truncate_preserving_extension (trimmed raw) `sublist_of` basename raw).
  { etrans; [exact Hsub|]. etrans; [apply trimmed_sublist | apply sublist_filter]. }
  assert (Hdots : forall s x, trimmed raw = s ++ [x] -> x <> DOT).
  { intros s x Hx ->. by apply trim_end_last in Hx. }
  destruct (N.le_gt_cases (str_len (trimmed raw)) 255) as [Hs|Hl].
  - rewrite truncate_short in * by done. split_and!; try done.
    + intros H. by apply (Hdots [] DOT).
    + intros H. by apply (Hdots [DOT] DOT).
  - destruct (truncate_spec _ Hl) as (p & m & ext & Ht & Htr & Hlen & Hp & Hext). rewrite Htr in *.
    assert (Hbig : forall t, str_len t < 236 -> p ++ ext <> t).
    { intros t Hlt Heq. apply (f_equal str_len) in Heq. rewrite str_len_app in Heq. lia. }
    rewrite Ht in Hres. split_and!; try done; try (by apply Hbig). by eapply reserved_truncated.
Qed.

Lemma sanitize_safe_witness : exists name, sanitize (lit "../../.ssh/authorized_keys ") = Some name /\
  name = lit "authorized_keys" /\ str_len name <= 255.
Proof.
  exists (lit "authorized_keys"). split; [reflexivity|]. split; [reflexivity|].
  exact (proj1 (proj2 (sanitize_safe (lit "../../.ssh/authorized_keys ") _ eq_refl))).
Defined.

(** An ordinary name: clean, not blank at either end, not a device, not too long. *)
Definition plain_name (name : str) : Prop :=
  name <> [] /\ Forall safe_char name /\
  (forall c s, name = c :: s -> is_whitespace c = false) /\
  (forall s c, name = s ++ [c] -> c <> 32 /\ c <> DOT /\ c <> 9) /\
  ~ device_name name /\ str_len name <= 255.

Lemma trailing_false c : trailing c = false <-> c <> 32 /\ c <> DOT /\ c <> 9.
Proof. unfold trailing. rewrite !orb_false_iff, !N.eqb_neq. tauto. Qed.

Lemma keeps_no_separator name : Forall (fun c => keeps c = true) name -> basename name = name.
Proof.
  intros H. unfold basename. rewrite take_while_id; [apply rev_involutive|].
  apply Forall_rev. eapply Forall_impl; [exact H|]. unfold keeps, is_separator. intros c Hc.
  destruct (is_control c), (c =? SLASH), (c =? BACKSLASH); done.
Qed.

(** A name is stored under the name it was sent with exactly when it is an
    ordinary one: [sanitize] neither rejects nor alters a plain name, and there
    are no other names it leaves alone. *)
Theorem sanitize_fixpoints name : sanitize name = Some name <-> plain_name name.
Proof.
  rewrite sanitize_some. split.
  - intros (Hne & Hres & Heq).
    assert (Htr : trimmed name = name).
    { apply (anti_symm sublist).
      - etrans; [apply trimmed_sublist|]. etrans; [apply sublist_filter|].
        destruct (basename_suffix name) as [k Hk]. rewrite Hk at 2. by apply sublist_inserts_l.
      - rewrite Heq at 1. apply truncate_sublist. }
    rewrite Htr in *. unfold plain_name. rewrite <- keeps_safe_all, <- not_reserved_device.
    split; [done|]. split_and!; try done.
    + rewrite <- Htr. eapply sublist_Forall; [apply trimmed_sublist | apply keeps_filter].
    + intros c s ->. unfold trimmed in Htr.
      set (t := trim_start _) in Htr. destruct (trim_end_prefix trailing t) as [k Hk].
      rewrite Htr in Hk. by apply drop_while_head in Hk.
    + intros s c ->. by apply trailing_false, (trim_end_last trailing _ c s Htr).
    + destruct (N.le_gt_cases (str_len name) 255) as [|Hl]; [done|].
      destruct (truncate_spec _ Hl) as (p & m & ext & _ & Ht & Hlen & _). rewrite Heq, Ht. done.
  - intros (Hne & Hkeep%keeps_safe_all & Hfirst & Hlast & Hres%not_reserved_device & Hlen).
    assert (forall s c, name = s ++ [c] -> trailing c = false) as Hend by (intros s c ?; apply trailing_false; eauto).
    assert (Htr : trimmed name = name).
    { unfold trimmed. rewrite keeps_no_separator by done.
      rewrite filter_kept by done.
      unfold trim_start. rewrite drop_while_id by done. by apply trim_end_id. }
    rewrite Htr, truncate_short by done. done.
Qed.

(** A name cut at the limit can end in a dot, which the pass above had removed. *)
Example truncated_name_ends_in_dot :
  exists stem tail, sanitize (stem ++ lit "." ++ tail) = Some (stem ++ lit ".").
Proof. exists (replicate 254 97), (replicate 40 98). reflexivity. Qed.
