(* ===== verification/Transfer.v ===== *)
(** File transfers: identifiers, states, failure reasons and stream authentication.

    [capabilities/files/src/transfer.rs], [auth.rs] and the constants of
    [limits.rs].  [TransferState] has the transition table of the source;
    [TransferId] its hexadecimal spelling; [compute_stream_mac] the message a
    data stream authenticates with.  The wire enumeration of failure reasons is
    the one of [files_v1.proto]. *)
From S2P Require Import Prelude External Ids Pairing.

(** * Limits *)

Definition TRANSFER_ID_LEN : nat := 16.
Definition STREAM_CHALLENGE_LEN : nat := 32.
Definition MAX_CONCURRENT_TRANSFERS_PER_PEER : N := 4.
Definition DEFAULT_MAX_FILE_BYTES : N := 16 * 1024 * 1024 * 1024.
Definition MAX_MIME_TYPE_BYTES : N := 128.
Definition ACCEPT_TIMEOUT : N := from_secs 120.
Definition STREAM_OPEN_TIMEOUT : N := from_secs 30.
Definition VERDICT_TIMEOUT : N := from_secs 600.
Definition COPY_BUFFER_BYTES : N := 64 * 1024.
Definition MAX_DUPLICATE_SUFFIX : N := 999.

(** * Identifiers *)

Definition TransferId : Type := bytesn TRANSFER_ID_LEN.

Module TransferId.
Definition from_bytes (b : bytes) : option TransferId := try_into TRANSFER_ID_LEN b.

Definition to_hex (id : TransferId) : str := hex_string (bn_bytes id).

Definition from_hex (text : str) : option TransferId :=
  let raw := str_bytes text in
  if negb (len raw =? N.of_nat (TRANSFER_ID_LEN * 2)) || negb (forallb (fun b => is_ascii_hexdigit (to_N b)) raw)
  then None
  else out ← hex_pairs hex_val (to_N <$> raw); try_into TRANSFER_ID_LEN out.

Definition to_display_short (id : TransferId) : str := take 8 (to_hex id).
End TransferId.

Inductive Direction := Sending | Receiving.

#[export] Instance Direction_eq_dec : EqDecision Direction.
Proof. solve_decision. Defined.

(** * The state machine *)

Module TransferState.
Inductive t := Offered | WaitingAccept | Transferring | Verifying | Completed | Failed | Cancelled.

#[global] Instance eq_dec : EqDecision t.
Proof. solve_decision. Defined.

Definition is_terminal (s : t) : bool := match s with Completed | Failed | Cancelled => true | _ => false end.
Definition is_active (s : t) : bool := negb (is_terminal s).

Definition as_str (s : t) : string :=
  match s with
  | Offered => "offered" | WaitingAccept => "waiting_accept" | Transferring => "transferring"
  | Verifying => "verifying" | Completed => "completed" | Failed => "failed" | Cancelled => "cancelled"
  end.

Definition can_transition_to (s next : t) : bool :=
  match s, next with
  | Offered, Transferring => true
  | WaitingAccept, Transferring => true
  | Transferring, Verifying => true
  | Verifying, Completed => true
  | Transferring, Completed => true
  | s, Failed => negb (is_terminal s)
  | s, Cancelled => negb (is_terminal s)
  | _, _ => false
  end.
End TransferState.

(** * Failure reasons *)

Module FailureReason.
Inductive t :=
| DeclinedByUser | NotAuthorized | TooManyTransfers | TooLarge | BadMetadata | TimedOut
| Integrity | Storage | Transport | CancelledByUser | Revoked | UnknownTransfer.

#[global] Instance eq_dec : EqDecision t.
Proof. solve_decision. Defined.

Definition is_cancellation (r : t) : bool :=
  match r with CancelledByUser | DeclinedByUser => true | _ => false end.

Definition code (r : t) : string :=
  match r with
  | DeclinedByUser => "declined_by_user" | NotAuthorized => "not_authorized"
  | TooManyTransfers => "too_many_transfers" | TooLarge => "too_large" | BadMetadata => "bad_metadata"
  | TimedOut => "timed_out" | Integrity => "integrity" | Storage => "storage" | Transport => "transport"
  | CancelledByUser => "cancelled_by_user" | Revoked => "revoked" | UnknownTransfer => "unknown_transfer"
  end.

Definition ALL : list t :=
  [DeclinedByUser; NotAuthorized; TooManyTransfers; TooLarge; BadMetadata; TimedOut;
   Integrity; Storage; Transport; CancelledByUser; Revoked; UnknownTransfer].

(** [reason_to_proto(reason) as i32] *)
Definition reason_to_proto (r : t) : Z :=
  match r with
  | DeclinedByUser => 1 | NotAuthorized => 2 | TooManyTransfers => 3 | TooLarge => 4 | BadMetadata => 5
  | TimedOut => 6 | Integrity => 7 | Storage => 8 | Transport => 9 | CancelledByUser => 10
  | Revoked => 11 | UnknownTransfer => 12
  end%Z.

(** [reason_from_proto(message.reason())]: the accessor reads a number outside
    the enumeration as [Unspecified]. *)
Definition reason_from_proto (z : Z) : t :=
  match z with
  | 1 => DeclinedByUser | 2 => NotAuthorized | 3 => TooManyTransfers | 4 => TooLarge | 5 => BadMetadata
  | 6 => TimedOut | 7 => Integrity | 8 => Storage | 9 => Transport | 10 => CancelledByUser
  | 11 => Revoked | _ => UnknownTransfer
  end%Z.

Lemma reason_roundtrip r : reason_from_proto (reason_to_proto r) = r.
Proof. by destruct r. Qed.
End FailureReason.

(** * Stream authentication *)

Definition data_stream_domain (p : Profile) : bytes :=
  match p with
  | Profile.Pliwee => blit "pliwee/files.v1/data-stream/v1"
  | Profile.OmniBridge => blit "omnibridge/files.v1/data-stream/v1"
  end.

Definition StreamChallenge : Type := bytesn STREAM_CHALLENGE_LEN.
Definition challenge_from_bytes (b : bytes) : option StreamChallenge := try_into STREAM_CHALLENGE_LEN b.

Definition stream_transcript (profile : Profile) (acceptor dialer : Fingerprint) (id : TransferId) : bytes :=
  data_stream_domain profile ++ len_prefixed acceptor ++ len_prefixed dialer ++ len_prefixed id.

Section StreamAuth.
Context `{!Crypto}.

Definition compute_stream_mac (profile : Profile) (challenge : StreamChallenge)
    (acceptor dialer : Fingerprint) (id : TransferId) : bytesn 32 :=
  hmac_sha256 challenge (stream_transcript profile acceptor dialer id).

Definition verify_stream_mac (expected : bytesn 32) (received : bytes) : bool :=
  if negb (len received =? len (bn_bytes expected)) then false else eqb (bn_bytes expected) received.

Lemma verify_stream_mac_true expected received :
  verify_stream_mac expected received = true <-> received = bn_bytes expected.
Proof.
  unfold verify_stream_mac. destruct (N.eqb_spec (len received) (len (bn_bytes expected))) as [|Hne]; simpl.
  - rewrite eqb_true. naive_solver.
  - split; [done|]. by intros ->.
Qed.

Lemma stream_transcript_inj p a d i p' a' d' i' :
  stream_transcript p a d i = stream_transcript p' a' d' i' -> p = p' /\ a = a' /\ d = d' /\ i = i'.
Proof.
  unfold stream_transcript. intros Heq.
  assert (p = p') as <- by (destruct p, p'; try done; by simplify_eq/=).
  apply app_inj_1 in Heq as [_ Heq]; [|done].
  apply len_prefixed_inj in Heq as [Ha Heq]; [|by rewrite bytesn_len..].
  apply len_prefixed_inj in Heq as [Hd Heq]; [|by rewrite bytesn_len..].
  rewrite <- (app_nil_r (len_prefixed i)), <- (app_nil_r (len_prefixed i')) in Heq.
  apply len_prefixed_inj in Heq as [Hi _]; [|by rewrite bytesn_len..].
  split_and!; try done; by apply bytesn_eq.
Qed.

(** One code for two streams under one challenge is a collision of the MAC. *)
Lemma stream_mac_binds challenge p a d i p' a' d' i' :
  compute_stream_mac p challenge a d i = compute_stream_mac p' challenge a' d' i' ->
  (p = p' /\ a = a' /\ d = d' /\ i = i') \/ mac_collision challenge.
Proof.
  intros Heq. destruct (decide (stream_transcript p a d i = stream_transcript p' a' d' i')) as [Ht|Ht];
    [left; by apply stream_transcript_inj | right].
  by exists (stream_transcript p a d i), (stream_transcript p' a' d' i').
Qed.
End StreamAuth.

(** * Properties *)

Lemma can_transition_terminal s next :
  TransferState.is_terminal s = true -> TransferState.can_transition_to s next = false.
Proof. by destruct s, next. Qed.

Lemma hex_val_lower_ascii c : hex_val c = hex_val_lower (ascii_lower c).
Proof.
  unfold hex_val_lower, hex_val, is_ascii_digit, ascii_lower, in_range.
  destruct (N.leb_spec 65 c), (N.leb_spec c 90); simpl;
  repeat match goal with |- context [?a <=? ?b] => destruct (N.leb_spec a b); simpl end;
    first [done | exfalso; lia | f_equal; lia].
Qed.

Lemma hex_pairs_lower l : hex_pairs hex_val l = hex_pairs hex_val_lower (map ascii_lower l).
Proof.
  induction l as [l IH] using (induction_ltof1 _ (@length N)). unfold ltof in IH.
  destruct l as [|a [|b l]]; simpl; try done.
  rewrite <- !hex_val_lower_ascii. rewrite (IH l) by (simpl; lia). done.
Qed.

Lemma ascii_bytes_text s : Forall (fun b => to_N b < 128) (str_bytes s) -> to_N <$> str_bytes s = s.
Proof.
  intros H. apply str_bytes_ascii. induction s as [|c s IH]; [done|].
  unfold str_bytes in H. rewrite bind_cons in H. apply Forall_app in H as [Hc Hs].
  constructor; [|by apply IH]. destruct (N.lt_ge_cases c 128) as [|Hge]; [done|]. exfalso.
  unfold char_utf8 in Hc. destruct (N.ltb_spec c 128); [lia|].
  assert (forall x, to_N (byte_of_N (128 + x mod 64)) >= 128) as Hbig.
  { intros x. rewrite to_N_byte_of_N. pose proof (N.mod_lt x 64 ltac:(done)). set (y := x mod 64) in *. clearbody y. rewrite N.mod_small; lia. }
  assert (forall a x l, Forall (fun b => to_N b < 128) (a :: byte_of_N (128 + x mod 64) :: l) -> False) as Hno.
  { intros a x l [_ [Hx _]%Forall_cons]%Forall_cons. specialize (Hbig x). lia. }
  repeat case_match; by apply Hno in Hc.
Qed.

Lemma hexdigit_val c v : hex_val c = Some v -> is_ascii_hexdigit c = true /\ c < 128.
Proof.
  unfold hex_val, is_ascii_hexdigit. unfold is_ascii_digit, in_range.
  repeat match goal with |- context [?a <=? ?b] => destruct (N.leb_spec a b); simpl end; intros; simplify_eq;
    first [done | split; [done | lia]].
Qed.

Lemma hex_pairs_digits l b : hex_pairs hex_val l = Some b ->
  Forall (fun c => is_ascii_hexdigit c = true /\ c < 128) l /\ length l = (2 * length b)%nat.
Proof.
  revert b. induction l as [l IH] using (induction_ltof1 _ (@length N)). unfold ltof in IH.
  destruct l as [|x [|y l]]; intros b; simpl; [by intros [= <-] | done|].
  destruct (hex_val x) as [u|] eqn:Hu; simpl; [|done]. destruct (hex_val y) as [v|] eqn:Hv; simpl; [|done].
  destruct (hex_pairs hex_val l) as [r|] eqn:Hr; simpl; [|done]. intros [= <-].
  destruct (IH l ltac:(simpl; lia) _ Hr) as [Hall Hlen]. simpl. split; [|lia].
  repeat constructor; try (by eapply hexdigit_val); done.
Qed.

(** The hexadecimal spelling of a transfer id is exact: [from_hex] reads a
    text as an id if and only if the text, letter case aside, is what [to_hex]
    prints for it.  So an answer given to one offer can be read as an answer to
    no other: there are no prefixes, signs, spaces or non-ASCII digits. *)
Theorem transfer_id_hex text id :
  TransferId.from_hex text = Some id <-> map ascii_lower text = TransferId.to_hex id.
Proof.
  unfold TransferId.from_hex, TransferId.to_hex. cbv zeta. split.
  - case_match eqn:Hg; [done|]. apply orb_false_iff in Hg as [_ Hd]. apply negb_false_iff in Hd.
    assert (to_N <$> str_bytes text = text) as Htext.
    { apply ascii_bytes_text, Forall_forall. intros b Hb. rewrite forallb_forall in Hd.
      apply list_elem_of_In, Hd in Hb. unfold is_ascii_hexdigit, is_ascii_digit, in_range in Hb. to_prop. lia. }
    rewrite Htext, hex_pairs_lower. intros (out & Ho & Hid)%bind_Some.
    apply try_into_some in Hid as <-. by apply hex_pairs_canonical in Ho as [-> _].
  - intros Hl. assert (hex_pairs hex_val text = Some (bn_bytes id)) as Hp.
    { rewrite hex_pairs_lower, Hl. apply hex_pairs_string. intros x.
      destruct (hex_byte_spec x) as (hi & lo & ? & _ & _ & ? & ? & _). eauto. }
    destruct (hex_pairs_digits _ _ Hp) as [Hall Hlen]. rewrite bytesn_length in Hlen.
    assert (Forall (fun c => c < 128) text) as Hascii by (eapply Forall_impl; [exact Hall | by intros ? []]).
    pose proof (str_bytes_ascii _ Hascii) as Htext.
    replace (len (str_bytes text)) with (len text) by (symmetry; by apply str_len_ascii).
    unfold len. rewrite Hlen, N.eqb_refl. simpl.
    replace (forallb _ _) with true; [simpl; rewrite Htext, Hp; apply try_into_bytes|].
    symmetry. apply forallb_forall. intros b Hb. rewrite Forall_forall in Hall. apply Hall.
    rewrite <- Htext. apply list_elem_of_fmap. exists b. split; [done | by apply list_elem_of_In].
Qed.
