(* ===== verification/Stream.v ===== *)
(** The copy loops of a data stream.

    [capabilities/files/src/stream.rs]: [receive_exactly], [send_exactly] and
    [hash_file].  What a reader will do is a schedule of [ReadEvent]s chosen by
    the network, the disk and whoever cancels; a read takes at most the bytes it
    asked for and leaves the rest of a chunk for the next one.  A file being
    written is a [Writer].  The SHA-256 state is the bytes hashed so far.

    Each turn of a loop moves at least one byte or returns, so as many turns as
    there are bytes still expected are enough: [None] is a loop out of turns, and
    the theorems exclude it. *)
From S2P Require Import Prelude External Ids Framing Transfer.

Inductive ReadEvent :=
| Data (b : bytes)   (** bytes are there; none is end of file *)
| ReadFailed         (** the read returns an error *)
| Stalled            (** nothing for longer than the timeout *)
| CancelSignal.      (** [cancel.changed()] fires first *)

(** [reader.read(&mut buf[..want])] *)
Definition read (want : N) (evs : list ReadEvent) : ReadEvent * list ReadEvent :=
  match evs with
  | [] => (Stalled, [])
  | Data b :: evs' =>
      let rest := drop (N.to_nat want) b in
      (Data (take (N.to_nat want) b), match rest with [] => evs' | _ => Data rest :: evs' end)
  | ev :: evs' => (ev, evs')
  end.

Definition is_cancel (ev : ReadEvent) : bool := match ev with CancelSignal => true | _ => false end.

(** A local file being read: chunks, or an error; past the last one is its end. *)
Definition read_file (want : N) (evs : list (option bytes)) : option bytes * list (option bytes) :=
  match evs with
  | [] => (Some [], [])
  | None :: evs' => (None, evs')
  | Some b :: evs' =>
      let rest := drop (N.to_nat want) b in
      (Some (take (N.to_nat want) b), match rest with [] => evs' | _ => Some rest :: evs' end)
  end.

(** How one [write_all] to the stream ends, with what it had put on the wire. *)
Inductive WriteEvent :=
| Written
| WriteFailed (n : N)
| WriteStalled (n : N)
| WriteCancelled.

Section Copy.
Context `{!Crypto}.
Abbreviation Reason := FailureReason.t.

(** The loop of [receive_exactly]: the digest state or the failure, what is left
    of the schedule, the file, and the progress counter. *)
Fixpoint receive_loop (fuel : nat) (evs : list ReadEvent) (w : Writer) (hashed : bytes) (expected remaining progress : N)
    : option (result Reason bytes * list ReadEvent * Writer * N) :=
  if remaining =? 0 then Some (Ok hashed, evs, w, progress)
  else
    match fuel with
    | O => None
    | S fuel' =>
        let want := N.min remaining COPY_BUFFER_BYTES in
        match read want evs with
        | (CancelSignal, evs') => Some (Err FailureReason.CancelledByUser, evs', w, progress)
        | (Stalled, evs') => Some (Err FailureReason.TimedOut, evs', w, progress)
        | (ReadFailed, evs') => Some (Err FailureReason.Transport, evs', w, progress)
        | (Data [], evs') => Some (Err FailureReason.Integrity, evs', w, progress)
        | (Data b, evs') =>
            match write_all b w with
            | (Err _, w') => Some (Err FailureReason.Storage, evs', w', progress)
            | (Ok _, w') =>
                receive_loop fuel' evs' w' (hashed ++ b) expected (remaining - len b)
                  (expected - (remaining - len b))
            end
        end
    end.

Definition receive_exactly (evs : list ReadEvent) (w : Writer) (expected : N)
    : option (result Reason (bytesn 32) * list ReadEvent * Writer * N) :=
  match receive_loop (N.to_nat expected) evs w [] expected expected 0 with
  | None => None
  | Some (Err e, evs', w', p) => Some (Err e, evs', w', p)
  | Some (Ok hashed, evs', w', p) =>
      match flush w' with
      | Err _ => Some (Err FailureReason.Storage, evs', w', p)
      | Ok _ =>
          (** the trailing read has a timeout of its own and no cancel arm *)
          match read 1 (filter (fun ev => is_cancel ev = false) evs') with
          | (Data (_ :: _), evs'') => Some (Err FailureReason.Integrity, evs'', w', p)
          | (_, evs'') => Some (Ok (sha256 hashed), evs'', w', p)
          end
      end
  end.

(** The stream a sender writes: its bytes, and whether it was closed. *)
Record Wire := { wi_bytes : bytes; wi_closed : bool }.

Definition put (b : bytes) (o : Wire) : Wire := {| wi_bytes := wi_bytes o ++ b; wi_closed := wi_closed o |}.

Fixpoint send_loop (fuel : nat) (src : list (option bytes)) (ws : list WriteEvent) (o : Wire)
    (expected remaining progress : N) : option (result Reason unit * Wire * N) :=
  if remaining =? 0 then Some (Ok tt, o, progress)
  else
    match fuel with
    | O => None
    | S fuel' =>
        let want := N.min remaining COPY_BUFFER_BYTES in
        match read_file want src with
        | (Some [], _) => Some (Err FailureReason.Integrity, o, progress)
        | (None, _) => Some (Err FailureReason.Storage, o, progress)
        | (Some b, src') =>
            match ws with
            | WriteCancelled :: _ => Some (Err FailureReason.CancelledByUser, o, progress)
            | WriteFailed n :: _ => Some (Err FailureReason.Transport, put (take (N.to_nat n) b) o, progress)
            | WriteStalled n :: _ => Some (Err FailureReason.TimedOut, put (take (N.to_nat n) b) o, progress)
            | _ =>
                send_loop fuel' src' (tail ws) (put b o) expected (remaining - len b)
                  (expected - (remaining - len b))
            end
        end
    end.

(** [flushes]: whether the final flush succeeds. *)
Definition send_exactly (src : list (option bytes)) (ws : list WriteEvent) (flushes : bool) (o : Wire) (expected : N)
    : option (result Reason unit * Wire * N) :=
  match send_loop (N.to_nat expected) src ws o expected expected 0 with
  | Some (Ok _, o', p) =>
      if flushes then Some (Ok tt, {| wi_bytes := wi_bytes o'; wi_closed := true |}, p)
      else Some (Err FailureReason.Transport, o', p)
  | r => r
  end.

(** A chunk costs a turn per buffer; the last turn sees the end of the file. *)
Definition hash_fuel (src : list (option bytes)) : nat :=
  S (foldr (fun c n => match c with Some b => S (length b) + n | None => S n end)%nat O src).

Fixpoint hash_loop (fuel : nat) (src : list (option bytes)) (hashed : bytes) (size : N)
    : option (result unit (N * bytesn 32)) :=
  match fuel with
  | O => None
  | S fuel' =>
      match read_file COPY_BUFFER_BYTES src with
      | (None, _) => Some (Err tt)
      | (Some [], _) => Some (Ok (size, sha256 hashed))
      | (Some b, src') => hash_loop fuel' src' (hashed ++ b) (size + len b)
      end
  end.

Definition hash_file (src : list (option bytes)) : option (result unit (N * bytesn 32)) :=
  hash_loop (hash_fuel src) src [] 0.

(** * What the loops move *)

(** The bytes that arrive before anything else happens. *)
Fixpoint arriving (evs : list ReadEvent) : bytes :=
  match evs with
  | Data ((_ :: _) as b) :: evs' => b ++ arriving evs'
  | _ => []
  end.

Lemma read_data want evs b evs' : 0 < want -> read want evs = (Data b, evs') -> b <> [] ->
  arriving evs = b ++ arriving evs' /\ len b <= want.
Proof.
  intros Hw. unfold read. destruct evs as [|[c| | |] evs]; try done. intros [= <- <-] Hne.
  assert (Hc : c <> []) by (intros ->; rewrite take_nil in Hne; done).
  split; [|unfold len; rewrite length_take; lia].
  destruct c as [|x c]; [done|]. set (full := x :: c) in *.
  assert (arriving (Data full :: evs) = full ++ arriving evs) as -> by done.
  destruct (drop (N.to_nat want) full) as [|y rest] eqn:Hd.
  - rewrite <- (take_drop (N.to_nat want) full) at 1. by rewrite Hd, app_nil_r.
  - change (arriving (Data (y :: rest) :: evs)) with ((y :: rest) ++ arriving evs).
    rewrite app_assoc, <- Hd, take_drop. done.
Qed.

Lemma write_all_prefix b w r w' : write_all b w = (r, w') ->
  exists d, wr_bytes w' = wr_bytes w ++ d /\ d `prefix_of` b /\ (r = Ok tt -> d = b).
Proof.
  unfold write_all. destruct (wr_room w) as [[room k]|].
  - destruct (len b <=? room); intros [= <- <-]; simpl; [by exists b|].
    eexists. split; [done|]. split; [apply prefix_take | done].
  - intros [= <- <-]. by exists b.
Qed.

(** What a run of the loop did: the file grew by a prefix of what arrived, never
    by more than was expected, and an [Ok] is the whole of it. *)
Definition received (evs : list ReadEvent) (w : Writer) (hashed : bytes) (expected remaining progress : N)
    (res : result Reason bytes * list ReadEvent * Writer * N) : Prop :=
  let '(r, evs', w', p) := res in exists d, wr_bytes w' = wr_bytes w ++ d /\ d `prefix_of` arriving evs /\
    len d <= remaining /\
    forall h, r = Ok h -> h = hashed ++ d /\ len d = remaining /\ arriving evs = d ++ arriving evs' /\
      p = (if remaining =? 0 then progress else expected).

Lemma received_stop e evs' evs w hashed expected remaining progress :
  received evs w hashed expected remaining progress (Err e, evs', w, progress).
Proof.
  exists []. rewrite app_nil_r. split_and!; [done | apply prefix_nil | rewrite len_nil; lia | done].
Qed.

Lemma receive_loop_spec fuel evs w hashed expected remaining progress :
  (N.to_nat remaining <= fuel)%nat -> remaining <= expected ->
  exists res, receive_loop fuel evs w hashed expected remaining progress = Some res /\
    received evs w hashed expected remaining progress res.
Proof.
  revert evs w hashed remaining progress. induction fuel as [|fuel IH]; intros evs w hashed remaining progress Hf He;
    simpl; destruct (N.eqb_spec remaining 0) as [->|Hr].
  1,3: eexists; split; [reflexivity|]; exists []; rewrite app_nil_r;
       split_and!; [done | apply prefix_nil | done | intros h [= <-]; by rewrite app_nil_r].
  { lia. }
  assert (Hwant : 0 < N.min remaining COPY_BUFFER_BYTES) by (unfold COPY_BUFFER_BYTES; lia).
  destruct (read _ evs) as [[[|x b]| | |] evs'] eqn:Hread;
    try (eexists; split; [reflexivity | apply received_stop]).
  destruct (read_data _ _ _ _ Hwant Hread ltac:(done)) as [Harr Hlen].
  destruct (write_all (x :: b) w) as [[[]|k] w1] eqn:Hw; destruct (write_all_prefix _ _ _ _ Hw) as (d & Hd & Hp & Hok).
  - specialize (Hok eq_refl) as ->. assert (0 < len (x :: b)) by (rewrite len_cons; lia).
    destruct (IH evs' w1 (hashed ++ x :: b) (remaining - len (x :: b)) (expected - (remaining - len (x :: b))))
      as ([[[r evs2] w2] p] & Hrun & d2 & Hw2 & Hpre & Hl & Hfin); [lia..|].
    eexists. split; [exact Hrun|]. exists ((x :: b) ++ d2).
    split; [rewrite Hw2, Hd; by rewrite app_assoc|]. split; [rewrite Harr; by apply prefix_app|].
    split; [rewrite len_app; lia|]. intros h Hh. destruct (Hfin h Hh) as (-> & Hdl & Harr2 & ->).
    split; [by rewrite <- app_assoc|]. split; [rewrite len_app; lia|].
    split; [rewrite Harr, Harr2; by rewrite <- app_assoc|].
    destruct (N.eqb_spec remaining 0); [done|]. case_match eqn:Hz; [apply N.eqb_eq in Hz; lia | done].
  - eexists. split; [reflexivity|]. exists d. split; [done|].
    split; [etrans; [exact Hp|]; rewrite Harr; by apply prefix_app_r|]. split; [|done].
    apply prefix_length in Hp. unfold len in *. lia.
Qed.

(** A received file is exact.  Whatever the network does, [receive_exactly]
    ends; it puts a prefix of the arriving bytes into the file and never more
    than the offer announced; and it answers with a digest only if exactly the
    announced number of bytes arrived before the stream closed, failed or fell
    silent and not one more, all of them are in the file, and the digest is
    theirs. *)
Theorem receive_exactly_exact evs w expected :
  exists r evs' w' p d, receive_exactly evs w expected = Some (r, evs', w', p) /\
    wr_bytes w' = wr_bytes w ++ d /\ d `prefix_of` arriving evs /\ len d <= expected /\
    forall h, r = Ok h -> len d = expected /\ d = arriving evs /\ h = sha256 d.
Proof.
  unfold receive_exactly.
  destruct (receive_loop_spec (N.to_nat expected) evs w [] expected expected 0)
    as ([[[r evs'] w'] p] & -> & d & Hw & Hpre & Hlen & Hok); [lia..|].
  destruct r as [h|e]; [|by eexists _, _, _, _, d]. destruct (Hok h eq_refl) as (-> & Hd & Harr & _).
  destruct (flush w'); [|by eexists _, _, _, _, d].
  destruct (read 1 _) as [ev evs''] eqn:Hread.
  assert (Hend : (exists b, ev = Data [b]) \/ arriving evs' = []).
  { destruct evs' as [|[[|x c]| | |] evs']; auto. left. exists x. by injection Hread as <- _. }
  destruct Hend as [[b ->]|Hnil]; [by eexists _, _, _, _, d|].
  rewrite Hnil, app_nil_r in Harr.
  destruct ev as [[|b l]| | |]; eexists _, _, _, _, d; (split; [reflexivity|]); split_and!; try done;
    intros h [= <-]; done.
Qed.

(** * A whole transfer *)

Abbreviation nonempty := (Forall (fun b : bytes => b <> [])).

(** One read of chunked data: some of it, and the rest still chunked. *)
Definition reads_some (want : N) (chunks : list bytes) (b : bytes) (chunks' : list bytes) : Prop :=
  b <> [] /\ nonempty chunks' /\ concat chunks = b ++ concat chunks' /\ len b <= want.

Lemma split_chunk want c chunks : 0 < want -> nonempty (c :: chunks) ->
  reads_some want (c :: chunks) (take (N.to_nat want) c)
    (match drop (N.to_nat want) c with [] => chunks | rest => rest :: chunks end).
Proof.
  intros Hw [Hc Hall]%Forall_cons. unfold reads_some.
  split. { destruct c; [done|]. by destruct (N.to_nat want) eqn:?; [lia|]. }
  split; [case_match; by try constructor|].
  split; [|unfold len; rewrite length_take; lia].
  simpl. rewrite <- (take_drop (N.to_nat want) c) at 1. rewrite <- app_assoc. f_equal. by case_match.
Qed.

Lemma read_chunks want net tl : 0 < want -> nonempty net -> net <> [] -> exists b net',
  read want ((Data <$> net) ++ tl) = (Data b, (Data <$> net') ++ tl) /\ reads_some want net b net'.
Proof.
  intros Hw Hall Hne. destruct net as [|c net]; [done|].
  eexists _, _. split; [|by apply split_chunk]. simpl. by case_match.
Qed.

Lemma read_file_chunks want chunks : 0 < want -> nonempty chunks -> chunks <> [] -> exists b chunks',
  read_file want (Some <$> chunks) = (Some b, Some <$> chunks') /\ reads_some want chunks b chunks'.
Proof.
  intros Hw Hall Hne. destruct chunks as [|c chunks]; [done|].
  eexists _, _. split; [|by apply split_chunk]. simpl. by case_match.
Qed.

(** One turn of a copy with [remaining] bytes of chunked data left. *)
Lemma chunk_turn remaining (chunks : list bytes) : len (concat chunks) = remaining -> remaining <> 0 ->
  0 < N.min remaining COPY_BUFFER_BYTES /\ chunks <> [] /\
  forall b chunks', reads_some (N.min remaining COPY_BUFFER_BYTES) chunks b chunks' ->
    0 < len b /\ len (concat chunks') = remaining - len b.
Proof.
  intros <- Hne. split; [unfold COPY_BUFFER_BYTES; lia|]. split; [by intros ->|].
  intros b chunks' (Hb & _ & -> & Hle). rewrite len_app. split; [|lia].
  destruct b; [done|]. rewrite len_cons. lia.
Qed.

Lemma receive_loop_complete fuel net tl w hashed expected remaining progress :
  (N.to_nat remaining <= fuel)%nat -> remaining <= expected -> nonempty net -> len (concat net) = remaining ->
  wr_room w = None -> progress = expected - remaining ->
  receive_loop fuel ((Data <$> net) ++ tl) w hashed expected remaining progress =
    Some (Ok (hashed ++ concat net), tl, {| wr_bytes := wr_bytes w ++ concat net; wr_room := None |}, expected).
Proof.
  revert net w hashed remaining progress.
  induction fuel as [|fuel IH]; intros net w hashed remaining progress Hf He Hall Hlen Hroom ->;
    simpl; destruct (N.eqb_spec remaining 0) as [->|Hr].
  1,3: destruct net as [|c net]; [simpl; rewrite !app_nil_r, N.sub_0_r; destruct w; simpl in *; by subst|];
       apply len_zero in Hlen; apply Forall_cons in Hall as [Hc _]; by apply app_nil in Hlen as [? _].
  { lia. }
  destruct (chunk_turn _ _ Hlen Hr) as (Hw & Hne & Hturn).
  destruct (read_chunks _ _ tl Hw Hall Hne) as (b & net' & -> & Hsome).
  destruct (Hturn _ _ Hsome) as [Hpos Hrest]. destruct Hsome as (Hb & Hall' & Heq & Hle).
  destruct b as [|x b]; [done|]. rewrite write_all_unlimited by done. rewrite IH; [|lia..|done|done|done|lia].
  simpl. rewrite Heq, <- !app_assoc. done.
Qed.

Lemma send_loop_complete fuel chunks o expected remaining progress :
  (N.to_nat remaining <= fuel)%nat -> remaining <= expected -> nonempty chunks -> len (concat chunks) = remaining ->
  progress = expected - remaining ->
  send_loop fuel (Some <$> chunks) [] o expected remaining progress = Some (Ok tt, put (concat chunks) o, expected).
Proof.
  revert chunks o remaining progress.
  induction fuel as [|fuel IH]; intros chunks o remaining progress Hf He Hall Hlen ->;
    simpl; destruct (N.eqb_spec remaining 0) as [->|Hr].
  1,3: apply len_zero in Hlen; rewrite Hlen, N.sub_0_r; unfold put; rewrite app_nil_r; by destruct o.
  { lia. }
  destruct (chunk_turn _ _ Hlen Hr) as (Hw & Hne & Hturn).
  destruct (read_file_chunks _ _ Hw Hall Hne) as (b & chunks' & -> & Hsome).
  destruct (Hturn _ _ Hsome) as [Hpos Hrest]. destruct Hsome as (Hb & Hall' & Heq & Hle).
  destruct b as [|x b]; [done|]. rewrite IH; [|lia..|done|done|lia].
  unfold put. simpl. by rewrite Heq, <- !app_assoc.
Qed.

Lemma hash_loop_complete fuel chunks hashed size : nonempty chunks ->
  (length (concat chunks) < fuel)%nat ->
  hash_loop fuel (Some <$> chunks) hashed size =
    Some (Ok (size + len (concat chunks), sha256 (hashed ++ concat chunks))).
Proof.
  revert chunks hashed size. induction fuel as [|fuel IH]; intros chunks hashed size Hall Hf; [lia|]. simpl.
  destruct (decide (chunks = [])) as [->|Hne].
  { simpl. by rewrite app_nil_r, len_nil, N.add_0_r. }
  destruct (read_file_chunks COPY_BUFFER_BYTES chunks ltac:(done) Hall Hne) as (b & chunks' & -> & Hb & Hall' & Heq & _).
  destruct b as [|x b]; [done|]. rewrite Heq in Hf. rewrite length_app in Hf. simpl in Hf.
  rewrite IH; [|done|lia]. by rewrite Heq, len_app, N.add_assoc, app_assoc.
Qed.

(** C39: an honest transfer delivers the file.  However the sender's disk chunks
    the file and however the network re-chunks the stream, the digest and size
    offered are the file's, the sender puts exactly the file on the wire and
    closes it, and the receiver ends up with exactly that file and the offered
    digest. *)
Theorem transfer_end_to_end content chunks net :
  nonempty chunks -> concat chunks = content -> nonempty net -> concat net = content ->
  hash_file (Some <$> chunks) = Some (Ok (len content, sha256 content)) /\
  send_exactly (Some <$> chunks) [] true {| wi_bytes := []; wi_closed := false |} (len content) =
    Some (Ok tt, {| wi_bytes := content; wi_closed := true |}, len content) /\
  receive_exactly ((Data <$> net) ++ [Data []]) {| wr_bytes := []; wr_room := None |} (len content) =
    Some (Ok (sha256 content), [], {| wr_bytes := content; wr_room := None |}, len content).
Proof.
  intros Hc <- Hn Heq. split_and!.
  - unfold hash_file. rewrite hash_loop_complete; [done|done|]. clear. unfold hash_fuel. apply le_n_S.
    induction chunks as [|c chunks IH]; [done|]. rewrite fmap_cons. cbn [foldr concat]. rewrite length_app. lia.
  - unfold send_exactly. rewrite send_loop_complete; try done; lia.
  - unfold receive_exactly. rewrite <- Heq. rewrite receive_loop_complete; [reflexivity | lia | lia | done.. | lia].
Qed.
End Copy.

Lemma transfer_end_to_end_witness :
  receive_exactly (H := toy_crypto) ((Data <$> [[x01; x02]; [x03]]) ++ [Data []])
    {| wr_bytes := []; wr_room := None |} 3 =
  Some (Ok (@sha256 toy_crypto [x01; x02; x03]), [], {| wr_bytes := [x01; x02; x03]; wr_room := None |}, 3).
Proof.
  refine (proj2 (proj2 (@transfer_end_to_end toy_crypto [x01; x02; x03] [[x01]; [x02; x03]] [[x01; x02]; [x03]] _ _ _ _)));
    try reflexivity; repeat constructor; discriminate.
Defined.
