(* ===== verification/Identity.v ===== *)
(** Identities and where their key material lives.

    [core/src/identity.rs] (the key backings, the six states of a stored
    identity, the software backing) and [core/src/secret_store.rs] (the storage
    seam).  The two traits are classes: [IdentityBackend] with the law that what
    was created loads again, [SecretStore] with the laws its documentation states
    (writes are atomic; absence is [Ok None] and nothing else).  [SoftwareBacking]
    is the instance of the first given here, [UnixFs.v] has the one of the
    second. *)
From S2P Require Import Prelude External Ids Wire.

(** * [identity.rs] *)

Module KeyBacking.
Inductive t := Software | Tpm | SecureEnclave | Keystore (strongbox : bool).

#[global] Instance eq_dec : EqDecision t.
Proof. solve_decision. Defined.
#[global] Instance countable : Countable t.
Proof.
  refine (inj_countable' (fun k => match k with
      | Software => inl 0 | Tpm => inl 1 | SecureEnclave => inl 2 | Keystore s => inr s end)
    (fun s => match s with
      | inl 0 => Software | inl 1 => Tpm | inl _ => SecureEnclave | inr s => Keystore s end) _).
  by intros [].
Defined.

Definition is_exportable (k : t) : bool := match k with Software => true | _ => false end.

Definition label (k : t) : string :=
  match k with
  | Software => "software" | Tpm => "tpm" | SecureEnclave => "secure-enclave"
  | Keystore true => "keystore-strongbox" | Keystore false => "keystore"
  end%string.

Definition default : t := Software.
End KeyBacking.

(** The detail texts are left out. *)
Inductive IdentityState :=
| NotCreated | Available | TemporarilyUnavailable | HardwareUnavailable | Corrupted | Lost.

Definition may_create (s : IdentityState) : bool := match s with NotCreated => true | _ => false end.
Definition is_retryable (s : IdentityState) : bool :=
  match s with TemporarilyUnavailable => true | _ => false end.

Definition code (s : IdentityState) : string :=
  match s with
  | NotCreated => "IDENTITY_NOT_CREATED"
  | Available => "IDENTITY_AVAILABLE"
  | TemporarilyUnavailable => "IDENTITY_TEMPORARILY_UNAVAILABLE"
  | HardwareUnavailable => "IDENTITY_HARDWARE_UNAVAILABLE"
  | Corrupted => "IDENTITY_CORRUPTED"
  | Lost => "IDENTITY_LOST"
  end%string.

(** What a provider answers; the signing handle is the secret it was built
    from. *)
Record Identity := {
  id_device_id : str;
  id_device_name : str;
  id_platform : Platform;
  id_certificate_der : bytes;
  id_fingerprint : Fingerprint;
  id_backing : KeyBacking.t;
  id_secret : bytes
}.

(** [IdentityProvider::device_info] *)
Definition device_info `{!HexCodec} (i : Identity) : DeviceInfo := {|
  di_device_id := id_device_id i;
  di_device_name := id_device_name i;
  di_platform := platform_i32 (id_platform i);
  di_identity_fingerprint := to_hex (id_fingerprint i) |}.

(** The trait, and what its documentation promises: [create] returns the
    material [load] rebuilds the same identity from; an identity is of its
    backend's backing, with the id and the certificate it was loaded with. *)
Class IdentityBackend := {
  backend_entropy : Type;
  backing : KeyBacking.t;
  secret_name : str;
  create : backend_entropy -> str -> Platform -> Result (Identity * bytes);
  load : str -> str -> Platform -> bytes -> bytes -> Result Identity;
  create_load en name p i s : create en name p = Ok (i, s) ->
    load (id_device_id i) name p (id_certificate_der i) s = Ok i;
  load_parts d n p c s i : load d n p c s = Ok i ->
    id_device_id i = d /\ id_device_name i = n /\ id_certificate_der i = c /\ id_backing i = backing
}.

(** The certificate of a certificate-only identity determines the pin. *)
Section SoftwareBacking.
Context `{HC : !HexCodec, CR : !Crypto, X : !X509, K : !KeyOps}.

(** [LocalIdentity::from_parts] *)
Definition from_parts (device_id device_name : str) (platform : Platform)
    (cert_der key_pkcs8_der : bytes) : Result Identity :=
  fingerprint ← from_certificate_der cert_der;
  _ ← guard_err (negb (any_ecdsa_type key_pkcs8_der))
        (ECertificate "identity key is not a usable P-256 private key");
  _ ← match keys_match cert_der key_pkcs8_der with
      | KeysEqual => Ok tt
      | KeysUnknown => Ok tt
      | KeysDiffer => Err (ECertificate "identity key does not match the stored certificate")
      end;
  Ok {| id_device_id := device_id; id_device_name := device_name; id_platform := platform;
        id_certificate_der := cert_der; id_fingerprint := fingerprint;
        id_backing := KeyBacking.Software; id_secret := key_pkcs8_der |}.

Definition random_device_id (en : entropy) : Result str :=
  buf ← ok_or (EStore "system CSPRNG unavailable") (random_16 en);
  Ok (hexlower_encode (bn_bytes buf)).

(** [LocalIdentity::generate], the certificate as [rcgen] issues it. *)
Definition generate (en : entropy) (device_name : str) (platform : Platform) : Result Identity :=
  key_pair ← ok_or (ECertificate "failed to generate P-256 keypair") (keypair_generate en);
  device_id ← random_device_id en;
  cert_der ← ok_or (ECertificate "failed to self-sign certificate") (self_signed en key_pair device_id);
  from_parts device_id device_name platform cert_der key_pair.

Definition IDENTITY_SECRET : str := lit "identity".

Lemma from_parts_ok d n p c s i : from_parts d n p c s = Ok i ->
  id_device_id i = d /\ id_device_name i = n /\ id_platform i = p /\ id_certificate_der i = c /\
  id_secret i = s /\ id_backing i = KeyBacking.Software /\ any_ecdsa_type s = true /\
  keys_match c s <> KeysDiffer.
Proof.
  unfold from_parts. intros Hi. inv_result. simpl. split_and!; try done.
  - by apply negb_false_iff.
  - destruct (keys_match c s) eqn:Hk; [done..|]. by inv_result.
Qed.

#[export] Program Instance software_backing : IdentityBackend := {|
  backend_entropy := entropy;
  backing := KeyBacking.Software;
  secret_name := IDENTITY_SECRET;
  create en name p := i ← generate en name p; Ok (i, id_secret i);
  load := from_parts |}.
Next Obligation.
  simpl. intros en name p i s Hc. inv_result.
  match goal with Hg : generate _ _ _ = Ok _ |- _ => unfold generate in Hg; rename Hg into Hg' end.
  inv_result. by destruct (from_parts_ok _ _ _ _ _ _ Hg') as (-> & _ & _ & -> & -> & _).
Qed.
Next Obligation.
  simpl. intros d n p c s i Hi%from_parts_ok. naive_solver.
Qed.
End SoftwareBacking.

(** * [secret_store.rs] *)

Inductive StoreAccessError :=
| PermissionDenied (item : str)
| NotPrivate (item : str)
| StoreIo (item : str)
| StoreCorrupted (item : str).

Definition is_transient (e : StoreAccessError) : bool := match e with StoreIo _ => true | _ => false end.

(** [From<StoreAccessError> for Error] *)
Definition store_error (e : StoreAccessError) : Error :=
  EStore (match e with
    | PermissionDenied _ => "exists but cannot be read"
    | NotPrivate _ => "not private"
    | StoreIo _ => "could not be accessed"
    | StoreCorrupted _ => "is corrupted"
    end).

Abbreviation StoreResult := (result StoreAccessError).

(** The storage trait over a disk [D].  [disk_ok] is what an implementation
    keeps true of its own files.  The laws are the trait's three rules: a
    successful write is what is read next and touches nothing else, a failed
    one changes nothing, and hardening takes nothing away. *)
Class SecretStore (D : Type) := {
  read_secret : D -> str -> StoreResult (option bytes);
  write_secret : D -> str -> bytes -> StoreResult unit * D;
  read_state : D -> StoreResult (option bytes);
  write_state : D -> bytes -> StoreResult unit * D;
  harden : D -> StoreResult unit * D;
  disk_ok : D -> Prop;
  write_state_ok d b d' : disk_ok d -> write_state d b = (Ok tt, d') ->
    disk_ok d' /\ read_state d' = Ok (Some b) /\ forall n, read_secret d' n = read_secret d n;
  write_state_err d b e d' : disk_ok d -> write_state d b = (Err e, d') ->
    disk_ok d' /\ read_state d' = read_state d /\ forall n, read_secret d' n = read_secret d n;
  write_secret_ok d n b d' : disk_ok d -> write_secret d n b = (Ok tt, d') ->
    disk_ok d' /\ read_secret d' n = Ok (Some b) /\ read_state d' = read_state d /\
    forall m, m <> n -> read_secret d' m = read_secret d m;
  write_secret_err d n b e d' : disk_ok d -> write_secret d n b = (Err e, d') ->
    disk_ok d' /\ read_state d' = read_state d /\ forall m, read_secret d' m = read_secret d m;
  harden_keeps d r d' : disk_ok d -> harden d = (r, d') ->
    disk_ok d' /\ (forall v, read_state d = Ok v -> read_state d' = Ok v) /\
    (forall n v, read_secret d n = Ok v -> read_secret d' n = Ok v)
}.
