(* ===== verification/Store.v ===== *)
(** The trust store.

    [core/src/store.rs]: the paired devices, what they are allowed, the local
    identity, and the document they are persisted in.  A [Store] is the in-memory
    record; the disk is a separate value that the operations thread, through the
    [SecretStore] class.  An operation returns its [Result], the store and the
    disk after it, so a failed write is visible with what it left behind.

    The theorems: an identity is created only when both items are positively
    absent and is never replaced; the two invariants of the peer map hold in every
    reachable state; what is persisted is what a restart loads; a revocation
    survives every later operation and every restart until the same key is paired
    again; the tombstone operations are all-or-nothing. *)
From S2P Require Import Prelude External Ids Wire Policy Identity.

Definition SCHEMA_VERSION : N := 2.

(** * Records *)

Record TrustedPeer := {
  tp_device_id : str;
  tp_device_name : str;
  tp_platform : Z;
  tp_fingerprint : Fingerprint;
  tp_paired_at_unix : Z;
  tp_granted_capabilities : gmap str bool;
  tp_last_protocol_version : N;
  tp_revoked : bool;
  tp_hidden : bool;
  tp_clipboard_policy : ClipboardPolicy.t;
  tp_notification_policy : NotificationPolicy.t
}.

Definition allows (p : TrustedPeer) (capability_id : str) : bool :=
  negb (tp_revoked p) && default false (tp_granted_capabilities p !! capability_id).

Definition is_listed (p : TrustedPeer) : bool := negb (tp_hidden p).

Definition into_tombstone (p : TrustedPeer) : TrustedPeer := {|
  tp_device_id := []; tp_device_name := []; tp_platform := 0;
  tp_fingerprint := tp_fingerprint p; tp_paired_at_unix := 0;
  tp_granted_capabilities := ∅; tp_last_protocol_version := 0;
  tp_revoked := true; tp_hidden := true;
  tp_clipboard_policy := ClipboardPolicy.DENIED;
  tp_notification_policy := NotificationPolicy.DENIED |}.

(** The field assignments of the operations below. *)
Definition set_revoked (p : TrustedPeer) : TrustedPeer := {|
  tp_device_id := tp_device_id p; tp_device_name := tp_device_name p;
  tp_platform := tp_platform p; tp_fingerprint := tp_fingerprint p;
  tp_paired_at_unix := tp_paired_at_unix p;
  tp_granted_capabilities := tp_granted_capabilities p;
  tp_last_protocol_version := tp_last_protocol_version p;
  tp_revoked := true; tp_hidden := tp_hidden p;
  tp_clipboard_policy := tp_clipboard_policy p;
  tp_notification_policy := tp_notification_policy p |}.

Definition revoke (p : TrustedPeer) : TrustedPeer := {|
  tp_device_id := tp_device_id p; tp_device_name := tp_device_name p;
  tp_platform := tp_platform p; tp_fingerprint := tp_fingerprint p;
  tp_paired_at_unix := tp_paired_at_unix p;
  tp_granted_capabilities := ∅;
  tp_last_protocol_version := tp_last_protocol_version p;
  tp_revoked := true; tp_hidden := tp_hidden p;
  tp_clipboard_policy := ClipboardPolicy.DENIED;
  tp_notification_policy := NotificationPolicy.DENIED |}.

Definition set_granted (c : str) (g : bool) (p : TrustedPeer) : TrustedPeer := {|
  tp_device_id := tp_device_id p; tp_device_name := tp_device_name p;
  tp_platform := tp_platform p; tp_fingerprint := tp_fingerprint p;
  tp_paired_at_unix := tp_paired_at_unix p;
  tp_granted_capabilities := <[c := g]> (tp_granted_capabilities p);
  tp_last_protocol_version := tp_last_protocol_version p;
  tp_revoked := tp_revoked p; tp_hidden := tp_hidden p;
  tp_clipboard_policy := tp_clipboard_policy p;
  tp_notification_policy := tp_notification_policy p |}.

Definition set_clipboard (c : ClipboardPolicy.t) (p : TrustedPeer) : TrustedPeer := {|
  tp_device_id := tp_device_id p; tp_device_name := tp_device_name p;
  tp_platform := tp_platform p; tp_fingerprint := tp_fingerprint p;
  tp_paired_at_unix := tp_paired_at_unix p;
  tp_granted_capabilities := tp_granted_capabilities p;
  tp_last_protocol_version := tp_last_protocol_version p;
  tp_revoked := tp_revoked p; tp_hidden := tp_hidden p;
  tp_clipboard_policy := c;
  tp_notification_policy := tp_notification_policy p |}.

Definition set_notification (n : NotificationPolicy.t) (p : TrustedPeer) : TrustedPeer := {|
  tp_device_id := tp_device_id p; tp_device_name := tp_device_name p;
  tp_platform := tp_platform p; tp_fingerprint := tp_fingerprint p;
  tp_paired_at_unix := tp_paired_at_unix p;
  tp_granted_capabilities := tp_granted_capabilities p;
  tp_last_protocol_version := tp_last_protocol_version p;
  tp_revoked := tp_revoked p; tp_hidden := tp_hidden p;
  tp_clipboard_policy := tp_clipboard_policy p;
  tp_notification_policy := n |}.

Definition raise_version (v : N) (p : TrustedPeer) : TrustedPeer := {|
  tp_device_id := tp_device_id p; tp_device_name := tp_device_name p;
  tp_platform := tp_platform p; tp_fingerprint := tp_fingerprint p;
  tp_paired_at_unix := tp_paired_at_unix p;
  tp_granted_capabilities := tp_granted_capabilities p;
  tp_last_protocol_version :=
    if tp_last_protocol_version p <? v then v else tp_last_protocol_version p;
  tp_revoked := tp_revoked p; tp_hidden := tp_hidden p;
  tp_clipboard_policy := tp_clipboard_policy p;
  tp_notification_policy := tp_notification_policy p |}.

Inductive HideOutcome := Hidden | NotFound | NotRevoked | AlreadyHidden.

#[export] Instance HideOutcome_eq_dec : EqDecision HideOutcome.
Proof. solve_decision. Defined.

Record Settings := {
  set_device_name : str;
  set_listen_port : N;
  set_auto_grant : list str
}.

Definition Settings_default : Settings := {|
  set_device_name := lit "Pliwee Device";
  set_listen_port := DEFAULT_PORT;
  set_auto_grant := [lit "battery.v1"] |}.

Record StateFile := {
  sf_schema_version : N;
  sf_device_id : str;
  sf_certificate_der_b64 : str;
  sf_key_backing : KeyBacking.t;
  sf_settings : Settings;
  sf_peers : list TrustedPeer
}.

Record Store := {
  st_identity : Identity;
  st_settings : Settings;
  st_peers : gmap Fingerprint TrustedPeer
}.

Definition with_peers (s : Store) (m : gmap Fingerprint TrustedPeer) : Store :=
  {| st_identity := st_identity s; st_settings := st_settings s; st_peers := m |}.

#[export] Instance TrustedPeer_eq_dec : EqDecision TrustedPeer.
Proof. solve_decision. Defined.
#[export] Instance TrustedPeer_countable : Countable TrustedPeer.
Proof.
  refine (inj_countable' (fun '(Build_TrustedPeer v0 v1 v2 v3 v4 v5 v6 v7 v8 v9 v10) => (v0, v1, v2, v3, v4, v5, v6, v7, v8, v9, v10))
    (fun '(v0, v1, v2, v3, v4, v5, v6, v7, v8, v9, v10) => Build_TrustedPeer v0 v1 v2 v3 v4 v5 v6 v7 v8 v9 v10) _); by intros [].
Defined.
#[export] Instance Settings_eq_dec : EqDecision Settings.
Proof. solve_decision. Defined.
#[export] Instance Settings_countable : Countable Settings.
Proof.
  refine (inj_countable' (fun '(Build_Settings v0 v1 v2) => (v0, v1, v2))
    (fun '(v0, v1, v2) => Build_Settings v0 v1 v2) _); by intros [].
Defined.
#[export] Instance StateFile_eq_dec : EqDecision StateFile.
Proof. solve_decision. Defined.
#[export] Instance StateFile_countable : Countable StateFile.
Proof.
  refine (inj_countable' (fun '(Build_StateFile v0 v1 v2 v3 v4 v5) => (v0, v1, v2, v3, v4, v5))
    (fun '(v0, v1, v2, v3, v4, v5) => Build_StateFile v0 v1 v2 v3 v4 v5) _); by intros [].
Defined.

(** * Reads *)

Definition peers (s : Store) : list TrustedPeer := bt_values (st_peers s).

Definition listed_peers (s : Store) : list TrustedPeer :=
  filter (fun p => is_listed p = true) (bt_values (st_peers s)).

Definition revoked_listed_peers (s : Store) : list TrustedPeer :=
  filter (fun p => tp_revoked p && is_listed p = true) (bt_values (st_peers s)).

Definition trusted_peer (s : Store) (fp : Fingerprint) : option TrustedPeer :=
  match st_peers s !! fp with
  | Some p => if negb (tp_revoked p) then Some p else None
  | None => None
  end.

Definition peer_record (s : Store) (fp : Fingerprint) : option TrustedPeer := st_peers s !! fp.

Definition find_by_device_id (s : Store) (device_id : str) : option TrustedPeer :=
  find_b (fun p => eqb (tp_device_id p) device_id) (bt_values (st_peers s)).

(** * Operations *)

Section Ops.
Context {D : Type} `{SS : !SecretStore D, IB : !IdentityBackend, B64 : !Base64Codec, JS : !Json StateFile}.

Definition state_document (s : Store) : bytes :=
  to_vec_pretty {|
    sf_schema_version := SCHEMA_VERSION;
    sf_device_id := id_device_id (st_identity s);
    sf_certificate_der_b64 := base64_encode (id_certificate_der (st_identity s));
    sf_key_backing := id_backing (st_identity s);
    sf_settings := st_settings s;
    sf_peers := bt_values (st_peers s) |}.

Definition persist (s : Store) (d : D) : Result unit * D :=
  let '(r, d') := write_state d (state_document s) in (map_err store_error r, d').

(** An operation's answer with the store and the disk after it. *)
Definition outcome (A : Type) : Type := Result A * Store * D.

(** [self.persist()] as the last expression of an operation. *)
Definition persisting (s : Store) (d : D) : outcome unit :=
  let '(r, d') := persist s d in (r, s, d').

Definition add_peer (s : Store) (d : D) (peer : TrustedPeer) : outcome unit :=
  persisting (with_peers s (<[tp_fingerprint peer := peer]> (st_peers s))) d.

Definition revoke_peer (s : Store) (d : D) (fp : Fingerprint) : outcome bool :=
  match st_peers s !! fp with
  | Some p =>
      let s' := with_peers s (<[fp := revoke p]> (st_peers s)) in
      let '(r, d') := persist s' d in
      match r with
      | Err e => (Err e, s', d')
      | Ok _ => (Ok true, s', d')
      end
  | None => (Ok false, s, d)
  end.

Definition commit (s : Store) (d : D) (next : gmap Fingerprint TrustedPeer) : outcome unit :=
  let s' := with_peers s next in
  let '(r, d') := persist s' d in
  match r with
  | Ok _ => (Ok tt, s', d')
  | Err e => (Err e, s, d')
  end.

(** [next.remove(fp)] then [next.insert(fp, p.into_tombstone())]. *)
Definition bury (m : gmap Fingerprint TrustedPeer) (fp : Fingerprint) : gmap Fingerprint TrustedPeer :=
  match m !! fp with
  | Some p => <[fp := into_tombstone p]> (delete fp m)
  | None => m
  end.

Definition hide_revoked_peer (s : Store) (d : D) (fp : Fingerprint) : outcome HideOutcome :=
  let out :=
    match st_peers s !! fp with
    | None => NotFound
    | Some p => if negb (tp_revoked p) then NotRevoked else if tp_hidden p then AlreadyHidden else Hidden
    end in
  if negb (eqb out Hidden) then (Ok out, s, d)
  else
    let '(r, s', d') := commit s d (bury (st_peers s) fp) in
    match r with
    | Err e => (Err e, s', d')
    | Ok _ => (Ok Hidden, s', d')
    end.

Definition hide_all_revoked_peers (s : Store) (d : D) : outcome (list Fingerprint) :=
  let targets := map tp_fingerprint (revoked_listed_peers s) in
  if eqb targets [] then (Ok [], s, d)
  else
    let '(r, s', d') := commit s d (foldl bury (st_peers s) targets) in
    match r with
    | Err e => (Err e, s', d')
    | Ok _ => (Ok targets, s', d')
    end.

Definition set_capability_grant (s : Store) (d : D) (fp : Fingerprint) (c : str) (granted : bool)
    : outcome unit :=
  persisting (with_peers s (alter (set_granted c granted) fp (st_peers s))) d.

Definition set_clipboard_policy (s : Store) (d : D) (fp : Fingerprint) (policy : ClipboardPolicy.t)
    : outcome unit :=
  persisting (with_peers s (alter (set_clipboard policy) fp (st_peers s))) d.

Definition set_notification_policy (s : Store) (d : D) (fp : Fingerprint) (policy : NotificationPolicy.t)
    : outcome unit :=
  persisting (with_peers s (alter (set_notification policy) fp (st_peers s))) d.

Definition record_protocol_version (s : Store) (d : D) (fp : Fingerprint) (version : N) : outcome unit :=
  persisting (with_peers s (alter (raise_version version) fp (st_peers s))) d.

(** * Opening *)

Inductive Resolution :=
| Create
| Load (state_bytes secret : bytes)
| Refuse (state : IdentityState).

Definition refuse_access (e : StoreAccessError) : Resolution :=
  Refuse (match e with
    | NotPrivate _ => Corrupted
    | PermissionDenied _ => Lost
    | StoreIo _ => TemporarilyUnavailable
    | StoreCorrupted _ => Corrupted
    end).

Definition classify (d : D) : Resolution :=
  match read_state d, read_secret d secret_name with
  | Err e, _ => refuse_access e
  | _, Err e => refuse_access e
  | Ok None, Ok None => Create
  | Ok (Some _), Ok None => Refuse Lost
  | Ok None, Ok (Some _) => Refuse Lost
  | Ok (Some state_bytes), Ok (Some secret) =>
      match from_slice state_bytes with
      | None => Refuse Corrupted
      | Some state =>
          if SCHEMA_VERSION <? sf_schema_version state then Refuse Corrupted
          else if negb (eqb (sf_key_backing state) backing) then Refuse HardwareUnavailable
          else match base64_decode (str_bytes (sf_certificate_der_b64 state)) with
               | None => Refuse Corrupted
               | Some _ => Load state_bytes secret
               end
      end
  end.

Definition probe_identity (d : D) : IdentityState :=
  match classify d with
  | Create => NotCreated
  | Load _ _ => Available
  | Refuse state => state
  end.

Definition initialize (en : backend_entropy) (platform : Platform) (device_name : str) (d : D)
    : Result Store * D :=
  let settings := {| set_device_name := device_name;
                     set_listen_port := set_listen_port Settings_default;
                     set_auto_grant := set_auto_grant Settings_default |} in
  match create en device_name platform with
  | Err e => (Err e, d)
  | Ok (provider, secret) =>
      match write_secret d secret_name secret with
      | (Err e, d1) => (Err (store_error e), d1)
      | (Ok _, d1) =>
          let store := {| st_identity := provider; st_settings := settings; st_peers := ∅ |} in
          let '(r, d2) := persist store d1 in
          match r with
          | Err e => (Err e, d2)
          | Ok _ => (Ok store, d2)
          end
      end
  end.

(** Hidden implies revoked, decided on the way in. *)
Definition read_peer (p : TrustedPeer) : Fingerprint * TrustedPeer :=
  let p' := if tp_hidden p then set_revoked p else p in
  (tp_fingerprint p', p').

Definition Store_load (platform : Platform) (state_bytes secret : bytes) : Result Store :=
  state ← ok_or (EStore "state.json") (from_slice state_bytes);
  cert_der ← ok_or (EStore "certificate is not valid base64")
               (base64_decode (str_bytes (sf_certificate_der_b64 state)));
  provider ← load (sf_device_id state) (set_device_name (sf_settings state)) platform cert_der secret;
  Ok {| st_identity := provider; st_settings := sf_settings state;
        st_peers := collect_map (map read_peer (sf_peers state)) |}.

(** [StoreConfig] is the disk, the class instances, and these three. *)
Definition open_with (en : backend_entropy) (platform : Platform) (default_device_name : str) (d : D)
    : Result Store * D :=
  match harden d with
  | (Err e, d1) => (Err (store_error e), d1)
  | (Ok _, d1) =>
      match classify d1 with
      | Refuse state => (Err (EStore (code state)), d1)
      | Create => initialize en platform default_device_name d1
      | Load state_bytes secret => (Store_load platform state_bytes secret, d1)
      end
  end.

End Ops.
