(* ===== verification/Control.v ===== *)
(** The contract of the local control socket.

    [control/src/lib.rs]: the requests a client may make, the reports it is
    answered with and the vocabulary of states and failures a client may branch
    on.  A [String] is a [str], a [u64] or [usize] an [N]; success texts are
    display only and are not modelled, of an error's text the part the source
    writes out is kept. *)
From S2P Require Import Prelude.

Inductive ClipboardFlag := FlagSend | FlagReceive | FlagAutoSend | FlagAutoReceive.

Inductive NotificationSetting :=
| SetMirror (enabled : bool)
| SetWhenLocked (policy : str)
| SetDismissSync (enabled : bool).

Module Request.
Inductive t :=
| Status
| Devices
| Pair (ttl_secs : option N)
| Confirm (accept : bool)
| Unpair (device : str)
| HideRevokedDevice (fingerprint : str)
| HideAllRevokedDevices
| Ping (device : str)
| Grant (device capability : str) (granted : bool)
| Send (device path : str)
| Transfers
| WatchFileOffers
| FileDecision (transfer : str) (accept : bool)
| CancelTransfer (transfer : str)
| ClipboardStatus
| ClipboardSend (device : str) (sensitive : bool)
| ClipboardApply (device : str)
| ClipboardPolicy (device : str) (flag : ClipboardFlag) (enabled : bool)
| NotificationsStatus
| NotificationsPolicy (device : str) (setting : NotificationSetting).
End Request.

(** * Reports *)

(** How a known device stands right now. *)
Module DeviceState.
Inductive t := Revoked | Connected | Stale | Disconnected.

#[global] Instance eq_dec : EqDecision t.
Proof. solve_decision. Defined.
End DeviceState.

Record BatteryReport := {
  ba_percentage : N;
  ba_charging_state : str;
  ba_age_secs : N;
  ba_stale : bool
}.

Definition BATTERY_STALE_AFTER_SECS : N := 120.

Record ConnectionReport := {
  co_device_id : str;
  co_device_name : str;
  co_fingerprint_short : str;
  co_negotiated_capabilities : list str;
  co_battery : option BatteryReport;
  co_session_id : N;
  co_state : DeviceState.t;
  co_silent_secs : N
}.

Record DeviceReport := {
  dr_device_id : str;
  dr_device_name : str;
  dr_platform : str;
  dr_fingerprint : str;
  dr_fingerprint_short : str;
  dr_paired_at_unix : Z;
  dr_granted_capabilities : list str;
  dr_revoked : bool;
  dr_paired : bool;
  dr_connected : bool;
  dr_state : DeviceState.t;
  dr_silent_secs : option N;
  dr_last_seen_secs_ago : option N;
  dr_battery : option BatteryReport
}.

Record MigrationReport := { mo_source : str; mo_migrated_at_unix : N; mo_this_run : bool }.

Record StatusReport := {
  sr_device_name : str;
  sr_device_id : str;
  sr_fingerprint : str;
  sr_fingerprint_short : str;
  sr_key_backing : str;
  sr_listen_port : N;
  sr_listen_families : str;
  sr_protocol_version_min : N;
  sr_protocol_version_max : N;
  sr_capabilities : list str;
  sr_paired_devices : N;
  sr_connections : list ConnectionReport;
  sr_devices : list DeviceReport;
  sr_pairing_active : bool;
  sr_migrated_from : option MigrationReport;
  sr_legacy_partial_files : list str
}.

Record TransferReport := {
  xr_transfer_id : str;
  xr_seq : N;
  xr_device_name : str;
  xr_fingerprint_short : str;
  xr_direction : str;
  xr_filename : str;
  xr_mime_type : str;
  xr_size_bytes : N;
  xr_bytes_transferred : N;
  xr_percentage : option N;
  xr_state : str;
  xr_failure : option str;
  xr_failure_code : option str;
  xr_stored_at : option str
}.

Record ClipboardPeerReport := {
  cp_device_id : str;
  cp_device_name : str;
  cp_fingerprint_short : str;
  cp_granted : bool;
  cp_revoked : bool;
  cp_connected : bool;
  cp_allow_send : bool;
  cp_allow_receive : bool;
  cp_auto_send : bool;
  cp_auto_receive : bool;
  cp_last_outcome : option str
}.

Record PendingClipReport := {
  pr_device_name : str;
  pr_fingerprint_short : str;
  pr_bytes : N;
  pr_hash_prefix : str;
  pr_sensitive : bool;
  pr_origin_device_id : str;
  pr_age_secs : N
}.

Record ClipboardStatusReport := {
  cs_enabled : bool;
  cs_backend : str;
  cs_backend_detail : str;
  cs_backend_available : bool;
  cs_watch_available : bool;
  cs_sensitive_available : bool;
  cs_sensitive_detail : str;
  cs_event_cache_entries : N;
  cs_suppression_cache_entries : N;
  cs_peers : list ClipboardPeerReport;
  cs_pending : list PendingClipReport
}.

Record NotificationPeerReport := {
  np_device_id : str;
  np_device_name : str;
  np_fingerprint_short : str;
  np_granted : bool;
  np_revoked : bool;
  np_connected : bool;
  np_allow_mirror : bool;
  np_when_locked : str;
  np_allow_dismiss_sync : bool;
  np_mirrors : N;
  np_displayed : N;
  np_evicted : N;
  np_local_roles : N;
  np_local_epoch : N;
  np_peer_is_source : bool;
  np_peer_is_dismiss_target : bool;
  np_peer_epoch : N;
  np_local_reports_dismissals : bool;
  np_dismissals_sent : N;
  np_dismissals_refused : N;
  np_snapshot_open : bool;
  np_queued : N;
  np_coalesced : N;
  np_dropped : N
}.

Record NotificationsStatusReport := {
  ns_enabled : bool;
  ns_backend : str;
  ns_backend_detail : str;
  ns_available : bool;
  ns_body_markup : bool;
  ns_persistence : bool;
  ns_lock_source : str;
  ns_lock_detail : str;
  ns_locked : bool;
  ns_mirrors : N;
  ns_peers : list NotificationPeerReport
}.

Record FileOfferRequest := {
  fq_transfer_id : str;
  fq_device_name : str;
  fq_device_id : str;
  fq_fingerprint : str;
  fq_fingerprint_short : str;
  fq_filename : str;
  fq_size_bytes : N;
  fq_mime_type : str
}.

Module Response.
Inductive t :=
| Status (r : StatusReport)
| Devices (l : list DeviceReport)
| Transfers (l : list TransferReport)
| Clipboard (r : ClipboardStatusReport)
| Notifications (r : NotificationsStatusReport)
| Pong (rtt_ms : N)
| Ok
| Error (message : string).
End Response.

Module Event.
Inductive t :=
| PairingReady (payload : str) (qr_ascii : str) (expires_in_secs : N)
| ConfirmRequest (device_name device_id fingerprint fingerprint_short : str)
| Finished (status : string) (detail : str)
| TransferProgress (r : TransferReport)
| FileApprovalReady (unattended : bool)
| OfferRequest (r : FileOfferRequest)
| FileOfferWithdrawn (transfer_id : str) (reason : string).
End Event.

(** * The transfer vocabulary *)

Module transfer_failure.
Definition DECLINED_BY_USER : str := lit "declined_by_user".
Definition NOT_AUTHORIZED : str := lit "not_authorized".
Definition TOO_MANY_TRANSFERS : str := lit "too_many_transfers".
Definition TOO_LARGE : str := lit "too_large".
Definition BAD_METADATA : str := lit "bad_metadata".
Definition TIMED_OUT : str := lit "timed_out".
Definition INTEGRITY : str := lit "integrity".
Definition STORAGE : str := lit "storage".
Definition TRANSPORT : str := lit "transport".
Definition CANCELLED_BY_USER : str := lit "cancelled_by_user".
Definition REVOKED : str := lit "revoked".
Definition UNKNOWN_TRANSFER : str := lit "unknown_transfer".
Definition ALL : list str :=
  [DECLINED_BY_USER; NOT_AUTHORIZED; TOO_MANY_TRANSFERS; TOO_LARGE; BAD_METADATA; TIMED_OUT;
   INTEGRITY; STORAGE; TRANSPORT; CANCELLED_BY_USER; REVOKED; UNKNOWN_TRANSFER].
End transfer_failure.

Module transfer_state.
Definition OFFERED : str := lit "offered".
Definition WAITING_ACCEPT : str := lit "waiting_accept".
Definition TRANSFERRING : str := lit "transferring".
Definition VERIFYING : str := lit "verifying".
Definition COMPLETED : str := lit "completed".
Definition FAILED : str := lit "failed".
Definition CANCELLED : str := lit "cancelled".
Definition TERMINAL : list str := [COMPLETED; FAILED; CANCELLED].
Definition is_terminal (state : str) : bool := mem state TERMINAL.
End transfer_state.

Module transfer_direction.
Definition SENDING : str := lit "sending".
Definition RECEIVING : str := lit "receiving".
End transfer_direction.
