(* ===== verification/UnixFs.v ===== *)
(** The Unix implementation of the secret store.

    [core/src/platform/unix_fs.rs] over a small model of one directory: files
    with their mode bits, the process's umask, and the outcome of each system
    call that changes something ([fs_faults], one entry per call; when it runs
    out, calls succeed).  [file_secret_store] shows that the implementation keeps
    the promises [SecretStore] states, and [stale_temp_file_breaks_write] which
    assumption on the directory it needs for that. *)
From S2P Require Import Prelude External Ids Identity.

(** * One directory *)

Record File := { f_data : bytes; f_mode : N }.

(** The error of a failing call: [EACCES], or anything else, and how much of
    the data a failing write had put in the file. *)
Inductive FsError := Eacces | Eother.
Record Fault := { ft_error : FsError; ft_written : N }.

Record Fs := {
  fs_files : gmap str File;
  fs_dir : option N;            (* the directory's mode, if it exists *)
  fs_umask : N;
  fs_faults : list (option Fault)
}.

Definition with_files (fs : Fs) (m : gmap str File) : Fs :=
  {| fs_files := m; fs_dir := fs_dir fs; fs_umask := fs_umask fs; fs_faults := fs_faults fs |}.

(** The outcome of the next call. *)
Definition syscall (fs : Fs) : option Fault * Fs :=
  match fs_faults fs with
  | [] => (None, fs)
  | o :: l => (o, {| fs_files := fs_files fs; fs_dir := fs_dir fs; fs_umask := fs_umask fs; fs_faults := l |})
  end.

(** Owner permission bits. *)
Definition owner_r (mode : N) : bool := N.testbit mode 8.
Definition owner_w (mode : N) : bool := N.testbit mode 7.
Definition owner_x (mode : N) : bool := N.testbit mode 6.

(** [Path::try_exists]: a missing directory is a missing file; one that cannot
    be traversed is an error. *)
Definition try_exists (fs : Fs) (path : str) : result FsError bool :=
  match fs_dir fs with
  | None => Ok false
  | Some m => if owner_x m then Ok (bool_decide (is_Some (fs_files fs !! path))) else Err Eacces
  end.

(** [fs::read] *)
Definition fs_read (fs : Fs) (path : str) : result FsError (option bytes) :=
  match fs_dir fs with
  | None => Ok None
  | Some m =>
      if owner_x m then
        match fs_files fs !! path with
        | None => Ok None
        | Some f => if owner_r (f_mode f) then Ok (Some (f_data f)) else Err Eacces
        end
      else Err Eacces
  end.

(** [OpenOptions::new().write(true).create(true).truncate(true).mode(mode).open]:
    an existing file keeps its mode. *)
Definition open_trunc (fs : Fs) (path : str) (mode : N) : result FsError unit * Fs :=
  match syscall fs with
  | (Some ft, fs1) => (Err (ft_error ft), fs1)
  | (None, fs1) =>
      match fs_dir fs1 with
      | None => (Err Eother, fs1)
      | Some m =>
          match fs_files fs1 !! path with
          | Some f =>
              if owner_x m && owner_w (f_mode f)
              then (Ok tt, with_files fs1 (<[path := {| f_data := []; f_mode := f_mode f |}]> (fs_files fs1)))
              else (Err Eacces, fs1)
          | None =>
              if owner_x m && owner_w m
              then (Ok tt, with_files fs1
                     (<[path := {| f_data := []; f_mode := N.ldiff mode (fs_umask fs1) |}]> (fs_files fs1)))
              else (Err Eacces, fs1)
          end
      end
  end.

(** [write_all] on the file just opened. *)
Definition fs_write (fs : Fs) (path : str) (data : bytes) : result FsError unit * Fs :=
  let put fs1 b := with_files fs1 (alter (fun f => {| f_data := b; f_mode := f_mode f |}) path (fs_files fs1)) in
  match syscall fs with
  | (Some ft, fs1) => (Err (ft_error ft), put fs1 (take (N.to_nat (ft_written ft)) data))
  | (None, fs1) => (Ok tt, put fs1 data)
  end.

Definition sync_all (fs : Fs) : result FsError unit * Fs :=
  match syscall fs with
  | (Some ft, fs1) => (Err (ft_error ft), fs1)
  | (None, fs1) => (Ok tt, fs1)
  end.

(** [fs::rename] within the directory. *)
Definition rename (fs : Fs) (a b : str) : result FsError unit * Fs :=
  match syscall fs with
  | (Some ft, fs1) => (Err (ft_error ft), fs1)
  | (None, fs1) =>
      match fs_files fs1 !! a with
      | None => (Err Eother, fs1)
      | Some f => (Ok tt, with_files fs1 (<[b := f]> (delete a (fs_files fs1))))
      end
  end.

(** * [unix_fs.rs] *)

Definition DIR_MODE : N := 448.    (* 0o700 *)
Definition FILE_MODE : N := 384.   (* 0o600 *)
Definition STATE_FILE : str := lit "state.json".


(** [str::contains] of a two-character string. *)
Fixpoint contains2 (a b : N) (s : str) : bool :=
  match s with
  | [] => false
  | x :: s' =>
      match s' with
      | [] => false
      | y :: _ => ((x =? a) && (y =? b)) || contains2 a b s'
      end
  end.

Definition secret_path (name : str) : StoreResult str :=
  if eqb name [] || mem SLASH name || mem BACKSLASH name || contains2 DOT DOT name
  then Err (StoreCorrupted name)
  else Ok (name ++ lit ".key").

(** [path.with_extension("tmp")] of the two kinds of path. *)
Definition secret_tmp (name : str) : str := name ++ lit ".tmp".
Definition state_tmp : str := lit "state.tmp".

Definition fs_classify (item : str) (e : FsError) : StoreAccessError :=
  match e with Eacces => PermissionDenied item | Eother => StoreIo item end.

Definition require_private_mode (fs : Fs) (item path : str) : StoreResult unit :=
  match fs_dir fs with
  | None => Err (StoreIo item)
  | Some m =>
      if owner_x m then
        match fs_files fs !! path with
        | None => Err (StoreIo item)
        | Some f =>
            let mode := N.land (f_mode f) 511 in
            guard_err (negb (N.land mode 63 =? 0)) (NotPrivate item)
        end
      else Err (PermissionDenied item)
  end.

Definition write_atomic (fs : Fs) (item tmp path : str) (data : bytes) (mode : N) : StoreResult unit * Fs :=
  match open_trunc fs tmp mode with
  | (Err e, fs1) => (Err (fs_classify item e), fs1)
  | (Ok _, fs1) =>
      match fs_write fs1 tmp data with
      | (Err e, fs2) => (Err (fs_classify item e), fs2)
      | (Ok _, fs2) =>
          match sync_all fs2 with
          | (Err e, fs3) => (Err (fs_classify item e), fs3)
          | (Ok _, fs3) =>
              match rename fs3 tmp path with
              | (Err e, fs4) => (Err (fs_classify item e), fs4)
              | (Ok _, fs4) => (Ok tt, fs4)
              end
          end
      end
  end.

(** The read shared by the two: a file that was there a moment ago and is not
    now is an error. *)
Definition read_existing (fs : Fs) (item path : str) : StoreResult (option bytes) :=
  match fs_read fs path with
  | Ok (Some b) => Ok (Some b)
  | Ok None => Err (StoreIo item)
  | Err e => Err (fs_classify item e)
  end.

Definition unix_read_secret (fs : Fs) (name : str) : StoreResult (option bytes) :=
  path ← secret_path name;
  ex ← map_err (fs_classify name) (try_exists fs path);
  if negb ex then Ok None
  else
    _ ← require_private_mode fs name path;
    read_existing fs name path.

Definition unix_write_secret (fs : Fs) (name : str) (data : bytes) : StoreResult unit * Fs :=
  match secret_path name with
  | Err e => (Err e, fs)
  | Ok path => write_atomic fs name (secret_tmp name) path data FILE_MODE
  end.

Definition unix_read_state (fs : Fs) : StoreResult (option bytes) :=
  ex ← map_err (fs_classify STATE_FILE) (try_exists fs STATE_FILE);
  if negb ex then Ok None else read_existing fs STATE_FILE STATE_FILE.

Definition unix_write_state (fs : Fs) (data : bytes) : StoreResult unit * Fs :=
  write_atomic fs STATE_FILE state_tmp STATE_FILE data FILE_MODE.

Definition DATA_DIR : str := lit "data directory".

Definition set_dir (fs : Fs) (m : N) : Fs :=
  {| fs_files := fs_files fs; fs_dir := Some m; fs_umask := fs_umask fs; fs_faults := fs_faults fs |}.

Definition unix_harden (fs : Fs) : StoreResult unit * Fs :=
  let '(created, fs1) :=
    match fs_dir fs with
    | Some _ => (Ok tt, fs)
    | None =>
        match syscall fs with
        | (Some ft, fs1) => (Err (ft_error ft), fs1)
        | (None, fs1) => (Ok tt, set_dir fs1 (N.ldiff 511 (fs_umask fs1)))
        end
    end in
  match created with
  | Err e => (Err (fs_classify DATA_DIR e), fs1)
  | Ok _ =>
      match fs_dir fs1 with
      | None => (Err (StoreIo DATA_DIR), fs1)
      | Some mode =>
          if N.land mode 63 =? 0 then (Ok tt, fs1)
          else
            match syscall fs1 with
            | (Some ft, fs2) => (Err (fs_classify DATA_DIR (ft_error ft)), fs2)
            | (None, fs2) => (Ok tt, set_dir fs2 DIR_MODE)
            end
      end
  end.

(** * The promises *)

(** A file only its owner can reach, and which its owner can use. *)
Definition private (f : File) : Prop :=
  N.land (f_mode f) 63 = 0 /\ owner_r (f_mode f) = true /\ owner_w (f_mode f) = true.

(** What the implementation relies on: leftover temporary files are private, an
    absent directory has no files, and the umask takes nothing from the owner. *)
Definition fs_ok (fs : Fs) : Prop :=
  (forall n f, fs_files fs !! secret_tmp n = Some f -> private f) /\
  (fs_dir fs = None -> fs_files fs = ∅) /\
  N.testbit (fs_umask fs) 6 = false /\ N.testbit (fs_umask fs) 7 = false /\
  N.testbit (fs_umask fs) 8 = false.

(** Nothing but temporary files changed. *)
Definition tmp_frame (fs fs' : Fs) : Prop :=
  fs_ok fs' /\ fs_dir fs' = fs_dir fs /\
  forall k, (forall n, k <> secret_tmp n) -> fs_files fs' !! k = fs_files fs !! k.

#[export] Instance tmp_frame_trans : Transitive tmp_frame.
Proof.
  intros a b c (_ & Hd1 & Hf1) (Hok & Hd2 & Hf2). split_and!; [done|congruence|].
  intros k Hk. rewrite Hf2 by done. by apply Hf1.
Qed.

Lemma syscall_ok fs o fs1 : syscall fs = (o, fs1) -> fs_ok fs ->
  fs_ok fs1 /\ fs_dir fs1 = fs_dir fs /\ fs_files fs1 = fs_files fs /\ fs_umask fs1 = fs_umask fs.
Proof. unfold syscall. destruct (fs_faults fs); intros [= <- <-]; done. Qed.

Lemma syscall_frame fs o fs1 : syscall fs = (o, fs1) -> fs_ok fs -> tmp_frame fs fs1.
Proof. intros Hs Hok. destruct (syscall_ok _ _ _ Hs Hok) as (? & ? & Hf & _). split_and!; [done..|]. by rewrite Hf. Qed.

Lemma with_tmp_frame fs n f :
  fs_ok fs -> private f -> fs_dir fs <> None ->
  tmp_frame fs (with_files fs (<[secret_tmp n := f]> (fs_files fs))).
Proof.
  intros (Ht & He & Hu) Hf Hd. split; [|split; [done|]].
  - split; [|split; [by simpl|done]]. intros m g. simpl. rewrite lookup_insert_Some. intros [[_ <-]|[_ Hg]]; [done|by eapply Ht].
  - intros k Hk. simpl. by rewrite lookup_insert_ne by (intros ?; by eapply Hk).
Qed.

Lemma created_private u : N.testbit u 7 = false -> N.testbit u 8 = false ->
  private {| f_data := []; f_mode := N.ldiff FILE_MODE u |}.
Proof.
  intros H7 H8. unfold private, owner_r, owner_w. cbn [f_mode]. rewrite !N.ldiff_spec, H7, H8.
  split_and!; [|done..]. apply N.bits_inj. intros i. rewrite N.land_spec, N.ldiff_spec, N.bits_0.
  assert (N.testbit FILE_MODE i && N.testbit 63 i = false) as Hz by (by rewrite <- N.land_spec).
  destruct (N.testbit FILE_MODE i); [|done]. simpl in *. by rewrite Hz, andb_false_r.
Qed.

Lemma open_trunc_ok fs n r fs1 : fs_ok fs -> open_trunc fs (secret_tmp n) FILE_MODE = (r, fs1) ->
  tmp_frame fs fs1 /\ (r = Ok tt -> (exists m, fs_dir fs = Some m /\ owner_x m = true) /\
    exists f, fs_files fs1 !! secret_tmp n = Some f /\ private f).
Proof.
  intros Hok. unfold open_trunc. destruct (syscall fs) as [o fs0] eqn:Hs.
  pose proof (syscall_frame _ _ _ Hs Hok) as Hf. destruct (syscall_ok _ _ _ Hs Hok) as (Hok0 & Hd & _).
  destruct o as [ft|]; [by intros [= <- <-]|].
  destruct (fs_dir fs0) as [m|] eqn:Hm; [|by intros [= <- <-]].
  destruct (fs_files fs0 !! secret_tmp n) as [f|] eqn:Hft.
  - destruct (owner_x m && owner_w (f_mode f)) eqn:Hx; intros [= <- <-]; [|done].
    assert (Hp : private {| f_data := []; f_mode := f_mode f |}) by (destruct Hok0 as (Ht & _); exact (Ht n f Hft)).
    split; [etrans; [exact Hf|]; apply with_tmp_frame; [done..|by rewrite Hm]|].
    intros _. to_prop. split; [exists m; naive_solver|]. eexists. simpl. by rewrite lookup_insert_eq.
  - destruct (owner_x m && owner_w m) eqn:Hx; intros [= <- <-]; [|done].
    assert (Hp : private {| f_data := []; f_mode := N.ldiff FILE_MODE (fs_umask fs0) |})
      by (destruct Hok0 as (_ & _ & _ & ? & ?); by apply created_private).
    split; [etrans; [exact Hf|]; apply with_tmp_frame; [done..|by rewrite Hm]|].
    intros _. to_prop. split; [exists m; naive_solver|]. eexists. simpl. by rewrite lookup_insert_eq.
Qed.

Lemma fs_write_ok fs n f data r fs1 : fs_ok fs -> fs_dir fs <> None ->
  fs_files fs !! secret_tmp n = Some f ->
  fs_write fs (secret_tmp n) data = (r, fs1) ->
  tmp_frame fs fs1 /\ (r = Ok tt -> exists g, fs_files fs1 !! secret_tmp n = Some g /\ f_data g = data /\ private g).
Proof.
  intros Hok Hd Hf. unfold fs_write. destruct (syscall fs) as [o fs0] eqn:Hs.
  pose proof (syscall_frame _ _ _ Hs Hok) as Hfr. destruct (syscall_ok _ _ _ Hs Hok) as (Hok0 & Hd0 & Hfl & _).
  assert (Hp : private f) by (destruct Hok as (Ht & _); by apply (Ht n)).
  assert (Halt : forall b, alter (fun f => {| f_data := b; f_mode := f_mode f |}) (secret_tmp n) (fs_files fs0)
    = <[secret_tmp n := {| f_data := b; f_mode := f_mode f |}]> (fs_files fs0)).
  { intros b. apply map_eq. intros k. destruct (decide (secret_tmp n = k)) as [<-|Hk].
    - by rewrite lookup_alter_eq, lookup_insert_eq, Hfl, Hf.
    - by rewrite lookup_alter_ne, lookup_insert_ne. }
  destruct o as [ft|]; intros [= <- <-]; rewrite Halt;
    (split; [etrans; [exact Hfr|]; apply with_tmp_frame; [done..|by rewrite Hd0]|]); [done|].
  intros _. eexists. simpl. rewrite lookup_insert_eq. done.
Qed.

(** Writing through a temporary file: all or nothing at [path]. *)
Lemma write_atomic_ok fs item n path data r fs' :
  fs_ok fs -> (forall m, path <> secret_tmp m) ->
  write_atomic fs item (secret_tmp n) path data FILE_MODE = (r, fs') ->
  fs_ok fs' /\ fs_dir fs' = fs_dir fs /\
  (forall k, (forall m, k <> secret_tmp m) -> k <> path -> fs_files fs' !! k = fs_files fs !! k) /\
  match r with
  | Err _ => fs_files fs' !! path = fs_files fs !! path
  | Ok _ => (exists m, fs_dir fs = Some m /\ owner_x m = true) /\
      exists f, fs_files fs' !! path = Some f /\ f_data f = data /\ private f
  end.
Proof.
  intros Hok Hpath. unfold write_atomic.
  assert (Hfail : forall fs1, tmp_frame fs fs1 -> fs_ok fs1 /\ fs_dir fs1 = fs_dir fs /\
    (forall k, (forall m, k <> secret_tmp m) -> k <> path -> fs_files fs1 !! k = fs_files fs !! k) /\
    fs_files fs1 !! path = fs_files fs !! path) by (intros fs1 (? & ? & ?); auto).
  destruct (open_trunc fs (secret_tmp n) FILE_MODE) as [[[]|e] fs1] eqn:Ho;
    destruct (open_trunc_ok _ _ _ _ Hok Ho) as [Hf1 Hr1]; [|intros [= <- <-]; by apply Hfail].
  destruct (Hr1 eq_refl) as [(m & Hm & Hx) (f & Hft & Hpf)]. clear Hr1 Ho.
  destruct Hf1 as (Hok1 & Hd1 & Hk1). pose proof (conj Hok1 (conj Hd1 Hk1)) as Hf1.
  destruct (fs_write fs1 (secret_tmp n) data) as [[[]|e] fs2] eqn:Hw;
    destruct (fs_write_ok fs1 n f data _ fs2 Hok1 ltac:(congruence) Hft Hw) as [Hf2 Hr2];
    assert (Hf12 : tmp_frame fs fs2) by (etrans; [exact Hf1|exact Hf2]); [|intros [= <- <-]; by apply Hfail].
  destruct (Hr2 eq_refl) as (g & Hg & Hgd & Hgp). clear Hr2 Hw.
  unfold sync_all. destruct (syscall fs2) as [o fs3] eqn:Hs3.
  assert (Hok2 : fs_ok fs2) by apply Hf12.
  assert (Hf3 : tmp_frame fs fs3) by (etrans; [exact Hf12|]; by eapply syscall_frame).
  destruct (syscall_ok _ _ _ Hs3 Hok2) as (Hok3 & _ & Hfl3 & _).
  destruct o; [intros [= <- <-]; by apply Hfail|].
  unfold rename. destruct (syscall fs3) as [o fs4] eqn:Hs4.
  assert (Hf4 : tmp_frame fs fs4) by (etrans; [exact Hf3|]; by eapply syscall_frame).
  destruct (syscall_ok _ _ _ Hs4 Hok3) as (Hok4 & _ & Hfl4 & _).
  destruct o; [intros [= <- <-]; by apply Hfail|].
  rewrite Hfl4, Hfl3, Hg. intros [= <- <-]. simpl. rewrite <- Hfl3, <- Hfl4.
  destruct Hf4 as ((Ht & He & Hu) & Hd4 & Hk4).
  split; [|split; [done|split; [|split; [eauto|]]]].
  - split; [|split; [simpl; congruence|done]].
    intros k h. simpl. rewrite lookup_insert_ne by done. rewrite lookup_delete_Some. intros [_ Hh]. by eapply Ht.
  - intros k Hk Hne. rewrite lookup_insert_ne, lookup_delete_ne by (done || naive_solver). by apply Hk4.
  - exists g. by rewrite lookup_insert_eq.
Qed.

Lemma last_app4 (l : str) a b c d : last (l ++ [a; b; c; d]) = Some d.
Proof. change [a; b; c; d] with ([a; b; c] ++ [d]). by rewrite app_assoc, last_snoc. Qed.

Lemma last_key n : last (n ++ lit ".key") = Some 121.
Proof. apply last_app4. Qed.

Lemma last_tmp n : last (secret_tmp n) = Some 112.
Proof. apply last_app4. Qed.

Lemma key_not_tmp n m : n ++ lit ".key" <> secret_tmp m.
Proof. intros H. apply (f_equal last) in H. by rewrite last_key, last_tmp in H. Qed.

Lemma state_not_tmp m : STATE_FILE <> secret_tmp m.
Proof. intros H. apply (f_equal last) in H. by rewrite last_tmp in H. Qed.

Lemma state_not_key n : STATE_FILE <> n ++ lit ".key".
Proof. intros H. apply (f_equal last) in H. by rewrite last_key in H. Qed.

(** A read depends on the directory and on its own file. *)
Lemma unix_read_state_ext fs fs' : fs_dir fs' = fs_dir fs ->
  fs_files fs' !! STATE_FILE = fs_files fs !! STATE_FILE -> unix_read_state fs' = unix_read_state fs.
Proof. intros Hd Hf. unfold unix_read_state, try_exists, read_existing, fs_read. by rewrite Hd, Hf. Qed.

Lemma unix_read_secret_ext fs fs' n : fs_dir fs' = fs_dir fs ->
  fs_files fs' !! (n ++ lit ".key") = fs_files fs !! (n ++ lit ".key") ->
  unix_read_secret fs' n = unix_read_secret fs n.
Proof.
  intros Hd Hf. unfold unix_read_secret, secret_path. destruct (_ || _); [done|]. simpl.
  unfold try_exists, require_private_mode, read_existing, fs_read. by rewrite Hd, Hf.
Qed.

Lemma read_state_written fs m f : fs_dir fs = Some m -> owner_x m = true ->
  fs_files fs !! STATE_FILE = Some f -> private f -> unix_read_state fs = Ok (Some (f_data f)).
Proof.
  intros Hd Hx Hf (_ & Hr & _). unfold unix_read_state, try_exists, read_existing, fs_read.
  by rewrite Hd, Hx, Hf, Hr.
Qed.

Lemma private_mode f : private f -> N.land (N.land (f_mode f) 511) 63 = 0.
Proof. intros (H & _). by rewrite <- N.land_assoc. Qed.

Lemma read_secret_written fs m f n : fs_dir fs = Some m -> owner_x m = true ->
  secret_path n = Ok (n ++ lit ".key") ->
  fs_files fs !! (n ++ lit ".key") = Some f -> private f -> unix_read_secret fs n = Ok (Some (f_data f)).
Proof.
  intros Hd Hx Hp Hf Hpr. pose proof (private_mode _ Hpr) as Hm. destruct Hpr as (_ & Hr & _).
  unfold unix_read_secret. rewrite Hp. cbn [mbind result_bind].
  unfold try_exists, require_private_mode, read_existing, fs_read.
  rewrite Hd, Hx, Hf, Hr. rewrite bool_decide_true by eauto.
  cbn [map_err mbind result_bind negb]. by rewrite Hm.
Qed.

(** Hardening: the directory exists and is traversable as before, and no file
    is touched. *)
Lemma unix_harden_ok fs r fs' : fs_ok fs -> unix_harden fs = (r, fs') ->
  fs_ok fs' /\ fs_files fs' = fs_files fs /\
  match fs_dir fs with
  | None => match fs_dir fs' with None => True | Some m' => owner_x m' = true end
  | Some m => exists m', fs_dir fs' = Some m' /\ (owner_x m = true -> owner_x m' = true)
  end.
Proof.
  intros Hok. assert (Hset : forall fs1 m, fs_ok fs1 -> fs_ok (set_dir fs1 m)).
  { intros fs1 m (Ht & He & Hu). by split. }
  unfold unix_harden. destruct (fs_dir fs) as [m|] eqn:Hd.
  - rewrite Hd. destruct (N.land m 63 =? 0); [intros [= <- <-]; rewrite Hd; eauto|].
    destruct (syscall fs) as [o fs1] eqn:Hs. destruct (syscall_ok _ _ _ Hs Hok) as (Hok1 & Hd1 & Hf1 & _).
    destruct o; intros [= <- <-]; simpl; rewrite ?Hf1; split_and!; auto; rewrite ?Hd1, ?Hd; eauto.
  - destruct (syscall fs) as [o fs1] eqn:Hs. destruct (syscall_ok _ _ _ Hs Hok) as (Hok1 & Hd1 & Hf1 & Hu1).
    destruct o as [ft|]; [intros [= <- <-]; by rewrite Hd1, Hd|]. cbn [fs_dir set_dir].
    assert (Hx : owner_x (N.ldiff 511 (fs_umask fs1)) = true).
    { unfold owner_x. rewrite N.ldiff_spec. by destruct Hok1 as (_ & _ & -> & _). }
    destruct (_ =? 0); [intros [= <- <-]; simpl; auto|].
    destruct (syscall (set_dir fs1 _)) as [o2 fs2] eqn:Hs2.
    destruct (syscall_ok _ _ _ Hs2 (Hset _ _ Hok1)) as (Hok2 & Hd2 & Hf2 & _).
    destruct o2; intros [= <- <-]; simpl; rewrite ?Hf2; split_and!; auto. by rewrite Hd2.
Qed.

#[export] Program Instance file_secret_store : SecretStore Fs := {|
  read_secret := unix_read_secret; write_secret := unix_write_secret;
  read_state := unix_read_state; write_state := unix_write_state;
  harden := unix_harden; disk_ok := fs_ok |}.
Next Obligation.
  simpl. intros d b d' Hok Hw.
  destruct (write_atomic_ok _ _ (lit "state") _ _ _ _ Hok state_not_tmp Hw)
    as (Hok' & Hd & Hk & (m & Hm & Hx) & f & Hf & <- & Hp).
  split_and!; [done|by eapply read_state_written; eauto; congruence|].
  intros n. apply unix_read_secret_ext; [done|]. apply Hk; [apply key_not_tmp|]. by apply not_eq_sym, state_not_key.
Qed.
Next Obligation.
  simpl. intros d b e d' Hok Hw.
  destruct (write_atomic_ok _ _ (lit "state") _ _ _ _ Hok state_not_tmp Hw) as (Hok' & Hd & Hk & Hs).
  split_and!; [done|by apply unix_read_state_ext|].
  intros n. apply unix_read_secret_ext; [done|]. apply Hk; [apply key_not_tmp|]. by apply not_eq_sym, state_not_key.
Qed.
Next Obligation.
  simpl. intros d n b d' Hok Hw. unfold unix_write_secret in Hw.
  destruct (secret_path n) as [path|] eqn:Hpath; [|done].
  assert (path = n ++ lit ".key") as ->.
  { unfold secret_path in Hpath. destruct (_ || _); by simplify_eq. }
  destruct (write_atomic_ok _ _ _ _ _ _ _ Hok (key_not_tmp n) Hw)
    as (Hok' & Hd & Hk & (m & Hm & Hx) & f & Hf & <- & Hp).
  split_and!; [done|by eapply read_secret_written; eauto; congruence|..].
  - apply unix_read_state_ext; [done|]. apply Hk; [apply state_not_tmp|apply state_not_key].
  - intros k Hne. apply unix_read_secret_ext; [done|]. apply Hk; [apply key_not_tmp|].
    intros Heq. by apply app_inv_tail in Heq.
Qed.
Next Obligation.
  simpl. intros d n b e d' Hok Hw. unfold unix_write_secret in Hw.
  destruct (secret_path n) as [path|] eqn:Hpath; [|by simplify_eq].
  assert (path = n ++ lit ".key") as ->.
  { unfold secret_path in Hpath. destruct (_ || _); by simplify_eq. }
  destruct (write_atomic_ok _ _ _ _ _ _ _ Hok (key_not_tmp n) Hw) as (Hok' & Hd & Hk & Hs).
  split_and!; [done|..].
  - apply unix_read_state_ext; [done|]. apply Hk; [apply state_not_tmp|apply state_not_key].
  - intros k. apply unix_read_secret_ext; [done|]. destruct (decide (k = n)) as [->|Hne]; [done|].
    apply Hk; [apply key_not_tmp|]. intros Heq. by apply app_inv_tail in Heq.
Qed.
Next Obligation.
  simpl. intros d r d' Hok Hh. destruct (unix_harden_ok _ _ _ Hok Hh) as (Hok' & Hf & Hd).
  split; [done|]. split.
  - intros v. unfold unix_read_state, try_exists, read_existing, fs_read. rewrite Hf.
    destruct (fs_dir d) as [m|] eqn:Hdir.
    + destruct Hd as (m' & -> & Hx). destruct (owner_x m) eqn:Hom; [|done]. by rewrite Hx.
    + destruct Hok as (_ & Hempty & _). rewrite Hempty by done. rewrite lookup_empty.
      destruct (fs_dir d') as [m'|]; [by rewrite Hd|done].
  - intros n v. unfold unix_read_secret, secret_path. destruct (_ || _); [done|].
    cbn [mbind result_bind]. unfold try_exists, require_private_mode, read_existing, fs_read. rewrite Hf.
    destruct (fs_dir d) as [m|] eqn:Hdir.
    + destruct Hd as (m' & -> & Hx). destruct (owner_x m) eqn:Hom; [|done]. by rewrite Hx.
    + destruct Hok as (_ & Hempty & _). rewrite Hempty by done. rewrite lookup_empty.
      destruct (fs_dir d') as [m'|]; [by rewrite Hd|done].
Qed.

(** [mode(mode)] applies to a file the call creates: over a leftover temporary
    file that others can read, the write reports success and the key it leaves
    is refused by the next read. *)
Lemma stale_temp_file_breaks_write :
  let stale := {| f_data := []; f_mode := 420 |} in
  let fs := {| fs_files := {[ secret_tmp (lit "identity") := stale ]}; fs_dir := Some DIR_MODE;
               fs_umask := 0; fs_faults := [] |} in
  exists fs', unix_write_secret fs (lit "identity") [x01] = (Ok tt, fs') /\
    unix_read_secret fs' (lit "identity") = Err (NotPrivate (lit "identity")).
Proof. eexists. split; vm_compute; reflexivity. Qed.
