(* ===== verification/Utf8.v ===== *)
(** Reading UTF-8 and decimal numbers.

    [String::from_utf8] and [str::parse::<u64>], [str::lines] and
    [u64::to_string], which the readers of this program's own text files use.
    Each is shown to undo the printing it answers to. *)
From S2P Require Import Prelude.

(** A Unicode scalar value. *)
Definition scalar (c : N) : bool := (c <? 55296) || in_range 57344 1114111 c.

(** * [String::from_utf8] *)

(** The value of a continuation byte. *)
Definition continuation (b : byte) : option N :=
  if in_range 128 191 (to_N b) then Some (to_N b - 128) else None.

(** One character: the encoding is the shortest one, and of a scalar value. *)
Definition decode_char (b : bytes) : option (N * bytes) :=
  match b with
  | [] => None
  | x :: b1 =>
      let n := to_N x in
      if n <? 128 then Some (n, b1)
      else if in_range 194 223 n then
        match b1 with
        | y :: b2 => y ← continuation y; Some ((n - 192) * 64 + y, b2)
        | _ => None
        end
      else if in_range 224 239 n then
        match b1 with
        | y :: z :: b3 =>
            y ← continuation y; z ← continuation z;
            let c := (n - 224) * 4096 + y * 64 + z in
            if (2048 <=? c) && scalar c then Some (c, b3) else None
        | _ => None
        end
      else if in_range 240 244 n then
        match b1 with
        | y :: z :: w :: b4 =>
            y ← continuation y; z ← continuation z; w ← continuation w;
            let c := (n - 240) * 262144 + y * 4096 + z * 64 + w in
            if (65536 <=? c) && scalar c then Some (c, b4) else None
        | _ => None
        end
      else None
  end.

(** Every character takes a byte, so the length is fuel enough. *)
Fixpoint decode_chars (fuel : nat) (b : bytes) : option str :=
  match b, fuel with
  | [], _ => Some []
  | _, O => None
  | _, S fuel' =>
      '(c, rest) ← decode_char b;
      s ← decode_chars fuel' rest;
      Some (c :: s)
  end.
Definition from_utf8 (b : bytes) : option str := decode_chars (length b) b.

(** * [str::lines] *)

(** Every line ends at a line feed, which may follow a carriage return; the
    last one may be unfinished, and an empty unfinished one is none. *)
Definition strip_cr (l : str) : str :=
  match last l with Some 13 => removelast l | _ => l end.
Definition lines (s : str) : list str :=
  let pieces := split 10 s in
  let ended := strip_cr <$> removelast pieces in
  match last pieces with
  | Some [] | None => ended
  | Some l => ended ++ [l]
  end.

(** * [u64::to_string] and [str::parse::<u64>] *)

Definition u64_to_string (n : N) : str := digits 20 n.

(** An optional plus sign, then at least one digit, without overflow. *)
Fixpoint parse_digits (acc : N) (s : str) : option N :=
  match s with
  | [] => Some acc
  | c :: s' =>
      if is_ascii_digit c then
        let acc' := acc * 10 + (c - 48) in
        if acc' <=? 18446744073709551615 then parse_digits acc' s' else None
      else None
  end.
Definition parse_u64 (s : str) : option N :=
  match (match s with 43 :: s' => s' | _ => s end) with
  | [] => None
  | s' => parse_digits 0 s'
  end.

(** * Round trips *)

Lemma to_byte n : n < 256 -> to_N (byte_of_N n) = n.
Proof. intros Hn. rewrite to_N_byte_of_N. by apply N.mod_small. Qed.

Lemma continuation_of n : n < 64 -> continuation (byte_of_N (128 + n)) = Some n.
Proof.
  intros Hn. unfold continuation, in_range. rewrite to_byte by lia.
  destruct (N.leb_spec 128 (128 + n)), (N.leb_spec (128 + n) 191); try lia. simpl. f_equal. lia.
Qed.

Lemma mod64 n : n mod 64 < 64.
Proof. by apply N.mod_lt. Qed.

Lemma decode_char_utf8 c b : scalar c = true -> decode_char (char_utf8 c ++ b) = Some (c, b).
Proof.
  intros Hc. assert (c <= 1114111) as Hmax.
  { unfold scalar, in_range in Hc. apply orb_true_iff in Hc as [H|H]; [apply N.ltb_lt in H; lia|].
    apply andb_true_iff in H as [_ H]. by apply N.leb_le in H. }
  pose proof (N.div_mod c 64 ltac:(done)) as H1. pose proof (mod64 c) as Hm1.
  pose proof (N.div_mod (c / 64) 64 ltac:(done)) as H2. pose proof (mod64 (c / 64)) as Hm2.
  pose proof (N.div_mod (c / 64 / 64) 64 ltac:(done)) as H3. pose proof (mod64 (c / 64 / 64)) as Hm3.
  rewrite N.Div0.div_div in H2, H3, Hm3. change (64 * 64) with 4096 in *.
  rewrite N.Div0.div_div in H3. change (4096 * 64) with 262144 in *.
  unfold char_utf8.
  generalize dependent (c mod 64). generalize dependent ((c / 64) mod 64).
  generalize dependent ((c / 4096) mod 64). generalize dependent (c / 64). generalize dependent (c / 4096).
  generalize dependent (c / 262144). intros.
  destruct (N.ltb_spec c 128) as [Hlt|Hge]; [|destruct (N.ltb_spec c 2048) as [Hlt|Hge2];
    [|destruct (N.ltb_spec c 65536) as [Hlt|Hge3]]]; cbn [app decode_char].
  - rewrite to_byte by lia. by rewrite (proj2 (N.ltb_lt _ _) Hlt).
  - rewrite to_byte by lia. unfold in_range.
    rewrite (proj2 (N.ltb_ge _ _)), !(proj2 (N.leb_le _ _)) by lia. simpl.
    rewrite continuation_of by done. simpl. do 2 f_equal. lia.
  - rewrite to_byte by lia. unfold in_range.
    rewrite (proj2 (N.ltb_ge _ _)) by lia. rewrite (proj2 (N.leb_le 194 _)), (proj2 (N.leb_gt _ 223)) by lia.
    rewrite !(proj2 (N.leb_le _ _)) by lia. cbn [andb]. rewrite !continuation_of by done. cbn [mbind option_bind].
    match goal with |- context [(2048 <=? ?e)] => replace e with c by lia end.
    by rewrite Hc, (proj2 (N.leb_le _ _)) by lia.
  - rewrite to_byte by lia. unfold in_range.
    rewrite (proj2 (N.ltb_ge _ _)) by lia. rewrite (proj2 (N.leb_le 194 _)), (proj2 (N.leb_gt _ 223)) by lia.
    rewrite (proj2 (N.leb_le 224 _)), (proj2 (N.leb_gt _ 239)) by lia.
    rewrite !(proj2 (N.leb_le _ _)) by lia. cbn [andb]. rewrite !continuation_of by done. cbn [mbind option_bind].
    match goal with |- context [(65536 <=? ?e)] => replace e with c by lia end.
    by rewrite Hc, (proj2 (N.leb_le _ _)) by lia.
Qed.

Lemma decode_chars_utf8 s fuel : Forall (fun c => scalar c = true) s -> (length (str_bytes s) <= fuel)%nat ->
  decode_chars fuel (str_bytes s) = Some s.
Proof.
  intros Hs. revert fuel. induction Hs as [|c s Hc Hs IH]; intros fuel Hf; [by destruct fuel|].
  change (str_bytes (c :: s)) with (char_utf8 c ++ str_bytes s) in *. rewrite length_app in Hf.
  assert (exists x l, char_utf8 c = x :: l) as (x & l & Hx) by (unfold char_utf8; repeat case_match; eauto).
  destruct fuel as [|fuel]; [rewrite Hx in Hf; simpl in Hf; lia|].
  transitivity ('(c, rest) ← decode_char (char_utf8 c ++ str_bytes s); s ← decode_chars fuel rest; Some (c :: s));
    [by rewrite Hx|].
  rewrite decode_char_utf8 by done. cbn [mbind option_bind]. rewrite IH; [done|].
  rewrite Hx in Hf. simpl in Hf. lia.
Qed.

Lemma from_utf8_bytes s : Forall (fun c => scalar c = true) s -> from_utf8 (str_bytes s) = Some s.
Proof. intros Hs. by apply decode_chars_utf8. Qed.

Lemma digits_ascii f n : Forall (fun c => is_ascii_digit c = true) (digits f n).
Proof.
  revert n. induction f as [|f IH]; intros n; simpl; [done|].
  unfold is_ascii_digit, in_range. destruct (N.ltb_spec n 10).
  - constructor; [|done]. by rewrite !(proj2 (N.leb_le _ _)) by lia.
  - apply Forall_app. split; [apply IH|]. constructor; [|done].
    pose proof (N.mod_lt n 10 ltac:(done)) as Hm. generalize dependent (n mod 10). intros.
    by rewrite !(proj2 (N.leb_le _ _)) by lia.
Qed.

Lemma parse_digits_snoc s d a v : parse_digits a s = Some v -> d < 10 -> v * 10 + d <= 18446744073709551615 ->
  parse_digits a (s ++ [48 + d]) = Some (v * 10 + d).
Proof.
  revert a. induction s as [|c s IH]; intros a; cbn [app parse_digits].
  - intros [= ->] Hd Hv. assert (is_ascii_digit (48 + d) = true) as ->
      by (unfold is_ascii_digit, in_range; by rewrite !(proj2 (N.leb_le _ _)) by lia).
    replace (48 + d - 48) with d by lia. by rewrite (proj2 (N.leb_le _ _)).
  - destruct (is_ascii_digit c); [|done]. case_match; [|done]. apply IH.
Qed.

Lemma digits_fuel f n : (n < 10 ^ N.of_nat (S f)) -> n <= 18446744073709551615 ->
  parse_digits 0 (digits (S f) n) = Some n /\ digits (S f) n <> [].
Proof.
  revert n. induction f as [|f IH]; intros n Hn Hmax.
  - simpl. change (10 ^ N.of_nat 1) with 10 in Hn. rewrite (proj2 (N.ltb_lt _ _) Hn). split; [|done].
    apply (parse_digits_snoc [] n 0 0); [done..|lia].
  - cbn [digits]. destruct (N.ltb_spec n 10) as [Hlt|Hge].
    + split; [|done]. apply (parse_digits_snoc [] n 0 0); [done..|lia].
    + assert (n / 10 < 10 ^ N.of_nat (S f)) as Hq.
      { rewrite Nat2N.inj_succ, N.pow_succ_r' in Hn. by apply N.Div0.div_lt_upper_bound. }
      pose proof (N.div_mod n 10 ltac:(done)) as Hd. pose proof (N.mod_lt n 10 ltac:(done)) as Hm.
      generalize dependent (n / 10). generalize dependent (n mod 10). intros m Hm q Hq Hd.
      destruct (IH q) as [Hp _]; [done|lia|].
      split; [|by intros [? ?]%app_nil].
      rewrite (parse_digits_snoc _ _ _ q); [f_equal; lia|done..|lia].
Qed.

Lemma parse_u64_to_string n : n <= 18446744073709551615 -> parse_u64 (u64_to_string n) = Some n.
Proof.
  intros Hn. unfold u64_to_string.
  destruct (digits_fuel 19 n) as [Hp Hne]; [change (N.of_nat 20) with 20; change (10 ^ 20) with 100000000000000000000; lia|done|].
  pose proof (digits_ascii 20 n) as Ha. unfold parse_u64.
  destruct (digits 20 n) as [|c s] eqn:Hd; [done|]. inversion Ha as [|?? Hc _]; subst.
  destruct (decide (c = 43)) as [->|Hc']; [done|].
  assert (forall (A : Type) (x y : A), match c with 43 => x | _ => y end = y) as Hm.
  { intros A x y. destruct c as [|p]; [done|]. repeat (destruct p as [p|p|]; try done). }
  by rewrite Hm.
Qed.

(** Splitting into lines undoes joining them. *)
Lemma split_line l s : 10 ∉ l -> split 10 (l ++ 10 :: s) = l :: split 10 s.
Proof.
  induction l as [|c l IH]; intros Hl; simpl; [done|].
  apply not_elem_of_cons in Hl as [Hc Hl]. rewrite (proj2 (N.eqb_neq _ _)) by done. by rewrite IH.
Qed.

Lemma split_nonempty c s : split c s <> [].
Proof. destruct s; simpl; [done|]. case_match; [done|]. by case_match. Qed.

Lemma lines_cons l s : 10 ∉ l -> last l <> Some 13 -> lines (l ++ 10 :: s) = l :: lines s.
Proof.
  intros Hl Hcr. unfold lines. rewrite split_line by done.
  destruct (split 10 s) as [|p ps] eqn:Hs; [by apply split_nonempty in Hs|].
  assert (strip_cr l = l) as Hst.
  { unfold strip_cr. destruct (last l) as [x|]; [|done]. destruct (decide (x = 13)) as [->|Hx]; [done|].
    destruct x as [|x]; [done|]. repeat (destruct x as [x|x|]; try done). }
  change (removelast (l :: p :: ps)) with (l :: removelast (p :: ps)).
  change (last (l :: p :: ps)) with (last (p :: ps)). rewrite fmap_cons, Hst.
  by destruct (last (p :: ps)) as [[|]|].
Qed.
