(* ===== verification/MigrateFs.v ===== *)
(** A base directory that survives crashes.

    The part of a Unix file system the migration of an older installation works
    on: one directory (the XDG base) with its entries, among them the data
    directories and their files.  Every system call takes its outcome from a
    list: it works, fails, reports success for data it did not store, or the
    process dies in the middle of it.  What has not been synced may be lost or
    garbled when the power fails ([power_loss]): the data of a file, the names in
    a directory, a directory's own name, and a rename.

    A program is an [IO]: it ends with a value or dies. *)
From S2P Require Import Prelude UnixFs.

(** * The directory *)

(** What a directory holds: a regular file, or something that cannot be read as one. *)
Record MFile := { mf_data : bytes; mf_mode : N; mf_regular : bool; mf_synced : bool }.

(** [md_synced]: the names in it are on the disk; [md_linked]: its own name is. *)
Record MDir := { md_mode : N; md_files : gmap str MFile; md_synced : bool; md_linked : bool }.

(** A symbolic link leads to a directory elsewhere, or nowhere. *)
Inductive Entry := EDir (d : MDir) | EFile (f : MFile) | ELink (target : option MDir).

(** [io::ErrorKind], as far as anything depends on it. *)
Inductive IoError := IoNotFound | IoDenied | IoExists | IoNotDir | IoNotEmpty | IoOther.

Inductive Call :=
| CFine
| CFails (denied : bool) (n : N)   (* [EACCES] or something else, after [n] steps of its work *)
| CLies (b : bytes)                (* reports success; a write stores [b] instead *)
| CDies (n : N).                   (* the process ends, [n] steps into the call *)

Record Base := {
  bs_entries : gmap str Entry;
  bs_mode : option N;                      (* the base directory itself, if it exists *)
  bs_before : option (gmap str Entry);     (* the entries before a rename not yet synced *)
  bs_umask : N;
  bs_calls : list Call
}.

Definition with_entries (b : Base) (m : gmap str Entry) : Base :=
  {| bs_entries := m; bs_mode := bs_mode b; bs_before := bs_before b; bs_umask := bs_umask b; bs_calls := bs_calls b |}.

Definition next_call (b : Base) : Call * Base :=
  match bs_calls b with
  | [] => (CFine, b)
  | c :: l => (c, {| bs_entries := bs_entries b; bs_mode := bs_mode b; bs_before := bs_before b;
                     bs_umask := bs_umask b; bs_calls := l |})
  end.

(** * Programs *)

Inductive Outcome (A : Type) := Finished (a : A) | Died.
Arguments Finished {_} _.
Arguments Died {_}.

Definition IO (A : Type) : Type := Base -> Outcome A * Base.

#[global] Instance io_ret : MRet IO := fun A a b => (Finished a, b).
#[global] Instance io_bind : MBind IO := fun A B f c b =>
  match c b with
  | (Finished a, b1) => f a b1
  | (Died, b1) => (Died, b1)
  end.

(** A call that works does [act] (given what it stores instead, if it lies);
    one that fails or dies has done [part] of it. *)
Definition perform {A} (act : option bytes -> Base -> result IoError A * Base) (part : N -> Base -> Base)
    : IO (result IoError A) := fun b =>
  match next_call b with
  | (CFine, b1) => let '(r, b2) := act None b1 in (Finished r, b2)
  | (CLies d, b1) => let '(r, b2) := act (Some d) b1 in (Finished r, b2)
  | (CFails denied n, b1) => (Finished (Err (if denied then IoDenied else IoOther)), part n b1)
  | (CDies n, b1) => (Died, part n b1)
  end.

Definition nothing (_ : N) (b : Base) : Base := b.

(** A call that changes nothing. *)
Definition inquire {A} (f : Base -> result IoError A) : IO (result IoError A) :=
  perform (fun _ b => (f b, b)) nothing.

(** A call that changes the entries. *)
Definition modify (f : option bytes -> Base -> result IoError (gmap str Entry)) (part : N -> Base -> Base)
    : IO (result IoError unit) :=
  perform (fun lie b => match f lie b with
                        | Ok m => (Ok tt, with_entries b m)
                        | Err e => (Err e, b)
                        end) part.

(** * Paths *)

(** An entry of the base directory, itself. *)
Definition entry_at (b : Base) (name : str) : result IoError Entry :=
  match bs_mode b with
  | None => Err IoNotFound
  | Some m => if owner_x m then ok_or IoNotFound (bs_entries b !! name) else Err IoDenied
  end.

(** What a link leads to. *)
Definition follow (e : Entry) : result IoError Entry :=
  match e with
  | ELink None => Err IoNotFound
  | ELink (Some d) => Ok (EDir d)
  | _ => Ok e
  end.

(** A directory one looks something up in. *)
Definition dir_at (b : Base) (name : str) : result IoError MDir :=
  e ← entry_at b name;
  e' ← follow e;
  match e' with
  | EDir d => if owner_x (md_mode d) then Ok d else Err IoDenied
  | _ => Err IoNotDir
  end.

Definition file_at (b : Base) (dir file : str) : result IoError MFile :=
  d ← dir_at b dir; ok_or IoNotFound (md_files d !! file).

(** Names can be made and removed in the base directory. *)
Definition base_writable (b : Base) : result IoError unit :=
  match bs_mode b with
  | None => Err IoNotFound
  | Some m => guard_err (negb (owner_x m && owner_w m)) IoDenied
  end.

Definition set_dir_entry (e : Entry) (d : MDir) : Entry :=
  match e with ELink _ => ELink (Some d) | _ => EDir d end.

(** * System calls *)

Definition symlink_metadata (name : str) : IO (result IoError Entry) := inquire (fun b => entry_at b name).
Definition symlink_metadata_in (dir file : str) : IO (result IoError MFile) := inquire (fun b => file_at b dir file).
Definition metadata (name : str) : IO (result IoError Entry) := inquire (fun b => e ← entry_at b name; follow e).

Definition read_file (dir file : str) : IO (result IoError bytes) :=
  inquire (fun b =>
    f ← file_at b dir file;
    if owner_r (mf_mode f) then (if mf_regular f then Ok (mf_data f) else Err IoOther) else Err IoDenied).

(** [fs::create_dir_all] of the base directory. *)
Definition create_base : IO (result IoError unit) :=
  perform (fun _ b =>
    (Ok tt, match bs_mode b with
            | Some _ => b
            | None => {| bs_entries := bs_entries b; bs_mode := Some (N.ldiff 511 (bs_umask b));
                         bs_before := bs_before b; bs_umask := bs_umask b; bs_calls := bs_calls b |}
            end)) nothing.

(** [fs::create_dir_all] of a directory in it. *)
Definition create_dir_all (name : str) : IO (result IoError unit) :=
  perform (fun _ b =>
    let b1 := match bs_mode b with
              | Some _ => b
              | None => {| bs_entries := bs_entries b; bs_mode := Some (N.ldiff 511 (bs_umask b));
                           bs_before := bs_before b; bs_umask := bs_umask b; bs_calls := bs_calls b |}
              end in
    match entry_at b1 name with
    | Ok (EDir _) | Ok (ELink (Some _)) => (Ok tt, b1)
    | Ok _ => (Err IoExists, b1)
    | Err IoNotFound =>
        match base_writable b1 with
        | Ok _ => (Ok tt, with_entries b1 (<[name := EDir {| md_mode := N.ldiff 511 (bs_umask b1); md_files := ∅;
                                                             md_synced := true; md_linked := false |}]> (bs_entries b1)))
        | Err e => (Err e, b1)
        end
    | Err e => (Err e, b1)
    end) nothing.

(** [fs::read_dir] of the base directory. *)
Definition read_base : IO (result IoError (list str)) :=
  inquire (fun b =>
    match bs_mode b with
    | None => Err IoNotFound
    | Some m => if owner_r m then Ok (bt_keys (bs_entries b)) else Err IoDenied
    end).

(** [fs::remove_dir_all]: file by file, then the directory; a link itself is
    removed. *)
Definition remove_some (name : str) (n : N) (b : Base) : Base :=
  match bs_entries b !! name with
  | Some (EDir d) =>
      with_entries b (<[name := EDir {| md_mode := md_mode d;
        md_files := list_to_map (drop (N.to_nat n) (bt_items (md_files d)));
        md_synced := false; md_linked := md_linked d |}]> (bs_entries b))
  | _ => b
  end.
Definition remove_dir_all (name : str) : IO (result IoError unit) :=
  modify (fun _ b =>
    e ← entry_at b name;
    _ ← base_writable b;
    match e with
    | EDir d => if owner_r (md_mode d) && (bool_decide (md_files d = ∅) || (owner_w (md_mode d) && owner_x (md_mode d)))
                then Ok (delete name (bs_entries b)) else Err IoDenied
    | ELink _ => Ok (delete name (bs_entries b))
    | EFile _ => Err IoNotDir
    end) (remove_some name).

(** [DirBuilder::new().mode(mode).create] *)
Definition mkdir (name : str) (mode : N) : IO (result IoError unit) :=
  modify (fun _ b =>
    _ ← base_writable b;
    match bs_entries b !! name with
    | Some _ => Err IoExists
    | None => Ok (<[name := EDir {| md_mode := N.ldiff mode (bs_umask b); md_files := ∅;
                                    md_synced := true; md_linked := false |}]> (bs_entries b))
    end) nothing.

(** [fs::set_permissions] of a directory, through a link. *)
Definition set_dir_mode (name : str) (mode : N) : IO (result IoError unit) :=
  modify (fun _ b =>
    e ← entry_at b name;
    e' ← follow e;
    match e' with
    | EDir d => Ok (<[name := set_dir_entry e {| md_mode := mode; md_files := md_files d;
                                                 md_synced := md_synced d; md_linked := md_linked d |}]> (bs_entries b))
    | EFile f => Ok (<[name := EFile {| mf_data := mf_data f; mf_mode := mode; mf_regular := mf_regular f; mf_synced := mf_synced f |}]> (bs_entries b))
    | ELink _ => Err IoOther
    end) nothing.

(** Changes the files of a directory that can be looked into. *)
Definition in_dir (b : Base) (dir : str) (f : MDir -> result IoError MDir) : result IoError (gmap str Entry) :=
  e ← entry_at b dir;
  d ← dir_at b dir;
  d' ← f d;
  Ok (<[dir := set_dir_entry e d']> (bs_entries b)).

Definition with_md_files (d : MDir) (m : gmap str MFile) (synced : bool) : MDir :=
  {| md_mode := md_mode d; md_files := m; md_synced := synced; md_linked := md_linked d |}.

(** [OpenOptions::new().write(true).create_new(true).mode(mode).open] *)
Definition create_new_in (dir file : str) (mode : N) : IO (result IoError unit) :=
  modify (fun _ b => in_dir b dir (fun d =>
    match md_files d !! file with
    | Some _ => Err IoExists
    | None =>
        if owner_w (md_mode d)
        then Ok (with_md_files d (<[file := {| mf_data := []; mf_mode := N.ldiff mode (bs_umask b);
                                               mf_regular := true; mf_synced := false |}]> (md_files d)) false)
        else Err IoDenied
    end)) nothing.

(** [write_all] on the file just created. *)
Definition put_in (dir file : str) (data : bytes) (b : Base) : result IoError (gmap str Entry) :=
  in_dir b dir (fun d => Ok (with_md_files d
    (alter (fun f => {| mf_data := data; mf_mode := mf_mode f; mf_regular := mf_regular f; mf_synced := false |}) file (md_files d)) (md_synced d))).
Definition write_in (dir file : str) (data : bytes) : IO (result IoError unit) :=
  modify (fun lie => put_in dir file (default data lie))
    (fun n b => match put_in dir file (take (N.to_nat n) data) b with Ok m => with_entries b m | Err _ => b end).

(** [File::sync_all] on the file just written. *)
Definition sync_in (dir file : str) : IO (result IoError unit) :=
  modify (fun _ b => in_dir b dir (fun d => Ok (with_md_files d
    (alter (fun f => {| mf_data := mf_data f; mf_mode := mf_mode f; mf_regular := mf_regular f; mf_synced := true |}) file (md_files d)) (md_synced d))))
    nothing.

(** [fs::remove_file] *)
Definition remove_in (dir file : str) : IO (result IoError unit) :=
  modify (fun _ b => in_dir b dir (fun d =>
    match md_files d !! file with
    | None => Err IoNotFound
    | Some _ => if owner_w (md_mode d) then Ok (with_md_files d (delete file (md_files d)) false) else Err IoDenied
    end)) nothing.

(** [fs::rename] of a file within its directory. *)
Definition rename_in (dir a z : str) : IO (result IoError unit) :=
  modify (fun _ b => in_dir b dir (fun d =>
    match md_files d !! a with
    | None => Err IoNotFound
    | Some f => if owner_w (md_mode d) then Ok (with_md_files d (<[z := f]> (delete a (md_files d))) false) else Err IoDenied
    end)) nothing.

(** [File::open(dir)?.sync_all()] *)
Definition sync_dir (name : str) : IO (result IoError unit) :=
  modify (fun _ b => in_dir b name (fun d =>
    if owner_r (md_mode d) then Ok (with_md_files d (md_files d) true) else Err IoDenied)) nothing.

(** The same, of the base directory. *)
Definition link_entry (e : Entry) : Entry :=
  match e with
  | EDir d => EDir {| md_mode := md_mode d; md_files := md_files d; md_synced := md_synced d; md_linked := true |}
  | _ => e
  end.
Definition sync_base : IO (result IoError unit) :=
  perform (fun _ b =>
    match bs_mode b with
    | None => (Err IoNotFound, b)
    | Some m =>
        if owner_r m
        then (Ok tt, {| bs_entries := link_entry <$> bs_entries b; bs_mode := bs_mode b; bs_before := None;
                        bs_umask := bs_umask b; bs_calls := bs_calls b |})
        else (Err IoDenied, b)
    end) nothing.

(** [fs::rename] of a directory onto a name that is free or an empty directory. *)
Definition rename_dir (a z : str) : IO (result IoError unit) :=
  perform (fun _ b =>
    match
      _ ← base_writable b;
      e ← ok_or IoNotFound (bs_entries b !! a);
      match e, bs_entries b !! z with
      | EDir d, None => Ok d
      | EDir d, Some (EDir d') => if bool_decide (md_files d' = ∅) then Ok d else Err IoNotEmpty
      | _, _ => Err IoNotDir
      end
    with
    | Err e => (Err e, b)
    | Ok d =>
        (Ok tt, {| bs_entries := <[z := EDir {| md_mode := md_mode d; md_files := md_files d;
                                                md_synced := md_synced d; md_linked := false |}]>
                                   (delete a (bs_entries b));
                   bs_mode := bs_mode b; bs_before := Some (bs_entries b);
                   bs_umask := bs_umask b; bs_calls := bs_calls b |})
    end) nothing.

(** * Power failure *)

(** What is lost of what had not been synced: a rename, directories, names, data. *)
Record Loss := {
  ls_undo : bool;
  ls_vanish : str -> bool;
  ls_forget : str -> str -> bool;
  ls_garbage : str -> str -> bytes
}.

Definition lose_file (l : Loss) (dir name : str) (f : MFile) : MFile :=
  {| mf_data := if mf_synced f then mf_data f else ls_garbage l dir name; mf_mode := mf_mode f; mf_regular := mf_regular f; mf_synced := true |}.

Definition lose_dir (l : Loss) (name : str) (d : MDir) : MDir :=
  {| md_mode := md_mode d;
     md_files := map_imap (fun k f => if negb (md_synced d) && ls_forget l name k then None
                                      else Some (lose_file l name k f)) (md_files d);
     md_synced := true; md_linked := true |}.

Definition lose_entry (l : Loss) (name : str) (e : Entry) : option Entry :=
  match e with
  | EDir d => if negb (md_linked d) && ls_vanish l name then None else Some (EDir (lose_dir l name d))
  | _ => Some e
  end.

(** The directory after a restart: after a power failure with its loss, or after
    the process alone ended. *)
Definition restart (loss : option Loss) (calls : list Call) (b : Base) : Base :=
  {| bs_entries :=
       match loss with
       | None => bs_entries b
       | Some l => map_imap (lose_entry l) (if ls_undo l then default (bs_entries b) (bs_before b) else bs_entries b)
       end;
     bs_mode := bs_mode b;
     bs_before := match loss with None => bs_before b | Some _ => None end;
     bs_umask := bs_umask b; bs_calls := calls |}.
