(* ===== verification/Migration.v ===== *)
(** Carrying an older installation's identity over.

    [platform-linux/src/legacy_migration.rs]: before the trust store is opened,
    the data directory of the program's previous name is copied to the canonical
    one, if that holds no identity; and the preferences file of the window
    likewise.  Both directories lie in one base directory, as [DataDirs::resolve]
    makes them; the file system is that of [MigrateFs].  The clock and the process
    id are inputs; the text of an operating-system error is left out of a
    [Detail]. *)
From S2P Require Import Prelude External Ids Identity Store UnixFs MigrateFs Utf8.

Definition CANONICAL_DIR_NAME : str := lit "pliwee".
Definition LEGACY_DIR_NAME : str := lit "omnibridge".
Definition MIGRATED_FROM_FILE : str := lit "MIGRATED_FROM".
Definition IDENTITY_FILE : str := lit "identity.key".
Definition STAGING_PREFIX : str := lit ".pliwee-migrating-".

(** * Where things are *)

(** [Path::is_absolute] and [Path::join] of a relative path. *)
Definition is_absolute (p : str) : bool := starts_with [SLASH] p.
Definition path_join (p q : str) : str :=
  if is_absolute q then q
  else match last p with
       | None => q
       | Some c => if c =? SLASH then p ++ q else p ++ [SLASH] ++ q
       end.

Definition xdg_base (xdg home : option str) (home_suffix : str) : str :=
  match xdg with
  | Some p => if is_absolute p then p else path_join (default (lit ".") home) home_suffix
  | None => path_join (default (lit ".") home) home_suffix
  end.

Record DataDirs := { dd_canonical : str; dd_legacy : str }.

Definition DataDirs_resolve (xdg_data_home home : option str) : DataDirs :=
  let base := xdg_base xdg_data_home home (lit ".local/share") in
  {| dd_canonical := path_join base CANONICAL_DIR_NAME; dd_legacy := path_join base LEGACY_DIR_NAME |}.

Record ConfigFiles := { cf_canonical : str; cf_legacy : str }.

Definition ConfigFiles_resolve (xdg_config_home home : option str) (file_name : str) : ConfigFiles :=
  let base := xdg_base xdg_config_home home (lit ".config") in
  {| cf_canonical := path_join (path_join base CANONICAL_DIR_NAME) file_name;
     cf_legacy := path_join (path_join base LEGACY_DIR_NAME) file_name |}.

(** * The record left behind *)

Record MigrationRecord := {
  mr_source : str;
  mr_migrated_at_unix : N;
  mr_identity_sha256 : str;
  mr_state_sha256 : str
}.

Definition SHA_IDENTITY : str := lit "sha256." ++ IDENTITY_FILE.
Definition SHA_STATE : str := lit "sha256." ++ STATE_FILE.

Definition line (l : str) : str := l ++ [10].

Definition render (r : MigrationRecord) : str :=
  line (lit "# Written by Pliwee when it copied an OmniBridge identity into this") ++
  line (lit "# directory. The source directory was not modified (ADR-0020 D9).") ++
  line (lit "source=" ++ mr_source r) ++
  line (lit "migrated_at_unix=" ++ u64_to_string (mr_migrated_at_unix r)) ++
  line (SHA_IDENTITY ++ lit "=" ++ mr_identity_sha256 r) ++
  line (SHA_STATE ++ lit "=" ++ mr_state_sha256 r).

(** The four variables of the loop of [parse]. *)
Record Parsed := { pa_source : option str; pa_at : option N; pa_identity : option str; pa_state : option str }.

Definition parse_line (p : Parsed) (l : str) : Parsed :=
  match split_once 61 l with
  | None => p
  | Some (key, value) =>
      if eqb key (lit "source") then
        {| pa_source := Some value; pa_at := pa_at p; pa_identity := pa_identity p; pa_state := pa_state p |}
      else if eqb key (lit "migrated_at_unix") then
        {| pa_source := pa_source p; pa_at := parse_u64 value; pa_identity := pa_identity p; pa_state := pa_state p |}
      else if eqb key SHA_IDENTITY then
        {| pa_source := pa_source p; pa_at := pa_at p; pa_identity := Some value; pa_state := pa_state p |}
      else if eqb key SHA_STATE then
        {| pa_source := pa_source p; pa_at := pa_at p; pa_identity := pa_identity p; pa_state := Some value |}
      else p
  end.

Definition MigrationRecord_parse (text : str) : option MigrationRecord :=
  let p := foldl parse_line {| pa_source := None; pa_at := None; pa_identity := None; pa_state := None |} (lines text) in
  source ← pa_source p; at_unix ← pa_at p; identity ← pa_identity p; state ← pa_state p;
  Some {| mr_source := source; mr_migrated_at_unix := at_unix; mr_identity_sha256 := identity; mr_state_sha256 := state |}.

Inductive DataDirOrigin :=
| Existing (migrated_from : option MigrationRecord)
| Migrated (record : MigrationRecord)
| NoLegacyState.

Definition DataDirOrigin_record (o : DataDirOrigin) : option MigrationRecord :=
  match o with
  | Existing migrated_from => migrated_from
  | Migrated r => Some r
  | NoLegacyState => None
  end.

(** * Errors *)

Inductive Detail :=
| What (what : string)                       (* a fixed text *)
| WhatIo (what : string) (e : IoError)       (* the same with an I/O error *)
| HasMode (mode : N)
| CannotBeUsed (s : IdentityState).

Record MigrationError := { me_path : str; me_detail : Detail }.

(** [map_err] and [?] on a program: go on with the value or end with the error. *)
Definition try_io {A B} (c : IO (result IoError A)) (to_err : IoError -> MigrationError)
    (k : A -> IO (result MigrationError B)) : IO (result MigrationError B) :=
  c ≫= fun r => match r with Ok a => k a | Err e => mret (Err (to_err e)) end.
Definition try_m {A B} (c : IO (result MigrationError A)) (k : A -> IO (result MigrationError B))
    : IO (result MigrationError B) :=
  c ≫= fun r => match r with Ok a => k a | Err e => mret (Err e) end.

Declare Scope io_scope.
Notation "x '<-?' c 'else' f ';;' k" := (try_io c f (fun x => k))
  (at level 100, c at level 99, f at level 99, k at level 200, right associativity) : io_scope.
Notation "x '<-!' c ';;' k" := (try_m c (fun x => k))
  (at level 100, c at level 99, k at level 200, right associativity) : io_scope.
Open Scope io_scope.

Section Migrate.
Context `{HC : !HexCodec, CR : !Crypto, B64 : !Base64Codec, J : !Json StateFile, X : !X509, K : !KeyOps}.

(** The base directory's path, the process id, the time. *)
Context (root : str) (pid now : N).

Definition at_dir (name : str) : str := path_join root name.
Definition at_file (dir file : str) : str := path_join (at_dir dir) file.

Definition io_error (path : str) (what : string) (e : IoError) : MigrationError :=
  {| me_path := path; me_detail := WhatIo what e |}.

Definition sha256_hex (b : bytes) : str := hex_string (bn_bytes (sha256 b)).

(** [MigrationRecord::read_from] *)
Definition read_from (dir : str) : IO (option MigrationRecord) :=
  r ← read_file dir MIGRATED_FROM_FILE;
  mret (match r with Ok b => from_utf8 b ≫= MigrationRecord_parse | Err _ => None end).

Fixpoint holds_any (dir : str) (names : list str) : IO (result MigrationError bool) :=
  match names with
  | [] => mret (Ok false)
  | name :: names' =>
      r ← symlink_metadata_in dir name;
      match r with
      | Ok _ => mret (Ok true)
      | Err IoNotFound => holds_any dir names'
      | Err e => mret (Err (io_error (at_file dir name) "could not be examined" e))
      end
  end.
Definition holds_identity (dir : str) : IO (result MigrationError bool) := holds_any dir [IDENTITY_FILE; STATE_FILE].

(** What [FileSecretStore] sees of a directory. *)
Definition dir_view (d : MDir) : Fs :=
  {| fs_files := (fun f => {| f_data := mf_data f; f_mode := mf_mode f |}) <$> md_files d;
     fs_dir := Some (md_mode d); fs_umask := 0; fs_faults := [] |}.

(** A directory, say, where a file should be. *)
Definition irregular (d : MDir) (name : str) : bool :=
  match md_files d !! name with Some f => negb (mf_regular f) | None => false end.

(** [Store::probe_identity] on [FileSecretStore::new(l)]; a failing read is one
    of its answers. *)
Definition probe (name : str) : IO IdentityState :=
  r ← inquire (fun b =>
        e ← entry_at b name;
        e' ← follow e;
        match e' with
        | EDir d => if irregular d STATE_FILE || irregular d IDENTITY_FILE then Err IoOther
                    else Ok (probe_identity (dir_view d))
        | _ => Err IoNotDir
        end);
  mret (match r with
        | Ok s => s
        | Err IoDenied => Lost
        | Err _ => TemporarilyUnavailable
        end).

(** [write_new] *)
Definition write_new (dir file : str) (data : bytes) : IO (result MigrationError unit) :=
  _ <-? create_new_in dir file FILE_MODE else io_error (at_file dir file) "could not be created" ;;
  _ <-? write_in dir file data else io_error (at_file dir file) "could not be written" ;;
  _ <-? sync_in dir file else io_error (at_file dir file) "could not be written" ;;
  mret (Ok tt).

(** One turn of the loop that reads back what landed. *)
Definition read_back (staging name expected : str) : IO (result MigrationError unit) :=
  b <-? read_file staging name else io_error (at_file staging name) "could not be read back" ;;
  if eqb (sha256_hex b) expected then mret (Ok tt)
  else mret (Err {| me_path := at_file staging name;
                    me_detail := What "the copy does not match its source (SHA-256 differs)" |}).

Definition stage (staging : str) (identity state : bytes) (record : MigrationRecord) : IO (result MigrationError unit) :=
  _ <-? mkdir staging DIR_MODE else io_error (at_dir staging) "could not be created" ;;
  _ <-? set_dir_mode staging DIR_MODE else io_error (at_dir staging) "could not be made private" ;;
  _ <-! write_new staging IDENTITY_FILE identity ;;
  _ <-! write_new staging STATE_FILE state ;;
  _ <-! write_new staging MIGRATED_FROM_FILE (str_bytes (render record)) ;;
  _ <-! read_back staging IDENTITY_FILE (mr_identity_sha256 record) ;;
  _ <-! read_back staging STATE_FILE (mr_state_sha256 record) ;;
  _ <-? sync_dir staging else io_error (at_dir staging) "could not be synced" ;;
  mret (Ok tt).

(** The loop of [remove_stale_staging] over the entries listed. *)
Fixpoint remove_stale (names : list str) : IO (result MigrationError unit) :=
  match names with
  | [] => mret (Ok tt)
  | name :: names' =>
      if negb (starts_with STAGING_PREFIX name) then remove_stale names'
      else
        m ← symlink_metadata name;
        match m with
        | Ok (EDir _) =>
            _ <-? remove_dir_all name else io_error (at_dir name) "a leftover migration directory could not be removed" ;;
            remove_stale names'
        | _ => remove_stale names'
        end
  end.
Definition remove_stale_staging : IO (result MigrationError unit) :=
  names <-? read_base else io_error root "could not be listed" ;;
  remove_stale names.

Definition staging_name : str := STAGING_PREFIX ++ u32_to_string pid ++ [45] ++ u64_to_string now.

(** From the moment the two files of the old directory are in memory. *)
Definition carry_over (identity state : bytes) : IO (result MigrationError DataDirOrigin) :=
  let record := {| mr_source := at_dir LEGACY_DIR_NAME; mr_migrated_at_unix := now;
                   mr_identity_sha256 := sha256_hex identity; mr_state_sha256 := sha256_hex state |} in
  _ <-? create_base else io_error root "could not be created" ;;
  _ <-! remove_stale_staging ;;
  r ← (_ <-! stage staging_name identity state record ;;
       _ <-? rename_dir staging_name CANONICAL_DIR_NAME
         else io_error (at_dir CANONICAL_DIR_NAME)
                "could not receive the migrated identity (it exists without an identity but is not empty?)" ;;
       mret (Ok tt));
  match r with
  | Err e => _ ← remove_dir_all staging_name; mret (Err e)
  | Ok _ =>
      _ <-? sync_base else io_error root "could not be synced" ;;
      mret (Ok (Migrated record))
  end.

(** The old directory has been found usable or not. *)
Definition read_legacy : IO (result MigrationError DataDirOrigin) :=
  let l := LEGACY_DIR_NAME in
  s ← probe l;
  match s with
  | NotCreated => mret (Ok NoLegacyState)
  | Available =>
      identity <-? read_file l IDENTITY_FILE else io_error (at_file l IDENTITY_FILE) "could not be read" ;;
      state <-? read_file l STATE_FILE else io_error (at_file l STATE_FILE) "could not be read" ;;
      carry_over identity state
  | other => mret (Err {| me_path := at_dir l; me_detail := CannotBeUsed other |})
  end.

Definition examine_legacy : IO (result MigrationError DataDirOrigin) :=
  let l := LEGACY_DIR_NAME in
  meta <-? metadata l else io_error (at_dir l) "exists but cannot be read" ;;
  match meta with
  | EDir d =>
      let mode := N.land (md_mode d) 511 in
      if negb (N.land mode 63 =? 0) then mret (Err {| me_path := at_dir l; me_detail := HasMode mode |})
      else read_legacy
  | _ => mret (Err {| me_path := at_dir l; me_detail := What "exists but is not a directory" |})
  end.

Definition migrate_data_dir : IO (result MigrationError DataDirOrigin) :=
  held <-! holds_identity CANONICAL_DIR_NAME ;;
  if (held : bool) then
    r ← read_from CANONICAL_DIR_NAME;
    mret (Ok (Existing r))
  else
    m ← symlink_metadata LEGACY_DIR_NAME;
    match m with
    | Err IoNotFound => mret (Ok NoLegacyState)
    | Err e => mret (Err (io_error (at_dir LEGACY_DIR_NAME) "could not be examined" e))
    | Ok _ => examine_legacy
    end.

(** * The preferences file *)

Inductive ConfigOrigin :=
| ConfigExisting
| ConfigMigrated (source : str)
| ConfigNoLegacyState.

(** The copy of what was read, beside the canonical file and then in its place. *)
Definition place_config (file_name : str) (data : bytes) : IO (result MigrationError ConfigOrigin) :=
  let parent := CANONICAL_DIR_NAME in
  _ <-? create_dir_all parent else io_error (at_dir parent) "could not be created" ;;
  _ <-? set_dir_mode parent DIR_MODE else io_error (at_dir parent) "could not be made private" ;;
  let tmp := [DOT] ++ file_name ++ lit ".migrating-" ++ u32_to_string pid in
  _ ← remove_in parent tmp;
  r ← (_ <-! write_new parent tmp data ;;
       _ <-? rename_in parent tmp file_name else io_error (at_file parent file_name) "could not be written" ;;
       mret (Ok tt));
  match r with
  | Err e => _ ← remove_in parent tmp; mret (Err e)
  | Ok _ =>
      _ <-? sync_dir parent else io_error (at_dir parent) "could not be synced" ;;
      mret (Ok (ConfigMigrated (at_file LEGACY_DIR_NAME file_name)))
  end.

Definition migrate_config_file (file_name : str) : IO (result MigrationError ConfigOrigin) :=
  let l := at_file LEGACY_DIR_NAME file_name in
  c ← symlink_metadata_in CANONICAL_DIR_NAME file_name;
  match c with
  | Ok _ => mret (Ok ConfigExisting)
  | Err IoNotFound =>
      m ← symlink_metadata_in LEGACY_DIR_NAME file_name;
      match m with
      | Err IoNotFound => mret (Ok ConfigNoLegacyState)
      | Err e => mret (Err (io_error l "could not be examined" e))
      | Ok _ =>
          meta <-? symlink_metadata_in LEGACY_DIR_NAME file_name else io_error l "exists but cannot be read" ;;
          if negb (mf_regular meta)
          then mret (Err {| me_path := l; me_detail := What "exists but is not a regular file" |})
          else
            data <-? read_file LEGACY_DIR_NAME file_name else io_error l "exists but cannot be read" ;;
            place_config file_name data
      end
  | Err e => mret (Err (io_error (at_file CANONICAL_DIR_NAME file_name) "could not be examined" e))
  end.
End Migrate.
