(* ===== verification/Downloads.v ===== *)
(** Where received files go.

    [capabilities/files/src/destination.rs]: the user's Downloads directory, from
    the environment and from [user-dirs.dirs]; and the search for what interrupted
    transfers of the older program left there, which [daemon/src/main.rs] runs at
    start.  The environment and the files read are inputs. *)
From S2P Require Import Prelude External Ids Capability UnixFs Utf8 MigrateFs Migration.

Definition DOWNLOAD_SUBDIR : str := lit "Pliwee".
Definition LEGACY_DOWNLOAD_SUBDIR : str := lit "OmniBridge".
Definition LEGACY_PARTIAL_PREFIX : str := lit ".omnibridge-".

(** The variables read, and [read_to_string] of a path. *)
Record Environ := {
  ev_xdg_download_dir : option str;
  ev_home : option str;
  ev_xdg_config_home : option str;
  ev_read : str -> option str
}.

Definition absolute_only (p : option str) : option str := q ← p; if is_absolute q then Some q else None.

Definition home_dir (e : Environ) : str := default (lit ".") (absolute_only (ev_home e)).

Definition QUOTE : N := 34.

(** [str::trim_matches] of one character. *)
Definition trim_matches (c : N) (s : str) : str := trim_end_matches (eqb c) (drop_while (eqb c) s).

(** One line: [None] goes on to the next. *)
Definition user_dirs_line (home line : str) : option str :=
  let line := trim line in
  if starts_with (lit "#") line then None
  else
    value ← strip_prefix (lit "XDG_DOWNLOAD_DIR=") line;
    let value := trim_matches QUOTE (trim value) in
    match strip_prefix (lit "$HOME/") value with
    | Some rest => Some (path_join home rest)
    | None => if is_absolute value then Some value else None
    end.

Definition download_dir_from_user_dirs (e : Environ) : option str :=
  let config := match absolute_only (ev_xdg_config_home e) with Some c => c | None => path_join (home_dir e) (lit ".config") end in
  raw ← ev_read e (path_join config (lit "user-dirs.dirs"));
  find_map (user_dirs_line (home_dir e)) (lines raw).

Definition default_download_dir (e : Environ) : str :=
  match absolute_only (ev_xdg_download_dir e) with
  | Some p => p
  | None =>
      match download_dir_from_user_dirs e with
      | Some d => d
      | None => path_join (home_dir e) (lit "Downloads")
      end
  end.

(** [Destination::default_location] *)
Definition default_location (e : Environ) : str := path_join (default_download_dir e) DOWNLOAD_SUBDIR.

(** * Leftovers *)

(** [read_dir]: nothing there, an error, or the entries; of each its name, or an
    error, and what [symlink_metadata] says of it. *)
Inductive EntryKind := IsFile | IsOther | Unreadable.
Inductive Listing := NotThere | ListError | Entries (l : list (option (str * EntryKind))).

Definition ends_with (suffix s : str) : bool := starts_with (rev suffix) (rev s).

Definition leftover_name (name : str) : bool := starts_with LEGACY_PARTIAL_PREFIX name && ends_with (lit ".part") name.

Fixpoint collect_leftovers (l : list (option (str * EntryKind))) : option (list str) :=
  match l with
  | [] => Some []
  | None :: _ => None
  | Some (name, kind) :: l' =>
      if negb (leftover_name name) then collect_leftovers l'
      else match kind with
           | Unreadable => None
           | IsFile => cons name <$> collect_leftovers l'
           | IsOther => collect_leftovers l'
           end
  end.

(** The paths, sorted; [None] is an error. *)
Definition legacy_partial_files (dir : str) (listing : Listing) : option (list str) :=
  match listing with
  | NotThere => Some []
  | ListError => None
  | Entries l => (fun found => path_join dir <$> sort found) <$> collect_leftovers l
  end.

(** [find_legacy_partial_files] of [main.rs]: both directories, each once. *)
Definition find_legacy_partial_files (e : Environ) (current : str) (list_dir : str -> Listing) : list str :=
  let legacy := path_join (default_download_dir e) LEGACY_DOWNLOAD_SUBDIR in
  let dirs := current :: (if negb (eqb legacy current) then [legacy] else []) in
  dirs ≫= (fun d => default [] (legacy_partial_files d (list_dir d))).

(** * Theorems *)

Lemma path_join_absolute p q : is_absolute p = true -> is_absolute (path_join p q) = true.
Proof.
  unfold path_join. destruct (is_absolute q) eqn:Hq; [done|]. intros Hp.
  destruct p as [|c p]; [done|]. destruct (last (c :: p)) eqn:Hl; [by destruct (_ =? _)|].
  by apply last_None in Hl.
Qed.

Lemma absolute_only_some p q : absolute_only p = Some q -> is_absolute q = true.
Proof. unfold absolute_only. destruct p as [r|]; simpl; [|done]. destruct (is_absolute r) eqn:?; [|done]. by intros [= <-]. Qed.

Lemma user_dirs_line_absolute home l d : is_absolute home = true -> user_dirs_line home l = Some d -> is_absolute d = true.
Proof.
  intros Hh. unfold user_dirs_line. destruct (starts_with _ _); [done|]. destruct (strip_prefix _ (trim l)) as [v|]; [|done]. simpl.
  destruct (strip_prefix _ (trim_matches _ _)) as [rest|]; [intros [= <-]; by apply path_join_absolute|].
  destruct (is_absolute (trim_matches _ _)) eqn:?; [|done]. by intros [= <-].
Qed.

(** Whatever the environment holds and whatever is in the configuration file,
    files go to an absolute path whenever there is a home directory. *)
Theorem default_location_absolute e h :
  ev_home e = Some h -> is_absolute h = true -> is_absolute (default_location e) = true.
Proof.
  intros Hh Ha. assert (home_dir e = h) as Hhome by (unfold home_dir; rewrite Hh; simpl; by rewrite Ha).
  apply path_join_absolute. unfold default_download_dir. destruct (absolute_only _) eqn:Hx; [by eapply absolute_only_some|].
  destruct (download_dir_from_user_dirs e) as [d|] eqn:Hd; [|rewrite Hhome; by apply path_join_absolute].
  unfold download_dir_from_user_dirs in Hd. destruct (ev_read e _) as [raw|]; [|done]. simpl in Hd.
  apply find_map_some in Hd as (l & _ & Hl). rewrite Hhome in Hl. by eapply user_dirs_line_absolute.
Qed.

Lemma collect_leftovers_spec l found : collect_leftovers l = Some found ->
  forall name, name ∈ found <-> Some (name, IsFile) ∈ l /\ leftover_name name = true.
Proof.
  revert found. induction l as [|[[n k]|] l IH]; intros found; simpl; [intros [= <-] name; set_solver| |done].
  destruct (leftover_name n) eqn:Hn; simpl; [destruct k|]; intros H name; try done.
  - destruct (collect_leftovers l) as [f|]; [|done]. injection H as <-. rewrite !elem_of_cons, (IH f) by done. naive_solver.
  - rewrite (IH _ H), elem_of_cons. naive_solver.
  - rewrite (IH _ H), elem_of_cons. split; [naive_solver|]. intros [[[= -> ->]|?] ?]; [congruence|done].
Qed.

(** The leftovers reported are the regular files of the directory with such a
    name, each entry of the directory listed once as it is, in order. *)
Theorem legacy_partial_files_exact dir l found :
  legacy_partial_files dir (Entries l) = Some found ->
  forall p, p ∈ found <-> exists name, p = path_join dir name /\ Some (name, IsFile) ∈ l /\ leftover_name name = true.
Proof.
  unfold legacy_partial_files. destruct (collect_leftovers l) as [f|] eqn:Hf; [|done]. intros [= <-] p.
  rewrite list_elem_of_fmap. unfold sort.
  split.
  - intros (n & -> & Hn). rewrite merge_sort_Permutation in Hn. exists n. split; [done|]. by apply (collect_leftovers_spec l f).
  - intros (n & -> & Hn). exists n. split; [done|]. rewrite merge_sort_Permutation. by apply (collect_leftovers_spec l f).
Qed.

(** The line [xdg-user-dirs-update] writes is understood; a comment is not; and
    two slashes after the variable lead out of the home directory. *)
Definition demo_env (line : string) : Environ := {|
  ev_xdg_download_dir := None; ev_home := Some (lit "/home/ana"); ev_xdg_config_home := None;
  ev_read p := if eqb p (lit "/home/ana/.config/user-dirs.dirs") then Some (lit line ++ [10]) else None |}.

Definition quoted (s : string) : str := [QUOTE] ++ lit s ++ [QUOTE].

Example user_dirs_read :
  let env v := {| ev_xdg_download_dir := None; ev_home := Some (lit "/home/ana"); ev_xdg_config_home := None;
                  ev_read _ := Some (lit "XDG_DOWNLOAD_DIR=" ++ v ++ [10]) |} in
  default_location (env (quoted "$HOME/Transfers")) = lit "/home/ana/Transfers/Pliwee" /\
  default_location (env (quoted "/srv/dl")) = lit "/srv/dl/Pliwee" /\
  default_location (demo_env "#XDG_DOWNLOAD_DIR=/srv/dl") = lit "/home/ana/Downloads/Pliwee" /\
  default_location (env (quoted "$HOME//Transfers")) = lit "/Transfers/Pliwee".
Proof. vm_compute. done. Qed.
