(* ===== verification/MigrationCrash.v ===== *)
(** The migration, interrupted anywhere.

    Whatever system calls fail, wherever the process dies and whatever a power
    failure then takes, the old directory is untouched and the canonical one is
    either as it was or a whole copy; a new identity is allowed only where there
    is none; and the next undisturbed start completes what was begun. *)
From S2P Require Import Prelude External Ids Identity Store UnixFs MigrateFs Utf8 Migration MigrationFacts.

(** * Calls that succeeded *)

(** A call that stores what it is given. *)
Definition honest (c : Call) : Prop := match c with CLies _ => False | _ => True end.

(** The same directory, calls aside. *)
Record same (b b' : Base) : Prop := {
  s_entries : bs_entries b' = bs_entries b;
  s_mode : bs_mode b' = bs_mode b;
  s_before : bs_before b' = bs_before b;
  s_umask : bs_umask b' = bs_umask b }.

Lemma same_next b : same b (next_call b).2.
Proof. unfold next_call. by destruct (bs_calls b). Qed.

Lemma perform_ok {A} (act : option bytes -> Base -> result IoError A * Base) part b a b' :
  perform act part b = (Finished (Ok a), b') ->
  exists lie b1, same b b1 /\ act lie b1 = (Ok a, b') /\ (Forall honest (bs_calls b) -> lie = None).
Proof.
  unfold perform. pose proof (same_next b) as Hs. destruct (next_call b) as [c b1] eqn:Hn. simpl in Hs.
  destruct c as [|denied n|d|n]; [| |destruct (act (Some d) b1) as [r b2] eqn:Ha|done].
  - destruct (act None b1) as [r b2] eqn:Ha. intros [= -> ->]. by exists None, b1.
  - by intros [= ?].
  - intros [= -> ->]. exists (Some d), b1. split_and!; [done..|]. intros Hh. unfold next_call in Hn.
    destruct (bs_calls b) as [|c l]; simplify_eq. by inversion Hh.
Qed.

Lemma inquire_ok {A} (f : Base -> result IoError A) b a b' :
  inquire f b = (Finished (Ok a), b') -> same b b' /\ f b' = Ok a.
Proof. intros (lie & b1 & Hs & [= Hf <-] & _)%perform_ok. done. Qed.

Lemma modify_ok f part b b' : modify f part b = (Finished (Ok tt), b') ->
  exists lie b1 m, same b b1 /\ f lie b1 = Ok m /\ b' = with_entries b1 m /\ (Forall honest (bs_calls b) -> lie = None).
Proof.
  intros (lie & b1 & Hs & Ha & Hl)%perform_ok. destruct (f lie b1) as [m|e] eqn:Hf; [|done].
  injection Ha as <-. by exists lie, b1, m.
Qed.

Lemma try_io_ok {A B} (c : IO (result IoError A)) f (k : A -> IO (result MigrationError B)) b x b' :
  try_io c f k b = (Finished (Ok x), b') -> exists a b1, c b = (Finished (Ok a), b1) /\ k a b1 = (Finished (Ok x), b').
Proof.
  unfold try_io, mbind, io_bind. destruct (c b) as [[[a|e]|] b1]; [eauto|by intros [= ?]|by intros [= ?]].
Qed.

Lemma try_m_ok {A B} (c : IO (result MigrationError A)) (k : A -> IO (result MigrationError B)) b x b' :
  try_m c k b = (Finished (Ok x), b') -> exists a b1, c b = (Finished (Ok a), b1) /\ k a b1 = (Finished (Ok x), b').
Proof.
  unfold try_m, mbind, io_bind. destruct (c b) as [[[a|e]|] b1]; [eauto|by intros [= ?]|by intros [= ?]].
Qed.

(** A change of a directory that is not a link. *)
Lemma in_dir_plain f part dir b b' d : (bs_entries b !! dir) = Some (EDir d) ->
  modify (fun lie b => in_dir b dir (f lie b)) part b = (Finished (Ok tt), b') ->
  exists lie b1 d', same b b1 /\ f lie b1 d = Ok d' /\ bs_entries b' = <[dir := EDir d']> (bs_entries b) /\
    bs_umask b' = bs_umask b /\ (Forall honest (bs_calls b) -> lie = None).
Proof.
  intros Hd (lie & b1 & m & Hs & Hm & -> & Hl)%modify_ok. exists lie, b1.
  apply in_dir_ok in Hm as (e & d0 & d' & He & Hd0 & Hf & ->). apply entry_at_ok in He.
  apply dir_at_entry in Hd0 as (e1 & He1 & Hfo & _). rewrite (s_entries _ _ Hs) in He, He1. simplify_eq/=.
  exists d'. split_and!; [done..| |by apply s_umask|done]. by rewrite (s_entries _ _ Hs).
Qed.

(** A file as the migration leaves it. *)
Definition written (content : bytes) (umask : N) : MFile :=
  {| mf_data := content; mf_mode := N.ldiff FILE_MODE umask; mf_regular := true; mf_synced := true |}.

Lemma insert_mid {A} (m : gmap str A) k x (f : A -> A) : alter f k (<[k := x]> m) = <[k := f x]> m.
Proof. apply map_eq. intros j. destruct (decide (k = j)) as [<-|]; by rewrite ?lookup_alter_eq, ?lookup_insert_eq, ?lookup_alter_ne, ?lookup_insert_ne. Qed.

#[local] Arguments N.ldiff : simpl never.

Section Facts.
Context `{HC : !HexCodec, CR : !Crypto, B64 : !Base64Codec, J : !Json StateFile, X : !X509, K : !KeyOps}.
Context (root : str) (pid now : N).

Lemma honest_quiet b b' : quiet b b' -> Forall honest (bs_calls b) -> Forall honest (bs_calls b').
Proof. intros Hq Hb. destruct (q_calls _ _ Hq) as [used Hu]. rewrite Hu in Hb. by apply Forall_app in Hb as [_ ?]. Qed.

Lemma write_new_ok dir file data b b' d : staging dir -> bs_entries b !! dir = Some (EDir d) ->
  write_new root dir file data b = (Finished (Ok tt), b') ->
  exists content, bs_entries b' !! dir =
      Some (EDir (with_md_files d (<[file := written content (bs_umask b)]> (md_files d)) false)) /\
    bs_umask b' = bs_umask b /\ (Forall honest (bs_calls b) -> content = data).
Proof.
  intros Hs Hd (? & b1 & Hc & (? & b2 & Hw & (? & b3 & Hy & [= <-])%try_io_ok)%try_io_ok)%try_io_ok.
  pose proof (steady_create_new_in dir file FILE_MODE Hs b) as Hq1. destruct x, x0, x1. rewrite Hc in Hq1. simpl in Hq1.
  eapply in_dir_plain in Hc as (l1 & b1' & d1 & Hs1 & Hf1 & He1 & Hu1 & _); [|done].
  assert (bs_entries b1 !! dir = Some (EDir d1)) as Hd1 by (by rewrite He1, lookup_insert_eq).
  unfold write_in, put_in in Hw. eapply in_dir_plain in Hw as (l2 & b2' & d2 & Hs2 & Hf2 & He2 & Hu2 & Hl2); [|done].
  assert (bs_entries b2 !! dir = Some (EDir d2)) as Hd2 by (by rewrite He2, lookup_insert_eq).
  eapply in_dir_plain in Hy as (l3 & b3' & d3 & Hs3 & Hf3 & He3 & Hu3 & _); [|done].
  destruct (md_files d !! file); [done|]. destruct (owner_w (md_mode d)); [|done].
  injection Hf1 as <-. injection Hf2 as <-. injection Hf3 as <-.
  exists (default data l2). split_and!; [|congruence|intros Hh; by rewrite (Hl2 (honest_quiet _ _ Hq1 Hh))].
  rewrite He3, lookup_insert_eq. unfold with_md_files. cbn -[N.ldiff]. rewrite !insert_mid. cbn -[N.ldiff].
  rewrite (s_umask _ _ Hs1). done.
Qed.

Lemma read_file_ok dir file b data b' : read_file dir file b = (Finished (Ok data), b') -> same b b' /\
  exists e d f, bs_entries b !! dir = Some e /\ follow e = Ok (EDir d) /\ md_files d !! file = Some f /\ mf_data f = data.
Proof.
  intros [Hs H]%inquire_ok. split; [done|]. unfold file_at in H. inv_result.
  apply dir_at_entry in H1 as (e & He & Hf & _). rewrite (s_entries _ _ Hs) in He.
  exists e, x0, x. repeat case_match; by simplify_eq.
Qed.

Lemma read_back_ok dir file expected b b' : read_back root dir file expected b = (Finished (Ok tt), b') -> same b b' /\
  exists e d f, bs_entries b !! dir = Some e /\ follow e = Ok (EDir d) /\ md_files d !! file = Some f /\
    sha256_hex (mf_data f) = expected.
Proof.
  intros (data & b1 & (Hs & e & d & f & He & Hd & Hf & <-)%read_file_ok & H)%try_io_ok.
  destruct (eqb (sha256_hex (mf_data f)) expected) eqn:Hx; [|by injection H]. injection H as ->. to_prop.
  split; [done|]. by exists e, d, f.
Qed.

(** The directory the migration leaves: private, complete and on the disk. *)
Record whole (umask : N) (i s record : bytes) (d : MDir) : Prop := {
  wh_mode : md_mode d = DIR_MODE;
  wh_files : md_files d = <[MIGRATED_FROM_FILE := written record umask]>
    (<[STATE_FILE := written s umask]> {[ IDENTITY_FILE := written i umask ]});
  wh_synced : md_synced d = true }.

Lemma three_files u i s r (m := <[MIGRATED_FROM_FILE := written r u]>
    (<[STATE_FILE := written s u]> ({[ IDENTITY_FILE := written i u ]} : gmap str MFile))) :
  m !! IDENTITY_FILE = Some (written i u) /\ m !! STATE_FILE = Some (written s u).
Proof.
  subst m. split.
  - rewrite lookup_insert_ne, lookup_insert_ne, lookup_singleton_eq; done.
  - rewrite lookup_insert_ne, lookup_insert_eq; done.
Qed.

Lemma stage_ok st i s r b b' : staging st -> stage root st i s r b = (Finished (Ok tt), b') ->
  exists d i' s' rec', bs_entries b' !! st = Some (EDir d) /\ whole (bs_umask b) i' s' rec' d /\
    sha256_hex i' = mr_identity_sha256 r /\ sha256_hex s' = mr_state_sha256 r /\
    (Forall honest (bs_calls b) -> i' = i /\ s' = s /\ rec' = str_bytes (render r)).
Proof.
  intros Hst (? & b1 & H1 & (? & b2 & H2 & (? & b3 & H3 & (? & b4 & H4 & (? & b5 & H5 & (? & b6 & H6 &
    (? & b7 & H7 & (? & b8 & H8 & [= <-])%try_io_ok)%try_m_ok)%try_m_ok)%try_m_ok)%try_m_ok)%try_m_ok)%try_io_ok)%try_io_ok.
  destruct x, x0, x1, x2, x3, x4, x5, x6.
  pose proof (steady_mkdir st Hst b) as Q1. rewrite H1 in Q1. pose proof (steady_set_dir_mode st Hst b1) as Q2. rewrite H2 in Q2.
  pose proof (steady_write_new root st IDENTITY_FILE i Hst b2) as Q3. rewrite H3 in Q3.
  pose proof (steady_write_new root st STATE_FILE s Hst b3) as Q4. rewrite H4 in Q4. cbn [snd] in *.
  assert (quiet b b2) as Q12 by (by etrans). assert (quiet b b3) as Q13 by (by etrans). assert (quiet b b4) as Q14 by (by etrans).
  apply modify_ok in H1 as (_ & b1' & m1 & S1 & Hm1 & -> & _). inv_result.
  destruct (bs_entries b1' !! st) eqn:Hfree; [done|]. injection Hm1 as <-.
  apply modify_ok in H2 as (_ & b2' & m2 & S2 & Hm2 & -> & _). inv_result.
  match goal with H : entry_at _ _ = Ok _ |- _ => apply entry_at_ok in H; rename H into He end.
  match goal with H : follow _ = Ok _ |- _ => rename H into Hfo end.
  rewrite (s_entries _ _ S2) in He. simpl in He. rewrite lookup_insert_eq in He. injection He as <-.
  simpl in Hfo. injection Hfo as <-. injection Hm2 as <-.
  eapply write_new_ok in H3 as (ci & E3 & U3 & C3); [|done|by simpl; rewrite lookup_insert_eq].
  eapply write_new_ok in H4 as (cs & E4 & U4 & C4); [|done..].
  eapply write_new_ok in H5 as (cr & E5 & U5 & C5); [|done..].
  apply read_back_ok in H6 as (S6 & e6 & d6 & f6 & He6 & Hd6 & Hf6 & Hi). rewrite E5 in He6. simplify_eq/=.
  apply read_back_ok in H7 as (S7 & e7 & d7 & f7 & He7 & Hd7 & Hf7 & Hs). rewrite (s_entries _ _ S6), E5 in He7. simplify_eq/=.
  eapply in_dir_plain in H8 as (_ & b8' & d8 & S8 & Hf8 & E8 & _ & _); [|by rewrite (s_entries _ _ S7), (s_entries _ _ S6)].
  simpl in Hf8. injection Hf8 as <-.
  pose proof (q_umask _ _ Q12) as V2. pose proof (q_umask _ _ Q13) as V3. pose proof (q_umask _ _ Q14) as V4. simpl in V2.
  rewrite V2, V3, V4 in *.
  destruct (three_files (bs_umask b) ci cs cr) as [L1 L2].
  eexists _, ci, cs, cr. split; [by rewrite E8, lookup_insert_eq|]. split; [by split|].
  pose proof (eq_trans (eq_sym L1) Hf6) as [= <-]. pose proof (eq_trans (eq_sym L2) Hf7) as [= <-]. split_and!; [done..|].
  intros Hh. split_and!; [apply C3, (honest_quiet _ _ Q12 Hh)|apply C4, (honest_quiet _ _ Q13 Hh)|apply C5, (honest_quiet _ _ Q14 Hh)].
Qed.

Lemma try_io_cases {A B} (c : IO (result IoError A)) f (k : A -> IO (result MigrationError B)) b o b' :
  try_io c f k b = (o, b') -> (exists a b1, c b = (Finished (Ok a), b1) /\ k a b1 = (o, b')) \/
    (b' = (c b).2 /\ (forall a, (c b).1 <> Finished (Ok a)) /\ forall x, o <> Finished (Ok x)).
Proof.
  unfold try_io, mbind, io_bind. destruct (c b) as [[[a|e]|] b1]; [eauto|..]; intros [= <- <-]; right; by split_and!.
Qed.

Lemma try_m_cases {A B} (c : IO (result MigrationError A)) (k : A -> IO (result MigrationError B)) b o b' :
  try_m c k b = (o, b') -> (exists a b1, c b = (Finished (Ok a), b1) /\ k a b1 = (o, b')) \/
    (b' = (c b).2 /\ (forall a, (c b).1 <> Finished (Ok a)) /\ forall x, o <> Finished (Ok x)).
Proof.
  unfold try_m, mbind, io_bind. destruct (c b) as [[[a|e]|] b1]; [eauto|..]; intros [= <- <-]; right; by split_and!.
Qed.

(** ** What is on the disk *)

Definition durable_entry (e : Entry) : Prop :=
  match e with
  | EDir d => md_linked d = true /\ md_synced d = true /\ map_Forall (fun _ f => mf_synced f = true) (md_files d)
  | _ => True
  end.

(** Everything but staging directories is on the disk. *)
Definition settled (b : Base) : Prop :=
  bs_before b = None /\ forall n e, ~ staging n -> bs_entries b !! n = Some e -> durable_entry e.

Definition P : str := CANONICAL_DIR_NAME.

(** The canonical name is free, as far as a rename is concerned. *)
Definition free (b : Base) : Prop :=
  match bs_entries b !! P with
  | None => True
  | Some (EDir d) => md_files d = ∅
  | Some _ => False
  end.

Definition record_of (t : N) (i s : bytes) : MigrationRecord :=
  {| mr_source := at_dir root LEGACY_DIR_NAME; mr_migrated_at_unix := t;
     mr_identity_sha256 := sha256_hex i; mr_state_sha256 := sha256_hex s |}.

(** A whole copy of the files [i] and [s]: digest for digest, and byte for byte
    on a file system that stores what it is given. *)
Definition copied (b : Base) (i s : bytes) (d : MDir) : Prop :=
  exists i' s' rec', whole (bs_umask b) i' s' rec' d /\ sha256_hex i' = sha256_hex i /\ sha256_hex s' = sha256_hex s /\
    (Forall honest (bs_calls b) -> i' = i /\ s' = s /\ exists t, rec' = str_bytes (render (record_of t i s))).

Record moved (b b1 : Base) (i s : bytes) : Prop := {
  mv_free : free b;
  mv_copy : exists d, bs_entries b1 !! P = Some (EDir d) /\ copied b i s d /\ (bs_before b1 = None -> md_linked d = true);
  mv_rest : forall n, ~ staging n -> n <> P -> bs_entries b1 !! n = bs_entries b !! n;
  mv_before : forall m, bs_before b1 = Some m -> forall n, ~ staging n -> m !! n = bs_entries b !! n;
  mv_mode : is_Some (bs_mode b) -> bs_mode b1 = bs_mode b;
  mv_umask : bs_umask b1 = bs_umask b;
  mv_tidy : tidy b -> tidy b1 /\ forall m, bs_before b1 = Some m -> tidy (with_entries b1 m) }.

Lemma staging_staging_name : staging (staging_name pid now).
Proof. unfold staging, staging_name. apply starts_with_prefix. by eexists. Qed.

Lemma canonical_not_staging : ~ staging P.
Proof. by vm_compute. Qed.

Lemma link_durable e : durable_entry e -> link_entry e = e.
Proof. destruct e as [[]| |]; simpl; [|done..]. by intros (-> & _). Qed.

(** The rename: all of the staged directory, or nothing. *)
Lemma rename_cases st b b1 d : staging st -> bs_entries b !! st = Some (EDir d) ->
  rename_dir st P b = (Finished (Ok tt), b1) ->
  free b /\ bs_before b1 = Some (bs_entries b) /\ bs_mode b1 = bs_mode b /\ bs_umask b1 = bs_umask b /\
  bs_entries b1 = <[P := EDir {| md_mode := md_mode d; md_files := md_files d; md_synced := md_synced d; md_linked := false |}]>
    (delete st (bs_entries b)).
Proof.
  intros Hst Hd (lie & b0 & Hs & Ha & _)%perform_ok.
  destruct (_ ≫= _) as [d0|] eqn:Hr in Ha; [|done]. injection Ha as <-. simpl. inv_result. rewrite (s_entries _ _ Hs), (s_mode _ _ Hs), (s_umask _ _ Hs) in *.
  rewrite Hd in *. simplify_eq. unfold free. repeat case_match; simplify_eq; rewrite ?bool_decide_eq_true in *; by split_and!.
Qed.

(** The rest after the rename. *)
Lemma sync_base_cases b b1 o : sync_base b1 = (o, b) ->
  same b1 b \/ (bs_before b = None /\ bs_entries b = link_entry <$> bs_entries b1 /\ bs_mode b = bs_mode b1 /\ bs_umask b = bs_umask b1).
Proof.
  unfold sync_base, perform. pose proof (same_next b1) as Hs. destruct (next_call b1) as [c b2]. simpl in Hs.
  destruct c; try (intros [= <- <-]; by left); destruct (bs_mode b2) eqn:Hm; try (intros [= <- <-]; by left);
    destruct (owner_r n); intros [= <- <-]; try (by left); right; destruct Hs; simpl in *; split_and!; congruence.
Qed.

Lemma sync_base_ok b b1 : sync_base b1 = (Finished (Ok tt), b) -> bs_before b = None.
Proof.
  intros (lie & b2 & Hs & Ha & _)%perform_ok. repeat case_match; try done. by simplify_eq.
Qed.

(** What moved stays moved when it is synced. *)
Lemma moved_sync b b1 b2 i s : settled b -> moved b b1 i s -> 
  same b1 b2 \/ (bs_before b2 = None /\ bs_entries b2 = link_entry <$> bs_entries b1 /\ bs_mode b2 = bs_mode b1 /\ bs_umask b2 = bs_umask b1) ->
  moved b b2 i s.
Proof.
  intros Hset [Hf (d & Hd & Hc & Hl) Hr Hb Hmo Hum Hti] [Hs|(Hn & He & Hm2 & Hu2)].
  - split; [done|..].
    + exists d. by rewrite (s_entries _ _ Hs), (s_before _ _ Hs).
    + intros n. rewrite (s_entries _ _ Hs). apply Hr.
    + intros m. rewrite (s_before _ _ Hs). apply Hb.
    + by rewrite (s_mode _ _ Hs).
    + by rewrite (s_umask _ _ Hs).
    + unfold tidy in *. simpl in *. by rewrite (s_entries _ _ Hs), (s_umask _ _ Hs), (s_before _ _ Hs).
  - split; [done|..].
    + eexists. rewrite He, lookup_fmap, Hd. split; [done|]. split; [|done].
      destruct Hc as (i' & s' & rec' & [Hm Hfi Hsy] & Hc). exists i', s', rec'. by split.
    + intros n Hn1 Hn2. rewrite He, lookup_fmap, Hr by done.
      destruct (bs_entries b !! n) as [e|] eqn:Hbn; [|done]. simpl. f_equal. apply link_durable. by eapply Hset.
    + intros m. by rewrite Hn.
    + by rewrite Hm2.
    + by rewrite Hu2.
    + intros [[Hu Ht] _]%Hti. split; [|intros m; by rewrite Hn]. split; [by rewrite Hu2|].
      intros n e Hst. rewrite He, lookup_fmap. intros (e0 & He0 & ->)%fmap_Some.
      destruct (Ht _ _ Hst He0) as (d0 & -> & ?). by eexists.
Qed.

Lemma rename_moved b b1 b2 i s st d i' s' rec' : staging st -> quiet b b1 -> settled b ->
  bs_entries b1 !! st = Some (EDir d) -> whole (bs_umask b) i' s' rec' d ->
  sha256_hex i' = sha256_hex i -> sha256_hex s' = sha256_hex s ->
  (Forall honest (bs_calls b) -> i' = i /\ s' = s /\ rec' = str_bytes (render (record_of now i s))) ->
  rename_dir st P b1 = (Finished (Ok tt), b2) -> moved b b2 i s.
Proof.
  intros Hst Hq Hset Hd Hw Hi Hs Hh Hr. eapply rename_cases in Hr as (Hf & Hb & Hmo & Hum & He); [|done..].
  assert (P <> st) as Hne by (intros <-; by apply canonical_not_staging). split.
  - unfold free in *. by rewrite (q_entries _ _ Hq) in Hf by apply canonical_not_staging.
  - eexists. rewrite He, lookup_insert_eq. split; [done|]. split; [|by rewrite Hb].
    exists i', s', rec'. destruct Hw. split_and!; [by split|done..|naive_solver].
  - intros n Hn Hnp. rewrite He, lookup_insert_ne, lookup_delete_ne by (by intros <-). by apply (q_entries _ _ Hq).
  - intros m. rewrite Hb. intros [= <-]. apply (q_entries _ _ Hq).
  - rewrite Hmo. apply (q_mode _ _ Hq).
  - by rewrite Hum, (q_umask _ _ Hq).
  - intros [Hu Ht]%(q_tidy _ _ Hq). split; [|intros m; rewrite Hb; intros [= <-]; split; simpl; [by rewrite Hum|exact Ht]].
    split; [by rewrite Hum|]. intros n e Hn. rewrite He, lookup_insert_ne by (intros <-; by apply canonical_not_staging).
    intros [_ ?]%lookup_delete_Some. by eapply Ht.
Qed.

Lemma rename_fails st b : (forall a, (rename_dir st P b).1 <> Finished (Ok a)) -> quiet b (rename_dir st P b).2.
Proof.
  unfold rename_dir, perform. pose proof (quiet_next b) as Qn. destruct (next_call b) as [c b1]. simpl in Qn.
  destruct c; simpl; auto; destruct (_ ≫= _); simpl; auto; intros Hn; by destruct (Hn tt eq_refl).
Qed.

(** The branch that removes the staging directory. *)
Lemma cleanup_quiet {A} st (r : Outcome (result MigrationError unit)) (k : IO (result MigrationError A)) b b4 o b1 :
  staging st -> quiet b b4 -> (forall x, r <> Finished (Ok x)) ->
  match r with
  | Finished (Ok _) => k b4
  | Finished (Err e) => (remove_dir_all st ≫= fun _ => mret (Err e)) b4
  | Died => (Died, b4)
  end = (o, b1) -> quiet b b1 /\ forall x, o <> Finished (Ok x).
Proof.
  intros Hst Hq Hno. destruct r as [[x|e]|]; [by destruct (Hno x)| |by intros [= <- <-]].
  pose proof (steady_remove_dir_all st Hst b4) as Qr. unfold mbind, io_bind.
  destruct (remove_dir_all st b4) as [[a|] b6]; intros [= <- <-]; simpl in Qr; (split; [by etrans|done]).
Qed.

Lemma steady_remove_stale_staging : steady (remove_stale_staging root).
Proof. apply steady_try_io; [apply steady_inquire|intros; apply steady_remove_stale]. Qed.

Lemma carry_over_cases i s b o b1 : settled b -> carry_over root pid now i s b = (o, b1) ->
  (quiet b b1 /\ forall x, o <> Finished (Ok x)) \/
  (moved b b1 i s /\ forall x, o = Finished (Ok x) -> x = Migrated (record_of now i s) /\ bs_before b1 = None).
Proof.
  intros Hset. unfold carry_over. fold (record_of now i s). set (st := staging_name pid now).
  pose proof staging_staging_name as Hst. fold st in Hst.
  intros [(? & b2 & H1 & H)|(-> & _ & ?)]%try_io_cases; [|left; split; [apply steady_create_base|done]].
  assert (quiet b b2) as Q2 by (pose proof (steady_create_base b) as Q; by rewrite H1 in Q). clear H1.
  apply try_m_cases in H as [(? & b3 & H1 & H)|(-> & _ & ?)];
    [|left; split; [etrans; [exact Q2|apply steady_remove_stale_staging]|done]].
  assert (quiet b b3) as Q3 by (etrans; [exact Q2|]; pose proof (steady_remove_stale_staging b2) as Q; by rewrite H1 in Q).
  clear H1 x x0. unfold mbind at 1, io_bind at 1 in H.
  destruct (try_m _ _ b3) as [r b4] eqn:Hst4.
  apply try_m_cases in Hst4 as [([] & b5 & H5 & H4)|(-> & _ & Hno)].
  2: { left. eapply (cleanup_quiet st r); [done| |done|by destruct r as [[]|]].
       etrans; [exact Q3|by apply steady_stage]. }
  pose proof (steady_stage root st i s (record_of now i s) Hst b3) as Q5. rewrite H5 in Q5. simpl in Q5.
  assert (quiet b b5) as Qb5 by (by etrans).
  apply stage_ok in H5 as (d & i' & s' & rec' & Hd & Hw & Hi & Hs & Hh); [|done]. rewrite (q_umask _ _ Q3) in Hw.
  assert (Hh' : Forall honest (bs_calls b) -> i' = i /\ s' = s /\ rec' = str_bytes (render (record_of now i s)))
    by (intros ?; by apply Hh, (honest_quiet b b3)).
  apply try_io_cases in H4 as [([] & b6 & H6 & [= <- <-])|(-> & Hnr & Hno)].
  2: { left. eapply (cleanup_quiet st r); [done| |done|by destruct r as [[]|]]. etrans; [exact Qb5|by apply rename_fails]. }
  assert (moved b b6 i s) as Hmv by (by eapply rename_moved).
  right. apply try_io_cases in H as [([] & b7 & H7 & [= <- <-])|(-> & _ & Hno)].
  - split; [by eapply moved_sync, sync_base_cases|]. intros x [= <-]. split; [done|]. by eapply sync_base_ok.
  - split; [|naive_solver]. destruct (sync_base b6) as [o6 b7] eqn:H6'. by eapply moved_sync, sync_base_cases.
Qed.

Lemma quiet_settled b b' : quiet b b' -> settled b -> settled b'.
Proof.
  intros Hq [Hb He]. split; [by rewrite (q_before _ _ Hq)|]. intros n e Hn. rewrite (q_entries _ _ Hq) by done. by apply He.
Qed.

Lemma quiet_moved b b' b1 i s : quiet b b' -> moved b' b1 i s -> moved b b1 i s.
Proof.
  intros Hq [Hf (d & Hd & (i' & s' & rec' & Hw & Hi & Hs & Hh) & Hl) Hr Hb Hmo Hum Hti]. split.
  - unfold free in *. by rewrite (q_entries _ _ Hq) in Hf by apply canonical_not_staging.
  - exists d. split_and!; [done| |done]. exists i', s', rec'. rewrite (q_umask _ _ Hq) in Hw. split_and!; [done..|].
    intros ?. by apply Hh, (honest_quiet b b').
  - intros n Hn Hp. rewrite Hr by done. by apply (q_entries _ _ Hq).
  - intros m Hm n Hn. rewrite (Hb m Hm n Hn). by apply (q_entries _ _ Hq).
  - intros Hm. pose proof (q_mode _ _ Hq Hm) as Hm'. rewrite Hmo; [done|]. by rewrite Hm'.
  - by rewrite Hum, (q_umask _ _ Hq).
  - intros Ht. by apply Hti, (q_tidy _ _ Hq).
Qed.

(** ** Looking *)

Lemma same_entry_at b b' n : same b b' -> entry_at b' n = entry_at b n.
Proof. intros Hs. unfold entry_at. by rewrite (s_mode _ _ Hs), (s_entries _ _ Hs). Qed.

Lemma same_file_at b b' d n : same b b' -> file_at b' d n = file_at b d n.
Proof. intros Hs. unfold file_at, dir_at. by rewrite (same_entry_at b b'). Qed.

(** Absence is never the invention of a failing call. *)
Lemma inquire_absent {A} (f : Base -> result IoError A) b b' :
  inquire f b = (Finished (Err IoNotFound), b') -> same b b' /\ f b' = Err IoNotFound.
Proof.
  unfold inquire, perform. pose proof (same_next b) as Hs. destruct (next_call b) as [[|[] n|d|n] b1]; simpl in *;
    intros; by simplify_eq.
Qed.

Lemma holds_any_ok dir names b r b' : holds_any root dir names b = (Finished (Ok r), b') -> same b b' /\
  if r then Exists (fun n => is_ok (file_at b dir n) = true) names
  else Forall (fun n => file_at b dir n = Err IoNotFound) names.
Proof.
  revert b. induction names as [|n names IH]; intros b; [by intros [= <- <-]|].
  cbn [holds_any]. unfold mbind, io_bind. destruct (symlink_metadata_in dir n b) as [[[f|e]|] b1] eqn:Hm; [| |done].
  - intros [= <- <-]. apply inquire_ok in Hm as [Hs Hf]. split; [done|]. left.
    rewrite <- (same_file_at b b1) by done. by rewrite Hf.
  - destruct e; try done. apply inquire_absent in Hm as [Hs Hf]. rewrite (same_file_at b b1) in Hf by done.
    intros [Hs1 Hr]%IH. split; [destruct Hs, Hs1; split; congruence|].
    destruct r; [right; eapply Exists_impl; [exact Hr|]|constructor; [done|]; eapply Forall_impl; [exact Hr|]];
      intros k; simpl; by rewrite (same_file_at b b1).
Qed.

(** What the classification of an older directory says of its two files. *)
Lemma probe_not_created d : probe_identity (dir_view d) = NotCreated ->
  md_files d !! STATE_FILE = None /\ md_files d !! IDENTITY_FILE = None.
Proof.
  unfold probe_identity, classify. simpl.
  destruct (unix_read_state (dir_view d)) as [[st|]|e] eqn:Hst; [..|by destruct e].
  - destruct (unix_read_secret _ _) as [[]|[]]; repeat case_match; intros; by simplify_eq.
  - destruct (unix_read_secret _ _) as [[se|]|[]] eqn:Hse; try done. intros _.
    unfold unix_read_state, unix_read_secret, try_exists, read_existing, fs_read, require_private_mode in *. simpl in *.
    destruct (owner_x (md_mode d)); [|done]. simpl in *.
    assert (forall k : str, (bool_decide (is_Some (((fun f => {| f_data := mf_data f; f_mode := mf_mode f |}) <$> md_files d) !! k)) = false
      -> md_files d !! k = None)) as Hk.
    { intros k Hk. apply bool_decide_eq_false in Hk. rewrite lookup_fmap in Hk. destruct (md_files d !! k); [|done].
      destruct Hk. by eexists. }
    split; apply Hk; [destruct (bool_decide _) eqn:Hb in Hst|destruct (bool_decide _) eqn:Hb in Hse]; try done; simpl in *;
      inv_result; by repeat case_match; simplify_eq.
Qed.

(** The older directory: private, and holding a usable identity. *)
Record legacy (b : Base) (d : MDir) : Prop := {
  lg_dir : exists e, entry_at b LEGACY_DIR_NAME = Ok e /\ follow e = Ok (EDir d);
  lg_private : N.land (md_mode d) 63 = 0;
  lg_probe : probe_identity (dir_view d) = Available }.

(** No identity anywhere: neither file in the canonical directory, and the older
    directory absent or private and without either file. *)
Definition unclaimed (b : Base) : Prop :=
  Forall (fun n => file_at b P n = Err IoNotFound) [IDENTITY_FILE; STATE_FILE] /\
  (entry_at b LEGACY_DIR_NAME = Err IoNotFound \/
   exists e d, entry_at b LEGACY_DIR_NAME = Ok e /\ follow e = Ok (EDir d) /\ N.land (md_mode d) 63 = 0 /\
     md_files d !! STATE_FILE = None /\ md_files d !! IDENTITY_FILE = None).

Definition held (b : Base) : Prop := Exists (fun n => is_ok (file_at b P n) = true) [IDENTITY_FILE; STATE_FILE].

(** What a run did. *)
Inductive ran (b : Base) : Outcome (result MigrationError DataDirOrigin) -> Base -> Prop :=
| ran_stopped o b1 : quiet b b1 -> (forall x, o <> Finished (Ok x)) -> ran b o b1
| ran_existing r b1 : quiet b b1 -> held b -> ran b (Finished (Ok (Existing r))) b1
| ran_nothing b1 : quiet b b1 -> unclaimed b -> ran b (Finished (Ok NoLegacyState)) b1
| ran_moved d i s o b1 : legacy b d -> (mf_data <$> md_files d !! IDENTITY_FILE) = Some i ->
    (mf_data <$> md_files d !! STATE_FILE) = Some s -> moved b b1 i s ->
    (forall x, o = Finished (Ok x) -> x = Migrated (record_of now i s) /\ bs_before b1 = None) -> ran b o b1.

Lemma same_trans a b c : same a b -> same b c -> same a c.
Proof. intros [] []. split; congruence. Qed.

Lemma read_legacy_ran b b1 d o b2 : settled b -> same b b1 -> quiet b b1 ->
  Forall (fun n => file_at b P n = Err IoNotFound) [IDENTITY_FILE; STATE_FILE] ->
  (exists e, entry_at b LEGACY_DIR_NAME = Ok e /\ follow e = Ok (EDir d)) -> N.land (md_mode d) 63 = 0 ->
  read_legacy root pid now b1 = (o, b2) -> ran b o b2.
Proof.
  intros Hset Hs1 Hq1 Hno (e & He & Hfo) Hpriv. unfold read_legacy, probe, mbind at 1 2, io_bind at 1 2.
  match goal with |- context [inquire ?f b1] => destruct (inquire f b1) as [[r|] b3] eqn:Hp;
    [|intros [= <- <-]; apply ran_stopped; [|done]; etrans; [exact Hq1|]; pose proof (steady_inquire f b1) as Q; by rewrite Hp in Q];
    assert (quiet b b3) as Q3 by (etrans; [exact Hq1|]; pose proof (steady_inquire f b1) as Q; by rewrite Hp in Q) end.
  destruct r as [st|e0]; [|by destruct e0; intros [= <- <-]; apply ran_stopped].
  apply inquire_ok in Hp as [Hs3 Hpr]. assert (same b b3) as Sb3 by (by eapply same_trans).
  rewrite (same_entry_at b b3), He in Hpr by done. simpl in Hpr. rewrite Hfo in Hpr. simpl in Hpr.
  destruct (irregular d STATE_FILE || _); [done|]. injection Hpr as <-. unfold mret at 1, io_ret at 1.
  destruct (probe_identity (dir_view d)) eqn:Hpi; try (intros [= <- <-]; by apply ran_stopped).
  - intros [= <- <-]. apply ran_nothing; [done|]. split; [done|]. right. exists e, d.
    destruct (probe_not_created _ Hpi). by split_and!.
  - pose proof (steady_inquire (A := bytes)) as Hst. 
    intros [(i & b4 & H4 & H)|(-> & _ & ?)]%try_io_cases; [|apply ran_stopped; [etrans; [exact Q3|apply Hst]|done]].
    assert (quiet b b4) as Q4 by (etrans; [exact Q3|]; match type of H4 with ?c b3 = _ => pose proof (Hst _ b3 : quiet b3 (c b3).2) as Q end; by rewrite H4 in Q).
    apply try_io_cases in H as [(s & b5 & H5 & H)|(-> & _ & ?)]; [|apply ran_stopped; [etrans; [exact Q4|apply Hst]|done]].
    assert (quiet b b5) as Q5 by (etrans; [exact Q4|]; match type of H5 with ?c b4 = _ => pose proof (Hst _ b4 : quiet b4 (c b4).2) as Q end; by rewrite H5 in Q).
    apply read_file_ok in H4 as (S4 & e4 & d4 & f4 & He4 & Hf4 & Hi & <-).
    apply read_file_ok in H5 as (S5 & e5 & d5 & f5 & He5 & Hf5 & Hs & <-).
    pose proof (entry_at_ok _ _ _ He) as He'. rewrite (s_entries _ _ Sb3) in He4. rewrite (s_entries _ _ S4), (s_entries _ _ Sb3) in He5. simplify_eq.
    apply carry_over_cases in H as [[Q ?]|[Hm Hx]]; [apply ran_stopped; [by etrans|done]| |by eapply quiet_settled].
    rewrite Hfo in Hf4, Hf5. injection Hf4 as <-. injection Hf5 as <-.
    eapply (ran_moved _ d); [split; [by eexists|done..]|by rewrite Hi|by rewrite Hs|by eapply quiet_moved|done].
Qed.

Lemma migrate_ran b o b1 : settled b -> migrate_data_dir root pid now b = (o, b1) -> ran b o b1.
Proof.
  intros Hset [(h & b2 & H2 & H)|(-> & _ & ?)]%try_m_cases; [|apply ran_stopped; [apply steady_holds|done]].
  pose proof (steady_holds root CANONICAL_DIR_NAME [IDENTITY_FILE; STATE_FILE] b) as Q2.
  unfold holds_identity in *. rewrite H2 in Q2. simpl in Q2. apply holds_any_ok in H2 as [S2 Hh]. destruct h.
  - pose proof (steady_inquire (A := bytes)) as Hst. unfold read_from, mbind, io_bind in H.
    destruct (read_file _ _ b2) as [[r|] b3] eqn:Hr; unfold read_file in Hr;
      match type of Hr with inquire ?f b2 = _ => pose proof (Hst f b2) as Q3; rewrite Hr in Q3 end; simpl in Q3;
      injection H as <- <-; [apply ran_existing|apply ran_stopped]; try done; by etrans.
  - unfold mbind, io_bind in H. destruct (symlink_metadata LEGACY_DIR_NAME b2) as [[[e|e]|] b3] eqn:Hm;
      pose proof (steady_inquire (fun b => entry_at b LEGACY_DIR_NAME) b2) as Q3; unfold symlink_metadata in Hm; rewrite Hm in Q3; simpl in Q3;
      assert (quiet b b3) as Qb3 by (by etrans).
    + apply inquire_ok in Hm as [S3 He]. assert (same b b3) as Sb3 by (by eapply same_trans).
      rewrite (same_entry_at b b3) in He by done. unfold examine_legacy in H.
      apply try_io_cases in H as [(meta & b4 & H4 & H)|(-> & _ & ?)]; [|apply ran_stopped; [etrans; [exact Qb3|apply steady_inquire]|done]].
      unfold metadata in H4. match type of H4 with inquire ?f b3 = _ => pose proof (steady_inquire f b3) as Q4; rewrite H4 in Q4 end. simpl in Q4.
      apply inquire_ok in H4 as [S4 Hfo]. assert (same b b4) as Sb4 by (by eapply same_trans).
      rewrite (same_entry_at b b4), He in Hfo by done. simpl in Hfo. assert (quiet b b4) by (by etrans).
      destruct meta as [d| |]; [|by injection H as <- <-; apply ran_stopped..].
      destruct (negb _) eqn:Hmode; [by injection H as <- <-; apply ran_stopped|].
      eapply read_legacy_ran; [done..|by exists e| |done]. apply negb_false_iff, N.eqb_eq in Hmode. by rewrite <- N.land_assoc in Hmode.
    + destruct e; try (injection H as <- <-; by apply ran_stopped). apply inquire_absent in Hm as [S3 He].
      rewrite (same_entry_at b b3) in He by (by eapply same_trans). injection H as <- <-. apply ran_nothing; [done|]. by split; [|left].
    + injection H as <- <-. by apply ran_stopped.
Qed.

(** ** After a restart *)

Lemma lose_dir_files l n d : md_synced d = true -> map_Forall (fun _ f => mf_synced f = true) (md_files d) ->
  lose_dir l n d = {| md_mode := md_mode d; md_files := md_files d; md_synced := true; md_linked := true |}.
Proof.
  intros Hs Hf. unfold lose_dir. f_equal. apply map_eq. intros k. rewrite map_lookup_imap, Hs. simpl.
  destruct (md_files d !! k) as [f|] eqn:Hk; [|done]. simpl. f_equal. apply Hf in Hk. destruct f; simpl in *. by subst.
Qed.

Lemma lose_durable l n e : durable_entry e -> lose_entry l n e = Some e.
Proof.
  destruct e as [d| |]; [|done..]. intros (Hl & Hs & Hf). simpl. rewrite Hl, lose_dir_files by done. destruct d; simpl in *. by subst.
Qed.

(** An entry that is on the disk comes back, wherever the directory is read from. *)
Lemma restart_entry b b1 loss calls n : settled b -> ~ staging n ->
  bs_entries b1 !! n = bs_entries b !! n ->
  (forall m, bs_before b1 = Some m -> m !! n = bs_entries b !! n) ->
  bs_entries (restart loss calls b1) !! n = bs_entries b !! n.
Proof.
  intros [_ Hset] Hn He Hb. unfold restart. simpl. destruct loss as [l|]; [|done]. rewrite map_lookup_imap.
  assert ((if ls_undo l then default (bs_entries b1) (bs_before b1) else bs_entries b1) !! n = bs_entries b !! n) as ->.
  { destruct (ls_undo l); [|done]. destruct (bs_before b1) as [m|]; [by apply Hb|done]. }
  destruct (bs_entries b !! n) as [e|] eqn:Hbn; [|done]. simpl. by eapply lose_durable, Hset.
Qed.

Lemma whole_synced u i s r d : whole u i s r d -> map_Forall (fun _ f => mf_synced f = true) (md_files d).
Proof.
  intros [_ -> _]. apply map_Forall_insert_2; [done|]. apply map_Forall_insert_2; [done|]. by apply map_Forall_singleton.
Qed.

(** A whole copy that comes back is whole. *)
Lemma copied_lose b i s d l : copied b i s d -> copied b i s (lose_dir l P d).
Proof.
  intros (i' & s' & rec' & Hw & Hc). exists i', s', rec'. split; [|done].
  rewrite lose_dir_files; [|by destruct Hw|by eapply whole_synced]. by destruct Hw.
Qed.

Definition carried (b b2 : Base) : Prop :=
  exists d0 i s d, legacy b d0 /\ (mf_data <$> md_files d0 !! IDENTITY_FILE) = Some i /\
    (mf_data <$> md_files d0 !! STATE_FILE) = Some s /\ bs_entries b2 !! P = Some (EDir d) /\ copied b i s d.

Lemma restart_moved b b1 i s loss calls : settled b -> moved b b1 i s ->
  let e := bs_entries (restart loss calls b1) !! P in
  (exists d, e = Some (EDir d) /\ copied b i s d) \/ (bs_before b1 <> None /\ (e = None \/ e = bs_entries b !! P)).
Proof.
  intros Hset [Hf (d & Hd & Hc & Hl) Hr Hb _ _ _]. simpl. destruct loss as [l|]; [|left; eauto].
  destruct (ls_undo l && bool_decide (is_Some (bs_before b1))) eqn:Hu.
  - apply andb_true_iff in Hu as [Hu [m Hm]%bool_decide_eq_true]. right. split; [by rewrite Hm|]. right.
    rewrite Hu, Hm. simpl. rewrite map_lookup_imap, (Hb m) by (done || apply canonical_not_staging).
    destruct (bs_entries b !! P) as [e|] eqn:Hbn; [|done]. simpl. eapply lose_durable, Hset; [apply canonical_not_staging|done].
  - assert ((if ls_undo l then default (bs_entries b1) (bs_before b1) else bs_entries b1) = bs_entries b1) as ->.
    { destruct (ls_undo l); [|done]. simpl in Hu. apply bool_decide_eq_false in Hu. by destruct (bs_before b1); [destruct Hu; eexists|]. }
    rewrite map_lookup_imap, Hd. simpl. destruct (negb (md_linked d) && ls_vanish l P) eqn:Hv.
    + right. split; [|by left]. intros ?. rewrite Hl in Hv by done. done.
    + left. eexists. split; [done|]. by apply copied_lose.
Qed.

(** C36: the migration can be stopped anywhere.  Take any base directory whose
    contents are on the disk; let any of the migration's system calls fail, let
    any write report success for data it did not store, let the process die
    inside any call, and let the power then fail and take whatever had not been
    synced.  After the restart every entry other than the canonical directory
    and staging directories, the older data directory among them, is what it
    was; the canonical directory is what it was, or is gone where there was none
    or an empty one, or is a whole private copy of a usable older identity, its
    two files having the digests of their originals (and their bytes, if every
    call stored what it was given).  If the migration said it migrated, that
    copy is there; if it said there is nothing to migrate, which is what lets a
    new identity be made, then neither directory held either file. *)
Theorem migration_crash_safe b o b1 loss calls :
  settled b -> migrate_data_dir root pid now b = (o, b1) ->
  let b2 := restart loss calls b1 in
  (forall n, ~ staging n -> n <> P -> bs_entries b2 !! n = bs_entries b !! n) /\
  (bs_entries b2 !! P = bs_entries b !! P \/ free b /\ (bs_entries b2 !! P = None \/ carried b b2)) /\
  match o with
  | Finished (Ok (Migrated _)) => carried b b2
  | Finished (Ok NoLegacyState) => unclaimed b
  | Finished (Ok (Existing _)) => held b
  | _ => True
  end.
Proof.
  intros Hset Hr b2. subst b2. apply migrate_ran in Hr; [|done].
  assert (forall b1, quiet b b1 -> forall n, ~ staging n -> bs_entries (restart loss calls b1) !! n = bs_entries b !! n) as Hq.
  { intros b1' Hq n Hn. apply restart_entry; [done..|by apply Hq|]. intros m. rewrite (q_before _ _ Hq).
    destruct Hset as [-> _]. done. }
  destruct Hr as [o b1 Q Hno|r b1 Q Hh|b1 Q Hu|d i s o b1 Hlg Hi Hs Hm Hx];
    [split_and!; auto using canonical_not_staging; by (destruct o as [[x|]|]; [destruct (Hno x eq_refl)|..])|
     split_and!; auto using canonical_not_staging..|].
  pose proof (restart_moved b b1 i s loss calls Hset Hm) as HP. cbv zeta in HP.
  split; [|split].
  - intros n Hn HnP. apply restart_entry; [done..| |]; [by apply Hm|]. intros m Hb. by eapply (mv_before _ _ _ _ Hm).
  - destruct HP as [(d' & He & Hc)|[_ [He|He]]]; [|right; split; [apply Hm|by left]|by left].
    right. split; [apply Hm|]. right. by exists d, i, s, d'.
  - destruct o as [[x|]|]; [|done..]. destruct (Hx x eq_refl) as [-> Hb].
    destruct HP as [(d' & He & Hc)|[Hnb _]]; [|done]. by exists d, i, s, d'.
Qed.

(** ** An undisturbed run *)

(** No call fails, and this process may use the base directory. *)
Definition calm (b : Base) : Prop := bs_calls b = [] /\ exists m, bs_mode b = Some m /\ own_rwx m.

Lemma calm_quiet b b' : quiet b b' -> calm b -> calm b'.
Proof.
  intros Hq [Hc (m & Hm & Ho)]. split.
  - destruct (q_calls _ _ Hq) as [used Hu]. rewrite Hc in Hu. symmetry in Hu. by apply app_nil in Hu as [_ ?].
  - exists m. split; [|done]. by rewrite (q_mode _ _ Hq), Hm.
Qed.

Lemma perform_calm {A} (act : option bytes -> Base -> result IoError A * Base) part b : calm b ->
  perform act part b = let '(r, b') := act None b in (Finished r, b').
Proof. intros [Hc _]. unfold perform, next_call. by rewrite Hc. Qed.

Lemma inquire_calm {A} (f : Base -> result IoError A) b : calm b -> inquire f b = (Finished (f b), b).
Proof. intros Hc. unfold inquire. by rewrite perform_calm. Qed.

Lemma modify_calm f part b m : calm b -> f None b = Ok m -> modify f part b = (Finished (Ok tt), with_entries b m).
Proof. intros Hc Hf. unfold modify. rewrite perform_calm by done. by rewrite Hf. Qed.

Lemma try_io_done {A B} (c : IO (result IoError A)) f (k : A -> IO (result MigrationError B)) b a b1 :
  c b = (Finished (Ok a), b1) -> try_io c f k b = k a b1.
Proof. intros Hc. unfold try_io, mbind, io_bind. by rewrite Hc. Qed.

Lemma try_m_done {A B} (c : IO (result MigrationError A)) (k : A -> IO (result MigrationError B)) b a b1 :
  c b = (Finished (Ok a), b1) -> try_m c k b = k a b1.
Proof. intros Hc. unfold try_m, mbind, io_bind. by rewrite Hc. Qed.

Lemma entry_at_calm b n e : calm b -> bs_entries b !! n = Some e -> entry_at b n = Ok e.
Proof. intros [_ (m & Hm & _ & _ & Hx)] He. unfold entry_at. by rewrite Hm, Hx, He. Qed.

Lemma dir_at_calm b n d : calm b -> bs_entries b !! n = Some (EDir d) -> owner_x (md_mode d) = true -> dir_at b n = Ok d.
Proof. intros Hc He Hx. unfold dir_at. rewrite (entry_at_calm b n (EDir d)) by done. simpl. by rewrite Hx. Qed.

Lemma in_dir_calm b n d d' f : calm b -> bs_entries b !! n = Some (EDir d) -> own_rwx (md_mode d) -> f d = Ok d' ->
  in_dir b n f = Ok (<[n := EDir d']> (bs_entries b)).
Proof.
  intros Hc He (_ & _ & Hx) Hf. unfold in_dir. rewrite (entry_at_calm b n (EDir d)) by done. simpl.
  rewrite (dir_at_calm b n d) by done. simpl. by rewrite Hf.
Qed.

Lemma base_writable_calm b : calm b -> base_writable b = Ok tt.
Proof. intros [_ (m & Hm & _ & Hw & Hx)]. unfold base_writable. by rewrite Hm, Hw, Hx. Qed.

(** Every leftover of an earlier attempt goes. *)
Lemma remove_stale_done names b : calm b -> tidy b -> exists b', remove_stale root names b = (Finished (Ok tt), b') /\ quiet b b' /\
  (forall n, n ∈ names -> staging n -> bs_entries b' !! n = None) /\
  (forall n, bs_entries b !! n = None -> bs_entries b' !! n = None).
Proof.
  revert b. induction names as [|n names IH]; intros b Hc Ht; [exists b; split_and!; set_solver|].
  cbn [remove_stale]. destruct (starts_with STAGING_PREFIX n) eqn:Hn; cbn [negb].
  2: { destruct (IH b Hc Ht) as (b' & Hr & Hq & Hg & Hk). exists b'. split_and!; [done..| |done].
       intros k [->|Hin]%elem_of_cons Hs; [|by apply Hg]. unfold staging in Hs. congruence. }
  unfold mbind, io_bind. unfold symlink_metadata. rewrite inquire_calm by done.
  destruct (bs_entries b !! n) as [e|] eqn:He.
  - destruct Ht as [Hu Ht]. destruct (Ht n e Hn He) as (d & -> & Hr & Hw & Hx). rewrite (entry_at_calm b n (EDir d)) by done.
    assert (remove_dir_all n b = (Finished (Ok tt), with_entries b (delete n (bs_entries b)))) as Hrm.
    { apply modify_calm; [done|]. rewrite (entry_at_calm b n (EDir d)) by done. simpl. rewrite base_writable_calm by done.
      simpl. rewrite Hr, Hw, Hx. simpl. by rewrite orb_true_r. }
    pose proof (steady_remove_dir_all n Hn b) as Q. rewrite Hrm in Q. simpl in Q.
    erewrite try_io_done by exact Hrm.
    destruct (IH (with_entries b (delete n (bs_entries b)))) as (b' & Hr' & Hq & Hg & Hk);
      [by eapply calm_quiet|by apply (q_tidy _ _ Q)|].
    exists b'. split; [done|]. split; [by etrans|]. split.
    + intros k [->|Hin]%elem_of_cons Hs; [|by apply Hg]. apply Hk. simpl. by rewrite lookup_delete_eq.
    + intros k Hkn. apply Hk. simpl. apply lookup_delete_None. by right.
  - destruct (IH b Hc Ht) as (b' & Hr & Hq & Hg & Hk). exists b'.
    assert (entry_at b n = Err IoNotFound) as ->.
    { destruct Hc as [_ (m & Hm & _ & _ & Hx)]. unfold entry_at. by rewrite Hm, Hx, He. }
    split_and!; [done..| |done]. intros k [->|Hin]%elem_of_cons Hs; [by apply Hk|by apply Hg].
Qed.

Lemma write_new_done dir file data b d : calm b -> staging dir -> bs_entries b !! dir = Some (EDir d) -> own_rwx (md_mode d) ->
  md_files d !! file = None -> exists b', write_new root dir file data b = (Finished (Ok tt), b').
Proof.
  intros Hc Hs Hd Ho Hf. unfold write_new.
  assert (exists b1 d1, create_new_in dir file FILE_MODE b = (Finished (Ok tt), b1) /\ bs_entries b1 !! dir = Some (EDir d1) /\
    md_mode d1 = md_mode d) as (b1 & d1 & H1 & Hd1 & Hm1).
  { eexists _, _. split; [apply modify_calm; [done|]; eapply in_dir_calm; [done..|]; rewrite Hf; by destruct Ho as (_ & -> & _)|].
    simpl. by rewrite lookup_insert_eq. }
  rewrite (try_io_done _ _ _ _ _ _ H1).
  pose proof (steady_create_new_in dir file FILE_MODE Hs b) as Q1. rewrite H1 in Q1. assert (calm b1) as Hc1 by (by eapply calm_quiet).
  rewrite <- Hm1 in Ho. assert (exists b2 d2, write_in dir file data b1 = (Finished (Ok tt), b2) /\ bs_entries b2 !! dir = Some (EDir d2) /\
    md_mode d2 = md_mode d1) as (b2 & d2 & H2 & Hd2 & Hm2).
  { eexists _, _. split; [apply modify_calm; [done|]; by eapply in_dir_calm|]. simpl. by rewrite lookup_insert_eq. }
  rewrite (try_io_done _ _ _ _ _ _ H2).
  pose proof (steady_write_in dir file data Hs b1) as Q2. rewrite H2 in Q2. assert (calm b2) as Hc2 by (by eapply calm_quiet).
  rewrite <- Hm2 in Ho. eexists. erewrite try_io_done; [done|]. apply modify_calm; [done|]. by eapply in_dir_calm.
Qed.

Lemma read_back_done dir file b d data : calm b -> bs_entries b !! dir = Some (EDir d) -> owner_x (md_mode d) = true ->
  umask_ok (bs_umask b) -> md_files d !! file = Some (written data (bs_umask b)) ->
  read_back root dir file (sha256_hex data) b = (Finished (Ok tt), b).
Proof.
  intros Hc Hd Hx (_ & _ & H8) Hf. unfold read_back, read_file. erewrite try_io_done.
  2: { rewrite inquire_calm by done. unfold file_at. rewrite (dir_at_calm b dir d) by done. simpl. rewrite Hf. simpl.
       assert (owner_r (N.ldiff FILE_MODE (bs_umask b)) = true) as ->; [|done].
       unfold owner_r. rewrite N.ldiff_spec, H8. done. }
  simpl. by rewrite eqb_refl.
Qed.

(** The new directory, made and private. *)
Lemma mkdir_done st b : calm b -> staging st -> bs_entries b !! st = None -> exists b1, mkdir st DIR_MODE b = (Finished (Ok tt), b1) /\
  exists b2, set_dir_mode st DIR_MODE b1 = (Finished (Ok tt), b2) /\
    bs_entries b2 !! st = Some (EDir {| md_mode := DIR_MODE; md_files := ∅; md_synced := true; md_linked := false |}).
Proof.
  intros Hc Hs Hf. eexists. split; [apply modify_calm; [done|]; rewrite base_writable_calm, Hf by done; reflexivity|].
  match goal with |- context [set_dir_mode st DIR_MODE ?x] => assert (calm x) as Hc1 by (by destruct Hc); set (b1 := x) in * end.
  assert (bs_entries b1 !! st = Some (EDir {| md_mode := N.ldiff DIR_MODE (bs_umask b); md_files := ∅; md_synced := true; md_linked := false |})) as He
    by (subst b1; simpl; by rewrite lookup_insert_eq).
  eexists. split; [apply modify_calm; [done|]; erewrite entry_at_calm by done; reflexivity|]. simpl. by rewrite lookup_insert_eq.
Qed.

Lemma stage_done st i s t b : calm b -> umask_ok (bs_umask b) -> staging st -> bs_entries b !! st = None ->
  exists b', stage root st i s (record_of t i s) b = (Finished (Ok tt), b').
Proof.
  intros Hc Hu Hst Hf. unfold stage.
  assert (forall A (c : IO A) o x y, steady c -> calm x -> c x = (o, y) -> calm y /\ bs_umask y = bs_umask x) as Hstep.
  { intros A c o x y Hsc Hx Hcx. specialize (Hsc x). rewrite Hcx in Hsc. simpl in Hsc. split; [by eapply calm_quiet|by apply Hsc]. }
  destruct (mkdir_done st b Hc Hst Hf) as (b1 & H1 & b2 & H2 & E2).
  rewrite (try_io_done _ _ _ _ _ _ H1), (try_io_done _ _ _ _ _ _ H2).
  destruct (Hstep _ _ _ _ _ (steady_mkdir st Hst) Hc H1) as [Hc1 U1].
  destruct (Hstep _ _ _ _ _ (steady_set_dir_mode st Hst) Hc1 H2) as [Hc2 U2].
  assert (forall x, calm x -> Forall honest (bs_calls x)) as Hho by (intros x [-> _]; constructor).
  destruct (write_new_done st IDENTITY_FILE i b2 _ Hc2 Hst E2) as [b3 H3]; [done..|]. rewrite (try_m_done _ _ _ _ _ H3).
  destruct (Hstep _ _ _ _ _ (steady_write_new root st _ _ Hst) Hc2 H3) as [Hc3 U3].
  destruct (write_new_ok _ _ _ _ _ _ Hst E2 H3) as (ci & E3 & _ & Ci). rewrite (Ci (Hho _ Hc2)) in E3.
  destruct (write_new_done st STATE_FILE s b3 _ Hc3 Hst E3) as [b4 H4]; [done..|]. rewrite (try_m_done _ _ _ _ _ H4).
  destruct (Hstep _ _ _ _ _ (steady_write_new root st _ _ Hst) Hc3 H4) as [Hc4 U4].
  destruct (write_new_ok _ _ _ _ _ _ Hst E3 H4) as (cs & E4 & _ & Cs). rewrite (Cs (Hho _ Hc3)) in E4.
  destruct (write_new_done st MIGRATED_FROM_FILE (str_bytes (render (record_of t i s))) b4 _ Hc4 Hst E4) as [b5 H5]; [done..|].
  rewrite (try_m_done _ _ _ _ _ H5).
  destruct (Hstep _ _ _ _ _ (steady_write_new root st _ _ Hst) Hc4 H5) as [Hc5 U5].
  destruct (write_new_ok _ _ _ _ _ _ Hst E4 H5) as (cr & E5 & _ & _).
  assert (bs_umask b2 = bs_umask b5 /\ bs_umask b3 = bs_umask b5 /\ bs_umask b4 = bs_umask b5) as (V2 & V3 & V4) by (split_and!; congruence).
  rewrite V2, V3, V4 in *. assert (umask_ok (bs_umask b5)) as Hu5 by congruence.
  destruct (three_files (bs_umask b5) i s cr) as [L1 L2].
  rewrite (try_m_done _ _ b5 tt b5), (try_m_done _ _ b5 tt b5); [|by eapply read_back_done..].
  eexists. erewrite try_io_done; [done|]. apply modify_calm; [done|]. by eapply in_dir_calm.
Qed.

Lemma carry_over_done i s b : calm b -> tidy b -> free b -> exists x b', carry_over root pid now i s b = (Finished (Ok x), b').
Proof.
  intros Hc Ht Hf. unfold carry_over. fold (record_of now i s).
  assert (create_base b = (Finished (Ok tt), b)) as H1.
  { unfold create_base. rewrite perform_calm by done. by destruct Hc as [_ (m & -> & _)]. }
  rewrite (try_io_done _ _ _ _ _ _ H1).
  destruct (remove_stale_done (bt_keys (bs_entries b)) b Hc Ht) as (b2 & H2 & Q2 & Hg & Hk).
  assert (remove_stale_staging root b = (Finished (Ok tt), b2)) as H3.
  { unfold remove_stale_staging, read_base. erewrite try_io_done; [exact H2|]. rewrite inquire_calm by done.
    destruct Hc as [_ (m & -> & Hr & _)]. by rewrite Hr. }
  rewrite (try_m_done _ _ _ _ _ H3). set (st := staging_name pid now). pose proof staging_staging_name as Hst. fold st in Hst.
  assert (calm b2) as Hc2 by (by eapply calm_quiet). apply (q_tidy _ _ Q2) in Ht as [Hu Ht].
  assert (bs_entries b2 !! st = None) as Hnone.
  { destruct (bs_entries b !! st) as [e|] eqn:He; [|by apply Hk]. apply Hg; [|done]. apply elem_of_bt_keys. by eexists. }
  destruct (stage_done st i s now b2 Hc2 Hu Hst Hnone) as [b4 H4].
  pose proof (steady_stage root st i s (record_of now i s) Hst b2) as Q4. rewrite H4 in Q4. simpl in Q4.
  assert (calm b4) as Hc4 by (by eapply calm_quiet). assert (quiet b b4) as Qb4 by (by etrans).
  destruct (stage_ok _ _ _ _ _ _ Hst H4) as (d & ? & ? & ? & Hd & _).
  assert (exists b5, rename_dir st P b4 = (Finished (Ok tt), b5) /\ calm b5) as (b5 & H5 & Hc5).
  { unfold rename_dir. rewrite perform_calm, base_writable_calm, Hd by done. simpl.
    unfold free in Hf. rewrite <- (q_entries _ _ Qb4) in Hf by apply canonical_not_staging.
    destruct (bs_entries b4 !! P) as [[d'| |]|]; try done; [rewrite (bool_decide_true _ Hf)|]; eexists; (split; [done|]); by destruct Hc4. }
  unfold mbind at 1, io_bind at 1. rewrite (try_m_done _ _ _ _ _ H4), (try_io_done _ _ _ _ _ _ H5). unfold mret at 1, io_ret at 1.
  assert (exists b6, sync_base b5 = (Finished (Ok tt), b6)) as [b6 H6].
  { unfold sync_base. rewrite perform_calm by done. destruct Hc5 as [_ (m & Hm & Hr & _)]. rewrite Hm, Hr. by eexists. }
  rewrite (try_io_done _ _ _ _ _ _ H6). by eexists _, _.
Qed.
End Facts.

Section Retry.
Context `{HC : !HexCodec, CR : !Crypto, B64 : !Base64Codec, J : !Json StateFile, X : !X509, K : !KeyOps}.
Context (root : str).

(** A usable identity was read, so its files can be read. *)
Lemma probe_available d : probe_identity (dir_view d) = Available -> owner_x (md_mode d) = true /\
  exists fi fs, md_files d !! IDENTITY_FILE = Some fi /\ owner_r (mf_mode fi) = true /\
    md_files d !! STATE_FILE = Some fs /\ owner_r (mf_mode fs) = true.
Proof.
  unfold probe_identity, classify. simpl.
  destruct (unix_read_state (dir_view d)) as [[st|]|e] eqn:Hst;
    [|by destruct (unix_read_secret _ _) as [[]|[]]|by destruct e].
  destruct (unix_read_secret _ _) as [[se|]|e] eqn:Hse; [|done|by destruct e]. intros _.
  unfold unix_read_state, unix_read_secret, try_exists, read_existing, fs_read, require_private_mode in *. simpl in *.
  destruct (owner_x (md_mode d)); [|done]. split; [done|]. simpl in *.
  destruct (bool_decide _) in Hst; [|done]. destruct (bool_decide _) in Hse; [|done]. simpl in *. inv_result.
  rewrite lookup_fmap in *. change (105 :: _) with IDENTITY_FILE in *.
  destruct (md_files d !! IDENTITY_FILE) as [fi|]; [|done]. destruct (md_files d !! STATE_FILE) as [fs|]; [|done]. simpl in *.
  exists fi, fs. destruct (owner_r (mf_mode fi)), (owner_r (mf_mode fs)); done.
Qed.

(** The canonical name is free and can be looked into. *)
Definition usable (b : Base) : Prop :=
  match bs_entries b !! P with
  | None => True
  | Some (EDir d) => md_files d = ∅ /\ owner_x (md_mode d) = true
  | Some _ => False
  end.

Lemma usable_free b : usable b -> free b.
Proof. unfold usable, free. destruct (bs_entries b !! P) as [[]|]; naive_solver. Qed.

Lemma usable_absent b n : calm b -> usable b -> file_at b P n = Err IoNotFound.
Proof.
  intros Hc. unfold usable. destruct (bs_entries b !! P) as [[d| |]|] eqn:He; try done.
  - intros [Hf Hx]. unfold file_at. rewrite (dir_at_calm b P d) by done. simpl. by rewrite Hf, lookup_empty.
  - intros _. destruct Hc as [_ (m & Hm & _ & _ & Hx)]. unfold file_at, dir_at, entry_at. by rewrite Hm, Hx, He.
Qed.

(** The older directory holds a usable identity in regular files. *)
Definition intact (b : Base) (d : MDir) (i s : bytes) : Prop :=
  legacy b d /\ irregular d STATE_FILE || irregular d IDENTITY_FILE = false /\
  (mf_data <$> md_files d !! IDENTITY_FILE) = Some i /\ (mf_data <$> md_files d !! STATE_FILE) = Some s.

Lemma read_file_calm b dir e d file f : calm b -> bs_entries b !! dir = Some e -> follow e = Ok (EDir d) ->
  owner_x (md_mode d) = true -> md_files d !! file = Some f -> owner_r (mf_mode f) = true -> mf_regular f = true ->
  read_file dir file b = (Finished (Ok (mf_data f)), b).
Proof.
  intros Hc He Hfo Hx Hf Hr Hreg. unfold read_file. rewrite inquire_calm by done. unfold file_at, dir_at.
  rewrite (entry_at_calm b dir e) by done. simpl. rewrite Hfo. simpl. rewrite Hx. simpl. rewrite Hf. simpl. by rewrite Hr, Hreg.
Qed.

(** An undisturbed run over a free name carries the identity over. *)
Lemma migrate_done pid now b d i s : calm b -> tidy b -> usable b -> intact b d i s ->
  exists x b', migrate_data_dir root pid now b = (Finished (Ok x), b').
Proof.
  intros Hc Ht Hu ([(e & He & Hfo) Hpriv Hpr] & Hirr & Hi & Hs). unfold migrate_data_dir.
  assert (holds_identity root CANONICAL_DIR_NAME b = (Finished (Ok false), b)) as H1.
  { unfold holds_identity. cbn [holds_any]. unfold symlink_metadata_in, mbind, io_bind.
    change CANONICAL_DIR_NAME with P. rewrite inquire_calm, usable_absent by done.
    rewrite inquire_calm, usable_absent by done. reflexivity. }
  rewrite (try_m_done _ _ _ _ _ H1). unfold mbind at 1, io_bind at 1, symlink_metadata. rewrite inquire_calm, He by done.
  unfold examine_legacy, metadata. erewrite try_io_done; [|rewrite inquire_calm, He by done; simpl; by rewrite Hfo].
  cbv beta iota zeta. rewrite <- N.land_assoc. change (N.land 511 63) with 63. rewrite Hpriv. cbn [negb N.eqb].
  unfold read_legacy, probe, mbind at 1 2, io_bind at 1 2. rewrite inquire_calm, He by done. simpl. rewrite Hfo. simpl. rewrite Hirr, Hpr.
  destruct (probe_available _ Hpr) as (Hx & fi & fs & Ei & Ri & Es & Rs).
  apply orb_false_iff in Hirr as [Gs Gi]. unfold irregular in *. rewrite Ei in *. rewrite Es in *. apply negb_false_iff in Gs, Gi.
  apply entry_at_ok in He.
  rewrite (try_io_done _ _ _ b (mf_data fi) b), (try_io_done _ _ _ b (mf_data fs) b); [|by eapply read_file_calm..].
  by apply carry_over_done; [..|apply usable_free].
Qed.

(** ** The next start *)

Lemma lost_durable l n e e' : lose_entry l n e = Some e' -> durable_entry e'.
Proof.
  destruct e as [d| |]; simpl; [|by intros [= <-]..]. case_match; [done|]. intros [= <-]. simpl. split_and!; [done..|].
  intros k f Hf. rewrite map_lookup_imap in Hf. destruct (md_files d !! k); [|done]. simpl in Hf. case_match; [done|].
  by simplify_eq.
Qed.

Lemma restart_settled l calls b : settled (restart (Some l) calls b).
Proof.
  split; [done|]. intros n e _ He. simpl in He. rewrite map_lookup_imap in He. apply bind_Some in He as (e0 & _ & He).
  by eapply lost_durable.
Qed.

Lemma lost_tidy l n e e' : tidy_entry e -> lose_entry l n e = Some e' -> tidy_entry e'.
Proof. intros (d & -> & Ho). simpl. case_match; [done|]. intros [= <-]. by eexists. Qed.

Lemma restart_tidy loss calls b : tidy b -> (forall m, bs_before b = Some m -> tidy (with_entries b m)) -> tidy (restart loss calls b).
Proof.
  intros [Hu Ht] Hm. split; [done|]. intros n e Hn. simpl. destruct loss as [l|]; [|by apply Ht].
  rewrite map_lookup_imap. intros (e0 & He & Hl)%bind_Some. eapply lost_tidy; [|done].
  destruct (ls_undo l); [|by eapply Ht]. destruct (bs_before b) as [m|]; [|by eapply Ht]. by eapply (Hm m eq_refl).
Qed.

(** Nothing of the older directory's and the base directory's is touched. *)
Lemma intact_same b b' d i s : bs_mode b' = bs_mode b -> bs_entries b' !! LEGACY_DIR_NAME = bs_entries b !! LEGACY_DIR_NAME ->
  intact b d i s -> intact b' d i s.
Proof.
  intros Hm He ([(e & Ha & Hf) Hp Hpr] & Hrest). split; [|done]. split; [|done..]. exists e. split; [|done].
  unfold entry_at in *. by rewrite Hm, He.
Qed.

(** Where a whole copy is, nothing more is done. *)
Lemma migrate_existing pid now b b0 i s d : calm b -> umask_ok (bs_umask b0) -> bs_entries b !! P = Some (EDir d) -> copied root b0 i s d ->
  exists r, migrate_data_dir root pid now b = (Finished (Ok (Existing r)), b).
Proof.
  intros Hc Hu Hd (i' & s' & rec' & [Hm Hf _] & _). unfold migrate_data_dir.
  assert (file_at b P IDENTITY_FILE = Ok (written i' (bs_umask b0))) as Hi.
  { unfold file_at. rewrite (dir_at_calm b P d); [|done..|by rewrite Hm]. simpl. rewrite Hf.
    by destruct (three_files (bs_umask b0) i' s' rec') as [-> _]. }
  assert (holds_identity root CANONICAL_DIR_NAME b = (Finished (Ok true), b)) as H1.
  { unfold holds_identity. cbn [holds_any]. unfold symlink_metadata_in, mbind, io_bind.
    change CANONICAL_DIR_NAME with P. by rewrite inquire_calm, Hi. }
  rewrite (try_m_done _ _ _ _ _ H1). unfold read_from, mbind, io_bind, read_file. rewrite inquire_calm by done. by eexists.
Qed.

(** What the next start finds. *)
Record found (b b2 : Base) (i s : bytes) : Prop := {
  fd_calm : calm b2;
  fd_tidy : tidy b2;
  fd_mode : bs_mode b2 = bs_mode b;
  fd_umask : bs_umask b2 = bs_umask b;
  fd_legacy : bs_entries b2 !! LEGACY_DIR_NAME = bs_entries b !! LEGACY_DIR_NAME;
  fd_canonical : (settled b2 /\ usable b2) \/ exists d, bs_entries b2 !! P = Some (EDir d) /\ copied root b i s d }.

Lemma legacy_not_staging : ~ staging LEGACY_DIR_NAME.
Proof. by vm_compute. Qed.

Lemma found_quiet b b1 loss i s : settled b -> tidy b -> (exists m, bs_mode b = Some m /\ own_rwx m) -> usable b -> quiet b b1 ->
  found b (restart loss [] b1) i s.
Proof.
  intros Hset Ht (m & Hm & Ho) Hu Hq.
  assert (forall n, ~ staging n -> bs_entries (restart loss [] b1) !! n = bs_entries b !! n) as He.
  { intros n Hn. apply restart_entry; [done..|by apply Hq|]. intros m'. rewrite (q_before _ _ Hq). by destruct Hset as [-> _]. }
  assert (bs_mode b1 = bs_mode b) as Hmo by (apply Hq; by rewrite Hm). split.
  - split; [done|]. exists m. by rewrite <- Hm.
  - apply restart_tidy; [by apply Hq|]. intros m'. rewrite (q_before _ _ Hq). by destruct Hset as [-> _].
  - done.
  - apply Hq.
  - apply He, legacy_not_staging.
  - left. split; [|unfold usable in *; by rewrite He by apply canonical_not_staging].
    destruct loss as [l|]; [apply restart_settled|]. split; [simpl; rewrite (q_before _ _ Hq); apply Hset|].
    intros n e Hn. rewrite He by done. by apply Hset.
Qed.

Lemma found_moved b b1 loss i s : settled b -> tidy b -> (exists m, bs_mode b = Some m /\ own_rwx m) -> usable b ->
  moved root b b1 i s -> found b (restart loss [] b1) i s.
Proof.
  intros Hset Ht (m & Hm & Ho) Hu Hv. destruct (mv_tidy _ _ _ _ _ Hv Ht) as [Ht1 Htm].
  assert (bs_mode b1 = bs_mode b) as Hmo by (apply (mv_mode _ _ _ _ _ Hv); by rewrite Hm). split.
  - split; [done|]. exists m. by rewrite <- Hm.
  - by apply restart_tidy.
  - done.
  - apply (mv_umask _ _ _ _ _ Hv).
  - apply restart_entry; [done|apply legacy_not_staging|by apply Hv; [apply legacy_not_staging|]|].
    intros m' Hb. eapply (mv_before _ _ _ _ _ Hv); [done|apply legacy_not_staging].
  - pose proof (restart_moved root b b1 i s loss [] Hset Hv) as HP. cbv zeta in HP.
    destruct HP as [Hc|[Hb HP]]; [by right|left]. destruct loss as [l|].
    + split; [apply restart_settled|]. unfold usable. destruct HP as [->| ->]; [done|exact Hu].
    + exfalso. destruct (mv_copy _ _ _ _ _ Hv) as (d & Hd & _ & _). simpl in HP.
      destruct HP as [HP|HP]; rewrite Hd in HP; [done|]. unfold usable in Hu. rewrite <- HP in Hu.
      destruct (mv_copy _ _ _ _ _ Hv) as (d' & Hd' & (? & ? & ? & [_ Hf _] & _) & _). rewrite Hd in Hd'. injection Hd' as <-.
      destruct Hu as [Hu _]. rewrite Hu in Hf. apply (f_equal (fun m => m !! MIGRATED_FROM_FILE)) in Hf.
      by rewrite lookup_empty, lookup_insert_eq in Hf.
Qed.

(** The second run, over a free name. *)
Lemma second_run pid now b b2 d i s : found b b2 i s -> settled b2 -> usable b2 -> intact b d i s ->
  exists x b3, migrate_data_dir root pid now b2 = (Finished (Ok x), b3) /\ x <> NoLegacyState /\
    bs_entries b3 !! LEGACY_DIR_NAME = bs_entries b !! LEGACY_DIR_NAME /\
    exists dP, bs_entries b3 !! P = Some (EDir dP) /\ copied root b i s dP.
Proof.
  intros [Hc Ht Hm Hum Hl _] Hset Hu Hin. pose proof (intact_same b b2 d i s Hm Hl Hin) as Hin2.
  destruct (migrate_done pid now b2 d i s Hc Ht Hu Hin2) as (x & b3 & Hr). exists x, b3. split; [done|].
  apply migrate_ran in Hr; [|done]. inversion Hr as [o b3' Q Hno|r b3' Q Hh|b3' Q Hun|d' i' s' o b3' Hlg Hi Hs Hv Hx]; subst.
  - by destruct (Hno x eq_refl).
  - apply Exists_exists in Hh as (n & _ & Hn). by rewrite usable_absent in Hn.
  - destruct Hin2 as ([(e & He & Hf) _ _] & _ & Hi & _). destruct Hun as [_ [Hn|(e' & d' & He' & Hf' & _ & _ & Hn)]]; [congruence|].
    assert (d' = d) as -> by congruence. by rewrite Hn in Hi.
  - destruct (Hx x eq_refl) as [-> _]. destruct Hin2 as ([(e & He & Hf) _ _] & _ & Hi' & Hs').
    destruct Hlg as [(e' & He' & Hf') _ _]. assert (d' = d) as -> by congruence. simplify_eq.
    split; [done|]. split; [rewrite (mv_rest _ _ _ _ _ Hv); [done|apply legacy_not_staging|done]|].
    destruct (mv_copy _ _ _ _ _ Hv) as (dP & HdP & (ci & cs & cr & Hw & Hci & Hcs & Hh) & _). exists dP. split; [done|].
    exists ci, cs, cr. rewrite Hum in Hw. split_and!; [done..|]. intros _. apply Hh. by destruct Hc as [-> _].
Qed.

End Retry.
