(* ===== verification/Sink.v ===== *)
(** The download directory.

    [capabilities/files/src/destination.rs]: [UnixDownloadSink], the Unix
    implementation of the [FileSink] of [sink.rs], over the directory model of
    the secret store (its files, its mode, a fault per changing system call).
    Paths are names relative to the directory.  The theorem is the contract the
    trait's documentation states: storing a received file overwrites nothing,
    and the final name only ever holds the whole verified file. *)
From S2P Require Import Prelude External Identity UnixFs Transfer.

Inductive SinkError := AlreadyExists | InvalidInput | Sys (e : FsError).

Section Ops.

(** [OpenOptions::new().write(true).create_new(true).mode(mode).open]: fails on
    any existing entry. *)
Definition create_new (fs : Fs) (path : str) (mode : N) : result SinkError unit * Fs :=
  match syscall fs with
  | (Some ft, fs1) => (Err (Sys (ft_error ft)), fs1)
  | (None, fs1) =>
      match fs_dir fs1 with
      | None => (Err (Sys Eother), fs1)
      | Some m =>
          if negb (owner_x m) then (Err (Sys Eacces), fs1)
          else if bool_decide (is_Some (fs_files fs1 !! path)) then (Err AlreadyExists, fs1)
          else if negb (owner_w m) then (Err (Sys Eacces), fs1)
          else (Ok tt, with_files fs1
                 (<[path := {| f_data := []; f_mode := N.ldiff mode (fs_umask fs1) |}]> (fs_files fs1)))
      end
  end.

(** [fs::set_permissions] on a file, with its outcome ignored. *)
Definition chmod_ignored (fs : Fs) (path : str) (mode : N) : Fs :=
  match syscall fs with
  | (Some _, fs1) => fs1
  | (None, fs1) => with_files fs1 (alter (fun f => {| f_data := f_data f; f_mode := mode |}) path (fs_files fs1))
  end.

(** [fs::remove_file], with its outcome ignored. *)
Definition remove_ignored (fs : Fs) (path : str) : Fs :=
  match syscall fs with
  | (Some _, fs1) => fs1
  | (None, fs1) => with_files fs1 (delete path (fs_files fs1))
  end.

Definition prepare (fs : Fs) : result SinkError unit * Fs :=
  let '(created, fs1) :=
    match fs_dir fs with
    | Some _ => (Ok tt, fs)
    | None =>
        match syscall fs with
        | (Some ft, fs1) => (Err (Sys (ft_error ft)), fs1)
        | (None, fs1) => (Ok tt, set_dir fs1 (N.ldiff 511 (fs_umask fs1)))
        end
    end in
  match created, fs_dir fs1 with
  | Err e, _ => (Err e, fs1)
  | Ok _, None => (Err (Sys Eother), fs1)
  | Ok _, Some mode =>
      if N.land mode 63 =? 0 then (Ok tt, fs1)
      else
        match syscall fs1 with
        | (Some ft, fs2) => (Err (Sys (ft_error ft)), fs2)
        | (None, fs2) => (Ok tt, set_dir fs2 448)
        end
  end.

Definition temp_name (id : TransferId) : str := lit ".pliwee-" ++ TransferId.to_hex id ++ lit ".part".

Definition open_temp (fs : Fs) (id : TransferId) : result SinkError str * Fs :=
  match prepare fs with
  | (Err e, fs1) => (Err e, fs1)
  | (Ok _, fs1) =>
      match create_new fs1 (temp_name id) 384 with
      | (Err e, fs2) => (Err e, fs2)
      | (Ok _, fs2) => (Ok (temp_name id), fs2)
      end
  end.

Definition split_extension (name : str) : str * str :=
  match rfind_split DOT name with
  | Some (((_ :: _) as stem), ext) => (stem, ext)
  | _ => (name, [])
  end.

(** [dir.join(candidate).parent() == Some(dir)]: the candidate is relative and
    has one component, empty and current-directory components aside.  (An
    absolute candidate replaces the directory.) *)
Definition direct_child (candidate : str) : bool :=
  negb (starts_with [SLASH] candidate) &&
  (length (filter (fun c => negb (eqb c []) && negb (eqb c (lit ".")) = true) (split SLASH candidate)) =? 1)%nat.

Definition candidate_name (name : str) (attempt : N) : str :=
  let '(stem, ext) := split_extension name in
  if attempt =? 0 then name else stem ++ lit " (" ++ u32_to_string attempt ++ lit ")" ++ ext.

(** The loop of [reserve] over the attempts still to make. *)
Fixpoint reserve_loop (fs : Fs) (name : str) (attempts : list N) : result SinkError str * Fs :=
  match attempts with
  | [] => (Err AlreadyExists, fs)
  | n :: attempts' =>
      let path := candidate_name name n in
      if negb (direct_child path) then (Err InvalidInput, fs)
      else
        match create_new fs path 384 with
        | (Ok _, fs1) => (Ok path, fs1)
        | (Err AlreadyExists, fs1) => reserve_loop fs1 name attempts'
        | (Err e, fs1) => (Err e, fs1)
        end
  end.

Definition reserve (fs : Fs) (name : str) : result SinkError str * Fs :=
  match prepare fs with
  | (Err e, fs1) => (Err e, fs1)
  | (Ok _, fs1) => reserve_loop fs1 name (N.of_nat <$> seq 0 (S (N.to_nat MAX_DUPLICATE_SUFFIX)))
  end.

Definition promote (fs : Fs) (temp name : str) : result SinkError str * Fs :=
  match reserve fs name with
  | (Err e, fs1) => (Err e, fs1)
  | (Ok final_path, fs1) =>
      let fs2 := chmod_ignored fs1 temp 384 in
      match rename fs2 temp final_path with
      | (Ok _, fs3) => (Ok final_path, fs3)
      | (Err e, fs3) => (Err (Sys e), remove_ignored fs3 final_path)
      end
  end.
End Ops.

(** * Lemmas *)

Lemma syscall_same fs o fs1 : syscall fs = (o, fs1) ->
  fs_files fs1 = fs_files fs /\ fs_dir fs1 = fs_dir fs /\ fs_umask fs1 = fs_umask fs.
Proof. unfold syscall. destruct (fs_faults fs); intros [= <- <-]; done. Qed.

Lemma prepare_files fs r fs1 : prepare fs = (r, fs1) -> fs_files fs1 = fs_files fs.
Proof.
  unfold prepare.
  set (mk := match fs_dir fs with Some _ => _ | None => _ end).
  assert (Hmk : fs_files mk.2 = fs_files fs).
  { subst mk. destruct (fs_dir fs); [done|].
    destruct (syscall fs) as [[ft|] fs0] eqn:Hs; by apply syscall_same in Hs as (? & _ & _). }
  destruct mk as [[[]|e] fs0]; simpl in Hmk |- *; [|by intros [= _ <-]].
  destruct (fs_dir fs0) as [mode|]; [|by intros [= _ <-]].
  destruct (N.land mode 63 =? 0); [by intros [= _ <-]|].
  destruct (syscall fs0) as [[ft|] fs2] eqn:Hs; apply syscall_same in Hs as (Hf & _ & _);
    intros [= _ <-]; simpl; congruence.
Qed.

Lemma create_new_spec fs path mode r fs1 : create_new fs path mode = (r, fs1) ->
  (r = Ok tt /\ fs_files fs !! path = None /\ exists m, fs_files fs1 = <[path := {| f_data := []; f_mode := m |}]> (fs_files fs)) \/
  (is_ok r = false /\ fs_files fs1 = fs_files fs).
Proof.
  unfold create_new. destruct (syscall fs) as [o fs0] eqn:Hs. apply syscall_same in Hs as (Hf & _ & _).
  intros Hc. repeat (case_match; simplify_eq/=); rewrite ?Hf; auto.
  left. split; [done|]. split; [|eauto].
  match goal with Hn : bool_decide _ = false |- _ => apply bool_decide_eq_false in Hn; rewrite Hf in Hn end.
  by apply eq_None_not_Some.
Qed.

(** Everything in one directory is as it was in another, but for one name. *)
Definition same_but (path : str) (m m' : gmap str File) : Prop := forall k, k <> path -> m' !! k = m !! k.

Lemma reserve_loop_spec fs name attempts r fs1 : reserve_loop fs name attempts = (r, fs1) ->
  match r with
  | Ok path => (exists n, n ∈ attempts /\ path = candidate_name name n) /\ direct_child path = true /\
      fs_files fs !! path = None /\ exists m, fs_files fs1 = <[path := {| f_data := []; f_mode := m |}]> (fs_files fs)
  | Err _ => fs_files fs1 = fs_files fs
  end.
Proof.
  revert fs. induction attempts as [|n attempts IH]; intros fs; simpl; [by intros [= <- <-]|].
  destruct (direct_child (candidate_name name n)) eqn:Hchild; simpl; [|by intros [= <- <-]].
  destruct (create_new fs _ 384) as [r0 fs0] eqn:Hc. apply create_new_spec in Hc as [(-> & Hfree & Hm)|[Hno Hsame]].
  - intros [= <- <-]. split; [exists n; split; [left | done] | done].
  - destruct r0 as [|[]]; [done|intros Hr|by intros [= <- <-]..].
    apply IH in Hr. destruct r as [path|]; [|congruence]. rewrite Hsame in Hr.
    destruct Hr as ((k & Hk & ->) & Hrest). split; [|done]. exists k. split; [by right | done].
Qed.

Lemma reserve_spec fs name r fs1 : reserve fs name = (r, fs1) ->
  match r with
  | Ok path => (exists n, n <= MAX_DUPLICATE_SUFFIX /\ path = candidate_name name n) /\ direct_child path = true /\
      fs_files fs !! path = None /\ exists m, fs_files fs1 = <[path := {| f_data := []; f_mode := m |}]> (fs_files fs)
  | Err _ => fs_files fs1 = fs_files fs
  end.
Proof.
  unfold reserve. destruct (prepare fs) as [[|e] fs0] eqn:Hp; apply prepare_files in Hp.
  - intros Hr. apply reserve_loop_spec in Hr. rewrite Hp in Hr. destruct r as [path|]; [|done].
    destruct Hr as ((n & Hn & ->) & Hrest). split; [|done]. exists n. split; [|done].
    apply list_elem_of_fmap in Hn as (i & -> & Hi). apply elem_of_seq in Hi. unfold MAX_DUPLICATE_SUFFIX in *. lia.
  - by intros [= <- <-].
Qed.

Lemma chmod_data fs path mode k : f_data <$> fs_files (chmod_ignored fs path mode) !! k = f_data <$> fs_files fs !! k.
Proof.
  unfold chmod_ignored. destruct (syscall fs) as [[ft|] fs1] eqn:Hs; apply syscall_same in Hs as (Hf & _ & _);
    simpl; rewrite Hf; [done|].
  destruct (decide (k = path)) as [->|]; [rewrite lookup_alter_eq | by rewrite lookup_alter_ne].
  by destruct (fs_files fs !! path).
Qed.

Lemma chmod_other fs path mode : same_but path (fs_files fs) (fs_files (chmod_ignored fs path mode)).
Proof.
  intros k Hk. unfold chmod_ignored. destruct (syscall fs) as [[ft|] fs1] eqn:Hs;
    apply syscall_same in Hs as (Hf & _ & _); simpl; rewrite Hf; [done|]. by rewrite lookup_alter_ne.
Qed.

Lemma remove_spec fs path : same_but path (fs_files fs) (fs_files (remove_ignored fs path)) /\
  (fs_files (remove_ignored fs path) !! path = fs_files fs !! path \/ fs_files (remove_ignored fs path) !! path = None).
Proof.
  unfold remove_ignored. destruct (syscall fs) as [[ft|] fs1] eqn:Hs; apply syscall_same in Hs as (Hf & _ & _);
    simpl; rewrite Hf; (split; [intros k Hk|]); auto; [by rewrite lookup_delete_ne|].
  right. by rewrite lookup_delete_eq.
Qed.

Lemma rename_spec fs a b r fs1 : rename fs a b = (r, fs1) ->
  match r with
  | Ok _ => exists f, fs_files fs !! a = Some f /\ fs_files fs1 = <[b := f]> (delete a (fs_files fs))
  | Err _ => fs_files fs1 = fs_files fs
  end.
Proof.
  unfold rename. destruct (syscall fs) as [[ft|] fs0] eqn:Hs; apply syscall_same in Hs as (Hf & _ & _).
  { by intros [= <- <-]. }
  rewrite Hf. destruct (fs_files fs !! a) as [f|] eqn:Ha; intros [= <- <-]; [|done]. simpl. rewrite ?Hf. eauto.
Qed.

(** C40: storing a received file destroys nothing.  Whatever faults the system
    calls meet, every other file of the directory is untouched by [promote].  If
    it succeeds, the name it chose was free, is the requested one or a numbered
    variant of it directly inside the directory, and now holds exactly the bytes
    of the temporary file, which is gone.  If it fails, the temporary file still
    has its bytes, and all that can be new is one empty file. *)
Theorem promote_never_overwrites fs temp name f r fs' :
  fs_files fs !! temp = Some f -> promote fs temp name = (r, fs') ->
  (forall k g, k <> temp -> fs_files fs !! k = Some g -> fs_files fs' !! k = Some g) /\
  match r with
  | Ok path =>
      fs_files fs !! path = None /\ direct_child path = true /\
      (exists n, n <= MAX_DUPLICATE_SUFFIX /\ path = candidate_name name n) /\
      f_data <$> fs_files fs' !! path = Some (f_data f) /\ fs_files fs' !! temp = None /\
      (forall k, k <> temp -> k <> path -> fs_files fs' !! k = fs_files fs !! k)
  | Err _ =>
      f_data <$> fs_files fs' !! temp = Some (f_data f) /\
      (forall k g, fs_files fs !! k = None -> fs_files fs' !! k = Some g -> f_data g = [])
  end.
Proof.
  intros Htemp. unfold promote. destruct (reserve fs name) as [[path|e] fs1] eqn:Hr; apply reserve_spec in Hr.
  2: { intros [= <- <-]. rewrite Hr, Htemp. split_and!; [done | done | intros; congruence]. }
  destruct Hr as (Hname & Hchild & Hfree & m & Hm).
  assert (Hne : temp <> path) by congruence.
  pose proof (chmod_data fs1 temp 384 temp) as Hdata. pose proof (chmod_other fs1 temp 384) as Hoth.
  rewrite Hm, lookup_insert_ne, Htemp in Hdata by done.
  assert (Hkept : forall k, k <> temp -> k <> path -> fs_files (chmod_ignored fs1 temp 384) !! k = fs_files fs !! k).
  { intros k Hk Hp. rewrite Hoth, Hm by done. by rewrite lookup_insert_ne. }
  assert (Hnew : fs_files (chmod_ignored fs1 temp 384) !! path = Some {| f_data := []; f_mode := m |}).
  { rewrite Hoth, Hm by done. by rewrite lookup_insert_eq. }
  destruct (rename _ temp path) as [[[]|e] fs3] eqn:Hren; apply rename_spec in Hren; intros [= <- <-].
  - destruct Hren as (g & Hg & ->). rewrite Hg in Hdata. simpl in Hdata.
    assert (Hall : forall k, k <> temp -> k <> path ->
      (<[path := g]> (delete temp (fs_files (chmod_ignored fs1 temp 384))) : gmap str File) !! k = fs_files fs !! k).
    { intros k Hk Hp. rewrite lookup_insert_ne, lookup_delete_ne by done. by apply Hkept. }
    split. { intros k g' Hk Hg'. rewrite Hall; [done..|]. congruence. }
    split_and!; try done; [by rewrite lookup_insert_eq|]. by rewrite lookup_insert_ne, lookup_delete_eq by done.
  - destruct (remove_spec fs3 path) as [Hrem Hpath]. rewrite Hren in *.
    split. { intros k g' Hk Hg'. assert (k <> path) by congruence. rewrite Hrem by done. by rewrite Hkept. }
    split; [by rewrite Hrem|]. intros k g' Hnone Hsome.
    destruct (decide (k = path)) as [->|Hp].
    { rewrite Hsome, Hnew in Hpath. destruct Hpath as [[= ->]|]; done. }
    rewrite Hrem, Hkept in Hsome; congruence.
Qed.

Definition demo_dir : Fs := {|
  fs_files := {[ lit ".part" := {| f_data := [x01]; f_mode := 384 |}; lit "a.txt" := {| f_data := [x02]; f_mode := 420 |} ]};
  fs_dir := Some 493; fs_umask := 18; fs_faults := [] |}.

Lemma promote_never_overwrites_witness :
  let out := promote demo_dir (lit ".part") (lit "a.txt") in
  fs_files demo_dir !! lit ".part" = Some {| f_data := [x01]; f_mode := 384 |} /\
  fs_files out.2 !! lit "a.txt" = Some {| f_data := [x02]; f_mode := 420 |} /\
  out.1 = Ok (lit "a (1).txt").
Proof.
  split; [reflexivity|]. split; [|vm_compute; reflexivity].
  refine (proj1 (promote_never_overwrites demo_dir (lit ".part") (lit "a.txt") _ _ _ eq_refl (surjective_pairing _)) _ _ _ _);
    [discriminate | reflexivity].
Defined.
