(* ===== verification/Transfers.v ===== *)
(** The file-transfer manager.

    [capabilities/files/src/lib.rs]: every transfer this device takes part in.
    [Manager] has the fields of [TransferManager] that its operations change or
    ask: the transfer records, the control channels, the download directory (a
    [Sink] directory), the host's answers, and the clock.  A handler runs in one
    step.  The tasks the source spawns ([await_approval], [dial_and_run] and the
    run of a stream) wait for people, peers and disks, so each is a [Task] that
    moves through the source's suspension points, one [task_step] at a time, with
    anything else happening in between.  [mg_log] is what the manager told its
    peers and asked the human. *)
From S2P Require Import Prelude External Ids Framing Filename Transfer Stream UnixFs Sink.

(** * Messages of [files_v1.proto] *)

Record FileOffer := {
  fo_transfer_id : bytes;
  fo_filename : str;
  fo_size_bytes : N;
  fo_mime_type : str;
  fo_sha256 : bytes
}.

(** Reasons are numbers on the wire. *)
Inductive FileBody :=
| BOffer (o : FileOffer)
| BAccept (id challenge : bytes)
| BReady (id challenge : bytes)
| BReject (id : bytes) (reason : Z)
| BCancel (id : bytes) (reason : Z)
| BComplete (id : bytes)
| BFailed (id : bytes) (reason : Z).

Record FileControl := { fc_body : option FileBody }.

Record DataStreamAuth := { da_protocol_version : N; da_transfer_id : bytes; da_mac : bytes }.

(** * Configuration, records and the manager *)

Inductive StreamRole := Acceptor | Dialer.

#[export] Instance StreamRole_eq_dec : EqDecision StreamRole.
Proof. solve_decision. Defined.

Record FilesConfig := { cf_max_file_bytes : N; cf_accept_timeout : N; cf_stream_open_timeout : N }.

Definition with_destination : FilesConfig :=
  {| cf_max_file_bytes := DEFAULT_MAX_FILE_BYTES; cf_accept_timeout := ACCEPT_TIMEOUT;
     cf_stream_open_timeout := STREAM_OPEN_TIMEOUT |}.

Definition deadline_for (c : FilesConfig) (s : TransferState.t) : N :=
  match s with
  | TransferState.Offered | TransferState.WaitingAccept => cf_accept_timeout c
  | TransferState.Transferring => cf_stream_open_timeout c
  | TransferState.Verifying => VERDICT_TIMEOUT
  | _ => from_secs 3600
  end.

(** A control channel, by number: taking messages, not drained by its peer for
    longer than [CONTROL_SEND_TIMEOUT], or closed (also: unknown). *)
Inductive Channel := Open | Clogged.

Record TransferRecord := {
  tr_seq : N;
  tr_id : TransferId;
  tr_peer : Fingerprint;
  tr_direction : Direction;
  tr_filename : str;
  tr_size_bytes : N;
  tr_sha256 : bytesn 32;
  tr_mime_type : str;
  tr_state : TransferState.t;
  tr_bytes : N;
  tr_challenge : option StreamChallenge;
  tr_source : option str;
  tr_temp : option str;
  tr_stored_at : option str;
  tr_failure : option FailureReason.t;
  tr_cancel : bool;
  tr_session : N;
  tr_profile : Profile;
  tr_deadline : N;
  tr_stream_active : bool
}.

(** What a running stream knows of its transfer. *)
Record StreamPlan := {
  pl_direction : Direction;
  pl_size_bytes : N;
  pl_sha256 : bytesn 32;
  pl_source : option str;
  pl_temp : option str;
  pl_filename : str;
  pl_session : N
}.

(** Suspended tasks, by where they are. *)
Inductive Task :=
| TAwait (id : TransferId) (peer : Fingerprint) (session : N)     (** the human is being asked *)
| TArm (id : TransferId) (session : N) (temp : str)               (** the temporary file is open *)
| TAccept (id : TransferId) (session : N) (challenge : bytes)     (** the record has both *)
| TDial (id : TransferId)
| TDialling (id : TransferId) (mac : bytesn 32)
| TReceive (id : TransferId) (plan : StreamPlan)
| TCopy (id : TransferId) (plan : StreamPlan) (temp : str)        (** the temporary file is truncated *)
| TVerify (id : TransferId) (plan : StreamPlan) (temp : str) (digest : bytesn 32)
| TPromote (id : TransferId) (plan : StreamPlan) (temp : str)
| TStored (id : TransferId) (plan : StreamPlan) (path : str)
| TSend (id : TransferId) (plan : StreamPlan)
| TVerdict (id : TransferId).                                     (** waiting for the peer's reason *)

Inductive LogEntry :=
| Confirmed (id : TransferId) (yes : bool)      (** what [confirm_receive] answered *)
| Queued (session : N) (body : FileBody)
| StreamAccepted (id : TransferId) (peer : Fingerprint).

Record Manager := {
  mg_role : StreamRole;
  mg_local : Fingerprint;
  mg_config : FilesConfig;
  mg_transfers : gmap TransferId TransferRecord;
  mg_authorizer : option (Fingerprint -> bool);
  mg_has_dialer : bool;
  mg_sessions : gmap Fingerprint (N * Profile);
  mg_channels : gmap N Channel;
  mg_fs : Fs;
  mg_now : N;
  mg_next_seq : N;
  mg_tasks : list Task;
  mg_log : list LogEntry
}.

(** ** Setters *)

Definition set_transfers (m : Manager) (t : gmap TransferId TransferRecord) : Manager := {|
  mg_role := mg_role m; mg_local := mg_local m; mg_config := mg_config m; mg_transfers := t;
  mg_authorizer := mg_authorizer m; mg_has_dialer := mg_has_dialer m; mg_sessions := mg_sessions m;
  mg_channels := mg_channels m; mg_fs := mg_fs m; mg_now := mg_now m; mg_next_seq := mg_next_seq m;
  mg_tasks := mg_tasks m; mg_log := mg_log m |}.

Definition set_fs (m : Manager) (fs : Fs) : Manager := {|
  mg_role := mg_role m; mg_local := mg_local m; mg_config := mg_config m; mg_transfers := mg_transfers m;
  mg_authorizer := mg_authorizer m; mg_has_dialer := mg_has_dialer m; mg_sessions := mg_sessions m;
  mg_channels := mg_channels m; mg_fs := fs; mg_now := mg_now m; mg_next_seq := mg_next_seq m;
  mg_tasks := mg_tasks m; mg_log := mg_log m |}.

Definition set_tasks (m : Manager) (l : list Task) : Manager := {|
  mg_role := mg_role m; mg_local := mg_local m; mg_config := mg_config m; mg_transfers := mg_transfers m;
  mg_authorizer := mg_authorizer m; mg_has_dialer := mg_has_dialer m; mg_sessions := mg_sessions m;
  mg_channels := mg_channels m; mg_fs := mg_fs m; mg_now := mg_now m; mg_next_seq := mg_next_seq m;
  mg_tasks := l; mg_log := mg_log m |}.

(** [tokio::spawn] *)
Definition spawn (m : Manager) (t : Task) : Manager := set_tasks m (mg_tasks m ++ [t]).

Definition log (m : Manager) (e : LogEntry) : Manager := {|
  mg_role := mg_role m; mg_local := mg_local m; mg_config := mg_config m; mg_transfers := mg_transfers m;
  mg_authorizer := mg_authorizer m; mg_has_dialer := mg_has_dialer m; mg_sessions := mg_sessions m;
  mg_channels := mg_channels m; mg_fs := mg_fs m; mg_now := mg_now m; mg_next_seq := mg_next_seq m;
  mg_tasks := mg_tasks m; mg_log := mg_log m ++ [e] |}.

Definition set_sessions (m : Manager) (s : gmap Fingerprint (N * Profile)) : Manager := {|
  mg_role := mg_role m; mg_local := mg_local m; mg_config := mg_config m; mg_transfers := mg_transfers m;
  mg_authorizer := mg_authorizer m; mg_has_dialer := mg_has_dialer m; mg_sessions := s;
  mg_channels := mg_channels m; mg_fs := mg_fs m; mg_now := mg_now m; mg_next_seq := mg_next_seq m;
  mg_tasks := mg_tasks m; mg_log := mg_log m |}.

Definition bump_seq (m : Manager) : Manager := {|
  mg_role := mg_role m; mg_local := mg_local m; mg_config := mg_config m; mg_transfers := mg_transfers m;
  mg_authorizer := mg_authorizer m; mg_has_dialer := mg_has_dialer m; mg_sessions := mg_sessions m;
  mg_channels := mg_channels m; mg_fs := mg_fs m; mg_now := mg_now m; mg_next_seq := mg_next_seq m + 1;
  mg_tasks := mg_tasks m; mg_log := mg_log m |}.

(** The fields of a record that operations change. *)
Definition rec_with (r : TransferRecord) (state : TransferState.t) (bytes : N) (challenge : option StreamChallenge)
    (temp stored_at : option str) (failure : option FailureReason.t) (cancel : bool) (deadline : N)
    (stream_active : bool) : TransferRecord := {|
  tr_seq := tr_seq r; tr_id := tr_id r; tr_peer := tr_peer r; tr_direction := tr_direction r;
  tr_filename := tr_filename r; tr_size_bytes := tr_size_bytes r; tr_sha256 := tr_sha256 r;
  tr_mime_type := tr_mime_type r; tr_state := state; tr_bytes := bytes; tr_challenge := challenge;
  tr_source := tr_source r; tr_temp := temp; tr_stored_at := stored_at; tr_failure := failure;
  tr_cancel := cancel; tr_session := tr_session r; tr_profile := tr_profile r; tr_deadline := deadline;
  tr_stream_active := stream_active |}.

Definition set_challenge (c : option StreamChallenge) (r : TransferRecord) : TransferRecord :=
  rec_with r (tr_state r) (tr_bytes r) c (tr_temp r) (tr_stored_at r) (tr_failure r) (tr_cancel r)
    (tr_deadline r) (tr_stream_active r).
Definition arm (temp : str) (c : option StreamChallenge) (r : TransferRecord) : TransferRecord :=
  rec_with r (tr_state r) (tr_bytes r) c (Some temp) (tr_stored_at r) (tr_failure r) (tr_cancel r)
    (tr_deadline r) (tr_stream_active r).
Definition start_stream (r : TransferRecord) : TransferRecord :=
  rec_with r (tr_state r) (tr_bytes r) (tr_challenge r) (tr_temp r) (tr_stored_at r) (tr_failure r) (tr_cancel r)
    (tr_deadline r) true.
(** The copy moved [progress] bytes and the stream is done. *)
Definition end_stream (progress deadline : N) (r : TransferRecord) : TransferRecord :=
  rec_with r (tr_state r) progress (tr_challenge r) (tr_temp r) (tr_stored_at r) (tr_failure r) (tr_cancel r)
    deadline false.
Definition take_temp (r : TransferRecord) : TransferRecord :=
  rec_with r (tr_state r) (tr_bytes r) (tr_challenge r) None (tr_stored_at r) (tr_failure r) (tr_cancel r)
    (tr_deadline r) (tr_stream_active r).
Definition stored (path : str) (r : TransferRecord) : TransferRecord :=
  rec_with r (tr_state r) (tr_bytes r) (tr_challenge r) None (Some path) (tr_failure r) (tr_cancel r)
    (tr_deadline r) (tr_stream_active r).

Definition update (m : Manager) (id : TransferId) (f : TransferRecord -> TransferRecord) : Manager :=
  set_transfers m (alter f id (mg_transfers m)).

(** * Operations *)

Section Ops.
Context `{!Crypto, !Prost FileControl}.
Abbreviation Reason := FailureReason.t.

Definition authorized (m : Manager) (peer : Fingerprint) : bool :=
  match mg_authorizer m with Some f => f peer | None => false end.

Definition is_closed (m : Manager) (session : N) : bool :=
  match mg_channels m !! session with Some _ => false | None => true end.

Definition attach_session (m : Manager) (peer : Fingerprint) (session : N) (profile : Profile) : Manager :=
  set_sessions m (<[peer := (session, profile)]> (mg_sessions m)).

Definition session_for (m : Manager) (peer : Fingerprint) : option (N * Profile) * Manager :=
  match mg_sessions m !! peer with
  | Some (s, p) =>
      if negb (is_closed m s) then (Some (s, p), m)
      else (None, set_sessions m (delete peer (mg_sessions m)))
  | None => (None, m)
  end.

(** Queues a message; a channel that is closed, or stays full, does not take it. *)
Definition send_control (m : Manager) (session : N) (body : FileBody) : bool * Manager :=
  match mg_channels m !! session with
  | Some Open => (true, log m (Queued session body))
  | _ => (false, m)
  end.

Definition clean_up_temp (m : Manager) (id : TransferId) : Manager :=
  match r ← mg_transfers m !! id; tr_temp r with
  | Some path => set_fs (update m id take_temp) (remove_ignored (mg_fs m) path)
  | None => m
  end.

Definition enter (c : FilesConfig) (now : N) (next : TransferState.t) (failure : option Reason) (r : TransferRecord)
    : TransferRecord :=
  let terminal := TransferState.is_terminal next in
  rec_with r next (tr_bytes r) (if terminal then None else tr_challenge r) (tr_temp r) (tr_stored_at r)
    (match failure with Some _ => failure | None => tr_failure r end) (terminal || tr_cancel r)
    (now + deadline_for c next) (tr_stream_active r).

Definition transition (m : Manager) (id : TransferId) (next : TransferState.t) (failure : option Reason)
    : bool * Manager :=
  match mg_transfers m !! id with
  | None => (false, m)
  | Some r =>
      if negb (TransferState.can_transition_to (tr_state r) next) then (false, m)
      else
        let m1 := set_transfers m (<[id := enter (mg_config m) (mg_now m) next failure r]> (mg_transfers m)) in
        (true, if TransferState.is_terminal next then clean_up_temp m1 id else m1)
  end.

Definition fail (m : Manager) (id : TransferId) (reason : Reason) : Manager :=
  let cancelled := FailureReason.is_cancellation reason in
  let next := if cancelled then TransferState.Cancelled else TransferState.Failed in
  let session := tr_session <$> mg_transfers m !! id in
  match transition m id next (Some reason), session with
  | (true, m1), Some s =>
      let body := if cancelled then BCancel (bn_bytes id) (FailureReason.reason_to_proto reason)
                  else BFailed (bn_bytes id) (FailureReason.reason_to_proto reason) in
      (send_control m1 s body).2
  | (_, m1), _ => m1
  end.

Definition cancel (m : Manager) (id : TransferId) : bool * Manager :=
  match mg_transfers m !! id with
  | Some r => if TransferState.is_active (tr_state r) then (true, fail m id FailureReason.CancelledByUser) else (false, m)
  | None => (false, m)
  end.

Definition active_for (peer : Fingerprint) (r : TransferRecord) : bool :=
  eqb (tr_peer r) peer && TransferState.is_active (tr_state r).

Definition cancel_peer (m : Manager) (peer : Fingerprint) (reason : Reason) : Manager :=
  let ids := map tr_id (filter (fun r => active_for peer r = true) (bt_values (mg_transfers m))) in
  foldl (fun m id => fail m id reason) m ids.

Definition active_count_for (m : Manager) (peer : Fingerprint) : N :=
  len (filter (fun r => active_for peer r = true) (bt_values (mg_transfers m))).

Definition reject (m : Manager) (session : N) (id : TransferId) (reason : Reason) : Manager :=
  (send_control m session (BReject (bn_bytes id) (FailureReason.reason_to_proto reason))).2.

(** ** Offering *)

Definition guess_mime_type (name : str) : str :=
  let ext := map ascii_lower (List.last (split DOT name) []) in
  let among l := mem ext (lit <$> l) in
  lit (if among ["jpg"; "jpeg"] then "image/jpeg"
       else if among ["png"] then "image/png"
       else if among ["gif"] then "image/gif"
       else if among ["webp"] then "image/webp"
       else if among ["heic"] then "image/heic"
       else if among ["pdf"] then "application/pdf"
       else if among ["txt"; "log"; "md"] then "text/plain"
       else if among ["mp4"] then "video/mp4"
       else if among ["mp3"] then "audio/mpeg"
       else if among ["zip"] then "application/zip"
       else "")%string.

Definition new_record (m : Manager) (id : TransferId) (peer : Fingerprint) (direction : Direction)
    (filename : str) (size : N) (sha : bytesn 32) (mime : str) (state : TransferState.t) (source : option str)
    (session : N) (profile : Profile) : TransferRecord := {|
  tr_seq := mg_next_seq m; tr_id := id; tr_peer := peer; tr_direction := direction; tr_filename := filename;
  tr_size_bytes := size; tr_sha256 := sha; tr_mime_type := mime; tr_state := state; tr_bytes := 0;
  tr_challenge := None; tr_source := source; tr_temp := None; tr_stored_at := None; tr_failure := None;
  tr_cancel := false; tr_session := session; tr_profile := profile;
  tr_deadline := mg_now m + deadline_for (mg_config m) state; tr_stream_active := false |}.

Definition insert_record (m : Manager) (r : TransferRecord) : Manager :=
  bump_seq (set_transfers m (<[tr_id r := r]> (mg_transfers m))).

(** [src] is the local file as it is read for hashing, [None] if it cannot be
    opened; [elsewhere] is what other tasks do while it is hashed; [rng] is the
    random transfer id. *)
Definition offer_file (m : Manager) (peer : Fingerprint) (path raw_name : str) (src : option (list (option bytes)))
    (elsewhere : Manager -> Manager) (rng : option TransferId) : Result TransferId * Manager :=
  if negb (authorized m peer) then (Err ENotAuthorized, m)
  else
    match session_for m peer with
    | (None, m1) => (Err (EProtocol "that device is not connected"), m1)
    | (Some (session, profile), m1) =>
        if MAX_CONCURRENT_TRANSFERS_PER_PEER <=? active_count_for m1 peer
        then (Err (EProtocol "too many transfers in flight with this peer"), m1)
        else
          match sanitize raw_name with
          | None => (Err (EProtocol "the file's name cannot be sent safely"), m1)
          | Some filename =>
              let m2 := elsewhere m1 in
              match src ≫= hash_file with
              | Some (Ok (size, sha)) =>
                  match rng with
                  | None => (Err (EStore "system CSPRNG unavailable"), m2)
                  | Some id =>
                      let mime := guess_mime_type filename in
                      let m3 := insert_record m2 (new_record m2 id peer Sending filename size sha mime
                                  TransferState.Offered (Some path) session profile) in
                      let offer := {| fo_transfer_id := bn_bytes id; fo_filename := filename; fo_size_bytes := size;
                                      fo_mime_type := mime; fo_sha256 := bn_bytes sha |} in
                      match send_control m3 session (BOffer offer) with
                      | (true, m4) => (Ok id, m4)
                      | (false, m4) =>
                          (Err EClosed, (transition m4 id TransferState.Failed (Some FailureReason.Transport)).2)
                      end
                  end
              | _ => (Err (EIo (OtherIo 0)), m2)
              end
          end
    end.

Definition validate_offer (m : Manager) (o : FileOffer) : result Reason unit :=
  if negb (len (fo_sha256 o) =? 32) then Err FailureReason.BadMetadata
  else if MAX_FILENAME_BYTES * 4 <? str_len (fo_filename o) then Err FailureReason.BadMetadata
  else if MAX_MIME_TYPE_BYTES <? str_len (fo_mime_type o) then Err FailureReason.BadMetadata
  else match sanitize (fo_filename o) with
  | None => Err FailureReason.BadMetadata
  | Some _ =>
      if cf_max_file_bytes (mg_config m) <? fo_size_bytes o then Err FailureReason.TooLarge else Ok tt
  end.

Definition on_offer (m : Manager) (peer : Fingerprint) (session : N) (profile : Profile) (o : FileOffer)
    : Result unit * Manager :=
  match TransferId.from_bytes (fo_transfer_id o) with
  | None => (Err (EProtocol "files.v1 offer with a malformed transfer id"), m)
  | Some id =>
      if negb (authorized m peer) then (Ok tt, reject m session id FailureReason.NotAuthorized)
      else if bool_decide (is_Some (mg_transfers m !! id)) then (Ok tt, reject m session id FailureReason.BadMetadata)
      else
        match validate_offer m o with
        | Err reason => (Ok tt, reject m session id reason)
        | Ok _ =>
            if MAX_CONCURRENT_TRANSFERS_PER_PEER <=? active_count_for m peer
            then (Ok tt, reject m session id FailureReason.TooManyTransfers)
            else
              match sanitize (fo_filename o), try_into 32 (fo_sha256 o) with
              | Some filename, Some sha =>
                  let r := new_record m id peer Receiving filename (fo_size_bytes o) sha (fo_mime_type o)
                             TransferState.WaitingAccept None session profile in
                  (Ok tt, spawn (insert_record m r) (TAwait id peer session))
              | _, _ => (Ok tt, reject m session id FailureReason.BadMetadata)
              end
        end
  end.

(** ** The peer's answers *)

Definition owned_active (m : Manager) (id : TransferId) (peer : Fingerprint) (d : Direction) : option N :=
  r ← mg_transfers m !! id;
  if negb (eqb (tr_peer r) peer) || negb (eqb (tr_direction r) d) || negb (TransferState.is_active (tr_state r))
  then None else Some (tr_session r).

Definition belongs_to (m : Manager) (id : TransferId) (peer : Fingerprint) : bool :=
  match mg_transfers m !! id with Some r => eqb (tr_peer r) peer | None => false end.

(** [rng] is the random challenge an acceptor issues. *)
Definition on_accept (m : Manager) (peer : Fingerprint) (raw_id challenge : bytes) (rng : option StreamChallenge)
    : Result unit * Manager :=
  match TransferId.from_bytes raw_id with
  | None => (Err (EProtocol "files.v1 accept with a malformed transfer id"), m)
  | Some id =>
      match owned_active m id peer Sending with
      | None => (Ok tt, m)
      | Some session =>
          match mg_role m with
          | Acceptor =>
              match rng with
              | None => (Err (EStore "system CSPRNG unavailable"), m)
              | Some c =>
                  match transition (update m id (set_challenge (Some c))) id TransferState.Transferring None with
                  | (false, m1) => (Ok tt, m1)
                  | (true, m1) => (Ok tt, (send_control m1 session (BReady (bn_bytes id) (bn_bytes c))).2)
                  end
              end
          | Dialer =>
              match challenge_from_bytes challenge with
              | None => (Ok tt, fail m id FailureReason.BadMetadata)
              | Some c =>
                  match transition (update m id (set_challenge (Some c))) id TransferState.Transferring None with
                  | (false, m1) => (Ok tt, m1)
                  | (true, m1) => (Ok tt, spawn m1 (TDial id))
                  end
              end
          end
      end
  end.

Definition on_ready (m : Manager) (peer : Fingerprint) (raw_id challenge : bytes) : Result unit * Manager :=
  match TransferId.from_bytes raw_id with
  | None => (Err (EProtocol "files.v1 ready with a malformed transfer id"), m)
  | Some id =>
      if negb (eqb (mg_role m) Dialer) then (Ok tt, m)
      else
        match owned_active m id peer Receiving with
        | None => (Ok tt, m)
        | Some _ =>
            match challenge_from_bytes challenge with
            | None => (Ok tt, fail m id FailureReason.BadMetadata)
            | Some c => (Ok tt, spawn (update m id (set_challenge (Some c))) (TDial id))
            end
        end
  end.

Definition on_peer_ended (m : Manager) (peer : Fingerprint) (raw_id : bytes) (reason : Z) (next : TransferState.t)
    : Result unit * Manager :=
  match TransferId.from_bytes raw_id with
  | None => (Ok tt, m)
  | Some id =>
      if negb (belongs_to m id peer) then (Ok tt, m)
      else (Ok tt, (transition m id next (Some (FailureReason.reason_from_proto reason))).2)
  end.

Definition on_complete (m : Manager) (peer : Fingerprint) (raw_id : bytes) : Result unit * Manager :=
  match TransferId.from_bytes raw_id with
  | None => (Ok tt, m)
  | Some id =>
      match owned_active m id peer Sending with
      | None => (Ok tt, m)
      | Some _ => (Ok tt, (transition m id TransferState.Completed None).2)
      end
  end.

Definition handle_control (m : Manager) (peer : Fingerprint) (session : N) (profile : Profile) (payload : bytes)
    (rng : option StreamChallenge) : Result unit * Manager :=
  match prost_decode payload with
  | None => (Err EDecode, m)
  | Some control =>
      match fc_body control with
      | None => (Err (EProtocol "empty files.v1 message"), m)
      | Some (BOffer o) => on_offer m peer session profile o
      | Some (BAccept id c) => on_accept m peer id c rng
      | Some (BReady id c) => on_ready m peer id c
      | Some (BReject id z) => on_peer_ended m peer id z TransferState.Cancelled
      | Some (BCancel id z) => on_peer_ended m peer id z TransferState.Cancelled
      | Some (BFailed id z) => on_peer_ended m peer id z TransferState.Failed
      | Some (BComplete id) => on_complete m peer id
      end
  end.

(** ** Data streams *)

(** The authorization of one data stream: the manager with the challenge
    consumed, or the reason of the refusal. *)
Definition check_stream (m : Manager) (id : TransferId) (peer : Fingerprint) (profile : Profile) (mac : bytes)
    : result Reason Manager :=
  if negb (authorized m peer) then Err FailureReason.NotAuthorized
  else
    match mg_transfers m !! id with
    | None => Err FailureReason.UnknownTransfer
    | Some r =>
        if negb (eqb (tr_peer r) peer) then Err FailureReason.UnknownTransfer
        else if negb (eqb (tr_state r) TransferState.Transferring) then Err FailureReason.UnknownTransfer
        else
          match tr_challenge r with
          | None => Err FailureReason.UnknownTransfer
          | Some challenge =>
              if negb (eqb (tr_profile r) profile) then Err FailureReason.NotAuthorized
              else if negb (verify_stream_mac
                              (compute_stream_mac (tr_profile r) challenge (mg_local m) peer id) mac)
              then Err FailureReason.NotAuthorized
              else Ok (update m id (fun r => start_stream (set_challenge None r)))
          end
    end.

Definition plan_of (r : TransferRecord) : StreamPlan := {|
  pl_direction := tr_direction r; pl_size_bytes := tr_size_bytes r; pl_sha256 := tr_sha256 r;
  pl_source := tr_source r; pl_temp := tr_temp r; pl_filename := tr_filename r; pl_session := tr_session r |}.

(** The task that moves the bytes, if the transfer is still there. *)
Definition run_stream (m : Manager) (id : TransferId) : option Task :=
  r ← mg_transfers m !! id;
  Some (match tr_direction r with Sending => TSend id (plan_of r) | Receiving => TReceive id (plan_of r) end).

(** [frame] is what reading the first frame gave ([None]: not in time), [sent]
    how writing the ready frame went.  The stream then runs as a task. *)
Definition accept_data_stream (m : Manager) (peer : Fingerprint) (frame : option (result io_kind DataStreamAuth))
    (protocol_version : N) (profile : Profile) (sent : result io_kind unit) : Result unit * Manager :=
  match frame with
  | None => (Err (EProtocol "data stream did not authenticate in time"), m)
  | Some (Err k) => (Err (EIo k), m)
  | Some (Ok auth) =>
      if negb (da_protocol_version auth =? protocol_version)
      then (Err (EProtocol "data stream protocol version mismatch"), m)
      else
        match TransferId.from_bytes (da_transfer_id auth) with
        | None => (Err (EProtocol "data stream with a malformed transfer id"), m)
        | Some id =>
            match check_stream m id peer profile (da_mac auth) with
            | Err _ => (Err ENotAuthorized, m)
            | Ok m1 =>
                let m2 := log m1 (StreamAccepted id peer) in
                match sent with
                | Err k => (Err (EIo k), m2)
                | Ok _ =>
                    match run_stream m2 id with
                    | Some t => (Ok tt, spawn m2 t)
                    | None => (Ok tt, m2)
                    end
                end
            end
        end
  end.

(** ** Tasks *)

(** How dialling, authenticating and the acceptor's answer went. *)
Inductive DialOutcome := DialFailed | DialRejected (reason : Z) | DialReady.

(** What ends the wait a task is suspended in. *)
Inductive Input :=
| Answer (yes : bool)                                        (** the human; a timeout is a no *)
| Entropy (c : option StreamChallenge)
| Dialled (o : DialOutcome)
| Network (evs : list ReadEvent) (room : option (N * io_kind))   (** the stream, and the disk's room *)
| Synced (ok : bool)
| Source (src : option (list (option bytes))) (ws : list WriteEvent) (flushes : bool)
| Go.

(** Opening the existing temporary file for writing, truncated. *)
Definition open_partial (fs : Fs) (path : str) : bool * Fs :=
  match syscall fs with
  | (Some _, fs1) => (false, fs1)
  | (None, fs1) =>
      match fs_files fs1 !! path with
      | None => (false, fs1)
      | Some f =>
          if owner_w (f_mode f)
          then (true, with_files fs1 (<[path := {| f_data := []; f_mode := f_mode f |}]> (fs_files fs1)))
          else (false, fs1)
      end
  end.

(** Writes to an open file reach it only while it is still linked. *)
Definition put_data (fs : Fs) (path : str) (b : bytes) : Fs :=
  with_files fs (alter (fun f => {| f_data := b; f_mode := f_mode f |}) path (fs_files fs)).

(** [await_approval], from the human's answer to the open temporary file. *)
Definition approval_answered (m : Manager) (id : TransferId) (peer : Fingerprint) (session : N) (yes : bool)
    : Manager * option Task :=
  let m1 := log m (Confirmed id yes) in
  if negb yes then (fail m1 id FailureReason.DeclinedByUser, None)
  else if negb (authorized m1 peer) then (fail m1 id FailureReason.Revoked, None)
  else
    match open_temp (mg_fs m1) id with
    | (Err _, fs) => (fail (set_fs m1 fs) id FailureReason.Storage, None)
    | (Ok temp, fs) => (set_fs m1 fs, Some (TArm id session temp))
    end.

(** [await_approval], recording the temporary file and the challenge. *)
Definition approval_armed (m : Manager) (id : TransferId) (session : N) (temp : str) (rng : option StreamChallenge)
    : Manager * option Task :=
  match mg_role m, rng with
  | Acceptor, None => (fail m id FailureReason.Storage, None)
  | role, c =>
      let challenge := match role with Acceptor => c | Dialer => None end in
      match mg_transfers m !! id with
      | None => (m, None)
      | Some _ =>
          (update m id (arm temp challenge),
           Some (TAccept id session (match challenge with Some c => bn_bytes c | None => [] end)))
      end
  end.

(** [await_approval], becoming active and telling the sender. *)
Definition approval_accepted (m : Manager) (id : TransferId) (session : N) (challenge : bytes)
    : Manager * option Task :=
  match transition m id TransferState.Transferring None with
  | (false, m1) => (clean_up_temp m1 id, None)
  | (true, m1) =>
      match send_control m1 session (BAccept (bn_bytes id) challenge) with
      | (false, m2) => (fail m2 id FailureReason.Transport, None)
      | (true, m2) => (m2, match mg_role m with Dialer => Some (TDial id) | Acceptor => None end)
      end
  end.

Definition dial_start (m : Manager) (id : TransferId) : Manager * option Task :=
  if negb (mg_has_dialer m) then (fail m id FailureReason.Transport, None)
  else
    match mg_transfers m !! id with
    | None => (m, None)
    | Some r =>
        if negb (eqb (tr_state r) TransferState.Transferring) then (m, None)
        else
          match tr_challenge r with
          | None => (m, None)
          | Some c =>
              (update m id (set_challenge None),
               Some (TDialling id (compute_stream_mac (tr_profile r) c (tr_peer r) (mg_local m) id)))
          end
    end.

Definition dial_answered (m : Manager) (id : TransferId) (o : DialOutcome) : Manager * option Task :=
  match o with
  | DialFailed => (fail m id FailureReason.Transport, None)
  | DialRejected z => (fail m id (FailureReason.reason_from_proto z), None)
  | DialReady => let m1 := update m id start_stream in (m1, run_stream m1 id)
  end.

Definition receive_open (m : Manager) (id : TransferId) (plan : StreamPlan) : Manager * option Task :=
  match pl_temp plan with
  | None => (fail m id FailureReason.Storage, None)
  | Some temp =>
      match open_partial (mg_fs m) temp with
      | (false, fs) => (fail (set_fs m fs) id FailureReason.Storage, None)
      | (true, fs) => (set_fs m fs, Some (TCopy id plan temp))
      end
  end.

Definition receive_copy (m : Manager) (id : TransferId) (plan : StreamPlan) (temp : str)
    (evs : list ReadEvent) (room : option (N * io_kind)) : Manager * option Task :=
  match receive_exactly evs {| wr_bytes := []; wr_room := room |} (pl_size_bytes plan) with
  | None => (m, None)
  | Some (r, _, w, progress) =>
      let m1 := update (set_fs m (put_data (mg_fs m) temp (wr_bytes w))) id
                  (fun t => end_stream progress (tr_deadline t) t) in
      match r with
      | Err reason => (fail m1 id reason, None)
      | Ok digest => (m1, Some (TVerify id plan temp digest))
      end
  end.

Definition receive_verify (m : Manager) (id : TransferId) (plan : StreamPlan) (temp : str) (digest : bytesn 32)
    (synced : bool) : Manager * option Task :=
  if negb synced then (fail m id FailureReason.Storage, None)
  else
    match transition m id TransferState.Verifying None with
    | (false, m1) => (m1, None)
    | (true, m1) =>
        if negb (eqb digest (pl_sha256 plan)) then (fail m1 id FailureReason.Integrity, None)
        else (m1, Some (TPromote id plan temp))
    end.

Definition receive_promote (m : Manager) (id : TransferId) (plan : StreamPlan) (temp : str) : Manager * option Task :=
  match promote (mg_fs m) temp (pl_filename plan) with
  | (Err _, fs) => (fail (set_fs m fs) id FailureReason.Storage, None)
  | (Ok path, fs) => (set_fs m fs, Some (TStored id plan path))
  end.

Definition receive_stored (m : Manager) (id : TransferId) (plan : StreamPlan) (path : str) : Manager * option Task :=
  match transition (update m id (stored path)) id TransferState.Completed None with
  | (false, m1) => (m1, None)
  | (true, m1) => ((send_control m1 (pl_session plan) (BComplete (bn_bytes id))).2, None)
  end.

Definition send_run (m : Manager) (id : TransferId) (plan : StreamPlan) (src : option (list (option bytes)))
    (ws : list WriteEvent) (flushes : bool) : Manager * option Task :=
  match pl_source plan, src with
  | Some _, Some chunks =>
      match send_exactly chunks ws flushes {| wi_bytes := []; wi_closed := false |} (pl_size_bytes plan) with
      | None => (m, None)
      | Some (r, _, progress) =>
          let m1 := update m id (end_stream progress (mg_now m + VERDICT_TIMEOUT)) in
          match r with
          | Ok _ => (m1, None)
          | Err FailureReason.Transport => (m1, Some (TVerdict id))
          | Err reason => (fail m1 id reason, None)
          end
      end
  | _, _ => (fail m id FailureReason.Storage, None)
  end.

(** The grace of [peer_verdict_arrives] is over. *)
Definition verdict_waited (m : Manager) (id : TransferId) : Manager * option Task :=
  match mg_transfers m !! id with
  | None => (m, None)
  | Some r => if TransferState.is_terminal (tr_state r) then (m, None) else (fail m id FailureReason.Transport, None)
  end.

(** One suspension to the next; a task that is not woken by this input stays. *)
Definition task_step (m : Manager) (t : Task) (i : Input) : Manager * option Task :=
  match t, i with
  | TAwait id peer session, Answer yes => approval_answered m id peer session yes
  | TArm id session temp, Entropy c => approval_armed m id session temp c
  | TAccept id session challenge, Go => approval_accepted m id session challenge
  | TDial id, Go => dial_start m id
  | TDialling id _, Dialled o => dial_answered m id o
  | TReceive id plan, Go => receive_open m id plan
  | TCopy id plan temp, Network evs room => receive_copy m id plan temp evs room
  | TVerify id plan temp digest, Synced ok => receive_verify m id plan temp digest ok
  | TPromote id plan temp, Go => receive_promote m id plan temp
  | TStored id plan path, Go => receive_stored m id plan path
  | TSend id plan, Source src ws flushes => send_run m id plan src ws flushes
  | TVerdict id, Go => verdict_waited m id
  | t, _ => (m, Some t)
  end.

(** ** The reaper *)

Definition doomed (m : Manager) (r : TransferRecord) : option Reason :=
  if negb (TransferState.is_active (tr_state r)) then None
  else if is_closed m (tr_session r) then Some FailureReason.Transport
  else if negb (tr_stream_active r) && (tr_deadline r <=? mg_now m) then Some FailureReason.TimedOut
  else None.

Definition reap_once (m : Manager) : Manager :=
  let records := bt_values (mg_transfers m) in
  let dead := omap (fun r => (fun reason => (tr_id r, reason)) <$> doomed m r) records in
  let to_check := map (fun r => (tr_id r, tr_peer r))
    (filter (fun r => TransferState.is_active (tr_state r) && negb (bool_decide (is_Some (doomed m r))) = true) records) in
  let m1 := foldl (fun m d => fail m d.1 d.2) m dead in
  foldl (fun m c => if authorized m c.2 then m else fail m c.1 FailureReason.Revoked) m1 to_check.

(** Finished records past the newest [keep], oldest first. *)
Definition seq_le (a b : TransferRecord) : Prop := tr_seq a <= tr_seq b.
#[local] Instance seq_le_dec a b : Decision (seq_le a b) := N.le_dec _ _.

Definition forget_finished (m : Manager) (keep : nat) : Manager :=
  let finished := filter (fun r => TransferState.is_terminal (tr_state r) = true) (bt_values (mg_transfers m)) in
  if (length finished <=? keep)%nat then m
  else
    let gone := map tr_id (take (length finished - keep) (merge_sort seq_le finished)) in
    set_transfers m (foldl (fun t id => delete id t) (mg_transfers m) gone).

(** ** Everything that can happen *)

Inductive Event :=
| EvControl (peer : Fingerprint) (session : N) (profile : Profile) (payload : bytes) (rng : option StreamChallenge)
| EvOfferFile (peer : Fingerprint) (path raw_name : str) (src : option (list (option bytes))) (rng : option TransferId)
| EvCancel (id : TransferId)
| EvCancelPeer (peer : Fingerprint) (reason : Reason)
| EvStream (peer : Fingerprint) (frame : option (result io_kind DataStreamAuth)) (version : N) (profile : Profile)
    (sent : result io_kind unit)
| EvTask (k : nat) (i : Input)
| EvReap
| EvAttach (peer : Fingerprint) (session : N) (profile : Profile)
(** The world: channels open, clog and close, grants come and go, time passes,
    system calls fail. *)
| EvChannel (session : N) (c : option Channel)
| EvAuthorizer (f : Fingerprint -> bool)
| EvClock (elapsed : N)
| EvFaults (faults : list (option Fault)).

Definition set_env (m : Manager) (channels : gmap N Channel) (auth : option (Fingerprint -> bool)) (now : N)
    (faults : list (option Fault)) : Manager := {|
  mg_role := mg_role m; mg_local := mg_local m; mg_config := mg_config m; mg_transfers := mg_transfers m;
  mg_authorizer := auth; mg_has_dialer := mg_has_dialer m; mg_sessions := mg_sessions m;
  mg_channels := channels; mg_now := now; mg_next_seq := mg_next_seq m; mg_tasks := mg_tasks m; mg_log := mg_log m;
  mg_fs := {| fs_files := fs_files (mg_fs m); fs_dir := fs_dir (mg_fs m); fs_umask := fs_umask (mg_fs m);
              fs_faults := faults |} |}.

Definition step (m : Manager) (ev : Event) : Manager :=
  match ev with
  | EvControl peer session profile payload rng => (handle_control m peer session profile payload rng).2
  | EvOfferFile peer path raw_name src rng => (offer_file m peer path raw_name src id rng).2
  | EvCancel id => (cancel m id).2
  | EvCancelPeer peer reason => cancel_peer m peer reason
  | EvStream peer frame version profile sent => (accept_data_stream m peer frame version profile sent).2
  | EvTask k i =>
      match mg_tasks m !! k with
      | None => m
      | Some t =>
          match task_step (set_tasks m (delete k (mg_tasks m))) t i with
          | (m1, Some t') => spawn m1 t'
          | (m1, None) => m1
          end
      end
  | EvReap => reap_once m
  | EvAttach peer session profile => attach_session m peer session profile
  | EvChannel s c =>
      set_env m (match c with Some c => <[s := c]> (mg_channels m) | None => delete s (mg_channels m) end)
        (mg_authorizer m) (mg_now m) (fs_faults (mg_fs m))
  | EvAuthorizer f => set_env m (mg_channels m) (Some f) (mg_now m) (fs_faults (mg_fs m))
  | EvClock d => set_env m (mg_channels m) (mg_authorizer m) (mg_now m + d) (fs_faults (mg_fs m))
  | EvFaults l => set_env m (mg_channels m) (mg_authorizer m) (mg_now m) l
  end.

Definition run (m : Manager) (evs : list Event) : Manager := foldl step m evs.
End Ops.
