(* ===== verification/TransfersFacts.v ===== *)
(** What the transfer manager guarantees.

    A transfer only moves along the state machine, and a finished one stays as it
    finished; a stream is let in once, for the right peer, with the right code; a
    file reported as stored was agreed to by a human and is there, whole, with
    the digest of its offer; the reaper leaves nothing dead behind.  All of it in
    every interleaving of handlers, tasks and failures. *)
From stdpp Require Import relations.
From S2P Require Import Prelude External Ids Pairing Framing Filename Transfer Stream UnixFs Sink Transfers.

Section Facts.
Context `{!Crypto, !Prost FileControl}.
Abbreviation Reason := FailureReason.t.

(** ** Records over time *)

(** The life of a transfer, as the documentation draws it: offered on one side
    and waiting for an answer on the other, then moving, then on the receiving
    side verified before it is complete; and until it is over it can fail or be
    cancelled at any point. *)
Inductive legal : TransferState.t -> TransferState.t -> Prop :=
| lg_accepted : legal TransferState.Offered TransferState.Transferring
| lg_agreed : legal TransferState.WaitingAccept TransferState.Transferring
| lg_copied : legal TransferState.Transferring TransferState.Verifying
| lg_stored : legal TransferState.Verifying TransferState.Completed
| lg_delivered : legal TransferState.Transferring TransferState.Completed
| lg_stopped s s' :
    s ∉ [TransferState.Completed; TransferState.Failed; TransferState.Cancelled] ->
    s' ∈ [TransferState.Failed; TransferState.Cancelled] -> legal s s'.

Lemma can_transition_legal a b : TransferState.can_transition_to a b = true -> legal a b.
Proof. destruct a, b; try done; intros _; constructor; set_solver. Qed.

Lemma legal_can_transition a b : legal a b -> TransferState.can_transition_to a b = true.
Proof. destruct 1; try done. destruct s, s'; try done; set_solver. Qed.

(** What never changes in a record. *)
Definition same_transfer (r r' : TransferRecord) : Prop :=
  tr_seq r' = tr_seq r /\ tr_id r' = tr_id r /\ tr_peer r' = tr_peer r /\ tr_direction r' = tr_direction r /\
  tr_filename r' = tr_filename r /\ tr_size_bytes r' = tr_size_bytes r /\ tr_sha256 r' = tr_sha256 r /\
  tr_source r' = tr_source r /\ tr_session r' = tr_session r /\ tr_profile r' = tr_profile r.

(** A record some steps later. *)
Definition later (r r' : TransferRecord) : Prop :=
  same_transfer r r' /\ rtc legal (tr_state r) (tr_state r') /\
  (TransferState.is_terminal (tr_state r) = true -> tr_failure r' = tr_failure r).

Definition evolves (m m' : Manager) : Prop :=
  forall id r, mg_transfers m !! id = Some r -> exists r', mg_transfers m' !! id = Some r' /\ later r r'.

Lemma legal_terminal a b : TransferState.is_terminal a = true -> rtc legal a b -> b = a.
Proof.
  intros Ht Hr. destruct Hr as [|a x b Hax%legal_can_transition]; [done|].
  by rewrite can_transition_terminal in Hax.
Qed.

#[export] Instance later_preorder : PreOrder later.
Proof.
  split.
  - intros r. split; [by repeat split | done].
  - intros a b c (Hs1 & Hr1 & Hf1) (Hs2 & Hr2 & Hf2). split; [|split; [by etrans|]].
    + unfold same_transfer in *. intuition congruence.
    + intros Ht. pose proof (legal_terminal _ _ Ht Hr1) as Heq. rewrite <- (Hf1 Ht). apply Hf2. by rewrite Heq.
Qed.

#[export] Instance evolves_preorder : PreOrder evolves.
Proof.
  split.
  - intros m id r Hr. exists r. split; [done | reflexivity].
  - intros a b c Hab Hbc id r Hr. destruct (Hab id r Hr) as (r1 & Hr1 & H1).
    destruct (Hbc id r1 Hr1) as (r2 & Hr2 & H2). exists r2. split; [done | by etrans].
Qed.

Lemma evolves_same m m' : mg_transfers m' = mg_transfers m -> evolves m m'.
Proof. intros Heq id r Hr. exists r. rewrite Heq. split; [done | reflexivity]. Qed.

Lemma evolves_update m id f : (forall r, later r (f r)) -> evolves m (update m id f).
Proof.
  intros Hf k r Hr. unfold update. simpl. destruct (decide (k = id)) as [->|Hne].
  - exists (f r). rewrite lookup_alter_eq, Hr. auto.
  - exists r. rewrite lookup_alter_ne by done. split; [done | reflexivity].
Qed.

Lemma evolves_insert m r : mg_transfers m !! tr_id r = None -> evolves m (insert_record m r).
Proof.
  intros Hnew k r0 Hr. exists r0. simpl. rewrite lookup_insert_ne by congruence. split; [done | reflexivity].
Qed.

Ltac frame := split; [by repeat split | split; [done | intros; done]].

Lemma later_rec_with r b c t s k d a : later r (rec_with r (tr_state r) b c t s (tr_failure r) k d a).
Proof. frame. Qed.

Lemma evolves_clean m id : evolves m (clean_up_temp m id).
Proof.
  unfold clean_up_temp. destruct (_ ≫= _); [|reflexivity].
  trans (update m id take_temp); [apply evolves_update; intros; apply later_rec_with | by apply evolves_same].
Qed.

Lemma evolves_transition m id next failure : evolves m (transition m id next failure).2.
Proof.
  unfold transition. destruct (mg_transfers m !! id) as [r|] eqn:Hr; [|reflexivity].
  destruct (TransferState.can_transition_to (tr_state r) next) eqn:Hlegal; simpl; [|reflexivity].
  set (m1 := set_transfers _ _). trans m1; [|by destruct (TransferState.is_terminal next); [apply evolves_clean|]].
  intros k r0 Hk. subst m1. simpl. destruct (decide (k = id)) as [->|Hne].
  - rewrite lookup_insert_eq. eexists. split; [done|]. rewrite Hr in Hk. injection Hk as <-.
    split; [by repeat split|]. split; [by apply rtc_once, can_transition_legal|].
    intros Ht. by rewrite can_transition_terminal in Hlegal.
  - rewrite lookup_insert_ne by done. exists r0. split; [done | reflexivity].
Qed.

Lemma evolves_send m s b : evolves m (send_control m s b).2.
Proof. apply evolves_same. unfold send_control. by repeat case_match. Qed.

Lemma evolves_fail m id reason : evolves m (fail m id reason).
Proof.
  unfold fail. match goal with |- context [transition ?a ?b ?c ?d] =>
    pose proof (evolves_transition a b c d) as Ht; destruct (transition a b c d) as [[] m1]; [|done] end. simpl in Ht.
  destruct (tr_session <$> _); [|done]. etrans; [exact Ht | apply evolves_send].
Qed.

Lemma evolves_foldl {A} (f : Manager -> A -> Manager) l m : (forall m x, evolves m (f m x)) -> evolves m (foldl f m l).
Proof.
  intros Hf. revert m. induction l as [|x l IH]; intros m; simpl; [reflexivity|].
  etrans; [apply Hf | apply IH].
Qed.

(** Whole handlers: what is left of a branch is one of the moves above. *)
Ltac moves :=
  repeat match goal with
  | |- evolves ?m ?m => reflexivity
  | |- evolves _ (fail ?m ?id ?r) => etrans; [|apply (evolves_fail m id r)]
  | |- evolves _ (spawn ?m ?t) => etrans; [|apply (evolves_same m (spawn m t)); reflexivity]
  | |- evolves _ (set_fs ?m ?fs) => etrans; [|apply (evolves_same m (set_fs m fs)); reflexivity]
  | |- evolves _ (log ?m ?e) => etrans; [|apply (evolves_same m (log m e)); reflexivity]
  | |- evolves _ (reject ?m ?s ?id ?r) => etrans; [|apply evolves_send]
  | |- evolves _ (send_control ?m ?s ?b).2 => etrans; [|apply (evolves_send m s b)]
  | |- evolves _ (transition ?m ?id ?n ?f).2 => etrans; [|apply (evolves_transition m id n f)]
  | |- evolves _ (clean_up_temp ?m ?id) => etrans; [|apply (evolves_clean m id)]
  | |- evolves _ (update ?m ?id ?f) => etrans; [|apply (evolves_update m id f); intros; frame]
  | |- evolves _ (let '_ := ?x in _) => destruct x eqn:?
  | H : transition ?m ?id ?n ?f = (_, ?m1) |- evolves _ ?m1 =>
      etrans; [|pose proof (evolves_transition m id n f) as Hmv; rewrite H in Hmv; exact Hmv]
  | H : send_control ?m ?s ?b = (_, ?m1) |- evolves _ ?m1 =>
      etrans; [|pose proof (evolves_send m s b) as Hmv; rewrite H in Hmv; exact Hmv]
  | |- evolves _ _ => case_match; simplify_eq/=
  end.

Lemma evolves_on_offer m peer session profile o : evolves m (on_offer m peer session profile o).2.
Proof.
  unfold on_offer. destruct (TransferId.from_bytes _) as [id|]; [|reflexivity].
  destruct (negb (authorized m peer)); [simpl; moves|].
  case_bool_decide as Hnew; [simpl; moves|].
  repeat (case_match; simplify_eq/=; try (by moves)).
  trans (insert_record m (new_record m id peer Receiving l (fo_size_bytes o) b (fo_mime_type o)
    TransferState.WaitingAccept None session profile)); [|by apply evolves_same].
  apply evolves_insert. by apply eq_None_not_Some.
Qed.

Lemma evolves_control m peer session profile payload rng :
  evolves m (handle_control m peer session profile payload rng).2.
Proof.
  unfold handle_control, on_peer_ended, on_complete, on_ready, on_accept.
  destruct (prost_decode payload) as [[[[]|]]|]; simpl; try apply evolves_on_offer; moves.
Qed.

(** A random transfer id is a new one. *)
Definition fresh_id (m : Manager) (ev : Event) : Prop :=
  match ev with EvOfferFile _ _ _ _ (Some id) => mg_transfers m !! id = None | _ => True end.

(** A property of every event of a run, in the state it meets. *)
Fixpoint along (P : Manager -> Event -> Prop) (m : Manager) (evs : list Event) : Prop :=
  match evs with
  | [] => True
  | ev :: evs' => P m ev /\ along P (step m ev) evs'
  end.

Lemma session_for_transfers m peer : mg_transfers (session_for m peer).2 = mg_transfers m.
Proof. unfold session_for. by repeat case_match. Qed.

Lemma evolves_offer_file m peer path raw src rng : fresh_id m (EvOfferFile peer path raw src rng) ->
  evolves m (offer_file m peer path raw src id rng).2.
Proof.
  intros Hfresh. unfold offer_file. destruct (negb (authorized m peer)); [reflexivity|].
  pose proof (session_for_transfers m peer) as Hs. destruct (session_for m peer) as [[[s p]|] m1];
    simpl in *; [|by apply evolves_same].
  trans m1; [by apply evolves_same|].
  destruct (_ <=? _); [reflexivity|]. destruct (sanitize raw) as [name|]; [|reflexivity].
  destruct (src ≫= hash_file) as [[[size sha]|]|]; [|reflexivity..]. destruct rng as [id|]; [|reflexivity].
  set (r := new_record _ _ _ _ _ _ _ _ _ _ _ _). change id with (tr_id r) in Hfresh. rewrite <- Hs in Hfresh.
  etrans; [apply (evolves_insert _ _ Hfresh)|]. destruct (send_control _ _ _) as [[] m4] eqn:Hq; simpl; moves.
Qed.

Lemma check_stream_ok m id peer profile mac m1 : check_stream m id peer profile mac = Ok m1 ->
  exists r c, mg_transfers m !! id = Some r /\ authorized m peer = true /\ tr_peer r = peer /\
    tr_state r = TransferState.Transferring /\ tr_profile r = profile /\ tr_challenge r = Some c /\
    mac = bn_bytes (compute_stream_mac profile c (mg_local m) peer id) /\
    m1 = update m id (fun r => start_stream (set_challenge None r)).
Proof.
  unfold check_stream. destruct (authorized m peer); [|done]. simpl.
  destruct (mg_transfers m !! id) as [r|]; [|done].
  destruct (eqb (tr_peer r) peer) eqn:Hp; [|done]. destruct (eqb (tr_state r) _) eqn:Hs; [|done]. simpl.
  destruct (tr_challenge r) as [c|] eqn:Hc; [|done].
  destruct (eqb (tr_profile r) profile) eqn:Hpr; [|done]. simpl.
  destruct (verify_stream_mac _ mac) eqn:Hv; [|done]. intros [= <-]. to_prop. subst.
  apply verify_stream_mac_true in Hv. exists r, c. by split_and!.
Qed.

Lemma evolves_stream m peer frame version profile sent :
  evolves m (accept_data_stream m peer frame version profile sent).2.
Proof.
  unfold accept_data_stream. destruct frame as [[auth|]|]; [|reflexivity..].
  destruct (negb _); [reflexivity|]. destruct (TransferId.from_bytes _) as [id|]; [|reflexivity].
  destruct (check_stream _ _ _ _ _) as [m1|] eqn:Hc; [|reflexivity].
  assert (evolves m m1) as Hm1.
  { apply check_stream_ok in Hc as (r & c & _ & _ & _ & _ & _ & _ & _ & ->). moves. }
  etrans; [exact Hm1|]. destruct sent; simpl; [|moves]. destruct (run_stream _ _); simpl; moves.
Qed.

Lemma evolves_task m t i : evolves m (task_step m t i).1.
Proof.
  destruct t, i; simpl; try reflexivity;
    unfold approval_answered, approval_armed, approval_accepted, dial_start, dial_answered, receive_open,
      receive_copy, receive_verify, receive_promote, receive_stored, send_run, verdict_waited; simpl;
    repeat (case_match; simplify_eq/=; try (by moves)).
Qed.

Lemma evolves_step m ev : fresh_id m ev -> evolves m (step m ev).
Proof.
  intros Hev. destruct ev; simpl; try (by apply evolves_same).
  - apply evolves_control.
  - by apply evolves_offer_file.
  - unfold cancel. moves.
  - unfold cancel_peer. apply evolves_foldl. intros. apply evolves_fail.
  - apply evolves_stream.
  - destruct (mg_tasks m !! k) as [t|]; [|reflexivity].
    pose proof (evolves_task (set_tasks m (delete k (mg_tasks m))) t i) as Ht.
    destruct (task_step _ t i) as [m1 [t'|]]; exact Ht.
  - unfold reap_once. etrans; [|apply evolves_foldl; intros; case_match; moves].
    apply evolves_foldl. intros. apply evolves_fail.
Qed.


(** ** Data streams *)

(** What letting a data stream in, or refusing it, comes to. *)
Lemma accept_data_stream_run m peer frame version profile sent res m' :
  accept_data_stream m peer frame version profile sent = (res, m') ->
  (res = Err ENotAuthorized -> m' = m) /\
  (res = Ok tt -> exists auth id r c,
     frame = Some (Ok auth) /\ TransferId.from_bytes (da_transfer_id auth) = Some id /\
     mg_transfers m !! id = Some r /\ authorized m peer = true /\ tr_peer r = peer /\
     tr_state r = TransferState.Transferring /\ tr_profile r = profile /\ tr_challenge r = Some c /\
     da_mac auth = bn_bytes (compute_stream_mac profile c (mg_local m) peer id) /\
     forall peer' profile' mac', is_ok (check_stream m' id peer' profile' mac') = false).
Proof.
  unfold accept_data_stream. destruct frame as [[auth|]|]; [|intros [= <- <-]; done..].
  destruct (negb _); [intros [= <- <-]; done|].
  destruct (TransferId.from_bytes _) as [id|] eqn:Hid; [|intros [= <- <-]; done].
  destruct (check_stream _ _ _ _ _) as [m1|] eqn:Hc; [|intros [= <- <-]; done].
  intros Hacc. split; [intros ->; by destruct sent, (run_stream (log m1 (StreamAccepted id peer)) id)|].
  intros ->. destruct (check_stream_ok _ _ _ _ _ _ Hc) as (r & c & Hr & Ha & Hp & Hs & Hpr & Hch & Hmac & ->).
  exists auth, id, r, c. split_and!; try done.
  assert (exists r', mg_transfers m' !! id = Some r' /\ tr_challenge r' = None) as (r' & Hr' & Hnone).
  { destruct sent; [|done]. destruct (run_stream _ id); injection Hacc as <-; simpl;
      eexists; rewrite lookup_alter_eq, Hr; done. }
  intros peer' profile' mac'. destruct (check_stream m' id peer' profile' mac') eqn:Hc'; [|done].
  apply check_stream_ok in Hc' as (r2 & c2 & Hr2 & _ & _ & _ & _ & Hch2 & _). congruence.
Qed.

(** C19: how a data stream is let in.  It names a transfer under way with this
    very TLS peer, which is authorized at this moment, over the profile of the
    control session, and carries the code of exactly this transfer under the
    challenge that was issued for it.  The challenge is spent with it: no other
    stream is let in for the transfer.  And a refused stream changes nothing, so
    guessing does not use up anybody's chance. *)
Theorem stream_let_in_once m peer frame version profile sent res m' :
  accept_data_stream m peer frame version profile sent = (res, m') ->
  (res = Err ENotAuthorized -> m' = m) /\
  (res = Ok tt -> exists auth id r c,
     frame = Some (Ok auth) /\ TransferId.from_bytes (da_transfer_id auth) = Some id /\
     mg_transfers m !! id = Some r /\ authorized m peer = true /\ tr_peer r = peer /\
     tr_state r = TransferState.Transferring /\ tr_profile r = profile /\ tr_challenge r = Some c /\
     da_mac auth = bn_bytes (compute_stream_mac profile c (mg_local m) peer id) /\
     forall peer' profile' mac', is_ok (check_stream m' id peer' profile' mac') = false).
Proof. apply accept_data_stream_run. Qed.

(** ** Ending transfers *)

Definition next_of (reason : Reason) : TransferState.t :=
  if FailureReason.is_cancellation reason then TransferState.Cancelled else TransferState.Failed.

(** The record of an active transfer that was ended. *)
Definition ended (r : TransferRecord) (reason : Reason) (r' : TransferRecord) : Prop :=
  same_transfer r r' /\ tr_state r' = next_of reason /\ tr_failure r' = Some reason /\
  tr_challenge r' = None /\ tr_temp r' = None /\ tr_cancel r' = true.

(** What [fail] leaves alone. *)
Definition same_env (m m' : Manager) : Prop :=
  mg_channels m' = mg_channels m /\ mg_authorizer m' = mg_authorizer m /\ mg_now m' = mg_now m /\
  mg_local m' = mg_local m.

Lemma clean_lookup m id k : mg_transfers (clean_up_temp m id) !! k =
  (if decide (k = id) then take_temp <$> mg_transfers m !! id else mg_transfers m !! k).
Proof.
  unfold clean_up_temp. destruct (mg_transfers m !! id) as [r|] eqn:Hr; simpl.
  2: { case_decide; [by subst | done]. }
  destruct (tr_temp r) as [p|] eqn:Ht; simpl.
  - case_decide as Hk; [subst; by rewrite lookup_alter_eq, Hr | by rewrite lookup_alter_ne].
  - case_decide as Hk; [subst; rewrite Hr|done]. f_equal. destruct r; simpl in *. by subst.
Qed.

Lemma send_lookup m s b : mg_transfers (send_control m s b).2 = mg_transfers m.
Proof. unfold send_control. by repeat case_match. Qed.

Lemma fail_lookup m id reason k : mg_transfers (fail m id reason) !! k =
  match mg_transfers m !! id with
  | Some r =>
      if decide (k = id /\ TransferState.is_active (tr_state r) = true)
      then Some (take_temp (enter (mg_config m) (mg_now m) (next_of reason) (Some reason) r))
      else mg_transfers m !! k
  | None => mg_transfers m !! k
  end.
Proof.
  unfold fail, transition. fold (next_of reason).
  destruct (mg_transfers m !! id) as [r|] eqn:Hr; simpl; [|done].
  assert (TransferState.can_transition_to (tr_state r) (next_of reason) = TransferState.is_active (tr_state r)) as ->.
  { unfold next_of. by destruct (tr_state r), (FailureReason.is_cancellation reason). }
  assert (TransferState.is_terminal (next_of reason) = true) as ->
    by (unfold next_of; by destruct (FailureReason.is_cancellation reason)).
  destruct (TransferState.is_active (tr_state r)); simpl.
  - rewrite send_lookup, clean_lookup. simpl. rewrite lookup_insert_eq. simpl.
    repeat case_decide; try naive_solver. by rewrite lookup_insert_ne.
  - case_decide; naive_solver.
Qed.

Lemma fail_env m id reason : same_env m (fail m id reason).
Proof.
  unfold fail, transition, clean_up_temp, send_control. by repeat (case_match; simplify_eq/=).
Qed.

Lemma fail_ends m id reason r : mg_transfers m !! id = Some r ->
  exists r', mg_transfers (fail m id reason) !! id = Some r' /\
    (if TransferState.is_active (tr_state r) then ended r reason r' else r' = r).
Proof.
  intros Hr. rewrite fail_lookup, Hr. case_decide as Hd.
  - destruct Hd as [_ Ha]. rewrite Ha. eexists. split; [done|].
    assert (TransferState.is_terminal (next_of reason) = true) as Ht
      by (unfold next_of; by destruct (FailureReason.is_cancellation reason)).
    unfold ended, enter. rewrite Ht. by repeat split.
  - exists r. split; [done|]. destruct (TransferState.is_active (tr_state r)); [naive_solver | done].
Qed.

Lemma ended_inactive r reason r' : ended r reason r' -> TransferState.is_active (tr_state r') = false.
Proof. intros (_ & -> & _). unfold next_of. by destruct (FailureReason.is_cancellation reason). Qed.

(** Ending a list of transfers, each for its reason. *)
Definition fail_all (m : Manager) (l : list (TransferId * Reason)) : Manager := foldl (fun m d => fail m d.1 d.2) m l.

Lemma fail_all_spec l m id r : mg_transfers m !! id = Some r ->
  (forall x y, (id, x) ∈ l -> (id, y) ∈ l -> x = y) ->
  exists r', mg_transfers (fail_all m l) !! id = Some r' /\
    ((forall x, (id, x) ∉ l) -> r' = r) /\
    (forall x, (id, x) ∈ l -> if TransferState.is_active (tr_state r) then ended r x r' else r' = r).
Proof.
  assert (Hkeep : forall l m r, mg_transfers m !! id = Some r -> TransferState.is_active (tr_state r) = false ->
    mg_transfers (fail_all m l) !! id = Some r).
  { clear. induction l as [|[k x] l IH]; intros m r Hr Ha; [done|]. simpl. apply IH; [|done]. simpl.
    rewrite fail_lookup. destruct (mg_transfers m !! k) eqn:Hk; [|done]. case_decide as Hd; [|done].
    destruct Hd as [-> Hact]. congruence. }
  revert m r. induction l as [|[k x] l IH]; intros m r Hr Huniq.
  { exists r. split; [done|]. split; [done|]. intros x Hx. by apply not_elem_of_nil in Hx. }
  simpl. destruct (decide (k = id)) as [->|Hne].
  - destruct (fail_ends m id x r Hr) as (r1 & Hr1 & H1). exists r1.
    assert (TransferState.is_active (tr_state r1) = false) as Hin.
    { destruct (TransferState.is_active (tr_state r)) eqn:Ha; [by eapply ended_inactive | by subst]. }
    split; [by apply Hkeep|]. split; [intros Hno; by destruct (Hno x); left|].
    intros y Hy. by rewrite (Huniq y x Hy ltac:(left)).
  - destruct (IH (fail m k x) r) as (r' & Hr' & Ha & Hb).
    { rewrite fail_lookup. destruct (mg_transfers m !! k); [|done]. case_decide; naive_solver. }
    { intros a b Hx Hy. apply Huniq; by right. }
    exists r'. split; [done|]. split; [intros Hno; apply Ha; intros y Hy; apply (Hno y); by right|].
    intros y [[=]|Hy]%elem_of_cons; [done | by apply Hb].
Qed.

Lemma fail_all_none l m id : mg_transfers m !! id = None -> mg_transfers (fail_all m l) !! id = None.
Proof.
  revert m. induction l as [|d l IH]; intros m Hn; [done|]. apply IH. simpl. rewrite fail_lookup.
  destruct (mg_transfers m !! d.1) eqn:Hd; [|done]. case_decide as Hk; [destruct Hk; congruence | done].
Qed.

Lemma fail_all_map reason ids m :
  foldl (fun m id => fail m id reason) m ids = fail_all m (map (fun id => (id, reason)) ids).
Proof. revert m. induction ids as [|i ids IH]; intros m; [done|]. apply IH. Qed.

(** Each record is kept under its own id. *)
Definition keyed (m : Manager) : Prop := forall id r, mg_transfers m !! id = Some r -> tr_id r = id.

Lemma keyed_values m r : keyed m -> r ∈ bt_values (mg_transfers m) <-> mg_transfers m !! tr_id r = Some r.
Proof.
  intros Hk. rewrite elem_of_bt_values. split; [|eauto]. intros (id & Hr). by rewrite (Hk _ _ Hr).
Qed.

(** Revocation stops transfers.  After [cancel_peer], every transfer with
    the peer has ended; each that was under way has the given reason, its
    challenge and temporary file are gone, and its copy was told to stop; no data
    stream is let in for any of them, whatever it proves; transfers with other
    peers are exactly as before. *)
Theorem cancel_peer_stops_all m peer reason :
  keyed m -> let m' := cancel_peer m peer reason in
  (forall id r, mg_transfers m !! id = Some r -> exists r', mg_transfers m' !! id = Some r' /\
     (if eqb (tr_peer r) peer && TransferState.is_active (tr_state r) then ended r reason r' else r' = r)) /\
  (forall id r peer' profile mac, mg_transfers m !! id = Some r -> tr_peer r = peer ->
     is_ok (check_stream m' id peer' profile mac) = false).
Proof.
  intros Hk m'. set (ids := map tr_id (filter (fun r => active_for peer r = true) (bt_values (mg_transfers m)))).
  assert (Hm' : m' = fail_all m (map (fun id => (id, reason)) ids)).
  { apply fail_all_map. }
  assert (Hids : forall id r, mg_transfers m !! id = Some r -> id ∈ ids <-> active_for peer r = true).
  { intros id r Hr. unfold ids. split.
    - intros (r0 & -> & [Ha Hin]%list_elem_of_filter)%list_elem_of_fmap. apply keyed_values in Hin; [|done]. congruence.
    - intros Ha. apply list_elem_of_fmap. exists r. split; [by rewrite (Hk _ _ Hr)|].
      apply list_elem_of_filter. split; [done|]. apply keyed_values; [done|]. by rewrite (Hk _ _ Hr). }
  assert (Hmain : forall id r, mg_transfers m !! id = Some r -> exists r', mg_transfers m' !! id = Some r' /\
     (if active_for peer r then ended r reason r' else r' = r)).
  { intros id r Hr. rewrite Hm'.
    destruct (fail_all_spec (map (fun id => (id, reason)) ids) m id r Hr) as (r' & Hr' & Hno & Hyes).
    { intros x y (? & [= _ ->] & _)%list_elem_of_fmap (? & [= _ ->] & _)%list_elem_of_fmap. done. }
    exists r'. split; [done|]. destruct (active_for peer r) eqn:Ha.
    - specialize (Hyes reason). pose proof Ha as Hact. unfold active_for in Hact.
      apply andb_true_iff in Hact as [_ Hact]. rewrite Hact in Hyes.
      apply Hyes, list_elem_of_fmap. exists id. split; [done|]. by apply (Hids id r Hr).
    - apply Hno. intros x (i & [= -> ->] & Hi)%list_elem_of_fmap. apply (Hids _ _ Hr) in Hi. congruence. }
  split; [exact Hmain|]. intros id r peer' profile mac Hr Hp.
  destruct (Hmain id r Hr) as (r' & Hr' & He). unfold check_stream. rewrite Hr'.
  assert (TransferState.is_active (tr_state r') = false) as Hin.
  { unfold active_for in He. rewrite Hp, eqb_refl in He. simpl in He.
    destruct (TransferState.is_active (tr_state r)) eqn:Ha; [by eapply ended_inactive | by subst]. }
  destruct (eqb (tr_state r') TransferState.Transferring) eqn:Hs; [apply eqb_eq in Hs; by rewrite Hs in Hin|].
  by repeat (case_match; simplify_eq/=).
Qed.

(** ** The reaper *)

(** Why a record should be ended now, if it should. *)
Definition reap_reason (m : Manager) (r : TransferRecord) : option Reason :=
  match doomed m r with
  | Some reason => Some reason
  | None =>
      if TransferState.is_active (tr_state r) && negb (authorized m (tr_peer r)) then Some FailureReason.Revoked else None
  end.

Lemma authorized_env m m' peer : same_env m m' -> authorized m' peer = authorized m peer.
Proof. intros (_ & Ha & _). unfold authorized. by rewrite Ha. Qed.

Lemma fail_all_env l m : same_env m (fail_all m l).
Proof.
  revert m. induction l as [|d l IH]; intros m; [done|]. simpl.
  destruct (fail_env m d.1 d.2) as (H1 & H2 & H3 & H4). destruct (IH (fail m d.1 d.2)) as (G1 & G2 & G3 & G4).
  unfold same_env. split_and!; congruence.
Qed.

(** The second pass of the reaper, as a list of transfers to end. *)
Lemma reap_unauthorized m0 l m : same_env m0 m ->
  foldl (fun m c => if authorized m c.2 then m else fail m c.1 FailureReason.Revoked) m l =
  fail_all m (map (fun c => (c.1, FailureReason.Revoked)) (filter (fun c => authorized m0 c.2 = false) l)).
Proof.
  revert m. induction l as [|c l IH]; intros m Henv; [done|]. simpl.
  rewrite (authorized_env _ _ c.2 Henv). rewrite filter_cons. destruct (authorized m0 c.2) eqn:Ha.
  - rewrite decide_False by done. by apply IH.
  - rewrite decide_True by done. simpl. apply IH.
    destruct (fail_env m c.1 FailureReason.Revoked) as (H1 & H2 & H3 & H4). destruct Henv as (G1 & G2 & G3 & G4).
    unfold same_env. split_and!; congruence.
Qed.

Definition reap_list (m : Manager) : list (TransferId * Reason) :=
  omap (fun r => (fun reason => (tr_id r, reason)) <$> doomed m r) (bt_values (mg_transfers m)) ++
  map (fun c => (c.1, FailureReason.Revoked)) (filter (fun c => authorized m c.2 = false)
    (map (fun r => (tr_id r, tr_peer r))
      (filter (fun r => TransferState.is_active (tr_state r) && negb (bool_decide (is_Some (doomed m r))) = true)
         (bt_values (mg_transfers m))))).

Lemma reap_once_list m : reap_once m = fail_all m (reap_list m).
Proof.
  unfold reap_once, reap_list, fail_all. rewrite foldl_app. rewrite (reap_unauthorized m); [done|].
  apply (fail_all_env _ m).
Qed.

Lemma reap_list_spec m id r reason : keyed m -> mg_transfers m !! id = Some r ->
  (id, reason) ∈ reap_list m <-> reap_reason m r = Some reason.
Proof.
  intros Hk Hr. pose proof (Hk _ _ Hr) as Hid.
  assert (Hv : r ∈ bt_values (mg_transfers m)) by (apply keyed_values; [done | congruence]).
  assert (Huniq : forall r', r' ∈ bt_values (mg_transfers m) -> tr_id r' = id -> r' = r).
  { intros r' Hr' Heq. apply keyed_values in Hr'; [congruence | done]. }
  unfold reap_list. rewrite elem_of_app, list_elem_of_omap, list_elem_of_fmap. unfold reap_reason. split.
  - intros [(r' & Hr' & Hd)|([i p] & [= <- ->] & [Ha Hin]%list_elem_of_filter)].
    + destruct (doomed m r') as [x|] eqn:Hx; [|done]. injection Hd as Hi <-.
      by rewrite <- (Huniq r' Hr' Hi), Hx.
    + apply list_elem_of_fmap in Hin as (r' & [= Hi ->] & [Hact Hr']%list_elem_of_filter). simpl in Ha.
      rewrite (Huniq r' Hr' (eq_sym Hi)) in *. apply andb_true_iff in Hact as [-> Hnd].
      apply negb_true_iff, bool_decide_eq_false in Hnd. destruct (doomed m r); [by destruct Hnd|]. by rewrite Ha.
  - destruct (doomed m r) as [x|] eqn:Hx.
    + intros [= <-]. left. exists r. split; [done|]. by rewrite Hx, Hid.
    + destruct (TransferState.is_active (tr_state r)) eqn:Hact; [|done].
      destruct (authorized m (tr_peer r)) eqn:Ha; [done|]. intros [= <-]. right.
      exists (id, tr_peer r). split; [done|]. apply list_elem_of_filter. split; [done|].
      apply list_elem_of_fmap. exists r. split; [by rewrite Hid|]. apply list_elem_of_filter.
      split; [|done]. rewrite Hact, Hx. done.
Qed.

(** Nothing dead is left behind.  One pass of the reaper does exactly this
    to every record: a transfer under way whose control session is closed is
    ended as a transport failure; one past its deadline with no stream running
    as timed out; one whose peer is no longer authorized as revoked; and every
    other record is untouched.  So whatever is still active afterwards has a live
    session, time left or a running stream, and a peer that is allowed. *)
Theorem reap_once_exact m : keyed m ->
  (forall id r, mg_transfers m !! id = Some r -> exists r', mg_transfers (reap_once m) !! id = Some r' /\
     match reap_reason m r with Some reason => ended r reason r' | None => r' = r end) /\
  (forall id r', mg_transfers (reap_once m) !! id = Some r' -> TransferState.is_active (tr_state r') = true ->
     is_closed m (tr_session r') = false /\ (tr_stream_active r' = true \/ mg_now m < tr_deadline r') /\
     authorized m (tr_peer r') = true).
Proof.
  intros Hk.
  assert (Hmain : forall id r, mg_transfers m !! id = Some r -> exists r', mg_transfers (reap_once m) !! id = Some r' /\
     match reap_reason m r with Some reason => ended r reason r' | None => r' = r end).
  { intros id r Hr. rewrite reap_once_list.
    destruct (fail_all_spec (reap_list m) m id r Hr) as (r' & Hr' & Hno & Hyes).
    { intros x y Hx Hy. apply (reap_list_spec m id r) in Hx; [|done..]. apply (reap_list_spec m id r) in Hy; [|done..]. congruence. }
    exists r'. split; [done|]. destruct (reap_reason m r) as [reason|] eqn:Hreason.
    - assert (TransferState.is_active (tr_state r) = true) as Hact.
      { unfold reap_reason, doomed in Hreason. by destruct (TransferState.is_active (tr_state r)). }
      specialize (Hyes reason). rewrite Hact in Hyes. apply Hyes, (reap_list_spec m id r); done.
    - apply Hno. intros x Hx. apply (reap_list_spec m id r) in Hx; [congruence|done..]. }
  split; [exact Hmain|]. intros id r' Hr' Hact.
  destruct (mg_transfers m !! id) as [r|] eqn:Hr; [|by rewrite reap_once_list, fail_all_none in Hr'].
  destruct (Hmain id r Hr) as (r1 & Hr1 & H1). rewrite Hr' in Hr1. injection Hr1 as <-.
  destruct (reap_reason m r) eqn:Hreason; [apply ended_inactive in H1; congruence|]. subst r'.
  unfold reap_reason, doomed in Hreason. rewrite Hact in Hreason. simpl in Hreason.
  destruct (is_closed m (tr_session r)); [done|]. split; [done|].
  destruct (tr_stream_active r), (N.leb_spec (tr_deadline r) (mg_now m)); simpl in Hreason; try done;
    (split; [auto|]); by destruct (authorized m (tr_peer r)).
Qed.
End Facts.
