(* ===== verification/TransfersStored.v ===== *)
(** Every file reported as stored was agreed to and is intact.

    The invariant behind it, kept by every step of the manager in the acceptor's
    role (the desktop's): at most one task or challenge stands for a transfer
    being received, so nothing else touches its temporary file; what a task
    carries from copy to promotion stays true of that file for as long as it
    exists; and nothing ever overwrites a file under its final name. *)
From S2P Require Import Prelude External Ids Pairing Framing Filename Transfer Stream UnixFs Sink Transfers TransfersFacts.

(** ** Temporary names *)

Definition is_temp (k : str) : Prop := exists id, k = temp_name id.

Lemma temp_name_inj a b : temp_name a = temp_name b -> a = b.
Proof.
  unfold temp_name. intros Heq%(inj (app _)).
  assert (Hp : forall i : TransferId, hex_pairs hex_val (TransferId.to_hex i) = Some (bn_bytes i)).
  { intros i. apply hex_pairs_string. intros x. destruct (hex_byte_spec x) as (hi & lo & ? & _ & _ & _ & _ & ? & ? & _). eauto. }
  apply app_inv_tail in Heq. pose proof (Hp a) as Ha. rewrite Heq, Hp in Ha. injection Ha as Ha. by apply bytesn_eq.
Qed.

(** Away from the names in [own], files are kept, or are temporaries removed, or
    are new under a name that is no temporary's. *)
Definition frame (own : str -> Prop) (files files' : gmap str File) : Prop :=
  forall k, ~ own k ->
    files' !! k = files !! k \/ (is_temp k /\ files' !! k = None) \/ (~ is_temp k /\ files !! k = None).

Lemma frame_kept own a b k f : frame own a b -> ~ own k -> ~ is_temp k -> a !! k = Some f -> b !! k = Some f.
Proof. intros Hf Ho Ht Ha. destruct (Hf k Ho) as [->|[[? _]|[_ ?]]]; [done | done | congruence]. Qed.

Lemma frame_temp own a b k f : frame own a b -> ~ own k -> is_temp k -> b !! k = Some f -> a !! k = Some f.
Proof. intros Hf Ho Ht Hb. destruct (Hf k Ho) as [<-|[[_ ?]|[? _]]]; [done | congruence | done]. Qed.

Lemma frame_refl own a : frame own a a.
Proof. intros k _. by left. Qed.

Lemma frame_trans own a b c : frame own a b -> frame own b c -> frame own a c.
Proof.
  intros Hab Hbc k Ho. destruct (Hab k Ho) as [H1|[[Ht H1]|[Ht H1]]], (Hbc k Ho) as [H2|[[Ht2 H2]|[Ht2 H2]]];
    first [left; congruence | right; left; split; [assumption | congruence] | right; right; split; [assumption | congruence]].
Qed.

(** Promotion with nothing assumed of the temporary file. *)
Lemma promote_frame fs temp name r fs' : promote fs temp name = (r, fs') -> is_temp temp ->
  (forall n, ~ is_temp (candidate_name name n)) ->
  frame (eq temp) (fs_files fs) (fs_files fs') /\
  forall path, r = Ok path -> ~ is_temp path /\
    exists f, fs_files fs !! temp = Some f /\ f_data <$> fs_files fs' !! path = Some (f_data f).
Proof.
  intros Hp Htemp Hname. unfold promote in Hp.
  destruct (reserve fs name) as [[path|e] fs1] eqn:Hr; apply reserve_spec in Hr.
  2: { injection Hp as <- <-. rewrite Hr. split; [apply frame_refl | done]. }
  destruct Hr as ((n & _ & ->) & _ & Hfree & mode & Hm).
  set (path := candidate_name name n) in *.
  assert (Hk : forall k, temp <> k -> k <> path -> fs_files (chmod_ignored fs1 temp 384) !! k = fs_files fs !! k).
  { intros k Ht Hk. rewrite (chmod_other fs1 temp 384 k) by congruence. by rewrite Hm, lookup_insert_ne. }
  destruct (rename _ temp path) as [[[]|e] fs3] eqn:Hren; apply rename_spec in Hren; injection Hp as <- <-.
  - destruct Hren as (g & Hg & ->). assert (Hne : temp <> path) by (intros ->; by apply (Hname n)).
    split.
    + intros k Ht. destruct (decide (k = path)) as [->|Hkp]; [right; right; split; [apply Hname | done]|]. left.
      rewrite lookup_insert_ne, lookup_delete_ne by done. by apply Hk.
    + intros ? [= <-]. split; [apply Hname|]. rewrite lookup_insert_eq.
      pose proof (chmod_data fs1 temp 384 temp) as Hd. rewrite Hg, Hm, lookup_insert_ne in Hd by done.
      destruct (fs_files fs !! temp) as [f|]; [|done]. exists f. by rewrite Hd.
  - destruct (remove_spec fs3 path) as [Hrem Hpath]. rewrite Hren in *.
    split; [|done]. intros k Ht. destruct (decide (k = path)) as [->|Hkp]; [right; right; split; [apply Hname | done]|]. left.
    rewrite Hrem by done. by apply Hk.
Qed.

Lemma open_temp_frame fs id r fs' : open_temp fs id = (r, fs') ->
  frame (eq (temp_name id)) (fs_files fs) (fs_files fs') /\ (forall t, r = Ok t -> t = temp_name id) /\
  (is_ok r = false -> fs_files fs' = fs_files fs).
Proof.
  unfold open_temp. destruct (prepare fs) as [[|e] fs1] eqn:Hp; apply prepare_files in Hp.
  2: { intros [= <- <-]. rewrite Hp. split; [apply frame_refl | done]. }
  destruct (create_new fs1 _ 384) as [r1 fs2] eqn:Hc. apply create_new_spec in Hc as [(-> & _ & mode & Hf)|[Hno Hf]].
  - intros [= <- <-]. rewrite Hf, Hp. split; [|naive_solver].
    intros k Hk. left. by rewrite lookup_insert_ne.
  - destruct r1; [done|]. intros [= <- <-]. rewrite Hf, Hp. split; [apply frame_refl | done].
Qed.

Lemma open_partial_frame fs path ok fs' : open_partial fs path = (ok, fs') ->
  frame (eq path) (fs_files fs) (fs_files fs').
Proof.
  unfold open_partial. destruct (syscall fs) as [o fs1] eqn:Hs. apply syscall_same in Hs as (Hf & _ & _).
  intros Hp. destruct o; simplify_eq/=; [rewrite Hf; apply frame_refl|].
  destruct (fs_files fs1 !! path) as [f|]; simplify_eq/=; [|rewrite Hf; apply frame_refl].
  destruct (owner_w (f_mode f)); simplify_eq/=; [|rewrite Hf; apply frame_refl].
  intros k Hk. left. rewrite lookup_insert_ne by done. by rewrite Hf.
Qed.

Lemma put_data_frame fs path b : frame (eq path) (fs_files fs) (fs_files (put_data fs path b)) /\
  forall f, fs_files (put_data fs path b) !! path = Some f -> f_data f = b.
Proof.
  split.
  - intros k Hk. left. simpl. by rewrite lookup_alter_ne.
  - intros f. simpl. rewrite lookup_alter_eq. by destruct (fs_files fs !! path); intros [= <-].
Qed.

Section Stored.
Context `{!Crypto, !Prost FileControl}.
Abbreviation Reason := FailureReason.t.

(** ** The invariant *)

Definition progressed (s : TransferState.t) : Prop :=
  s = TransferState.Transferring \/ s = TransferState.Verifying \/ s = TransferState.Completed.

(** The file of an offer: its size and its digest. *)
Definition verified (size : N) (sha : bytesn 32) (f : File) : Prop :=
  len (f_data f) = size /\ sha256 (f_data f) = sha.

Record rec_ok (l : list LogEntry) (files : gmap str File) (id : TransferId) (r : TransferRecord) : Prop := {
  ro_id : tr_id r = id;
  ro_temp : forall p, tr_temp r = Some p -> p = temp_name id;
  ro_stored : forall p, tr_stored_at r = Some p -> tr_direction r = Receiving /\ Confirmed id true ∈ l /\ ~ is_temp p /\
    exists f, files !! p = Some f /\ verified (tr_size_bytes r) (tr_sha256 r) f;
  ro_name : tr_direction r = Receiving -> forall n, ~ is_temp (candidate_name (tr_filename r) n);
  ro_agreed : tr_direction r = Receiving -> progressed (tr_state r) \/ is_Some (tr_challenge r) -> Confirmed id true ∈ l;
  ro_done : tr_direction r = Receiving -> tr_state r = TransferState.Completed -> is_Some (tr_stored_at r)
}.

(** A stream's plan is that of a transfer being received. *)
Definition plan_ok (m : Manager) (id : TransferId) (plan : StreamPlan) : Prop :=
  Confirmed id true ∈ mg_log m /\ (forall p, pl_temp plan = Some p -> p = temp_name id) /\
  exists r, mg_transfers m !! id = Some r /\ tr_direction r = Receiving /\ tr_size_bytes r = pl_size_bytes plan /\
    tr_sha256 r = pl_sha256 plan /\ tr_filename r = pl_filename plan.

Definition receiving (m : Manager) (id : TransferId) : Prop :=
  exists r, mg_transfers m !! id = Some r /\ tr_direction r = Receiving.

Abbreviation files m := (fs_files (mg_fs m)).

Definition task_ok (m : Manager) (t : Task) : Prop :=
  match t with
  | TAwait id _ _ => receiving m id
  | TArm id _ temp => temp = temp_name id /\ Confirmed id true ∈ mg_log m /\ receiving m id
  | TAccept id _ _ => Confirmed id true ∈ mg_log m
  | TReceive id plan => plan_ok m id plan
  | TCopy id plan temp => plan_ok m id plan /\ temp = temp_name id
  | TVerify id plan temp digest => plan_ok m id plan /\ temp = temp_name id /\
      forall f, files m !! temp_name id = Some f -> verified (pl_size_bytes plan) digest f
  | TPromote id plan temp => plan_ok m id plan /\ temp = temp_name id /\
      forall f, files m !! temp_name id = Some f -> verified (pl_size_bytes plan) (pl_sha256 plan) f
  | TStored id plan path => plan_ok m id plan /\ ~ is_temp path /\
      exists f, files m !! path = Some f /\ verified (pl_size_bytes plan) (pl_sha256 plan) f
  | TDial _ | TDialling _ _ => False
  | TSend _ _ | TVerdict _ => True
  end.

(** The transfer a task may touch the temporary file of. *)
Definition token (t : Task) : option TransferId :=
  match t with
  | TAwait id _ _ | TArm id _ _ | TReceive id _ | TCopy id _ _ | TVerify id _ _ _ | TPromote id _ _ => Some id
  | _ => None
  end.

Record Inv (m : Manager) (tasks : list Task) : Prop := {
  iv_role : mg_role m = Acceptor;
  iv_recs : forall id r, mg_transfers m !! id = Some r -> rec_ok (mg_log m) (files m) id r;
  iv_tasks : Forall (task_ok m) tasks;
  iv_tokens : NoDup (omap token tasks);
  iv_challenge : forall id r, mg_transfers m !! id = Some r -> tr_direction r = Receiving ->
    is_Some (tr_challenge r) -> id ∉ omap token tasks
}.

Lemma token_receiving m t id : task_ok m t -> token t = Some id -> receiving m id.
Proof.
  unfold receiving. destruct t; simpl; try done; intros Ht [= ->]; unfold receiving, plan_ok in *; naive_solver.
Qed.

Lemma tokens_receiving m tasks id : Forall (task_ok m) tasks -> id ∈ omap token tasks -> receiving m id.
Proof.
  intros Hall (t & Ht & Htok)%list_elem_of_omap. rewrite Forall_forall in Hall. eapply token_receiving; eauto.
Qed.

#[local] Instance Inv_perm m : Proper ((≡ₚ) ==> iff) (Inv m).
Proof.
  assert (forall l k, l ≡ₚ k -> Inv m l -> Inv m k) as Hp.
  { intros l k Hlk [H1 H2 H3 H4 H5]. split; [done | done | by rewrite <- Hlk | by rewrite <- Hlk|].
    intros id r Hr Hd Hc. rewrite <- Hlk. by eapply H5. }
  intros l k Hlk. split; by apply Hp.
Qed.

Lemma Inv_drop m t rest : Inv m (t :: rest) -> Inv m rest.
Proof.
  intros [H1 H2 [_ H3]%Forall_cons H4 H5]. simpl in *. split; [done | done | done | |].
  - destruct (token t); [by apply NoDup_cons in H4 as [_ H4] | done].
  - intros id r Hr Hd Hc Hin. apply (H5 id r Hr Hd Hc). destruct (token t); [by right | done].
Qed.

(** ** Steps that keep it without touching it *)

Definition quiet_rec (r r' : TransferRecord) : Prop :=
  same_transfer r r' /\ tr_stored_at r' = tr_stored_at r /\ (tr_temp r' = tr_temp r \/ tr_temp r' = None) /\
  (tr_direction r = Receiving ->
     (tr_challenge r' = tr_challenge r \/ tr_challenge r' = None) /\
     (progressed (tr_state r') -> progressed (tr_state r)) /\
     (tr_state r' = TransferState.Completed -> tr_state r = TransferState.Completed)).

Definition temps_ok (m : Manager) : Prop :=
  forall id r p, mg_transfers m !! id = Some r -> tr_temp r = Some p -> p = temp_name id.

Definition quiet_at (o o' : option TransferRecord) : Prop :=
  match o, o' with
  | Some r, Some r' => quiet_rec r r'
  | None, None => True
  | _, _ => False
  end.

Record quiet (m m' : Manager) : Prop := {
  qt_role : mg_role m' = mg_role m;
  qt_tasks : mg_tasks m' = mg_tasks m;
  qt_log : mg_log m `prefix_of` mg_log m';
  qt_recs : forall id, quiet_at (mg_transfers m !! id) (mg_transfers m' !! id);
  qt_files : temps_ok m -> frame (fun _ => False) (files m) (files m')
}.

#[local] Instance quiet_rec_preorder : PreOrder quiet_rec.
Proof.
  split.
  - intros r. split_and!; [by repeat split | done | by left | naive_solver].
  - intros a b c (Hs & Ht & Hp & Hd) (Hs' & Ht' & Hp' & Hd').
    split; [unfold same_transfer in *; intuition congruence|]. split; [congruence|].
    split; [destruct Hp, Hp'; first [left; congruence | right; congruence]|].
    intros Hr. destruct (Hd Hr) as (H1 & H2 & H3).
    destruct Hs as (_ & _ & _ & Hdir & _). destruct (Hd' ltac:(congruence)) as (G1 & G2 & G3).
    split; [destruct H1, G1; first [left; congruence | right; congruence]|]. auto.
Qed.

#[local] Instance quiet_at_refl : Reflexive quiet_at.
Proof. intros [r|]; simpl; [reflexivity | done]. Qed.

Lemma quiet_temps m m' : quiet m m' -> temps_ok m -> temps_ok m'.
Proof.
  intros [_ _ _ Hr _] Ht id r p Hid Hp. specialize (Hr id). rewrite Hid in Hr.
  destruct (mg_transfers m !! id) as [r0|] eqn:H0; [|done]. destruct Hr as (_ & _ & [He|He] & _); [|congruence].
  apply (Ht id r0); congruence.
Qed.

#[local] Instance quiet_preorder : PreOrder quiet.
Proof.
  split.
  - intros m. split; [done..| |intros _; apply frame_refl]. intros id. unfold quiet_at. case_match; [reflexivity | done].
  - intros a b c Hab Hbc. pose proof (quiet_temps _ _ Hab) as Ht.
    destruct Hab as [R1 T1 L1 Q1 F1], Hbc as [R2 T2 L2 Q2 F2]. split; [congruence | congruence | by etrans | |].
    + intros id. specialize (Q1 id). specialize (Q2 id). unfold quiet_at in *.
      repeat case_match; try done. by etrans.
    + intros Hok. eapply frame_trans; eauto.
Qed.

Lemma Inv_temps m tasks : Inv m tasks -> temps_ok m.
Proof. intros [_ Hr _ _ _] id r p Hid Hp. by apply (ro_temp _ _ _ _ (Hr id r Hid)). Qed.

Lemma plan_ok_mono m m' id plan : mg_log m `prefix_of` mg_log m' ->
  (forall r, mg_transfers m !! id = Some r -> exists r', mg_transfers m' !! id = Some r' /\ same_transfer r r') ->
  plan_ok m id plan -> plan_ok m' id plan.
Proof.
  intros [l Hl] Hr (Hc & Hp & r & Hid & Hd & Hs & Hsha & Hn).
  destruct (Hr r Hid) as (r' & Hr' & Hsame). unfold same_transfer in Hsame.
  split; [rewrite Hl; set_solver|]. split; [done|]. exists r'. intuition congruence.
Qed.

(** A task's claim on the world stays true if nothing it looks at is lost. *)
Lemma task_ok_mono own m m' t : mg_log m `prefix_of` mg_log m' ->
  (forall id r, mg_transfers m !! id = Some r -> exists r', mg_transfers m' !! id = Some r' /\ same_transfer r r') ->
  frame own (files m) (files m') -> (forall k, own k -> is_temp k) ->
  (forall id, token t = Some id -> ~ own (temp_name id)) ->
  task_ok m t -> task_ok m' t.
Proof.
  intros Hl Hr Hf Hown Htok Ht.
  assert (Hrec : forall id, receiving m id -> receiving m' id).
  { intros id (r & Hid & Hd). destruct (Hr id r Hid) as (r' & Hr' & Hs). exists r'. split; [done|].
    unfold same_transfer in Hs. intuition congruence. }
  assert (Hplan : forall id plan, plan_ok m id plan -> plan_ok m' id plan) by (intros; eapply plan_ok_mono; eauto).
  assert (Hconf : forall x, x ∈ mg_log m -> x ∈ mg_log m') by (destruct Hl as [l ->]; set_solver).
  destruct t; simpl in *; auto.
  - naive_solver.
  - naive_solver.
  - destruct Ht as (Hp & -> & Hv). split_and!; auto. intros f Hfl. apply Hv.
    eapply frame_temp; [exact Hf | by apply Htok | by eexists | done].
  - destruct Ht as (Hp & -> & Hv). split_and!; auto. intros f Hfl. apply Hv.
    eapply frame_temp; [exact Hf | by apply Htok | by eexists | done].
  - destruct Ht as (Hp & Hn & f & Hfl & Hv). split_and!; auto. exists f. split; [|done].
    eapply frame_kept; [exact Hf | intros ?; by apply Hn, Hown | done | done].
Qed.

Lemma rec_ok_mono own l l' a b id r : l `prefix_of` l' -> frame own a b -> (forall k, own k -> is_temp k) ->
  rec_ok l a id r -> rec_ok l' b id r.
Proof.
  intros [k ->] Hf Hown [H1 H2 H3 H4 H5 H6]. split; auto.
  - intros p Hp. destruct (H3 p Hp) as (Hd & Hc & Hn & f & Hfl & Hv). split_and!; try done; [set_solver|].
    exists f. split; [|done]. eapply frame_kept; [exact Hf | intros ?; by apply Hn, Hown | done | done].
  - intros Hd Hp. specialize (H5 Hd Hp). set_solver.
Qed.

Lemma rec_ok_quiet l a id r r' : quiet_rec r r' -> rec_ok l a id r -> rec_ok l a id r'.
Proof.
  intros (Hs & Hst & Ht & Hq) [H1 H2 H3 H4 H5 H6].
  destruct Hs as (_ & E1 & _ & E2 & E3 & E4 & E5 & _). split; rewrite ?E1, ?E2, ?E3, ?E4, ?E5, ?Hst; auto.
  - intros p Hp. apply H2. destruct Ht; congruence.
  - intros Hd [Hp|Hc]; apply (H5 Hd); destruct (Hq Hd) as (Q1 & Q2 & _); [left; auto|].
    right. destruct Q1 as [<-|He]; [done | rewrite He in Hc; by destruct Hc].
  - intros Hd Hc. apply (H6 Hd). by apply Hq.
Qed.

Lemma quiet_same_transfer m m' id r : quiet m m' -> mg_transfers m !! id = Some r ->
  exists r', mg_transfers m' !! id = Some r' /\ same_transfer r r'.
Proof.
  intros [_ _ _ Hq _] Hr. specialize (Hq id). rewrite Hr in Hq.
  destruct (mg_transfers m' !! id) as [r'|]; [|done]. exists r'. split; [done | apply Hq].
Qed.

Lemma Inv_quiet m m' tasks : quiet m m' -> Inv m tasks -> Inv m' tasks.
Proof.
  intros Hq HI. pose proof (Inv_temps _ _ HI) as Htemps. pose proof (qt_files _ _ Hq Htemps) as Hf.
  destruct HI as [H1 H2 H3 H4 H5].
  assert (Hback : forall id r', mg_transfers m' !! id = Some r' ->
    exists r, mg_transfers m !! id = Some r /\ quiet_rec r r').
  { intros id r' Hr'. pose proof (qt_recs _ _ Hq id) as Hrec. rewrite Hr' in Hrec.
    destruct (mg_transfers m !! id) as [r|]; [by exists r | done]. }
  split.
  - rewrite (qt_role _ _ Hq). done.
  - intros id r' Hr'. destruct (Hback id r' Hr') as (r & Hr & Hqr).
    eapply rec_ok_mono; [apply Hq | exact Hf | done |]. eapply rec_ok_quiet; eauto.
  - eapply Forall_impl; [exact H3|]. intros t Ht. eapply task_ok_mono; [apply Hq | | exact Hf | done | auto | done].
    intros id r Hr. by eapply quiet_same_transfer.
  - done.
  - intros id r' Hr' Hd Hc. destruct (Hback id r' Hr') as (r & Hr & Hs & _ & _ & Hqr).
    destruct Hs as (_ & _ & _ & Hdir & _). rewrite Hdir in Hd. destruct (Hqr Hd) as ([He|He] & _ & _).
    + apply (H5 id r Hr Hd). by rewrite <- He.
    + rewrite He in Hc. by destruct Hc.
Qed.

(** ** Quiet operations *)

Lemma quiet_same m m' : mg_role m' = mg_role m -> mg_tasks m' = mg_tasks m -> mg_log m `prefix_of` mg_log m' ->
  mg_transfers m' = mg_transfers m -> files m' = files m -> quiet m m'.
Proof.
  intros H1 H2 H3 H4 H5. split; [done..| |rewrite H5; intros _; apply frame_refl].
  intros id. rewrite H4. unfold quiet_at. case_match; [reflexivity | done].
Qed.

Lemma quiet_log m e : quiet m (log m e).
Proof. apply quiet_same; try done. by eexists. Qed.

Lemma quiet_send m s b : quiet m (send_control m s b).2.
Proof. unfold send_control. repeat case_match; try reflexivity. apply quiet_log. Qed.

Lemma quiet_update m id f : (forall r, mg_transfers m !! id = Some r -> quiet_rec r (f r)) -> quiet m (update m id f).
Proof.
  intros Hf. split; [done..| |intros _; apply frame_refl]. intros k. unfold update. simpl.
  destruct (decide (k = id)) as [->|Hk]; [rewrite lookup_alter_eq | rewrite lookup_alter_ne by done; reflexivity].
  destruct (mg_transfers m !! id) eqn:Hr; simpl; auto.
Qed.

Lemma quiet_clean m id : quiet m (clean_up_temp m id).
Proof.
  unfold clean_up_temp. destruct (mg_transfers m !! id) as [r|] eqn:Hr; simpl; [|reflexivity].
  destruct (tr_temp r) as [p|] eqn:Hp; [|reflexivity].
  assert (Hq : quiet m (update m id take_temp)).
  { apply quiet_update. intros r0 _. split_and!; [by repeat split | done | by right | naive_solver]. }
  destruct Hq as [H1 H2 H3 H4 _]. split; [done..|]. intros Ht. simpl.
  destruct (remove_spec (mg_fs m) p) as [Hrem Hgone]. intros k _.
  destruct (decide (k = p)) as [->|Hk]; [|left; by apply Hrem].
  destruct Hgone as [->|Hgone]; [by left | right; left]. split; [|done]. exists id. by eapply Ht.
Qed.

(** A transition keeps quiet unless it agrees to or completes a receive. *)
Lemma quiet_transition m id next failure :
  (forall r, mg_transfers m !! id = Some r -> tr_direction r = Receiving ->
     TransferState.can_transition_to (tr_state r) next = true ->
     next <> TransferState.Completed /\ (next <> TransferState.Transferring)) ->
  quiet m (transition m id next failure).2.
Proof.
  intros Hok. unfold transition. destruct (mg_transfers m !! id) as [r|] eqn:Hr; [|reflexivity].
  destruct (TransferState.can_transition_to (tr_state r) next) eqn:Hcan; simpl; [|reflexivity].
  set (m1 := set_transfers _ _). assert (quiet m m1) as Hq.
  { split; [done..| |intros _; apply frame_refl]. intros k. subst m1. simpl.
    destruct (decide (k = id)) as [->|Hk]; [|rewrite lookup_insert_ne by done; reflexivity].
    rewrite lookup_insert_eq, Hr. simpl. split_and!; [by repeat split | done | by left|].
    intros Hd. destruct (Hok r eq_refl Hd Hcan) as [Hnc Hnt]. unfold enter. simpl.
    split; [destruct (TransferState.is_terminal next); auto|]. split; [|done].
    intros [He|[He|He]]; try done. subst next. left. by destruct (tr_state r). }
  case_match; [etrans; [exact Hq | apply quiet_clean] | exact Hq].
Qed.

Lemma quiet_fail m id reason : quiet m (fail m id reason).
Proof.
  unfold fail. match goal with |- context [transition ?a ?b ?c ?d] =>
    assert (Ht : quiet a (transition a b c d).2); [|destruct (transition a b c d) as [[] m1]; [|done]] end.
  { apply quiet_transition. intros r _ _ _. by case_match. }
  destruct (tr_session <$> _); [|done]. etrans; [exact Ht | apply quiet_send].
Qed.

Lemma quiet_foldl {A} (f : Manager -> A -> Manager) l m : (forall m x, quiet m (f m x)) -> quiet m (foldl f m l).
Proof.
  intros Hf. revert m. induction l as [|x l IH]; intros m; simpl; [reflexivity|].
  etrans; [apply Hf | apply IH].
Qed.

Lemma quiet_stream_end m id p d : quiet m (update m id (fun r => end_stream p (d r) r)).
Proof. apply quiet_update. intros r _. split_and!; [by repeat split | done | by left | auto]. Qed.

(** The record of a transfer being sent is nobody's concern here. *)
Lemma quiet_sending m id f : (forall r, mg_transfers m !! id = Some r -> tr_direction r = Sending) ->
  (forall r, same_transfer r (f r) /\ tr_stored_at (f r) = tr_stored_at r /\ tr_temp (f r) = tr_temp r) ->
  quiet m (update m id f).
Proof.
  intros Hd Hf. apply quiet_update. intros r Hr. destruct (Hf r) as (? & ? & ?).
  split_and!; try done; [by left|]. intros Hrec. specialize (Hd r Hr). congruence.
Qed.

Lemma quiet_transition_sending m id next failure :
  (forall r, mg_transfers m !! id = Some r -> tr_direction r = Sending) -> quiet m (transition m id next failure).2.
Proof. intros Hd. apply quiet_transition. intros r Hr Hrec. specialize (Hd r Hr). congruence. Qed.

Lemma owned_sending m id peer d s : owned_active m id peer d = Some s ->
  forall r, mg_transfers m !! id = Some r -> tr_direction r = d.
Proof.
  unfold owned_active. intros Ho r Hr. rewrite Hr in Ho. simpl in Ho.
  destruct (eqb (tr_peer r) peer), (eqb (tr_direction r) d) eqn:Hd; simpl in Ho; try done. by apply eqb_eq in Hd.
Qed.

(** The answers of a peer, in the acceptor's role. *)
Lemma quiet_on_accept m peer id c rng : mg_role m = Acceptor -> quiet m (on_accept m peer id c rng).2.
Proof.
  intros Hrole. unfold on_accept. destruct (TransferId.from_bytes id) as [i|]; [|reflexivity].
  destruct (owned_active m i peer Sending) as [s|] eqn:Ho; [|reflexivity]. rewrite Hrole.
  destruct rng as [ch|]; [|reflexivity]. pose proof (owned_sending _ _ _ _ _ Ho) as Hd.
  assert (quiet m (update m i (set_challenge (Some ch)))) as Hq.
  { apply quiet_sending; [done|]. intros r. by repeat split. }
  pose proof (quiet_transition_sending (update m i (set_challenge (Some ch))) i TransferState.Transferring None) as Ht.
  destruct (transition _ _ _ _) as [[] m1]; simpl in *.
  all: assert (quiet m m1) as Hm1; [etrans; [exact Hq | apply Ht]|].
  1,3: intros r Hr; simpl in Hr; rewrite lookup_alter_eq in Hr; destruct (mg_transfers m !! i) eqn:H0; [|done];
       injection Hr as <-; exact (Hd _ eq_refl).
  - etrans; [exact Hm1 | apply quiet_send].
  - exact Hm1.
Qed.

Lemma quiet_on_ready m peer id c : mg_role m = Acceptor -> quiet m (on_ready m peer id c).2.
Proof. intros Hrole. unfold on_ready. rewrite Hrole. by case_match. Qed.

Lemma quiet_on_peer_ended m peer id z next : next = TransferState.Cancelled \/ next = TransferState.Failed ->
  quiet m (on_peer_ended m peer id z next).2.
Proof.
  intros Hn. unfold on_peer_ended. destruct (TransferId.from_bytes id); [|reflexivity].
  case_match; [reflexivity|]. apply quiet_transition. by destruct Hn as [-> | ->].
Qed.

Lemma quiet_on_complete m peer id : quiet m (on_complete m peer id).2.
Proof.
  unfold on_complete. destruct (TransferId.from_bytes id) as [i|]; [|reflexivity].
  destruct (owned_active m i peer Sending) eqn:Ho; [|reflexivity].
  apply quiet_transition_sending. by eapply owned_sending.
Qed.

(** ** Steps that do touch it *)

Lemma Inv_spawn m t tasks : Inv m tasks -> task_ok m t ->
  (forall id, token t = Some id -> id ∉ omap token tasks /\
     forall r, mg_transfers m !! id = Some r -> tr_direction r = Receiving -> tr_challenge r = None) ->
  Inv m (t :: tasks).
Proof.
  intros [H1 H2 H3 H4 H5] Ht Hfree. split; [done | done | by constructor | |]; simpl.
  - destruct (token t) as [id|] eqn:Htok; [|done]. constructor; [by apply Hfree | done].
  - intros id r Hr Hd Hc. destruct (token t) as [id'|] eqn:Htok; [|by eapply H5].
    apply not_elem_of_cons. split; [|by eapply H5]. intros ->.
    destruct (Hfree id' eq_refl) as [_ Hn]. rewrite (Hn r Hr Hd) in Hc. by destruct Hc.
Qed.

Lemma Inv_insert m r tasks : Inv m tasks -> mg_transfers m !! tr_id r = None ->
  rec_ok (mg_log m) (files m) (tr_id r) r -> tr_challenge r = None -> Inv (insert_record m r) tasks.
Proof.
  intros [H1 H2 H3 H4 H5] Hnew Hrec Hch. split; [done | | | done |]; simpl.
  - intros id r0 [[<- <-]|[Hne Hr]]%lookup_insert_Some; [done | by apply H2].
  - eapply Forall_impl; [exact H3|]. intros t Ht.
    apply (task_ok_mono (fun _ => False) m); [done | | apply frame_refl | done | auto | done].
    intros id r0 Hr. exists r0. simpl. rewrite lookup_insert_ne by congruence. split; [done | by repeat split].
  - intros id r0 [[<- <-]|[Hne Hr]]%lookup_insert_Some Hd Hc; [rewrite Hch in Hc; by destruct Hc | by eapply H5].
Qed.

(** The holder of a transfer's token is the only one. *)
Lemma Inv_token m t rest id : Inv m (t :: rest) -> token t = Some id ->
  id ∉ omap token rest /\
  forall r, mg_transfers m !! id = Some r -> tr_direction r = Receiving -> tr_challenge r = None.
Proof.
  intros [_ _ _ H4 H5] Htok. simpl in *. rewrite Htok in *. apply NoDup_cons in H4 as [Hn _]. split; [done|].
  intros r Hr Hd. destruct (tr_challenge r) as [c|] eqn:Hc; [|done].
  destruct (H5 id r Hr Hd); [by rewrite Hc | left].
Qed.

(** It may do what it likes to the temporary file. *)
Lemma Inv_own m t rest id fs : Inv m (t :: rest) -> token t = Some id ->
  frame (eq (temp_name id)) (files m) (fs_files fs) -> Inv (set_fs m fs) rest.
Proof.
  intros HI Htok Hf. destruct (Inv_token _ _ _ _ HI Htok) as [Hn _].
  apply Inv_drop in HI as [H1 H2 H3 H4 H5].
  assert (Hown : forall k, temp_name id = k -> is_temp k) by (intros k <-; by eexists).
  split; [done | | | done | done]; simpl.
  - intros k r Hr. eapply rec_ok_mono; [done | exact Hf | exact Hown | by apply H2].
  - rewrite Forall_forall in H3 |- *. intros t' Ht'. apply (task_ok_mono (eq (temp_name id)) m); [done | | exact Hf | exact Hown | | by apply H3].
    + intros i r Hr. exists r. split; [done | by repeat split].
    + intros id' Htok' Heq%temp_name_inj. subst id'. apply Hn, list_elem_of_omap. eauto.
Qed.

(** Replacing one record. *)
Lemma Inv_record m id r r' tasks : Inv m tasks -> mg_transfers m !! id = Some r -> same_transfer r r' ->
  rec_ok (mg_log m) (files m) id r' ->
  (tr_direction r = Receiving -> is_Some (tr_challenge r') -> id ∉ omap token tasks) ->
  Inv (set_transfers m (<[id := r']> (mg_transfers m))) tasks.
Proof.
  intros [H1 H2 H3 H4 H5] Hr Hs Hrec Hch. split; [done | | | done |]; simpl.
  - intros k r0 [[<- <-]|[Hne Hk]]%lookup_insert_Some; [done | by apply H2].
  - eapply Forall_impl; [exact H3|]. intros t Ht.
    apply (task_ok_mono (fun _ => False) m); [done | | apply frame_refl | done | auto | done].
    intros k r0 Hk. simpl. destruct (decide (k = id)) as [->|Hne].
    + exists r'. rewrite lookup_insert_eq. split; [done|]. by rewrite Hr in Hk; injection Hk as <-.
    + exists r0. rewrite lookup_insert_ne by done. split; [done | by repeat split].
  - intros k r0 [[<- <-]|[Hne Hk]]%lookup_insert_Some Hd Hc; [|by eapply H5].
    apply Hch; [|done]. destruct Hs as (_ & _ & _ & Hdir & _). congruence.
Qed.

Lemma update_insert m id f r : mg_transfers m !! id = Some r ->
  update m id f = set_transfers m (<[id := f r]> (mg_transfers m)).
Proof.
  intros Hr. unfold update. f_equal. apply map_eq. intros k. destruct (decide (k = id)) as [->|Hne].
  - by rewrite lookup_alter_eq, lookup_insert_eq, Hr.
  - by rewrite lookup_alter_ne, lookup_insert_ne by done.
Qed.

Lemma update_none m id f : mg_transfers m !! id = None -> mg_transfers (update m id f) = mg_transfers m.
Proof.
  intros Hr. unfold update. simpl. apply map_eq. intros k. destruct (decide (k = id)) as [->|Hne].
  - by rewrite lookup_alter_eq, Hr.
  - by rewrite lookup_alter_ne by done.
Qed.

(** Agreeing to a receive needs the human's yes; completing one needs the file. *)
Lemma Inv_transition m id next failure tasks : Inv m tasks -> Confirmed id true ∈ mg_log m ->
  (next = TransferState.Completed -> forall r, mg_transfers m !! id = Some r -> tr_direction r = Receiving ->
     is_Some (tr_stored_at r)) ->
  Inv (transition m id next failure).2 tasks.
Proof.
  intros HI Hc Hdone. unfold transition. destruct (mg_transfers m !! id) as [r|] eqn:Hr; [|done].
  destruct (TransferState.can_transition_to (tr_state r) next) eqn:Hcan; simpl; [|done].
  set (m1 := set_transfers _ _). assert (Inv m1 tasks) as HI1.
  { apply (Inv_record m id r); [done | done | by repeat split | |].
    - destruct (iv_recs _ _ HI id r Hr) as [R1 R2 R3 R4 R5 R6]. split; try done.
      intros Hd Hn. exact (Hdone Hn r eq_refl Hd).
    - intros Hd Hch. apply (iv_challenge _ _ HI id r Hr Hd). unfold enter in Hch. simpl in Hch.
      destruct (TransferState.is_terminal next); [by destruct Hch | done]. }
  case_match; [eapply Inv_quiet; [apply quiet_clean | done] | done].
Qed.

(** ** Tasks *)

(** A task's step, with the other tasks set aside. *)
Definition keeps_inv (m : Manager) (rest : list Task) (out : Manager * option Task) : Prop :=
  Inv out.1 (option_list out.2 ++ rest) /\ mg_tasks out.1 = mg_tasks m.

Lemma keeps_quiet m m' t rest : Inv m (t :: rest) -> quiet m m' -> keeps_inv m rest (m', None).
Proof. intros HI Hq. split; [eapply Inv_quiet; [exact Hq | by eapply Inv_drop] | apply Hq]. Qed.

Lemma keeps_fail m m1 id reason rest : Inv m1 rest -> mg_tasks m1 = mg_tasks m ->
  keeps_inv m rest (fail m1 id reason, None).
Proof.
  intros HI Ht. split; [eapply Inv_quiet; [apply quiet_fail | done]|]. simpl.
  rewrite (qt_tasks _ _ (quiet_fail m1 id reason)). done.
Qed.

(** The token goes to the next phase with a new state of the temporary file. *)
Lemma keeps_own m t t' rest id fs : Inv m (t :: rest) -> token t = Some id ->
  frame (eq (temp_name id)) (files m) (fs_files fs) -> task_ok (set_fs m fs) t' ->
  token t' = Some id \/ token t' = None -> Inv (set_fs m fs) (t' :: rest).
Proof.
  intros HI Htok Hf Ht' Htok'. apply Inv_spawn; [by eapply Inv_own | done|].
  intros id' Hid'. destruct Htok' as [He|He]; [|congruence]. assert (id' = id) as -> by congruence.
  by apply (Inv_token _ _ _ _ HI Htok).
Qed.

Lemma keeps_answered m id peer session yes rest : Inv m (TAwait id peer session :: rest) ->
  keeps_inv m rest (approval_answered m id peer session yes).
Proof.
  intros HI. unfold approval_answered. cbv zeta.
  assert (HI1 : Inv (log m (Confirmed id yes)) (TAwait id peer session :: rest)) by (eapply Inv_quiet; [apply quiet_log | done]).
  set (m1 := log m (Confirmed id yes)) in *. destruct yes; simpl.
  2: { apply keeps_fail; [by eapply Inv_drop | done]. }
  destruct (authorized m1 peer); simpl; [|apply keeps_fail; [by eapply Inv_drop | done]].
  destruct (open_temp (mg_fs m) id) as [[temp|e] fs] eqn:Ho; apply open_temp_frame in Ho as (Hf & Ht & Hs).
  - split; [|done]. simpl. eapply keeps_own; [exact HI1 | done | exact Hf | | by left].
    pose proof (iv_tasks _ _ HI1) as [Hrec _]%Forall_cons. simpl in *. split; [by apply Ht|]. split; [|done]. set_solver.
  - apply keeps_fail; [|done]. eapply (Inv_own m1 _ rest id); [exact HI1 | done | exact Hf].
Qed.

Lemma keeps_armed m id session temp rng rest : Inv m (TArm id session temp :: rest) ->
  keeps_inv m rest (approval_armed m id session temp rng).
Proof.
  intros HI. unfold approval_armed. rewrite (iv_role _ _ HI).
  destruct rng as [c|]; [|apply keeps_fail; [by eapply Inv_drop | done]].
  destruct (mg_transfers m !! id) as [r|] eqn:Hr; [|by eapply keeps_quiet].
  pose proof (iv_tasks _ _ HI) as [(-> & Hc & Hrec) _]%Forall_cons.
  destruct (Inv_token _ _ _ id HI eq_refl) as [Hfree _]. apply Inv_drop in HI. split; [|done]. simpl.
  apply Inv_spawn; [|done|done]. rewrite (update_insert m id _ r Hr).
  apply (Inv_record m id r); [done | done | by repeat split | | by intros _ _].
  destruct (iv_recs _ _ HI id r Hr) as [R1 R2 R3 R4 R5 R6]. split; try done. by intros p [= <-].
Qed.

Lemma keeps_accepted m id session challenge rest : Inv m (TAccept id session challenge :: rest) ->
  keeps_inv m rest (approval_accepted m id session challenge).
Proof.
  intros HI. pose proof (iv_tasks _ _ HI) as [Hc _]%Forall_cons. pose proof (iv_role _ _ HI) as Hrole.
  apply Inv_drop in HI. unfold approval_accepted.
  pose proof (Inv_transition m id TransferState.Transferring None rest HI Hc ltac:(done)) as HI1.
  assert (Htasks : mg_tasks (transition m id TransferState.Transferring None).2 = mg_tasks m).
  { unfold transition, clean_up_temp. by repeat (case_match; simplify_eq/=). }
  destruct (transition _ _ _ _) as [[] m1]; simpl in HI1, Htasks.
  - pose proof (quiet_send m1 session (BAccept (bn_bytes id) challenge)) as Hq.
    destruct (send_control _ _ _) as [[] m2]; simpl in Hq.
    + rewrite Hrole. split; [by eapply Inv_quiet | simpl; rewrite (qt_tasks _ _ Hq); done].
    + apply keeps_fail; [by eapply Inv_quiet | rewrite (qt_tasks _ _ Hq); done].
  - split; [eapply Inv_quiet; [apply quiet_clean | done] | simpl; rewrite (qt_tasks _ _ (quiet_clean m1 id)); done].
Qed.

Lemma keeps_open m id plan rest : Inv m (TReceive id plan :: rest) -> keeps_inv m rest (receive_open m id plan).
Proof.
  intros HI. pose proof (iv_tasks _ _ HI) as [Hp _]%Forall_cons. unfold receive_open.
  destruct (pl_temp plan) as [temp|] eqn:Htemp; [|apply keeps_fail; [by eapply Inv_drop | done]].
  destruct (Hp) as (_ & Ht & _). rewrite (Ht temp Htemp) in *.
  destruct (open_partial _ _) as [ok fs] eqn:Ho. apply open_partial_frame in Ho. destruct ok.
  - split; [|done]. simpl. eapply keeps_own; [exact HI | done | exact Ho | | by left]. done.
  - apply keeps_fail; [|done]. by eapply (Inv_own m _ rest id).
Qed.

Lemma keeps_copy m id plan temp evs room rest : Inv m (TCopy id plan temp :: rest) ->
  keeps_inv m rest (receive_copy m id plan temp evs room).
Proof.
  intros HI. pose proof (iv_tasks _ _ HI) as [(Hp & ->) _]%Forall_cons. unfold receive_copy.
  destruct (receive_exactly_exact evs {| wr_bytes := []; wr_room := room |} (pl_size_bytes plan))
    as (r & evs' & w & p & d & -> & Hw & _ & _ & Hok). simpl in Hw.
  destruct (put_data_frame (mg_fs m) (temp_name id) (wr_bytes w)) as [Hf Hdata].
  set (m1 := set_fs m _). pose proof (quiet_stream_end m1 id p tr_deadline) as Hq.
  assert (Htasks : mg_tasks (update m1 id (fun t => end_stream p (tr_deadline t) t)) = mg_tasks m) by done.
  destruct r as [digest|reason].
  - destruct (Hok digest eq_refl) as (Hlen & _ & ->). split; [|done]. simpl. eapply Inv_quiet; [exact Hq|].
    eapply keeps_own; [exact HI | done | exact Hf | | by left]. split; [done|]. split; [done|].
    intros f Hfl. unfold verified. rewrite (Hdata f Hfl), Hw. done.
  - apply keeps_fail; [|done]. eapply Inv_quiet; [exact Hq|]. by eapply (Inv_own m _ rest id).
Qed.

Lemma keeps_verify m id plan temp digest ok rest : Inv m (TVerify id plan temp digest :: rest) ->
  keeps_inv m rest (receive_verify m id plan temp digest ok).
Proof.
  intros HI. unfold receive_verify. destruct ok; simpl; [|apply keeps_fail; [by eapply Inv_drop | done]].
  pose proof (quiet_transition m id TransferState.Verifying None ltac:(done)) as Hq.
  destruct (transition _ _ _ _) as [[] m1]; simpl in Hq; [|by eapply keeps_quiet].
  pose proof (Inv_quiet _ _ _ Hq HI) as HI1. pose proof (qt_tasks _ _ Hq) as Ht.
  destruct (eqb digest (pl_sha256 plan)) eqn:Heq; simpl; [apply eqb_eq in Heq as ->|].
  - split; [|done]. simpl. pose proof (iv_tasks _ _ HI1) as [(Hp & -> & Hv) _]%Forall_cons.
    apply Inv_spawn; [by eapply Inv_drop | done|]. intros id' [= <-]. by apply (Inv_token _ _ _ _ HI1).
  - apply keeps_fail; [by eapply Inv_drop | done].
Qed.

Lemma keeps_promote m id plan temp rest : Inv m (TPromote id plan temp :: rest) ->
  keeps_inv m rest (receive_promote m id plan temp).
Proof.
  intros HI. pose proof (iv_tasks _ _ HI) as [(Hp & -> & Hv) _]%Forall_cons. unfold receive_promote.
  pose proof Hp as (Hc & _ & r & Hr & Hd & Hsize & Hsha & Hname).
  destruct (promote _ _ _) as [res fs] eqn:Hprom.
  apply promote_frame in Hprom as [Hf Hok]; [|by eexists|].
  2: { rewrite <- Hname. by apply (ro_name _ _ _ _ (iv_recs _ _ HI id r Hr)). }
  destruct res as [path|e].
  - split; [|done]. simpl. destruct (Hok path eq_refl) as (Hn & f & Hfl & Hdata).
    eapply keeps_own; [exact HI | done | exact Hf | | by right]. split; [done|]. split; [done|]. simpl.
    destruct (fs_files fs !! path) as [g|]; [|done]. simpl in Hdata. injection Hdata as Hdata.
    exists g. split; [done|]. destruct (Hv f Hfl) as [H1 H2]. unfold verified. by rewrite Hdata.
  - apply keeps_fail; [|done]. by eapply (Inv_own m _ rest id).
Qed.

Lemma keeps_stored m id plan path rest : Inv m (TStored id plan path :: rest) ->
  keeps_inv m rest (receive_stored m id plan path).
Proof.
  intros HI. pose proof (iv_tasks _ _ HI) as [(Hp & Hn & f & Hf & Hv) _]%Forall_cons. apply Inv_drop in HI.
  destruct Hp as (Hc & _ & r & Hr & Hd & Hsize & Hsha & _). unfold receive_stored.
  assert (Inv (update m id (stored path)) rest) as HI1.
  { rewrite (update_insert m id _ r Hr). apply (Inv_record m id r); [done | done | by repeat split | |].
    - destruct (iv_recs _ _ HI id r Hr) as [R1 R2 R3 R4 R5 R6]. split; try done.
      intros q [= <-]. split_and!; try done. exists f. split; [done|]. simpl. by rewrite Hsize, Hsha.
    - intros _ Hch. by apply (iv_challenge _ _ HI id r Hr Hd). }
  pose proof (Inv_transition _ id TransferState.Completed None rest HI1 Hc) as HI2.
  assert (Htasks : mg_tasks (transition (update m id (stored path)) id TransferState.Completed None).2 = mg_tasks m).
  { unfold transition, clean_up_temp. by repeat (case_match; simplify_eq/=). }
  destruct (transition _ _ _ _) as [[] m2]; simpl in *.
  - pose proof (quiet_send m2 (pl_session plan) (BComplete (bn_bytes id))) as Hq.
    split; [eapply Inv_quiet; [exact Hq|] | simpl; rewrite (qt_tasks _ _ Hq); done].
    apply HI2. intros _ r' Hr' _. rewrite lookup_alter_eq, Hr in Hr'. by injection Hr' as <-.
  - split; [|done]. apply HI2. intros _ r' Hr' _. rewrite lookup_alter_eq, Hr in Hr'. by injection Hr' as <-.
Qed.

Lemma keeps_send m id plan src ws flushes rest : Inv m (TSend id plan :: rest) ->
  keeps_inv m rest (send_run m id plan src ws flushes).
Proof.
  intros HI. apply Inv_drop in HI. unfold send_run.
  destruct (pl_source plan), src; try (by apply keeps_fail).
  destruct (send_exactly _ _ _ _ _) as [[[res w] p]|]; [|done].
  pose proof (quiet_stream_end m id p (fun _ => mg_now m + VERDICT_TIMEOUT)) as Hq.
  pose proof (Inv_quiet _ _ _ Hq HI) as HI1.
  destruct res as [[]|[]]; try (by apply keeps_fail); [done|]. split; [|done]. simpl. by apply Inv_spawn.
Qed.

Lemma keeps_task m t i rest : Inv m (t :: rest) -> keeps_inv m rest (task_step m t i).
Proof.
  intros HI. pose proof (iv_tasks _ _ HI) as [Ht _]%Forall_cons.
  destruct t, i; simpl; try done; try (by split).
  - by apply keeps_answered.
  - by apply keeps_armed.
  - by apply keeps_accepted.
  - by apply keeps_open.
  - by apply keeps_copy.
  - by apply keeps_verify.
  - by apply keeps_promote.
  - by apply keeps_stored.
  - by apply keeps_send.
  - unfold verdict_waited. apply Inv_drop in HI. repeat case_match; try (by apply keeps_fail); done.
Qed.

(** ** Events *)

(** The manager as the daemon starts it. *)
Definition started (m : Manager) : Prop :=
  mg_role m = Acceptor /\ mg_transfers m = ∅ /\ mg_tasks m = [].

(** The peer does not pass a temporary file's name off as a file's. *)
Definition honest_names (ev : Event) : Prop :=
  match ev with
  | EvControl _ _ _ payload _ => forall o name n, prost_decode payload = Some {| fc_body := Some (BOffer o) |} ->
      sanitize (fo_filename o) = Some name -> ~ is_temp (candidate_name name n)
  | _ => True
  end.

Definition ordinary (m : Manager) (ev : Event) : Prop := fresh_id m ev /\ honest_names ev.

Abbreviation Sound m := (Inv m (mg_tasks m)).

Lemma sound_quiet m m' : quiet m m' -> Sound m -> Sound m'.
Proof. intros Hq HI. rewrite (qt_tasks _ _ Hq). by eapply Inv_quiet. Qed.

Lemma sound_spawn m t : Inv m (t :: mg_tasks m) -> Sound (spawn m t).
Proof.
  intros HI. simpl. rewrite <- Permutation_cons_append.
  destruct HI as [H1 H2 H3 H4 H5]. by split.
Qed.

Lemma sound_on_offer m peer session profile o :
  (forall name n, sanitize (fo_filename o) = Some name -> ~ is_temp (candidate_name name n)) ->
  Sound m -> Sound (on_offer m peer session profile o).2.
Proof.
  intros Hname HI. unfold on_offer. destruct (TransferId.from_bytes _) as [id|]; [|done].
  assert (Hrej : forall reason, Sound (reject m session id reason)) by (intros; by eapply sound_quiet; [apply quiet_send|]).
  destruct (negb (authorized m peer)); [apply Hrej|]. case_bool_decide as Hnew; [apply Hrej|].
  apply eq_None_not_Some in Hnew. destruct (validate_offer m o); [|apply Hrej].
  destruct (_ <=? _); [apply Hrej|]. destruct (sanitize (fo_filename o)) as [name|] eqn:Hs; [|apply Hrej].
  destruct (try_into 32 (fo_sha256 o)) as [sha|]; [|apply Hrej]. simpl.
  set (r := new_record _ _ _ _ _ _ _ _ _ _ _ _).
  assert (rec_ok (mg_log m) (files m) (tr_id r) r) as Hrec.
  { split; try done. - intros _ n. by apply Hname. - intros _ [[|[|]]|[]]; done. }
  assert (Inv (insert_record m r) (mg_tasks m)) as HI1 by (by apply Inv_insert).
  apply sound_spawn. apply Inv_spawn; [done | |].
  - exists r. simpl. by rewrite lookup_insert_eq.
  - intros id' [= <-]. split.
    + intros Hin. apply tokens_receiving with (m := m) in Hin as (r0 & Hr0 & _); [congruence | apply HI].
    + intros r0 Hr0 _. simpl in Hr0. rewrite lookup_insert_eq in Hr0. by injection Hr0 as <-.
Qed.

Lemma sound_control m peer session profile payload rng :
  honest_names (EvControl peer session profile payload rng) -> Sound m ->
  Sound (handle_control m peer session profile payload rng).2.
Proof.
  intros Hname HI. pose proof (iv_role _ _ HI) as Hrole. unfold handle_control. simpl in Hname.
  destruct (prost_decode payload) as [[[[]|]]|]; simpl; try done.
  - apply sound_on_offer; [|done]. intros name n. by apply Hname.
  - by eapply sound_quiet; [apply quiet_on_accept|].
  - by eapply sound_quiet; [apply quiet_on_ready|].
  - by eapply sound_quiet; [apply quiet_on_peer_ended; auto|].
  - by eapply sound_quiet; [apply quiet_on_peer_ended; auto|].
  - by eapply sound_quiet; [apply quiet_on_complete|].
  - by eapply sound_quiet; [apply quiet_on_peer_ended; auto|].
Qed.

Lemma sound_offer_file m peer path raw src rng : fresh_id m (EvOfferFile peer path raw src rng) -> Sound m ->
  Sound (offer_file m peer path raw src id rng).2.
Proof.
  intros Hfresh HI. unfold offer_file. destruct (negb (authorized m peer)); [done|].
  pose proof (session_for_transfers m peer) as Hs.
  assert (quiet m (session_for m peer).2) as Hq.
  { unfold session_for. repeat case_match; simpl; try reflexivity. by apply quiet_same. }
  destruct (session_for m peer) as [[[s p]|] m1]; simpl in *; pose proof (sound_quiet _ _ Hq HI) as HI1; [|done].
  destruct (_ <=? _); [done|]. destruct (sanitize raw) as [name|]; [|done].
  destruct (src ≫= hash_file) as [[[size sha]|]|]; [|done..]. destruct rng as [id|]; [|done].
  set (r := new_record _ _ _ _ _ _ _ _ _ _ _ _). change id with (tr_id r) in Hfresh. rewrite <- Hs in Hfresh.
  assert (Sound (insert_record m1 r)) as HI2.
  { apply Inv_insert; [exact HI1 | done | | done]. by split. }
  pose proof (quiet_send (insert_record m1 r) s (BOffer {| fo_transfer_id := bn_bytes id; fo_filename := name;
    fo_size_bytes := size; fo_mime_type := guess_mime_type name; fo_sha256 := bn_bytes sha |})) as Hq2.
  destruct (send_control _ _ _) as [[] m4]; simpl in *; pose proof (sound_quiet _ _ Hq2 HI2) as HI4; [done|].
  eapply sound_quiet; [|exact HI4]. by apply quiet_transition.
Qed.

Lemma sound_stream m peer frame version profile sent : Sound m ->
  Sound (accept_data_stream m peer frame version profile sent).2.
Proof.
  intros HI. unfold accept_data_stream. destruct frame as [[auth|]|]; [|done..].
  destruct (negb _); [done|]. destruct (TransferId.from_bytes _) as [id|]; [|done].
  destruct (check_stream _ _ _ _ _) as [m1|] eqn:Hc; [|done].
  apply check_stream_ok in Hc as (r & c & Hr & _ & _ & Hs & _ & Hch & _ & ->).
  assert (Hq : quiet m (log (update m id (fun r => start_stream (set_challenge None r))) (StreamAccepted id peer))).
  { etrans; [|apply quiet_log]. apply quiet_update. intros r0 _.
    split_and!; [by repeat split | done | by left|]. intros _. split; [by right|done]. }
  pose proof (sound_quiet _ _ Hq HI) as HI1. set (m1 := log _ _) in *.
  destruct sent; simpl; [|done].
  assert (Hr1 : mg_transfers m1 !! id = Some (start_stream (set_challenge None r))).
  { simpl. by rewrite lookup_alter_eq, Hr. }
  unfold run_stream. rewrite Hr1. simpl. apply sound_spawn.
  destruct (tr_direction r) eqn:Hd; apply Inv_spawn; try done.
  - split.
    { destruct (qt_log _ _ Hq) as [l Hl]. rewrite Hl. apply elem_of_app. left.
      apply (ro_agreed _ _ _ _ (iv_recs _ _ HI id r Hr) Hd). right. by rewrite Hch. }
    split; [apply (ro_temp _ _ _ _ (iv_recs _ _ HI id r Hr))|]. eexists. split; [exact Hr1|]. done.
  - intros id' [= <-]. split.
    + apply (iv_challenge _ _ HI id r Hr Hd). by rewrite Hch.
    + intros r0 Hr0 _. rewrite Hr1 in Hr0. by injection Hr0 as <-.
Qed.

Lemma sound_step m ev : ordinary m ev -> Sound m -> Sound (step m ev).
Proof.
  intros [Hfresh Hname] HI. destruct ev; cbn [step].
  - by apply sound_control.
  - by apply sound_offer_file.
  - eapply sound_quiet; [|done]. unfold cancel. repeat case_match; simpl; try reflexivity. apply quiet_fail.
  - eapply sound_quiet; [|done]. apply quiet_foldl. intros. apply quiet_fail.
  - by apply sound_stream.
  - destruct (mg_tasks m !! k) as [t|] eqn:Hk; [|done].
    assert (Inv (set_tasks m (delete k (mg_tasks m))) (t :: delete k (mg_tasks m))) as HI1.
    { rewrite <- (delete_Permutation _ _ _ Hk). destruct HI as [H1 H2 H3 H4 H5]. by split. }
    destruct (keeps_task _ t i _ HI1) as [HI2 Ht2].
    destruct (task_step _ t i) as [m1 [t'|]]; simpl in *; [apply sound_spawn|]; by rewrite Ht2.
  - eapply sound_quiet; [|done]. unfold reap_once. etrans; [|apply quiet_foldl; intros; case_match; [reflexivity|apply quiet_fail]].
    apply quiet_foldl. intros. apply quiet_fail.
  - eapply sound_quiet; [|done]. by apply quiet_same.
  - eapply sound_quiet; [|done]. by apply quiet_same.
  - eapply sound_quiet; [|done]. by apply quiet_same.
  - eapply sound_quiet; [|done]. by apply quiet_same.
  - eapply sound_quiet; [|done]. by apply quiet_same.
Qed.

Lemma sound_run m evs : along ordinary m evs -> Sound m -> Sound (run m evs).
Proof.
  revert m. induction evs as [|ev evs IH]; intros m; simpl; [done|].
  intros [Hev Hevs] HI. apply IH; [done | by apply sound_step].
Qed.

Lemma sound_started m : started m -> Sound m.
Proof.
  intros (H1 & H2 & H3). rewrite H3. split; [done | | done | apply NoDup_nil_2 | ];
    rewrite H2; intros id r Hr; by rewrite lookup_empty in Hr.
Qed.

Lemma sound_keyed m tasks : Inv m tasks -> keyed m.
Proof. intros HI id r Hr. apply (ro_id _ _ _ _ (iv_recs _ _ HI id r Hr)). Qed.

End Stored.
