(* ===== verification/TransferRuns.v ===== *)
(** Transfers, run.

    One receive from offer to stored file, evaluated with concrete codecs; it
    shows that the hypotheses of the transfer theorems hold of real runs.  Then
    runs that show behaviour the code's comments do not promise: a stream whose
    ready frame cannot be written leaves a transfer no deadline reaches, a cancel
    between promotion and record keeps the file, and a peer's second accept
    replaces the challenge of a running offer, and offers made at once pass the limit
    on concurrent transfers. *)
From S2P Require Import Prelude External Ids Pairing Framing Filename Transfer Stream UnixFs Sink Transfers TransfersFacts TransfersStored.

#[export] Instance FileOffer_eq_dec : EqDecision FileOffer.
Proof. solve_decision. Defined.
#[export] Instance FileOffer_countable : Countable FileOffer.
Proof.
  refine (inj_countable' (fun '(Build_FileOffer x0 x1 x2 x3 x4) => (x0, x1, x2, x3, x4))
    (fun '(x0, x1, x2, x3, x4) => Build_FileOffer x0 x1 x2 x3 x4) _); by intros [].
Defined.
#[export] Instance FileBody_eq_dec : EqDecision FileBody.
Proof. solve_decision. Defined.
#[export] Instance FileBody_countable : Countable FileBody.
Proof.
  refine (inj_countable'
    (fun b => match b with
     | BOffer o => inl (inl o)
     | BAccept i c => inl (inr (0, i, c))
     | BReady i c => inl (inr (1, i, c))
     | BReject i z => inr (inl (0, i, z))
     | BCancel i z => inr (inl (1, i, z))
     | BFailed i z => inr (inl (2, i, z))
     | BComplete i => inr (inr i)
     end)
    (fun s => match s with
     | inl (inl o) => BOffer o
     | inl (inr (0, i, c)) => BAccept i c
     | inl (inr (_, i, c)) => BReady i c
     | inr (inl (0, i, z)) => BReject i z
     | inr (inl (1, i, z)) => BCancel i z
     | inr (inl (_, i, z)) => BFailed i z
     | inr (inr i) => BComplete i
     end) _); by intros [].
Defined.
#[export] Instance FileControl_eq_dec : EqDecision FileControl.
Proof. solve_decision. Defined.
#[export] Instance FileControl_countable : Countable FileControl.
Proof. refine (inj_countable' fc_body Build_FileControl _); by intros []. Defined.

Definition control_codec : Prost FileControl := countable_prost FileControl.
#[local] Existing Instances control_codec toy_crypto.

(** ** The desktop receives a file *)

Definition run_id : TransferId := @BytesN 16 (replicate 16 x07) I.
Definition run_challenge : StreamChallenge := pad_array [x0a].
Definition desktop : Fingerprint := pad_array [x01].
Definition phone : Fingerprint := pad_array [x02].
Definition run_content : bytes := [x11; x22; x33].

Definition run_manager : Manager := {|
  mg_role := Acceptor; mg_local := desktop; mg_config := with_destination; mg_transfers := ∅;
  mg_authorizer := Some (fun fp => eqb fp phone); mg_has_dialer := false; mg_sessions := ∅;
  mg_channels := {[ 1 := Open ]}; mg_now := 0; mg_next_seq := 1; mg_tasks := []; mg_log := [];
  mg_fs := {| fs_files := {[ lit "a.txt" := {| f_data := [xff]; f_mode := 384 |} ]}; fs_dir := Some 448;
              fs_umask := 18; fs_faults := [] |} |}.

Definition run_offer : FileOffer := {|
  fo_transfer_id := bn_bytes run_id; fo_filename := lit "../a.txt"; fo_size_bytes := 3; fo_mime_type := [];
  fo_sha256 := bn_bytes (sha256 run_content) |}.

Definition offer_event : Event :=
  EvControl phone 1 Profile.Pliwee (encode_to_vec {| fc_body := Some (BOffer run_offer) |}) None.

Definition run_auth : DataStreamAuth := {|
  da_protocol_version := 1; da_transfer_id := bn_bytes run_id;
  da_mac := bn_bytes (compute_stream_mac Profile.Pliwee run_challenge desktop phone run_id) |}.

(** Offered, approved, and accepted to the peer. *)
Definition approve_events : list Event :=
  [offer_event; EvTask 0 (Answer true); EvTask 0 (Entropy (Some run_challenge)); EvTask 0 Go].

Definition stream_event : Event := EvStream phone (Some (Ok run_auth)) 1 Profile.Pliwee (Ok tt).

(** The stream, copied, checked and promoted. *)
Definition copy_events : list Event :=
  [stream_event; EvTask 0 Go; EvTask 0 (Network [Data [x11]; Data [x22; x33]; Data []] None); EvTask 0 (Synced true);
   EvTask 0 Go].

Definition accepted_manager : Manager := run run_manager approve_events.
Definition promoted_manager : Manager := run accepted_manager copy_events.
Definition finished_manager : Manager := run promoted_manager [EvTask 0 Go].

(** A record of a run, with a test it passes. *)
Lemma record_of (o : option TransferRecord) (p : TransferRecord -> bool) :
  match o with Some r => p r | None => false end = true -> exists r, o = Some r /\ p r = true.
Proof. destruct o as [r|]; [|done]. eauto. Defined.

Lemma run_started : started run_manager.
Proof. repeat split. Qed.

Lemma offer_honest : honest_names offer_event.
Proof.
  intros o name n Hdec. rewrite prost_decode_encode in Hdec. injection Hdec as <-.
  intros Hs [id Hid]. assert (name = lit "a.txt") as -> by (vm_compute in Hs; by injection Hs as <-).
  unfold candidate_name, temp_name in Hid. simpl in Hid. by destruct (n =? 0).
Qed.

Lemma approve_ordinary : along ordinary run_manager approve_events.
Proof. repeat (refine (conj _ _); [first [exact (conj I I) | exact (conj I offer_honest)]|]). exact I. Qed.

Lemma copy_ordinary : along ordinary accepted_manager copy_events.
Proof. repeat (refine (conj _ _); [exact (conj I I)|]). exact I. Qed.

Definition run_events : list Event := approve_events ++ copy_events ++ [EvTask 0 Go].

Lemma run_ordinary : along ordinary run_manager run_events.
Proof. repeat (refine (conj _ _); [first [exact (conj I I) | exact (conj I offer_honest)]|]). exact I. Qed.


Lemma accepted_keyed : keyed accepted_manager.
Proof. eapply sound_keyed, sound_run; [exact approve_ordinary | apply sound_started, run_started]. Qed.

(** The receive is agreed and waits for its stream. *)
Lemma accepted_record : exists r, mg_transfers accepted_manager !! run_id = Some r /\
  eqb (tr_state r) TransferState.Transferring && eqb (tr_peer r) phone = true.
Proof. apply record_of. vm_compute. reflexivity. Qed.


Lemma stream_let_in_once_witness : exists m',
  accept_data_stream accepted_manager phone (Some (Ok run_auth)) 1 Profile.Pliwee (Ok tt) = (Ok tt, m') /\
  exists id, TransferId.from_bytes (da_transfer_id run_auth) = Some id /\
    is_ok (check_stream m' id phone Profile.Pliwee (da_mac run_auth)) = false.
Proof.
  destruct (accept_data_stream accepted_manager phone (Some (Ok run_auth)) 1 Profile.Pliwee (Ok tt)) as [res m'] eqn:Hacc.
  assert (res = Ok tt) as ->.
  { change res with (res, m').1. rewrite <- Hacc. vm_compute. reflexivity. }
  exists m'. split; [reflexivity|].
  destruct (proj2 (stream_let_in_once _ _ _ _ _ _ _ _ Hacc) eq_refl)
    as (auth & id & r & c & Heq & Hid & _ & _ & _ & _ & _ & _ & _ & Hno).
  injection Heq as <-. exists id. exact (conj Hid (Hno _ _ _)).
Defined.

Lemma cancel_peer_stops_all_witness : keyed accepted_manager /\ exists r',
  mg_transfers (cancel_peer accepted_manager phone FailureReason.Revoked) !! run_id = Some r' /\
  tr_failure r' = Some FailureReason.Revoked.
Proof.
  split; [exact accepted_keyed|]. destruct accepted_record as (r & Hr & Hp).
  apply andb_true_iff in Hp as [Hs Hp]. apply eqb_eq in Hs, Hp.
  destruct (proj1 (cancel_peer_stops_all accepted_manager phone FailureReason.Revoked accepted_keyed) run_id r Hr)
    as (r' & Hr' & He).
  rewrite Hs, Hp in He. exists r'. exact (conj Hr' (proj1 (proj2 (proj2 He)))).
Defined.

Lemma reap_once_exact_witness : keyed accepted_manager /\ exists r,
  mg_transfers accepted_manager !! run_id = Some r /\ mg_transfers (reap_once accepted_manager) !! run_id = Some r.
Proof.
  split; [exact accepted_keyed|].
  destruct (record_of (mg_transfers accepted_manager !! run_id)
    (fun r => eqb (reap_reason accepted_manager r) None)) as (r & Hr & Hn); [vm_compute; reflexivity|].
  apply eqb_eq in Hn. destruct (proj1 (reap_once_exact accepted_manager accepted_keyed) run_id r Hr) as (r' & Hr' & He).
  rewrite Hn in He. subst r'. exists r. exact (conj Hr Hr').
Defined.

(** ** What the comments do not promise *)

(** The ready frame of an accepted stream cannot be written: the challenge is
    spent and the stream counts as running, with no task behind it.  However long
    the transfer then waits, the reaper leaves it as it is. *)
Definition abandoned : Manager :=
  step accepted_manager (EvStream phone (Some (Ok run_auth)) 1 Profile.Pliwee (Err UnexpectedEof)).

Example abandoned_stream_outlives_deadlines : mg_tasks abandoned = [] /\
  forall wait, exists r, mg_transfers (run abandoned [EvClock wait; EvReap]) !! run_id = Some r /\
    tr_state r = TransferState.Transferring /\ tr_challenge r = None.
Proof.
  split; [vm_compute; reflexivity|]. intros wait.
  set (m := step abandoned (EvClock wait)).
  assert (Hk : keyed m).
  { assert (keyed abandoned) as Hk; [|exact Hk]. eapply sound_keyed, sound_step; [exact (conj I I)|].
    eapply sound_run; [exact approve_ordinary | apply sound_started, run_started]. }
  destruct (record_of (mg_transfers abandoned !! run_id)
    (fun r => eqb (tr_state r) TransferState.Transferring && eqb (tr_challenge r) None && tr_stream_active r &&
              eqb (tr_peer r) phone && (tr_session r =? 1))) as (r & Hr & Hp); [vm_compute; reflexivity|].
  repeat match goal with Hx : _ && _ = true |- _ => apply andb_true_iff in Hx as [Hx ?] end.
  to_prop.
  exists r. destruct (proj1 (reap_once_exact m Hk) run_id r Hr) as (r' & Hr' & He).
  assert (reap_reason m r = None) as Hn.
  { unfold reap_reason, doomed, is_closed, authorized.
    change (mg_channels m) with (mg_channels abandoned). change (mg_authorizer m) with (mg_authorizer abandoned).
    repeat match goal with Hx : tr_state r = _ |- _ => rewrite Hx; clear Hx
      | Hx : tr_peer r = _ |- _ => rewrite Hx; clear Hx
      | Hx : tr_session r = _ |- _ => rewrite Hx; clear Hx
      | Hx : tr_stream_active r = true |- _ => rewrite Hx; clear Hx end.
    vm_compute. reflexivity. }
  rewrite Hn in He. subst r'. split; [exact Hr'|]. split; assumption.
Qed.

(** The user cancels between the promotion and its record: the transfer ends as
    cancelled, and the file stays in the download directory. *)
Example cancel_after_promotion_keeps_file : let m := run promoted_manager [EvCancel run_id; EvTask 0 Go] in
  (tr_state <$> mg_transfers m !! run_id) = Some TransferState.Cancelled /\
  (f_data <$> fs_files (mg_fs m) !! lit "a (1).txt") = Some run_content.
Proof. vm_compute. split; reflexivity. Qed.

(** ** Sending *)

Definition nth_id (b : byte) : TransferId := @BytesN 16 (replicate 16 b) I.
Definition sender : Manager := attach_session run_manager phone 1 Profile.Pliwee.

Definition send_one (b : byte) (elsewhere : Manager -> Manager) (m : Manager) : Manager :=
  (offer_file m phone (lit "/home/u/a.txt") (lit "a.txt") (Some [Some run_content]) elsewhere (Some (nth_id b))).2.

(** Five files offered one after the other: the fifth is refused.  Five offered
    at once, each counted before any is hashed: all are let in. *)
Example concurrent_offers_pass_the_limit :
  active_count_for (foldl (fun m b => send_one b (fun m => m) m) sender [x01; x02; x03; x04; x05]) phone = 4 /\
  active_count_for
    (send_one x01 (send_one x02 (send_one x03 (send_one x04 (send_one x05 (fun m => m))))) sender) phone = 5.
Proof. vm_compute. split; reflexivity. Qed.

(** A second accept for a running send replaces the challenge the first one was
    answered with, and is not answered itself. *)
Example second_accept_replaces_challenge :
  let m1 := (on_accept (send_one x01 (fun m => m) sender) phone (replicate 16 x01) [] (Some (pad_array [x0a]))).2 in
  let m2 := (on_accept m1 phone (replicate 16 x01) [] (Some (pad_array [x0b]))).2 in
  (tr_challenge <$> mg_transfers m1 !! nth_id x01) = Some (Some (pad_array [x0a])) /\
  (tr_challenge <$> mg_transfers m2 !! nth_id x01) = Some (Some (pad_array [x0b])) /\
  mg_log m2 = mg_log m1.
Proof. vm_compute. split_and!; reflexivity. Qed.
