(* ===== verification/Approval.v ===== *)
(** Asking a person about an incoming file.

    [runtime/src/approval.rs], the rendezvous between the file capability and
    whoever can ask a person, and [run_file_approval_session] of
    [runtime/src/server.rs], which asks over a control connection.  A call of
    [confirm_receive] is an [Ask]; the sender of its one-shot channel is in the
    pending table, and dropping it is [Gone].  A provider's queue stays readable
    after the provider was replaced, as a channel's does, so it belongs to the
    session that reads it.

    The theorems: a file is accepted only if the daemon was started to accept
    everything, or a person was shown this very offer, by a session that still
    had it open, and said yes to it; and a session that ends in order leaves no
    question of its own unanswered.  The example after them: a session whose
    connection breaks while it writes does not end in order. *)
From S2P Require Import Prelude External Ids Transfer.

Definition PROVIDER_QUEUE : nat := 32.

Record IncomingOffer := {
  io_transfer_id : TransferId;
  io_peer : Fingerprint;
  io_peer_device_id : str;
  io_filename : str;
  io_size_bytes : N;
  io_mime_type : str
}.

Inductive ADecision := Answered | Unknown.

(** The receiving end of an ask's one-shot channel. *)
Inductive Reply := Waiting | Said (accept : bool) | Gone.

Record Ask := { ak_offer : IncomingOffer; ak_reply : Reply }.

(** [Pending]: the peer, and whose reply it is. *)
Record Pending := { pd_peer : Fingerprint; pd_ask : N }.

(** A session of [run_file_approval_session]: its channel, and the prompts open. *)
Record ASession := { as_queue : list IncomingOffer; as_open : gset TransferId; as_running : bool }.

(** [FileApproval], the asks and the sessions; [fa_provider] is the session whose
    channel the seam holds.  [fa_shown] records the prompts sent, [fa_results]
    what [confirm_receive] returned. *)
Record FileApproval := {
  fa_unattended : bool;
  fa_provider : option N;
  fa_epoch : N;
  fa_pending : gmap TransferId Pending;
  fa_asks : gmap N Ask;
  fa_sessions : gmap N ASession;
  fa_shown : list (N * IncomingOffer);
  fa_results : list (N * bool)
}.

Definition FileApproval_new (unattended : bool) : FileApproval := {|
  fa_unattended := unattended; fa_provider := None; fa_epoch := 0; fa_pending := ∅; fa_asks := ∅;
  fa_sessions := ∅; fa_shown := []; fa_results := [] |}.

(** Field assignments. *)
Definition set_provider (a : FileApproval) (p : option N) (epoch : N) : FileApproval := {|
  fa_unattended := fa_unattended a; fa_provider := p; fa_epoch := epoch; fa_pending := fa_pending a;
  fa_asks := fa_asks a; fa_sessions := fa_sessions a; fa_shown := fa_shown a; fa_results := fa_results a |}.
Definition set_pending_asks (a : FileApproval) (p : gmap TransferId Pending) (k : gmap N Ask) : FileApproval := {|
  fa_unattended := fa_unattended a; fa_provider := fa_provider a; fa_epoch := fa_epoch a; fa_pending := p;
  fa_asks := k; fa_sessions := fa_sessions a; fa_shown := fa_shown a; fa_results := fa_results a |}.
Definition set_asessions (a : FileApproval) (s : gmap N ASession) : FileApproval := {|
  fa_unattended := fa_unattended a; fa_provider := fa_provider a; fa_epoch := fa_epoch a; fa_pending := fa_pending a;
  fa_asks := fa_asks a; fa_sessions := s; fa_shown := fa_shown a; fa_results := fa_results a |}.
Definition add_shown (a : FileApproval) (e : N) (o : IncomingOffer) : FileApproval := {|
  fa_unattended := fa_unattended a; fa_provider := fa_provider a; fa_epoch := fa_epoch a; fa_pending := fa_pending a;
  fa_asks := fa_asks a; fa_sessions := fa_sessions a; fa_shown := fa_shown a ++ [(e, o)]; fa_results := fa_results a |}.
Definition add_result (a : FileApproval) (k : N) (b : bool) : FileApproval := {|
  fa_unattended := fa_unattended a; fa_provider := fa_provider a; fa_epoch := fa_epoch a; fa_pending := fa_pending a;
  fa_asks := fa_asks a; fa_sessions := fa_sessions a; fa_shown := fa_shown a; fa_results := fa_results a ++ [(k, b)] |}.

Definition set_reply (r : Reply) (ak : Ask) : Ask := {| ak_offer := ak_offer ak; ak_reply := r |}.

(** A sender dropped before it was used closes its channel. *)
Definition drop_sender (ak : Ask) : Ask :=
  match ak_reply ak with Waiting => set_reply Gone ak | _ => ak end.

(** * [approval.rs] *)

(** Every pending sender dropped. *)
Definition clear_pending (a : FileApproval) : FileApproval :=
  set_pending_asks a ∅ (foldr (fun p asks => alter drop_sender (pd_ask p.2) asks) (fa_asks a) (map_to_list (fa_pending a))).

Definition attach (a : FileApproval) : N * FileApproval :=
  let epoch := wrap_add_u64 (fa_epoch a) 1 in
  (epoch, clear_pending (set_provider a (Some epoch) epoch)).

Definition detach (a : FileApproval) (epoch : N) : FileApproval :=
  if negb (fa_epoch a =? epoch) then a
  else clear_pending (set_provider a None (fa_epoch a)).

Definition FileApproval_decide (a : FileApproval) (transfer : TransferId) (accept : bool) : ADecision * FileApproval :=
  match fa_pending a !! transfer with
  | Some p =>
      (Answered, set_pending_asks a (delete transfer (fa_pending a)) (alter (set_reply (Said accept)) (pd_ask p) (fa_asks a)))
  | None => (Unknown, a)
  end.

Definition withdraw (a : FileApproval) (transfer : TransferId) : FileApproval :=
  match fa_pending a !! transfer with
  | Some p => set_pending_asks a (delete transfer (fa_pending a)) (alter drop_sender (pd_ask p) (fa_asks a))
  | None => a
  end.

Definition pending_peer (a : FileApproval) (transfer : TransferId) : option Fingerprint := pd_peer <$> fa_pending a !! transfer.
Definition pending (a : FileApproval) : N := N.of_nat (size (fa_pending a)).

(** [confirm_receive] up to its wait; [k] numbers the call. *)
Definition confirm_receive (a : FileApproval) (k : N) (offer : IncomingOffer) : FileApproval :=
  if fa_unattended a then add_result a k true
  else
    match fa_provider a with
    | None => add_result a k false
    | Some e =>
        match fa_sessions a !! e with
        | None => add_result a k false
        | Some s =>
            if negb (as_running s) then add_result a k false
            else if (PROVIDER_QUEUE <=? length (as_queue s))%nat then add_result a k false
            else
              let a := set_asessions a (<[e := {| as_queue := as_queue s ++ [offer]; as_open := as_open s;
                                                   as_running := as_running s |}]> (fa_sessions a)) in
              let a := withdraw a (io_transfer_id offer) in
              set_pending_asks a
                (<[io_transfer_id offer := {| pd_peer := io_peer offer; pd_ask := k |}]> (fa_pending a))
                (<[k := {| ak_offer := offer; ak_reply := Waiting |}]> (fa_asks a))
        end
    end.

(** The wait of [confirm_receive] ends, and its guard drops. *)
Definition confirm_resumed (a : FileApproval) (k : N) : FileApproval :=
  match fa_asks a !! k with
  | Some ak =>
      let finish b := add_result (let a := withdraw a (io_transfer_id (ak_offer ak)) in
                                  set_pending_asks a (fa_pending a) (delete k (fa_asks a))) k b in
      match ak_reply ak with Waiting => a | Said b => finish b | Gone => finish false end
  | None => a
  end.

(** The caller's timeout drops the future. *)
Definition confirm_dropped (a : FileApproval) (k : N) : FileApproval :=
  match fa_asks a !! k with
  | Some ak =>
      let a := withdraw a (io_transfer_id (ak_offer ak)) in
      add_result (set_pending_asks a (fa_pending a) (delete k (fa_asks a))) k false
  | None => a
  end.

(** * The session over a control connection *)

Definition put_session (a : FileApproval) (e : N) (s : ASession) : FileApproval :=
  set_asessions a (<[e := s]> (fa_sessions a)).

Definition stop_session (a : FileApproval) (e : N) : FileApproval :=
  set_asessions a (alter (fun s => {| as_queue := as_queue s; as_open := as_open s; as_running := false |}) e (fa_sessions a)).

(** The start; [sent] tells whether the greeting could be written. *)
Definition session_start (a : FileApproval) (sent : bool) : FileApproval :=
  let '(epoch, a) := attach a in
  put_session a epoch {| as_queue := []; as_open := ∅; as_running := sent |}.

(** An offer is read; [live] is whether its transfer has not ended, [sent] whether
    the prompt could be written.  A write that fails leaves through [?]. *)
Definition session_offer (a : FileApproval) (e : N) (live sent : bool) : FileApproval :=
  match fa_sessions a !! e with
  | Some s =>
      if negb (as_running s) then a
      else
        match as_queue s with
        | [] => a
        | offer :: queue =>
            if negb live
            then withdraw (put_session a e {| as_queue := queue; as_open := as_open s; as_running := true |}) (io_transfer_id offer)
            else
              let a := put_session a e {| as_queue := queue; as_open := {[ io_transfer_id offer ]} ∪ as_open s; as_running := sent |} in
              if sent then add_shown a e offer else a
        end
  | None => a
  end.

(** [apply_file_decision]; [transfer] is the text of the request. *)
Definition apply_file_decision (a : FileApproval) (e : N) (transfer : str) (accept : bool) : FileApproval :=
  match fa_sessions a !! e with
  | Some s =>
      if negb (as_running s) then a
      else
        match TransferId.from_hex transfer with
        | None => a
        | Some id =>
            if bool_decide (id ∈ as_open s)
            then (FileApproval_decide (put_session a e {| as_queue := as_queue s; as_open := as_open s ∖ {[ id ]}; as_running := true |}) id accept).2
            else a
        end
  | None => a
  end.

(** A transfer ended. *)
Definition session_settled (a : FileApproval) (e : N) (id : TransferId) (sent : bool) : FileApproval :=
  match fa_sessions a !! e with
  | Some s =>
      if negb (as_running s) then a
      else if bool_decide (id ∈ as_open s)
      then withdraw (put_session a e {| as_queue := as_queue s; as_open := as_open s ∖ {[ id ]}; as_running := sent |}) id
      else a
  | None => a
  end.

(** The end of the loop: the connection closed, or the channel did. *)
Definition session_end (a : FileApproval) (e : N) : FileApproval :=
  match fa_sessions a !! e with
  | Some s => if negb (as_running s) then a else detach (stop_session a e) e
  | None => a
  end.

(** ** Everything that can happen *)

Inductive AEvent :=
| AAsk (k : N) (offer : IncomingOffer)
| AResumed (k : N)
| ADropped (k : N)
| AStart (sent : bool)
| AOffer (e : N) (live sent : bool)
| ADecide (e : N) (transfer : str) (accept : bool)
| ASettled (e : N) (id : TransferId) (sent : bool)
| AEnd (e : N).

Definition approval_step (a : FileApproval) (ev : AEvent) : FileApproval :=
  match ev with
  | AAsk k offer => confirm_receive a k offer
  | AResumed k => confirm_resumed a k
  | ADropped k => confirm_dropped a k
  | AStart sent => session_start a sent
  | AOffer e live sent => session_offer a e live sent
  | ADecide e transfer accept => apply_file_decision a e transfer accept
  | ASettled e id sent => session_settled a e id sent
  | AEnd e => session_end a e
  end.

Definition approval_run (unattended : bool) (evs : list AEvent) : FileApproval :=
  foldl approval_step (FileApproval_new unattended) evs.

(** * Histories *)

Definition asks_of (evs : list AEvent) : list (N * IncomingOffer) :=
  omap (fun ev => match ev with AAsk k o => Some (k, o) | _ => None end) evs.

(** Calls are distinct, and no transfer id is offered twice: the file capability
    refuses an id it has a record of. *)
Definition distinct_asks (evs : list AEvent) : Prop :=
  NoDup (asks_of evs).*1 /\ NoDup (io_transfer_id <$> (asks_of evs).*2).

(** At some moment a person, shown [k]'s offer by a session that still had it
    open, said yes to it. *)
Definition agreed (unattended : bool) (evs : list AEvent) (k : N) : Prop :=
  exists pre e text post offer s, evs = pre ++ ADecide e text true :: post /\ (k, offer) ∈ asks_of pre /\
    TransferId.from_hex text = Some (io_transfer_id offer) /\
    (e, offer) ∈ fa_shown (approval_run unattended pre) /\
    fa_sessions (approval_run unattended pre) !! e = Some s /\ as_running s = true /\ io_transfer_id offer ∈ as_open s.

(** What holds of every reachable state, [asked] being the calls so far. *)
Record fits (asked : list (N * IncomingOffer)) (Agreed : N -> Prop) (a : FileApproval) : Prop := {
  fi_asks : forall k ak, fa_asks a !! k = Some ak -> (k, ak_offer ak) ∈ asked;
  fi_pending : forall id p, fa_pending a !! id = Some p ->
    exists ak, fa_asks a !! pd_ask p = Some ak /\ io_transfer_id (ak_offer ak) = id;
  fi_waiting : forall k ak, fa_asks a !! k = Some ak -> ak_reply ak = Waiting ->
    exists p, fa_pending a !! io_transfer_id (ak_offer ak) = Some p /\ pd_ask p = k;
  fi_queue : forall e s o, fa_sessions a !! e = Some s -> o ∈ as_queue s -> exists k, (k, o) ∈ asked;
  fi_open : forall e s id, fa_sessions a !! e = Some s -> as_running s = true -> id ∈ as_open s ->
    exists o, (e, o) ∈ fa_shown a /\ io_transfer_id o = id;
  fi_shown : forall e o, (e, o) ∈ fa_shown a -> exists k, (k, o) ∈ asked;
  fi_said : forall k ak, fa_asks a !! k = Some ak -> ak_reply ak = Said true -> Agreed k;
  fi_results : forall k, (k, true) ∈ fa_results a -> Agreed k
}.

Definition ids_distinct (asked : list (N * IncomingOffer)) : Prop :=
  forall k o k' o', (k, o) ∈ asked -> (k', o') ∈ asked -> k = k' \/ io_transfer_id o = io_transfer_id o' -> k = k' /\ o = o'.

Lemma alter_ask f k (asks : gmap N Ask) k' ak' : (forall ak, ak_offer (f ak) = ak_offer ak) -> alter f k asks !! k' = Some ak' ->
  exists ak : Ask, asks !! k' = Some ak /\ ak_offer ak' = ak_offer ak /\ (k' <> k -> ak' = ak) /\ (k' = k -> ak' = f ak).
Proof.
  intros Hf. rewrite lookup_alter_Some. intros [(<- & ak & H & ->)|[Hne H]]; [exists ak; by rewrite Hf | by exists ak'].
Qed.

Lemma alter_ask_some f k (asks : gmap N Ask) k' ak : (forall ak, ak_offer (f ak) = ak_offer ak) -> asks !! k' = Some ak ->
  exists ak' : Ask, alter f k asks !! k' = Some ak' /\ ak_offer ak' = ak_offer ak.
Proof.
  intros Hf H. destruct (decide (k = k')) as [->|Hne].
  - exists (f ak). by rewrite lookup_alter_eq, H, Hf.
  - exists ak. by rewrite lookup_alter_ne.
Qed.

Lemma drop_sender_offer ak : ak_offer (drop_sender ak) = ak_offer ak.
Proof. unfold drop_sender. by destruct (ak_reply ak). Qed.

Lemma drop_sender_not_waiting ak : ak_reply (drop_sender ak) <> Waiting.
Proof. unfold drop_sender. destruct (ak_reply ak) eqn:E; simpl; congruence. Qed.

Lemma drop_sender_said ak b : ak_reply (drop_sender ak) = Said b -> ak_reply ak = Said b.
Proof. unfold drop_sender. destruct (ak_reply ak) eqn:E; simpl; congruence. Qed.

Section Fits.
Context (asked : list (N * IncomingOffer)) (Agreed : N -> Prop).
Context (Hdist : ids_distinct asked).

(** One pending entry is taken out and its ask changed so that it does not wait. *)
Lemma fits_take a id p f : fits asked Agreed a -> fa_pending a !! id = Some p ->
  (forall ak, ak_offer (f ak) = ak_offer ak /\ ak_reply (f ak) <> Waiting) ->
  (forall ak, fa_asks a !! pd_ask p = Some ak -> ak_reply (f ak) = Said true -> Agreed (pd_ask p)) ->
  fits asked Agreed (set_pending_asks a (delete id (fa_pending a)) (alter f (pd_ask p) (fa_asks a))).
Proof.
  intros [H1 H2 H3 H4 H5 H6 H7 H8] Hp Hf Hyes. assert (forall ak, ak_offer (f ak) = ak_offer ak) as Ho by apply Hf.
  constructor; simpl; try done.
  - intros k ak' (ak & Hk & -> & _)%alter_ask; [|done]. eauto.
  - intros id' p' [_ Hp']%lookup_delete_Some. destruct (H2 _ _ Hp') as (ak & Hk & Hid).
    destruct (alter_ask_some f (pd_ask p) _ _ _ Ho Hk) as (ak' & Hk' & Heq). exists ak'. by rewrite Heq.
  - intros k ak' (ak & Hk & Heq & Hne & He)%alter_ask; [|done]. intros Hw. destruct (decide (k = pd_ask p)) as [->|Hk'].
    + rewrite He in Hw by done. by destruct (Hf ak).
    + rewrite Hne in * by done. destruct (H3 _ _ Hk Hw) as (p' & Hp' & Hpk). exists p'. split; [|done].
      rewrite lookup_delete_ne; [done|]. intros ->. rewrite Hp in Hp'. injection Hp' as ->. done.
  - intros k ak' (ak & Hk & Heq & Hne & He)%alter_ask; [|done]. intros Hs. destruct (decide (k = pd_ask p)) as [->|Hk'].
    + rewrite He in Hs by done. eauto.
    + rewrite Hne in Hs by done. eauto.
Qed.

Lemma fits_withdraw a id : fits asked Agreed a -> fits asked Agreed (withdraw a id).
Proof.
  intros Ha. unfold withdraw. destruct (fa_pending a !! id) as [p|] eqn:Hp; [|done]. apply fits_take; [done | done | |].
  - intros ak. split; [apply drop_sender_offer | apply drop_sender_not_waiting].
  - intros ak Hk Hs%drop_sender_said. by eapply fi_said.
Qed.

Lemma fits_decide a id b : fits asked Agreed a ->
  (b = true -> forall p, fa_pending a !! id = Some p -> Agreed (pd_ask p)) -> fits asked Agreed (FileApproval_decide a id b).2.
Proof.
  intros Ha Hyes. unfold FileApproval_decide. destruct (fa_pending a !! id) as [p|] eqn:Hp; [|done]. apply fits_take; [done | done | done |].
  simpl. intros ak _ [= ->]. by apply Hyes.
Qed.

(** The asks after every pending sender has been dropped. *)
Lemma dropped_ask l (asks : gmap N Ask) k ak' :
  foldr (fun p : TransferId * Pending => alter drop_sender (pd_ask p.2)) asks l !! k = Some ak' ->
  exists ak, asks !! k = Some ak /\ ak_offer ak' = ak_offer ak /\ (ak_reply ak' = Waiting -> ak_reply ak = Waiting /\ k ∉ (pd_ask ∘ snd <$> l)) /\
    (forall b, ak_reply ak' = Said b -> ak_reply ak = Said b).
Proof.
  revert ak'. induction l as [|p l IH]; intros ak' H.
  - exists ak'. split_and!; try done. intros ?. split; [done|]. apply not_elem_of_nil.
  - simpl in H. apply alter_ask in H as (ak1 & H1 & Heq & Hne & He); [|apply drop_sender_offer].
    destruct (IH _ H1) as (ak & Hk & Hoff & Hwait & Hsaid). exists ak. split_and!; [done | congruence | |].
    + intros Hw. destruct (decide (k = pd_ask p.2)) as [->|Hnp].
      * rewrite He in Hw by done. by apply drop_sender_not_waiting in Hw.
      * rewrite Hne in Hw by done. destruct (Hwait Hw) as [? Hnot]. split; [done|]. rewrite fmap_cons. apply not_elem_of_cons. by split.
    + intros b Hb. apply Hsaid. destruct (decide (k = pd_ask p.2)) as [->|Hnp].
      * rewrite He in Hb by done. by apply drop_sender_said.
      * by rewrite Hne in Hb by done.
Qed.

Lemma clear_not_waiting a k ak : fits asked Agreed a -> fa_asks (clear_pending a) !! k = Some ak -> ak_reply ak <> Waiting.
Proof.
  intros Ha Hk Hw. simpl in Hk. apply dropped_ask in Hk as (ak0 & Hk & _ & Hwait & _). destruct (Hwait Hw) as [Hw0 Hnot].
  destruct (fi_waiting _ _ _ Ha _ _ Hk Hw0) as (p & Hp & <-). apply Hnot. apply list_elem_of_fmap.
  exists (io_transfer_id (ak_offer ak0), p). split; [done|]. by apply elem_of_map_to_list.
Qed.

Lemma fits_clear a : fits asked Agreed a -> fits asked Agreed (clear_pending a).
Proof.
  intros Ha. pose proof (clear_not_waiting a) as Hw. destruct (Ha) as [H1 H2 H3 H4 H5 H6 H7 H8]. constructor; try done.
  - intros k ak (ak0 & Hk & -> & _)%dropped_ask. eauto.
  - intros k ak Hk Hwait. by destruct (Hw k ak Ha Hk).
  - intros k ak (ak0 & Hk & _ & _ & Hs)%dropped_ask Hr. eauto.
Qed.

(** Changes of the provider and of the sessions. *)
Lemma fits_provider a p e : fits asked Agreed a -> fits asked Agreed (set_provider a p e).
Proof. by intros []. Qed.

Lemma fits_put a e s : fits asked Agreed a -> (forall o, o ∈ as_queue s -> exists k, (k, o) ∈ asked) ->
  (forall id, as_running s = true -> id ∈ as_open s -> exists o, (e, o) ∈ fa_shown a /\ io_transfer_id o = id) ->
  fits asked Agreed (put_session a e s).
Proof.
  intros [H1 H2 H3 H4 H5 H6 H7 H8] Hq Ho. constructor; simpl; try done.
  - intros e' s' o [[<- <-]|[_ Hs]]%lookup_insert_Some; eauto.
  - intros e' s' id [[<- <-]|[_ Hs]]%lookup_insert_Some; eauto.
Qed.

Lemma fits_detach a e : fits asked Agreed a -> fits asked Agreed (detach a e).
Proof. intros Ha. unfold detach. case_match; [done|]. by apply fits_clear, fits_provider. Qed.

Lemma fits_result a k b : fits asked Agreed a -> (b = true -> Agreed k) -> fits asked Agreed (add_result a k b).
Proof.
  intros [H1 H2 H3 H4 H5 H6 H7 H8] Hb. constructor; simpl; try done.
  intros k'. rewrite elem_of_app, list_elem_of_singleton. intros [?|[= -> <-]]; auto.
Qed.
End Fits.

Lemma fits_mono asked asked' (A A' : N -> Prop) a : (forall x, x ∈ asked -> x ∈ asked') -> (forall k, A k -> A' k) ->
  fits asked A a -> fits asked' A' a.
Proof.
  intros Hs HA [H1 H2 H3 H4 H5 H6 H7 H8]. constructor; try done; eauto.
  - intros e s o Hs1 Ho. destruct (H4 _ _ _ Hs1 Ho). eauto.
  - intros e o Ho. destruct (H6 _ _ Ho). eauto.
Qed.

Lemma withdraw_none a id : fa_pending (withdraw a id) !! id = None.
Proof. unfold withdraw. destruct (fa_pending a !! id) eqn:H; [by simpl; rewrite lookup_delete_eq | done]. Qed.

Lemma withdraw_same a id : fa_sessions (withdraw a id) = fa_sessions a /\ fa_shown (withdraw a id) = fa_shown a.
Proof. unfold withdraw. by destruct (fa_pending a !! id). Qed.

Lemma withdraw_asks a id k ak' : fa_asks (withdraw a id) !! k = Some ak' ->
  exists ak, fa_asks a !! k = Some ak /\ ak_offer ak' = ak_offer ak.
Proof.
  unfold withdraw. destruct (fa_pending a !! id) as [p|]; [|eauto]. simpl.
  intros (ak & ? & ? & _)%alter_ask; [eauto | apply drop_sender_offer].
Qed.

Lemma fits_ask asked A a k offer : fits asked A a -> (forall o, (k, o) ∉ asked) -> (fa_unattended a = true -> A k) ->
  fits (asked ++ [(k, offer)]) A (confirm_receive a k offer).
Proof.
  intros Ha Hk Hun. assert (fits (asked ++ [(k, offer)]) A a) as Ha' by (eapply fits_mono; [| |exact Ha]; set_solver).
  unfold confirm_receive. destruct (fa_unattended a); [apply fits_result; auto|].
  destruct (fa_provider a) as [e|]; [|by apply fits_result]. destruct (fa_sessions a !! e) as [s|] eqn:Hs; [|by apply fits_result].
  destruct (as_running s) eqn:Hrun; [|by apply fits_result]. cbn [negb]. case_match; [by apply fits_result|].
  set (a1 := set_asessions a _). assert (fits (asked ++ [(k, offer)]) A a1) as Ha1.
  { apply fits_put; [done | |]; simpl.
    - intros o [Ho| ->%list_elem_of_singleton]%elem_of_app; [by eapply fi_queue | exists k; set_solver].
    - intros id _ Ho. by eapply fi_open. }
  pose proof (withdraw_none a1 (io_transfer_id offer)) as Hnone.
  assert (fa_asks (withdraw a1 (io_transfer_id offer)) !! k = None) as Hfresh.
  { apply eq_None_not_Some. intros [ak (ak0 & Hak & _)%withdraw_asks]. by apply (fi_asks _ _ _ Ha), Hk in Hak. }
  destruct (fits_withdraw _ _ _ (io_transfer_id offer) Ha1) as [H1 H2 H3 H4 H5 H6 H7 H8].
  set (a2 := withdraw a1 (io_transfer_id offer)) in *. constructor; simpl; try done.
  - intros k' ak [[<- <-]|[_ Hak]]%lookup_insert_Some; [simpl; set_solver | eauto].
  - intros id p [[<- <-]|[_ Hp]]%lookup_insert_Some; simpl; [eexists; split; [apply lookup_insert_eq | done]|].
    destruct (H2 _ _ Hp) as (ak & Hak & Hid). exists ak. split; [|done]. rewrite lookup_insert_ne; [done | congruence].
  - intros k' ak [[<- <-]|[_ Hak]]%lookup_insert_Some; simpl; [intros _; eexists; split; [apply lookup_insert_eq | done]|].
    intros Hw. destruct (H3 _ _ Hak Hw) as (p & Hp & Hpk). exists p. split; [|done]. rewrite lookup_insert_ne; [done | congruence].
  - intros k' ak [[<- <-]|[_ Hak]]%lookup_insert_Some; [done | eauto].
Qed.

(** An ask is over: its entry and the ask itself go. *)
Lemma fits_over asked A a k ak : fits asked A a -> fa_asks a !! k = Some ak ->
  fits asked A (let a := withdraw a (io_transfer_id (ak_offer ak)) in set_pending_asks a (fa_pending a) (delete k (fa_asks a))).
Proof.
  intros Ha Hk. pose proof (withdraw_none a (io_transfer_id (ak_offer ak))) as Hnone.
  assert (forall ak', fa_asks (withdraw a (io_transfer_id (ak_offer ak))) !! k = Some ak' -> ak_offer ak' = ak_offer ak) as Hsame.
  { intros ak' (ak0 & Hk0 & ->)%withdraw_asks. congruence. }
  destruct (fits_withdraw _ _ _ (io_transfer_id (ak_offer ak)) Ha) as [H1 H2 H3 H4 H5 H6 H7 H8].
  set (a1 := withdraw a _) in *. constructor; simpl; try done.
  - intros k' ak' [_ Hk']%lookup_delete_Some. eauto.
  - intros id p Hp. destruct (H2 _ _ Hp) as (ak' & Hak & Hid). exists ak'. split; [|done]. rewrite lookup_delete_ne; [done|].
    intros ->. apply Hsame in Hak. rewrite Hak in Hid. subst id. congruence.
  - intros k' ak' [_ Hk']%lookup_delete_Some. eauto.
  - intros k' ak' [_ Hk']%lookup_delete_Some. eauto.
Qed.

Lemma fits_step asked A a ev : fits asked A a -> ids_distinct asked ->
  (forall k o, ev <> AAsk k o) ->
  (forall e text s id o k, ev = ADecide e text true -> fa_sessions a !! e = Some s -> as_running s = true ->
     TransferId.from_hex text = Some id -> id ∈ as_open s -> (e, o) ∈ fa_shown a -> (k, o) ∈ asked -> io_transfer_id o = id -> A k) ->
  fits asked A (approval_step a ev).
Proof.
  intros Ha Hdist Hask Hyes. destruct ev as [k o|k|k|sent|e live sent|e text accept|e id sent|e]; simpl.
  - by destruct (Hask k o).
  - unfold confirm_resumed. destruct (fa_asks a !! k) as [ak|] eqn:Hk; [|done]. destruct (ak_reply ak) as [|b|] eqn:Hr; [done| |].
    + apply fits_result; [by apply fits_over|]. intros ->. by eapply fi_said.
    + apply fits_result; [by apply fits_over | done].
  - unfold confirm_dropped. destruct (fa_asks a !! k) as [ak|] eqn:Hk; [|done]. apply fits_result; [by apply fits_over | done].
  - unfold session_start, attach. apply fits_put; [by apply fits_clear, fits_provider | set_solver | set_solver].
  - unfold session_offer. destruct (fa_sessions a !! e) as [s|] eqn:Hs; [|done]. destruct (as_running s) eqn:Hrun; [|done]. cbn [negb].
    destruct (as_queue s) as [|o q] eqn:Hq; [done|].
    assert (forall x, x ∈ q -> exists k, (k, x) ∈ asked) as Hin by (intros x Hx; eapply (fi_queue _ _ _ Ha); [exact Hs|]; rewrite Hq; set_solver).
    destruct live; cbn [negb].
    + destruct sent; [|apply fits_put; [done | done | done]].
      assert (exists k, (k, o) ∈ asked) as Ho by (eapply (fi_queue _ _ _ Ha); [exact Hs|]; rewrite Hq; set_solver).
      destruct Ha as [H1 H2 H3 H4 H5 H6 H7 H8]. constructor; simpl; try done.
      * intros e' s' x [[<- <-]|[_ Hs']]%lookup_insert_Some; [apply Hin | eauto].
      * intros e' s' id [[<- <-]|[_ Hs']]%lookup_insert_Some; simpl.
        -- intros _ [->%elem_of_singleton|Hid]%elem_of_union; [exists o; set_solver|].
           destruct (H5 _ _ _ Hs Hrun Hid) as (x & Hx & Hxid). exists x. set_solver.
        -- intros Hr Hid. destruct (H5 _ _ _ Hs' Hr Hid) as (x & Hx & Hxid). exists x. set_solver.
      * intros e' x [Hx|[= -> ->]%list_elem_of_singleton]%elem_of_app; eauto.
    + apply fits_withdraw, fits_put; [done | done|]. simpl. intros id _ Hid. by eapply fi_open.
  - unfold apply_file_decision. destruct (fa_sessions a !! e) as [s|] eqn:Hs; [|done]. destruct (as_running s) eqn:Hrun; [|done]. cbn [negb].
    destruct (TransferId.from_hex text) as [id|] eqn:Hhex; [|done]. case_bool_decide as Hopen; [|done]. apply fits_decide.
    + apply fits_put; [done | |]; simpl; [by intros o Ho; eapply fi_queue |]. intros x _ Hx. eapply fi_open; [done | exact Hs | done | set_solver].
    + simpl. intros -> p Hp. destruct (fi_pending _ _ _ Ha _ _ Hp) as (ak & Hak & Hid). apply (fi_asks _ _ _ Ha) in Hak.
      destruct (fi_open _ _ _ Ha _ _ _ Hs Hrun Hopen) as (o & Ho & Hoid). destruct (fi_shown _ _ _ Ha _ _ Ho) as [k Hk].
      destruct (Hdist _ _ _ _ Hk Hak) as [<- _]; [right; congruence|]. by eapply Hyes.
  - unfold session_settled. destruct (fa_sessions a !! e) as [s|] eqn:Hs; [|done]. destruct (as_running s) eqn:Hrun; [|done]. cbn [negb].
    case_bool_decide; [|done]. apply fits_withdraw, fits_put; [done | |]; simpl; [by intros o Ho; eapply fi_queue |].
    intros x _ Hx. eapply fi_open; [done | exact Hs | done | set_solver].
  - unfold session_end. destruct (fa_sessions a !! e) as [s|] eqn:Hs; [|done]. destruct (as_running s) eqn:Hrun; [|done]. cbn [negb].
    apply fits_detach. unfold stop_session. destruct Ha as [H1 H2 H3 H4 H5 H6 H7 H8]. constructor; simpl; try done.
    + intros e' s' o. rewrite lookup_alter_Some. intros [(<- & s0 & Hs0 & ->)|[_ Hs']]; [by eauto | eauto].
    + intros e' s' id. rewrite lookup_alter_Some. intros [(<- & s0 & Hs0 & ->)|[_ Hs']]; [done | eauto].
Qed.

(** * What the answers mean *)

Lemma asks_snoc evs ev : asks_of (evs ++ [ev]) = asks_of evs ++ match ev with AAsk k o => [(k, o)] | _ => [] end.
Proof. unfold asks_of. rewrite omap_app. by destruct ev. Qed.

Lemma NoDup_fmap_inj {A B} (f : A -> B) l x y : NoDup (f <$> l) -> x ∈ l -> y ∈ l -> f x = f y -> x = y.
Proof.
  induction l as [|z l IH]; [by intros _ ?%elem_of_nil|]. rewrite fmap_cons. intros [Hz Hn]%NoDup_cons Hx Hy Heq.
  apply elem_of_cons in Hx, Hy. destruct Hx as [->|Hx], Hy as [->|Hy]; [done | | | by apply IH].
  - destruct Hz. rewrite Heq. by apply list_elem_of_fmap_2.
  - destruct Hz. rewrite <- Heq. by apply list_elem_of_fmap_2.
Qed.

Lemma distinct_ids evs : distinct_asks evs -> ids_distinct (asks_of evs).
Proof.
  intros [Hk Hid] k o k' o' H1 H2 Hor. assert ((k, o) = (k', o')) as [= -> ->]; [|done]. destruct Hor as [->|Heq].
  - by eapply (NoDup_fmap_inj fst).
  - rewrite <- list_fmap_compose in Hid. by eapply (NoDup_fmap_inj (io_transfer_id ∘ snd)).
Qed.

Lemma distinct_app evs ev : distinct_asks (evs ++ [ev]) -> distinct_asks evs.
Proof.
  unfold distinct_asks. rewrite asks_snoc, !fmap_app. intros [Hk Hid]. apply NoDup_app in Hk as [? _], Hid as [? _]. done.
Qed.

Lemma unattended_kept unattended evs : fa_unattended (approval_run unattended evs) = unattended.
Proof.
  unfold approval_run. assert (forall a ev, fa_unattended (approval_step a ev) = fa_unattended a) as Hstep.
  { intros a ev. destruct ev; simpl; unfold confirm_receive, confirm_resumed, confirm_dropped, session_start, session_offer,
      apply_file_decision, session_settled, session_end, attach, detach, FileApproval_decide, withdraw; repeat case_match; done. }
  induction evs as [|ev evs IH] using rev_ind; [done|]. rewrite foldl_app. simpl. by rewrite Hstep.
Qed.

Lemma run_fits unattended evs : distinct_asks evs ->
  fits (asks_of evs) (fun k => unattended = true \/ agreed unattended evs k) (approval_run unattended evs).
Proof.
  induction evs as [|ev evs IH] using rev_ind; intros Hd.
  { constructor; simpl; try set_solver; intros; by rewrite ?lookup_empty in *. }
  pose proof (distinct_app _ _ Hd) as Hd0. specialize (IH Hd0). unfold approval_run. rewrite foldl_app. simpl. fold (approval_run unattended evs).
  assert (fits (asks_of evs) (fun k => unattended = true \/ agreed unattended (evs ++ [ev]) k) (approval_run unattended evs)) as Hf.
  { eapply fits_mono; [done | |exact IH]. intros k [?|(pre & e & text & post & o & s & -> & ?)]; [by left | right].
    exists pre, e, text, (post ++ [ev]), o, s. by rewrite <- app_assoc. }
  rewrite asks_snoc. destruct ev as [k o|k|k|sent|e live sent|e text accept|e id sent|e];
    [|rewrite app_nil_r; apply fits_step; [done | by apply distinct_ids | done |]..]; try done.
  - apply fits_ask; [done| |].
    + intros o' Hin. destruct Hd as [Hk _]. rewrite asks_snoc, fmap_app in Hk. apply NoDup_app in Hk as (_ & Hk & _).
      apply (Hk k); [|by simpl; set_solver]. apply list_elem_of_fmap. by exists (k, o').
    + intros Hu. left. by rewrite unattended_kept in Hu.
  - intros e' text' s id o k [= <- <- ->] Hs Hrun Hhex Hopen Hshown Hk Hid. right. subst id. by exists evs, e, text, [], o, s.
Qed.

(** A file is accepted only on a yes to that file.  Over any interleaving of
    offers, sessions that come, replace each other and break, prompts, answers,
    timeouts and transfers that end, no two offers sharing an id: when
    [confirm_receive] answers yes, either the daemon was started to accept without
    asking, or a session that had been shown that very offer, and still had it
    open, was told to accept exactly that transfer. *)
Theorem accepted_only_when_agreed unattended evs k :
  distinct_asks evs -> (k, true) ∈ fa_results (approval_run unattended evs) ->
  unattended = true \/ agreed unattended evs k.
Proof. intros Hd Hin. exact (fi_results _ _ _ (run_fits unattended evs Hd) k Hin). Qed.

(** No answer is a no, at once.  When the session that holds the seam ends in
    order, or another one starts, no call of [confirm_receive] is left waiting:
    each has its answer or finds its channel closed, and one whose channel is
    closed answers no. *)
Theorem nobody_left_waiting unattended evs ev :
  distinct_asks evs ->
  (match ev with
   | AStart _ => True
   | AEnd e => fa_epoch (approval_run unattended evs) = e /\
               exists s, fa_sessions (approval_run unattended evs) !! e = Some s /\ as_running s = true
   | _ => False
   end) ->
  let a := approval_step (approval_run unattended evs) ev in
  forall k ak, fa_asks a !! k = Some ak ->
    ak_reply ak <> Waiting /\ (ak_reply ak = Gone -> fa_results (confirm_resumed a k) = fa_results a ++ [(k, false)]).
Proof.
  intros Hd Hev a k ak Hk. pose proof (run_fits unattended evs Hd) as Hf. set (a0 := approval_run unattended evs) in *.
  assert (ak_reply ak <> Waiting) as Hw.
  { destruct ev as [| | |sent| | | |e]; try done.
    - eapply clear_not_waiting; [|exact Hk]. by apply fits_provider.
    - destruct Hev as (<- & s & Hs & Hrun). unfold a in Hk. simpl in Hk. unfold session_end, detach in Hk. rewrite Hs, Hrun in Hk. simpl in Hk.
      rewrite N.eqb_refl in Hk. simpl in Hk. eapply (clear_not_waiting _ _ a0); [exact Hf | exact Hk]. }
  split; [done|]. intros Hg. unfold confirm_resumed. rewrite Hk, Hg. simpl. f_equal. unfold withdraw. by destruct (fa_pending a !! _).
Qed.

(** ** Runs *)

Definition photo : IncomingOffer := {|
  io_transfer_id := BytesN (n := 16) (replicate 16 x07) I; io_peer := BytesN (n := 32) (replicate 32 x02) I;
  io_peer_device_id := lit "phone"; io_filename := lit "holiday.jpg"; io_size_bytes := 4096; io_mime_type := lit "image/jpeg" |}.

Definition photo_run : list AEvent :=
  [AStart true; AAsk 0 photo; AOffer 1 true true; ADecide 1 (TransferId.to_hex (io_transfer_id photo)) true; AResumed 0].

Lemma accepted_only_when_agreed_witness : distinct_asks photo_run /\
  fa_results (approval_run false photo_run) = [(0, true)] /\ agreed false photo_run 0.
Proof.
  assert (distinct_asks photo_run) as Hd by (split; vm_compute; repeat constructor; apply not_elem_of_nil).
  assert (fa_results (approval_run false photo_run) = [(0, true)]) as Hr by (vm_compute; reflexivity).
  split_and!; [exact Hd | exact Hr |]. destruct (accepted_only_when_agreed false photo_run 0 Hd) as [H|H]; [rewrite Hr; set_solver | discriminate H | exact H].
Defined.

Lemma nobody_left_waiting_witness : distinct_asks [AStart true; AAsk 0 photo; AOffer 1 true true] /\
  ak_reply <$> fa_asks (approval_run false [AStart true; AAsk 0 photo; AOffer 1 true true; AEnd 1]) !! 0 = Some Gone /\
  fa_results (approval_run false [AStart true; AAsk 0 photo; AOffer 1 true true; AEnd 1; AResumed 0]) = [(0, false)].
Proof.
  assert (distinct_asks [AStart true; AAsk 0 photo; AOffer 1 true true]) as Hd by (split; vm_compute; repeat constructor; apply not_elem_of_nil).
  split_and!; [exact Hd | vm_compute; reflexivity |].
  apply (nobody_left_waiting false [AStart true; AAsk 0 photo; AOffer 1 true true] (AEnd 1) Hd ltac:(vm_compute; eauto) 0
    {| ak_offer := photo; ak_reply := Gone |}); vm_compute; reflexivity.
Defined.

(** A session whose prompt cannot be written leaves without detaching: its
    question stays in the table with its sender, and the call goes on waiting,
    although nobody can answer it any more. *)
Example broken_connection_keeps_the_question :
  let a := approval_run false [AStart true; AAsk 0 photo; AOffer 1 true false; AEnd 1; AResumed 0] in
  as_running <$> fa_sessions a !! 1 = Some false /\ ak_reply <$> fa_asks a !! 0 = Some Waiting /\ fa_results a = [].
Proof. vm_compute. repeat split. Qed.
