(* ===== verification/StoreFacts.v ===== *)
(** What the trust store guarantees.

    The operations of [Store.v] as events on a running daemon and its disk:
    [step] runs one operation or restarts the process, [reachable] is every state
    that any sequence of them leads to from any disk.  [op_peers] is the abstract
    specification of the operations, a function on the peer map; [run_op_refines]
    relates each operation, failed writes included, to it. *)
From S2P Require Import Prelude External Ids Wire Policy Identity Store UnixFs.

(** * The peer map *)

(** Every record is stored under its own pin, and hidden implies revoked. *)
Definition peer_ok (fp : Fingerprint) (p : TrustedPeer) : Prop :=
  tp_fingerprint p = fp /\ (tp_hidden p = true -> tp_revoked p = true).

Definition peers_ok (m : gmap Fingerprint TrustedPeer) : Prop := map_Forall peer_ok m.

(** [fp] is on record as revoked. *)
Definition revoked_in (m : gmap Fingerprint TrustedPeer) (fp : Fingerprint) : Prop :=
  exists p, m !! fp = Some p /\ tp_revoked p = true.

Inductive StoreOp :=
| OpAdd (p : TrustedPeer)
| OpRevoke (fp : Fingerprint)
| OpHide (fp : Fingerprint)
| OpHideAll
| OpGrant (fp : Fingerprint) (c : str) (g : bool)
| OpClipboard (fp : Fingerprint) (p : ClipboardPolicy.t)
| OpNotification (fp : Fingerprint) (p : NotificationPolicy.t)
| OpVersion (fp : Fingerprint) (v : N).

(** What an operation means for the map. *)
Definition hide_one (fp : Fingerprint) (m : gmap Fingerprint TrustedPeer) :=
  alter (fun p => if tp_revoked p && negb (tp_hidden p) then into_tombstone p else p) fp m.

Definition op_peers (o : StoreOp) (m : gmap Fingerprint TrustedPeer) : gmap Fingerprint TrustedPeer :=
  match o with
  | OpAdd p => <[tp_fingerprint p := p]> m
  | OpRevoke fp => alter revoke fp m
  | OpHide fp => hide_one fp m
  | OpHideAll => (fun p => if tp_revoked p && negb (tp_hidden p) then into_tombstone p else p) <$> m
  | OpGrant fp c g => alter (set_granted c g) fp m
  | OpClipboard fp c => alter (set_clipboard c) fp m
  | OpNotification fp n => alter (set_notification n) fp m
  | OpVersion fp v => alter (raise_version v) fp m
  end.

(** A peer handed to [add_peer] is not hidden unless it is revoked. *)
Definition op_ok (o : StoreOp) : Prop :=
  match o with OpAdd p => tp_hidden p = true -> tp_revoked p = true | _ => True end.

(** The operation pairs [fp] (again). *)
Definition pairs (o : StoreOp) (fp : Fingerprint) : Prop :=
  match o with OpAdd p => tp_fingerprint p = fp | _ => False end.

Lemma peers_ok_alter f fp m :
  (forall p, peer_ok fp p -> peer_ok fp (f p)) -> peers_ok m -> peers_ok (alter f fp m).
Proof.
  intros Hf Hm k p. rewrite lookup_alter_Some. intros [(<- & q & Hq & ->)|[_ Hp]]; [|by apply Hm].
  by apply Hf, Hm.
Qed.

Lemma op_peers_ok o m : op_ok o -> peers_ok m -> peers_ok (op_peers o m).
Proof.
  intros Ho Hm. destruct o; simpl in *;
    try (apply peers_ok_alter; [intros q [? ?]; split; simpl; auto | done]; fail).
  - by apply map_Forall_insert_2.
  - apply peers_ok_alter; [|done]. intros q [? ?]. by destruct (_ && _); split.
  - intros fp p. rewrite lookup_fmap_Some. intros (q & <- & Hq). destruct (Hm _ _ Hq).
    by destruct (_ && _); split.
Qed.

Lemma revoked_in_alter f fp k m :
  (forall p, tp_revoked p = true -> tp_revoked (f p) = true) ->
  revoked_in m k -> revoked_in (alter f fp m) k.
Proof.
  intros Hf (p & Hp & Hr). unfold revoked_in. destruct (decide (fp = k)) as [->|Hne].
  - rewrite lookup_alter_eq, Hp. exists (f p). auto.
  - rewrite lookup_alter_ne by done. eauto.
Qed.

Lemma op_peers_revoked o m fp : ~ pairs o fp -> revoked_in m fp -> revoked_in (op_peers o m) fp.
Proof.
  intros Ho Hm. destruct o; simpl in *;
    try (apply revoked_in_alter; [intros q Hq; simpl; auto | done]; fail).
  - destruct Hm as (q & Hq & Hr). exists q. by rewrite lookup_insert_ne.
  - apply revoked_in_alter; [|done]. intros q Hq. by destruct (_ && _).
  - destruct Hm as (q & Hq & Hr). eexists. rewrite lookup_fmap, Hq. split; [done|].
    by destruct (_ && _).
Qed.

(** * Burying the revoked records *)

Lemma bury_lookup m fp k :
  bury m fp !! k = if decide (k = fp) then into_tombstone <$> m !! fp else m !! k.
Proof.
  unfold bury. destruct (m !! fp) as [p|] eqn:Hp; case_decide as Hk; subst.
  - by rewrite lookup_insert_eq.
  - by rewrite lookup_insert_ne, lookup_delete_ne.
  - by rewrite Hp.
  - done.
Qed.

Lemma into_tombstone_idem p : into_tombstone (into_tombstone p) = into_tombstone p.
Proof. done. Qed.

Lemma foldl_bury_lookup l m k :
  foldl bury m l !! k = if decide (k ∈ l) then into_tombstone <$> m !! k else m !! k.
Proof.
  revert m. induction l as [|fp l IH]; intros m; cbn [foldl]; [by case_decide; [set_solver|]|].
  rewrite IH, bury_lookup. destruct (decide (k = fp)) as [->|Hne].
  - rewrite (decide_True (P := fp ∈ fp :: l)) by set_solver.
    case_decide; [|done]. by destruct (m !! fp).
  - by rewrite (decide_ext (k ∈ l) (k ∈ fp :: l)) by set_solver.
Qed.

Lemma targets_spec s fp : peers_ok (st_peers s) ->
  fp ∈ map tp_fingerprint (revoked_listed_peers s) <->
  exists p, st_peers s !! fp = Some p /\ tp_revoked p && negb (tp_hidden p) = true.
Proof.
  intros Hm. unfold revoked_listed_peers. rewrite list_elem_of_In, in_map_iff.
  setoid_rewrite <- list_elem_of_In. setoid_rewrite list_elem_of_filter.
  setoid_rewrite elem_of_bt_values. split.
  - intros (p & <- & Hr & k & Hk). destruct (Hm _ _ Hk) as [-> _]. by exists p.
  - intros (p & Hp & Hr). destruct (Hm _ _ Hp) as [Hfp _]. exists p. naive_solver.
Qed.

Lemma hide_all_spec s : peers_ok (st_peers s) ->
  foldl bury (st_peers s) (map tp_fingerprint (revoked_listed_peers s)) = op_peers OpHideAll (st_peers s).
Proof.
  intros Hm. apply map_eq. intros fp. rewrite foldl_bury_lookup. simpl. rewrite lookup_fmap.
  case_decide as Hin; [apply targets_spec in Hin as (p & -> & Hp); [|done]; simpl; by rewrite Hp|].
  destruct (st_peers s !! fp) as [p|] eqn:Hp; [|done]. simpl.
  destruct (tp_revoked p && negb (tp_hidden p)) eqn:Hr; [|done].
  exfalso. apply Hin, targets_spec; eauto.
Qed.

Lemma bury_hide_one m fp p :
  m !! fp = Some p -> tp_revoked p = true -> tp_hidden p = false -> bury m fp = hide_one fp m.
Proof.
  intros Hp Hr Hh. apply map_eq. intros k. rewrite bury_lookup. unfold hide_one.
  case_decide as Hk; subst.
  - by rewrite lookup_alter_eq, Hp; simpl; rewrite Hr, Hh.
  - by rewrite lookup_alter_ne.
Qed.

(** * The daemon's store and its disk *)

Section System.
Context {D : Type} `{SS : !SecretStore D, IB : !IdentityBackend, B64 : !Base64Codec, JS : !Json StateFile}.
Variable platform : Platform.

(** One operation: whether it reported success, and the state after it. *)
Definition run_op (s : Store) (d : D) (o : StoreOp) : bool * Store * D :=
  match o with
  | OpAdd p => let '(r, s', d') := add_peer s d p in (is_ok r, s', d')
  | OpRevoke fp => let '(r, s', d') := revoke_peer s d fp in (is_ok r, s', d')
  | OpHide fp => let '(r, s', d') := hide_revoked_peer s d fp in (is_ok r, s', d')
  | OpHideAll => let '(r, s', d') := hide_all_revoked_peers s d in (is_ok r, s', d')
  | OpGrant fp c g => let '(r, s', d') := set_capability_grant s d fp c g in (is_ok r, s', d')
  | OpClipboard fp p => let '(r, s', d') := set_clipboard_policy s d fp p in (is_ok r, s', d')
  | OpNotification fp p => let '(r, s', d') := set_notification_policy s d fp p in (is_ok r, s', d')
  | OpVersion fp v => let '(r, s', d') := record_protocol_version s d fp v in (is_ok r, s', d')
  end.

(** What an operation may do to the pair: nothing (and then the abstract
    operation is the identity); write the document of its result; or fail to,
    leaving the disk as it was and the memory at the old or the new map. *)
Inductive op_effect (s : Store) (d : D) (o : StoreOp) : bool -> Store -> D -> Prop :=
| eff_nothing : op_peers o (st_peers s) = st_peers s -> op_effect s d o true s d
| eff_written d' :
    let s' := with_peers s (op_peers o (st_peers s)) in
    write_state d (state_document s') = (Ok tt, d') -> op_effect s d o true s' d'
| eff_failed t s' e d' :
    write_state d (state_document t) = (Err e, d') ->
    s' = s \/ s' = with_peers s (op_peers o (st_peers s)) -> op_effect s d o false s' d'.

Lemma persisting_effect s d o r s' d' :
  persisting (with_peers s (op_peers o (st_peers s))) d = (r, s', d') -> op_effect s d o (is_ok r) s' d'.
Proof.
  unfold persisting, persist. destruct (write_state _ _) as [[[]|e] d1] eqn:Hw;
    intros [= <- <- <-]; [by apply eff_written | by eapply eff_failed; eauto].
Qed.

Lemma commit_effect s d o next r s' d' :
  next = op_peers o (st_peers s) -> commit s d next = (r, s', d') -> op_effect s d o (is_ok r) s' d'.
Proof.
  intros ->. unfold commit, persist. destruct (write_state _ _) as [[[]|e] d1] eqn:Hw; simpl;
    intros [= <- <- <-]; [by apply eff_written | by eapply eff_failed; eauto].
Qed.

Lemma alter_absent {A} (f : A -> A) (m : gmap Fingerprint A) fp : m !! fp = None -> alter f fp m = m.
Proof. apply alter_id'. Qed.

Lemma revoke_effect s d fp r s' d' :
  revoke_peer s d fp = (r, s', d') -> op_effect s d (OpRevoke fp) (is_ok r) s' d'.
Proof.
  unfold revoke_peer, persist. destruct (st_peers s !! fp) as [p|] eqn:Hp.
  - assert (<[fp := revoke p]> (st_peers s) = op_peers (OpRevoke fp) (st_peers s)) as ->.
    { simpl. apply map_eq. intros k. destruct (decide (fp = k)) as [<-|].
      - by rewrite lookup_insert_eq, lookup_alter_eq, Hp.
      - by rewrite lookup_insert_ne, lookup_alter_ne. }
    destruct (write_state _ _) as [[[]|e] d1] eqn:Hw; simpl; intros [= <- <- <-];
      [by apply (eff_written s d (OpRevoke fp)) | by eapply eff_failed; eauto].
  - intros [= <- <- <-]. apply eff_nothing. simpl. apply map_eq. intros k.
    destruct (decide (fp = k)) as [<-|]; [by rewrite lookup_alter_eq, Hp | by rewrite lookup_alter_ne].
Qed.

Lemma hide_effect s d fp r s' d' :
  hide_revoked_peer s d fp = (r, s', d') -> op_effect s d (OpHide fp) (is_ok r) s' d'.
Proof.
  assert (Hid : forall p, st_peers s !! fp = Some p -> tp_revoked p && negb (tp_hidden p) = false ->
    hide_one fp (st_peers s) = st_peers s).
  { intros p Hp Hc. unfold hide_one. apply map_eq. intros k. destruct (decide (fp = k)) as [<-|].
    - rewrite lookup_alter_eq, Hp. simpl. by rewrite Hc.
    - by rewrite lookup_alter_ne. }
  unfold hide_revoked_peer. destruct (st_peers s !! fp) as [p|] eqn:Hp.
  2:{ simpl. intros [= <- <- <-]. apply eff_nothing. simpl. unfold hide_one. apply map_eq. intros k.
      destruct (decide (fp = k)) as [<-|]; [by rewrite lookup_alter_eq, Hp | by rewrite lookup_alter_ne]. }
  destruct (tp_revoked p) eqn:Hr; simpl.
  2:{ intros [= <- <- <-]. apply eff_nothing. apply (Hid p); [done|]. by rewrite Hr. }
  destruct (tp_hidden p) eqn:Hh; simpl.
  { intros [= <- <- <-]. apply eff_nothing. apply (Hid p); [done|]. by rewrite Hr, Hh. }
  destruct (commit s d _) as [[r1 s1] d1] eqn:Hc.
  apply (commit_effect s d (OpHide fp)) in Hc; [|by apply bury_hide_one with p].
  destruct r1; intros [= <- <- <-]; done.
Qed.

Lemma hide_all_effect s d r s' d' : peers_ok (st_peers s) ->
  hide_all_revoked_peers s d = (r, s', d') -> op_effect s d OpHideAll (is_ok r) s' d'.
Proof.
  intros Hm. unfold hide_all_revoked_peers. destruct (eqb _ []) eqn:He.
  - intros [= <- <- <-]. apply eqb_eq in He. apply eff_nothing. by rewrite <- hide_all_spec, He.
  - destruct (commit s d _) as [[r1 s1] d1] eqn:Hc.
    apply (commit_effect s d OpHideAll) in Hc; [|by apply hide_all_spec].
    destruct r1; intros [= <- <- <-]; done.
Qed.

(** Every operation refines its abstract specification. *)
Lemma run_op_refines s d o ok s' d' : peers_ok (st_peers s) ->
  run_op s d o = (ok, s', d') -> op_effect s d o ok s' d'.
Proof.
  intros Hm. destruct o as [p|fp|fp| |fp c g|fp c|fp n|fp v]; simpl.
  - destruct (add_peer s d p) as [[r s1] d1] eqn:He. intros [= <- <- <-].
    by apply (persisting_effect s d (OpAdd p)).
  - destruct (revoke_peer s d fp) as [[r s1] d1] eqn:He. intros [= <- <- <-]. by apply revoke_effect.
  - destruct (hide_revoked_peer s d fp) as [[r s1] d1] eqn:He. intros [= <- <- <-]. by apply hide_effect.
  - destruct (hide_all_revoked_peers s d) as [[r s1] d1] eqn:He. intros [= <- <- <-].
    by apply hide_all_effect.
  - destruct (set_capability_grant s d fp c g) as [[r s1] d1] eqn:He. intros [= <- <- <-].
    by apply (persisting_effect s d (OpGrant fp c g)).
  - destruct (set_clipboard_policy s d fp c) as [[r s1] d1] eqn:He. intros [= <- <- <-].
    by apply (persisting_effect s d (OpClipboard fp c)).
  - destruct (set_notification_policy s d fp n) as [[r s1] d1] eqn:He. intros [= <- <- <-].
    by apply (persisting_effect s d (OpNotification fp n)).
  - destruct (record_protocol_version s d fp v) as [[r s1] d1] eqn:He. intros [= <- <- <-].
    by apply (persisting_effect s d (OpVersion fp v)).
Qed.

(** An event: an operation of the running daemon, or a (re)start, which reads
    the disk and may refuse to come up. *)
Inductive Event := EvOp (o : StoreOp) | EvRestart (en : backend_entropy) (device_name : str).

Definition System : Type := option Store * D.

Definition step (y : System) (ev : Event) : System :=
  match ev, y with
  | EvOp o, (Some s, d) => let '(_, s', d') := run_op s d o in (Some s', d')
  | EvOp _, (None, d) => (None, d)
  | EvRestart en name, (_, d) =>
      match open_with en platform name d with
      | (Ok s, d') => (Some s, d')
      | (Err _, d') => (None, d')
      end
  end.

Definition event_ok (ev : Event) : Prop := match ev with EvOp o => op_ok o | EvRestart _ _ => True end.

Inductive reachable : System -> Prop :=
| reach_boot d : disk_ok d -> reachable (None, d)
| reach_step y ev : reachable y -> event_ok ev -> reachable (step y ev).

(** The disk holds the secret the running identity was loaded from. *)
Definition identity_saved (s : Store) (d : D) : Prop :=
  exists secret, read_secret d secret_name = Ok (Some secret) /\
    load (id_device_id (st_identity s)) (set_device_name (st_settings s)) platform
      (id_certificate_der (st_identity s)) secret = Ok (st_identity s).

Definition system_ok (y : System) : Prop :=
  disk_ok y.2 /\ forall s, y.1 = Some s -> peers_ok (st_peers s) /\ identity_saved s y.2.

(** The records a restart would load, hidden ones read as revoked. *)
Definition loaded_peers (l : list TrustedPeer) : gmap Fingerprint TrustedPeer :=
  collect_map (map read_peer l).

Lemma loaded_peers_ok l : peers_ok (loaded_peers l).
Proof.
  intros fp p Hp. apply collect_map_lookup_in in Hp.
  apply list_elem_of_In, in_map_iff in Hp as (q & [= <- <-] & _).
  unfold peer_ok. split; [done|]. by destruct (tp_hidden q) eqn:Hh; rewrite ?Hh.
Qed.

Lemma loaded_peers_values m : peers_ok m -> loaded_peers (bt_values m) = m.
Proof.
  intros Hm. unfold loaded_peers, bt_values.
  assert (map read_peer (bt_items m).*2 = bt_items m) as ->.
  { assert (Hin : forall kv, kv ∈ bt_items m -> read_peer kv.2 = kv).
    { intros [k p] Hk. apply elem_of_bt_items in Hk. destruct (Hm _ _ Hk) as [Hfp Hh].
      unfold read_peer. simpl. destruct (tp_hidden p) eqn:Hhid; [|by rewrite Hfp].
      destruct p; simpl in *. specialize (Hh eq_refl). subst. done. }
    induction (bt_items m) as [|kv l IH]; [done|]. simpl. rewrite Hin by set_solver. f_equal.
    apply IH. set_solver. }
  rewrite collect_map_nodup by apply bt_keys_nodup. apply list_to_map_bt_items.
Qed.

Lemma with_peers_document s : from_slice (state_document s) = Some {|
    sf_schema_version := SCHEMA_VERSION;
    sf_device_id := id_device_id (st_identity s);
    sf_certificate_der_b64 := base64_encode (id_certificate_der (st_identity s));
    sf_key_backing := id_backing (st_identity s);
    sf_settings := st_settings s;
    sf_peers := bt_values (st_peers s) |}.
Proof. apply from_slice_to_vec. Qed.

Lemma Store_load_ok bytes secret s : Store_load platform bytes secret = Ok s ->
  peers_ok (st_peers s) /\
  load (id_device_id (st_identity s)) (set_device_name (st_settings s)) platform
      (id_certificate_der (st_identity s)) secret = Ok (st_identity s) /\
  exists f, from_slice bytes = Some f /\ st_peers s = loaded_peers (sf_peers f) /\
    id_device_id (st_identity s) = sf_device_id f.
Proof.
  unfold Store_load. intros Hs. inv_result. simpl.
  split; [apply loaded_peers_ok|].
  match goal with Hl : load _ _ _ _ _ = Ok _ |- _ => rename Hl into Hload end.
  destruct (load_parts _ _ _ _ _ _ Hload) as (-> & _ & -> & _). split; [done|]. eauto.
Qed.

(** The cases of [open_with], with what each leaves on the disk. *)
Lemma open_with_cases en name d r d' : disk_ok d -> open_with en platform name d = (r, d') ->
  exists h d1, harden d = (h, d1) /\ disk_ok d1 /\
  ((d' = d1 /\ exists e, r = Err e) \/
   (h = Ok tt /\ d' = d1 /\ exists bytes secret, classify d1 = Load bytes secret /\
      r = Store_load platform bytes secret) \/
   (h = Ok tt /\ read_state d1 = Ok None /\ read_secret d1 secret_name = Ok None /\
      initialize en platform name d1 = (r, d'))).
Proof.
  intros Hd. unfold open_with. destruct (harden d) as [h d1] eqn:Hh.
  destruct (harden_keeps _ _ _ Hd Hh) as (Hd1 & _ & _).
  intros Ho. exists h, d1. split_and!; [done..|].
  destruct h as [[]|e]; [|left; simplify_eq; eauto].
  destruct (classify d1) as [|bytes secret|st] eqn:Hc.
  - right; right. unfold classify in Hc. by repeat case_match; simplify_eq.
  - right; left. simplify_eq. split_and!; eauto.
  - left. simplify_eq. eauto.
Qed.

Lemma classify_load d bytes secret : classify d = Load bytes secret ->
  read_state d = Ok (Some bytes) /\ read_secret d secret_name = Ok (Some secret).
Proof. unfold classify. intros Hc. by repeat case_match; simplify_eq. Qed.

Lemma initialize_ok en name d s d' : disk_ok d -> initialize en platform name d = (Ok s, d') ->
  disk_ok d' /\ st_peers s = ∅ /\ identity_saved s d'.
Proof.
  intros Hd. unfold initialize, persist.
  destruct (create en name platform) as [[i sec]|] eqn:Hc; [|done].
  destruct (write_secret d secret_name sec) as [[[]|] d1] eqn:Hw; [|done].
  destruct (write_secret_ok _ _ _ _ Hd Hw) as (Hd1 & Hsec & _).
  destruct (write_state d1 _) as [[[]|] d2] eqn:Hw2; simpl; [|done]. intros [= <- <-].
  destruct (write_state_ok _ _ _ Hd1 Hw2) as (Hd2 & _ & Hkeep).
  split_and!; try done. exists sec. rewrite Hkeep. split; [done|]. simpl. by eapply create_load.
Qed.

Lemma initialize_disk_ok en name d r d' : disk_ok d -> initialize en platform name d = (r, d') -> disk_ok d'.
Proof.
  intros Hd. unfold initialize, persist.
  destruct (create en name platform) as [[i sec]|] eqn:Hc; [|by intros [= <- <-]].
  destruct (write_secret d secret_name sec) as [[[]|] d1] eqn:Hw.
  2:{ intros [= <- <-]. by apply write_secret_err in Hw as [? _]. }
  destruct (write_secret_ok _ _ _ _ Hd Hw) as (Hd1 & _ & _).
  destruct (write_state d1 _) as [[[]|] d2] eqn:Hw2; simpl; intros [= <- <-].
  - by apply write_state_ok in Hw2 as [? _].
  - by apply write_state_err in Hw2 as [? _].
Qed.

Lemma op_effect_disk s d o ok s' d' : disk_ok d -> op_effect s d o ok s' d' ->
  disk_ok d' /\ forall n, read_secret d' n = read_secret d n.
Proof.
  intros Hd [|d1 s1 Hw|t s1 e d1 Hw _]; [done|..].
  - by apply write_state_ok in Hw as (? & _ & ?).
  - by apply write_state_err in Hw as (? & _ & ?).
Qed.

Lemma op_effect_store s d o ok s' d' : op_effect s d o ok s' d' ->
  s' = s \/ s' = with_peers s (op_peers o (st_peers s)).
Proof. intros [| |]; auto. Qed.

Lemma step_ok y ev : system_ok y -> event_ok ev -> system_ok (step y ev).
Proof.
  intros [Hd Hy] Hev. destruct y as [o d]; simpl in *.
  destruct ev as [op|en name]; simpl.
  - destruct o as [s|]; [|by split]. destruct (Hy s eq_refl) as [Hm Hi].
    destruct (run_op s d op) as [[ok s'] d'] eqn:Hr. apply run_op_refines in Hr; [|done].
    destruct (op_effect_disk _ _ _ _ _ _ Hd Hr) as [Hd' Hsec].
    split; [done|]. intros t [= <-]. simpl.
    destruct (op_effect_store _ _ _ _ _ _ Hr) as [->| ->]; simpl.
    + split; [done|]. destruct Hi as (sec & ? & ?). exists sec. by rewrite Hsec.
    + split; [by apply op_peers_ok|]. destruct Hi as (sec & ? & ?). exists sec. by rewrite Hsec.
  - destruct (open_with en platform name d) as [r d'] eqn:Ho.
    destruct (open_with_cases _ _ _ _ _ Hd Ho) as (h & d1 & Hh & Hd1 & Hcases).
    destruct Hcases as [(-> & e & ->)|[(-> & -> & bytes & sec & Hc & ->)|(-> & _ & _ & Hi)]].
    + by split.
    + destruct (Store_load platform bytes sec) as [s|] eqn:Hl; [|by split].
      split; [done|]. intros t [= <-]. destruct (Store_load_ok _ _ _ Hl) as (Hm & Hload & _).
      split; [done|]. exists sec. split; [|done]. by apply classify_load in Hc as [_ ?].
    + destruct r as [s|]; [|split; [by eapply initialize_disk_ok|done]].
      destruct (initialize_ok _ _ _ _ _ Hd1 Hi) as (? & Hp & ?).
      split; [done|]. intros t [= <-]. split; [|done]. rewrite Hp. by apply map_Forall_empty.
Qed.

Lemma reachable_ok y : reachable y -> system_ok y.
Proof. induction 1; [by split | by apply step_ok]. Qed.

(** C22: in every state the daemon can reach, from any disk (a hand-edited
    document included) and through any operations, failed writes and restarts,
    each record is stored under its own pinned key, a hidden record is revoked,
    and the disk holds the key material the running identity loads from. *)
Theorem reachable_store_ok s d : reachable (Some s, d) ->
  disk_ok d /\ peers_ok (st_peers s) /\ identity_saved s d.
Proof. intros [Hd Hy]%reachable_ok. split; [done|]. by apply Hy. Qed.

(** ** Revocation *)

(** [fp] is revoked both in memory and in what a restart would read. *)
Definition revoked_everywhere (fp : Fingerprint) (y : System) : Prop :=
  (forall s, y.1 = Some s -> revoked_in (st_peers s) fp) /\
  exists bytes f, read_state y.2 = Ok (Some bytes) /\ from_slice bytes = Some f /\
    revoked_in (loaded_peers (sf_peers f)) fp.

Definition no_pairing (fp : Fingerprint) (ev : Event) : Prop :=
  match ev with EvOp o => ~ pairs o fp | EvRestart _ _ => True end.

Lemma document_revoked s fp : peers_ok (st_peers s) -> revoked_in (st_peers s) fp ->
  exists f, from_slice (state_document s) = Some f /\ revoked_in (loaded_peers (sf_peers f)) fp.
Proof.
  intros Hm Hr. eexists. split; [apply with_peers_document|]. simpl. by rewrite loaded_peers_values.
Qed.

Lemma step_revoked fp y ev : system_ok y -> event_ok ev -> no_pairing fp ev ->
  revoked_everywhere fp y -> revoked_everywhere fp (step y ev).
Proof.
  intros [Hd Hy] Hev Hnp [Hmem Hdisk]. destruct y as [o d]; simpl in *.
  destruct ev as [op|en name]; simpl.
  - destruct o as [s|]; [|by split]. destruct (Hy s eq_refl) as [Hm _]. specialize (Hmem s eq_refl).
    destruct (run_op s d op) as [[ok s'] d'] eqn:Hr. apply run_op_refines in Hr; [|done].
    assert (Hrev : revoked_in (op_peers op (st_peers s)) fp) by (by apply op_peers_revoked).
    destruct Hr as [|d1 s1 Hw|t s1 e d1 Hw Hs1]; split; simpl; try done.
    + by intros ? [= <-].
    + by intros ? [= <-].
    + destruct (document_revoked (with_peers s (op_peers op (st_peers s))) fp) as (f & ? & ?);
        [by apply op_peers_ok|done|].
      apply write_state_ok in Hw as (_ & ? & _); [|done]. eauto.
    + intros ? [= <-]. by destruct Hs1 as [->| ->].
    + apply write_state_err in Hw as (_ & -> & _); done.
  - destruct Hdisk as (bytes & f & Hst & Hf & Hrev).
    destruct (open_with en platform name d) as [r d'] eqn:Ho.
    destruct (open_with_cases _ _ _ _ _ Hd Ho) as (h & d1 & Hh & Hd1 & Hcases).
    destruct (harden_keeps _ _ _ Hd Hh) as (_ & Hkeep & _). specialize (Hkeep _ Hst).
    destruct Hcases as [(-> & e & ->)|[(-> & -> & b' & sec & Hc & ->)|(_ & Hnone & _)]].
    + split; [done|]. simpl. eauto 6.
    + apply classify_load in Hc as [Hb _]. rewrite Hkeep in Hb. simplify_eq.
      destruct (Store_load platform b' sec) as [s|] eqn:Hl; split; simpl; try done; eauto 6.
      intros t [= <-]. destruct (Store_load_ok _ _ _ Hl) as (_ & _ & f' & Hf' & -> & _).
      by simplify_eq.
    + congruence.
Qed.

(** C4: revocation is final.  Once [revoke_peer] has answered [Ok true], then
    through any later sequence of store operations, write failures and restarts
    that does not pair the same key again, the daemon has the key on record as
    revoked whenever it is up: it is not a trusted peer, and no capability is
    allowed to it. *)
Theorem revocation_survives s d fp s' d' evs :
  reachable (Some s, d) -> revoke_peer s d fp = (Ok true, s', d') ->
  Forall event_ok evs -> Forall (no_pairing fp) evs ->
  forall t dt, foldl step (Some s', d') evs = (Some t, dt) ->
    trusted_peer t fp = None /\
    exists p, peer_record t fp = Some p /\ tp_revoked p = true /\ forall c, allows p c = false.
Proof.
  intros Hr Hrev Hevs Hnp t dt Hrun.
  assert (Hend : revoked_everywhere fp (Some t, dt)).
  { rewrite <- Hrun. assert (Hok : system_ok (Some s', d')).
    { pose proof (reachable_ok _ (reach_step _ (EvOp (OpRevoke fp)) Hr I)) as Hok.
      simpl in Hok. by rewrite Hrev in Hok. }
    assert (Hrv : revoked_everywhere fp (Some s', d')).
    { apply reachable_ok in Hr as [Hd Hy]. destruct (Hy s eq_refl) as [Hm _].
      destruct Hok as [_ Hok]. destruct (Hok s' eq_refl) as [Hm' _].
      unfold revoke_peer, persist in Hrev. destruct (st_peers s !! fp) as [p|] eqn:Hp; [|done].
      destruct (write_state d _) as [[[]|e] d1] eqn:Hw; simpl in Hrev; [|done]. simplify_eq.
      assert (Hin : revoked_in (st_peers (with_peers s (<[fp:=revoke p]> (st_peers s)))) fp).
      { exists (revoke p). simpl. by rewrite lookup_insert_eq. }
      split; simpl; [by intros ? [= <-]|].
      destruct (document_revoked _ fp Hm' Hin) as (f & ? & ?).
      apply write_state_ok in Hw as (_ & ? & _); [|done]. eauto. }
    clear Hrun Hrev. revert Hok Hrv. generalize (Some s', d') as y.
    induction evs as [|ev evs IH]; intros y Hok Hrv; [done|]. simpl.
    inversion Hevs; inversion Hnp; subst. apply IH; [done..|by apply step_ok|by apply step_revoked]. }
  destruct Hend as [Hmem _]. destruct (Hmem t eq_refl) as (p & Hp & Hpr).
  unfold trusted_peer, peer_record, allows. rewrite Hp, Hpr. split; [done|].
  exists p. by rewrite Hpr.
Qed.

(** ** The identity *)

Lemma initialize_err en name d e d' : disk_ok d -> initialize en platform name d = (Err e, d') ->
  read_state d = Ok None -> read_secret d secret_name = Ok None ->
  disk_ok d' /\ read_state d' = Ok None /\
  (read_secret d' secret_name = Ok None \/ exists b, read_secret d' secret_name = Ok (Some b)).
Proof.
  intros Hd Hi Hst Hsec. unfold initialize, persist in Hi.
  destruct (create en name platform) as [[i sec]|] eqn:Hc; [|injection Hi as <- <-; auto].
  destruct (write_secret d secret_name sec) as [[[]|] d1] eqn:Hw.
  2:{ injection Hi as <- <-. apply write_secret_err in Hw as (? & -> & ->); auto. }
  destruct (write_secret_ok _ _ _ _ Hd Hw) as (Hd1 & Hs1 & Hst1 & _).
  destruct (write_state d1 _) as [[[]|] d2] eqn:Hw2; simpl in Hi; simplify_eq.
  destruct (write_state_err _ _ _ _ Hd1 Hw2) as (? & -> & ->). rewrite Hst1. eauto.
Qed.

Lemma classify_lost d b : read_state d = Ok None -> read_secret d secret_name = Ok (Some b) ->
  classify d = Refuse Lost.
Proof. intros Hst Hsec. unfold classify. by rewrite Hst, Hsec. Qed.

Lemma open_with_lost en name d b : disk_ok d -> read_state d = Ok None ->
  read_secret d secret_name = Ok (Some b) ->
  exists e d', open_with en platform name d = (Err e, d') /\ read_state d' = Ok None /\
    read_secret d' secret_name = Ok (Some b).
Proof.
  intros Hd Hst Hsec. unfold open_with. destruct (harden d) as [h d1] eqn:Hh.
  destruct (harden_keeps _ _ _ Hd Hh) as (_ & Hk1 & Hk2).
  destruct h as [[]|e]; [rewrite (classify_lost d1 b) by auto|]; eexists _, _; eauto.
Qed.

(** C21: an identity that exists is never replaced.  Unless both the state
    document and the key material are positively absent after hardening, opening
    the store writes nothing, and a store it returns carries an identity loaded
    from exactly what was there.  A first run that fails either leaves both
    items absent, or leaves key material without a document: then every later
    start refuses and keeps that key. *)
Theorem open_never_replaces en name d r d' :
  disk_ok d -> open_with en platform name d = (r, d') ->
  exists h d1, harden d = (h, d1) /\
  (~ (read_state d1 = Ok None /\ read_secret d1 secret_name = Ok None) ->
     d' = d1 /\ forall s, r = Ok s -> exists bytes secret f,
       read_state d1 = Ok (Some bytes) /\ read_secret d1 secret_name = Ok (Some secret) /\
       from_slice bytes = Some f /\ id_device_id (st_identity s) = sf_device_id f /\
       load (sf_device_id f) (set_device_name (st_settings s)) platform
         (id_certificate_der (st_identity s)) secret = Ok (st_identity s)) /\
  (forall e b, r = Err e -> read_state d1 = Ok None -> read_secret d1 secret_name = Ok None ->
     read_secret d' secret_name = Ok (Some b) ->
     forall en2 name2, exists e2 d2, open_with en2 platform name2 d' = (Err e2, d2) /\
       read_state d2 = Ok None /\ read_secret d2 secret_name = Ok (Some b)).
Proof.
  intros Hd Ho. destruct (open_with_cases _ _ _ _ _ Hd Ho) as (h & d1 & Hh & Hd1 & Hcases).
  exists h, d1. split; [done|].
  destruct Hcases as [(-> & e & ->)|[(-> & -> & bytes & sec & Hc & ->)|(-> & Hst & Hsec & Hi)]].
  - split; [done|]. intros e' b _ _ Hn Hs. congruence.
  - split; [|intros e' b _ _ Hn Hs; congruence]. intros _. split; [done|]. intros s Hs.
    destruct (Store_load_ok _ _ _ Hs) as (_ & Hl & f & Hf & _ & Hid).
    apply classify_load in Hc as [? ?]. exists bytes, sec, f. by rewrite <- Hid.
  - split; [intros Hn; exfalso; auto|]. intros e b -> _ _ Hs en2 name2.
    destruct (initialize_err _ _ _ _ _ Hd1 Hi Hst Hsec) as (Hd' & Hst' & _).
    by apply open_with_lost.
Qed.

(** What the daemon persisted is what it comes back with: after a
    successful [persist] in any reachable state, a restart (with hardening
    succeeding) yields the very same store: identity, settings and every peer
    record. *)
Theorem persist_reopen s d d' d'' en name :
  reachable (Some s, d) -> persist s d = (Ok tt, d') -> harden d' = (Ok tt, d'') ->
  open_with en platform name d' = (Ok s, d'').
Proof.
  intros Hr%reachable_ok Hp Hh. destruct Hr as [Hd Hy]. destruct (Hy s eq_refl) as (Hm & sec & Hsec & Hl).
  unfold persist in Hp. destruct (write_state d _) as [[[]|] d1] eqn:Hw; simplify_eq/=.
  destruct (write_state_ok _ _ _ Hd Hw) as (Hd' & Hst & Hkeep).
  destruct (harden_keeps _ _ _ Hd' Hh) as (_ & Hk1 & Hk2).
  rewrite <- Hkeep in Hsec. specialize (Hk1 _ Hst). specialize (Hk2 _ _ Hsec).
  unfold open_with. rewrite Hh. unfold classify. rewrite Hk1, Hk2, with_peers_document. simpl.
  destruct (load_parts _ _ _ _ _ _ Hl) as (_ & _ & _ & Hb). rewrite Hb, eqb_refl. simpl.
  rewrite base64_decode_encode. unfold Store_load. rewrite with_peers_document. simpl.
  rewrite base64_decode_encode. simpl. rewrite Hl. simpl.
  fold (loaded_peers (bt_values (st_peers s))). rewrite loaded_peers_values by done. by destruct s.
Qed.

(** C23: taking a revoked device out of the lists keeps the revocation and is
    all or nothing: [hide_revoked_peer] either leaves the store exactly as it
    was (an error, or nothing to hide), or has replaced one revoked visible
    record by its tombstone, which is still on record as revoked, is in no list,
    holds no grant, and leaves every other record alone. *)
Theorem hide_revoked_peer_atomic s d fp r s' d' :
  reachable (Some s, d) -> hide_revoked_peer s d fp = (r, s', d') ->
  (r <> Ok Hidden /\ s' = s) \/
  (r = Ok Hidden /\ exists p, peer_record s fp = Some p /\ tp_revoked p = true /\
     peer_record s' fp = Some (into_tombstone p) /\ trusted_peer s' fp = None /\
     into_tombstone p ∉ listed_peers s' /\
     (forall c, allows (into_tombstone p) c = false) /\
     forall k, k <> fp -> peer_record s' k = peer_record s k).
Proof.
  intros Hr%reachable_ok. destruct Hr as [Hd Hy]. destruct (Hy s eq_refl) as [Hm _].
  unfold hide_revoked_peer, commit, persist. destruct (st_peers s !! fp) as [p|] eqn:Hp;
    [|intros [= <- <- <-]; by left].
  destruct (tp_revoked p) eqn:Hrv; simpl; [|intros [= <- <- <-]; by left].
  destruct (tp_hidden p) eqn:Hh; simpl; [intros [= <- <- <-]; by left|].
  destruct (write_state d _) as [[[]|e] d1] eqn:Hw; simpl; intros [= <- <- <-]; [|by left].
  right. split; [done|]. exists p. unfold peer_record, trusted_peer, listed_peers. simpl.
  rewrite !bury_lookup, decide_True, Hp by done. simpl. split_and!; try done.
  - rewrite list_elem_of_filter. by intros [].
  - intros k Hk. by rewrite bury_lookup, decide_False.
Qed.

End System.

(** * Runs *)

Section Runs.
#[local] Existing Instances std_hex toy_crypto whole_certificate toy_keys letters64.

#[local] Instance run_json : Json StateFile := countable_json StateFile.

(** A fresh directory whose writes all succeed. *)
Definition empty_disk : Fs :=
  {| fs_files := ∅; fs_dir := None; fs_umask := 18; fs_faults := [] |}.

Lemma empty_disk_ok : fs_ok empty_disk.
Proof. split; [by intros n f|done]. Defined.

Definition demo_peer : TrustedPeer := {|
  tp_device_id := lit "aa"; tp_device_name := lit "phone"; tp_platform := 1;
  tp_fingerprint := pad_array [x07]; tp_paired_at_unix := 5;
  tp_granted_capabilities := {[ lit "battery.v1" := true ]}; tp_last_protocol_version := 1;
  tp_revoked := false; tp_hidden := false;
  tp_clipboard_policy := ClipboardPolicy.default;
  tp_notification_policy := NotificationPolicy.default |}.

Definition boot : Event := EvRestart (Some x09) (lit "desk").
Definition demo_system : System := foldl (step Linux) (None, empty_disk) [boot; EvOp (OpAdd demo_peer)].

Lemma demo_reachable : reachable Linux demo_system.
Proof.
  unfold demo_system. cbn [foldl].
  apply (reach_step _ _ (EvOp (OpAdd demo_peer))); [|done].
  apply (reach_step _ _ boot); [|done]. apply reach_boot. exact empty_disk_ok.
Defined.

Definition no_store : Store := {|
  st_identity := {| id_device_id := []; id_device_name := []; id_platform := Linux;
    id_certificate_der := []; id_fingerprint := pad_array []; id_backing := KeyBacking.Software;
    id_secret := [] |};
  st_settings := Settings_default; st_peers := ∅ |}.

Definition demo_store : Store := default no_store demo_system.1.
Definition demo_disk : Fs := demo_system.2.

(** Taking a result apart by its projections, so that a run is evaluated only
    as far as it is looked at. *)
Lemma running_eq {D} (y : option Store * D) :
  bool_decide (is_Some y.1) = true -> y = (Some (default no_store y.1), y.2).
Proof. destruct y as [[s|] d]; done. Defined.

Lemma outcome_eq {A B C} (x : A * B * C) r : x.1.1 = r -> x = (r, x.1.2, x.2).
Proof. by destruct x as [[] ?]; intros <-. Defined.

Lemma pair_eq_fst {A B} (x : A * B) r : x.1 = r -> x = (r, x.2).
Proof. by destruct x; intros <-. Defined.

Lemma demo_system_eq : demo_system = (Some demo_store, demo_disk).
Proof. apply running_eq. vm_compute. reflexivity. Defined.

Lemma demo_running : reachable Linux (Some demo_store, demo_disk).
Proof. exact (eq_ind demo_system (reachable Linux) demo_reachable _ demo_system_eq). Defined.

Lemma reachable_store_ok_witness :
  fs_ok demo_disk /\ peers_ok (st_peers demo_store) /\ identity_saved Linux demo_store demo_disk.
Proof. exact (reachable_store_ok Linux demo_store demo_disk demo_running). Defined.

(** A second device. *)
Definition other_peer : TrustedPeer := {|
  tp_device_id := lit "bb"; tp_device_name := lit "tablet"; tp_platform := 1;
  tp_fingerprint := pad_array [x08]; tp_paired_at_unix := 6;
  tp_granted_capabilities := ∅; tp_last_protocol_version := 1;
  tp_revoked := false; tp_hidden := false;
  tp_clipboard_policy := ClipboardPolicy.default;
  tp_notification_policy := NotificationPolicy.default |}.

Definition after_revoke := revoke_peer demo_store demo_disk (tp_fingerprint demo_peer).

Lemma revocation_survives_witness :
  let evs := [EvOp (OpHide (tp_fingerprint demo_peer)); EvOp (OpAdd other_peer); EvRestart None (lit "x")] in
  let y := foldl (step Linux) (Some after_revoke.1.2, after_revoke.2) evs in
  trusted_peer (default no_store y.1) (tp_fingerprint demo_peer) = None.
Proof.
  intros evs y.
  refine (proj1 (revocation_survives Linux demo_store demo_disk (tp_fingerprint demo_peer)
    after_revoke.1.2 after_revoke.2 evs demo_running _ _ _ (default no_store y.1) y.2 _)).
  - apply outcome_eq. vm_compute. reflexivity.
  - repeat constructor. done.
  - repeat constructor; vm_compute; congruence.
  - apply running_eq. vm_compute. reflexivity.
Defined.

Definition stranger : backend_entropy := Some x33.
Definition no_entropy : backend_entropy := None.

Lemma open_never_replaces_witness :
  exists h d1, unix_harden demo_disk = (h, d1) /\ read_state d1 <> Ok None /\
    (open_with stranger Linux (lit "thief") demo_disk).2 = d1.
Proof.
  destruct (open_never_replaces Linux stranger (lit "thief") demo_disk
    (open_with stranger Linux (lit "thief") demo_disk).1
    (open_with stranger Linux (lit "thief") demo_disk).2) as (h & d1 & Hh & Hkeep & _).
  - exact (proj1 (reachable_ok Linux _ demo_running)).
  - apply surjective_pairing.
  - exists h, d1. assert (Hne : read_state d1 <> Ok None).
    { assert (d1 = (unix_harden demo_disk).2) as -> by exact (eq_sym (f_equal snd Hh)).
      intros Heq. apply (f_equal (fun r => bool_decide (match r with Ok None => true | _ => false end = true))) in Heq.
      vm_compute in Heq. congruence. }
    split; [done|]. split; [done|]. apply Hkeep. by intros [? _].
Defined.

Lemma persist_reopen_witness :
  open_with no_entropy Linux [] (persist demo_store demo_disk).2 =
    (Ok demo_store, (unix_harden (persist demo_store demo_disk).2).2).
Proof.
  refine (persist_reopen Linux demo_store demo_disk _ _ no_entropy [] demo_running _ _);
    apply pair_eq_fst; vm_compute; reflexivity.
Defined.

Lemma hide_revoked_peer_atomic_witness :
  let x := hide_revoked_peer after_revoke.1.2 after_revoke.2 (tp_fingerprint demo_peer) in
  (x.1.1 <> Ok Hidden /\ x.1.2 = after_revoke.1.2) \/ x.1.1 = Ok Hidden.
Proof.
  intros x.
  assert (Hr : reachable Linux (Some after_revoke.1.2, after_revoke.2)).
  { pose proof (reach_step Linux _ (EvOp (OpRevoke (tp_fingerprint demo_peer))) demo_running I) as Hr.
    unfold step, run_op in Hr. fold after_revoke in Hr. by destruct after_revoke as [[? ?] ?]. }
  destruct (hide_revoked_peer_atomic Linux _ _ (tp_fingerprint demo_peer) x.1.1 x.1.2 x.2 Hr)
    as [H|[H _]]; [by apply outcome_eq | by left | by right].
Defined.

(** An operation other than the two that use [commit] keeps its change in
    memory when the write fails: a pairing that is reported as failed is in
    force until the process ends. *)
Definition full_disk : Fs := {|
  fs_files := fs_files demo_disk; fs_dir := fs_dir demo_disk; fs_umask := fs_umask demo_disk;
  fs_faults := [Some {| ft_error := Eother; ft_written := 0 |}] |}.

Lemma add_peer_failed_write_still_trusts :
  let x := add_peer demo_store full_disk other_peer in
  is_ok x.1.1 = false /\ trusted_peer x.1.2 (tp_fingerprint other_peer) = Some other_peer /\
  trusted_peer demo_store (tp_fingerprint other_peer) = None.
Proof. vm_compute. auto. Qed.
End Runs.
