(* ===== verification/MigrationRuns.v ===== *)
(** The migration, run.

    An older installation is carried over, and over again after the process died
    while it wrote; evaluated with concrete codecs.  Then two runs the comments
    of the code do not describe: an error that says nothing was written although
    the identity has been carried over, and a record that does not read back. *)
From S2P Require Import Prelude External Ids Identity Store UnixFs MigrateFs Utf8 Migration MigrationFacts MigrationCrash StoreFacts.

Section Runs.
#[local] Existing Instances std_hex toy_crypto whole_certificate toy_keys letters64.
#[local] Instance migrate_json : Json StateFile := countable_json StateFile.

(** The store of [StoreFacts], as the older program left it. *)
Definition old_dir : MDir := {|
  md_mode := DIR_MODE;
  md_files := (fun f => {| mf_data := f_data f; mf_mode := f_mode f; mf_regular := true; mf_synced := true |}) <$> fs_files demo_disk;
  md_synced := true; md_linked := true |}.

Definition old_base (calls : list Call) : Base := {|
  bs_entries := {[ LEGACY_DIR_NAME := EDir old_dir ]};
  bs_mode := Some DIR_MODE; bs_before := None; bs_umask := 18; bs_calls := calls |}.

Definition share : str := lit "/home/a/.local/share".
Definition old_identity : bytes := default [] (mf_data <$> md_files old_dir !! IDENTITY_FILE).
Definition old_state : bytes := default [] (mf_data <$> md_files old_dir !! STATE_FILE).

(** The process dies three bytes into writing the state. *)
Definition dying : list Call := replicate 15 CFine ++ [CDies 3].
Definition first_start := migrate_data_dir share 77 1000 (old_base dying).

(** The power fails too; the name of the staging directory is on the disk
    already, its contents are not. *)
Definition outage : Loss :=
  {| ls_undo := true; ls_vanish := fun _ => false; ls_forget := fun _ _ => false; ls_garbage := fun _ _ => [x00] |}.

Lemma old_settled calls : settled (old_base calls).
Proof.
  split; [done|]. intros n e _ He. simpl in He. apply lookup_singleton_Some in He as [_ <-]. simpl. split_and!; [done..|].
  intros k f. rewrite lookup_fmap. intros (f0 & _ & ->)%fmap_Some. done.
Defined.

Lemma old_tidy calls : tidy (old_base calls).
Proof.
  split; [done|]. intros n e Hn He. simpl in He. apply lookup_singleton_Some in He as [<- _]. by apply legacy_not_staging in Hn.
Defined.

Lemma old_intact calls : intact (old_base calls) old_dir old_identity old_state.
Proof.
  assert (forall k, is_Some (mf_data <$> md_files old_dir !! k) ->
    mf_data <$> md_files old_dir !! k = Some (default [] (mf_data <$> md_files old_dir !! k))) as Hd by (intros k [x ->]; done).
  split; [split|split; [|split]].
  - exists (EDir old_dir). split; [|done]. unfold entry_at. simpl. by rewrite lookup_singleton_eq.
  - done.
  - vm_compute. reflexivity.
  - vm_compute. reflexivity.
  - apply Hd. apply (bool_decide_eq_true_1 _). vm_compute. reflexivity.
  - apply Hd. apply (bool_decide_eq_true_1 _). vm_compute. reflexivity.
Defined.

(** The first start dies and leaves its staging directory; after the outage the
    old directory is untouched. *)
Lemma migration_crash_safe_witness :
  first_start.1 = Died /\ bool_decide (is_Some (bs_entries first_start.2 !! staging_name 77 1000)) = true /\
  bs_entries (restart (Some outage) [] first_start.2) !! LEGACY_DIR_NAME = Some (EDir old_dir).
Proof.
  destruct (migration_crash_safe share 77 1000 (old_base dying) first_start.1 first_start.2 (Some outage) []
    (old_settled dying) (surjective_pairing _)) as [Hrest _].
  split; [vm_compute; reflexivity|]. split; [vm_compute; reflexivity|].
  rewrite (Hrest _ legacy_not_staging); [done|by vm_compute].
Defined.


(** The last call, the sync of the base directory, fails: the migration reports
    an error, whose text says that nothing has been written, and the canonical
    directory is there. *)
Definition unsynced := migrate_data_dir share 77 1000 (old_base (replicate 24 CFine ++ [CFails false 0])).
Example error_after_the_move :
  (match unsynced.1 with Finished (Err e) => Some (me_detail e) | _ => None end) = Some (WhatIo "could not be synced" IoOther) /\
  bool_decide (is_Some (bs_entries unsynced.2 !! P)) = true.
Proof. by vm_compute. Qed.

(** A source with a line break in its path is cut there when the record is read. *)
Definition odd_record : MigrationRecord :=
  {| mr_source := [47; 97; 10; 98]; mr_migrated_at_unix := 5; mr_identity_sha256 := lit "aa"; mr_state_sha256 := lit "bb" |}.
Example record_cut_at_line_break :
  (mr_source <$> MigrationRecord_parse (render odd_record)) = Some [47; 97].
Proof. by vm_compute. Qed.

Lemma migration_record_roundtrip_witness :
  let r := {| mr_source := lit "/home/a/.local/share/omnibridge"; mr_migrated_at_unix := 1700000000;
              mr_identity_sha256 := lit "aa"; mr_state_sha256 := lit "bb" |} in
  MigrationRecord_parse (render r) = Some r.
Proof.
  intros r. apply migration_record_roundtrip. split; [by apply printable_lit|]. split; [by vm_compute|].
  split; repeat (constructor; [by vm_compute|]); constructor.
Defined.
End Runs.
