(* ===== verification/Panel.v ===== *)
(** What the Quick Panel shows and what it will do.

    [gui/src/panel/model.rs] and the state it reads, [DaemonState] of
    [gui/src/lib.rs]: the daemon's last answers as the control protocol carries
    them.  [PanelModel_build] derives the rows, the device an action would go to
    and whether each action is offered.  [sort_by] is the stable sort of the
    standard library.  The Unicode lower-casing of names is a parameter, known on
    ASCII text. *)
From S2P Require Import Prelude Control.

(** * Library functions *)

(** [str::to_lowercase] *)
Class UnicodeCase := {
  to_lowercase : str -> str;
  to_lowercase_ascii : forall s, forallb (fun c => c <? 128) s = true -> to_lowercase s = map ascii_lower s
}.

Definition to_ascii_lowercase (s : str) : str := map ascii_lower s.
Definition eq_ignore_ascii_case (a b : str) : bool := eqb (to_ascii_lowercase a) (to_ascii_lowercase b).

(** [str::contains] *)
Fixpoint contains (p s : str) : bool :=
  starts_with p s || match s with [] => false | _ :: s' => contains p s' end.

(** [str::cmp]: UTF-8 keeps the order of the characters. *)
Fixpoint str_cmp (a b : str) : comparison :=
  match a, b with
  | [], [] => Eq
  | [], _ :: _ => Lt
  | _ :: _, [] => Gt
  | x :: a', y :: b' => match x ?= y with Eq => str_cmp a' b' | c => c end
  end.

(** [Ordering::then_with] *)
Definition then_with (c d : comparison) : comparison := match c with Eq => d | _ => c end.

(** [slice::sort_by] *)
Fixpoint insert_by {A} (cmp : A -> A -> comparison) (x : A) (l : list A) : list A :=
  match l with
  | [] => [x]
  | y :: l' => match cmp x y with Gt => y :: insert_by cmp x l' | _ => x :: l end
  end.
Definition sort_by {A} (cmp : A -> A -> comparison) (l : list A) : list A := foldr (insert_by cmp) [] l.

(** The first hit of an iterator that has exactly one. *)
Definition only {A} (hits : list A) : option A := match hits with [x] => Some x | _ => None end.

Definition FILES : str := lit "files.v1".
Definition CLIPBOARD : str := lit "clipboard.v1".
Definition NOTIFICATIONS : str := lit "notifications.v1".
Definition BATTERY : str := lit "battery.v1".

(** The middle dot and the ellipsis of the texts. *)
Definition MIDDOT : str := [32; 183; 32].
Definition ELLIPSIS : str := [8230].

(** [DaemonState] of the application *)
Record GuiState := {
  gs_status : option StatusReport;
  gs_devices : option (list DeviceReport);
  gs_transfers : option (list TransferReport);
  gs_clipboard : option ClipboardStatusReport;
  gs_notifications : option NotificationsStatusReport;
  gs_error : option str
}.

(** * Rows *)

Inductive Health := Available | Reaching | HUnavailable (headline : str).

Definition health_is_available (h : Health) : bool := match h with Available => true | _ => false end.

Definition health_of (state : GuiState) : Health :=
  match gs_error state with
  | Some _ => HUnavailable (lit "Pliwee service is not available")
  | None => match gs_status state with Some _ => Available | None => Reaching end
  end.

Module Link.
Inductive t := Connected | Stale | Offline.

#[global] Instance eq_dec : EqDecision t.
Proof. solve_decision. Defined.

Definition label (l : t) : str :=
  match l with Connected => lit "Connected" | Stale => lit "Not responding" | Offline => lit "Offline" end.

Definition is_live (l : t) : bool := match l with Connected => true | _ => false end.
End Link.

Module Battery.
Inductive t :=
| Present (percent : N) (status : str) (stale : bool)
| Absent
| Unavailable.

Definition label (b : t) : str :=
  match b with
  | Present percent status stale =>
      let s := u32_to_string percent ++ lit "%" in
      if stale then s ++ lit " (last known)"
      else if negb (eqb status []) then s ++ MIDDOT ++ status
      else s
  | Absent => lit "No battery reported"
  | Unavailable => lit "Battery unavailable"
  end.
End Battery.

Record Capability := { cap_granted : bool; cap_live : bool }.
Definition Capability_NONE : Capability := {| cap_granted := false; cap_live := false |}.
Definition usable (c : Capability) : bool := cap_granted c && cap_live c.

Record PeerCard := {
  pk_fingerprint : str;
  pk_fingerprint_short : str;
  pk_device_id : str;
  pk_name : str;
  pk_platform : str;
  pk_link : Link.t;
  pk_selected : bool;
  pk_battery : Battery.t;
  pk_files : Capability;
  pk_clipboard : Capability;
  pk_notifications : Capability
}.

Definition is_mobile (p : PeerCard) : bool :=
  let s := to_ascii_lowercase (pk_platform p) in
  contains (lit "android") s || contains (lit "ios") s.

Definition available_capabilities (p : PeerCard) : list str :=
  (if usable (pk_clipboard p) then [lit "Clipboard"] else []) ++
  (if usable (pk_files p) then [lit "Files"] else []) ++
  (if usable (pk_notifications p) then [lit "Notifications"] else []).

(** * Targets *)

Inductive Target :=
| Selected (fingerprint : str)
| OnlyTrustedPeer (fingerprint : str)
| MustChoose (stale_choice : bool)
| NoTrustedPeer.

Definition target_fingerprint (t : Target) : option str :=
  match t with Selected fp | OnlyTrustedPeer fp => Some fp | _ => None end.

Definition Target_resolve (peers : list PeerCard) (chosen : option str) : Target :=
  match peers with
  | [] => NoTrustedPeer
  | _ :: _ =>
      match chosen with
      | Some chosen =>
          let chosen := to_ascii_lowercase (trim chosen) in
          match find_b (fun p => eq_ignore_ascii_case (pk_fingerprint p) chosen) peers with
          | Some peer => Selected (pk_fingerprint peer)
          | None => MustChoose (negb (eqb chosen []))
          end
      | None =>
          match peers with
          | [only] => OnlyTrustedPeer (pk_fingerprint only)
          | _ => MustChoose false
          end
      end
  end.

(** * Actions *)

Inductive Action :=
| Ready (fingerprint peer_name : str)
| Blocked (reason : str).

Definition is_ready (a : Action) : bool := match a with Ready _ _ => true | Blocked _ => false end.
Definition action_target (a : Action) : option str :=
  match a with Ready fp _ => Some fp | Blocked _ => None end.
Definition action_reason (a : Action) : option str :=
  match a with Blocked r => Some r | Ready _ _ => None end.

Definition send_file_request (a : Action) (path : str) : option Request.t :=
  device ← action_target a; Some (Request.Send device path).
Definition send_clipboard_request (a : Action) : option Request.t :=
  device ← action_target a; Some (Request.ClipboardSend device false).

(** ** What is said of a clipboard *)

Definition clipboard_submitted_message (peer : str) : str :=
  lit "Clipboard submitted to " ++ peer ++ lit "; awaiting confirmation".
Definition clipboard_send_error_message (message : str) : str :=
  lit "Could not send the clipboard: " ++ message.
Definition clipboard_outcome_succeeded (outcome : str) : bool :=
  mem outcome [lit "applied"; lit "pending"; lit "duplicate"].

Definition clipboard_outcome_note (outcome peer : str) : str :=
  if eqb outcome (lit "applied") then lit " The last clip reached " ++ peer ++ lit "."
  else if eqb outcome (lit "pending")
  then lit " The last clip reached " ++ peer ++ lit " and is waiting to be applied there."
  else if eqb outcome (lit "duplicate") then lit " " ++ peer ++ lit " already had the last clip."
  else if eqb outcome (lit "not authorized")
  then lit " " ++ peer ++ lit " is not set up to accept this computer's clipboard."
  else if eqb outcome (lit "rejected by policy")
  then lit " " ++ peer ++ lit " is not accepting clipboard text from this computer."
  else if eqb outcome (lit "rejected as sensitive")
  then lit " " ++ peer ++ lit " refuses clipboard text marked sensitive."
  else if eqb outcome (lit "too large") then lit " The last clip was too large for " ++ peer ++ lit "."
  else if eqb outcome (lit "invalid text") then lit " " ++ peer ++ lit " could not read the last clip as text."
  else lit " " ++ peer ++ lit " could not use the last clip.".

(** ** Status lines *)

Inductive StatusValue := On | Off | SUnavailable.
Definition StatusValue_label (v : StatusValue) : str :=
  match v with On => lit "On" | Off => lit "Off" | SUnavailable => lit "Unavailable" end.

Record StatusLine := { sl_value : StatusValue; sl_detail : str }.
Definition line (value : StatusValue) (detail : str) : StatusLine := {| sl_value := value; sl_detail := detail |}.

(** * Transfers *)

Record TransferLine := { tl_filename : str; tl_outgoing : bool; tl_peer_name : str; tl_percent : option N }.

Definition TransferLine_label (t : TransferLine) : str :=
  let verb := if tl_outgoing t then lit "Sending" else lit "Receiving" in
  match tl_percent t with
  | Some p => verb ++ lit " " ++ tl_filename t ++ MIDDOT ++ u32_to_string p ++ lit "%"
  | None => verb ++ lit " " ++ tl_filename t
  end.

Definition outgoing (direction : str) : option bool :=
  if eqb direction transfer_direction.SENDING then Some true
  else if eqb direction transfer_direction.RECEIVING then Some false
  else None.

Definition active_transfer (state : GuiState) (peer : option PeerCard) : option TransferLine :=
  transfers ← gs_transfers state;
  let live := filter (fun t => transfer_state.is_terminal (xr_state t) = false) transfers in
  let preferred := find_b (fun t => match peer with
                                    | Some p => eqb (pk_fingerprint_short p) (xr_fingerprint_short t)
                                    | None => false
                                    end) live in
  chosen ← match preferred with Some t => Some t | None => head live end;
  Some {| tl_filename := xr_filename chosen;
          tl_outgoing := default false (outgoing (xr_direction chosen));
          tl_peer_name := xr_device_name chosen;
          tl_percent := xr_percentage chosen |}.

Definition RECENT_LIMIT : nat := 3.

Module Outcome.
Inductive t := Sent | Received | Declined | Cancelled | TimedOut | Disconnected | Failed.

#[global] Instance eq_dec : EqDecision t.
Proof. solve_decision. Defined.

Definition label (o : t) : str :=
  match o with
  | Sent => lit "Sent" | Received => lit "Received" | Declined => lit "Declined" | Cancelled => lit "Cancelled"
  | TimedOut => lit "Timed out" | Disconnected => lit "Disconnected" | Failed => lit "Failed"
  end.

Definition succeeded (o : t) : bool := match o with Sent | Received => true | _ => false end.

Definition read (state : str) (failure_code : option str) (outgoing : bool) : option t :=
  if negb (transfer_state.is_terminal state) then None
  else
    Some (match failure_code with
          | Some code =>
              if eqb code transfer_failure.DECLINED_BY_USER then Declined
              else if eqb code transfer_failure.CANCELLED_BY_USER then Cancelled
              else if eqb code transfer_failure.TIMED_OUT then TimedOut
              else if eqb code transfer_failure.TRANSPORT then Disconnected
              else Failed
          | None =>
              if eqb state transfer_state.COMPLETED then (if outgoing then Sent else Received)
              else if eqb state transfer_state.CANCELLED then Cancelled
              else Failed
          end).
End Outcome.

Record RecentTransfer := {
  rt_filename : str;
  rt_peer_name : str;
  rt_peer_fingerprint_short : str;
  rt_outgoing : bool;
  rt_outcome : Outcome.t;
  rt_sort_key : N
}.

Definition direction_word (r : RecentTransfer) : str := if rt_outgoing r then lit "To" else lit "From".

Definition RecentTransfer_line (r : RecentTransfer) : str :=
  direction_word r ++ lit " " ++ rt_peer_name r ++ MIDDOT ++ Outcome.label (rt_outcome r).

Definition accessible_label (r : RecentTransfer) : str :=
  let preposition := if rt_outgoing r then lit "to" else lit "from" in
  Outcome.label (rt_outcome r) ++ lit " " ++ rt_filename r ++ lit " " ++ preposition ++ lit " " ++ rt_peer_name r.

(** Only hexadecimal digits are upper-cased. *)
Definition widgets_group (short : str) : str :=
  let compact := filter (fun c => is_whitespace c = false) short in
  if negb (str_len compact =? 16) || negb (forallb is_ascii_hexdigit compact) then short
  else join (lit " ") (chunks4 (length compact) (map ascii_upper compact)).

Definition detail (r : RecentTransfer) : str :=
  let what :=
    match rt_outcome r, rt_outgoing r with
    | Outcome.Sent, _ => rt_filename r ++ lit " reached " ++ rt_peer_name r ++ lit "."
    | Outcome.Received, _ => rt_filename r ++ lit " arrived from " ++ rt_peer_name r ++ lit "."
    | Outcome.Declined, true => rt_peer_name r ++ lit " declined this file."
    | Outcome.Declined, false =>
        lit "This computer declined " ++ rt_filename r ++ lit " from " ++ rt_peer_name r ++ lit "."
    | Outcome.Cancelled, _ => rt_filename r ++ lit " was cancelled."
    | Outcome.TimedOut, _ => rt_filename r ++ lit " was not answered in time."
    | Outcome.Disconnected, _ =>
        lit "The connection to " ++ rt_peer_name r ++ lit " ended before " ++ rt_filename r ++ lit " finished."
    | Outcome.Failed, _ => rt_filename r ++ lit " did not finish."
    end in
  what ++ lit " Device " ++ widgets_group (rt_peer_fingerprint_short r) ++
  lit ". Open Pliwee Settings for the full list.".

(** A finished transfer as a row. *)
Definition recent_of (t : TransferReport) : option RecentTransfer :=
  outgoing ← outgoing (xr_direction t);
  outcome ← Outcome.read (xr_state t) (xr_failure_code t) outgoing;
  Some {| rt_filename := xr_filename t; rt_peer_name := xr_device_name t;
          rt_peer_fingerprint_short := xr_fingerprint_short t; rt_outgoing := outgoing;
          rt_outcome := outcome; rt_sort_key := xr_seq t |}.

Definition recent_cmp (a b : RecentTransfer) : comparison :=
  then_with (rt_sort_key b ?= rt_sort_key a) (str_cmp (rt_filename a) (rt_filename b)).

Definition recent_transfers (state : GuiState) : list RecentTransfer :=
  match gs_transfers state with
  | None => []
  | Some transfers => take RECENT_LIMIT (sort_by recent_cmp (omap recent_of transfers))
  end.

(** * The cards *)

Definition connection_for (status : option StatusReport) (device : DeviceReport) : option ConnectionReport :=
  status ← status;
  only (filter (fun c => eqb (co_device_id c) (dr_device_id device) = true /\
                         eqb (co_fingerprint_short c) (dr_fingerprint_short device) = true)
          (sr_connections status)).

Definition charge_status (raw : str) : str :=
  if eqb raw (lit "Charging") then lit "Charging"
  else if eqb raw (lit "Full") then lit "Full"
  else if eqb raw (lit "NotCharging") then lit "Not charging"
  else [].

Definition battery_of (device : DeviceReport) (link : Link.t) (negotiated : list str) : Battery.t :=
  match dr_battery device, link with
  | Some b, _ => Battery.Present (N.min (ba_percentage b) 100) (charge_status (ba_charging_state b))
                   (ba_stale b || eqb link Link.Stale)
  | None, (Link.Connected | Link.Stale) => if mem BATTERY negotiated then Battery.Absent else Battery.Unavailable
  | None, _ => Battery.Unavailable
  end.

Definition link_of (d : DeviceReport) : Link.t :=
  match dr_state d with
  | DeviceState.Connected => Link.Connected
  | DeviceState.Stale => Link.Stale
  | DeviceState.Disconnected | DeviceState.Revoked => Link.Offline
  end.

Definition negotiated_with (status : option StatusReport) (d : DeviceReport) : list str :=
  match connection_for status d with Some c => co_negotiated_capabilities c | None => [] end.

Definition capability_of (status : option StatusReport) (d : DeviceReport) (id : str) : Capability := {|
  cap_granted := mem id (dr_granted_capabilities d);
  cap_live := Link.is_live (link_of d) && mem id (negotiated_with status d) |}.

Definition card_of (status : option StatusReport) (chosen : option str) (d : DeviceReport) : PeerCard := {|
  pk_selected := match chosen with Some c => eq_ignore_ascii_case (dr_fingerprint d) c | None => false end;
  pk_battery := battery_of d (link_of d) (negotiated_with status d);
  pk_files := capability_of status d FILES;
  pk_clipboard := capability_of status d CLIPBOARD;
  pk_notifications := capability_of status d NOTIFICATIONS;
  pk_fingerprint := to_ascii_lowercase (dr_fingerprint d);
  pk_fingerprint_short := dr_fingerprint_short d;
  pk_device_id := dr_device_id d;
  pk_name := dr_device_name d;
  pk_platform := dr_platform d;
  pk_link := link_of d |}.

Definition rank (p : PeerCard) : N :=
  match pk_link p with Link.Connected => 0 | Link.Stale => 1 | Link.Offline => 2 end.

Definition shown (d : DeviceReport) : bool := negb (dr_revoked d) && dr_paired d.

Definition devices_of (state : GuiState) : list DeviceReport :=
  match gs_devices state with
  | Some l => l
  | None => match gs_status state with Some s => sr_devices s | None => [] end
  end.

Section Model.
Context {UC : UnicodeCase}.

Definition Battery_announcement (b : Battery.t) : str :=
  match b with
  | Battery.Present _ _ _ => lit "battery " ++ Battery.label b
  | _ => to_lowercase (Battery.label b)
  end.

Definition PeerCard_announcement (p : PeerCard) : str :=
  let caps := available_capabilities p in
  join (lit ", ")
    ([pk_name p] ++
     (if pk_selected p then [lit "selected device"] else []) ++
     [to_lowercase (Link.label (pk_link p))] ++
     (match pk_battery p with Battery.Unavailable => [] | b => [Battery_announcement b] end) ++
     [match caps with
      | [] => lit "no capabilities available"
      | _ => lit "available: " ++ join (lit ", ") caps
      end]).

Definition card_cmp (a b : PeerCard) : comparison :=
  then_with (rank a ?= rank b)
    (then_with (str_cmp (to_lowercase (pk_name a)) (to_lowercase (pk_name b)))
       (str_cmp (pk_fingerprint a) (pk_fingerprint b))).

Definition peer_cards (state : GuiState) (chosen : option str) : list PeerCard :=
  let chosen := (fun c => to_ascii_lowercase (trim c)) <$> chosen in
  sort_by card_cmp
    (map (card_of (gs_status state) chosen) (filter (fun d => shown d = true) (devices_of state))).

(** * Whether an action is offered *)

Definition preconditions (health : Health) (target : Target) (peer : option PeerCard) : result Action PeerCard :=
  match health with
  | HUnavailable headline => Err (Blocked headline)
  | Reaching => Err (Blocked (lit "Connecting to the Pliwee service" ++ ELLIPSIS))
  | Available =>
      match target with
      | NoTrustedPeer => Err (Blocked (lit "No device is paired yet. Pair one in Pliwee Settings."))
      | MustChoose true => Err (Blocked (lit "The device you chose is no longer paired. Choose a device."))
      | MustChoose false => Err (Blocked (lit "Choose which device to send to."))
      | Selected _ | OnlyTrustedPeer _ =>
          match peer with
          | None => Err (Blocked (lit "That device is no longer available."))
          | Some peer =>
              if negb (Link.is_live (pk_link peer))
              then Err (Blocked (pk_name peer ++ lit " is " ++ to_lowercase (Link.label (pk_link peer)) ++ lit "."))
              else Ok peer
          end
      end
  end.

Definition ready (peer : PeerCard) : Action := Ready (pk_fingerprint peer) (pk_name peer).

Definition file_action (health : Health) (target : Target) (peer : option PeerCard) : Action :=
  match preconditions health target peer with
  | Err blocked => blocked
  | Ok peer =>
      if negb (cap_granted (pk_files peer))
      then Blocked (lit "Files are not enabled for " ++ pk_name peer ++ lit ".")
      else if negb (cap_live (pk_files peer))
      then Blocked (lit "This session with " ++ pk_name peer ++ lit " has not negotiated file transfer.")
      else ready peer
  end.

Definition clipboard_peer (report : ClipboardStatusReport) (peer : PeerCard) : option ClipboardPeerReport :=
  only (filter (fun p => eqb (cp_device_id p) (pk_device_id peer) = true /\
                         eqb (cp_fingerprint_short p) (pk_fingerprint_short peer) = true) (cs_peers report)).

Definition notification_peer (report : NotificationsStatusReport) (peer : PeerCard) : option NotificationPeerReport :=
  only (filter (fun p => eqb (np_device_id p) (pk_device_id peer) = true /\
                         eqb (np_fingerprint_short p) (pk_fingerprint_short peer) = true) (ns_peers report)).

Definition clipboard_action (health : Health) (target : Target) (peer : option PeerCard)
    (report : option ClipboardStatusReport) : Action :=
  match preconditions health target peer with
  | Err blocked => blocked
  | Ok peer =>
      match report with
      | None => Blocked (lit "Waiting for the Pliwee service" ++ ELLIPSIS)
      | Some report =>
          if negb (cs_enabled report) then Blocked (lit "Clipboard sharing is not enabled on this computer.")
          else if negb (cs_backend_available report)
          then Blocked (lit "This desktop session has no working clipboard backend.")
          else if negb (cap_granted (pk_clipboard peer))
          then Blocked (lit "Clipboard is not enabled for " ++ pk_name peer ++ lit ".")
          else if negb (cap_live (pk_clipboard peer))
          then Blocked (lit "This session with " ++ pk_name peer ++ lit " has not negotiated the clipboard.")
          else
            match clipboard_peer report peer with
            | Some p =>
                if cp_allow_send p then ready peer
                else Blocked (lit "Sending the clipboard to " ++ pk_name peer ++ lit " is turned off.")
            | None => Blocked (lit "The Pliwee service has no clipboard policy for " ++ pk_name peer ++ lit ".")
            end
      end
  end.

(** * Status rows *)

Definition files_status (health : Health) (peer : option PeerCard) : StatusLine :=
  if negb (health_is_available health) then line SUnavailable (lit "The Pliwee service is not running.")
  else
    match peer with
    | None => line SUnavailable (lit "No device selected.")
    | Some peer =>
        if negb (cap_granted (pk_files peer))
        then line Off (lit "Files are not enabled for " ++ pk_name peer ++ lit ".")
        else if usable (pk_files peer)
        then line On (lit "Available. Files " ++ pk_name peer ++ lit " sends still need your approval here.")
        else line Off (lit "Available once " ++ pk_name peer ++ lit " is connected.")
    end.

(** The sentence of the clipboard row. *)
Definition clipboard_detail (report : ClipboardStatusReport) (policy : ClipboardPeerReport) (peer : PeerCard) : str :=
  let sending :=
    if negb (cp_allow_send policy) then lit "Not sending to " ++ pk_name peer ++ lit "."
    else if cp_auto_send policy && cs_watch_available report
    then lit "Sends this computer's clipboard to " ++ pk_name peer ++ lit " as it changes."
    else lit "Sends this computer's clipboard only when you press Send clipboard." in
  let receiving :=
    if negb (cp_allow_receive policy) then lit "Not accepting clips from " ++ pk_name peer ++ lit "."
    else if cp_auto_receive policy
    then lit "Clips from " ++ pk_name peer ++ lit " replace this clipboard as they arrive."
    else lit "Clips from " ++ pk_name peer ++ lit " are held until you apply them." in
  let caveat := if is_mobile peer then lit " " ++ pk_name peer ++ lit " sends only when you ask it to there." else [] in
  let verdict := match cp_last_outcome policy with
                 | None => []
                 | Some outcome => clipboard_outcome_note outcome (pk_name peer)
                 end in
  sending ++ lit " " ++ receiving ++ caveat ++ verdict.

Definition clipboard_status (health : Health) (peer : option PeerCard) (report : option ClipboardStatusReport)
    : StatusLine :=
  if negb (health_is_available health) then line SUnavailable (lit "The Pliwee service is not running.")
  else
    match report with
    | None => line SUnavailable (lit "Waiting for the Pliwee service.")
    | Some report =>
        if negb (cs_enabled report)
        then line SUnavailable (lit "Clipboard sharing is not enabled on this computer.")
        else if negb (cs_backend_available report)
        then line SUnavailable (lit "This desktop session has no working clipboard backend.")
        else
          match peer with
          | None => line SUnavailable (lit "No device selected.")
          | Some peer =>
              if negb (cap_granted (pk_clipboard peer))
              then line Off (lit "Clipboard is not enabled for " ++ pk_name peer ++ lit ".")
              else
                match clipboard_peer report peer with
                | None => line SUnavailable (lit "No clipboard policy for " ++ pk_name peer ++ lit ".")
                | Some policy =>
                    let value := if cp_allow_send policy || cp_allow_receive policy then On else Off in
                    line value (clipboard_detail report policy peer)
                end
          end
    end.

Definition notifications_detail (policy : NotificationPeerReport) (peer : PeerCard) : str :=
  lit "Showing notifications from " ++ pk_name peer ++ lit "." ++
  (if np_connected policy && negb (np_peer_is_source policy) then lit " That device is not sending any." else []) ++
  (if eqb (np_when_locked policy) (lit "suppress") then lit " Hidden while this screen is locked."
   else if eqb (np_when_locked policy) (lit "app-only")
   then lit " Only the app name is shown while this screen is locked."
   else []).

Definition notifications_status (health : Health) (peer : option PeerCard)
    (report : option NotificationsStatusReport) : StatusLine :=
  if negb (health_is_available health) then line SUnavailable (lit "The Pliwee service is not running.")
  else
    match report with
    | None => line SUnavailable (lit "Waiting for the Pliwee service.")
    | Some report =>
        if negb (ns_enabled report)
        then line SUnavailable (lit "Notification mirroring is not enabled on this computer.")
        else if negb (ns_available report)
        then line SUnavailable (lit "No notification server is running in this desktop session.")
        else
          match peer with
          | None => line SUnavailable (lit "No device selected.")
          | Some peer =>
              match notification_peer report peer with
              | None => line Off (lit "Notifications are not enabled for " ++ pk_name peer ++ lit ".")
              | Some policy =>
                  if negb (np_granted policy) || np_revoked policy
                  then line Off (lit "Notifications are not enabled for " ++ pk_name peer ++ lit ".")
                  else if negb (np_allow_mirror policy)
                  then line Off (lit "Mirroring is turned off for " ++ pk_name peer ++ lit ".")
                  else line On (notifications_detail policy peer)
              end
          end
    end.

(** * The panel *)

Record PanelModel := {
  pm_health : Health;
  pm_this_device : option str;
  pm_peers : list PeerCard;
  pm_target : Target;
  pm_send_file : Action;
  pm_send_clipboard : Action;
  pm_files : StatusLine;
  pm_clipboard : StatusLine;
  pm_notifications : StatusLine;
  pm_transfer : option TransferLine;
  pm_recent : list RecentTransfer
}.

(** The card a target names. *)
Definition card_at (peers : list PeerCard) (target : Target) : option PeerCard :=
  fp ← target_fingerprint target; find_b (fun p => eqb (pk_fingerprint p) fp) peers.

Definition PanelModel_build (state : GuiState) (chosen : option str) : PanelModel :=
  let health := health_of state in
  let peers := peer_cards state chosen in
  let target := Target_resolve peers chosen in
  let peer := card_at peers target in
  {| pm_health := health;
     pm_this_device := sr_device_name <$> gs_status state;
     pm_peers := peers;
     pm_target := target;
     pm_send_file := file_action health target peer;
     pm_send_clipboard := clipboard_action health target peer (gs_clipboard state);
     pm_files := files_status health peer;
     pm_clipboard := clipboard_status health peer (gs_clipboard state);
     pm_notifications := notifications_status health peer (gs_notifications state);
     pm_transfer := active_transfer state peer;
     pm_recent := recent_transfers state |}.

Definition target_peer (m : PanelModel) : option PeerCard := card_at (pm_peers m) (pm_target m).
End Model.
