(* ===== verification/Gui.v ===== *)
(** The graphical client's application.

    [gui/src/lib.rs]: what the command line asks for, the poll of the daemon, and
    what is kept of its answers; [gui/src/views/mod.rs] and [live.rs]: which pages
    a poll redraws and whether a redraw builds new widgets.  The widgets
    themselves are the toolkit's. *)
From S2P Require Import Prelude Control Panel.

(** * The command line *)

Module Page.
Inductive t := Dashboard | Files | Clipboard | Notifications | Devices | Settings.

#[global] Instance eq_dec : EqDecision t.
Proof. solve_decision. Defined.

Definition ALL : list t := [Dashboard; Files; Clipboard; Notifications; Devices; Settings].

Definition title (p : t) : str :=
  match p with
  | Dashboard => lit "Dashboard" | Files => lit "Files" | Clipboard => lit "Clipboard"
  | Notifications => lit "Notifications" | Devices => lit "Devices" | Settings => lit "Settings"
  end.

Definition name (p : t) : str :=
  match p with
  | Dashboard => lit "dashboard" | Files => lit "files" | Clipboard => lit "clipboard"
  | Notifications => lit "notifications" | Devices => lit "devices" | Settings => lit "settings"
  end.

Definition LEGACY_PEERS_PAGE : str := lit "peers".

Definition from_name (n : str) : option t :=
  if eqb n LEGACY_PEERS_PAGE then Some Devices else find_b (fun p => eqb (name p) n) ALL.
End Page.

Inductive Launch := LaunchPanel | LaunchSettings (page : option Page.t).

(** The loop of [Launch::parse] over the arguments after the program's name. *)
Fixpoint parse_args (page : option Page.t) (args : list str) : Launch :=
  match args with
  | [] => LaunchSettings page
  | arg :: rest =>
      if eqb arg (lit "--quick-panel") || eqb arg (lit "--panel") then LaunchPanel
      else if eqb arg (lit "--page") then
        match rest with
        | [] => LaunchSettings None
        | v :: rest' => parse_args (Page.from_name v) rest'
        end
      else match strip_prefix (lit "--page=") arg with
           | Some n => parse_args (Page.from_name n) rest
           | None => parse_args page rest
           end
  end.

Definition Launch_parse (args : list str) : Launch := parse_args None (tail args).

(** * The poll *)

Definition REFRESH_SECS : N := 2.
Definition CYCLE_REQUESTS : N := 5.

Definition GuiState_default : GuiState := {|
  gs_status := None; gs_devices := None; gs_transfers := None; gs_clipboard := None; gs_notifications := None; gs_error := None |}.

(** [anyhow::Result<Response>]; an error is its text. *)
Abbreviation Reply := (result str Response.t).

Definition fold_status (s : GuiState) (reply : Reply) : GuiState :=
  let with_error e := {| gs_status := gs_status s; gs_devices := gs_devices s; gs_transfers := gs_transfers s;
                         gs_clipboard := gs_clipboard s; gs_notifications := gs_notifications s; gs_error := Some e |} in
  match reply with
  | Ok (Response.Status report) =>
      {| gs_status := Some report; gs_devices := gs_devices s; gs_transfers := gs_transfers s;
         gs_clipboard := gs_clipboard s; gs_notifications := gs_notifications s; gs_error := None |}
  | Ok (Response.Error message) => with_error (lit message)
  | Ok _ => with_error (lit "unexpected reply from the daemon")
  | Err e => with_error e
  end.

Definition fold_devices (s : GuiState) (reply : Reply) : GuiState :=
  match reply with
  | Ok (Response.Devices l) =>
      {| gs_status := gs_status s; gs_devices := Some l; gs_transfers := gs_transfers s;
         gs_clipboard := gs_clipboard s; gs_notifications := gs_notifications s; gs_error := gs_error s |}
  | _ => s
  end.

Definition fold_transfers (s : GuiState) (reply : Reply) : GuiState :=
  match reply with
  | Ok (Response.Transfers l) =>
      {| gs_status := gs_status s; gs_devices := gs_devices s; gs_transfers := Some l;
         gs_clipboard := gs_clipboard s; gs_notifications := gs_notifications s; gs_error := gs_error s |}
  | _ => s
  end.

Definition fold_clipboard (s : GuiState) (reply : Reply) : GuiState :=
  match reply with
  | Ok (Response.Clipboard r) =>
      {| gs_status := gs_status s; gs_devices := gs_devices s; gs_transfers := gs_transfers s;
         gs_clipboard := Some r; gs_notifications := gs_notifications s; gs_error := gs_error s |}
  | _ => s
  end.

Definition fold_notifications (s : GuiState) (reply : Reply) : GuiState :=
  match reply with
  | Ok (Response.Notifications r) =>
      {| gs_status := gs_status s; gs_devices := gs_devices s; gs_transfers := gs_transfers s;
         gs_clipboard := gs_clipboard s; gs_notifications := Some r; gs_error := gs_error s |}
  | _ => s
  end.

(** The five questions of a poll. *)
Inductive Question := QStatus | QDevices | QTransfers | QClipboard | QNotifications.

#[export] Instance Question_eq_dec : EqDecision Question.
Proof. solve_decision. Defined.

Definition questions : list Question := [QStatus; QDevices; QTransfers; QClipboard; QNotifications].

Definition fold_of (q : Question) : GuiState -> Reply -> GuiState :=
  match q with
  | QStatus => fold_status | QDevices => fold_devices | QTransfers => fold_transfers
  | QClipboard => fold_clipboard | QNotifications => fold_notifications
  end.

Record Cycle := { cy_generation : N; cy_outstanding : N; cy_pending : GuiState }.

(** The application: its poll, what is drawn, and the questions that are out,
    each with the generation it was asked in. *)
Record Poll := { po_cycle : Cycle; po_state : GuiState; po_asked : list (N * Question); po_draws : list GuiState }.

Definition Poll_new : Poll := {|
  po_cycle := {| cy_generation := 0; cy_outstanding := 0; cy_pending := GuiState_default |};
  po_state := GuiState_default; po_asked := []; po_draws := [] |}.

(** [refresh] *)
Definition refresh (p : Poll) : Poll :=
  let g := wrap_add_u64 (cy_generation (po_cycle p)) 1 in
  {| po_cycle := {| cy_generation := g; cy_outstanding := CYCLE_REQUESTS; cy_pending := po_state p |};
     po_state := po_state p; po_asked := po_asked p ++ (pair g <$> questions); po_draws := po_draws p |}.

Fixpoint remove_first {A} `{EqDecision A} (x : A) (l : list A) : list A :=
  match l with [] => [] | y :: l' => if eqb x y then l' else y :: remove_first x l' end.

(** The answer to a question, as its callback takes it. *)
Definition answered (p : Poll) (generation : N) (q : Question) (reply : Reply) : Poll :=
  let asked := remove_first (generation, q) (po_asked p) in
  let c := po_cycle p in
  if negb (cy_generation c =? generation) then {| po_cycle := c; po_state := po_state p; po_asked := asked; po_draws := po_draws p |}
  else
    let pending := fold_of q (cy_pending c) reply in
    let outstanding := cy_outstanding c - 1 in
    if outstanding =? 0 then
      {| po_cycle := {| cy_generation := cy_generation c; cy_outstanding := 0; cy_pending := GuiState_default |};
         po_state := pending; po_asked := asked; po_draws := po_draws p ++ [pending] |}
    else {| po_cycle := {| cy_generation := cy_generation c; cy_outstanding := outstanding; cy_pending := pending |};
            po_state := po_state p; po_asked := asked; po_draws := po_draws p |}.

(** A tick of the timer or a control's own refresh; or an answer to one of the
    questions that are out. *)
Inductive PollEvent := Tick | Answer (generation : N) (q : Question) (reply : Reply).

Definition poll_step (p : Poll) (e : PollEvent) : Poll :=
  match e with
  | Tick => refresh p
  | Answer g q r => if mem (g, q) (po_asked p) then answered p g q r else p
  end.

Definition poll_run (l : list PollEvent) : Poll := foldl poll_step Poll_new l.

(** * Redrawing *)

#[export] Instance BatteryReport_eq_dec : EqDecision BatteryReport.
Proof. solve_decision. Defined.
#[export] Instance ConnectionReport_eq_dec : EqDecision ConnectionReport.
Proof. solve_decision. Defined.
#[export] Instance DeviceReport_eq_dec : EqDecision DeviceReport.
Proof. solve_decision. Defined.
#[export] Instance MigrationReport_eq_dec : EqDecision MigrationReport.
Proof. solve_decision. Defined.
#[export] Instance StatusReport_eq_dec : EqDecision StatusReport.
Proof. solve_decision. Defined.
#[export] Instance TransferReport_eq_dec : EqDecision TransferReport.
Proof. solve_decision. Defined.
#[export] Instance ClipboardPeerReport_eq_dec : EqDecision ClipboardPeerReport.
Proof. solve_decision. Defined.
#[export] Instance PendingClipReport_eq_dec : EqDecision PendingClipReport.
Proof. solve_decision. Defined.
#[export] Instance ClipboardStatusReport_eq_dec : EqDecision ClipboardStatusReport.
Proof. solve_decision. Defined.
#[export] Instance NotificationPeerReport_eq_dec : EqDecision NotificationPeerReport.
Proof. solve_decision. Defined.
#[export] Instance NotificationsStatusReport_eq_dec : EqDecision NotificationsStatusReport.
Proof. solve_decision. Defined.
#[export] Instance Action_eq_dec : EqDecision Action.
Proof. solve_decision. Defined.

(** ** [live.rs] *)

Inductive Plan := Rebuild | Update.

Definition plan {K} `{EqDecision K} (drawn : option K) (next : K) : Plan :=
  if decide (drawn = Some next) then Update else Rebuild.

(** [Surface::draw]: the key last built from, whether this draw builds, and the
    key afterwards.  The values are written in either case. *)
Definition draw {K} `{EqDecision K} (drawn : option K) (key : K) : Plan * option K :=
  match plan drawn key with Rebuild => (Rebuild, Some key) | Update => (Update, drawn) end.

Fixpoint prefixes (fuel : nat) (rest : str) : list str :=
  match fuel with
  | O => []
  | S n => match rfind_split SLASH rest with Some (before, _) => before :: prefixes n before | None => [] end
  end.

(** [fallbacks]; every prefix is shorter, so the length of the key is enough. *)
Definition fallbacks (key : str) : list str := key :: prefixes (length key) key.

(** ** Keys *)

(** [without_ages] *)
Definition without_ages (d : DeviceReport) : DeviceReport := {|
  dr_device_id := dr_device_id d; dr_device_name := dr_device_name d; dr_platform := dr_platform d;
  dr_fingerprint := dr_fingerprint d; dr_fingerprint_short := dr_fingerprint_short d; dr_paired_at_unix := dr_paired_at_unix d;
  dr_granted_capabilities := dr_granted_capabilities d; dr_revoked := dr_revoked d; dr_paired := dr_paired d;
  dr_connected := dr_connected d; dr_state := dr_state d; dr_silent_secs := None; dr_last_seen_secs_ago := None;
  dr_battery := (fun b => {| ba_percentage := ba_percentage b; ba_charging_state := ba_charging_state b; ba_age_secs := 0;
                             ba_stale := ba_stale b |}) <$> dr_battery d |}.

(** [CardLayout] and [layout] of the devices page *)
Record CardLayout := {
  cl_fingerprint : str; cl_fingerprint_short : str; cl_device_id : str; cl_name : str; cl_platform : str; cl_revoked : bool
}.

#[export] Instance CardLayout_eq_dec : EqDecision CardLayout.
Proof. solve_decision. Defined.

Definition layout (devices : list DeviceReport) : list CardLayout :=
  (fun d => {| cl_fingerprint := dr_fingerprint d; cl_fingerprint_short := dr_fingerprint_short d; cl_device_id := dr_device_id d;
               cl_name := dr_device_name d; cl_platform := dr_platform d; cl_revoked := dr_revoked d |}) <$> devices.

(** [clipboard::key] *)
Definition clipboard_key (state : GuiState) : option ClipboardStatusReport :=
  (fun r => {| cs_enabled := cs_enabled r; cs_backend := cs_backend r; cs_backend_detail := cs_backend_detail r;
               cs_backend_available := cs_backend_available r; cs_watch_available := cs_watch_available r;
               cs_sensitive_available := cs_sensitive_available r; cs_sensitive_detail := cs_sensitive_detail r;
               cs_event_cache_entries := 0; cs_suppression_cache_entries := 0; cs_peers := cs_peers r;
               cs_pending := (fun c => {| pr_device_name := pr_device_name c; pr_fingerprint_short := pr_fingerprint_short c;
                                          pr_bytes := pr_bytes c; pr_hash_prefix := pr_hash_prefix c; pr_sensitive := pr_sensitive c;
                                          pr_origin_device_id := pr_origin_device_id c; pr_age_secs := 0 |}) <$> cs_pending r |})
    <$> gs_clipboard state.

(** [DaemonState::reachable] *)
Definition reachable (s : GuiState) : bool :=
  match gs_error s, gs_status s with None, Some _ => true | _, _ => false end.

(** [Identity] of the footer and the status bar *)
Record PageIdentity := {
  pi_reachable : bool; pi_device_name : str; pi_fingerprint_short : str; pi_listen_port : N; pi_listen_families : str
}.

#[export] Instance PageIdentity_eq_dec : EqDecision PageIdentity.
Proof. solve_decision. Defined.

Definition PageIdentity_of (state : GuiState) : option PageIdentity :=
  (fun s => {| pi_reachable := reachable state; pi_device_name := sr_device_name s; pi_fingerprint_short := sr_fingerprint_short s;
               pi_listen_port := sr_listen_port s; pi_listen_families := sr_listen_families s |}) <$> gs_status state.

Definition ACTIVITY_ROWS : nat := 5.

(** [dashboard::devices_of]: the trusted ones *)
Definition dashboard_devices (state : GuiState) : list DeviceReport := filter (fun d => dr_revoked d = false) (devices_of state).

(** [dashboard::Key] *)
Record DashboardKey := {
  dk_error : option str; dk_devices : list DeviceReport; dk_peers : list (str * bool); dk_send_file : Action; dk_activity : list (list str)
}.

#[export] Instance DashboardKey_eq_dec : EqDecision DashboardKey.
Proof. solve_decision. Defined.

Definition DashboardKey_of `{UnicodeCase} (state : GuiState) (chosen : option str) : DashboardKey :=
  let panel := PanelModel_build state chosen in
  {| dk_error := gs_error state; dk_devices := without_ages <$> dashboard_devices state;
     dk_peers := (fun p => (pk_fingerprint p, pk_selected p)) <$> pm_peers panel; dk_send_file := pm_send_file panel;
     dk_activity := (fun t => [xr_filename t; xr_direction t; xr_device_name t; xr_state t]) <$>
       take ACTIVITY_ROWS (default [] (gs_transfers state)) |}.

(** [settings::Key] *)
Record SettingsKey := {
  sk_device_name : str; sk_fingerprint : str; sk_device_id : str; sk_listen_port : N; sk_listen_families : str;
  sk_protocol_version_min : N; sk_protocol_version_max : N; sk_capabilities : list str; sk_paired_devices : N; sk_connections : N
}.

#[export] Instance SettingsKey_eq_dec : EqDecision SettingsKey.
Proof. solve_decision. Defined.

Definition SettingsKey_of (state : GuiState) : option SettingsKey :=
  (fun s => {| sk_device_name := sr_device_name s; sk_fingerprint := sr_fingerprint s; sk_device_id := sr_device_id s;
               sk_listen_port := sr_listen_port s; sk_listen_families := sr_listen_families s;
               sk_protocol_version_min := sr_protocol_version_min s; sk_protocol_version_max := sr_protocol_version_max s;
               sk_capabilities := sr_capabilities s; sk_paired_devices := sr_paired_devices s;
               sk_connections := len (sr_connections s) |}) <$> gs_status state.

(** ** [Pages::render] *)

(** The slices each page was last drawn from. *)
Record Drawn := {
  dw_any : bool;
  dw_status : option StatusReport;
  dw_transfers : option (list TransferReport);
  dw_clipboard : option ClipboardStatusReport;
  dw_notifications : option NotificationsStatusReport;
  dw_devices : option (list DeviceReport);
  dw_error : option str;
  dw_resync_devices : bool
}.

Definition Drawn_default : Drawn := {|
  dw_any := false; dw_status := None; dw_transfers := None; dw_clipboard := None; dw_notifications := None; dw_devices := None;
  dw_error := None; dw_resync_devices := false |}.

Record Changed := { ch_status : bool; ch_transfers : bool; ch_clipboard : bool; ch_notifications : bool; ch_devices : bool; ch_error : bool }.

Definition anything (c : Changed) : bool :=
  ch_status c || ch_transfers c || ch_clipboard c || ch_notifications c || ch_devices c || ch_error c.

Definition changed_since (d : Drawn) (s : GuiState) : Changed :=
  let first := negb (dw_any d) in {|
  ch_status := first || negb (eqb (dw_status d) (gs_status s));
  ch_transfers := first || negb (eqb (dw_transfers d) (gs_transfers s));
  ch_clipboard := first || negb (eqb (dw_clipboard d) (gs_clipboard s));
  ch_notifications := first || negb (eqb (dw_notifications d) (gs_notifications s));
  ch_devices := first || dw_resync_devices d || negb (eqb (dw_devices d) (gs_devices s));
  ch_error := first || negb (eqb (dw_error d) (gs_error s)) |}.

(** What a render draws: the pages, and the footer with the status bar. *)
Inductive Region := RPage (p : Page.t) | RFooter.

#[export] Instance Region_eq_dec : EqDecision Region.
Proof. solve_decision. Defined.

Definition redrawn (c : Changed) : list Region :=
  (if ch_status c || ch_devices c || ch_transfers c || ch_error c then [RPage Page.Dashboard] else []) ++
  (if ch_transfers c then [RPage Page.Files] else []) ++
  (if ch_clipboard c then [RPage Page.Clipboard] else []) ++
  (if ch_notifications c then [RPage Page.Notifications] else []) ++
  (if ch_status c || ch_devices c then [RPage Page.Devices] else []) ++
  (if ch_status c then [RPage Page.Settings] else []) ++
  (if ch_status c || ch_error c then [RFooter] else []).

Definition render (d : Drawn) (s : GuiState) : list Region * Drawn :=
  let c := changed_since d s in
  if negb (anything c) then ([], d)
  else (redrawn c, {|
    dw_any := true;
    dw_status := if ch_status c then gs_status s else dw_status d;
    dw_transfers := if ch_transfers c then gs_transfers s else dw_transfers d;
    dw_clipboard := if ch_clipboard c then gs_clipboard s else dw_clipboard d;
    dw_notifications := if ch_notifications c then gs_notifications s else dw_notifications d;
    dw_devices := if ch_devices c then gs_devices s else dw_devices d;
    dw_error := if ch_error c then gs_error s else dw_error d;
    dw_resync_devices := if ch_devices c then false else dw_resync_devices d |}).

(** [resync_devices] and [redraw_now] *)
Definition set_any (d : Drawn) (any resync : bool) : Drawn := {|
  dw_any := any; dw_status := dw_status d; dw_transfers := dw_transfers d; dw_clipboard := dw_clipboard d;
  dw_notifications := dw_notifications d; dw_devices := dw_devices d; dw_error := dw_error d; dw_resync_devices := resync |}.
Definition resync_devices (d : Drawn) : Drawn := set_any d (dw_any d) true.
Definition redraw_now (d : Drawn) (s : GuiState) : list Region * Drawn := render (set_any d false (dw_resync_devices d)) s.
