(* ===== verification/PanelFacts.v ===== *)
(** Facts about the Quick Panel.

    [Lawful] says when a comparison sorts; sorting is then a function of the set
    of rows.  [panel_order_independent]: the order in which the daemon lists
    devices, sessions, policies and transfers has no influence on what an action
    would do.  [panel_offers_exactly]: an action is offered exactly for the one
    device the daemon reported as trusted, connected, granted and negotiated
    that the person chose, or that is the only one.  [recent_newest]: the recent
    list is the three newest finished transfers. *)
From S2P Require Import Prelude Control Panel.

(** * Comparisons *)

Class Lawful {A} (cmp : A -> A -> comparison) := {
  cmp_sym : forall x y, cmp y x = CompOpp (cmp x y);
  cmp_trans : forall x y z, cmp x y <> Gt -> cmp y z <> Gt -> cmp x z <> Gt
}.

Section Sorting.
Context {A : Type} (cmp : A -> A -> comparison) `{LW : !Lawful cmp}.

Definition cmp_le (x y : A) : Prop := cmp x y <> Gt.

Lemma cmp_refl x : cmp x x = Eq.
Proof. pose proof (cmp_sym x x). by destruct (cmp x x). Qed.

Lemma cmp_eq_swap x y : cmp x y = Eq -> cmp y x = Eq.
Proof. intros H. by rewrite (cmp_sym x y), H. Qed.

Lemma cmp_lt_le x y z : cmp x y = Lt -> cmp y z <> Gt -> cmp x z = Lt.
Proof.
  intros Hxy Hyz. destruct (cmp x z) eqn:E; [|done|].
  - exfalso. assert (Hyx : cmp y x <> Gt) by (apply (cmp_trans _ z); [done|by rewrite (cmp_eq_swap _ _ E)]).
    apply Hyx. by rewrite (cmp_sym x y), Hxy.
  - exfalso. revert E. apply (cmp_trans _ y); [by rewrite Hxy|done].
Qed.

Lemma cmp_le_lt x y z : cmp x y <> Gt -> cmp y z = Lt -> cmp x z = Lt.
Proof.
  intros Hxy Hyz. destruct (cmp x z) eqn:E; [|done|].
  - exfalso. assert (Hzy : cmp z y <> Gt) by (apply (cmp_trans _ x); [by rewrite (cmp_eq_swap _ _ E)|done]).
    apply Hzy. by rewrite (cmp_sym y z), Hyz.
  - exfalso. revert E. apply (cmp_trans _ y); [done|by rewrite Hyz].
Qed.

Lemma insert_by_perm x l : insert_by cmp x l ≡ₚ x :: l.
Proof.
  induction l as [|y l IH]; simpl; [done|]. case_match; [done|done|].
  rewrite IH. apply Permutation_swap.
Qed.

Lemma sort_by_perm l : sort_by cmp l ≡ₚ l.
Proof. induction l as [|x l IH]; simpl; [done|]. by rewrite insert_by_perm, IH. Qed.

Lemma insert_by_sorted x l : StronglySorted cmp_le l -> StronglySorted cmp_le (insert_by cmp x l).
Proof.
  induction 1 as [|y l Hl IH Hy]; simpl; [by repeat constructor|].
  assert (Hle : cmp x y <> Gt -> StronglySorted cmp_le (x :: y :: l)).
  { intros Hxy. constructor; [by constructor|]. constructor; [done|].
    eapply Forall_impl; [exact Hy|]. intros z. by apply cmp_trans. }
  destruct (cmp x y) eqn:E; [by apply Hle|by apply Hle|]. constructor; [done|].
  rewrite insert_by_perm. constructor; [|done]. unfold cmp_le. by rewrite (cmp_sym x y), E.
Qed.

Lemma sort_by_sorted l : StronglySorted cmp_le (sort_by cmp l).
Proof. induction l; simpl; [constructor|by apply insert_by_sorted]. Qed.

(** Where equal rows are the same row, the sorted list depends on the set only. *)
Lemma sort_by_unique l l' :
  (forall x y, x ∈ l -> y ∈ l -> cmp x y = Eq -> x = y) -> l ≡ₚ l' -> sort_by cmp l = sort_by cmp l'.
Proof.
  intros Hinj Hp. apply (StronglySorted_unique_strong cmp_le); try apply sort_by_sorted.
  - intros x y Hx Hy Hxy Hyx. rewrite sort_by_perm in Hx. rewrite sort_by_perm, <- Hp in Hy.
    apply Hinj; [done..|]. unfold cmp_le in *. rewrite (cmp_sym x y) in Hyx. by destruct (cmp x y).
  - by rewrite !sort_by_perm.
Qed.
End Sorting.

Lemma then_with_lawful {A} (c d : A -> A -> comparison) {Hc : Lawful c} {Hd : Lawful d} :
  Lawful (fun x y => then_with (c x y) (d x y)).
Proof.
  split.
  - intros x y. rewrite (cmp_sym x y), (cmp_sym (cmp := d) x y). by destruct (c x y), (d x y).
  - intros x y z. unfold then_with. intros Hxy Hyz.
    destruct (c x y) eqn:E1; [|by rewrite (cmp_lt_le c x y z E1); [|by destruct (c y z)]|done].
    destruct (c y z) eqn:E2; [|by rewrite (cmp_le_lt c x y z); [|by rewrite E1|]|done].
    destruct (c x z) eqn:E3; [by eapply (cmp_trans (cmp := d))|done|].
    exfalso. revert E3. apply (cmp_trans x y z); by rewrite ?E1, ?E2.
Qed.

Lemma on_lawful {A B} (f : A -> B) (c : B -> B -> comparison) {Hc : Lawful c} :
  Lawful (fun x y => c (f x) (f y)).
Proof. split; intros; [apply cmp_sym|by eapply cmp_trans]. Qed.

Lemma flip_lawful {A} (c : A -> A -> comparison) {Hc : Lawful c} : Lawful (fun x y => c y x).
Proof. split; intros x y; [apply cmp_sym|]. intros z H1 H2. by apply (cmp_trans z y x). Qed.

#[export] Instance N_compare_lawful : Lawful N.compare.
Proof.
  split; [intros x y; apply N.compare_antisym|]. intros x y z. rewrite !N.compare_le_iff. lia.
Qed.

Lemma str_cmp_lex a b : str_cmp a b <> Gt <-> lex_leb a b = true.
Proof.
  revert b. induction a as [|x a IH]; intros [|y b]; simpl; try (split; [done|done]).
  rewrite orb_true_iff, andb_true_iff, N.ltb_lt, N.eqb_eq, <- IH.
  destruct (N.compare_spec x y) as [->|H|H].
  - split; [by right|intros [?|[_ ?]]; [lia|done]].
  - split; [by left|done].
  - split; [done|intros [?|[? _]]; lia].
Qed.

Lemma str_cmp_eq a b : str_cmp a b = Eq -> a = b.
Proof.
  revert b. induction a as [|x a IH]; intros [|y b]; simpl; try done.
  destruct (N.compare_spec x y) as [->|H|H]; [|done|done]. intros. f_equal. by apply IH.
Qed.

#[export] Instance str_cmp_lawful : Lawful str_cmp.
Proof.
  split.
  - intros a. induction a as [|x a IH]; intros [|y b]; simpl; try done.
    rewrite (N.compare_antisym x y). destruct (x ?= y); simpl; auto.
  - intros a b c. rewrite !str_cmp_lex. apply lex_leb_trans.
Qed.

#[export] Instance recent_cmp_lawful : Lawful recent_cmp.
Proof.
  refine (then_with_lawful _ _ (Hc := flip_lawful _ (Hc := on_lawful rt_sort_key N.compare))
    (Hd := on_lawful rt_filename str_cmp)).
Qed.

#[export] Instance card_cmp_lawful `{UC : UnicodeCase} : Lawful card_cmp.
Proof.
  refine (then_with_lawful _ _ (Hc := on_lawful rank N.compare)
    (Hd := then_with_lawful _ _ (Hc := on_lawful (fun p => to_lowercase (pk_name p)) str_cmp)
             (Hd := on_lawful pk_fingerprint str_cmp))).
Qed.

(** * Reports in another order *)

Lemma only_perm {A} (l l' : list A) : l ≡ₚ l' -> only l = only l'.
Proof.
  intros Hp. destruct l as [|x [|y l]].
  - by apply Permutation_nil_l in Hp as <-.
  - by apply Permutation_singleton_l in Hp as <-.
  - assert (Hlen := Permutation_length Hp). by destruct l' as [|x' [|y' l']].
Qed.

Lemma only_some {A} (l : list A) x : only l = Some x <-> l = [x].
Proof. destruct l as [|y [|]]; simpl; naive_solver. Qed.

Definition same_status (a b : StatusReport) : Prop :=
  sr_device_name a = sr_device_name b /\ sr_connections a ≡ₚ sr_connections b /\ sr_devices a ≡ₚ sr_devices b.

Definition same_clipboard (a b : ClipboardStatusReport) : Prop :=
  cs_enabled a = cs_enabled b /\ cs_backend_available a = cs_backend_available b /\
  cs_watch_available a = cs_watch_available b /\ cs_peers a ≡ₚ cs_peers b.

Definition same_notifications (a b : NotificationsStatusReport) : Prop :=
  ns_enabled a = ns_enabled b /\ ns_available a = ns_available b /\ ns_peers a ≡ₚ ns_peers b.

(** The same answers, with every list in another order. *)
Record reordered (s s' : GuiState) : Prop := {
  ro_error : gs_error s = gs_error s';
  ro_status : option_Forall2 same_status (gs_status s) (gs_status s');
  ro_devices : option_Forall2 Permutation (gs_devices s) (gs_devices s');
  ro_transfers : option_Forall2 Permutation (gs_transfers s) (gs_transfers s');
  ro_clipboard : option_Forall2 same_clipboard (gs_clipboard s) (gs_clipboard s');
  ro_notifications : option_Forall2 same_notifications (gs_notifications s) (gs_notifications s')
}.

Definition fingerprints (l : list DeviceReport) : list str := map (fun d => to_ascii_lowercase (dr_fingerprint d)) l.

(** A model without the line about the transfer in flight. *)
Definition without_transfer (m : PanelModel) : PanelModel := {|
  pm_health := pm_health m; pm_this_device := pm_this_device m; pm_peers := pm_peers m; pm_target := pm_target m;
  pm_send_file := pm_send_file m; pm_send_clipboard := pm_send_clipboard m; pm_files := pm_files m;
  pm_clipboard := pm_clipboard m; pm_notifications := pm_notifications m; pm_transfer := None;
  pm_recent := pm_recent m |}.

Lemma connection_for_reordered st st' d :
  option_Forall2 same_status st st' -> connection_for st d = connection_for st' d.
Proof. intros [a b (_ & Hc & _)|]; simpl; [|done]. apply only_perm. by rewrite Hc. Qed.

Lemma card_of_reordered st st' chosen d :
  option_Forall2 same_status st st' -> card_of st chosen d = card_of st' chosen d.
Proof.
  intros H. unfold card_of, capability_of, negotiated_with. by rewrite (connection_for_reordered _ _ d H).
Qed.

Lemma devices_of_reordered s s' : reordered s s' -> devices_of s ≡ₚ devices_of s'.
Proof.
  intros [_ Hst Hd _ _ _]. unfold devices_of. destruct Hd as [l l' Hl|]; [done|].
  by destruct Hst as [a b (_ & _ & Hdv)|].
Qed.

Lemma NoDup_map_inj {A B} (f : A -> B) (l : list A) x y :
  NoDup (map f l) -> x ∈ l -> y ∈ l -> f x = f y -> x = y.
Proof.
  intros Hn Hx Hy Hf. apply list_elem_of_lookup in Hx as [i Hi], Hy as [j Hj].
  assert (i = j) as ->; [|congruence].
  apply (NoDup_lookup (map f l) i j (f x)); [done|by rewrite list_lookup_fmap, Hi|].
  by rewrite list_lookup_fmap, Hj, Hf.
Qed.

Section Facts.
Context {UC : UnicodeCase}.

Lemma card_cmp_eq a b : card_cmp a b = Eq -> pk_fingerprint a = pk_fingerprint b.
Proof.
  unfold card_cmp, then_with. repeat (case_match; [|done|done]). apply str_cmp_eq.
Qed.

Lemma elem_of_peer_cards s chosen p :
  p ∈ peer_cards s chosen <->
  exists d, d ∈ devices_of s /\ shown d = true /\
    p = card_of (gs_status s) ((fun c => to_ascii_lowercase (trim c)) <$> chosen) d.
Proof.
  unfold peer_cards. rewrite sort_by_perm, list_elem_of_fmap. split.
  - intros (d & -> & [Hs Hd]%list_elem_of_filter). eauto.
  - intros (d & Hd & Hs & ->). exists d. split; [done|]. by apply list_elem_of_filter.
Qed.

Lemma peer_cards_reordered s s' chosen :
  reordered s s' -> NoDup (fingerprints (devices_of s)) -> peer_cards s chosen = peer_cards s' chosen.
Proof.
  intros Hr Hn. unfold peer_cards.
  rewrite (map_ext _ _ (fun d => card_of_reordered _ _ _ d (ro_status _ _ Hr))).
  apply (sort_by_unique card_cmp); [|by rewrite (devices_of_reordered _ _ Hr)].
  intros x y (d & -> & [_ Hd]%list_elem_of_filter)%list_elem_of_fmap
    (e & -> & [_ He]%list_elem_of_filter)%list_elem_of_fmap Hc%card_cmp_eq.
  f_equal. by apply (NoDup_map_inj (fun d => to_ascii_lowercase (dr_fingerprint d)) (devices_of s)).
Qed.

Lemma health_of_reordered s s' : reordered s s' -> health_of s = health_of s'.
Proof. intros [He Hst _ _ _ _]. unfold health_of. rewrite He. by destruct (gs_error s'), Hst. Qed.

Lemma clipboard_reordered h t p c c' :
  option_Forall2 same_clipboard c c' ->
  clipboard_action h t p c = clipboard_action h t p c' /\ clipboard_status h p c = clipboard_status h p c'.
Proof.
  intros [a b (He & Hb & Hw & Hp)|]; [|done].
  assert (Hpeer : forall q, clipboard_peer a q = clipboard_peer b q)
    by (intros q; unfold clipboard_peer; apply only_perm; by rewrite Hp).
  unfold clipboard_action, clipboard_status. rewrite He, Hb. split.
  - destruct (preconditions h t p) as [q|q]; [by rewrite Hpeer|done].
  - destruct p as [q|]; [|done]. rewrite Hpeer. unfold clipboard_detail. by rewrite Hw.
Qed.

Lemma notifications_reordered h p c c' :
  option_Forall2 same_notifications c c' -> notifications_status h p c = notifications_status h p c'.
Proof.
  intros [a b (He & Hb & Hp)|]; [|done].
  assert (Hpeer : forall q, notification_peer a q = notification_peer b q)
    by (intros q; unfold notification_peer; apply only_perm; by rewrite Hp).
  unfold notifications_status. rewrite He, Hb. destruct p as [q|]; [|done]. by rewrite Hpeer.
Qed.

Lemma recent_of_key t r : recent_of t = Some r -> rt_sort_key r = xr_seq t.
Proof. unfold recent_of. intros H. by simplify_option_eq. Qed.

Lemma recent_cmp_eq a b : recent_cmp a b = Eq -> rt_sort_key a = rt_sort_key b.
Proof. unfold recent_cmp, then_with. case_match eqn:E; [|done|done]. by apply N.compare_eq in E. Qed.

Lemma recent_reordered s s' :
  option_Forall2 Permutation (gs_transfers s) (gs_transfers s') ->
  NoDup (map xr_seq (default [] (gs_transfers s))) -> recent_transfers s = recent_transfers s'.
Proof.
  unfold recent_transfers. intros [l l' Hl|] Hn; [|done]. simpl in Hn. f_equal.
  apply (sort_by_unique recent_cmp); [|by rewrite Hl].
  intros x y (t & Ht & Hx)%list_elem_of_omap (u & Hu & Hy)%list_elem_of_omap Hk%recent_cmp_eq.
  rewrite (recent_of_key _ _ Hx), (recent_of_key _ _ Hy) in Hk.
  rewrite (NoDup_map_inj xr_seq l t u Hn Ht Hu Hk) in Hx. congruence.
Qed.

(** Whatever order the daemon lists devices, sessions, clipboard and
    notification policies and transfers in, the panel draws the same rows in the
    same order, aims at the same device, offers the same actions and names the
    same recent transfers; only the line about the transfer in flight reads a
    position, and with the transfers in the same order it is the same too. *)
Theorem panel_order_independent s s' chosen :
  reordered s s' -> NoDup (fingerprints (devices_of s)) -> NoDup (map xr_seq (default [] (gs_transfers s))) ->
  without_transfer (PanelModel_build s chosen) = without_transfer (PanelModel_build s' chosen) /\
  (gs_transfers s = gs_transfers s' -> PanelModel_build s chosen = PanelModel_build s' chosen).
Proof.
  intros Hr Hn Ht. unfold PanelModel_build, without_transfer. simpl.
  rewrite (peer_cards_reordered _ _ _ Hr Hn), (health_of_reordered _ _ Hr).
  destruct (clipboard_reordered (health_of s') (Target_resolve (peer_cards s' chosen) chosen)
    (card_at (peer_cards s' chosen) (Target_resolve (peer_cards s' chosen) chosen)) _ _ (ro_clipboard _ _ Hr)) as [-> ->].
  rewrite (notifications_reordered _ _ _ _ (ro_notifications _ _ Hr)), (recent_reordered _ _ (ro_transfers _ _ Hr) Ht).
  assert (sr_device_name <$> gs_status s = sr_device_name <$> gs_status s') as ->
    by (destruct (ro_status _ _ Hr) as [a b (Hd & _)|]; simpl; congruence).
  split; [done|]. intros Hx. unfold active_transfer. by rewrite Hx.
Qed.

(** * Which action is offered *)

Lemma lower_idem x : to_ascii_lowercase (to_ascii_lowercase x) = to_ascii_lowercase x.
Proof.
  unfold to_ascii_lowercase. rewrite map_map. apply map_ext. intros c. unfold ascii_lower, in_range.
  destruct ((65 <=? c) && (c <=? 90)) eqn:E; [|by rewrite E].
  apply andb_true_iff in E as [H1%N.leb_le H2%N.leb_le].
  replace (c + 32 <=? 90) with false by (symmetry; apply N.leb_gt; lia). by rewrite andb_false_r.
Qed.

(** The device a choice comes down to. *)
Definition aimed (s : GuiState) (chosen : option str) (d : DeviceReport) : Prop :=
  match chosen with
  | Some x => to_ascii_lowercase (trim x) = to_ascii_lowercase (dr_fingerprint d)
  | None => filter (fun d => shown d = true) (devices_of s) = [d]
  end.

Definition card (s : GuiState) (chosen : option str) (d : DeviceReport) : PeerCard :=
  card_of (gs_status s) ((fun c => to_ascii_lowercase (trim c)) <$> chosen) d.

Lemma find_b_unique {A} (p : A -> bool) l x :
  (forall a b, a ∈ l -> b ∈ l -> p a = true -> p b = true -> a = b) ->
  find_b p l = Some x <-> x ∈ l /\ p x = true.
Proof.
  intros Hu. split; [apply find_b_some|]. intros [Hx Hp]. destruct (find_b p l) as [y|] eqn:E.
  - apply find_b_some in E as [Hy Hpy]. by rewrite (Hu y x).
  - by rewrite (find_b_none _ _ _ E Hx) in Hp.
Qed.

Lemma cards_distinct s chosen a b :
  NoDup (fingerprints (devices_of s)) -> a ∈ peer_cards s chosen -> b ∈ peer_cards s chosen ->
  pk_fingerprint a = pk_fingerprint b -> a = b.
Proof.
  intros Hn (d & Hd & _ & ->)%elem_of_peer_cards (e & He & _ & ->)%elem_of_peer_cards Hf. f_equal.
  by apply (NoDup_map_inj (fun d => to_ascii_lowercase (dr_fingerprint d)) (devices_of s)).
Qed.

(** With a choice: the card with that fingerprint. *)
Lemma target_chosen s x p :
  NoDup (fingerprints (devices_of s)) ->
  let peers := peer_cards s (Some x) in
  card_at peers (Target_resolve peers (Some x)) = Some p <->
  exists d, d ∈ devices_of s /\ shown d = true /\ p = card s (Some x) d /\ aimed s (Some x) d.
Proof.
  intros Hn peers. set (c := to_ascii_lowercase (trim x)).
  assert (Hhit : forall q, find_b (fun p => eq_ignore_ascii_case (pk_fingerprint p) c) peers = Some q <->
    q ∈ peers /\ pk_fingerprint q = c).
  { assert (He : forall q, q ∈ peers -> eq_ignore_ascii_case (pk_fingerprint q) c = true <-> pk_fingerprint q = c).
    { intros q (d & _ & _ & ->)%elem_of_peer_cards. unfold eq_ignore_ascii_case, c. simpl.
      by rewrite !lower_idem, eqb_true. }
    intros q. rewrite find_b_unique; [by split; intros [Hq ?]; (split; [done|]); apply He|].
    intros a b Ha Hb Ea%He Eb%He; [|done..]. by apply (cards_distinct s (Some x)); [..|congruence]. }
  transitivity (p ∈ peers /\ pk_fingerprint p = c).
  - unfold Target_resolve. fold c. destruct peers as [|q0 ql] eqn:Ep.
    { simpl. split; [done|]. by intros [?%elem_of_nil _]. }
    rewrite <- Ep in *. destruct (find_b _ peers) as [q|] eqn:Ef.
    + destruct (proj1 (Hhit q) eq_refl) as [Hq Hc]. unfold card_at. simpl. rewrite find_b_unique, eqb_true; [by rewrite Hc|].
      intros a b Ha Hb Ea%eqb_eq Eb%eqb_eq. by apply (cards_distinct s (Some x)); [..|congruence].
    + split; [done|]. by intros H%Hhit.
  - unfold peers. rewrite elem_of_peer_cards. unfold card, aimed. simpl. split.
    + intros [(d & Hd & Hs & ->) Hc]. exists d. by repeat split.
    + intros (d & Hd & Hs & -> & Ha). by split; [exists d|].
Qed.

(** Without: the only card there is. *)
Lemma target_only s p :
  let peers := peer_cards s None in
  card_at peers (Target_resolve peers None) = Some p <->
  exists d, d ∈ devices_of s /\ shown d = true /\ p = card s None d /\ aimed s None d.
Proof.
  intros peers. unfold peers, peer_cards, aimed.
  set (l := filter (fun d => shown d = true) (devices_of s)).
  assert (Hl : forall d, d ∈ l <-> d ∈ devices_of s /\ shown d = true)
    by (intros d; unfold l; rewrite list_elem_of_filter; tauto).
  destruct l as [|d [|e l']] eqn:E; simpl.
  - split; [done|]. naive_solver.
  - unfold card_at. simpl. unfold eqb. rewrite bool_decide_true by done. split.
    + intros [= <-]. exists d. destruct (proj1 (Hl d)) as [Hd Hs]; [by left|]. by repeat split.
    + intros (d' & _ & _ & -> & [= ->]). done.
  - assert (Hlen := Permutation_length (sort_by_perm card_cmp (map (card s None) (d :: e :: l')))). simpl in Hlen.
    fold (card s None d) (card s None e).
    unfold card in *. simpl in Hlen.
    match goal with |- card_at ?k _ = _ <-> _ => destruct k as [|? [|? ?]] end; try done.
    split; [done|]. naive_solver.
Qed.

Lemma target_card s chosen p :
  NoDup (fingerprints (devices_of s)) ->
  let peers := peer_cards s chosen in
  card_at peers (Target_resolve peers chosen) = Some p <->
  exists d, d ∈ devices_of s /\ shown d = true /\ p = card s chosen d /\ aimed s chosen d.
Proof. intros Hn. destruct chosen as [x|]; [by apply target_chosen|apply target_only]. Qed.

(** The session of a device, as the report tells them apart. *)
Definition sessions_of (st : StatusReport) (d : DeviceReport) : list ConnectionReport :=
  filter (fun c => eqb (co_device_id c) (dr_device_id d) = true /\
                   eqb (co_fingerprint_short c) (dr_fingerprint_short d) = true) (sr_connections st).

(** The daemon is reachable and last said: this device, the one aimed at, is
    trusted and connected, may use the capability, and its one session has
    negotiated it. *)
Definition offered (s : GuiState) (chosen : option str) (capability : str) (d : DeviceReport) : Prop :=
  gs_error s = None /\ d ∈ devices_of s /\ aimed s chosen d /\
  dr_revoked d = false /\ dr_paired d = true /\ dr_state d = DeviceState.Connected /\
  capability ∈ dr_granted_capabilities d /\
  exists st c, gs_status s = Some st /\ sessions_of st d = [c] /\ capability ∈ co_negotiated_capabilities c.

(** The clipboard policy the daemon reported for a device lets it send. *)
Definition clipboard_sends (s : GuiState) (d : DeviceReport) : Prop :=
  exists r p, gs_clipboard s = Some r /\ cs_enabled r = true /\ cs_backend_available r = true /\
    filter (fun p => eqb (cp_device_id p) (dr_device_id d) = true /\
                     eqb (cp_fingerprint_short p) (dr_fingerprint_short d) = true) (cs_peers r) = [p] /\
    cp_allow_send p = true.

Lemma preconditions_ok s chosen p :
  let peers := peer_cards s chosen in
  let target := Target_resolve peers chosen in
  preconditions (health_of s) target (card_at peers target) = Ok p <->
  gs_error s = None /\ is_Some (gs_status s) /\ card_at peers target = Some p /\ pk_link p = Link.Connected.
Proof.
  intros peers target. unfold preconditions, health_of.
  destruct (gs_error s); [by split; [|intros [? _]]|].
  destruct (gs_status s) as [st|]; [|by split; [|intros (_ & [? ?] & _)]].
  assert (Hcard : card_at peers target = Some p -> is_Some (target_fingerprint target))
    by (unfold card_at; destruct (target_fingerprint target); [eauto|done]).
  destruct target as [fp|fp|[|]|] eqn:Et; rewrite <- Et in *;
    try (split; [done|intros (_ & _ & Hc & _)]; apply Hcard in Hc as [? Hc]; by rewrite Et in Hc);
    (destruct (card_at peers target) as [q|]; [|by split; [|intros (_ & _ & ? & _)]]);
    (destruct (pk_link q) eqn:E; simpl; split;
      [intros [= ->]; split_and!; by eauto|by intros (_ & _ & [= ->] & _)
      |done|intros (_ & _ & [= ->] & ?); congruence|done|intros (_ & _ & [= ->] & ?); congruence]).
Qed.

Lemma preconditions_err h t p b : preconditions h t p = Err b -> exists r, b = Blocked r.
Proof. unfold preconditions. intros H. repeat case_match; simplify_eq; eauto. Qed.

Lemma capability_usable st d id :
  link_of d = Link.Connected ->
  cap_live (capability_of st d id) = true <->
  exists x c, st = Some x /\ sessions_of x d = [c] /\ id ∈ co_negotiated_capabilities c.
Proof.
  intros Hl. unfold capability_of, negotiated_with, connection_for. simpl. rewrite Hl. simpl.
  destruct st as [x|]; simpl; [|by split; [|intros (? & ? & ? & _)]]. fold (sessions_of x d).
  destruct (sessions_of x d) as [|c [|c' l]] eqn:E; simpl;
    [by split; [|intros (? & ? & [= <-] & ? & _); congruence]| |
     by split; [|intros (? & ? & [= <-] & ? & _); congruence]].
  rewrite mem_true. split; [intros H; by exists x, c|]. intros (? & c' & [= <-] & Hs & Hin). congruence.
Qed.

Lemma link_connected d : link_of d = Link.Connected <-> dr_state d = DeviceState.Connected.
Proof. unfold link_of. by destruct (dr_state d). Qed.

Lemma shown_true d : shown d = true <-> dr_revoked d = false /\ dr_paired d = true.
Proof. unfold shown. rewrite andb_true_iff, negb_true_iff. done. Qed.

(** Both actions ask for the same of their capability. *)
Lemma offered_card s chosen id (get : PeerCard -> Capability) d :
  (forall d, get (card s chosen d) = capability_of (gs_status s) d id) ->
  NoDup (fingerprints (devices_of s)) ->
  let peers := peer_cards s chosen in
  let target := Target_resolve peers chosen in
  offered s chosen id d <->
  d ∈ devices_of s /\ shown d = true /\ aimed s chosen d /\
  preconditions (health_of s) target (card_at peers target) = Ok (card s chosen d) /\
  cap_granted (get (card s chosen d)) = true /\ cap_live (get (card s chosen d)) = true.
Proof.
  intros Hget Hn. cbv zeta. rewrite preconditions_ok, Hget, shown_true. unfold offered.
  simpl. rewrite mem_true. split.
  - intros (He & Hd & Ha & Hr & Hp & Hc & Hg & st & c & Hst & Hs & Hin).
    assert (Hl := proj2 (link_connected d) Hc).
    split_and!; try done.
    + apply target_card; [done|]. exists d. by rewrite shown_true.
    + apply (capability_usable (gs_status s) d id Hl). by exists st, c.
  - intros (Hd & [Hr Hp] & Ha & (He & _ & _ & Hl) & Hg & Hv). assert (Hc := proj1 (link_connected d) Hl).
    apply (capability_usable (gs_status s) d id Hl) in Hv as (st & c & ? & ? & ?).
    split_and!; try done. by exists st, c.
Qed.

Section Offers.
Variables (s : GuiState) (chosen : option str) (fp name : str).
Hypothesis Hn : NoDup (fingerprints (devices_of s)).
Let peers := peer_cards s chosen.
Let target := Target_resolve peers chosen.

Lemma preconditions_card p :
  preconditions (health_of s) target (card_at peers target) = Ok p ->
  exists d, d ∈ devices_of s /\ shown d = true /\ p = card s chosen d /\ aimed s chosen d.
Proof. intros (_ & _ & Hp & _)%preconditions_ok. by apply target_card. Qed.

Lemma file_offers :
  file_action (health_of s) target (card_at peers target) = Ready fp name <->
  exists d, offered s chosen FILES d /\ fp = to_ascii_lowercase (dr_fingerprint d) /\ name = dr_device_name d.
Proof.
  unfold file_action. setoid_rewrite (offered_card s chosen FILES pk_files); [|done..]. fold peers target. split.
  - destruct (preconditions _ _ _) as [p|b] eqn:E; [|apply preconditions_err in E as [r ->]; done].
    destruct (preconditions_card p E) as (d & Hd & Hs & -> & Ha).
    destruct (cap_granted _) eqn:Eg; [|done]. destruct (cap_live _) eqn:Ev; [|done]. intros [= <- <-]. by exists d.
  - intros (d & (Hd & Hs & Ha & E & Eg & Ev) & -> & ->). by rewrite E, Eg, Ev.
Qed.

Lemma clipboard_sends_card d :
  clipboard_sends s d <->
  exists r p, gs_clipboard s = Some r /\ cs_enabled r = true /\ cs_backend_available r = true /\
    clipboard_peer r (card s chosen d) = Some p /\ cp_allow_send p = true.
Proof. unfold clipboard_sends, clipboard_peer. by setoid_rewrite only_some. Qed.

Lemma clipboard_offers :
  clipboard_action (health_of s) target (card_at peers target) (gs_clipboard s) = Ready fp name <->
  exists d, offered s chosen CLIPBOARD d /\ clipboard_sends s d /\
    fp = to_ascii_lowercase (dr_fingerprint d) /\ name = dr_device_name d.
Proof.
  unfold clipboard_action. setoid_rewrite (offered_card s chosen CLIPBOARD pk_clipboard); [|done..].
  fold peers target. setoid_rewrite clipboard_sends_card. split.
  - destruct (preconditions _ _ _) as [p|b] eqn:E; [|apply preconditions_err in E as [r ->]; done].
    destruct (preconditions_card p E) as (d & Hd & Hs & -> & Ha).
    destruct (gs_clipboard s) as [r|]; [|done].
    destruct (cs_enabled r) eqn:Ee; [|done]. destruct (cs_backend_available r) eqn:Eb; [|done].
    destruct (cap_granted _) eqn:Eg; [|done]. destruct (cap_live _) eqn:Ev; [|done]. cbn [negb].
    destruct (clipboard_peer r _) as [q|] eqn:Eq; [|done]. destruct (cp_allow_send q) eqn:Ea; [|done].
    intros [= <- <-]. exists d. split; [done|]. split; [|done]. by exists r, q.
  - intros (d & (Hd & Hs & Ha & E & Eg & Ev) & (r & q & Hr & Ee & Eb & Eq & Ea) & -> & ->).
    by rewrite E, Hr, Ee, Eb, Eg, Ev, Eq, Ea.
Qed.
End Offers.

(** An action of the panel is offered, for a fingerprint and a name, exactly
    when the daemon is reachable and reported one device with them as trusted,
    connected, granted the capability and running it on its one session, and
    that device is the one the person chose or, with no choice made, the only
    trusted one; the clipboard further needs a working backend and a policy that
    allows sending to that device. *)
Theorem panel_offers_exactly s chosen fp name :
  NoDup (fingerprints (devices_of s)) ->
  (pm_send_file (PanelModel_build s chosen) = Ready fp name <->
   exists d, offered s chosen FILES d /\ fp = to_ascii_lowercase (dr_fingerprint d) /\ name = dr_device_name d) /\
  (pm_send_clipboard (PanelModel_build s chosen) = Ready fp name <->
   exists d, offered s chosen CLIPBOARD d /\ clipboard_sends s d /\
     fp = to_ascii_lowercase (dr_fingerprint d) /\ name = dr_device_name d).
Proof.
  intros Hn. split; [by apply file_offers|by apply clipboard_offers].
Qed.
(** * The recent list *)

Lemma recent_of_outcome t r :
  recent_of t = Some r ->
  transfer_state.is_terminal (xr_state t) = true /\
  (Outcome.succeeded (rt_outcome r) = true <->
   xr_state t = transfer_state.COMPLETED /\ xr_failure_code t = None).
Proof.
  unfold recent_of, Outcome.read. intros H. destruct (outgoing _) as [o|]; [|done]. simpl in H.
  destruct (transfer_state.is_terminal (xr_state t)) eqn:Et; [|done]. simplify_eq/=. split; [done|].
  destruct (xr_failure_code t) as [code|].
  - split; [by repeat case_match|]. by intros [_ ?].
  - destruct (eqb (xr_state t) transfer_state.COMPLETED) eqn:Ec.
    + apply eqb_eq in Ec. by destruct o.
    + apply eqb_neq in Ec. split; [by case_match|]. by intros [? _].
Qed.

Lemma recent_le_key a b : cmp_le recent_cmp a b -> rt_sort_key b <= rt_sort_key a.
Proof.
  unfold cmp_le, recent_cmp, then_with. destruct (N.compare_spec (rt_sort_key b) (rt_sort_key a)); [lia|lia|done].
Qed.

Lemma StronglySorted_take {A} (R : A -> A -> Prop) n l : StronglySorted R l -> StronglySorted R (take n l).
Proof.
  intros H. revert n. induction H as [|x l Hl IH Hx]; intros [|n]; simpl; try constructor; [done|].
  by apply Forall_take.
Qed.

Lemma StronglySorted_split {A} (R : A -> A -> Prop) n l x y :
  StronglySorted R l -> x ∈ take n l -> y ∈ drop n l -> R x y.
Proof.
  intros H. revert n. induction H as [|z l Hl IH Hz]; intros [|n]; simpl; try (by intros ?%elem_of_nil).
  intros [->|Hx]%elem_of_cons Hy; [|by apply (IH n)].
  rewrite Forall_forall in Hz. apply Hz. exact (subseteq_drop n l y Hy).
Qed.

(** The recent list names at most three transfers, newest first; each is a
    finished transfer the daemon reported with a direction, and is said to have
    succeeded exactly if the daemon called it completed and named no failure;
    one that is left out is no newer than any of the three that are named. *)
Theorem recent_newest s :
  let reports := default [] (gs_transfers s) in
  let recent := pm_recent (PanelModel_build s None) in
  (length recent <= 3)%nat /\ StronglySorted (fun a b => rt_sort_key b <= rt_sort_key a) recent /\
  (forall r, r ∈ recent -> exists t, t ∈ reports /\ recent_of t = Some r /\
     transfer_state.is_terminal (xr_state t) = true /\
     (Outcome.succeeded (rt_outcome r) = true <->
      xr_state t = transfer_state.COMPLETED /\ xr_failure_code t = None)) /\
  (forall t r, t ∈ reports -> recent_of t = Some r ->
     r ∈ recent \/ (length recent = 3%nat /\ forall r', r' ∈ recent -> xr_seq t <= rt_sort_key r')).
Proof.
  simpl. unfold recent_transfers. destruct (gs_transfers s) as [l|]; simpl.
  2: { split_and!; [lia|constructor|by intros ? ?%elem_of_nil|by intros ? ? ?%elem_of_nil]. }
  set (k := sort_by recent_cmp (omap recent_of l)).
  assert (Hk : forall r, r ∈ k <-> exists t, t ∈ l /\ recent_of t = Some r)
    by (intros r; unfold k; rewrite sort_by_perm; apply list_elem_of_omap).
  assert (Hs : StronglySorted (cmp_le recent_cmp) k) by (apply sort_by_sorted, _).
  unfold RECENT_LIMIT. split_and!.
  - rewrite length_take. lia.
  - assert (Ht := StronglySorted_take _ 3 _ Hs). induction Ht; constructor; [done|].
    eapply Forall_impl; [done|]. intros ?. apply recent_le_key.
  - intros r Hr. destruct (proj1 (Hk r)) as (t & Ht & Hrt); [exact (subseteq_take 3 k r Hr)|].
    exists t. split; [done|]. split; [done|]. by apply recent_of_outcome.
  - intros t r Ht Hr. assert (Hin : r ∈ k) by (apply Hk; eauto).
    rewrite <- (take_drop 3 k), elem_of_app in Hin. destruct Hin as [Hin|Hin]; [by left|right]. split.
    + rewrite length_take. assert (Hd : (0 < length (drop 3 k))%nat) by (destruct (drop 3 k); simpl; [by apply elem_of_nil in Hin|lia]).
      rewrite length_drop in Hd. lia.
    + intros r' Hr'. rewrite <- (recent_of_key _ _ Hr). apply recent_le_key. by apply (StronglySorted_split _ 3 k).
Qed.
End Facts.
