(* ===== verification/GuiFacts.v ===== *)
(** Facts about the graphical client's application.

    What is drawn is always one whole poll, whatever order its answers come in
    and however late the answers to older polls are; and the pages on the screen
    show the state they were given. *)
From S2P Require Import Prelude Control Panel Gui.

(** * Answers touch their own field *)

Definition status_after (o : option StatusReport) (r : Reply) : option StatusReport :=
  match r with Ok (Response.Status x) => Some x | _ => o end.
Definition error_after (r : Reply) : option str :=
  match r with
  | Ok (Response.Status _) => None
  | Ok (Response.Error m) => Some (lit m)
  | Ok _ => Some (lit "unexpected reply from the daemon")
  | Err e => Some e
  end.
Definition devices_after (o : option (list DeviceReport)) (r : Reply) := match r with Ok (Response.Devices x) => Some x | _ => o end.
Definition transfers_after (o : option (list TransferReport)) (r : Reply) := match r with Ok (Response.Transfers x) => Some x | _ => o end.
Definition clipboard_after (o : option ClipboardStatusReport) (r : Reply) := match r with Ok (Response.Clipboard x) => Some x | _ => o end.
Definition notifications_after (o : option NotificationsStatusReport) (r : Reply) :=
  match r with Ok (Response.Notifications x) => Some x | _ => o end.

Lemma fold_of_eq q s r : fold_of q s r = {|
  gs_status := match q with QStatus => status_after (gs_status s) r | _ => gs_status s end;
  gs_devices := match q with QDevices => devices_after (gs_devices s) r | _ => gs_devices s end;
  gs_transfers := match q with QTransfers => transfers_after (gs_transfers s) r | _ => gs_transfers s end;
  gs_clipboard := match q with QClipboard => clipboard_after (gs_clipboard s) r | _ => gs_clipboard s end;
  gs_notifications := match q with QNotifications => notifications_after (gs_notifications s) r | _ => gs_notifications s end;
  gs_error := match q with QStatus => error_after r | _ => gs_error s end |}.
Proof. destruct s, q, r as [[]|]; reflexivity. Qed.

Lemma fold_of_comm q1 q2 s r1 r2 : q1 <> q2 -> fold_of q1 (fold_of q2 s r2) r1 = fold_of q2 (fold_of q1 s r1) r2.
Proof. intros Hne. rewrite !fold_of_eq. by destruct q1, q2. Qed.

Definition fold_opt (s : GuiState) (q : Question) (o : option Reply) : GuiState :=
  match o with Some r => fold_of q s r | None => s end.

(** Some answers folded into a state, each into its field. *)
Definition folded (replies : Question -> option Reply) (s : GuiState) : GuiState :=
  foldl (fun s q => fold_opt s q (replies q)) s questions.

Lemma fold_opt_comm q1 q2 s o r : q1 <> q2 -> fold_opt (fold_of q2 s r) q1 o = fold_of q2 (fold_opt s q1 o) r.
Proof. intros Hne. destruct o; [|done]. by apply fold_of_comm. Qed.

Definition with_reply (replies : Question -> option Reply) (q : Question) (r : Reply) : Question -> option Reply :=
  fun q' => if decide (q' = q) then Some r else replies q'.

Lemma folded_with replies q r s : replies q = None -> folded (with_reply replies q r) s = fold_of q (folded replies s) r.
Proof.
  intros Hq. unfold folded, questions, with_reply. cbn [foldl].
  destruct q; rewrite ?decide_True, ?decide_False by done; rewrite Hq; unfold fold_opt at 1 2 3 4 5;
    repeat (rewrite <- fold_opt_comm by done); reflexivity.
Qed.

Lemma folded_ext f g s : (forall q, f q = g q) -> folded f s = folded g s.
Proof. intros H. unfold folded, questions. simpl. by rewrite !H. Qed.

(** * Whole polls *)

(** Each state drawn is the one drawn before it with the five answers of one
    poll folded in, all of which had arrived. *)
Fixpoint whole (l : list PollEvent) (prev : GuiState) (draws : list GuiState) : Prop :=
  match draws with
  | [] => True
  | s :: rest => (exists g replies, (forall q, Answer g q (replies q) ∈ l) /\ s = folded (fun q => Some (replies q)) prev) /\ whole l s rest
  end.

Lemma whole_mono l l' prev draws : l ⊆ l' -> whole l prev draws -> whole l' prev draws.
Proof.
  intros Hl. revert prev. induction draws as [|s rest IH]; intros prev; simpl; [done|].
  intros [(g & f & Hf & Hs) Hr]. split; [exists g, f; split; [intros q; apply Hl, Hf|done]|by apply IH].
Qed.

Lemma whole_snoc l prev draws s g replies : whole l prev draws ->
  (forall q, Answer g q (replies q) ∈ l) -> s = folded (fun q => Some (replies q)) (default prev (last draws)) ->
  whole l prev (draws ++ [s]).
Proof.
  revert prev. induction draws as [|d rest IH]; intros prev; simpl; [intros _ Hf ->; split; [eauto|done]|].
  intros [Hd Hr] Hf ->. split; [done|]. apply IH; [done..|]. rewrite last_cons. by destruct (last rest).
Qed.

Definition is_tick (e : PollEvent) : bool := match e with Tick => true | _ => false end.
Definition ticks (l : list PollEvent) : N := N.of_nat (length (List.filter is_tick l)).

Lemma ticks_snoc l e : ticks (l ++ [e]) = ticks l + if is_tick e then 1 else 0.
Proof. unfold ticks. rewrite List.filter_app, length_app. simpl. destruct (is_tick e); simpl; lia. Qed.

Abbreviation generation p := (cy_generation (po_cycle p)).

(** The questions of the current poll that are out. *)
Definition open_of (g : N) (asked : list (N * Question)) : list Question := List.filter (fun q => mem (g, q) asked) questions.
Abbreviation open_in p := (open_of (generation p) (po_asked p)).

Lemma mem_iff {A} `{EqDecision A} (x : A) l : mem x l = true <-> x ∈ l.
Proof. apply mem_true. Qed.

Lemma elem_of_questions q : q ∈ questions.
Proof. destruct q; unfold questions; set_solver. Qed.

Lemma elem_of_remove_first {A} `{EqDecision A} (x y : A) l : NoDup l -> (y ∈ remove_first x l <-> y ∈ l /\ y <> x).
Proof.
  induction 1 as [|z l Hz Hl IH]; simpl; [set_solver|]. destruct (eqb x z) eqn:E.
  - apply eqb_eq in E as <-. rewrite elem_of_cons. split; [intros Hy; split; [by right|]; by intros ->|naive_solver].
  - apply eqb_neq in E. rewrite !elem_of_cons, IH. naive_solver.
Qed.

Lemma NoDup_remove_first {A} `{EqDecision A} (x : A) l : NoDup l -> NoDup (remove_first x l).
Proof.
  induction 1 as [|z l Hz Hl IH]; simpl; [constructor|]. destruct (eqb x z); [done|]. constructor; [|done].
  rewrite elem_of_remove_first by done. naive_solver.
Qed.

(** The questions of a new poll. *)
Lemma asked_new g q : (g, q) ∈ ((pair g : Question -> N * Question) <$> questions).
Proof. apply list_elem_of_fmap. exists q. split; [done|apply elem_of_questions]. Qed.
Lemma asked_new_inv g g' q : (g', q) ∈ ((pair g : Question -> N * Question) <$> questions) -> g' = g.
Proof. intros (q' & [= -> _] & _)%list_elem_of_fmap. done. Qed.
Lemma asked_new_nodup g : NoDup ((pair g : Question -> N * Question) <$> questions).
Proof. apply NoDup_fmap_2; [intros ?? [= ->]; done|]. apply (bool_decide_unpack _). vm_compute. exact I. Qed.

(** What holds of the poll between events. *)
Record poll_ok (l : list PollEvent) (p : Poll) (replies : Question -> option Reply) : Prop := {
  ok_gen : generation p = ticks l;
  ok_nodup : NoDup (po_asked p);
  ok_older : forall g q, (g, q) ∈ po_asked p -> 0 < g <= generation p;
  ok_came : forall q r, replies q = Some r -> Answer (generation p) q r ∈ l;
  ok_open : 0 < generation p -> forall q, replies q = None <-> (generation p, q) ∈ po_asked p;
  ok_outstanding : cy_outstanding (po_cycle p) = N.of_nat (length (open_in p));
  ok_pending : 0 < cy_outstanding (po_cycle p) -> cy_pending (po_cycle p) = folded replies (po_state p);
  ok_state : po_state p = default GuiState_default (last (po_draws p));
  ok_whole : whole l GuiState_default (po_draws p) }.

Lemma poll_new_ok : poll_ok [] Poll_new (fun _ => None).
Proof. split; simpl; try done; [constructor|set_solver]. Qed.

Lemma open_of_all g asked : (forall q, (g, q) ∈ asked) -> open_of g asked = questions.
Proof.
  intros Hq. unfold open_of. induction questions as [|q l IH]; [done|]. simpl.
  by rewrite (proj2 (mem_iff _ _) (Hq q)), IH.
Qed.

Lemma refresh_ok l p replies : ticks l < u64_max -> poll_ok l p replies -> poll_ok (l ++ [Tick]) (refresh p) (fun _ => None).
Proof.
  intros Hl H. pose proof (ok_gen _ _ _ H) as Hg.
  assert (Hnew : wrap_add_u64 (generation p) 1 = generation p + 1).
  { unfold wrap_add_u64. apply N.mod_small. lia. }
  assert (Hfresh : forall q, (generation p + 1, q) ∉ po_asked p) by (intros q Hq; apply (ok_older _ _ _ H) in Hq; lia).
  assert (Hall : forall q, (generation (refresh p), q) ∈ po_asked (refresh p)).
  { intros q. apply elem_of_app. right. apply asked_new. }
  split; cbn [refresh po_cycle po_asked po_state po_draws cy_generation cy_outstanding cy_pending] in *; rewrite ?Hnew in *.
  - rewrite ticks_snoc. simpl. lia.
  - apply NoDup_app. split_and!; [apply H| |apply asked_new_nodup].
    intros [g q] Hin ->%asked_new_inv. by eapply Hfresh.
  - intros g q [Hin| ->%asked_new_inv]%elem_of_app; [apply (ok_older _ _ _ H) in Hin|]; lia.
  - done.
  - intros _ q. split; [|done]. intros _. apply Hall.
  - by rewrite open_of_all.
  - done.
  - apply H.
  - eapply whole_mono, H. set_solver.
Qed.

Lemma open_of_same g asked asked' : (forall q, (g, q) ∈ asked' <-> (g, q) ∈ asked) -> open_of g asked' = open_of g asked.
Proof.
  intros Hs. unfold open_of. apply filter_ext. intros q. apply eq_bool_prop_intro. by rewrite !Is_true_true, !mem_iff.
Qed.

Lemma open_of_less g asked asked' q : (g, q) ∈ asked -> (forall q', (g, q') ∈ asked' <-> (g, q') ∈ asked /\ q' <> q) ->
  length (open_of g asked) = S (length (open_of g asked')).
Proof.
  intros Hq Hs. unfold open_of.
  assert (Hm : forall q', mem (g, q') asked' = if decide (q' = q) then false else mem (g, q') asked).
  { intros q'. apply eq_bool_prop_intro. rewrite !Is_true_true, mem_iff, Hs. destruct (decide (q' = q)) as [->|Hn]; [naive_solver|].
    rewrite mem_iff. naive_solver. }
  unfold questions. cbn [List.filter]. rewrite !Hm. apply mem_iff in Hq.
  destruct q; rewrite ?decide_True, ?decide_False by done; rewrite Hq; simpl;
    repeat (match goal with |- context [mem ?x ?l] => destruct (mem x l) end; simpl); done.
Qed.

Lemma open_of_none g asked q : length (open_of g asked) = 0%nat -> (g, q) ∉ asked.
Proof.
  intros Hl Hq. assert (q ∈ open_of g asked) as Hin.
  { unfold open_of. apply list_elem_of_In, filter_In. split; [apply list_elem_of_In, elem_of_questions|]. by apply mem_iff. }
  destruct (open_of g asked); [by apply elem_of_nil in Hin|done].
Qed.

(** What is left to ask after an answer. *)
Lemma remove_asked l p replies g q g' q' : poll_ok l p replies ->
  (g', q') ∈ remove_first (g, q) (po_asked p) <-> (g', q') ∈ po_asked p /\ (g' = g -> q' <> q).
Proof. intros H. rewrite elem_of_remove_first by apply H. naive_solver. Qed.

(** An answer to an older poll is dropped. *)
Lemma late_ok l p replies g q r : poll_ok l p replies -> generation p <> g ->
  poll_ok (l ++ [Answer g q r]) (answered p g q r) replies.
Proof.
  intros H Hne.
  assert (Hrest : forall q', (generation p, q') ∈ remove_first (g, q) (po_asked p) <-> (generation p, q') ∈ po_asked p).
  { intros q'. rewrite (remove_asked _ _ _ _ _ _ _ H). naive_solver. }
  assert (answered p g q r = {| po_cycle := po_cycle p; po_state := po_state p; po_asked := remove_first (g, q) (po_asked p); po_draws := po_draws p |}) as ->
    by (unfold answered; apply N.eqb_neq in Hne; by rewrite Hne).
  split; cbn [po_cycle po_state po_asked po_draws]; try apply H.
  - rewrite ticks_snoc, (ok_gen _ _ _ H). simpl. lia.
  - apply NoDup_remove_first, H.
  - intros g' q' [? _]%(remove_asked _ _ _ _ _ _ _ H). by eapply (ok_older _ _ _ H).
  - intros q' r' Hr. apply elem_of_app. left. by apply (ok_came _ _ _ H).
  - intros Hp q'. rewrite Hrest. by apply (ok_open _ _ _ H).
  - rewrite (ok_outstanding _ _ _ H). do 2 f_equal. symmetry. by apply open_of_same.
  - eapply whole_mono, H. set_solver.
Qed.

(** The answers a poll has after one more. *)
Lemma one_more l p replies q r : poll_ok l p replies -> (generation p, q) ∈ po_asked p ->
  let asked := remove_first (generation p, q) (po_asked p) in let replies' := with_reply replies q r in
  replies q = None /\ cy_outstanding (po_cycle p) = N.of_nat (S (length (open_of (generation p) asked))) /\
  (forall q' r', replies' q' = Some r' -> Answer (generation p) q' r' ∈ l ++ [Answer (generation p) q r]) /\
  (forall q', replies' q' = None <-> (generation p, q') ∈ asked) /\
  fold_of q (cy_pending (po_cycle p)) r = folded replies' (po_state p).
Proof.
  intros H Hin asked replies'. pose proof (ok_older _ _ _ H _ _ Hin) as Hg0.
  assert (Hq : replies q = None) by (apply (ok_open _ _ _ H); [lia|done]).
  assert (Hout : cy_outstanding (po_cycle p) = N.of_nat (S (length (open_of (generation p) asked)))).
  { rewrite (ok_outstanding _ _ _ H). f_equal. apply open_of_less with q; [done|]. intros q'. unfold asked.
    rewrite (remove_asked _ _ _ _ _ _ _ H). naive_solver. }
  split_and!; [done..| | |].
  - intros q' r'. unfold replies', with_reply. destruct (decide (q' = q)) as [->|]; intros Hr; apply elem_of_app.
    + injection Hr as <-. right. by left.
    + left. by apply (ok_came _ _ _ H).
  - intros q'. unfold replies', with_reply, asked. rewrite (remove_asked _ _ _ _ _ _ _ H).
    destruct (decide (q' = q)); [naive_solver|]. rewrite (ok_open _ _ _ H) by lia. naive_solver.
  - unfold replies'. rewrite folded_with by done. f_equal. apply (ok_pending _ _ _ H). lia.
Qed.

Lemma answered_ok l p replies q r : poll_ok l p replies -> (generation p, q) ∈ po_asked p ->
  poll_ok (l ++ [Answer (generation p) q r]) (answered p (generation p) q r) (with_reply replies q r).
Proof.
  intros H Hin. destruct (one_more l p replies q r H Hin) as (Hq & Hout & Hcame & Hopen & Hpend).
  assert (Hw : whole (l ++ [Answer (generation p) q r]) GuiState_default (po_draws p)) by (eapply whole_mono, H; set_solver).
  assert (Hold : forall g' q', (g', q') ∈ remove_first (generation p, q) (po_asked p) -> 0 < g' <= generation p)
    by (intros g' q' [? _]%(remove_asked _ _ _ _ _ _ _ H); by eapply (ok_older _ _ _ H)).
  assert (Htk : generation p = ticks (l ++ [Answer (generation p) q r])) by (rewrite ticks_snoc, (ok_gen _ _ _ H); simpl; lia).
  unfold answered. rewrite N.eqb_refl. cbn [negb]. rewrite Hpend.
  destruct (cy_outstanding (po_cycle p) - 1 =? 0) eqn:E; to_prop;
    (split; cbn [po_cycle po_state po_asked po_draws cy_generation cy_outstanding cy_pending];
      [done|apply NoDup_remove_first, H|done|done|done|lia|done| |]); [by rewrite last_snoc| |apply H|done].
  assert (Hall : forall q', with_reply replies q r q' = Some (default r (with_reply replies q r q'))).
  { intros q'. destruct (with_reply replies q r q') eqn:Ew; [done|]. apply Hopen, open_of_none in Ew; [done|lia]. }
  apply whole_snoc with (generation p) (fun q' => default r (with_reply replies q r q')); [done|by intros q'; apply Hcame|].
  rewrite (ok_state _ _ _ H). by apply folded_ext.
Qed.

Lemma poll_run_ok l : ticks l <= u64_max -> exists replies, poll_ok l (poll_run l) replies.
Proof.
  induction l as [|e l IH] using rev_ind; intros Hl; [exists (fun _ => None); apply poll_new_ok|].
  rewrite ticks_snoc in Hl. destruct IH as [replies H]; [lia|]. unfold poll_run. rewrite foldl_snoc. fold (poll_run l).
  destruct e as [|g q r]; simpl in *.
  - exists (fun _ => None). apply refresh_ok with replies; [lia|exact H].
  - destruct (mem (g, q) (po_asked (poll_run l))) eqn:Hm.
    + apply mem_iff in Hm. destruct (decide (generation (poll_run l) = g)) as [<-|Hne].
      * exists (with_reply replies q r). by apply answered_ok.
      * exists replies. by apply late_ok.
    + exists replies. split; try apply H.
      * rewrite ticks_snoc, (ok_gen _ _ _ H). simpl. lia.
      * intros q' r' Hr. apply elem_of_app. left. by apply (ok_came _ _ _ H).
      * eapply whole_mono, H. set_solver.
Qed.

(** The screen shows whole polls.  Over any sequence of ticks, controls that
    ask for a refresh, and answers that come in any order, late or never, each
    state that is drawn is the one drawn before it with the answers to all five
    questions of one and the same poll in their fields, so that a question that
    failed leaves what was known; and what is held is the state last drawn. *)
Theorem polls_drawn_whole l : ticks l <= u64_max ->
  whole l GuiState_default (po_draws (poll_run l)) /\
  po_state (poll_run l) = default GuiState_default (last (po_draws (poll_run l))).
Proof. intros (replies & H)%poll_run_ok. split; apply H. Qed.

(** The answers of one poll, in the order they come. *)
Definition answers (g : N) (l : list (Question * Reply)) : list PollEvent := map (fun qr => Answer g qr.1 qr.2) l.

Lemma answers_drawn l p : NoDup l.*1 -> NoDup (po_asked p) -> l <> [] ->
  cy_outstanding (po_cycle p) = N.of_nat (length l) -> (forall q, q ∈ l.*1 -> (generation p, q) ∈ po_asked p) ->
  let p' := foldl poll_step p (answers (generation p) l) in
  let s := foldl (fun s qr => fold_of qr.1 s qr.2) (cy_pending (po_cycle p)) l in
  po_draws p' = po_draws p ++ [s] /\ po_state p' = s.
Proof.
  revert p. induction l as [|[q r] l IH]; intros p Hnd Ha Hne Ho Hin; [done|].
  simpl. inversion Hnd as [|? ? Hq Hnd']; subst.
  assert (mem (generation p, q) (po_asked p) = true) as -> by (apply mem_iff, Hin; by left). unfold answered. rewrite N.eqb_refl. simpl.
  destruct l as [|qr l]; [rewrite Ho; done|].
  destruct (cy_outstanding (po_cycle p) - 1 =? 0) eqn:E; [to_prop; simpl in Ho; lia|].
  apply (IH {| po_cycle := {| cy_generation := generation p; cy_outstanding := cy_outstanding (po_cycle p) - 1;
      cy_pending := fold_of q (cy_pending (po_cycle p)) r |}; po_state := po_state p;
      po_asked := remove_first (generation p, q) (po_asked p); po_draws := po_draws p |});
    cbn [po_cycle po_asked cy_generation cy_outstanding]; [done|by apply NoDup_remove_first|done|rewrite Ho; simpl; lia|].
  intros q' Hq'. rewrite elem_of_remove_first by done. split; [apply Hin; by right|]. intros [= ->]. done.
Qed.

(** The answer a list has for a question. *)
Definition reply_in (l : list (Question * Reply)) (q : Question) : option Reply := snd <$> find_b (fun qr => eqb qr.1 q) l.

Lemma reply_in_cons q r l q' : reply_in ((q, r) :: l) q' = if decide (q' = q) then Some r else reply_in l q'.
Proof.
  unfold reply_in, find_b. simpl. destruct (eqb q q') eqn:E; [apply eqb_eq in E|apply eqb_neq in E].
  - by rewrite decide_True.
  - by rewrite decide_False.
Qed.

Lemma reply_in_none l q : q ∉ l.*1 -> reply_in l q = None.
Proof.
  induction l as [|[q' r] l IH]; intros Hq; [done|]. rewrite reply_in_cons. rewrite fmap_cons, elem_of_cons in Hq.
  rewrite decide_False by naive_solver. apply IH. naive_solver.
Qed.

Lemma foldl_folded l s : NoDup l.*1 -> foldl (fun s qr => fold_of qr.1 s qr.2) s l = folded (reply_in l) s.
Proof.
  revert s. induction l as [|[q r] l IH]; intros s; [done|]. rewrite fmap_cons. intros [Hq Hnd]%NoDup_cons. simpl.
  rewrite IH by done. transitivity (folded (with_reply (reply_in l) q r) s).
  - rewrite folded_with by by apply reply_in_none. unfold folded, questions. cbn [foldl].
    pose proof (reply_in_none l q Hq) as Hn.
    destruct q; rewrite Hn; repeat match goal with |- context [fold_opt ?x ?y None] => change (fold_opt x y None) with x end;
      repeat (rewrite fold_opt_comm by done); reflexivity.
  - apply folded_ext. intros q'. rewrite reply_in_cons. done.
Qed.

(** A poll that is answered in time is drawn.  From any state, when the five
    questions of a poll are answered, in any order, before the next poll starts,
    those answers are drawn. *)
Theorem poll_in_time_drawn l as_ : ticks l < u64_max -> as_.*1 ≡ₚ questions ->
  let p := poll_run l in let p' := poll_run (l ++ Tick :: answers (ticks l + 1) as_) in
  po_draws p' = po_draws p ++ [po_state p'] /\ po_state p' = folded (reply_in as_) (po_state p).
Proof.
  intros Hl Hp p p'. destruct (poll_run_ok (l ++ [Tick])) as [replies H]; [rewrite ticks_snoc; simpl; lia|].
  assert (Hr : poll_run (l ++ [Tick]) = refresh p) by (unfold poll_run; rewrite foldl_snoc; done).
  assert (Hg : generation (refresh p) = ticks l + 1) by (rewrite <- Hr, (ok_gen _ _ _ H), ticks_snoc; done).
  assert (Hp' : p' = foldl poll_step (refresh p) (answers (generation (refresh p)) as_)).
  { rewrite Hg. unfold p', poll_run. rewrite foldl_app. reflexivity. }
  assert (Hnd : NoDup as_.*1) by (rewrite Hp; apply (bool_decide_unpack _); vm_compute; exact I).
  destruct (answers_drawn as_ (refresh p)) as [Hd Hs]; [done|rewrite <- Hr; apply H|intros ->; by apply Permutation_nil in Hp|..].
  - apply Permutation_length in Hp. rewrite length_fmap in Hp. by rewrite Hp.
  - intros q _. apply elem_of_app. right. apply asked_new.
  - rewrite Hp', Hs, Hd. split; [done|]. by apply foldl_folded.
Qed.

(** * Redrawing *)

(** What each part of the window is drawn from. *)
Definition same_slice (r : Region) (s s' : GuiState) : bool :=
  match r with
  | RPage Page.Dashboard => eqb (gs_status s) (gs_status s') && eqb (gs_devices s) (gs_devices s') &&
      eqb (gs_transfers s) (gs_transfers s') && eqb (gs_error s) (gs_error s')
  | RPage Page.Files => eqb (gs_transfers s) (gs_transfers s')
  | RPage Page.Clipboard => eqb (gs_clipboard s) (gs_clipboard s')
  | RPage Page.Notifications => eqb (gs_notifications s) (gs_notifications s')
  | RPage Page.Devices => eqb (gs_status s) (gs_status s') && eqb (gs_devices s) (gs_devices s')
  | RPage Page.Settings => eqb (gs_status s) (gs_status s')
  | RFooter => eqb (gs_status s) (gs_status s') && eqb (gs_error s) (gs_error s')
  end.

(** The screen shows a state, and no control asked for more. *)
Definition shows (d : Drawn) (s : GuiState) : Prop :=
  d = {| dw_any := true; dw_status := gs_status s; dw_transfers := gs_transfers s; dw_clipboard := gs_clipboard s;
         dw_notifications := gs_notifications s; dw_devices := gs_devices s; dw_error := gs_error s; dw_resync_devices := false |}.

Lemma pick {A} `{EqDecision A} (b : bool) (x y : A) : (if b || negb (eqb x y) then y else x) = y.
Proof. destruct b; [done|]. simpl. destruct (eqb x y) eqn:E; [by apply eqb_eq in E|done]. Qed.

Lemma render_current d s : shows (render d s).2 s.
Proof.
  unfold render. destruct (negb (anything _)) eqn:E; unfold shows; simpl.
  - unfold anything, changed_since in E. apply negb_true_iff in E. rewrite !orb_false_iff in E. simpl in E.
    destruct d as [any st tr cl no de er re]. simpl in *. destruct any; simpl in *; [|naive_solver]. rewrite !negb_false_iff in E.
    repeat match goal with
           | H : _ /\ _ |- _ => destruct H
           | H : _ || _ = false |- _ => apply orb_false_iff in H
           | H : negb _ = false |- _ => apply negb_false_iff in H
           | H : eqb _ _ = true |- _ => apply eqb_eq in H
           end. by subst.
  - rewrite !pick. f_equal. destruct (dw_resync_devices d); [by rewrite orb_true_r|by destruct (_ || _)].
Qed.

Lemma elem_of_if {A} (b : bool) (x y : A) : x ∈ (if b then [y] else []) <-> b = true /\ x = y.
Proof. destruct b; [rewrite list_elem_of_singleton|rewrite elem_of_nil]; naive_solver. Qed.

(** Which parts a change redraws. *)
Definition concerns (c : Changed) (r : Region) : bool :=
  match r with
  | RPage Page.Dashboard => ch_status c || ch_devices c || ch_transfers c || ch_error c
  | RPage Page.Files => ch_transfers c
  | RPage Page.Clipboard => ch_clipboard c
  | RPage Page.Notifications => ch_notifications c
  | RPage Page.Devices => ch_status c || ch_devices c
  | RPage Page.Settings => ch_status c
  | RFooter => ch_status c || ch_error c
  end.

Lemma render_regions d s r : r ∈ (render d s).1 <-> concerns (changed_since d s) r = true.
Proof.
  assert ((render d s).1 = redrawn (changed_since d s)) as ->.
  { unfold render. destruct (negb (anything _)) eqn:E; [|done]. unfold anything in E. unfold redrawn.
    apply negb_true_iff in E. rewrite !orb_false_iff in E. destruct E as [[[[[-> ->] ->] ->] ->] ->]. done. }
  unfold redrawn. rewrite !elem_of_app, !elem_of_if. destruct r as [[]|]; simpl; naive_solver.
Qed.

(** The screen keeps up, and only that.  When the screen shows one state and
    another is rendered, the parts of the window that are redrawn are exactly
    those drawn from something that changed, and the screen then shows the new
    state; a control that asked for its page again, or a change of the chosen
    device, redraws more, and leaves the screen showing it too. *)
Theorem render_exact d s0 s : shows d s0 ->
  (forall r, r ∈ (render d s).1 <-> same_slice r s0 s = false) /\ shows (render d s).2 s /\
  shows (render (resync_devices d) s).2 s /\ shows (redraw_now d s).2 s /\ RPage Page.Devices ∈ (render (resync_devices d) s).1.
Proof.
  intros Hd. unfold shows in Hd. subst d. split_and!; try apply render_current.
  - intros r. rewrite render_regions. unfold changed_since. simpl.
    destruct r as [[]|]; simpl; repeat match goal with |- context [eqb ?a ?b] => destruct (eqb a b) end; simpl; split; done.
  - apply render_regions. simpl. by rewrite orb_true_r.
Qed.

(** * Numbers that move on their own *)

(** A state with every age taken out. *)
Definition ageless_battery (b : BatteryReport) : BatteryReport := {|
  ba_percentage := ba_percentage b; ba_charging_state := ba_charging_state b; ba_age_secs := 0; ba_stale := ba_stale b |}.

Definition ageless_connection (c : ConnectionReport) : ConnectionReport := {|
  co_device_id := co_device_id c; co_device_name := co_device_name c; co_fingerprint_short := co_fingerprint_short c;
  co_negotiated_capabilities := co_negotiated_capabilities c; co_battery := ageless_battery <$> co_battery c;
  co_session_id := co_session_id c; co_state := co_state c; co_silent_secs := 0 |}.

Definition ageless_status (s : StatusReport) : StatusReport := {|
  sr_device_name := sr_device_name s; sr_device_id := sr_device_id s; sr_fingerprint := sr_fingerprint s;
  sr_fingerprint_short := sr_fingerprint_short s; sr_key_backing := sr_key_backing s; sr_listen_port := sr_listen_port s;
  sr_listen_families := sr_listen_families s; sr_protocol_version_min := sr_protocol_version_min s;
  sr_protocol_version_max := sr_protocol_version_max s; sr_capabilities := sr_capabilities s;
  sr_paired_devices := sr_paired_devices s; sr_connections := ageless_connection <$> sr_connections s;
  sr_devices := without_ages <$> sr_devices s; sr_pairing_active := sr_pairing_active s; sr_migrated_from := sr_migrated_from s;
  sr_legacy_partial_files := sr_legacy_partial_files s |}.

Definition ageless (s : GuiState) : GuiState := {|
  gs_status := ageless_status <$> gs_status s; gs_devices := (fun l : list DeviceReport => without_ages <$> l) <$> gs_devices s; gs_transfers := gs_transfers s;
  gs_clipboard := clipboard_key s; gs_notifications := gs_notifications s; gs_error := gs_error s |}.

Section Ages.
Context `{UC : UnicodeCase}.

Lemma devices_ageless s : devices_of (ageless s) = without_ages <$> devices_of s.
Proof. unfold devices_of. simpl. by destruct (gs_devices s), (gs_status s). Qed.

Lemma without_ages_idem d : without_ages (without_ages d) = without_ages d.
Proof. by destruct d as [? ? ? ? ? ? ? ? ? ? ? ? ? [[]|]]. Qed.

Lemma only_map {A B} (f : A -> B) l : only (f <$> l) = f <$> only l.
Proof. by destruct l as [|? [|? ?]]. Qed.

Lemma filter_fmap_same {A B} (f : A -> B) (P : A -> Prop) (Q : B -> Prop) `{forall x, Decision (P x), forall x, Decision (Q x)} (l : list A) :
  (forall x, Q (f x) <-> P x) -> filter Q (f <$> l) = f <$> filter P l.
Proof.
  intros Hs. induction l as [|x l IH]; [done|]. rewrite fmap_cons, !filter_cons, IH.
  destruct (decide (Q (f x))) as [Hq|Hq], (decide (P x)) as [Hp|Hp]; try done; by destruct (Hs x) as [H1 H2]; try destruct (Hq (H2 Hp)); try destruct (Hp (H1 Hq)).
Qed.

Lemma negotiated_ageless st d : negotiated_with (ageless_status <$> st) (without_ages d) = negotiated_with st d.
Proof.
  unfold negotiated_with, connection_for. destruct st as [s|]; [|done]. simpl.
  match goal with |- context [filter ?P (ageless_connection <$> ?l)] =>
    assert (filter P (ageless_connection <$> l) = ageless_connection <$> filter P l) as -> by (apply filter_fmap_same; done) end.
  rewrite only_map. by destruct (only _).
Qed.

Lemma card_ageless st chosen d : card_of (ageless_status <$> st) chosen (without_ages d) = card_of st chosen d.
Proof.
  unfold card_of, capability_of, battery_of. rewrite negotiated_ageless. simpl. by destruct (dr_battery d).
Qed.

Lemma peer_cards_ageless s chosen : peer_cards (ageless s) chosen = peer_cards s chosen.
Proof.
  unfold peer_cards. rewrite devices_ageless. f_equal.
  assert (filter (fun d => shown d = true) (without_ages <$> devices_of s) = without_ages <$> filter (fun d => shown d = true) (devices_of s))
    as -> by (apply filter_fmap_same; done).
  rewrite <- (list_fmap_compose without_ages). apply list_fmap_ext. intros i d _. apply card_ageless.
Qed.

Lemma health_ageless s : health_of (ageless s) = health_of s.
Proof. unfold health_of. simpl. by destruct (gs_error s), (gs_status s). Qed.

Lemma dashboard_ageless s chosen : DashboardKey_of (ageless s) chosen = DashboardKey_of s chosen.
Proof.
  unfold DashboardKey_of, PanelModel_build, dashboard_devices. simpl. rewrite peer_cards_ageless, health_ageless, devices_ageless. f_equal.
  assert (filter (fun d => dr_revoked d = false) (without_ages <$> devices_of s) =
          without_ages <$> filter (fun d => dr_revoked d = false) (devices_of s)) as -> by (apply filter_fmap_same; done).
  rewrite <- list_fmap_compose. apply list_fmap_ext. intros i d _. apply without_ages_idem.
Qed.

(** An age is not a reason to rebuild.  Two polls that differ in nothing but
    ages, however they differ in them, give every page the same key, so that
    drawing the second after the first writes values and replaces no widget. *)
Theorem ages_rebuild_nothing s s' chosen : ageless s = ageless s' ->
  plan (Some (layout (devices_of s))) (layout (devices_of s')) = Update /\
  plan (Some (DashboardKey_of s chosen)) (DashboardKey_of s' chosen) = Update /\
  plan (Some (clipboard_key s)) (clipboard_key s') = Update /\
  plan (Some (SettingsKey_of s)) (SettingsKey_of s') = Update /\
  plan (Some (PageIdentity_of s)) (PageIdentity_of s') = Update.
Proof.
  intros Ha. unfold plan.
  assert (forall u : GuiState, layout (devices_of u) = layout (devices_of (ageless u)) /\ clipboard_key u = gs_clipboard (ageless u) /\
    SettingsKey_of u = SettingsKey_of (ageless u) /\ PageIdentity_of u = PageIdentity_of (ageless u)) as Hk.
  { intros u. split_and!; [|done|..].
    - rewrite devices_ageless. unfold layout. rewrite <- list_fmap_compose. done.
    - unfold SettingsKey_of. simpl. destruct (gs_status u); [|done]. simpl. unfold len. by rewrite length_fmap.
    - unfold PageIdentity_of, reachable. simpl. by destruct (gs_status u), (gs_error u). }
  destruct (Hk s) as (-> & -> & -> & ->), (Hk s') as (-> & -> & -> & ->).
  rewrite <- (dashboard_ageless s), <- (dashboard_ageless s'), Ha. split_and!; by rewrite decide_True.
Qed.
End Ages.

(** * Runs *)

Definition down : Reply := Err (lit "no daemon").
Definition five (g : N) : list PollEvent := answers g (map (fun q => (q, down)) questions).

Lemma polls_drawn_whole_witness : ticks (Tick :: five 1) <= u64_max /\
  po_state (poll_run (Tick :: five 1)) = default GuiState_default (last (po_draws (poll_run (Tick :: five 1)))) /\
  gs_error (po_state (poll_run (Tick :: five 1))) = Some (lit "no daemon").
Proof.
  assert (ticks (Tick :: five 1) <= u64_max) as Ht by (vm_compute; discriminate). split; [exact Ht|]. split; [|reflexivity].
  apply (polls_drawn_whole (Tick :: five 1) Ht).
Defined.

Lemma poll_in_time_drawn_witness :
  po_draws (poll_run ([Tick] ++ Tick :: answers 2 (map (fun q => (q, down)) questions))) =
  po_draws (poll_run [Tick]) ++ [po_state (poll_run ([Tick] ++ Tick :: answers 2 (map (fun q => (q, down)) questions)))].
Proof.
  apply (poll_in_time_drawn [Tick] (map (fun q => (q, down)) questions)); [vm_compute; reflexivity|reflexivity].
Defined.

Lemma render_exact_witness : shows (render Drawn_default GuiState_default).2 GuiState_default /\
  (forall r, r ∈ (render (render Drawn_default GuiState_default).2 GuiState_default).1 <-> same_slice r GuiState_default GuiState_default = false).
Proof.
  assert (shows (render Drawn_default GuiState_default).2 GuiState_default) as Hs by reflexivity. split; [exact Hs|].
  apply (render_exact (render Drawn_default GuiState_default).2 GuiState_default GuiState_default). exact Hs.
Defined.

(** A daemon that answers everything, but only after the next tick, is never
    shown: each poll is abandoned for the next before it is whole. *)
Example slow_daemon_never_drawn :
  let p := poll_run (Tick :: flat_map (fun g => Tick :: five g) [1; 2; 3; 4]) in
  po_draws p = [] /\ po_state p = GuiState_default.
Proof. vm_compute. done. Qed.

(** The arguments of a launch, and the names a lost control falls back to. *)
Example launches :
  map (fun l => Launch_parse (lit "pliwee-gui" :: l))
    [[]; [lit "--quick-panel"]; [lit "--page"; lit "peers"; lit "--unknown"]; [lit "--page=files"]; [lit "--page"]; [lit "--page"; lit "no"]]
  = [LaunchSettings None; LaunchPanel; LaunchSettings (Some Page.Devices); LaunchSettings (Some Page.Files); LaunchSettings None; LaunchSettings None] /\
  fallbacks (lit "ab/grant/files.v1") = [lit "ab/grant/files.v1"; lit "ab/grant"; lit "ab"].
Proof. vm_compute. done. Qed.
