(* ===== verification/Views.v ===== *)
(** The pages of the settings window.

    [gui/src/views/devices.rs], [clipboard.rs] and [notifications.rs]: what each
    page says of a device, which controls it offers, the request a control sends,
    and what a switch shows while its request is on its way.  A page is the list
    of the widgets a person can read a state from or act on; layout, icons, counts
    and the sentences that explain a state are left out. *)
From S2P Require Import Prelude Control Utf8 Qr Selection Panel Gui.

(** * Widgets *)

Module Status.
Inductive t :=
| Connected | Available | Connecting | Transferring | Success | Stale | Warning | Error | Disconnected | Revoked.

#[global] Instance eq_dec : EqDecision t.
Proof. solve_decision. Defined.

Definition label (s : t) : str :=
  match s with
  | Connected => lit "Connected" | Available => lit "Available" | Connecting => lit "Connecting"
  | Transferring => lit "Transferring" | Success => lit "Done" | Stale => lit "Not responding"
  | Warning => lit "Needs attention" | Error => lit "Failed" | Disconnected => lit "Disconnected" | Revoked => lit "Revoked"
  end.

Definition from_device_state (s : DeviceState.t) : t :=
  match s with
  | DeviceState.Connected => Connected
  | DeviceState.Stale => Stale
  | DeviceState.Disconnected => Available
  | DeviceState.Revoked => Revoked
  end.
End Status.

(** [WSwitch] is told the position it is moved to; [WChoice] the number of the row
    that is selected, and may have a row selected already; [WButton] sends its
    request, after a confirmation if [asks]. *)
Inductive Widget :=
| WText (text : str)
| WBadge (s : Status.t)
| WSwitch (label : str) (active sensitive : bool) (moved : bool -> Request.t)
| WChoice (rows : list str) (selected : option nat) (picked : nat -> option Request.t)
| WButton (label : str) (sensitive asks : bool) (pressed : Request.t).

(** * The devices page *)

(** Identifier and title; the description and the icon are left out. *)
Definition CAPABILITIES : list (str * str) :=
  [(CLIPBOARD, lit "Clipboard"); (FILES, lit "Files"); (BATTERY, lit "Battery")].

(** [Control] *)
Inductive DeviceControl :=
| CGrant (device_id capability : str) (granted : bool)
| CRevoke (device_id name : str)
| CRemoveFromList (fingerprint name : str)
| CRemoveAllRevoked (fingerprints : list str).

#[export] Instance DeviceControl_eq_dec : EqDecision DeviceControl.
Proof. solve_decision. Defined.

Definition confirmed (c : DeviceControl) : bool := match c with CGrant _ _ _ => false | _ => true end.

Definition control_request (c : DeviceControl) (wanted : bool) : Request.t :=
  match c with
  | CGrant device_id capability _ => Request.Grant device_id capability wanted
  | CRevoke device_id _ => Request.Unpair device_id
  | CRemoveFromList fingerprint _ => Request.HideRevokedDevice fingerprint
  | CRemoveAllRevoked _ => Request.HideAllRevokedDevices
  end.

Definition card_controls (d : DeviceReport) : list DeviceControl :=
  if dr_revoked d then [CRemoveFromList (dr_fingerprint d) (dr_device_name d)]
  else
    ((fun c => CGrant (dr_device_id d) c.1 (mem c.1 (dr_granted_capabilities d))) <$> CAPABILITIES) ++
    [CRevoke (dr_device_id d) (dr_device_name d)].

Definition page_controls (devices : list DeviceReport) : list DeviceControl :=
  let fingerprints := dr_fingerprint <$> filter (fun d => dr_revoked d = true) devices in
  if 1 <? len fingerprints then [CRemoveAllRevoked fingerprints] else [].

Definition trust_label (d : DeviceReport) : str := if dr_revoked d then lit "Revoked" else lit "Trusted".

Definition capability_summary (d : DeviceReport) : str :=
  if eqb (dr_granted_capabilities d) [] then lit "No capabilities granted"
  else
    let name id :=
      if eqb id CLIPBOARD then lit "Clipboard" else if eqb id FILES then lit "Files"
      else if eqb id BATTERY then lit "Battery" else if eqb id NOTIFICATIONS then lit "Notifications" else id in
    lit "Granted: " ++ join (lit ", ") (name <$> dr_granted_capabilities d).

Record CardValues := { cv_status : Status.t; cv_facts : str; cv_connection : str; cv_grants : list (str * bool) }.

Definition card_values (d : DeviceReport) : CardValues := {|
  cv_status := Status.from_device_state (dr_state d);
  cv_facts := join MIDDOT
    ([trust_label d; lit "Platform: " ++ dr_platform d] ++
     match dr_silent_secs d with Some n => [lit "Silent for " ++ u64_to_string n ++ lit "s"] | None => [] end ++
     match dr_last_seen_secs_ago d with Some n => [lit "Last session ended " ++ u64_to_string n ++ lit "s ago"] | None => [] end ++
     [capability_summary d]);
  cv_connection := (if dr_paired d then lit "Paired" else lit "Not paired") ++ MIDDOT ++
                   (if dr_connected d then lit "Connected now" else lit "Not connected");
  cv_grants := (fun c => (c.1, mem c.1 (dr_granted_capabilities d))) <$> CAPABILITIES |}.

Definition grant_accessible_label (title device_name : str) : str := title ++ lit " for " ++ device_name.

Definition title_of (capability : str) : str := default [] (snd <$> find_b (fun c => eqb c.1 capability) CAPABILITIES).

(** The widget of a control, on the card of a device or at the top. *)
Definition control_widget (name : str) (c : DeviceControl) : Widget :=
  match c with
  | CGrant _ capability granted =>
      WSwitch (grant_accessible_label (title_of capability) name) granted true (control_request c)
  | CRevoke _ _ => WButton (lit "Revoke this device") true true (control_request c false)
  | CRemoveFromList _ _ => WButton (lit "Remove from list") true true (control_request c false)
  | CRemoveAllRevoked _ => WButton (lit "Remove all revoked devices") true true (control_request c false)
  end.

(** [device_card] with its [details] *)
Definition device_card (d : DeviceReport) : list Widget :=
  let v := card_values d in
  [WText (dr_device_name d); WText (dr_fingerprint_short d); WBadge (cv_status v); WText (cv_facts v);
   WText (dr_fingerprint d); WText (lit "Device id " ++ dr_device_id d); WText (cv_connection v)] ++
  (control_widget (dr_device_name d) <$> card_controls d).

Definition devices_page (s : GuiState) : list Widget :=
  let devices := devices_of s in
  (control_widget [] <$> page_controls devices) ++ (devices ≫= device_card).

(** ** Confirmations *)

Definition CANCEL : str := lit "cancel".

(** The answer that goes ahead; every other one, and closing the dialog, does not. *)
Definition dialog_response (c : DeviceControl) : str :=
  match c with CRevoke _ _ => lit "revoke" | _ => lit "remove" end.

Definition dialog_request (c : DeviceControl) (response : str) : option Request.t :=
  if eqb response (dialog_response c) then Some (control_request c false) else None.

Definition is_refusal (r : Reply) : bool := match r with Ok (Response.Error _) => true | _ => false end.

Section Choice.
Context `{JT : JsonText}.

(** What the answer to a confirmed request does to the chosen device. *)
Definition after_reply (c : DeviceControl) (r : Reply) (o : WriteOutcome) (s : Selection) : Selection :=
  if is_refusal r then s
  else match c with
       | CRemoveFromList fp _ => (forget_if s fp o).2
       | CRemoveAllRevoked fps => foldl (fun s fp => (forget_if s fp o).2) s fps
       | CGrant _ _ _ | CRevoke _ _ => s
       end.
End Choice.

(** * The clipboard page *)

Module BackendSummary.
Inductive t := Ready | Unavailable.
Definition of_report (r : ClipboardStatusReport) : t := if cs_backend_available r then Ready else Unavailable.
Definition title (s : t) : str := match s with Ready => lit "Clipboard ready" | Unavailable => lit "Clipboard unavailable" end.
End BackendSummary.

Module SensitiveState.
Inductive t := Available | NotMarkable | NoClipboard.
Definition of_report (r : ClipboardStatusReport) : t :=
  if negb (cs_backend_available r) then NoClipboard else if cs_sensitive_available r then Available else NotMarkable.
Definition title (s : t) : str :=
  match s with Available => lit "Sensitive clipboard: available" | NotMarkable | NoClipboard => lit "Sensitive clipboard: unavailable" end.
Definition needs_attention (s : t) : bool := match s with NotMarkable => true | _ => false end.
End SensitiveState.

Inductive SendBlocked := SendingOff | NotLinked.

Definition send_blocked_reason (p : ClipboardPeerReport) : option SendBlocked :=
  if negb (cp_allow_send p) then Some SendingOff else if negb (cp_connected p) then Some NotLinked else None.

Definition pending_caption (c : PendingClipReport) : str :=
  u64_to_string (pr_bytes c) ++ lit " bytes" ++ MIDDOT ++ lit "sha256:" ++ pr_hash_prefix c ++ MIDDOT ++
  u64_to_string (pr_age_secs c) ++ lit "s ago" ++ (if pr_sensitive c then MIDDOT ++ lit "marked sensitive" else []).

Definition clipboard_switch (label : string) (active sensitive : bool) (device : str) (flag : ClipboardFlag) : Widget :=
  WSwitch (lit label) active sensitive (Request.ClipboardPolicy device flag).

(** [peer_card] *)
Definition clipboard_card (watch_available : bool) (p : ClipboardPeerReport) : list Widget :=
  [WText (cp_device_name p); WText (cp_fingerprint_short p);
   WBadge (if cp_revoked p then Status.Revoked else if cp_connected p then Status.Connected else Status.Available)] ++
  (if negb (cp_granted p) then []
   else
     let device := cp_device_id p in
     [clipboard_switch "Allow receiving" (cp_allow_receive p) true device FlagReceive;
      clipboard_switch "Apply automatically" (cp_auto_receive p) (cp_allow_receive p) device FlagAutoReceive;
      clipboard_switch "Allow sending" (cp_allow_send p) true device FlagSend;
      clipboard_switch "Send automatically" (cp_auto_send p) (cp_allow_send p && watch_available) device FlagAutoSend;
      WButton (lit "Send clipboard") (bool_decide (send_blocked_reason p = None)) false (Request.ClipboardSend device false)]).

(** [str::replace] of a blank by nothing *)
Definition without_blanks (s : str) : str := filter (fun c => c <> 32) s.

Definition pending_card (c : PendingClipReport) : list Widget :=
  [WText (lit "From " ++ pr_device_name c); WText (pending_caption c);
   WButton (lit "Copy") true false (Request.ClipboardApply (without_blanks (pr_fingerprint_short c)))].

Definition clipboard_page (s : GuiState) : list Widget :=
  match gs_clipboard s with
  | None => []
  | Some r =>
      if negb (cs_enabled r) then []
      else
        [WText (BackendSummary.title (BackendSummary.of_report r));
         WBadge (if cs_watch_available r then Status.Connected else Status.Warning);
         WText (SensitiveState.title (SensitiveState.of_report r))] ++
        (cs_peers r ≫= clipboard_card (cs_watch_available r)) ++ (cs_pending r ≫= pending_card)
  end.

(** * The notifications page *)

Module Readiness.
Inductive t := Revoked | NoBackend | NotGranted | Paused | NotConnected | PeerNotSourcing | Ready.

#[global] Instance eq_dec : EqDecision t.
Proof. solve_decision. Defined.

Definition of_report (p : NotificationPeerReport) (available : bool) : t :=
  if np_revoked p then Revoked
  else if negb available then NoBackend
  else if negb (np_granted p) then NotGranted
  else if negb (np_allow_mirror p) then Paused
  else if negb (np_connected p) then NotConnected
  else if negb (np_peer_is_source p) then PeerNotSourcing
  else Ready.

Definition label (r : t) : str :=
  match r with
  | Revoked => lit "Revoked" | NoBackend => lit "Unavailable" | NotGranted => lit "Off" | Paused => lit "Paused"
  | NotConnected => lit "Not connected" | PeerNotSourcing => lit "Device is not sending" | Ready => lit "Ready"
  end.

Definition status (r : t) : Status.t :=
  match r with
  | Ready => Status.Connected
  | Revoked => Status.Revoked
  | NotGranted | Paused => Status.Disconnected
  | NotConnected => Status.Available
  | NoBackend | PeerNotSourcing => Status.Warning
  end.

Definition is_ready (r : t) : bool := match r with Ready => true | _ => false end.
End Readiness.

Module DismissReadiness.
Inductive t := Off | NoReporting | NotConnected | PeerCannotDismiss | Active.

#[global] Instance eq_dec : EqDecision t.
Proof. solve_decision. Defined.

Definition of_report (p : NotificationPeerReport) : t :=
  if negb (np_allow_dismiss_sync p) || negb (np_allow_mirror p) then Off
  else if negb (np_local_reports_dismissals p) then NoReporting
  else if negb (np_connected p) then NotConnected
  else if negb (np_peer_is_dismiss_target p) then PeerCannotDismiss
  else Active.

Definition needs_attention (r : t) : bool := match r with NoReporting | PeerCannotDismiss => true | _ => false end.
End DismissReadiness.

(** Value and title. *)
Definition LOCK_POLICIES : list (str * str) :=
  [(lit "full", lit "Show full content"); (lit "app-only", lit "Show app only"); (lit "suppress", lit "Do not show")].

(** [Iterator::position] *)
Fixpoint position {A} (p : A -> bool) (l : list A) : option nat :=
  match l with [] => None | x :: l' => if p x then Some O else S <$> position p l' end.

(** [receive_switch] *)
Definition receive_switch (p : NotificationPeerReport) : Widget :=
  WSwitch (lit "Receive notifications from this device") (np_granted p) true
    (Request.Grant (np_device_id p) (lit "notifications.v1")).

(** [policy_switch] *)
Definition policy_switch (label : string) (active : bool) (device : str) (setting : NotificationSetting) : Widget :=
  WSwitch (lit label) active true (fun wanted =>
    Request.NotificationsPolicy device (match setting with SetMirror _ => SetMirror wanted | other => other end)).

(** [lock_choices] *)
Definition lock_choices (p : NotificationPeerReport) : Widget :=
  WChoice (snd <$> LOCK_POLICIES) (position (fun l => eqb l.1 (np_when_locked p)) LOCK_POLICIES)
    (fun row => (fun l => Request.NotificationsPolicy (np_device_id p) (SetWhenLocked l.1)) <$> LOCK_POLICIES !! row).

(** [dismiss_sync_row] *)
Definition dismiss_sync_row (p : NotificationPeerReport) : list Widget :=
  [WSwitch (lit "Let this computer dismiss notifications on the device") (np_allow_dismiss_sync p) true
     (fun wanted => Request.NotificationsPolicy (np_device_id p) (SetDismissSync wanted))] ++
  (if DismissReadiness.needs_attention (DismissReadiness.of_report p) then [WBadge Status.Warning] else []).

(** [peer_card] *)
Definition notification_card (available : bool) (p : NotificationPeerReport) : list Widget :=
  [WText (np_device_name p); WText (np_fingerprint_short p); WBadge (Readiness.status (Readiness.of_report p available))] ++
  (if np_revoked p then []
   else receive_switch p ::
     (if negb (np_granted p) then []
      else
        policy_switch "Show notifications" (np_allow_mirror p) (np_device_id p) (SetMirror (negb (np_allow_mirror p))) ::
        lock_choices p :: dismiss_sync_row p)).

Definition notifications_page (s : GuiState) : list Widget :=
  match gs_notifications s with
  | None => []
  | Some r =>
      if negb (ns_enabled r) then []
      else
        [WBadge (if ns_available r then Status.Connected else Status.Warning);
         WText (if ns_locked r then lit "This computer is locked." else lit "This computer is unlocked.")] ++
        (ns_peers r ≫= notification_card (ns_available r))
  end.

(** * Switches while their requests are out *)

(** One switch of the devices page: whose it is, the capability, its position, and
    whether a request of its own is with the daemon. *)
Record GrantSwitch := { gw_fingerprint : str; gw_capability : str; gw_active : bool; gw_pending : bool }.

(** The devices page in the window: what was drawn, the layout it was built for,
    how often it was built, and its switches. *)
Record DevicesView := {
  dv_drawn : Drawn;
  dv_key : option (list CardLayout);
  dv_build : N;
  dv_switches : list GrantSwitch
}.

Definition DevicesView_new : DevicesView :=
  {| dv_drawn := Drawn_default; dv_key := None; dv_build := 0; dv_switches := [] |}.

(** [find] *)
Definition find_device (devices : list DeviceReport) (fingerprint : str) : option DeviceReport :=
  find_b (fun d => eqb (dr_fingerprint d) fingerprint) devices.

(** [grant_row]: a new switch *)
Definition switches_of (d : DeviceReport) : list GrantSwitch :=
  omap (fun c => match c with
                 | CGrant _ capability granted =>
                     Some {| gw_fingerprint := dr_fingerprint d; gw_capability := capability; gw_active := granted; gw_pending := false |}
                 | _ => None
                 end) (card_controls d).

(** [grant_row]: the live update *)
Definition follow (devices : list DeviceReport) (w : GrantSwitch) : GrantSwitch :=
  if gw_pending w then w
  else match find_device devices (gw_fingerprint w) with
       | None => w
       | Some d => {| gw_fingerprint := gw_fingerprint w; gw_capability := gw_capability w;
                      gw_active := mem (gw_capability w) (dr_granted_capabilities d); gw_pending := false |}
       end.

(** A draw of the window, as far as the page goes. *)
Definition draw_devices (v : DevicesView) (s : GuiState) : DevicesView :=
  let '(regions, drawn) := render (dv_drawn v) s in
  if negb (mem (RPage Page.Devices) regions) then
    {| dv_drawn := drawn; dv_key := dv_key v; dv_build := dv_build v; dv_switches := dv_switches v |}
  else
    let devices := devices_of s in
    let '(plan, key) := draw (dv_key v) (layout devices) in
    {| dv_drawn := drawn; dv_key := key;
       dv_build := match plan with Rebuild => dv_build v + 1 | Update => dv_build v end;
       dv_switches := follow devices <$> match plan with Rebuild => devices ≫= switches_of | Update => dv_switches v end |}.

Definition with_switches (v : DevicesView) (l : list GrantSwitch) : DevicesView :=
  {| dv_drawn := dv_drawn v; dv_key := dv_key v; dv_build := dv_build v; dv_switches := l |}.

(** [grant_row]: a person moves the switch with this number. *)
Definition move_switch (v : DevicesView) (i : nat) (wanted : bool) : DevicesView :=
  with_switches v (alter (fun w => {| gw_fingerprint := gw_fingerprint w; gw_capability := gw_capability w; gw_active := wanted; gw_pending := true |})
                     i (dv_switches v)).

(** [grant_row]: the daemon answered, whatever it answered.  The answer finds its
    own switch, which is on the page no more if that was built again. *)
Definition switch_answered (v : DevicesView) (build : N) (i : nat) : DevicesView :=
  let v := if dv_build v =? build
           then with_switches v (alter (fun w => {| gw_fingerprint := gw_fingerprint w; gw_capability := gw_capability w; gw_active := gw_active w;
                                                    gw_pending := false |}) i (dv_switches v))
           else v in
  {| dv_drawn := resync_devices (dv_drawn v); dv_key := dv_key v; dv_build := dv_build v; dv_switches := dv_switches v |}.

Inductive ViewEvent := VDraw (s : GuiState) | VMove (i : nat) (wanted : bool) | VAnswer (build : N) (i : nat).

Definition view_step (v : DevicesView) (e : ViewEvent) : DevicesView :=
  match e with
  | VDraw s => draw_devices v s
  | VMove i wanted => move_switch v i wanted
  | VAnswer build i => switch_answered v build i
  end.

Definition view_run (l : list ViewEvent) : DevicesView := foldl view_step DevicesView_new l.

(** The switches of the notifications page, or of the clipboard page, with the
    slice and the key they were built for.  The answer to a request only asks for
    another poll. *)
Record PlainView := { pv_drawn : Drawn; pv_key : option (option ClipboardStatusReport); pv_widgets : list Widget }.

Definition PlainView_new : PlainView := {| pv_drawn := Drawn_default; pv_key := None; pv_widgets := [] |}.

Definition draw_notifications (v : PlainView) (s : GuiState) : PlainView :=
  let '(regions, drawn) := render (pv_drawn v) s in
  {| pv_drawn := drawn; pv_key := pv_key v;
     pv_widgets := if mem (RPage Page.Notifications) regions then notifications_page s else pv_widgets v |}.

(** The live values of the clipboard page: the texts (with the key unchanged, only
    the captions of the clips that wait can differ). *)
Definition live_text (shown fresh : Widget) : Widget := match fresh with WText t => WText t | _ => shown end.

Definition draw_clipboard (v : PlainView) (s : GuiState) : PlainView :=
  let '(regions, drawn) := render (pv_drawn v) s in
  if negb (mem (RPage Page.Clipboard) regions) then {| pv_drawn := drawn; pv_key := pv_key v; pv_widgets := pv_widgets v |}
  else
    let '(plan, key) := draw (pv_key v) (clipboard_key s) in
    {| pv_drawn := drawn; pv_key := key; pv_widgets := 
       match plan with Rebuild => clipboard_page s | Update => zip_with live_text (pv_widgets v) (clipboard_page s) end |}.

(** A person moves a switch: it shows where, and its request goes out. *)
Definition move_plain (v : PlainView) (i : nat) (wanted : bool) : PlainView * option Request.t :=
  match pv_widgets v !! i with
  | Some (WSwitch label _ true moved) =>
      ({| pv_drawn := pv_drawn v; pv_key := pv_key v; pv_widgets := <[i := WSwitch label wanted true moved]> (pv_widgets v) |}, Some (moved wanted))
  | _ => (v, None)
  end.
