(* ===== verification/ViewsFacts.v ===== *)
(** Facts about the pages of the settings window.

    A switch of the devices page ends up where the daemon's answer puts it,
    however its moves, the answers to them and the polls interleave; the two
    other pages have no such rule, and a switch there can keep a position the
    daemon refused. *)
From S2P Require Import Prelude External Ids Qr Control Utf8 Selection Panel Gui GuiFacts Views.

(** * The devices page *)

(** The devices the page was last drawn from. *)
Definition drawn_devices (d : Drawn) : list DeviceReport :=
  match dw_devices d with
  | Some l => l
  | None => match dw_status d with Some s => sr_devices s | None => [] end
  end.

(** Whose switch it is, and for what. *)
Definition switch_id (w : GrantSwitch) : str * str := (gw_fingerprint w, gw_capability w).

(** The switches a device has by its layout. *)
Definition layout_ids (c : CardLayout) : list (str * str) :=
  if cl_revoked c then [] else (fun k => (cl_fingerprint c, k.1)) <$> CAPABILITIES.

Definition grant_shown (devices : list DeviceReport) (w : GrantSwitch) : Prop :=
  exists d, d ∈ devices /\ dr_fingerprint d = gw_fingerprint w /\ gw_active w = mem (gw_capability w) (dr_granted_capabilities d).

Record view_ok (v : DevicesView) : Prop := {
  vo_undrawn : dw_any (dv_drawn v) = false -> dv_key v = None /\ dv_switches v = [];
  vo_key : dw_any (dv_drawn v) = true -> dv_key v = Some (layout (drawn_devices (dv_drawn v)));
  vo_ids : dw_any (dv_drawn v) = true -> switch_id <$> dv_switches v = layout (drawn_devices (dv_drawn v)) ≫= layout_ids;
  vo_shown : dw_any (dv_drawn v) = true -> dw_resync_devices (dv_drawn v) = false ->
             forall w, w ∈ dv_switches v -> gw_pending w = false -> grant_shown (drawn_devices (dv_drawn v)) w
}.

Lemma switches_of_spec d : switches_of d =
  if dr_revoked d then []
  else (fun k => {| gw_fingerprint := dr_fingerprint d; gw_capability := k.1; gw_active := mem k.1 (dr_granted_capabilities d); gw_pending := false |})
         <$> CAPABILITIES.
Proof. unfold switches_of, card_controls. by destruct (dr_revoked d). Qed.

Lemma switches_of_ids devices : switch_id <$> (devices ≫= switches_of) = layout devices ≫= layout_ids.
Proof.
  induction devices as [|d l IH]; [done|]. cbn [mbind list_bind layout fmap list_fmap]. rewrite fmap_app. f_equal; [|exact IH].
  rewrite switches_of_spec. unfold layout_ids. simpl. by destruct (dr_revoked d).
Qed.

Lemma switches_of_fresh devices w : w ∈ devices ≫= switches_of -> gw_pending w = false.
Proof.
  intros (d & Hw & _)%list_elem_of_bind. rewrite switches_of_spec in Hw. destruct (dr_revoked d); [by apply elem_of_nil in Hw|].
  by apply list_elem_of_fmap in Hw as (k & -> & _).
Qed.

Lemma follow_id devices w : switch_id (follow devices w) = switch_id w.
Proof. unfold follow. destruct (gw_pending w); [done|]. by destruct (find_device _ _). Qed.

Lemma follow_pending devices w : gw_pending (follow devices w) = gw_pending w.
Proof. unfold follow. destruct (gw_pending w) eqn:E; [done|]. by destruct (find_device _ _). Qed.

(** A switch whose device is on the page follows it. *)
Lemma follow_shown devices w : switch_id w ∈ layout devices ≫= layout_ids -> gw_pending w = false -> grant_shown devices (follow devices w).
Proof.
  intros (c & Hin & (d & -> & Hd)%list_elem_of_fmap)%list_elem_of_bind Hp. unfold follow. rewrite Hp. unfold layout_ids in Hin. cbn [cl_revoked cl_fingerprint] in Hin.
  destruct (dr_revoked d); [by apply elem_of_nil in Hin|]. apply list_elem_of_fmap in Hin as (k & Hk & _). injection Hk as Hf _.
  destruct (find_device devices (gw_fingerprint w)) as [d'|] eqn:Hfind.
  - unfold find_device in Hfind. apply find_b_some in Hfind as [Hd' Heq%eqb_eq]. exists d'. done.
  - unfold find_device in Hfind. pose proof (find_b_none _ _ _ Hfind Hd) as Hn. simpl in Hn. rewrite <- Hf, eqb_refl in Hn. done.
Qed.

Lemma render_devices d s :
  dw_any (render d s).2 = true /\ dw_resync_devices (render d s).2 = false /\ drawn_devices (render d s).2 = devices_of s.
Proof. pose proof (render_current d s) as H. unfold shows in H. by rewrite H. Qed.

(** Not drawn again: nothing the page shows has changed. *)
Lemma devices_untouched d s : RPage Page.Devices ∉ (render d s).1 ->
  dw_any d = true /\ dw_resync_devices d = false /\ drawn_devices d = devices_of s.
Proof.
  rewrite render_regions. unfold concerns, changed_since. simpl. intros H%not_true_is_false.
  destruct (dw_any d); [|done]. destruct (dw_resync_devices d); [by rewrite orb_true_r in H|]. simpl in H.
  apply orb_false_iff in H as [H1%negb_false_iff%eqb_eq H2%negb_false_iff%eqb_eq].
  unfold drawn_devices, devices_of. by rewrite H1, H2.
Qed.

(** Bringing the switches up to date, new ones or not. *)
Lemma follow_all devices l : switch_id <$> l = layout devices ≫= layout_ids ->
  switch_id <$> (follow devices <$> l) = layout devices ≫= layout_ids /\
  forall w, w ∈ follow devices <$> l -> gw_pending w = false -> grant_shown devices w.
Proof.
  intros Hids. split.
  - rewrite <- Hids, <- list_fmap_compose. apply list_fmap_ext. intros i w _. apply follow_id.
  - intros w (w0 & -> & Hw0)%list_elem_of_fmap Hpend. rewrite follow_pending in Hpend. apply follow_shown; [|done].
    rewrite <- Hids. by apply list_elem_of_fmap_2.
Qed.

Lemma draw_devices_ok v s : view_ok v -> view_ok (draw_devices v s).
Proof.
  intros [Hu Hk Hi Hs]. unfold draw_devices. destruct (render (dv_drawn v) s) as [regions drawn] eqn:Er.
  pose proof (render_devices (dv_drawn v) s) as (Ha & Hr & Hd). pose proof (devices_untouched (dv_drawn v) s) as Hno. rewrite Er in *. simpl in *.
  destruct (mem _ regions) eqn:Hm; simpl.
  - unfold draw. destruct (plan (dv_key v) _) eqn:Hp; simpl.
    + destruct (follow_all (devices_of s) _ (switches_of_ids (devices_of s))) as [Hids Hsh].
      split; simpl; rewrite ?Hd; try congruence; auto.
    + unfold plan in Hp. destruct (decide _) as [Heq|]; [|done].
      assert (Hany : dw_any (dv_drawn v) = true).
      { destruct (dw_any (dv_drawn v)); [done|]. by destruct (Hu eq_refl) as [Hn _]; rewrite Hn in Heq. }
      rewrite (Hk Hany) in Heq. injection Heq as Heq.
      destruct (follow_all (devices_of s) (dv_switches v)) as [Hids Hsh]; [by rewrite <- Heq; auto|].
      split; simpl; rewrite ?Hd; try congruence; auto. intros _. rewrite <- Heq. auto.
  - apply mem_false in Hm. destruct (Hno Hm) as (H1 & H2 & H3). split; simpl; rewrite ?Hd, <- ?H3; auto; congruence.
Qed.

Lemma alter_ids f (i : nat) l : (forall w, switch_id (f w) = switch_id w) -> switch_id <$> (alter f i l : list GrantSwitch) = switch_id <$> l.
Proof.
  intros Hf. revert i. induction l as [|w l IH]; intros [|i]; simpl; [done..| |]; [by rewrite Hf|]. f_equal. apply IH.
Qed.

Lemma alter_elem (f : GrantSwitch -> GrantSwitch) (i : nat) (l : list GrantSwitch) w : w ∈ alter f i l -> w ∈ l \/ exists w0, w0 ∈ l /\ w = f w0.
Proof.
  revert i. induction l as [|x l IH]; intros [|i]; simpl; rewrite ?elem_of_cons; [by left..| |].
  - intros [->|?]; [right; exists x; split; [by left|done]|by left; right].
  - intros [->|[?|(w0 & ? & ->)]%IH]; [by left; left|by left; right|right; exists w0; split; [by right|done]].
Qed.

Lemma view_step_ok v e : view_ok v -> view_ok (view_step v e).
Proof.
  intros Hv. destruct e as [s|i wanted|build i]; simpl; [by apply draw_devices_ok| |].
  - destruct Hv as [Hu Hk Hi Hs]. split; simpl; [intros H; destruct (Hu H) as [? E]; split; [done|by rewrite E]|done| |].
    + intros H. rewrite alter_ids; auto.
    + intros H Hr w Hw Hp. apply alter_elem in Hw as [Hw|(w0 & _ & ->)]; [by apply Hs|done].
  - unfold switch_answered. destruct Hv as [Hu Hk Hi Hs].
    destruct (dv_build v =? build); (split; simpl; [|done| |done]); try done.
    + intros H. destruct (Hu H) as [? E]. split; [done|by rewrite E].
    + intros H. rewrite alter_ids; auto.
Qed.

Lemma view_run_ok l : view_ok (view_run l).
Proof.
  unfold view_run. assert (H : view_ok DevicesView_new) by (split; done). revert H. generalize DevicesView_new.
  induction l as [|e l IH]; intros v Hv; [done|]. simpl. by apply IH, view_step_ok.
Qed.

Lemma view_run_snoc l e : view_run (l ++ [e]) = view_step (view_run l) e.
Proof. unfold view_run. by rewrite foldl_snoc. Qed.

(** After a draw the page has a switch for each capability of each device that is
    not revoked, in their order. *)
Lemma drawn_ok v s : view_ok v ->
  dw_any (dv_drawn (draw_devices v s)) = true /\ dw_resync_devices (dv_drawn (draw_devices v s)) = false /\
  drawn_devices (dv_drawn (draw_devices v s)) = devices_of s.
Proof.
  intros _. unfold draw_devices. destruct (render (dv_drawn v) s) as [regions drawn] eqn:Er.
  pose proof (render_devices (dv_drawn v) s) as H. rewrite Er in H. simpl in H.
  destruct (negb _); [done|]. unfold draw. by destruct (plan _ _).
Qed.

Lemma draw_pending v s i w : (forall w0, dv_switches v !! i = Some w0 -> gw_pending w0 = false) ->
  dv_switches (draw_devices v s) !! i = Some w -> gw_pending w = false.
Proof.
  intros H. unfold draw_devices. destruct (render _ s) as [regions drawn]. destruct (negb _); [by apply H|].
  unfold draw. destruct (plan _ _); simpl; intros (w0 & -> & Hw0)%list_lookup_fmap_Some; rewrite follow_pending; [|by apply H].
  apply list_elem_of_lookup_2 in Hw0. by apply switches_of_fresh in Hw0.
Qed.

Lemma answered_pending v i w : dv_switches (switch_answered v (dv_build v) i) !! i = Some w -> gw_pending w = false.
Proof. unfold switch_answered. rewrite N.eqb_refl. simpl. rewrite list_lookup_alter_eq. by intros (w0 & _ & ->)%fmap_Some. Qed.

(** A switch shows what the daemon holds.  Over any interleaving of polls that
    are drawn, switches that are moved, and answers that come late, or for a page
    that has been built again since, or refuse: after a poll is drawn, the page
    has exactly one switch for each capability of each device that is not
    revoked, and every one whose own request is not still out shows the grant of
    that poll, whatever position it was moved to before.  A poll drawn when the
    answer is in finds the switch waiting no more. *)
Theorem switch_follows_daemon l s :
  let v := view_run (l ++ [VDraw s]) in
  switch_id <$> dv_switches v =
    (filter (fun d => dr_revoked d = false) (devices_of s) ≫= fun d => (fun k => (dr_fingerprint d, k.1)) <$> CAPABILITIES) /\
  (forall w, w ∈ dv_switches v -> gw_pending w = false -> grant_shown (devices_of s) w) /\
  (forall l0 i w, l = l0 ++ [VAnswer (dv_build (view_run l0)) i] -> dv_switches v !! i = Some w -> gw_pending w = false).
Proof.
  intros v. pose proof (view_run_ok l) as Hl. pose proof (view_run_ok (l ++ [VDraw s])) as Hv.
  pose proof (drawn_ok (view_run l) s Hl) as (Ha & Hr & Hd). unfold v in *. rewrite view_run_snoc in *. simpl in *.
  split_and!; [|rewrite <- Hd; by apply Hv|].
  2:{ intros l0 i w ->. rewrite view_run_snoc. simpl. apply draw_pending. intros w0. apply answered_pending. }
  rewrite (vo_ids _ Hv Ha), Hd. clear. induction (devices_of s) as [|d ds IH]; [done|]. cbn [layout fmap list_fmap mbind list_bind].
  destruct (dr_revoked d) eqn:E.
  - rewrite filter_cons_False by congruence. by rewrite <- IH.
  - rewrite filter_cons_True by done. cbn [mbind list_bind]. f_equal. exact IH.
Qed.

(** * Runs *)

Definition demo_device (granted : list str) (revoked : bool) : DeviceReport := {|
  dr_device_id := lit "d1"; dr_device_name := lit "phone"; dr_platform := lit "android"; dr_fingerprint := lit "ab12";
  dr_fingerprint_short := lit "AB12"; dr_paired_at_unix := 0; dr_granted_capabilities := granted; dr_revoked := revoked;
  dr_paired := negb revoked; dr_connected := false; dr_state := DeviceState.Disconnected; dr_silent_secs := None;
  dr_last_seen_secs_ago := Some 5; dr_battery := None |}.

Definition demo_clipboard_peer : ClipboardPeerReport := {|
  cp_device_id := lit "d1"; cp_device_name := lit "phone"; cp_fingerprint_short := lit "AB12"; cp_granted := true; cp_revoked := false;
  cp_connected := false; cp_allow_send := true; cp_allow_receive := false; cp_auto_send := false; cp_auto_receive := false;
  cp_last_outcome := None |}.

Definition demo_notification_peer : NotificationPeerReport := {|
  np_device_id := lit "d1"; np_device_name := lit "phone"; np_fingerprint_short := lit "AB12"; np_granted := false; np_revoked := false;
  np_connected := false; np_allow_mirror := true; np_when_locked := lit "app-only"; np_allow_dismiss_sync := false; np_mirrors := 0;
  np_displayed := 0; np_evicted := 0; np_local_roles := 0; np_local_epoch := 0; np_peer_is_source := false;
  np_peer_is_dismiss_target := false; np_peer_epoch := 0; np_local_reports_dismissals := false; np_dismissals_sent := 0;
  np_dismissals_refused := 0; np_snapshot_open := false; np_queued := 0; np_coalesced := 0; np_dropped := 0 |}.

Definition demo_state (granted : list str) : GuiState := {|
  gs_status := None; gs_devices := Some [demo_device granted false]; gs_transfers := None;
  gs_clipboard := Some {| cs_enabled := true; cs_backend := []; cs_backend_detail := []; cs_backend_available := true; cs_watch_available := true;
                          cs_sensitive_available := true; cs_sensitive_detail := []; cs_event_cache_entries := 0; cs_suppression_cache_entries := 0;
                          cs_peers := [demo_clipboard_peer]; cs_pending := [] |};
  gs_notifications := Some {| ns_enabled := true; ns_backend := []; ns_backend_detail := []; ns_available := true; ns_body_markup := false;
                              ns_persistence := false; ns_lock_source := []; ns_lock_detail := []; ns_locked := false; ns_mirrors := 0;
                              ns_peers := [demo_notification_peer] |};
  gs_error := None |}.

Definition positions (l : list Widget) : list bool := omap (fun w => match w with WSwitch _ a _ _ => Some a | _ => None end) l.

(** On the devices page a switch that was moved and refused goes back with the next
    poll, though that poll says what the last one said; one that was granted stays. *)
Example refused_switch_goes_back :
  let at_ l := gw_active <$> dv_switches (view_run l) in
  at_ [VDraw (demo_state []); VMove 1 true; VDraw (demo_state [])] = [false; true; false] /\
  at_ [VDraw (demo_state []); VMove 1 true; VAnswer 1 1; VDraw (demo_state [])] = [false; false; false] /\
  at_ [VDraw (demo_state []); VMove 1 true; VAnswer 1 1; VDraw (demo_state [FILES])] = [false; true; false].
Proof. vm_compute. done. Qed.

(** On the two other pages it does not: the polls after the refusal say what was
    said before, so nothing is drawn, and the switch goes on showing a position the
    daemon does not hold. *)
Example refused_switch_stays :
  let s := demo_state [] in
  let n := draw_notifications PlainView_new s in
  let c := draw_clipboard PlainView_new s in
  positions (pv_widgets n) = [false] /\ (move_plain n 5 true).2 = Some (Request.Grant (lit "d1") (lit "notifications.v1") true) /\
  positions (pv_widgets (draw_notifications (draw_notifications (move_plain n 5 true).1 s) s)) = [true] /\
  positions (pv_widgets c) = [false; false; true; false] /\
  (move_plain c 6 true).2 = Some (Request.ClipboardPolicy (lit "d1") FlagReceive true) /\
  positions (pv_widgets (draw_clipboard (draw_clipboard (move_plain c 6 true).1 s) s)) = [true; false; true; false].
Proof. vm_compute. done. Qed.

(** The choice of a removed device is dropped when the daemon agreed, kept when it
    refused, and dropped as well when no daemon answered at all. *)
Example choice_after_removal :
  let c := CRemoveFromList (lit "ab12") (lit "phone") in
  let chosen := @persist number_json (Some (lit "ab12")) Wrote in
  let after r := sel_current (@after_reply number_json c r Wrote chosen) in
  after (Ok Response.Ok) = None /\ after (Ok (Response.Error "no such device")) = Some (lit "ab12") /\
  after (Err (lit "could not reach the daemon")) = None.
Proof. vm_compute. done. Qed.

(** What a card says. *)
Example card_says :
  cv_facts (card_values (demo_device [CLIPBOARD; lit "x"] false)) =
    lit "Trusted" ++ MIDDOT ++ lit "Platform: android" ++ MIDDOT ++ lit "Last session ended 5s ago" ++ MIDDOT ++ lit "Granted: Clipboard, x" /\
  card_controls (demo_device [] true) = [CRemoveFromList (lit "ab12") (lit "phone")] /\
  page_controls [demo_device [] true] = [] /\ page_controls [demo_device [] true; demo_device [] true] = [CRemoveAllRevoked [lit "ab12"; lit "ab12"]].
Proof. vm_compute. done. Qed.
