(* ===== verification/GuiPrompt.v ===== *)
(** The window's connections to the daemon, and the questions it asks.

    [gui/src/client.rs]: one exchange, the pairing stream and the attachment as
    the daemon's approval provider; [gui/src/approval.rs]: the dialog for an
    offered file; [gui/src/views/pairing.rs]: the pairing dialog.

    Two threads share channels: the network tasks and the window.  Each is a
    step of its own, and they interleave freely.  What the socket does is an
    input of the network's steps; a line of text is what the two parsers the
    code tries make of it. *)
From S2P Require Import Prelude External Ids Control.

(** A line read from the socket: [from_str::<Response>] and [from_str::<Event>]. *)
Record LineText := { lt_response : option Response.t; lt_event : option Event.t }.

Definition is_error_line (t : LineText) : option string :=
  match lt_response t with Some (Response.Error message) => Some message | _ => None end.

(** * [exchange] *)

Inductive ExchangeError :=
| Unreachable                          (** the socket could not be connected *)
| WriteFailed
| ReadFailed
| ClosedWithoutReply
| NotAResponse.

(** [connected], [written] and [flushed] are what the socket did, [reply] the
    line read: an error, the end of the stream, or text. *)
Definition exchange (connected written flushed : bool) (reply : result unit (option LineText))
    : result ExchangeError Response.t :=
  if negb connected then Err Unreachable
  else if negb written || negb flushed then Err WriteFailed
  else match reply with
       | Err _ => Err ReadFailed
       | Ok None => Err ClosedWithoutReply
       | Ok (Some text) => ok_or NotAResponse (lt_response text)
       end.

(** * The attachment as approval provider *)

Inductive ApprovalUpdate :=
| Attached (unattended : bool)
| Offer (r : FileOfferRequest)
| Withdrawn (transfer_id : str)
| Detached.

Definition UPDATE_QUEUE : N := 64.
Definition DECISION_QUEUE : N := 16.

(** Where the network task is: before a connection, in the [select!] of
    [run_approval_stream], in the send of an update, in the send of [Detached],
    asleep before it tries again, or ended. *)
Inductive Link := LkIdle | LkStream | LkSend (u : ApprovalUpdate) | LkDetach | LkSleep | LkStopped.

Definition ACCEPT : str := lit "accept".
Definition DECLINE : str := lit "decline".

(** [open] are the dialogs by transfer id, with what each shows; [sending] the
    tasks [decide] spawned that wait for room; [pr_wire] what was written on
    which attachment. *)
Record Prompts := {
  pr_open : gmap str FileOfferRequest;
  pr_handle : bool;
  pr_sending : list (str * bool);
  pr_decisions : list (str * bool);
  pr_events : list ApprovalUpdate;
  pr_link : Link;
  pr_attachment : N;
  pr_wire : list (N * Request.t)
}.

Definition Prompts_new : Prompts := {|
  pr_open := ∅; pr_handle := true; pr_sending := []; pr_decisions := []; pr_events := []; pr_link := LkIdle;
  pr_attachment := 0; pr_wire := [] |}.

(** Field assignments. *)
Definition set_open (c : Prompts) (x : gmap str FileOfferRequest) : Prompts := {|
  pr_open := x; pr_handle := pr_handle c; pr_sending := pr_sending c; pr_decisions := pr_decisions c;
  pr_events := pr_events c; pr_link := pr_link c; pr_attachment := pr_attachment c; pr_wire := pr_wire c |}.
Definition set_sending (c : Prompts) (x : list (str * bool)) : Prompts := {|
  pr_open := pr_open c; pr_handle := pr_handle c; pr_sending := x; pr_decisions := pr_decisions c;
  pr_events := pr_events c; pr_link := pr_link c; pr_attachment := pr_attachment c; pr_wire := pr_wire c |}.
Definition set_decisions (c : Prompts) (x : list (str * bool)) : Prompts := {|
  pr_open := pr_open c; pr_handle := pr_handle c; pr_sending := pr_sending c; pr_decisions := x;
  pr_events := pr_events c; pr_link := pr_link c; pr_attachment := pr_attachment c; pr_wire := pr_wire c |}.
Definition set_updates (c : Prompts) (x : list ApprovalUpdate) : Prompts := {|
  pr_open := pr_open c; pr_handle := pr_handle c; pr_sending := pr_sending c; pr_decisions := pr_decisions c;
  pr_events := x; pr_link := pr_link c; pr_attachment := pr_attachment c; pr_wire := pr_wire c |}.
Definition set_link (c : Prompts) (x : Link) : Prompts := {|
  pr_open := pr_open c; pr_handle := pr_handle c; pr_sending := pr_sending c; pr_decisions := pr_decisions c;
  pr_events := pr_events c; pr_link := x; pr_attachment := pr_attachment c; pr_wire := pr_wire c |}.
Definition wrote (c : Prompts) (r : Request.t) : Prompts := {|
  pr_open := pr_open c; pr_handle := pr_handle c; pr_sending := pr_sending c; pr_decisions := pr_decisions c;
  pr_events := pr_events c; pr_link := pr_link c; pr_attachment := pr_attachment c;
  pr_wire := pr_wire c ++ [(pr_attachment c, r)] |}.
Definition next_attachment (c : Prompts) : Prompts := {|
  pr_open := pr_open c; pr_handle := pr_handle c; pr_sending := pr_sending c; pr_decisions := pr_decisions c;
  pr_events := pr_events c; pr_link := pr_link c; pr_attachment := pr_attachment c + 1; pr_wire := pr_wire c |}.
(** [Drop for ApprovalHandle]: both channels are closed, and what waits on them
    is of no more use. *)
Definition drop_handle (c : Prompts) : Prompts := {|
  pr_open := pr_open c; pr_handle := false; pr_sending := pr_sending c; pr_decisions := pr_decisions c;
  pr_events := pr_events c; pr_link := pr_link c; pr_attachment := pr_attachment c; pr_wire := pr_wire c |}.

(** ** The network *)

(** A line: an update to pass on, nothing, or the end of the stream. *)
Inductive LineMeans := MUpdate (u : ApprovalUpdate) | MIgnore | MEnd.

Definition line_means (t : LineText) : LineMeans :=
  match is_error_line t with
  | Some _ => MEnd
  | None =>
      match lt_event t with
      | Some (Event.FileApprovalReady unattended) => MUpdate (Attached unattended)
      | Some (Event.OfferRequest r) => MUpdate (Offer r)
      | Some (Event.FileOfferWithdrawn transfer_id _) => MUpdate (Withdrawn transfer_id)
      | Some (Event.Finished _ _) => MEnd
      | Some _ => MIgnore
      | None => MEnd
      end
  end.

Inductive NetInput :=
| NConnect (connected written : bool)  (** the socket, and the attaching request on it *)
| NLine (line : option LineText)       (** a line, or the end or an error of the stream *)
| NDecision (written : bool)           (** a decision is taken off the channel and written *)
| NRoom                                (** the send of an update goes on *)
| NWake
| NFlush (i : nat).                    (** a task of [decide] goes on *)

(** The sleep, or the end when the window is gone. *)
Definition after_attempt (c : Prompts) : Prompts := set_link c (if pr_handle c then LkSleep else LkStopped).

Definition net_step (c : Prompts) (i : NetInput) : Prompts :=
  match i, pr_link c with
  | NConnect connected written, LkIdle =>
      if negb connected then after_attempt c
      else
        let c := next_attachment c in
        if written then set_link (wrote c Request.WatchFileOffers) LkStream else set_link c LkDetach
  | NLine line, LkStream =>
      match line with
      | None => set_link c LkDetach
      | Some text =>
          match line_means text with
          | MUpdate u => set_link c (LkSend u)
          | MIgnore => c
          | MEnd => set_link c LkDetach
          end
      end
  | NDecision written, LkStream =>
      match pr_decisions c with
      | (transfer, accept) :: rest =>
          let c := set_decisions c rest in
          if written then wrote c (Request.FileDecision transfer accept) else set_link c LkDetach
      | [] => if pr_handle c then c else set_link c LkDetach
      end
  | NRoom, LkSend u =>
      if negb (pr_handle c) then set_link c LkDetach
      else if len (pr_events c) <? UPDATE_QUEUE then set_link (set_updates c (pr_events c ++ [u])) LkStream
      else c
  | NRoom, LkDetach =>
      if negb (pr_handle c) then set_link c LkStopped
      else if len (pr_events c) <? UPDATE_QUEUE then after_attempt (set_updates c (pr_events c ++ [Detached]))
      else c
  | NWake, LkSleep => set_link c LkIdle
  | NFlush i, _ =>
      match pr_sending c !! i with
      | None => c
      | Some d =>
          if negb (pr_handle c) then set_sending c (delete i (pr_sending c))
          else if len (pr_decisions c) <? DECISION_QUEUE
          then set_decisions (set_sending c (delete i (pr_sending c))) (pr_decisions c ++ [d])
          else c
      end
  | _, _ => c
  end.

(** ** The window *)

(** The response of the dialog for [transfer_id], whatever produced it. *)
Definition respond (c : Prompts) (transfer_id response : str) : Prompts :=
  match pr_open c !! transfer_id with
  | None => c
  | Some _ =>
      let c := set_open c (delete transfer_id (pr_open c)) in
      if pr_handle c then set_sending c (pr_sending c ++ [(transfer_id, eqb response ACCEPT)]) else c
  end.

(** [AdwDialog::close]: the dialog answers with its close response. *)
Definition close_dialog (c : Prompts) (transfer_id : str) : Prompts := respond c transfer_id DECLINE.

Definition present (c : Prompts) (r : FileOfferRequest) : Prompts :=
  if bool_decide (is_Some (pr_open c !! fq_transfer_id r)) then c
  else set_open c (<[fq_transfer_id r := r]> (pr_open c)).

(** [on_update] of [install]; [parent] is whether a window is there. *)
Definition on_update (c : Prompts) (parent : bool) (u : ApprovalUpdate) : Prompts :=
  match u with
  | Attached _ => c
  | Offer r => if parent then present c r else c
  | Withdrawn id =>
      match pr_open c !! id with
      | Some _ => close_dialog (set_open c (delete id (pr_open c))) id
      | None => c
      end
  | Detached =>
      let dialogs := (map_to_list (pr_open c)).*1 in
      foldl close_dialog (set_open c ∅) dialogs
  end.

Inductive PromptEvent :=
| PNet (i : NetInput)
| PUpdate (parent : bool)              (** the window takes the next update *)
| PPress (transfer_id response : str)  (** a button of a dialog, Escape or its close button *)
| PGone.                               (** the application lets go of the handle *)

Definition prompt_step (c : Prompts) (e : PromptEvent) : Prompts :=
  match e with
  | PNet i => net_step c i
  | PUpdate parent =>
      match pr_events c with
      | [] => c
      | u :: rest => on_update (set_updates c rest) parent u
      end
  | PPress id response => respond c id response
  | PGone => drop_handle c
  end.

Definition prompt_run (evs : list PromptEvent) : Prompts := foldl prompt_step Prompts_new evs.

(** * The pairing stream and its dialog *)

Inductive PairItem := PairEvent (e : Event.t) | PairFailed.

(** [pk_confirm] is the channel of capacity one; [pk_writer] whether the task
    that writes the answer still waits for it. *)
Record PairClient := {
  pk_started : bool;
  pk_wire : list Request.t;
  pk_items : list PairItem;
  pk_reading : bool;
  pk_writer : bool;
  pk_waiting : list bool;
  pk_confirm : list bool;
  pk_open : bool;
  pk_watched : bool;
  pk_button : bool;
  pk_shown : option (str * str * str)
}.

Definition PairClient_new : PairClient := {|
  pk_started := false; pk_wire := []; pk_items := []; pk_reading := false; pk_writer := false; pk_waiting := []; pk_confirm := [];
  pk_open := true; pk_watched := true; pk_button := false; pk_shown := None |}.

Inductive PairInput :=
| KConnect (ttl : option N) (connected written : bool)
| KLine (line : option LineText)
| KQueue                               (** a task of [confirm] goes on *)
| KWrite                               (** the writer takes the answer and writes it *)
| KItem                                (** the window takes the next event *)
| KClick                               (** Confirm and pair *)
| KClose.                              (** the dialog is closed: the handle is dropped *)

Definition PAIR_QUEUE : N := 8.

Definition with_started (c : PairClient) : PairClient := {|
  pk_started := true; pk_wire := pk_wire c; pk_items := pk_items c; pk_reading := pk_reading c; pk_writer := pk_writer c;
  pk_waiting := pk_waiting c; pk_confirm := pk_confirm c; pk_open := pk_open c; pk_watched := pk_watched c; pk_button := pk_button c;
  pk_shown := pk_shown c |}.
Definition with_items (c : PairClient) (items : list PairItem) (reading : bool) : PairClient := {|
  pk_started := pk_started c; pk_wire := pk_wire c; pk_items := items; pk_reading := reading; pk_writer := pk_writer c; pk_waiting := pk_waiting c;
  pk_confirm := pk_confirm c; pk_open := pk_open c; pk_watched := pk_watched c; pk_button := pk_button c; pk_shown := pk_shown c |}.
Definition with_wire (c : PairClient) (wire : list Request.t) (reading writer : bool) : PairClient := {|
  pk_started := pk_started c; pk_wire := wire; pk_items := pk_items c; pk_reading := reading; pk_writer := writer; pk_waiting := pk_waiting c;
  pk_confirm := pk_confirm c; pk_open := pk_open c; pk_watched := pk_watched c; pk_button := pk_button c; pk_shown := pk_shown c |}.
Definition with_confirm (c : PairClient) (waiting confirm : list bool) : PairClient := {|
  pk_started := pk_started c; pk_wire := pk_wire c; pk_items := pk_items c; pk_reading := pk_reading c; pk_writer := pk_writer c; pk_waiting := waiting;
  pk_confirm := confirm; pk_open := pk_open c; pk_watched := pk_watched c; pk_button := pk_button c; pk_shown := pk_shown c |}.
Definition with_dialog (c : PairClient) (open watched button : bool) (shown : option (str * str * str)) : PairClient := {|
  pk_started := pk_started c; pk_wire := pk_wire c; pk_items := pk_items c; pk_reading := pk_reading c; pk_writer := pk_writer c; pk_waiting := pk_waiting c;
  pk_confirm := pk_confirm c; pk_open := open; pk_watched := watched; pk_button := button; pk_shown := shown |}.

(** The callback of [present_pairing_dialog]: the device to compare, whether the
    button can be pressed, and whether the stream is watched on; a window that
    was paired closes. *)
Definition pair_item (c : PairClient) (i : PairItem) : PairClient :=
  match i with
  | PairEvent (Event.PairingReady _ _ _) => c
  | PairEvent (Event.ConfirmRequest name id fingerprint _) => with_dialog c (pk_open c) true true (Some (name, id, fingerprint))
  | PairEvent (Event.Finished status _) =>
      with_dialog c (pk_open c && negb (String.eqb status "paired")) false false None
  | PairEvent _ => c
  | PairFailed => with_dialog c (pk_open c) false (pk_button c) None
  end.

Definition pairing_step (c : PairClient) (i : PairInput) : PairClient :=
  match i with
  | KConnect ttl connected written =>
      if pk_started c then c
      else if connected && written then with_wire (with_started c) [Request.Pair ttl] true true
      else with_items (with_started c) (pk_items c ++ [PairFailed]) false
  | KLine line =>
      if negb (pk_reading c) then c
      else match line with
           | None => with_items c (pk_items c) false
           | Some text =>
               if negb (pk_open c) then with_items c (pk_items c) false
               else if PAIR_QUEUE <=? len (pk_items c) then c
               else match is_error_line text with
                    | Some _ => with_items c (pk_items c ++ [PairFailed]) false
                    | None =>
                        match lt_event text with
                        | Some e => with_items c (pk_items c ++ [PairEvent e]) true
                        | None => with_items c (pk_items c ++ [PairFailed]) false
                        end
                    end
           end
  | KQueue =>
      match pk_waiting c with
      | [] => c
      | a :: rest =>
          if negb (pk_open c) then with_confirm c rest (pk_confirm c)
          else if len (pk_confirm c) <? 1 then with_confirm c rest (pk_confirm c ++ [a])
          else c
      end
  | KWrite =>
      if negb (pk_writer c) then c
      else match pk_confirm c with
           | a :: rest => with_confirm (with_wire c (pk_wire c ++ [Request.Confirm a]) (pk_reading c) false) (pk_waiting c) rest
           | [] => if pk_open c then c else with_wire c (pk_wire c) (pk_reading c) false
           end
  | KItem =>
      match pk_items c with
      | i :: rest => if pk_watched c then pair_item (with_items c rest (pk_reading c)) i else c
      | [] => c
      end
  | KClick =>
      if pk_open c && pk_button c
      then with_confirm (with_dialog c (pk_open c) (pk_watched c) false (pk_shown c)) (pk_waiting c ++ [true]) (pk_confirm c)
      else c
  | KClose => with_dialog c false (pk_watched c) false (pk_shown c)
  end.

Definition pairing_run (evs : list PairInput) : PairClient := foldl pairing_step PairClient_new evs.
