(* ===== verification/GuiPromptFacts.v ===== *)
(** An answer is sent only if a person gave it.

    Whatever the socket and the daemon do, what is written about an offer is an
    answer somebody gave in the dialog that showed it, at most once; a prompt
    that is taken down sends nothing.  A pairing connection carries at most one
    confirmation. *)
From S2P Require Import Prelude External Ids Control GuiPrompt.

(** * Approval *)

(** The answer an event is, of which question. *)
Definition answer_of (c : Prompts) (e : PromptEvent) : list (FileOfferRequest * bool) :=
  match e with
  | PPress id response =>
      match pr_open c !! id with
      | Some r => if pr_handle c then [(r, eqb response ACCEPT)] else []
      | None => []
      end
  | _ => []
  end.

Definition named (a : FileOfferRequest * bool) : str * bool := (fq_transfer_id a.1, a.2).

Definition decisions_of (wire : list (N * Request.t)) : list (str * bool) :=
  omap (fun w => match w.2 with Request.FileDecision transfer accept => Some (transfer, accept) | _ => None end) wire.

Lemma decisions_of_app w1 w2 : decisions_of (w1 ++ w2) = decisions_of w1 ++ decisions_of w2.
Proof. apply omap_app. Qed.

(** Everything that was or may yet be sent. *)
Definition in_flight (c : Prompts) : list (str * bool) := decisions_of (pr_wire c) ++ pr_decisions c ++ pr_sending c.

(** Dialogs are kept under the transfer they ask about. *)
Definition keyed (c : Prompts) : Prop := forall id r, pr_open c !! id = Some r -> fq_transfer_id r = id.

(** A dialog that is taken down answers nobody. *)
Lemma close_removed c id : pr_open c !! id = None -> close_dialog c id = c.
Proof. intros Ho. unfold close_dialog, respond. by rewrite Ho. Qed.

Lemma close_all_removed ids c : pr_open c = ∅ -> foldl close_dialog c ids = c.
Proof.
  intros Ho. induction ids as [|id ids IH]; [done|]. cbn [foldl]. rewrite close_removed; [done|]. by rewrite Ho, lookup_empty.
Qed.

(** Taking in an update only opens and closes dialogs. *)
Lemma on_update_open c parent u :
  exists o, on_update c parent u = set_open c o /\
    match u with
    | Offer r => o = pr_open c \/ o = <[fq_transfer_id r := r]> (pr_open c)
    | Withdrawn id => o = delete id (pr_open c)
    | Detached => o = ∅
    | Attached _ => o = pr_open c
    end.
Proof.
  assert (Hsame : c = set_open c (pr_open c)) by (by destruct c).
  destruct u as [b|r|id|]; cbn [on_update].
  - eauto.
  - destruct parent; [|eauto]. unfold present. case_bool_decide; eauto.
  - destruct (pr_open c !! id) as [r|] eqn:Ho.
    + rewrite close_removed; [eauto | apply lookup_delete_eq].
    + rewrite (delete_id _ _ Ho). eauto.
  - rewrite close_all_removed; [eauto | done].
Qed.

Lemma net_keeps c i : pr_open (net_step c i) = pr_open c.
Proof. destruct i; cbn [net_step]; repeat case_match; done. Qed.

Lemma keyed_step c e : keyed c -> keyed (prompt_step c e).
Proof.
  intros Hk. destruct e as [i|parent|id response|]; cbn [prompt_step].
  - unfold keyed. by rewrite net_keeps.
  - destruct (pr_events c) as [|u rest]; [done|]. destruct (on_update_open (set_updates c rest) parent u) as (o & -> & Ho).
    intros id r. cbn. destruct u as [b|r'|id'|]; [subst o; apply Hk | | subst o; rewrite lookup_delete_Some; intros [_ ?]; by apply Hk | by subst o; rewrite lookup_empty].
    destruct Ho as [->| ->]; [apply Hk|]. rewrite lookup_insert_Some. intros [[<- <-]|[_ Hr]]; [done | by apply Hk].
  - unfold respond. destruct (pr_open c !! id); [|done]. intros id' r'. destruct (pr_handle _); cbn; rewrite lookup_delete_Some; intros [_ ?]; by apply Hk.
  - done.
Qed.

(** What is in flight changes only by an answer, and may be lost. *)
Lemma net_in_flight c i : in_flight (net_step c i) ⊆+ in_flight c.
Proof.
  unfold in_flight. destruct i as [co wr|l|wr| | |i]; cbn [net_step].
  - destruct (pr_link c); try done. destruct (negb co); [done|]. destruct wr; cbn; [|done]. by rewrite decisions_of_app, app_nil_r.
  - destruct (pr_link c); try done. destruct l as [t|]; [|done]. by destruct (line_means t).
  - destruct (pr_link c); try done. destruct (pr_decisions c) as [|[id b] rest] eqn:Hd; [by destruct (pr_handle c); cbn; rewrite Hd|].
    destruct wr; cbn.
    + by rewrite decisions_of_app, <- app_assoc.
    + apply submseteq_app; [done|]. by apply submseteq_cons.
  - destruct (pr_link c); try done; (destruct (negb _); [done|]; by case_match).
  - by destruct (pr_link c).
  - destruct (pr_sending c !! i) as [d|] eqn:Hi; [|done].
    assert (Hp : pr_sending c ≡ₚ d :: delete i (pr_sending c)) by (by apply delete_Permutation).
    destruct (negb _); cbn.
    + do 2 (apply submseteq_app; [done|]). rewrite Hp at 2. by apply submseteq_cons.
    + case_match; cbn; [|done]. rewrite Hp at 2. by rewrite <- app_assoc.
Qed.

Lemma step_in_flight c e : keyed c -> in_flight (prompt_step c e) ⊆+ in_flight c ++ (named <$> answer_of c e).
Proof.
  intros Hk. destruct e as [i|parent|id response|]; cbn [prompt_step answer_of].
  - rewrite app_nil_r. apply net_in_flight.
  - rewrite app_nil_r. destruct (pr_events c) as [|u rest]; [done|].
    destruct (on_update_open (set_updates c rest) parent u) as (o & -> & _). done.
  - unfold respond. destruct (pr_open c !! id) as [r|] eqn:Ho; [|by rewrite app_nil_r].
    cbn. destruct (pr_handle c); cbn; [|by rewrite app_nil_r]. unfold in_flight, named. cbn. by rewrite (Hk _ _ Ho), !app_assoc.
  - by rewrite app_nil_r.
Qed.

(** ** Where a question came from *)

(** [P] holds of every offer the window has in hand. *)
Definition offers_ok (P : FileOfferRequest -> Prop) (c : Prompts) : Prop :=
  (forall id r, pr_open c !! id = Some r -> P r) /\ (forall r, Offer r ∈ pr_events c -> P r) /\
  (forall r, pr_link c = LkSend (Offer r) -> P r).

Definition line_ok (P : FileOfferRequest -> Prop) (e : PromptEvent) : Prop :=
  forall t r, e = PNet (NLine (Some t)) -> line_means t = MUpdate (Offer r) -> P r.

Lemma offers_ok_mono (P Q : FileOfferRequest -> Prop) c : (forall r, P r -> Q r) -> offers_ok P c -> offers_ok Q c.
Proof. intros Himp (H1 & H2 & H3). split_and!; eauto. Qed.

Lemma offers_ok_link P c l : offers_ok P c -> (forall r, l = LkSend (Offer r) -> P r) -> offers_ok P (set_link c l).
Proof. by intros (H1 & H2 & _) H3. Qed.

Lemma offers_ok_push P c u : offers_ok P c -> (forall r, u = Offer r -> P r) -> offers_ok P (set_updates c (pr_events c ++ [u])).
Proof.
  intros (H1 & H2 & H3) Hu. split_and!; [done | | done]. intros r. cbn. rewrite elem_of_app, list_elem_of_singleton.
  intros [?|Hr]; auto.
Qed.

Lemma offers_ok_net P c i : offers_ok P c -> line_ok P (PNet i) -> offers_ok P (net_step c i).
Proof.
  intros Hok Hline. pose proof Hok as (H1 & H2 & H3). destruct i as [co wr|l|wr| | |i]; cbn [net_step].
  - destruct (pr_link c); try done. destruct (negb co); [by apply offers_ok_link; [|case_match]|].
    destruct wr; by apply offers_ok_link.
  - destruct (pr_link c); try done. destruct l as [t|]; [|by apply offers_ok_link].
    destruct (line_means t) as [u| |] eqn:Hm; [|done | by apply offers_ok_link].
    apply offers_ok_link; [done|]. intros r [= ->]. by apply (Hline t).
  - destruct (pr_link c); try done. destruct (pr_decisions c) as [|[id b] rest]; [case_match; [done | by apply offers_ok_link]|].
    destruct wr; [done | by apply offers_ok_link].
  - destruct (pr_link c) as [| |u| | |] eqn:Hl; try done.
    + destruct (negb _); [by apply offers_ok_link|]. case_match; [|done]. apply offers_ok_link; [|done].
      apply offers_ok_push; [done|]. intros r ->. by apply H3.
    + destruct (negb _); [by apply offers_ok_link|]. case_match; [|done]. apply offers_ok_link; [by apply offers_ok_push | by case_match].
  - destruct (pr_link c); try done; by apply offers_ok_link.
  - repeat case_match; done.
Qed.

Lemma offers_ok_step P c e : offers_ok P c -> line_ok P e -> offers_ok P (prompt_step c e).
Proof.
  intros Hok Hline. pose proof Hok as (H1 & H2 & H3). destruct e as [i|parent|id response|]; cbn [prompt_step].
  - by apply offers_ok_net.
  - destruct (pr_events c) as [|u rest] eqn:He; [done|].
    destruct (on_update_open (set_updates c rest) parent u) as (o & -> & Ho). split_and!; [|cbn; set_solver | done].
    intros id r. cbn. destruct u as [b|r'|id'|]; [subst o; apply H1 | | subst o; rewrite lookup_delete_Some; intros [_ ?]; eauto | by subst o; rewrite lookup_empty].
    destruct Ho as [->| ->]; [apply H1|]. rewrite lookup_insert_Some. intros [[_ <-]|[_ ?]]; [set_solver | eauto].
  - unfold respond. destruct (pr_open c !! id); [|done].
    split_and!; (destruct (pr_handle _); cbn; [|try done]); try done; intros id' r'; rewrite lookup_delete_Some; intros [_ ?]; eauto.
  - done.
Qed.

(** * Pairing *)

(** A device was announced to the window. *)
Definition announced (evs : list PairInput) : Prop :=
  exists t name id fp short, KLine (Some t) ∈ evs /\ lt_event t = Some (Event.ConfirmRequest name id fp short).

(** The button was pressed while it could be. *)
Definition clicked (evs : list PairInput) : Prop :=
  exists before later, evs = before ++ KClick :: later /\ pk_open (pairing_run before) = true /\
    pk_button (pairing_run before) = true /\ announced before.

Lemma clicked_more evs e : clicked evs -> clicked (evs ++ [e]).
Proof. intros (before & later & -> & H). exists before, (later ++ [e]). by rewrite <- app_assoc. Qed.
Lemma announced_more evs e : announced evs -> announced (evs ++ [e]).
Proof. intros (t & n & i & f & s & Hin & H). exists t, n, i, f, s. split; [set_solver | done]. Qed.

Definition is_confirm_request (i : PairItem) : bool :=
  match i with PairEvent (Event.ConfirmRequest _ _ _ _) => true | _ => false end.

Record pair_ok (evs : list PairInput) (c : PairClient) : Prop := {
  po_wire : pk_wire c = [] \/ (exists ttl, pk_wire c = [Request.Pair ttl]) \/
            (exists ttl, pk_wire c = [Request.Pair ttl; Request.Confirm true] /\ clicked evs);
  po_writer : pk_writer c = true -> exists ttl, pk_wire c = [Request.Pair ttl];
  po_start : pk_started c = false -> pk_wire c = [];
  po_answers : forall a, a ∈ pk_waiting c ++ pk_confirm c -> a = true /\ clicked evs;
  po_button : pk_button c = true -> announced evs;
  po_items : forall i, i ∈ pk_items c -> is_confirm_request i = true -> announced evs
}.

Lemma pair_ok_more evs e c : pair_ok evs c -> pair_ok (evs ++ [e]) c.
Proof.
  intros [H1 H2 H3 H4 H5 H6]. constructor; eauto using announced_more.
  - destruct H1 as [?|[?|(ttl & ? & ?)]]; eauto using clicked_more. do 2 right. eauto using clicked_more.
  - intros a Ha. destruct (H4 a Ha). eauto using clicked_more.
Qed.

Lemma pairing_run_snoc evs e : pairing_run (evs ++ [e]) = pairing_step (pairing_run evs) e.
Proof. unfold pairing_run. by rewrite foldl_app. Qed.

Lemma pair_ok_items evs c items reading : pair_ok evs c ->
  (forall i, i ∈ items -> is_confirm_request i = true -> announced evs) -> pair_ok evs (with_items c items reading).
Proof. intros [] Hi. by constructor. Qed.

Lemma pair_ok_step evs e : pair_ok evs (pairing_run evs) -> pair_ok (evs ++ [e]) (pairing_run (evs ++ [e])).
Proof.
  rewrite pairing_run_snoc. intros Hok. pose proof (pair_ok_more _ e _ Hok) as Hok'. set (c := pairing_run evs) in *.
  pose proof Hok' as [H1 H2 H3 H4 H5 H6].
  assert (Hpush : forall x reading, (is_confirm_request x = true -> announced (evs ++ [e])) ->
    pair_ok (evs ++ [e]) (with_items c (pk_items c ++ [x]) reading)).
  { intros x reading Hx. apply pair_ok_items; [done|]. intros i. rewrite elem_of_app, list_elem_of_singleton. intros [?| ->]; eauto. }
  destruct e as [ttl co wr|l| | | | |]; cbn [pairing_step].
  - destruct (pk_started c) eqn:Hs; [done|]. destruct (co && wr); [constructor; cbn; eauto; done|].
    specialize (Hpush PairFailed false). destruct Hpush; [done|]. by constructor.
  - destruct (negb _); [done|]. destruct l as [t|]; [|by apply pair_ok_items]. destruct (negb _); [by apply pair_ok_items|].
    destruct (_ <=? _); [done|]. destruct (is_error_line t); [by apply Hpush|]. destruct (lt_event t) as [ev|] eqn:Hev; [|by apply Hpush].
    apply Hpush. destruct ev; try done. intros _. do 5 eexists. split; [|exact Hev]. set_solver.
  - destruct (pk_waiting c) as [|a rest] eqn:Hw; [done|]. destruct (negb _); [|case_match; [|done]]; constructor; cbn; try done; intros x Hx; apply H4; set_solver.
  - destruct (pk_writer c) eqn:Hwr; [|done]. cbn [negb]. destruct (pk_confirm c) as [|a rest] eqn:Hc.
    + case_match; [done|]. constructor; cbn; try done. by rewrite Hc.
    + destruct (H2 eq_refl) as [ttl Hwire]. destruct (H4 a) as [-> Hcl]; [set_solver|]. constructor; cbn; try done.
      * do 2 right. exists ttl. by rewrite Hwire.
      * intros Hs. by rewrite (H3 Hs) in Hwire.
      * intros x Hx. apply H4. set_solver.
  - destruct (pk_items c) as [|i rest] eqn:Hi; [done|]. destruct (pk_watched c); [|done].
    assert (Hrest : pair_ok (evs ++ [KItem]) (with_items c rest (pk_reading c))) by (apply pair_ok_items; [done|]; intros x Hx; apply H6; set_solver).
    destruct Hrest. destruct i as [[]|]; cbn [pair_item]; constructor; cbn in *; try done. intros _. by apply (H6 _ (list_elem_of_here _ _)).
  - destruct (pk_open c) eqn:Ho, (pk_button c) eqn:Hb; cbn [andb]; try done. constructor; cbn; try done.
    intros x. rewrite <- app_assoc, elem_of_app, elem_of_app, list_elem_of_singleton. intros [?|[->|?]]; [apply H4; set_solver | | apply H4; set_solver].
    split; [done|]. exists evs, []. split_and!; try done. by apply (po_button _ _ Hok).
  - constructor; cbn; try done.
Qed.

Lemma pairing_run_ok evs : pair_ok evs (pairing_run evs).
Proof. induction evs as [|e evs IH] using rev_ind; [constructor; cbn; try done; auto; set_solver | by apply pair_ok_step]. Qed.

(** One pairing connection says at most one thing after its request, that it is
    confirmed, and only after a device was announced and the button pressed. *)
Lemma pairing_confirmed_by_hand evs :
  let wire := pk_wire (pairing_run evs) in
  wire = [] \/ (exists ttl, wire = [Request.Pair ttl]) \/
  (exists ttl, wire = [Request.Pair ttl; Request.Confirm true] /\ clicked evs).
Proof. apply po_wire, pairing_run_ok. Qed.
