(* ===== verification/Cli.v ===== *)
(** The command-line client.

    [cli/src/main.rs]: every command with the request it sends, the reply it
    prints, the progress of a file it sends and the pairing session it runs in
    a terminal.  Parsing of the command line is the argument parser's: a
    command is its result.  What a run does is a list of effects, in order,
    and how the process ends. *)
From S2P Require Import Prelude External Ids Utf8 Control Panel GuiPrompt.

(** * Commands *)

Inductive WhenLocked := WFull | WAppOnly | WSuppress.
Definition WhenLocked_as_str (w : WhenLocked) : str :=
  match w with WFull => lit "full" | WAppOnly => lit "app-only" | WSuppress => lit "suppress" end.

Inductive CliDirection := DirSend | DirReceive.
Inductive Toggle := On | Off.
Definition Toggle_enabled (t : Toggle) : bool := match t with On => true | Off => false end.

Inductive NotificationsCommand :=
| NStatus
| NMirror (device : str) (state : Toggle)
| NWhenLocked (device : str) (policy : WhenLocked)
| NDismissSync (device : str) (state : Toggle).

Inductive ClipboardCommand :=
| CStatus
| CSend (device : str) (sensitive : bool)
| CApply (device : str)
| CAllow (device : str) (direction : CliDirection) (state : Toggle)
| CAutoSend (device : str) (state : Toggle)
| CAutoReceive (device : str) (state : Toggle).

Inductive CliCommand :=
| CmdStatus
| CmdDevices
| CmdPair (ttl : option N)
| CmdUnpair (device : str)
| CmdPing (device : str)
| CmdRemoveFromList (fingerprint : option str) (all : bool)
| CmdGrant (device capability : str)
| CmdRevoke (device capability : str)
| CmdSend (device file : str)
| CmdTransfers
| CmdCancel (transfer : str)
| CmdClipboard (c : ClipboardCommand)
| CmdNotifications (c : NotificationsCommand).

Definition clipboard_request (c : ClipboardCommand) : Request.t :=
  match c with
  | CStatus => Request.ClipboardStatus
  | CSend device sensitive => Request.ClipboardSend device sensitive
  | CApply device => Request.ClipboardApply device
  | CAllow device direction state =>
      Request.ClipboardPolicy device (match direction with DirSend => FlagSend | DirReceive => FlagReceive end) (Toggle_enabled state)
  | CAutoSend device state => Request.ClipboardPolicy device FlagAutoSend (Toggle_enabled state)
  | CAutoReceive device state => Request.ClipboardPolicy device FlagAutoReceive (Toggle_enabled state)
  end.

Definition notifications_request (c : NotificationsCommand) : Request.t :=
  match c with
  | NStatus => Request.NotificationsStatus
  | NMirror device state => Request.NotificationsPolicy device (SetMirror (Toggle_enabled state))
  | NWhenLocked device policy => Request.NotificationsPolicy device (SetWhenLocked (WhenLocked_as_str policy))
  | NDismissSync device state => Request.NotificationsPolicy device (SetDismissSync (Toggle_enabled state))
  end.

(** * Effects *)

Inductive Effect :=
| Println (s : str)
| Print (s : str)
| Eprintln (s : str)
| Wrote (q : Request.t).

(** [main] returns, [exit(1)] is called, [main] returns an error (which exits
    with 1 and prints it), or the process panics. *)
Inductive CliEnd := Success | Exit1 | Failed | Panicked.

Definition exit_code (e : CliEnd) : N := match e with Success => 0 | Exit1 | Failed => 1 | Panicked => 101 end.

Definition Run := (list Effect * CliEnd)%type.
Definition print_lines (l : list str) : list Effect := Println <$> l.

(** * Numbers and durations *)

Definition show_u64 (n : N) : str := digits 20 n.
Definition pad_left (width : N) (c : N) (s : str) : str := repeat c (N.to_nat (width - len s)) ++ s.
Definition show_02 (n : N) : str := pad_left 2 48 (show_u64 n).

Definition human_duration (secs : N) : str :=
  if secs <? 60 then show_u64 secs ++ lit "s"
  else if secs <? 3600 then show_u64 (secs / 60) ++ lit "m" ++ show_02 (secs mod 60) ++ lit "s"
  else show_u64 (secs / 3600) ++ lit "h" ++ show_02 ((secs mod 3600) / 60) ++ lit "m".

(** [a / b] to the nearest integer, ties to the even one. *)
Definition round_half_even (a b : N) : N :=
  let q := a / b in
  let r := a mod b in
  if 2 * r <? b then q else if b <? 2 * r then q + 1 else if N.even q then q else q + 1.

(** [n as f64]: 53 significant bits; the value is an integer. *)
Definition as_f64 (n : N) : N :=
  let e := N.log2 n - 52 in
  round_half_even n (2 ^ e) * 2 ^ e.

(** The loop: a division by 1024 is exact, so the value after [unit] of them is
    [v / 1024 ^ unit]. *)
Fixpoint human_unit (steps : nat) (v : N) (unit_ : N) : N :=
  match steps with
  | O => unit_
  | S steps' => if 1024 * 1024 ^ unit_ <=? v then human_unit steps' v (unit_ + 1) else unit_
  end.

Definition UNITS : list str := [lit "B"; lit "KiB"; lit "MiB"; lit "GiB"; lit "TiB"].

Definition human_bytes (bytes : N) : str :=
  let v := as_f64 bytes in
  let u := human_unit 4 v 0 in
  if u =? 0 then show_u64 bytes ++ lit " B"
  else
    let tenths := round_half_even (10 * v) (1024 ^ u) in
    show_u64 (tenths / 10) ++ lit "." ++ show_u64 (tenths mod 10) ++ lit " " ++ default [] (UNITS !! N.to_nat u).

Definition yes_no (v : bool) : str := if v then lit "yes" else lit "no".
Definition on_off (v : bool) : str := if v then lit "on" else lit "off".
Definition DASH : str := [8212].

(** * Reports *)

Definition battery_line (b : BatteryReport) : str :=
  show_u64 (ba_percentage b) ++ lit "% (" ++ ba_charging_state b ++ lit ", " ++ human_duration (ba_age_secs b) ++ lit " old"
  ++ (if ba_stale b then lit "; STALE" else []) ++ lit ")".

(** [DeviceState]'s [Display]. *)
Definition DeviceState_fmt (s : DeviceState.t) : str :=
  match s with
  | DeviceState.Revoked => lit "revoked" | DeviceState.Connected => lit "connected"
  | DeviceState.Stale => lit "stale" | DeviceState.Disconnected => lit "disconnected"
  end.

Definition print_device (d : DeviceReport) (indent : str) : list str :=
  [indent ++ dr_device_name d ++ lit "  " ++ dr_device_id d;
   indent ++ lit "   platform    " ++ dr_platform d;
   indent ++ lit "   fingerprint " ++ dr_fingerprint_short d;
   indent ++ lit "   paired      " ++ yes_no (dr_paired d);
   indent ++ lit "   connected   " ++ yes_no (dr_connected d);
   indent ++ lit "   state       " ++ DeviceState_fmt (dr_state d)]
  ++ match dr_silent_secs d with
     | Some secs => [indent ++ lit "   last frame  " ++ human_duration secs ++ lit " ago"]
     | None => []
     end
  ++ match dr_last_seen_secs_ago d with
     | Some secs => if negb (dr_connected d) then [indent ++ lit "   last seen   " ++ human_duration secs ++ lit " ago"] else []
     | None => []
     end
  ++ [indent ++ lit "   granted     " ++
        match dr_granted_capabilities d with [] => lit "-" | l => join (lit ", ") l end]
  ++ match dr_battery d with
     | Some b => [indent ++ lit "   battery     " ++ battery_line b]
     | None => []
     end.

(** The slice of the first eight bytes panics when there are fewer or they end
    inside a character. *)
Definition print_transfer (t : TransferReport) (indent : str) : option (list str) :=
  if negb (is_char_boundary (xr_transfer_id t) 8) then None
  else Some (
    [indent ++ str_to (xr_transfer_id t) 8 ++ lit "  " ++ xr_direction t ++ lit " "
       ++ (if eqb (xr_direction t) (lit "sending") then lit "->" else lit "<-") ++ lit " " ++ xr_device_name t;
     indent ++ lit "   file        " ++ xr_filename t;
     indent ++ lit "   size        " ++ human_bytes (xr_size_bytes t);
     indent ++ lit "   state       " ++ xr_state t]
    ++ match xr_failure t with Some reason => [indent ++ lit "   reason      " ++ reason] | None => [] end
    ++ match xr_stored_at t with Some path => [indent ++ lit "   stored at   " ++ path] | None => [] end).

Fixpoint print_transfers (l : list TransferReport) : Run :=
  match l with
  | [] => ([], Success)
  | t :: l' =>
      match print_transfer t (lit "  ") with
      | None => ([], Panicked)
      | Some lines => let '(out, e) := print_transfers l' in (print_lines (lines ++ [[]]) ++ out, e)
      end
  end.

(** A line break inside what is printed. *)
Definition NL : str := [10].

Definition print_status (s : StatusReport) : list str :=
  [lit "Pliwee";
   lit "  device      " ++ sr_device_name s ++ lit " (" ++ sr_device_id s ++ lit ")";
   lit "  fingerprint " ++ sr_fingerprint_short s;
   lit "  key         " ++ sr_key_backing s ++ lit "-backed";
   lit "  listening   port " ++ show_u64 (sr_listen_port s) ++ lit " (" ++ sr_listen_families s ++ lit ")";
   lit "  protocol    v" ++ show_u64 (sr_protocol_version_min s) ++ lit "..v" ++ show_u64 (sr_protocol_version_max s);
   lit "  capabilities " ++ join (lit ", ") (sr_capabilities s);
   lit "  paired      " ++ show_u64 (sr_paired_devices s) ++ lit " device(s)"]
  ++ (if sr_pairing_active s then [lit "  pairing     window OPEN"] else [])
  ++ match sr_migrated_from s with
     | Some m => [lit "  migrated    from " ++ mo_source m ++ (if mo_this_run m then lit ", on this start" else [])
                  ++ lit " (source left unchanged)"]
     | None => []
     end
  ++ match sr_legacy_partial_files s with
     | [] => []
     | l => (NL ++ lit "  " ++ show_u64 (len l) ++ lit " interrupted OmniBridge transfer(s), left in place:")
            :: ((fun f => lit "    " ++ f) <$> l)
     end
  ++ match sr_devices s with
     | [] => [NL ++ lit "  no paired devices. Run: pliwee pair"]
     | l => (NL ++ lit "  devices:") :: (l ≫= fun d => print_device d (lit "    "))
     end.

(** ** Clipboard *)

Definition INDENT23 : str := repeat 32 23.

Definition clipboard_grant_text (revoked granted : bool) : str :=
  match revoked, granted with
  | true, _ => lit "unavailable " ++ DASH ++ lit " this device's pairing was revoked"
  | false, true => lit "granted"
  | false, false => lit "NOT granted (run: pliwee grant <device> clipboard.v1)"
  end.

Definition print_clipboard_peer (watch_available : bool) (p : ClipboardPeerReport) : list str :=
  [lit "    " ++ cp_device_name p ++ lit "  " ++ cp_device_id p;
   lit "      fingerprint  " ++ cp_fingerprint_short p;
   lit "      clipboard.v1 " ++ clipboard_grant_text (cp_revoked p) (cp_granted p);
   lit "      connected    " ++ yes_no (cp_connected p);
   lit "      policy       send=" ++ on_off (cp_allow_send p) ++ lit " receive=" ++ on_off (cp_allow_receive p)
     ++ lit " auto-send=" ++ on_off (cp_auto_send p) ++ lit " auto-receive=" ++ on_off (cp_auto_receive p)]
  ++ (if cp_auto_send p && negb watch_available
      then [lit "      warning      auto-send is on but this session cannot detect clipboard changes, so nothing is pushed"]
      else [])
  ++ match cp_last_outcome p with Some outcome => [lit "      last result  " ++ outcome] | None => [] end.

(** [replace(' ', "")]. *)
Definition without_spaces (s : str) : str := filter (fun c => c <> 32) s.

(** What is printed after [apply with: pliwee clipboard apply]. *)
Definition apply_selector `{!UnicodeCase} (clip : PendingClipReport) : str :=
  to_lowercase (without_spaces (pr_fingerprint_short clip)).

Definition print_pending `{!UnicodeCase} (clip : PendingClipReport) : list str :=
  [lit "    from " ++ pr_device_name clip ++ lit " (" ++ pr_fingerprint_short clip ++ lit ")  " ++ show_u64 (pr_bytes clip)
     ++ lit " bytes  sha256:" ++ pr_hash_prefix clip ++ lit "  " ++ (if pr_sensitive clip then lit "SENSITIVE  " else [])
     ++ human_duration (pr_age_secs clip) ++ lit " ago";
   lit "      apply with: pliwee clipboard apply " ++ apply_selector clip].

Definition available (b : bool) : str := if b then lit "available" else lit "unavailable".

Definition print_clipboard_status `{!UnicodeCase} (report : ClipboardStatusReport) : list str :=
  if negb (cs_enabled report) then [lit "clipboard.v1 is not enabled: " ++ cs_backend_detail report]
  else
    [lit "Clipboard";
     lit "  backend              " ++ cs_backend report;
     lit "  detail               " ++ cs_backend_detail report;
     lit "  ordinary clipboard   " ++ available (cs_backend_available report)]
    ++ (if negb (cs_backend_available report) then [INDENT23 ++ cs_backend_detail report] else [])
    ++ [lit "  sensitive clipboard  " ++ available (cs_sensitive_available report)]
    ++ (if negb (cs_sensitive_available report)
        then [INDENT23 ++ cs_sensitive_detail report;
              INDENT23 ++ lit "A clip arriving with sensitive_hint set will be REFUSED rather";
              INDENT23 ++ lit "than written unmarked. Ordinary clipboard sharing is unaffected."]
        else [])
    ++ [lit "  auto-send            " ++
          (if cs_watch_available report then lit "supported on this session"
           else lit "NOT supported here " ++ DASH ++ lit " this session cannot detect clipboard changes");
        lit "  manual send          " ++
          (if cs_watch_available report then lit "supported on this session"
           else lit "NOT supported here " ++ DASH ++ lit " sending reads the selection the same way auto-send watches it");
        lit "  receiving            supported " ++ DASH ++ lit " writing a clip needs no data-control protocol";
        lit "  caches               " ++ show_u64 (cs_event_cache_entries report) ++ lit " event id(s), "
          ++ show_u64 (cs_suppression_cache_entries report) ++ lit " suppression entr(ies)"]
    ++ match cs_peers report with
       | [] => [NL ++ lit "  no paired devices. Run: pliwee pair"]
       | peers =>
           (NL ++ lit "  devices:") :: (peers ≫= print_clipboard_peer (cs_watch_available report))
           ++ match cs_pending report with
              | [] => []
              | clips => (NL ++ lit "  waiting to be applied (auto-receive is off):") :: (clips ≫= print_pending)
              end
       end.

(** ** Notifications *)

Definition notification_grant_text (granted revoked : bool) : str :=
  match granted, revoked with
  | _, true => lit "device REVOKED"
  | true, false => lit "granted"
  | false, false => lit "NOT granted (run: pliwee grant <device> notifications.v1)"
  end.

Definition dismiss_sync_text (allow connected target local : bool) : str :=
  match allow, connected, target, local with
  | false, _, _, _ => lit "off"
  | true, false, _, _ => lit "on (the device is not connected)"
  | true, true, _, false => lit "on (this desktop cannot report dismissals)"
  | true, true, false, true => lit "on (the device has not said it will act on one)"
  | true, true, true, true => lit "on"
  end.

Definition print_notification_session (peer : NotificationPeerReport) : list str :=
  if negb (np_connected peer) then [lit "      not connected"]
  else
    [lit "      roles: this desktop announced " ++ show_u64 (np_local_roles peer) ++ lit " (epoch " ++ show_u64 (np_local_epoch peer)
       ++ lit "); the device " ++ (if np_peer_is_source peer then lit "can source notifications" else lit "claims no source role")
       ++ lit " (epoch " ++ show_u64 (np_peer_epoch peer) ++ lit ")";
     lit "      dismissal: this desktop " ++
       (if np_local_reports_dismissals peer then lit "reports human dismissals" else lit "cannot report human dismissals")
       ++ lit "; the device " ++
       (if np_peer_is_dismiss_target peer then lit "will act on a dismiss request" else lit "claims no dismiss-target role")]
    ++ (if np_snapshot_open peer then [lit "      a snapshot is in progress"] else [])
    ++ (if (0 <? np_queued peer) || (0 <? np_coalesced peer) || (0 <? np_dropped peer)
        then [lit "      queue: " ++ show_u64 (np_queued peer) ++ lit " pending, " ++ show_u64 (np_coalesced peer)
                ++ lit " coalesced, " ++ show_u64 (np_dropped peer) ++ lit " dropped"]
        else []).

Definition print_notification_peer (peer : NotificationPeerReport) : list str :=
  [lit "    " ++ np_device_name peer ++ lit " (" ++ np_fingerprint_short peer ++ lit ")";
   lit "      notifications.v1 " ++ notification_grant_text (np_granted peer) (np_revoked peer);
   lit "      mirror " ++ (if np_allow_mirror peer then lit "on " else lit "off") ++ lit "   when locked " ++ np_when_locked peer
     ++ lit "   dismiss-sync "
     ++ dismiss_sync_text (np_allow_dismiss_sync peer) (np_connected peer) (np_peer_is_dismiss_target peer)
          (np_local_reports_dismissals peer)]
  ++ (if (0 <? np_dismissals_sent peer) || (0 <? np_dismissals_refused peer)
      then [lit "      dismissals: " ++ show_u64 (np_dismissals_sent peer) ++ lit " sent, "
              ++ show_u64 (np_dismissals_refused peer) ++ lit " declined by the device"]
      else [])
  ++ [lit "      showing " ++ show_u64 (np_displayed peer) ++ lit " of " ++ show_u64 (np_mirrors peer) ++ lit " mirrored"
        ++ (if 0 <? np_evicted peer then lit ", " ++ show_u64 (np_evicted peer) ++ lit " closed at the ceiling" else [])]
  ++ print_notification_session peer.

Definition print_notifications_status (report : NotificationsStatusReport) : list str :=
  if negb (ns_enabled report) then [lit "notifications.v1 is not enabled: " ++ ns_backend_detail report]
  else
    [lit "Notifications";
     lit "  server        " ++ ns_backend_detail report;
     lit "  reachable     " ++ (if ns_available report then lit "yes"
        else lit "NO " ++ DASH ++ lit " this desktop announces no SINK role, so nothing is sent to it");
     lit "  body markup   " ++ (if ns_body_markup report then lit "yes " ++ DASH ++ lit " bodies are escaped before they are sent"
        else lit "no");
     lit "  persistence   " ++ (if ns_persistence report
        then lit "yes " ++ DASH ++ lit " notifications stay in the list until acknowledged"
        else lit "no " ++ DASH ++ lit " notifications are transient banners");
     lit "  lock state    " ++ ns_lock_detail report;
     lit "  screen        " ++ (if ns_locked report then lit "LOCKED" else lit "unlocked");
     lit "  mirrored now  " ++ show_u64 (ns_mirrors report)]
    ++ match ns_peers report with
       | [] => [NL ++ lit "  no paired devices."]
       | peers => (NL ++ lit "  Devices") :: (peers ≫= print_notification_peer)
       end.

(** * One request *)

(** A line of the daemon, with the message of an [Ok] reply; a read that
    failed; the end of the list is the end of the stream. *)
Record CliLine := { cl_text : LineText; cl_message : str }.
Inductive StreamItem := SLine (l : CliLine) | SReadError.

Definition print_response `{!UnicodeCase} (resp : Response.t) (message : str) : Run :=
  match resp with
  | Response.Status s => (print_lines (print_status s), Success)
  | Response.Devices [] => ([Println (lit "no paired devices. Run: pliwee pair")], Success)
  | Response.Devices l => (print_lines (l ≫= fun d => print_device d (lit "   ")), Success)
  | Response.Transfers [] => ([Println (lit "no transfers since the daemon started.")], Success)
  | Response.Transfers l => print_transfers l
  | Response.Clipboard r => (print_lines (print_clipboard_status r), Success)
  | Response.Notifications r => (print_lines (print_notifications_status r), Success)
  | Response.Pong rtt_ms => ([Println (lit "pong in " ++ show_u64 rtt_ms ++ lit " ms")], Success)
  | Response.Ok => ([Println message], Success)
  | Response.Error m => ([Eprintln (lit "error: " ++ lit m)], Exit1)
  end.

(** [simple]: [written] is whether the request could be written. *)
Definition simple `{!UnicodeCase} (request : Request.t) (written : bool) (stream : list StreamItem) : Run :=
  if negb written then ([], Failed)
  else
    let '(out, e) := match stream with
                     | [] | SReadError :: _ => ([], Failed)
                     | SLine l :: _ =>
                         match lt_response (cl_text l) with
                         | None => ([], Failed)
                         | Some resp => print_response resp (cl_message l)
                         end
                     end in
    (Wrote request :: out, e).

(** * Sending a file *)

(** The bar has 24 places; a percentage above 104 makes the subtraction
    underflow. *)
Definition progress_line (t : TransferReport) : option str :=
  match xr_percentage t with
  | Some pct =>
      let filled := pct * 24 / 100 in
      if 24 <? filled then None
      else Some (lit "  [" ++ repeat 61 (N.to_nat filled) ++ repeat 32 (N.to_nat (24 - filled)) ++ lit "] "
                 ++ pad_left 3 32 (show_u64 pct) ++ lit "%  " ++ human_bytes (xr_bytes_transferred t) ++ lit " / "
                 ++ human_bytes (xr_size_bytes t))
  | None => Some (lit "  " ++ xr_state t ++ lit " (" ++ human_bytes (xr_size_bytes t) ++ lit ")")
  end.

Definition CR : str := [13].

(** The reading loop; [named] is whether the file has been named. *)
Fixpoint send_stream (named : bool) (stream : list StreamItem) : Run :=
  match stream with
  | [] => ([], Success)
  | SReadError :: _ => ([], Failed)
  | SLine l :: rest =>
      match is_error_line (cl_text l) with
      | Some m => ([Eprintln (lit "error: " ++ lit m)], Exit1)
      | None =>
          match lt_event (cl_text l) with
          | None => ([], Failed)
          | Some (Event.TransferProgress t) =>
              let head := if named then []
                          else [Println (xr_filename t ++ lit " -> " ++ xr_device_name t ++ lit " (" ++ human_bytes (xr_size_bytes t) ++ lit ")")] in
              match progress_line t with
              | None => (head, Panicked)
              | Some line => let '(out, e) := send_stream true rest in (head ++ [Print (CR ++ line)] ++ out, e)
              end
          | Some (Event.Finished status detail) =>
              if String.eqb status "completed" then ([Println []; Println (lit "Sent. " ++ detail)], Success)
              else if String.eqb status "cancelled" then ([Println []; Println (lit "Cancelled: " ++ detail)], Success)
              else ([Println []; Eprintln (lit "Transfer " ++ lit status ++ lit ": " ++ detail)], Exit1)
          | Some _ => send_stream named rest
          end
      end
  end.

(** [canonical]: what [canonicalize] makes of the path. *)
Definition send_file (device : str) (canonical : option str) (written : bool) (stream : list StreamItem) : Run :=
  match canonical with
  | None => ([], Failed)
  | Some path =>
      if negb written then ([], Failed)
      else let '(out, e) := send_stream false stream in (Wrote (Request.Send device path) :: out, e)
  end.

(** * Pairing *)

(** What a prompt read within its minute, or nothing; and whether the answer
    could be written. *)
Record Answer := { an_line : option str; an_written : bool }.

Definition read_yes_no (line : option str) : bool :=
  match line with
  | Some l => let s := map ascii_lower (trim l) in eqb s (lit "y") || eqb s (lit "yes")
  | None => false
  end.

Definition confirm_prompt (device_name device_id fingerprint_short : str) : list Effect :=
  [Println (lit "A device proved it holds the pairing code:" ++ NL);
   Println (lit "  name        " ++ device_name);
   Println (lit "  device id   " ++ device_id);
   Println (lit "  fingerprint " ++ fingerprint_short);
   Println (NL ++ lit "Check that the fingerprint matches the one shown on the phone.");
   Print (lit "Pair with this device? [y/N] ")].

Definition finished_text (status : string) (detail : str) : str :=
  if String.eqb status "paired" then NL ++ lit "Paired with " ++ detail ++ lit "."
  else if String.eqb status "declined" then NL ++ lit "Declined. " ++ detail ++ lit " was not paired."
  else if String.eqb status "expired" then NL ++ lit "Pairing window expired. Run `pliwee pair` again."
  else NL ++ lit "Pairing ended: " ++ lit status ++ lit " (" ++ detail ++ lit ")".

(** The loop; each prompt takes the next answer, and with none left nobody
    answers. *)
Fixpoint pair_prompts (stream : list StreamItem) (answers : list Answer) : Run :=
  match stream with
  | [] => ([], Success)
  | SReadError :: _ => ([], Failed)
  | SLine l :: rest =>
      match is_error_line (cl_text l) with
      | Some m => ([Eprintln (lit "error: " ++ lit m)], Exit1)
      | None =>
          match lt_event (cl_text l) with
          | None => ([], Failed)
          | Some (Event.PairingReady payload qr_ascii expires_in_secs) =>
              let '(out, e) := pair_prompts rest answers in
              ([Println qr_ascii; Println (lit "Scan this with Pliwee on your phone.");
                Println (lit "Expires in " ++ show_u64 expires_in_secs ++ lit "s. The code is single-use." ++ NL);
                Println (lit "If your phone cannot scan, the payload is:" ++ NL ++ lit "  " ++ payload ++ NL)] ++ out, e)
          | Some (Event.ConfirmRequest device_name device_id _ fingerprint_short) =>
              let answer := default {| an_line := None; an_written := true |} (head answers) in
              let prompt := confirm_prompt device_name device_id fingerprint_short in
              if negb (an_written answer) then (prompt, Failed)
              else let '(out, e) := pair_prompts rest (tail answers) in
                   (prompt ++ [Wrote (Request.Confirm (read_yes_no (an_line answer)))] ++ out, e)
          | Some (Event.Finished status detail) => ([Println (finished_text status detail)], Success)
          | Some _ => pair_prompts rest answers
          end
      end
  end.

Definition pair_client (ttl : option N) (written : bool) (stream : list StreamItem) (answers : list Answer) : Run :=
  if negb written then ([], Failed)
  else let '(out, e) := pair_prompts stream answers in (Wrote (Request.Pair ttl) :: out, e).

(** * [main] *)

(** What the world does during a run. *)
Record Terminal := {
  te_connected : bool;
  te_written : bool;
  te_canonical : option str;
  te_stream : list StreamItem;
  te_answers : list Answer
}.

(** The request of the commands that make one and print its reply. *)
Definition simple_request (c : CliCommand) : option Request.t :=
  match c with
  | CmdStatus => Some Request.Status
  | CmdDevices => Some Request.Devices
  | CmdPing device => Some (Request.Ping device)
  | CmdUnpair device => Some (Request.Unpair device)
  | CmdRemoveFromList (Some fingerprint) false => Some (Request.HideRevokedDevice fingerprint)
  | CmdRemoveFromList None true => Some Request.HideAllRevokedDevices
  | CmdRemoveFromList _ _ => None
  | CmdGrant device capability => Some (Request.Grant device capability true)
  | CmdRevoke device capability => Some (Request.Grant device capability false)
  | CmdTransfers => Some Request.Transfers
  | CmdCancel transfer => Some (Request.CancelTransfer transfer)
  | CmdClipboard c => Some (clipboard_request c)
  | CmdNotifications c => Some (notifications_request c)
  | CmdPair _ | CmdSend _ _ => None
  end.

Definition cli_main `{!UnicodeCase} (c : CliCommand) (t : Terminal) : Run :=
  if negb (te_connected t) then ([], Failed)
  else match c with
       | CmdPair ttl => pair_client ttl (te_written t) (te_stream t) (te_answers t)
       | CmdSend device _ => send_file device (te_canonical t) (te_written t) (te_stream t)
       | _ => match simple_request c with
              | Some q => simple q (te_written t) (te_stream t)
              | None => ([], Failed)
              end
       end.
