(* ===== verification/Replay.v ===== *)
(** The replay guard and the envelope factory.

    [core/src/session.rs]: [ReplayGuard], [EnvelopeFactory] and
    [negotiate_version].  The specification of the guard is [fresh], a predicate
    on the whole history of what was admitted; [guard_refines_history] shows that
    the bounded guard decides exactly that. *)
From S2P Require Import Prelude External Ids Wire.

Definition PROTOCOL_VERSION_MIN : N := 1.
Definition PROTOCOL_VERSION_MAX : N := 1.
Definition DEDUP_WINDOW : nat := 1024.

(** * [negotiate_version] *)

Definition negotiate_version (peer_min peer_max : N) : option N :=
  let chosen := N.min peer_max PROTOCOL_VERSION_MAX in
  let floor := N.max peer_min PROTOCOL_VERSION_MIN in
  if floor <=? chosen then Some chosen else None.

(** The highest version both sides speak, if there is one. *)
Lemma negotiate_version_spec peer_min peer_max v :
  negotiate_version peer_min peer_max = Some v <->
  (peer_min <= v <= peer_max /\ PROTOCOL_VERSION_MIN <= v <= PROTOCOL_VERSION_MAX) /\
  forall w, peer_min <= w <= peer_max -> PROTOCOL_VERSION_MIN <= w <= PROTOCOL_VERSION_MAX -> w <= v.
Proof.
  unfold negotiate_version, PROTOCOL_VERSION_MIN, PROTOCOL_VERSION_MAX.
  destruct (N.leb_spec (N.max peer_min 1) (N.min peer_max 1)) as [Hle|Hgt]; split.
  - intros [= <-]. split; [lia|]. intros; lia.
  - intros [[? ?] Hmax]. f_equal. specialize (Hmax 1). lia.
  - done.
  - intros [[? ?] _]. lia.
Qed.

(** * [EnvelopeFactory] *)

Record EnvelopeFactory := { ef_protocol_version : N; ef_sequence : N }.

Definition EnvelopeFactory_new (v : N) : EnvelopeFactory :=
  {| ef_protocol_version := v; ef_sequence := 0 |}.

(** [build]: the id and the time of day are the environment's. *)
Definition build (f : EnvelopeFactory) (id : bytes) (now_unix_ms : Z) (body : Body) : Envelope * EnvelopeFactory :=
  let f' := {| ef_protocol_version := ef_protocol_version f;
               ef_sequence := wrap_add_u64 (ef_sequence f) 1 |} in
  ({| e_protocol_version := ef_protocol_version f; e_message_id := id;
      e_sequence := ef_sequence f'; e_timestamp_unix_ms := now_unix_ms;
      e_correlation_id := []; e_body := Some body |}, f').

Definition build_reply (f : EnvelopeFactory) (id : bytes) (now_unix_ms : Z) (body : Body)
    (correlate : bytes) : Envelope * EnvelopeFactory :=
  let '(e, f') := build f id now_unix_ms body in
  ({| e_protocol_version := e_protocol_version e; e_message_id := e_message_id e;
      e_sequence := e_sequence e; e_timestamp_unix_ms := e_timestamp_unix_ms e;
      e_correlation_id := correlate; e_body := e_body e |}, f').

(** * [ReplayGuard] *)

Record ReplayGuard := { rg_last_sequence : N; rg_seen : gset bytes; rg_order : list bytes }.

Definition ReplayGuard_new : ReplayGuard := {| rg_last_sequence := 0; rg_seen := ∅; rg_order := [] |}.

Definition ReplayGuard_admit (g : ReplayGuard) (e : Envelope) : Result unit * ReplayGuard :=
  if negb (len (e_message_id e) =? 16) then (Err (EProtocol "message_id must be 16 bytes"), g)
  else if e_sequence e <=? rg_last_sequence g then (Err (EProtocol "sequence number did not increase"), g)
  else if bool_decide (e_message_id e ∈ rg_seen g) then (Err (EProtocol "duplicate message_id"), g)
  else
    let seen := {[ e_message_id e ]} ∪ rg_seen g in
    let order := rg_order g ++ [e_message_id e] in
    if Nat.ltb DEDUP_WINDOW (length order) then
      match order with
      | old :: order' =>
          (Ok tt, {| rg_last_sequence := e_sequence e; rg_seen := seen ∖ {[ old ]}; rg_order := order' |})
      | [] => (Ok tt, {| rg_last_sequence := e_sequence e; rg_seen := seen; rg_order := order |})
      end
    else (Ok tt, {| rg_last_sequence := e_sequence e; rg_seen := seen; rg_order := order |}).

(** Feeding a connection's envelopes to its guard: the verdicts. *)
Fixpoint admits (g : ReplayGuard) (l : list Envelope) : list bool * ReplayGuard :=
  match l with
  | [] => ([], g)
  | e :: l' =>
      let '(r, g') := ReplayGuard_admit g e in
      let '(vs, g'') := admits g' l' in (is_ok r :: vs, g'')
  end.

(** * Specification *)

(** The last [n] elements. *)
Definition last_n {A} (n : nat) (l : list A) : list A := drop (length l - n) l.

(** What the header of the module promises about an envelope after a history of
    admitted ones (oldest first). *)
Definition fresh (history : list Envelope) (e : Envelope) : bool :=
  (len (e_message_id e) =? 16)
  && forallb (fun p => e_sequence p <? e_sequence e) history
  && (0 <? e_sequence e)
  && negb (mem (e_message_id e) (last_n DEDUP_WINDOW (e_message_id <$> history))).

(** Verdicts by the whole history, which only grows. *)
Fixpoint judge (history : list Envelope) (l : list Envelope) : list bool * list Envelope :=
  match l with
  | [] => ([], history)
  | e :: l' =>
      let b := fresh history e in
      let '(vs, h) := judge (if b then history ++ [e] else history) l' in (b :: vs, h)
  end.

(** The guard is the summary of a history. *)
Record guards (g : ReplayGuard) (history : list Envelope) : Prop := {
  g_last : rg_last_sequence g = foldr (fun e m => N.max (e_sequence e) m) 0 history;
  g_order : rg_order g = last_n DEDUP_WINDOW (e_message_id <$> history);
  g_nodup : NoDup (rg_order g);
  g_seen : forall i, i ∈ rg_seen g <-> i ∈ rg_order g
}.

Lemma max_sequence_lt history n :
  forallb (fun p => e_sequence p <? n) history = true /\ 0 < n <->
  foldr (fun e m => N.max (e_sequence e) m) 0 history < n.
Proof.
  induction history as [|e h IH]; simpl; [naive_solver|].
  rewrite andb_true_iff, N.ltb_lt, N.max_lub_lt_iff, <- IH. tauto.
Qed.

Lemma elem_of_last_n {A} n (l : list A) x : x ∈ last_n n l -> x ∈ l.
Proof. intros Hx. rewrite <- (take_drop (length l - n) l). set_solver. Qed.

Lemma last_n_length {A} n (l : list A) : (length (last_n n l) <= n)%nat.
Proof. unfold last_n. rewrite length_drop. lia. Qed.

Lemma last_n_snoc {A} n (l : list A) x : (0 < n)%nat ->
  last_n n (l ++ [x]) = if Nat.ltb n (S (length l)) then drop (length l - n + 1) l ++ [x] else l ++ [x].
Proof.
  intros Hn. unfold last_n. rewrite length_app. simpl. destruct (Nat.ltb_spec n (S (length l))).
  - replace (length l + 1 - n)%nat with (length l - n + 1)%nat by lia.
    by rewrite drop_app_le by lia.
  - by replace (length l + 1 - n)%nat with 0%nat by lia.
Qed.

Lemma last_n_short {A} n (l : list A) : (length l <= n)%nat -> last_n n l = l.
Proof. intros H. unfold last_n. by replace (length l - n)%nat with 0%nat by lia. Qed.

(** Pushing at the back and popping the front is the window of the longer
    history. *)
Lemma window_push {A} n (l : list A) x : (0 < n)%nat ->
  last_n n (l ++ [x]) =
    let w := last_n n l ++ [x] in if Nat.ltb n (length w) then tail w else w.
Proof.
  intros Hn. simpl. rewrite length_app. simpl. destruct (Nat.ltb_spec n (length (last_n n l) + 1)) as [Hlt|Hge].
  - assert (Hlen : (n <= length l)%nat).
    { unfold last_n in Hlt. rewrite length_drop in Hlt. lia. }
    rewrite last_n_snoc by done. destruct (Nat.ltb_spec n (S (length l))); [|lia].
    unfold last_n. rewrite <- drop_drop. destruct (drop (length l - n) l) as [|y k] eqn:Hd; [|done].
    apply (f_equal length) in Hd. rewrite length_drop in Hd. simpl in Hd. lia.
  - assert (Hlen : (length l < n)%nat).
    { unfold last_n in Hge. rewrite length_drop in Hge. lia. }
    rewrite last_n_snoc by done. destruct (Nat.ltb_spec n (S (length l))); [lia|].
    by rewrite last_n_short by lia.
Qed.

Lemma fresh_admit g history e : guards g history ->
  fresh history e = is_ok (ReplayGuard_admit g e).1 /\
  (fresh history e = false -> (ReplayGuard_admit g e).2 = g) /\
  (fresh history e = true -> guards (ReplayGuard_admit g e).2 (history ++ [e])).
Proof.
  intros [Hlast Horder Hnd Hseen].
  assert (Hfresh : fresh history e = (len (e_message_id e) =? 16)
    && (rg_last_sequence g <? e_sequence e) && negb (bool_decide (e_message_id e ∈ rg_seen g))).
  { unfold fresh. f_equal.
    - rewrite <- andb_assoc. f_equal. apply eq_true_iff_eq. rewrite andb_true_iff, !N.ltb_lt, Hlast.
      apply max_sequence_lt.
    - f_equal. apply eq_true_iff_eq. rewrite mem_true, bool_decide_eq_true, Hseen, Horder. done. }
  rewrite Hfresh. unfold ReplayGuard_admit. 
  destruct (len (e_message_id e) =? 16) eqn:Hl; [|done]. simpl.
  rewrite (N.ltb_antisym (e_sequence e)).
  destruct (e_sequence e <=? rg_last_sequence g) eqn:Hs; [done|]. simpl.
  case_bool_decide as Hin; [done|]. simpl. apply N.leb_gt in Hs.
  pose proof (window_push DEDUP_WINDOW (e_message_id <$> history) (e_message_id e)) as Hw.
  rewrite <- Horder in Hw. unfold DEDUP_WINDOW in *. specialize (Hw ltac:(lia)). simpl in Hw.
  assert (Hmax : e_sequence e = foldr (fun p m => N.max (e_sequence p) m) 0 (history ++ [e])).
  { clear -Hlast Hs. assert (Hgen : forall h k, foldr (fun p m => N.max (e_sequence p) m) k h =
      N.max k (foldr (fun p m => N.max (e_sequence p) m) 0 h)).
    { induction h as [|p h IH]; intros k; simpl; [lia|]. rewrite IH. lia. }
    rewrite foldr_app, Hgen. simpl. lia. }
  assert (Hnd' : NoDup (rg_order g ++ [e_message_id e])).
  { apply NoDup_app. split_and!; [done| |apply NoDup_singleton].
    intros i Hi ->%list_elem_of_singleton. by apply Hin, Hseen. }
  destruct (Nat.ltb 1024 (length (rg_order g ++ [e_message_id e]))) eqn:Hlt;
    [|split_and!; [done..|]; intros _; split; simpl; try done;
      [by rewrite fmap_app | intros i; rewrite elem_of_app; set_solver]].
  destruct (rg_order g ++ [e_message_id e]) as [|old order'] eqn:Ho; [done|].
  split_and!; [done..|]. intros _. inversion Hnd' as [|?? Hold Hnd2]; subst. split; simpl; try done.
  - by rewrite fmap_app.
  - intros i. rewrite elem_of_difference, elem_of_singleton, elem_of_union, elem_of_singleton, Hseen.
    assert (i ∈ rg_order g ++ [e_message_id e] <-> i = old \/ i ∈ order') as Hiff
      by (rewrite Ho; set_solver).
    rewrite elem_of_app, list_elem_of_singleton in Hiff. 
    destruct (decide (i = old)) as [->|]; [split; [by intros [_ []]|done] | tauto].
Qed.

Lemma guards_new : guards ReplayGuard_new [].
Proof. split; simpl; [done|done|constructor|set_solver]. Qed.

Lemma admits_judge g history l : guards g history ->
  (admits g l).1 = (judge history l).1 /\ guards (admits g l).2 (judge history l).2.
Proof.
  revert g history. induction l as [|e l IH]; intros g history Hg; simpl; [done|].
  destruct (fresh_admit g history e Hg) as (Hb & Hno & Hyes).
  destruct (ReplayGuard_admit g e) as [r g'] eqn:Ha. simpl in *.
  destruct (fresh history e) eqn:Hf.
  - specialize (IH g' (history ++ [e]) (Hyes eq_refl)).
    destruct (admits g' l), (judge (history ++ [e]) l). simpl in *. destruct IH as [-> ?]. by rewrite <- Hb.
  - rewrite (Hno eq_refl) in *. specialize (IH g history Hg).
    destruct (admits g l), (judge history l). simpl in *. destruct IH as [-> ?]. by rewrite <- Hb.
Qed.

Lemma judge_sorted history l :
  StronglySorted N.lt (e_sequence <$> history) -> StronglySorted N.lt (e_sequence <$> (judge history l).2).
Proof.
  revert history. induction l as [|e l IH]; intros h Hh; simpl; [done|].
  assert (StronglySorted N.lt (e_sequence <$> (if fresh h e then h ++ [e] else h))) as Hs.
  { destruct (fresh h e) eqn:Hf; [|done]. unfold fresh in Hf. rewrite !andb_true_iff in Hf.
    destruct Hf as [[[_ Hall] _] _]. rewrite fmap_app. apply StronglySorted_app_2; [|done|repeat constructor].
    intros x y Hx Hy. apply list_elem_of_fmap in Hx as (p & -> & Hp).
    apply list_elem_of_singleton in Hy as ->. rewrite forallb_forall in Hall.
    rewrite list_elem_of_In in Hp. by apply N.ltb_lt, Hall. }
  specialize (IH _ Hs). by destruct (judge _ l).
Qed.

(** C24: replay protection.  For any sequence of envelopes a peer may send, the
    bounded guard gives exactly the verdicts of the unbounded specification: an
    envelope is admitted when its id has 16 bytes and was not among the last
    1024 admitted ids, and its sequence number exceeds every admitted one.  So
    admitted sequence numbers strictly increase, and the guard never remembers
    more than 1024 ids. *)
Theorem replay_guard_refines l :
  (admits ReplayGuard_new l).1 = (judge [] l).1 /\
  StronglySorted N.lt (e_sequence <$> (judge [] l).2) /\
  (length (rg_order (admits ReplayGuard_new l).2) <= DEDUP_WINDOW)%nat /\
  (size (rg_seen (admits ReplayGuard_new l).2) <= DEDUP_WINDOW)%nat.
Proof.
  destruct (admits_judge _ _ l guards_new) as [Hv [_ Ho Hnd Hs]].
  split_and!; [done | apply judge_sorted; constructor | rewrite Ho; apply last_n_length |].
  assert (rg_seen (admits ReplayGuard_new l).2 = list_to_set (rg_order (admits ReplayGuard_new l).2)) as ->.
  { apply set_eq. intros i. by rewrite Hs, elem_of_list_to_set. }
  rewrite size_list_to_set by done. rewrite Ho. apply last_n_length.
Qed.
