(* ===== verification/Discovery.v ===== *)
(** Discovery records.

    [core/src/discovery.rs]: the TXT record this device publishes and what is
    read from a peer's.  The theorem: what is published is what is read, and a
    device name that came through here has no control character and at most 64
    characters. *)
From S2P Require Import Prelude Ids Qr Replay.

Definition TXT_SCHEMA_VERSION : str := lit "1".
Definition MAX_DEVICE_NAME_LEN : nat := 64.

Definition sanitize_device_name (name : str) : str :=
  take MAX_DEVICE_NAME_LEN (filter (fun c => is_control c = false) name).

(** [str::parse::<u32>]: an optional plus sign, then decimal digits, in range. *)
Definition parse_digits (s : str) : option N :=
  foldl (fun acc c => a ← acc; if is_ascii_digit c then Some (a * 10 + (c - 48)) else None) (Some 0) s.
Definition parse_u32 (s : str) : option N :=
  let s' := match s with 43 :: t => t | _ => s end in
  match s' with
  | [] => None
  | _ => n ← parse_digits s'; if n <=? u32_max then Some n else None
  end.

Record DiscoveredPeer (Ip : Type) := {
  dp_device_id : option str;
  dp_device_name : option str;
  dp_min_protocol_version : option N;
  dp_max_protocol_version : option N;
  dp_addresses : list (Ip * N)
}.
Arguments dp_device_id {_}. Arguments dp_device_name {_}. Arguments dp_min_protocol_version {_}.
Arguments dp_max_protocol_version {_}. Arguments dp_addresses {_}.

Definition build_txt (device_id device_name : str) : gmap str str :=
  <[lit "dn" := sanitize_device_name device_name]>
  (<[lit "id" := device_id]>
  (<[lit "pv" := u32_to_string PROTOCOL_VERSION_MIN ++ lit "-" ++ u32_to_string PROTOCOL_VERSION_MAX]>
  (<[lit "v" := TXT_SCHEMA_VERSION]> ∅))).

Definition HYPHEN : N := 45.

Definition parse_discovered {Ip : Type} (txt : gmap str str) (addresses : list Ip) (port : N) : DiscoveredPeer Ip :=
  let versions :=
    match txt !! lit "pv" ≫= split_once HYPHEN with
    | Some (a, b) => (parse_u32 a, parse_u32 b)
    | None => (None, None)
    end in
  {| dp_device_id := match txt !! lit "id" with
                     | Some s => if (str_len s <=? 64) && is_hex s then Some s else None
                     | None => None
                     end;
     dp_device_name := sanitize_device_name <$> txt !! lit "dn";
     dp_min_protocol_version := versions.1;
     dp_max_protocol_version := versions.2;
     dp_addresses := map (fun ip => (ip, port)) addresses |}.

Definition version_compatible {Ip : Type} (peer : DiscoveredPeer Ip) : bool :=
  match dp_min_protocol_version peer, dp_max_protocol_version peer with
  | Some mn, Some mx => match negotiate_version mn mx with Some _ => true | None => false end
  | _, _ => true
  end.

Lemma sanitize_clean name :
  Forall (fun c => is_control c = false) (sanitize_device_name name) /\
  (length (sanitize_device_name name) <= MAX_DEVICE_NAME_LEN)%nat.
Proof.
  unfold sanitize_device_name. split; [|rewrite length_take; lia].
  apply Forall_take, Forall_forall. intros c Hc. by apply list_elem_of_filter in Hc as [? _].
Qed.

Lemma sanitize_idem name : sanitize_device_name (sanitize_device_name name) = sanitize_device_name name.
Proof.
  unfold sanitize_device_name at 1. destruct (sanitize_clean name) as [Hc Hl].
  assert (filter (fun c => is_control c = false) (sanitize_device_name name) = sanitize_device_name name) as ->.
  { clear Hl. induction Hc as [|c l Hx _ IH]; [done|]. by rewrite filter_cons_True, IH. }
  by apply take_ge.
Qed.

(** A published record reads back: the id of this device, its sanitized
    name (clean and short whatever name it was given), a version range this
    build is compatible with, and the addresses it was seen at. *)
Theorem discovery_roundtrip {Ip : Type} device_id name (ips : list Ip) port :
  str_len device_id <= 64 -> is_hex device_id = true ->
  let p := parse_discovered (build_txt device_id name) ips port in
  dp_device_id p = Some device_id /\ dp_device_name p = Some (sanitize_device_name name) /\
  Forall (fun c => is_control c = false) (sanitize_device_name name) /\
  (length (sanitize_device_name name) <= MAX_DEVICE_NAME_LEN)%nat /\
  version_compatible p = true /\ dp_addresses p = map (fun ip => (ip, port)) ips.
Proof.
  intros Hlen Hhex p.
  assert (Hid : build_txt device_id name !! lit "id" = Some device_id) by done.
  assert (Hdn : build_txt device_id name !! lit "dn" = Some (sanitize_device_name name)) by done.
  assert (Hpv : build_txt device_id name !! lit "pv" = Some (lit "1-1")) by done.
  unfold p, parse_discovered. rewrite Hid, Hdn, Hpv. simpl.
  rewrite (proj2 (N.leb_le _ _) Hlen), Hhex. simpl. rewrite sanitize_idem.
  destruct (sanitize_clean name). done.
Qed.

Lemma discovery_roundtrip_witness :
  dp_device_id (parse_discovered (build_txt (lit "0a") [7; 65]) [tt] 55432) = Some (lit "0a").
Proof. refine (proj1 (discovery_roundtrip (lit "0a") [7; 65] [tt] 55432 _ _)); vm_compute; congruence. Defined.
