(* ===== verification/Endpoint.v ===== *)
(** The control endpoint on Linux.

    [platform-linux/src/lib.rs]: the path of the control socket, and binding it
    so that a socket left by a crash is replaced and one with a live daemon
    behind it is not.  [bind] is cut at its system calls, each of which may fail,
    so that two processes can be interleaved. *)
From S2P Require Import Prelude External Ids Discovery UnixFs Utf8 MigrateFs Migration.

(** * Where it is *)

(** [control_socket_path_from] *)
Definition control_socket_path_from (runtime_dir : option str) (uid : N) : str :=
  let base := match runtime_dir with Some d => d | None => lit "/tmp/pliwee-" ++ u32_to_string uid end in
  path_join (path_join base (lit "pliwee")) (lit "control.sock").

(** [split_whitespace().next()] *)
Definition first_word (s : str) : option str :=
  match take_while (fun c => negb (is_whitespace c)) (trim_start s) with [] => None | w => Some w end.

(** [nix_uid], given what reading [/proc/self/status] returned. *)
Definition nix_uid (status : option str) : N :=
  default 0 (s ← status; l ← list_find (fun l => is_Some (strip_prefix (lit "Uid:") l)) (lines s) ≫= (fun p => strip_prefix (lit "Uid:") p.2);
             w ← first_word l; parse_u32 w).

(** * The socket *)

(** What is at the path; [SockOf (Some p)] has process [p] listening on it. *)
Inductive SockPath := NoFile | SockOf (owner : option N) (mode : N) | OtherFile.

Record EpFs := { ep_dir : option N; ep_path : SockPath }.

Definition with_path (fs : EpFs) (p : SockPath) : EpFs := {| ep_dir := ep_dir fs; ep_path := p |}.

Inductive BindError := AlreadyOwned | BindIo.

(** Where in [bind] a process is. *)
Inductive Pc :=
| AtCreateDir | AtHardenDir | AtExamine | AtProbe | AtRemove | AtBind | AtHarden
| Listening
| Refused (e : BindError).

#[export] Instance SockPath_eq_dec : EqDecision SockPath.
Proof. solve_decision. Defined.
#[export] Instance BindError_eq_dec : EqDecision BindError.
Proof. solve_decision. Defined.
#[export] Instance Pc_eq_dec : EqDecision Pc.
Proof. solve_decision. Defined.

Definition NEW_DIR_MODE : N := 493.     (* 0o777 under the usual umask *)
Definition NEW_SOCKET_MODE : N := 493.

(** [socket_has_live_owner]: whether connecting works.  It can fail with a live
    owner too. *)
Definition socket_has_live_owner (fails : bool) (fs : EpFs) : bool :=
  match ep_path fs with SockOf (Some _) _ => negb fails | _ => false end.

(** Dropping the listener leaves the file. *)
Definition drop_listener (pid : N) (fs : EpFs) : EpFs :=
  match ep_path fs with
  | SockOf (Some p) m => if p =? pid then with_path fs (SockOf None m) else fs
  | _ => fs
  end.

(** The next system call of [bind] in process [pid]. *)
Definition bind_step (pid : N) (fails : bool) (pc : Pc) (fs : EpFs) : Pc * EpFs :=
  match pc with
  | AtCreateDir =>
      if fails then (Refused BindIo, fs)
      else (AtHardenDir, {| ep_dir := Some (default NEW_DIR_MODE (ep_dir fs)); ep_path := ep_path fs |})
  | AtHardenDir => if fails then (Refused BindIo, fs) else (AtExamine, {| ep_dir := Some DIR_MODE; ep_path := ep_path fs |})
  | AtExamine =>
      if fails then (Refused BindIo, fs)
      else (match ep_path fs with NoFile => AtBind | _ => AtProbe end, fs)
  | AtProbe => (if socket_has_live_owner fails fs then Refused AlreadyOwned else AtRemove, fs)
  | AtRemove =>
      if fails then (Refused BindIo, fs)
      else match ep_path fs with NoFile => (Refused BindIo, fs) | _ => (AtBind, with_path fs NoFile) end
  | AtBind =>
      if fails then (Refused BindIo, fs)
      else match ep_path fs with
           | NoFile => (AtHarden, with_path fs (SockOf (Some pid) NEW_SOCKET_MODE))
           | _ => (Refused BindIo, fs)
           end
  | AtHarden =>
      if fails then (Refused BindIo, drop_listener pid fs)
      else match ep_path fs with
           | NoFile => (Refused BindIo, fs)
           | SockOf o _ => (Listening, with_path fs (SockOf o FILE_MODE))
           | OtherFile => (Listening, fs)
           end
  | Listening | Refused _ => (pc, fs)
  end.

(** [bind] undisturbed: at most seven calls, none made twice, [faults] saying of
    each whether it fails. *)
Fixpoint bind_from (calls : nat) (pid : N) (faults : Pc -> bool) (pc : Pc) (fs : EpFs) : Pc * EpFs :=
  match calls with
  | O => (pc, fs)
  | S n => let '(pc', fs') := bind_step pid (faults pc) pc fs in bind_from n pid faults pc' fs'
  end.

Definition bind (pid : N) (faults : Pc -> bool) (fs : EpFs) : Pc * EpFs := bind_from 7 pid faults AtCreateDir fs.

(** [release], of the transport and of the listener alike. *)
Definition release (fails : bool) (fs : EpFs) : EpFs := if fails then fs else with_path fs NoFile.

(** Two processes: the calls of each in the order they happen. *)
Fixpoint race (l : list (bool * bool)) (a b : Pc) (fs : EpFs) : Pc * Pc * EpFs :=
  match l with
  | [] => (a, b, fs)
  | (first, fails) :: l' =>
      if first : bool then let '(a', fs') := bind_step 1 fails a fs in race l' a' b fs'
      else let '(b', fs') := bind_step 2 fails b fs in race l' a b' fs'
  end.

(** * Theorems *)

(** Somebody listens at the path. *)
Definition live (fs : EpFs) : Prop := exists p m, ep_path fs = SockOf (Some p) m.

(** A process listens, on a socket only its user can reach, in a directory only
    its user can enter. *)
Definition owned_by (pid : N) (fs : EpFs) : Prop :=
  ep_path fs = SockOf (Some pid) FILE_MODE /\ ep_dir fs = Some DIR_MODE.

Ltac by_calls faults :=
  unfold bind; cbn [bind_from bind_step];
  destruct (faults AtCreateDir) eqn:?, (faults AtHardenDir) eqn:?, (faults AtExamine) eqn:?, (faults AtProbe) eqn:?,
    (faults AtRemove) eqn:?, (faults AtBind) eqn:?, (faults AtHarden) eqn:?;
  repeat (simpl; match goal with E : faults _ = _ |- _ => rewrite E end); simpl.

Lemma bind_taken pid faults d q m :
  faults AtProbe = false -> let '(pc, fs') := bind pid faults {| ep_dir := d; ep_path := SockOf (Some q) m |} in
  ep_path fs' = SockOf (Some q) m /\ (pc = Refused AlreadyOwned \/ pc = Refused BindIo) /\
  ((forall c, faults c = false) -> pc = Refused AlreadyOwned).
Proof.
  intros Hp. by_calls faults; try congruence; split_and!; eauto; intros Hno;
    pose proof (Hno AtCreateDir); pose proof (Hno AtHardenDir); pose proof (Hno AtExamine); congruence.
Qed.

Lemma bind_free pid faults d p : faults AtProbe = true \/ (forall q m, p <> SockOf (Some q) m) ->
  let '(pc, fs') := bind pid faults {| ep_dir := d; ep_path := p |} in
  (pc = Listening -> owned_by pid fs') /\ (pc = Listening \/ pc = Refused BindIo) /\
  ((forall c, faults c = false) -> pc = Listening).
Proof.
  intros Hp. destruct p as [|[q|] m|]; by_calls faults; unfold drop_listener, owned_by; simpl; rewrite ?N.eqb_refl; simpl;
    try (destruct Hp as [Hp|Hp]; [congruence|by destruct (Hp q m)]);
    split_and!; eauto; try done; intros Hno; exfalso;
    match goal with E : faults ?c = true |- _ => by rewrite Hno in E end.
Qed.

(** The endpoint has one owner.  Whichever of its calls fail, [bind] ends.
    While another process listens at the path and answers the probe, the path is
    left as it is and [bind] is refused, as already owned if nothing else went
    wrong; otherwise, with a stale socket, another file or nothing there, it can
    only end by listening on a private socket in a private directory or with an
    error of the system, and it listens if no call fails. *)
Theorem endpoint_has_one_owner pid faults fs :
  let '(pc, fs') := bind pid faults fs in
  (live fs -> faults AtProbe = false ->
     ep_path fs' = ep_path fs /\ (pc = Refused AlreadyOwned \/ pc = Refused BindIo) /\
     ((forall c, faults c = false) -> pc = Refused AlreadyOwned)) /\
  (~ live fs -> (pc = Listening \/ pc = Refused BindIo) /\ ((forall c, faults c = false) -> pc = Listening)) /\
  (pc = Listening -> owned_by pid fs').
Proof.
  destruct fs as [d p].
  assert (faults AtProbe = false /\ (exists q m, p = SockOf (Some q) m) \/ ~ (faults AtProbe = false /\ exists q m, p = SockOf (Some q) m))
    as [[Hp (q & m & ->)]|Hn] by (destruct (faults AtProbe), p as [|[]|]; naive_solver).
  - pose proof (bind_taken pid faults d q m Hp) as Ht. destruct (bind _ _ _) as [pc fs']. destruct Ht as (Hpath & Hpc & Hall).
    split_and!; [done| |]; [intros []; by eexists _, _|by destruct Hpc as [-> | ->]].
  - pose proof (bind_free pid faults d p) as Hf. destruct (bind _ _ _) as [pc fs'].
    destruct Hf as (Ho & Hpc & Hall); [destruct (faults AtProbe) eqn:E; [by left|right; intros q m ->; apply Hn; eauto]|].
    split_and!; [|done|done].
    intros (q & m & Hq) Hp. simpl in Hq. destruct Hn. eauto.
Qed.

(** * Runs *)

Definition stale_fs : EpFs := {| ep_dir := Some DIR_MODE; ep_path := SockOf None FILE_MODE |}.
Definition live_fs : EpFs := {| ep_dir := Some DIR_MODE; ep_path := SockOf (Some 1) FILE_MODE |}.

Lemma endpoint_has_one_owner_witness :
  live live_fs /\ (bind 2 (fun _ => false) live_fs).1 = Refused AlreadyOwned /\ ep_path (bind 2 (fun _ => false) live_fs).2 = ep_path live_fs.
Proof.
  assert (live live_fs) as Hl by (eexists _, _; reflexivity). split; [exact Hl|].
  pose proof (endpoint_has_one_owner 2 (fun _ => false) live_fs) as H. cbv zeta in H.
  destruct (bind 2 (fun _ => false) live_fs) as [pc fs']. destruct H as (H & _ & _).
  destruct (H Hl eq_refl) as (Hp & _ & Ho). split; [apply Ho; reflexivity|exact Hp].
Defined.

(** A stale socket is replaced, by a private one; and releasing it leaves nothing. *)
Example stale_socket_replaced :
  bind 2 (fun _ => false) stale_fs = (Listening, {| ep_dir := Some DIR_MODE; ep_path := SockOf (Some 2) FILE_MODE |}) /\
  ep_path (release false (bind 2 (fun _ => false) stale_fs).2) = NoFile.
Proof. vm_compute. done. Qed.

(** Any failure to connect is read as a stale socket: a process that cannot
    connect, for want of a file descriptor say, takes the endpoint of a live
    daemon. *)
Example failed_probe_takes_the_endpoint :
  bind 2 (fun c => eqb c AtProbe) live_fs = (Listening, {| ep_dir := Some DIR_MODE; ep_path := SockOf (Some 2) FILE_MODE |}).
Proof. vm_compute. reflexivity. Qed.

(** Two processes that start together over a stale socket both listen, the first
    on a socket without a name; its end then removes the second's. *)
Example both_listen :
  let '(a, b, fs) := race (map (fun first => (first, false))
    ([true; true; true; true] ++ [false; false; false; false] ++ [true; true; true] ++ [false; false; false])) AtCreateDir AtCreateDir stale_fs in
  a = Listening /\ b = Listening /\ ep_path fs = SockOf (Some 2) FILE_MODE /\ ep_path (release false fs) = NoFile.
Proof. vm_compute. done. Qed.

(** The two places the socket can be, and how the user's number is read. *)
Example socket_paths :
  control_socket_path_from None 1000 = lit "/tmp/pliwee-1000/pliwee/control.sock" /\
  control_socket_path_from (Some (lit "/run/user/1000")) 1000 = lit "/run/user/1000/pliwee/control.sock" /\
  nix_uid (Some (lit "Name:" ++ [9] ++ lit "x" ++ [10] ++ lit "Uid:" ++ [9] ++ lit "1000" ++ [9] ++ lit "1000" ++ [10])) = 1000 /\
  nix_uid None = 0.
Proof. vm_compute. done. Qed.
