(* ===== verification/NotifyContract.v ===== *)
(** The wire contract of notification mirroring.

    [core/src/notifications.rs]: field limits and validation, the roles a peer
    announces with their epochs, the conservative reading of enumerations, and
    the bracket of a snapshot.  The messages are those of
    [notifications_v1.proto]; an enum field is an [i32] ([Z]).

    The theorems: what validation lets through is exactly what respects every
    bound; however announcements are reordered, repeated or replayed, the roles
    in force are those of the newest; a snapshot completes only at the end of its
    own bracket and then names exactly what was sent inside it. *)
From S2P Require Import Prelude.

Definition NOTIFICATION_ID_LEN : nat := 16.
Definition SYNC_ID_LEN : nat := 16.
Definition GROUP_ID_LEN : nat := 8.
Definition CONTENT_HASH_LEN : nat := 32.
Definition DEVICE_ID_HEX_LEN : N := 32.
Definition MAX_APP_ID_BYTES : N := 255.
Definition MAX_APP_LABEL_BYTES : N := 128.
Definition MAX_TITLE_BYTES : N := 512.
Definition MAX_BODY_BYTES : N := 4096.
Definition MAX_NOTIFICATION_BYTES : N := 8 * 1024.

(** * Messages *)

Record NotificationRoles := { nr_roles : list Z; nr_epoch : N }.

Record Progress := { pg_current : N; pg_max : N; pg_indeterminate : bool }.

Record NotificationUpsert := {
  nu_notification_id : bytes; nu_origin_device_id : str; nu_app_id : str; nu_app_label : str;
  nu_title : str; nu_body : str; nu_posted_at_unix_ms : Z; nu_importance : Z; nu_privacy : Z;
  nu_category : Z; nu_progress : option Progress; nu_ongoing : bool; nu_dismissible : bool;
  nu_group_id : bytes; nu_group_summary : bool; nu_secondary_profile : bool; nu_redacted : bool;
  nu_content_hash : bytes
}.

Record NotificationRemove := { nm_notification_id : bytes; nm_origin_device_id : str }.
Record DismissRequest := { dq_notification_id : bytes; dq_origin_device_id : str }.
Record NotificationResult := { ns_notification_id : bytes; ns_outcome : Z }.

(** [SyncMarker], its phase as the wire has it. *)
Record SyncMarker := { sm_sync_id : bytes; sm_phase : Z }.

Inductive NotificationBody :=
| NRoles (m : NotificationRoles) | NUpsert (m : NotificationUpsert) | NRemove (m : NotificationRemove)
| NDismiss (m : DismissRequest) | NResult (m : NotificationResult) | NSync (m : SyncMarker).

Record NotificationControl := { nc_body : option NotificationBody }.

(** * Rejections *)

Inductive Rejection :=
| BadIdentifierWidth (field : string) (expected got : N)
| TooLong (field : string) (limit got : N)
| ContainsNul (field : string)
| MalformedDeviceId
| UnsetEpoch
| MessageTooLarge (limit got : N)
| EmptyBody.

(** Whether [Rejection::outcome] is [TooLarge]; it is [Invalid] otherwise. *)
Definition too_large (r : Rejection) : bool :=
  match r with TooLong _ _ _ | MessageTooLarge _ _ => true | _ => false end.

Definition is_answerable (r : Rejection) : bool :=
  match r with
  | BadIdentifierWidth field _ _ => negb (eqb field "notification_id"%string)
  | _ => true
  end.

Abbreviation NotificationId := (bytesn 16).

Definition NotificationId_from_bytes (b : bytes) : result Rejection NotificationId :=
  match try_into NOTIFICATION_ID_LEN b with
  | Some id => Ok id
  | None => Err (BadIdentifierWidth "notification_id" (N.of_nat NOTIFICATION_ID_LEN) (len b))
  end.

(** * Roles *)

Inductive Role := Source | SinkRole | DismissTarget | DismissReporter.

#[export] Instance Role_eq_dec : EqDecision Role.
Proof. solve_decision. Defined.
#[export] Instance Role_countable : Countable Role.
Proof.
  refine (inj_countable' (fun r => match r with Source => 0 | SinkRole => 1 | DismissTarget => 2 | DismissReporter => 3 end)
    (fun n => match n with 0 => Source | 1 => SinkRole | 2 => DismissTarget | _ => DismissReporter end) _).
  by intros [].
Defined.

Definition Role_from_wire (v : Z) : option Role :=
  match v with
  | 1%Z => Some Source | 2%Z => Some SinkRole | 3%Z => Some DismissTarget | 4%Z => Some DismissReporter
  | _ => None
  end.

Record PeerRoles := { pr_roles : gset Role; pr_epoch : N }.

Definition PeerRoles_none : PeerRoles := {| pr_roles := ∅; pr_epoch := 0 |}.

Inductive RolesRejection := RUnsetEpoch | StaleEpoch (last got : N).

Definition has (p : PeerRoles) (r : Role) : bool := bool_decide (r ∈ pr_roles p).

(** The complete set an announcement asks for. *)
Definition announced_set (m : NotificationRoles) : gset Role := list_to_set (omap Role_from_wire (nr_roles m)).

Definition apply_roles (p : PeerRoles) (m : NotificationRoles) : result RolesRejection unit * PeerRoles :=
  if nr_epoch m =? 0 then (Err RUnsetEpoch, p)
  else if nr_epoch m <=? pr_epoch p then (Err (StaleEpoch (pr_epoch p) (nr_epoch m)), p)
  else (Ok tt, {| pr_roles := announced_set m; pr_epoch := nr_epoch m |}).

(** * Conservative enumerations *)

Inductive Importance := ILow | INormal | IHigh.
Inductive Privacy := Public | Private | Secret.
Inductive Category := CMessage | CCall | CAlarm | CProgress | CTransport | CSystem | COther.

#[export] Instance Privacy_eq_dec : EqDecision Privacy.
Proof. solve_decision. Defined.

Definition importance_or_default (v : Z) : Importance :=
  match v with 1%Z => ILow | 3%Z => IHigh | _ => INormal end.

Definition privacy_or_default (v : Z) : Privacy :=
  match v with 0%Z => Private | 1%Z => Public | 2%Z => Private | 3%Z => Secret | _ => Secret end.

Definition category_or_default (v : Z) : Category :=
  match v with
  | 1%Z => CMessage | 2%Z => CCall | 3%Z => CAlarm | 4%Z => CProgress | 5%Z => CTransport | 6%Z => CSystem | _ => COther
  end.

(** * Validation *)

Definition check_text (field : string) (value : str) (limit : N) : result Rejection unit :=
  if limit <? str_len value then Err (TooLong field limit (str_len value))
  else if mem 0 value then Err (ContainsNul field)
  else Ok tt.

Definition is_lower_hex (b : byte) : bool := is_ascii_digit (Byte.to_N b) || in_range 97 102 (Byte.to_N b).

Definition check_device_id (value : str) : result Rejection unit :=
  if negb (str_len value =? DEVICE_ID_HEX_LEN) || negb (forallb is_lower_hex (str_bytes value))
  then Err MalformedDeviceId else Ok tt.

Definition check_optional_digest (field : string) (value : bytes) (expected : nat) : result Rejection unit :=
  if eqb value [] || (length value =? expected)%nat then Ok tt
  else Err (BadIdentifierWidth field (N.of_nat expected) (len value)).

Definition validate_upsert (m : NotificationUpsert) : result Rejection NotificationId :=
  id ← NotificationId_from_bytes (nu_notification_id m);
  _ ← check_device_id (nu_origin_device_id m);
  _ ← check_text "app_id" (nu_app_id m) MAX_APP_ID_BYTES;
  _ ← check_text "app_label" (nu_app_label m) MAX_APP_LABEL_BYTES;
  _ ← check_text "title" (nu_title m) MAX_TITLE_BYTES;
  _ ← check_text "body" (nu_body m) MAX_BODY_BYTES;
  _ ← check_optional_digest "group_id" (nu_group_id m) GROUP_ID_LEN;
  _ ← check_optional_digest "content_hash" (nu_content_hash m) CONTENT_HASH_LEN;
  Ok id.

Definition validate_remove (m : NotificationRemove) : result Rejection NotificationId :=
  id ← NotificationId_from_bytes (nm_notification_id m);
  _ ← check_device_id (nm_origin_device_id m);
  Ok id.

Definition validate_dismiss (m : DismissRequest) : result Rejection NotificationId :=
  id ← NotificationId_from_bytes (dq_notification_id m);
  _ ← check_device_id (dq_origin_device_id m);
  Ok id.

Definition validate_roles (m : NotificationRoles) : result Rejection unit :=
  guard_err (nr_epoch m =? 0) UnsetEpoch.

Definition validate_sync_marker (m : SyncMarker) : result Rejection unit :=
  guard_err (negb (length (sm_sync_id m) =? SYNC_ID_LEN)%nat)
    (BadIdentifierWidth "sync_id" (N.of_nat SYNC_ID_LEN) (len (sm_sync_id m))).

Definition validate_control (m : NotificationControl) (encoded_len : N) : result Rejection unit :=
  if MAX_NOTIFICATION_BYTES <? encoded_len then Err (MessageTooLarge MAX_NOTIFICATION_BYTES encoded_len)
  else
    match nc_body m with
    | None => Err EmptyBody
    | Some (NRoles m) => validate_roles m
    | Some (NUpsert m) => _ ← validate_upsert m; Ok tt
    | Some (NRemove m) => _ ← validate_remove m; Ok tt
    | Some (NDismiss m) => _ ← validate_dismiss m; Ok tt
    | Some (NResult m) => _ ← NotificationId_from_bytes (ns_notification_id m); Ok tt
    | Some (NSync m) => validate_sync_marker m
    end.

(** * Snapshots *)

Inductive SnapshotRejection := EndWithoutBegin | WrongSyncId.

Inductive SnapshotStep :=
| Opened | Recorded | Live | Complete (named : gset NotificationId) | Restarted | Ignored (r : SnapshotRejection).

(** The open snapshot: its id and what it has named. *)
Record Snapshot := { sn_open : option (bytes * gset NotificationId) }.

Definition Snapshot_new : Snapshot := {| sn_open := None |}.
Definition is_open (s : Snapshot) : bool := bool_decide (is_Some (sn_open s)).

Definition marker (s : Snapshot) (m : SyncMarker) : SnapshotStep * Snapshot :=
  match sm_phase m with
  | 1%Z =>
      (if is_open s then Restarted else Opened, {| sn_open := Some (sm_sync_id m, ∅) |})
  | 2%Z =>
      match sn_open s with
      | None => (Ignored EndWithoutBegin, {| sn_open := None |})
      | Some (sync_id, named) =>
          if eqb sync_id (sm_sync_id m) then (Complete named, {| sn_open := None |})
          else (Ignored WrongSyncId, {| sn_open := Some (sync_id, named) |})
      end
  | _ => (Ignored EndWithoutBegin, s)
  end.

Definition snapshot_upsert (s : Snapshot) (id : NotificationId) : SnapshotStep * Snapshot :=
  match sn_open s with
  | Some (sync_id, named) => (Recorded, {| sn_open := Some (sync_id, {[ id ]} ∪ named) |})
  | None => (Live, s)
  end.

Definition abandon (s : Snapshot) : Snapshot := {| sn_open := None |}.

(** * What validation means *)

(** A text within its ceiling and without NUL. *)
Definition text_ok (limit : N) (s : str) : Prop := str_len s <= limit /\ 0 ∉ s.

(** 32 lower-case hexadecimal digits. *)
Definition device_id_ok (s : str) : Prop :=
  str_len s = 32 /\ Forall (fun b => (48 <= Byte.to_N b <= 57) \/ (97 <= Byte.to_N b <= 102)) (str_bytes s).

Definition digest_ok (n : nat) (b : bytes) : Prop := b = [] \/ length b = n.

Lemma check_text_ok field s limit : check_text field s limit = Ok tt <-> text_ok limit s.
Proof.
  unfold check_text, text_ok. destruct (N.ltb_spec limit (str_len s)); [split; [done | lia]|].
  destruct (mem 0 s) eqn:Hm; [apply mem_true in Hm | apply mem_false in Hm]; split; try done; tauto.
Qed.

Lemma is_lower_hex_spec b : is_lower_hex b = true <-> (48 <= Byte.to_N b <= 57) \/ (97 <= Byte.to_N b <= 102).
Proof. unfold is_lower_hex, is_ascii_digit, in_range. rewrite orb_true_iff, !andb_true_iff, !N.leb_le. lia. Qed.

Lemma check_device_id_ok s : check_device_id s = Ok tt <-> device_id_ok s.
Proof.
  unfold check_device_id, device_id_ok, DEVICE_ID_HEX_LEN.
  assert (forallb is_lower_hex (str_bytes s) = true <->
    Forall (fun b => (48 <= Byte.to_N b <= 57) \/ (97 <= Byte.to_N b <= 102)) (str_bytes s)) as Hb.
  { rewrite forallb_forall, Forall_forall. setoid_rewrite list_elem_of_In. setoid_rewrite is_lower_hex_spec. done. }
  destruct (N.eqb_spec (str_len s) 32) as [|Hl]; simpl; [|by split; [|intros []]].
  destruct (forallb is_lower_hex (str_bytes s)); simpl; split; try done.
  - intros _. split; [done|]. by apply Hb.
  - intros [_ H]. by apply Hb in H.
Qed.

Lemma check_digest_ok field b n : check_optional_digest field b n = Ok tt <-> digest_ok n b.
Proof.
  unfold check_optional_digest, digest_ok, eqb. case_bool_decide; simpl; [by split; [left|]|].
  destruct (Nat.eqb_spec (length b) n); split; try done; tauto.
Qed.

Lemma from_bytes_ok b id : NotificationId_from_bytes b = Ok id <-> b = bn_bytes id.
Proof.
  unfold NotificationId_from_bytes, NOTIFICATION_ID_LEN. destruct (try_into _ b) as [x|] eqn:Hx.
  - apply try_into_some in Hx. subst b. split; [congruence|]. intros Heq. f_equal. by apply bytesn_eq.
  - split; [done|]. intros ->. by rewrite try_into_bytes in Hx.
Qed.

(** Every bound of an upsert. *)
Record upsert_ok (m : NotificationUpsert) : Prop := {
  uo_origin : device_id_ok (nu_origin_device_id m);
  uo_app_id : text_ok 255 (nu_app_id m);
  uo_app_label : text_ok 128 (nu_app_label m);
  uo_title : text_ok 512 (nu_title m);
  uo_body : text_ok 4096 (nu_body m);
  uo_group : digest_ok 8 (nu_group_id m);
  uo_hash : digest_ok 32 (nu_content_hash m)
}.

Lemma bind_unit_ok {E B} (r : result E unit) (k : result E B) b : (_ ← r; k) = Ok b <-> r = Ok tt /\ k = Ok b.
Proof. destruct r as [[]|]; simpl; split; try tauto; try done; by intros []. Qed.

(** What gets past validation is what the contract allows.  An upsert is
    accepted, under the id it carries, if and only if the id has exactly 16
    bytes, the origin is 32 lower-case hexadecimal digits, each text is within
    its ceiling and free of NUL, and each optional digest is absent or of its
    exact width. *)
Theorem validate_upsert_exact m id :
  validate_upsert m = Ok id <-> nu_notification_id m = bn_bytes id /\ upsert_ok m.
Proof.
  unfold validate_upsert. rewrite bind_ok. repeat setoid_rewrite bind_unit_ok. setoid_rewrite check_device_id_ok.
  repeat setoid_rewrite check_text_ok. repeat setoid_rewrite check_digest_ok. setoid_rewrite from_bytes_ok.
  split.
  - intros (x & Hid & H1 & H2 & H3 & H4 & H5 & H6 & H7 & [= ->]). by split.
  - intros [Hid []]. exists id. by split_and!.
Qed.

(** * Roles over time *)

Definition hear (l : list NotificationRoles) : PeerRoles := foldl (fun p m => (apply_roles p m).2) PeerRoles_none l.

(** The newest announcement wins, whatever order they come in.  After any
    sequence of announcements (reordered, repeated, replayed), the epoch is the
    largest that was heard, and the roles are exactly those of the first
    announcement that carried it: an old announcement can never widen a set that
    has been narrowed since.  A peer that announced nothing has no role. *)
Theorem peer_roles_latest l :
  Forall (fun m => nr_epoch m <= pr_epoch (hear l)) l /\
  ((pr_epoch (hear l) = 0 /\ pr_roles (hear l) = ∅) \/
   exists pre m post, l = pre ++ m :: post /\ nr_epoch m = pr_epoch (hear l) /\
     pr_roles (hear l) = announced_set m /\ Forall (fun x => nr_epoch x < pr_epoch (hear l)) pre).
Proof.
  induction l as [|m l [Hall Hcase]] using rev_ind; [by split; [constructor | left]|].
  assert (hear (l ++ [m]) = (apply_roles (hear l) m).2) as Hstep by (unfold hear; by rewrite foldl_app).
  rewrite Hstep. unfold apply_roles. destruct (N.eqb_spec (nr_epoch m) 0) as [H0|H0]; simpl.
  { split; [apply Forall_app; split; [done|]; constructor; [lia | constructor]|].
    destruct Hcase as [|(pre & x & post & -> & ?)]; [by left | right]. exists pre, x, (post ++ [m]). by rewrite <- app_assoc. }
  destruct (N.leb_spec (nr_epoch m) (pr_epoch (hear l))) as [Hle|Hlt]; simpl.
  - split; [apply Forall_app; split; [done|]; by repeat constructor|].
    destruct Hcase as [|(pre & x & post & -> & ?)]; [by left | right]. exists pre, x, (post ++ [m]). by rewrite <- app_assoc.
  - assert (Forall (fun x => nr_epoch x < nr_epoch m) l) as Hall' by (eapply Forall_impl; [exact Hall|]; simpl; lia).
    split; [apply Forall_app; split; [eapply Forall_impl; [exact Hall'|]; simpl; lia | by repeat constructor]|].
    right. by exists l, m, [].
Qed.

(** * Snapshots over time *)

Inductive SnapEvent := SMarker (m : SyncMarker) | SUpsert (id : NotificationId) | SAbandon.

Definition snap_step (s : Snapshot) (ev : SnapEvent) : Snapshot :=
  match ev with
  | SMarker m => (marker s m).2
  | SUpsert id => (snapshot_upsert s id).2
  | SAbandon => abandon s
  end.

(** Nothing here ends or replaces the snapshot [sid]. *)
Definition inside (sid : bytes) (ev : SnapEvent) : Prop :=
  match ev with
  | SMarker m => sm_phase m <> 1%Z /\ ~ (sm_phase m = 2%Z /\ sm_sync_id m = sid)
  | SUpsert _ => True
  | SAbandon => False
  end.

(** What a run of events names. *)
Definition names (l : list SnapEvent) : gset NotificationId :=
  list_to_set (omap (fun ev => match ev with SUpsert id => Some id | _ => None end) l).

Lemma names_app l k : names (l ++ k) = names l ∪ names k.
Proof. unfold names. by rewrite omap_app, list_to_set_app_L. Qed.

Lemma names_marker m : names [SMarker m] = ∅.
Proof. done. Qed.

(** The bracket that is open after [l]. *)
Definition bracket (l : list SnapEvent) (sid : bytes) (named : gset NotificationId) : Prop :=
  exists pre b mid, l = pre ++ SMarker b :: mid /\ sm_phase b = 1%Z /\ sm_sync_id b = sid /\
    Forall (inside sid) mid /\ named = names mid.

Lemma bracket_snoc l ev sid named : bracket l sid named -> inside sid ev -> bracket (l ++ [ev]) sid (named ∪ names [ev]).
Proof.
  intros (pre & b & mid & -> & Hp & Hs & Hin & ->) Hev. exists pre, b, (mid ++ [ev]).
  rewrite <- app_assoc, names_app. split_and!; try done. apply Forall_app. split; [done | by constructor].
Qed.

Lemma bracket_last l ev sid named : bracket (l ++ [ev]) sid named ->
  (exists b, ev = SMarker b /\ sm_phase b = 1%Z /\ sm_sync_id b = sid /\ named = ∅) \/
  (inside sid ev /\ exists named', bracket l sid named' /\ named = named' ∪ names [ev]).
Proof.
  intros (pre & b & mid & Heq & Hp & Hs & Hin & ->). destruct mid as [|x mid _] using rev_ind.
  - apply app_inj_tail in Heq as [-> ->]. left. by exists b.
  - right. rewrite (app_comm_cons mid [x] (SMarker b)), app_assoc in Heq. apply app_inj_tail in Heq as [-> ->].
    apply Forall_app in Hin as [Hin Hx]. inversion Hx; subst. split; [done|].
    exists (names mid). split; [by exists pre, b, mid | by rewrite names_app].
Qed.

Lemma snapshot_open l sid named :
  sn_open (foldl snap_step Snapshot_new l) = Some (sid, named) <-> bracket l sid named.
Proof.
  revert sid named. induction l as [|ev l IH] using rev_ind; intros sid named.
  { split; [done|]. by intros ([] & ? & ? & ? & _). }
  rewrite foldl_app. simpl. set (s := foldl _ _ _) in *. split.
  - destruct ev as [m|id|]; simpl; [|unfold snapshot_upsert|done].
    + unfold marker. destruct (sm_phase m) as [|[[]|[]|]|] eqn:Hph; simpl;
        try (intros Ho%IH; eapply (bracket_snoc _ (SMarker m)) in Ho; [|split; [congruence | intros []; congruence]];
             by rewrite names_marker, union_empty_r_L in Ho).
      * destruct (sn_open s) as [[sid' named']|] eqn:Ho; [|done]. unfold eqb. case_bool_decide as Hs; [done|].
        simpl. intros [= -> ->]. assert (bracket l sid named) as Hb by by apply IH.
        eapply (bracket_snoc _ (SMarker m)) in Hb; [by rewrite names_marker, union_empty_r_L in Hb|].
        split; [congruence|]. intros [_ Hm]. by rewrite Hm in Hs.
      * intros [= <- <-]. by exists l, m, [].
    + destruct (sn_open s) as [[sid' named']|] eqn:Ho; simpl; [|congruence]. intros [= -> <-].
      assert (bracket l sid named') as Hb by by apply IH. eapply (bracket_snoc _ (SUpsert id)) in Hb; [|done].
      replace ({[id]} ∪ named') with (named' ∪ names [SUpsert id]); [done|]. unfold names. simpl. set_solver.
  - intros [(b & -> & Hp & Hs & ->)|[Hin (named' & Ho%IH & ->)]]%bracket_last; simpl.
    + unfold marker. by rewrite Hp, Hs.
    + destruct ev as [m|id|]; simpl in *; [|unfold snapshot_upsert; rewrite Ho; simpl; f_equal; f_equal; unfold names; simpl; set_solver | done].
      unfold marker. destruct (sm_phase m) as [|[[]|[]|]|] eqn:Hph; simpl; rewrite ?names_marker, ?union_empty_r_L; try done; destruct Hin as [Hin1 Hin2]; try done.
      rewrite Ho. unfold eqb. rewrite bool_decide_eq_false_2 by (intros ->; by apply Hin2). done.
Qed.

(** A snapshot removes only on its own word.  Over any sequence of markers,
    notifications and disconnects, an end marker completes a snapshot if and only
    if the last begin marker before it had the same id and nothing has ended,
    replaced or abandoned that snapshot since; and then it names exactly the
    notifications sent in between.  So an unpaired, stale or interleaved end, or a
    bracket that was never closed, never makes anything stale. *)
Theorem snapshot_completes_exactly l m named :
  (marker (foldl snap_step Snapshot_new l) m).1 = Complete named <->
  sm_phase m = 2%Z /\ bracket l (sm_sync_id m) named.
Proof.
  rewrite <- snapshot_open. unfold marker. destruct (sm_phase m) as [|[[]|[]|]|] eqn:Hph; simpl; try (by split; [|intros []]).
  - destruct (sn_open _) as [[sid named']|]; [|by split; [|intros []]]. unfold eqb. case_bool_decide as Hs; simpl.
    + split; [intros [= ->]; by subst | by intros [_ [= _ ->]]].
    + split; [done|]. intros [_ [= -> _]]. done.
  - destruct (is_open _); by split; [|intros []].
Qed.
