(* ===== verification/NotifyText.v ===== *)
(** Text that may be shown.

    [capabilities/notifications/src/text.rs]: what is done to a notification's
    text, which anybody may have written, before the desktop's notification
    server sees it.  The theorem: what comes out is short, printable and cannot
    open a tag; the text it stands for can be read back from its escaped form;
    and the example after it shows where the cut at the end breaks an entity. *)
From S2P Require Import Prelude Filename.

Definition MAX_SUMMARY_CHARS : N := 120.
Definition MAX_BODY_CHARS : N := 2000.
Definition MAX_APP_NAME_CHARS : N := 64.
Definition USIZE_MAX : N := 2 ^ 64 - 1.

Definition NL : N := 10.
Definition TAB : N := 9.
Definition AMP : N := 38.
Definition LT : N := 60.
Definition GT : N := 62.
Definition ELLIPSIS : N := 8230.

(** The copy of the list in [filename.rs]. *)
Definition text_is_format_char (c : N) : bool :=
  (c =? 0x00AD)
  || in_range 0x0600 0x0605 c || (c =? 0x061C) || (c =? 0x06DD) || (c =? 0x070F)
  || in_range 0x0890 0x0891 c || (c =? 0x08E2)
  || (c =? 0x180E)
  || in_range 0x200B 0x200F c
  || in_range 0x202A 0x202E c
  || in_range 0x2060 0x2064 c || in_range 0x2066 0x206F c
  || (c =? 0xFEFF)
  || in_range 0xFFF9 0xFFFB c
  || (c =? 0x110BD) || (c =? 0x110CD)
  || in_range 0x13430 0x1343F c
  || in_range 0x1BCA0 0x1BCA3 c
  || in_range 0x1D173 0x1D17A c
  || (c =? 0xE0001) || in_range 0xE0020 0xE007F c.

Definition truncate_chars (value : str) (max : N) : str :=
  if len value <=? max then value
  else take (N.to_nat (max - 1)) value ++ [ELLIPSIS].

Definition line_char (c : N) : bool := negb (is_control c) && negb (text_is_format_char c).

Definition block_char (c : N) : bool :=
  (negb (is_control c) || (c =? NL) || (c =? TAB)) && negb (text_is_format_char c).

Definition sanitize_line (raw : str) (max_chars : N) : str :=
  truncate_chars (trim (filter (fun c => line_char c = true) raw)) max_chars.

Definition sanitize_block (raw : str) (max_chars : N) : str :=
  truncate_chars (trim (filter (fun c => block_char c = true) raw)) max_chars.

Definition escape_char (c : N) : str :=
  if c =? AMP then lit "&amp;" else if c =? LT then lit "&lt;" else if c =? GT then lit "&gt;" else [c].

Definition escape_markup (value : str) : str := concat (map escape_char value).

Definition app_name (label app_id : str) : str :=
  let label := sanitize_line label MAX_APP_NAME_CHARS in
  if negb (eqb label []) then label else sanitize_line app_id MAX_APP_NAME_CHARS.

Definition summary (title : str) : str := sanitize_line title MAX_SUMMARY_CHARS.

Definition body (raw : str) (markup : bool) : str :=
  let cleaned := sanitize_block raw USIZE_MAX in
  let rendered := if markup then escape_markup cleaned else cleaned in
  truncate_chars rendered MAX_BODY_CHARS.

Definition presented (title raw_body : str) (markup : bool) : str * str := (summary title, body raw_body markup).

(** * What comes out *)

Lemma format_lists_agree c : text_is_format_char c = is_format_char c.
Proof. reflexivity. Qed.

Lemma trim_sublist s : trim s `sublist_of` s.
Proof. unfold trim. etrans; [apply trim_end_sublist | apply trim_start_sublist]. Qed.

Lemma truncate_chars_len s max : 1 <= max -> len (truncate_chars s max) <= max.
Proof.
  intros Hm. unfold truncate_chars. destruct (N.leb_spec (len s) max); [done|].
  rewrite len_app, len_cons, len_nil. unfold len in *. rewrite length_take. lia.
Qed.

Lemma truncate_chars_Forall (P : N -> Prop) s max : P ELLIPSIS -> Forall P s -> Forall P (truncate_chars s max).
Proof.
  intros He Hs. unfold truncate_chars. case_match; [done|]. apply Forall_app. split; [by apply Forall_take | by constructor].
Qed.

Lemma escape_Forall (P : N -> Prop) s : Forall P (lit "&amplgt;") -> Forall (fun c => c = LT \/ c = GT \/ P c) s -> Forall P (escape_markup s).
Proof.
  intros HP. assert (forall l, forallb (fun c => mem c (lit "&amplgt;")) l = true -> Forall P l) as Hlit.
  { intros l Hl. rewrite forallb_forall in Hl. apply Forall_forall. intros c Hc%list_elem_of_In%Hl%mem_true.
    by eapply Forall_forall in HP. }
  unfold escape_markup. induction 1 as [|c s Hc _ IH]; [constructor|]. simpl. apply Forall_app. split; [|done].
  unfold escape_char. destruct (N.eqb_spec c AMP); [|destruct (N.eqb_spec c LT); [|destruct (N.eqb_spec c GT)]];
    try (by apply Hlit).
  constructor; [tauto | constructor].
Qed.

(** What a server that parses the body reads: an ampersand must begin one of the
    entities, and an angle bracket would be a tag. *)
Fixpoint read_markup (fuel : nat) (s : str) : option str :=
  match fuel with
  | O => None
  | S fuel =>
      match s with
      | [] => Some []
      | c :: r =>
          if c =? AMP then
            match strip_prefix (lit "amp;") r, strip_prefix (lit "lt;") r, strip_prefix (lit "gt;") r with
            | Some r, _, _ => cons AMP <$> read_markup fuel r
            | _, Some r, _ => cons LT <$> read_markup fuel r
            | _, _, Some r => cons GT <$> read_markup fuel r
            | _, _, _ => None
            end
          else if (c =? LT) || (c =? GT) then None
          else cons c <$> read_markup fuel r
      end
  end.

Lemma read_escape s fuel : (length s < fuel)%nat -> read_markup fuel (escape_markup s) = Some s.
Proof.
  revert fuel. induction s as [|c s IH]; intros [|fuel] Hf; simpl in *; try lia; [done|].
  unfold escape_markup in *. simpl. unfold escape_char.
  destruct (N.eqb_spec c AMP) as [->|Ha]; [|destruct (N.eqb_spec c LT) as [->|Hl]; [|destruct (N.eqb_spec c GT) as [->|Hg]]];
    simpl; try (rewrite IH by lia; done).
  rewrite (proj2 (N.eqb_neq c AMP) Ha), (proj2 (N.eqb_neq c LT) Hl), (proj2 (N.eqb_neq c GT) Hg). simpl.
  by rewrite IH by lia.
Qed.

Definition server_reads (s : str) : option str := read_markup (S (length s)) s.

Lemma escape_length s : (length s <= length (escape_markup s))%nat.
Proof.
  unfold escape_markup. induction s as [|c s IH]; simpl; [lia|]. rewrite length_app.
  assert (1 <= length (escape_char c))%nat; [unfold escape_char; repeat case_match; simpl; lia | lia].
Qed.

Lemma server_reads_escape s : server_reads (escape_markup s) = Some s.
Proof. apply read_escape. pose proof (escape_length s). lia. Qed.

(** A character a summary may show, and one a body may. *)
Definition line_safe (c : N) : Prop := is_control c = false /\ is_format_char c = false.
Definition block_safe (c : N) : Prop := (is_control c = true -> c = NL \/ c = TAB) /\ is_format_char c = false.

Lemma line_char_safe c : line_char c = true <-> line_safe c.
Proof. unfold line_char, line_safe. rewrite format_lists_agree, andb_true_iff, !negb_true_iff. done. Qed.

Lemma block_char_safe c : block_char c = true <-> block_safe c.
Proof.
  unfold block_char, block_safe. rewrite format_lists_agree, andb_true_iff, !orb_true_iff, !negb_true_iff, !N.eqb_eq.
  destruct (is_control c); intuition congruence.
Qed.

Lemma sanitize_block_safe s max : Forall block_safe (sanitize_block s max).
Proof.
  apply truncate_chars_Forall; [by apply block_char_safe|]. eapply sublist_Forall; [apply trim_sublist|].
  eapply Forall_impl; [apply keeps_filter|]. intros c. apply block_char_safe.
Qed.

Lemma sanitize_line_safe s max : Forall line_safe (sanitize_line s max).
Proof.
  apply truncate_chars_Forall; [by apply line_char_safe|]. eapply sublist_Forall; [apply trim_sublist|].
  eapply Forall_impl; [apply keeps_filter|]. intros c. apply line_char_safe.
Qed.

Lemma body_safe raw markup : Forall block_safe (body raw markup).
Proof.
  unfold body. apply truncate_chars_Forall; [by apply block_char_safe|]. destruct markup; [|apply sanitize_block_safe].
  apply escape_Forall; [|eapply Forall_impl; [apply sanitize_block_safe | simpl; tauto]].
  apply Forall_forall. intros c Hc. apply block_char_safe. revert c Hc. apply Forall_forall. by repeat constructor.
Qed.

Lemma body_no_tag raw : Forall (fun c => c <> LT /\ c <> GT) (body raw true).
Proof.
  unfold body. apply truncate_chars_Forall; [done|]. apply escape_Forall; [by repeat constructor|].
  apply Forall_forall. intros c _. destruct (decide (c = LT)); [by left|]. destruct (decide (c = GT)); [by right; left|]. tauto.
Qed.

(** The text of a body before markup and the cap: control and format characters
    gone, the edges trimmed, nothing else changed. *)
Definition body_text (raw : str) : str := sanitize_block raw USIZE_MAX.

(** Whatever text a peer forwards, what reaches the notification server is
    fit to show.  A summary has at most 120 characters, none of them a control or
    a format character; a body has at most 2000, and no control character but
    line feed and tab.  For a server that parses markup the body holds no angle
    bracket, so it can open no tag; and as long as the escaped text fits under
    the cap, what the parser reads back is the cleaned text, character for
    character. *)
Theorem presented_safe title raw markup :
  len (presented title raw markup).1 <= 120 /\ Forall line_safe (presented title raw markup).1 /\
  len (presented title raw markup).2 <= 2000 /\ Forall block_safe (presented title raw markup).2 /\
  Forall (fun c => c <> LT /\ c <> GT) (presented title raw true).2 /\
  (len (escape_markup (body_text raw)) <= 2000 ->
     server_reads (presented title raw true).2 = Some (body_text raw)).
Proof.
  unfold presented. cbn [fst snd]. split_and!; try (apply truncate_chars_len; unfold MAX_SUMMARY_CHARS, MAX_BODY_CHARS; lia);
    [apply sanitize_line_safe | apply body_safe | apply body_no_tag |].
  intros Hlen. change (body raw true) with (truncate_chars (escape_markup (body_text raw)) 2000).
  unfold truncate_chars. rewrite (proj2 (N.leb_le _ _) Hlen). apply server_reads_escape.
Qed.

Lemma presented_safe_witness : len (escape_markup (body_text (lit " a<b>&c "))) <= 2000 /\
  (presented [] (lit " a<b>&c ") true).2 = lit "a&lt;b&gt;&amp;c" /\
  server_reads (presented [] (lit " a<b>&c ") true).2 = Some (lit "a<b>&c").
Proof.
  assert (len (escape_markup (body_text (lit " a<b>&c "))) <= 2000) as Hlen by by vm_compute.
  split_and!; [exact Hlen | by vm_compute |].
  destruct (presented_safe [] (lit " a<b>&c ") true) as (_ & _ & _ & _ & _ & H). apply H, Hlen.
Defined.

(** The cut comes after escaping: 401 ampersands are 2005 characters escaped, the
    cut falls inside the last entity, and the server's parser gets an ampersand
    that starts none. *)
Example cut_breaks_an_entity : server_reads (body (replicate 401 AMP) true) = None /\
  drop 1994 (body (replicate 401 AMP) true) = lit ";&amp" ++ [ELLIPSIS].
Proof. split; vm_compute; reflexivity. Qed.
