(* ===== verification/NotifyQueue.v ===== *)
(** The work pending for one peer's notifications.

    [capabilities/notifications/src/queue.rs]: the bounded queue between the
    session's dispatch loop and the worker that talks to the desktop, with its
    coalescing, its eviction and its counters.

    The theorems: what the queue keeps leads to the same screen as performing
    everything in the order it was offered (coalescing is an optimisation and
    nothing else), as long as nothing had to be evicted; and whatever is evicted,
    the queue stays within its bound and every removal and bulk close it accepted
    comes out, in order. *)
From S2P Require Import Prelude NotifyContract.

Definition MAX_QUEUED_WORK : nat := 256.

(** [Incoming]: a validated upsert with its identity. *)
Record Incoming := { in_id : NotificationId; in_message : NotificationUpsert }.

Inductive CloseAllReason := CRevoked | CGraceExpired | CRoleNarrowed.

Inductive Work :=
| AnnounceRoles
| Upsert (i : Incoming)
| Remove (id : NotificationId)
| Dismiss (id : NotificationId) (origin_device_id : str)
| Sync (m : SyncMarker)
| LockChanged (locked : bool)
| CloseAll (r : CloseAllReason).

Definition is_terminal (w : Work) : bool :=
  match w with Remove _ | CloseAll _ => true | _ => false end.

Definition is_barrier (w : Work) : bool :=
  match w with Sync _ | CloseAll _ | LockChanged _ => true | _ => false end.

Definition is_announce (w : Work) : bool := match w with AnnounceRoles => true | _ => false end.

(** Whether an item is a pending upsert for [id]. *)
Definition upsert_for (id : NotificationId) (w : Work) : bool :=
  match w with Upsert i => eqb (in_id i) id | _ => false end.

Inductive Offered := Queued | Coalesced | Evicted | Dropped.

Record QueueState := {
  q_items : list Work; q_coalesced : N; q_evicted : N; q_dropped_terminal : N; q_high_water : N
}.

Definition WorkQueue_new : QueueState :=
  {| q_items := []; q_coalesced := 0; q_evicted := 0; q_dropped_terminal := 0; q_high_water := 0 |}.

Record QueueStats := {
  qs_pending : N; qs_coalesced : N; qs_evicted : N; qs_dropped_terminal : N; qs_high_water : N
}.

Definition stats (q : QueueState) : QueueStats := {|
  qs_pending := len (q_items q); qs_coalesced := q_coalesced q; qs_evicted := q_evicted q;
  qs_dropped_terminal := q_dropped_terminal q; qs_high_water := q_high_water q |}.

(** The scan of [upsert_slot]: the items below index [n], the last one first. *)
Fixpoint upsert_slot_below (items : list Work) (id : NotificationId) (n : nat) : option nat :=
  match n with
  | O => None
  | S index =>
      match items !! index with
      | None => None
      | Some item =>
          if is_barrier item then None
          else if upsert_for id item then Some index
          else upsert_slot_below items id index
      end
  end.

Definition upsert_slot (items : list Work) (id : NotificationId) : option nat :=
  upsert_slot_below items id (length items).

Definition coalesced_into (items : list Work) (q : QueueState) : QueueState := {|
  q_items := items; q_coalesced := sat_add_u64 (q_coalesced q) 1; q_evicted := q_evicted q;
  q_dropped_terminal := q_dropped_terminal q; q_high_water := q_high_water q |}.

(** The second half of [offer]: the ceiling, with [items] what coalescing left. *)
Definition offer_new (q : QueueState) (items : list Work) (work : Work) : Offered * QueueState :=
  let pushed kept evicted := {|
    q_items := kept ++ [work]; q_coalesced := q_coalesced q; q_evicted := evicted;
    q_dropped_terminal := q_dropped_terminal q; q_high_water := N.max (q_high_water q) (len (kept ++ [work])) |} in
  if (MAX_QUEUED_WORK <=? length items)%nat then
    match position (fun w => negb (is_terminal w)) items with
    | Some index => (Evicted, pushed (delete index items) (sat_add_u64 (q_evicted q) 1))
    | None =>
        (Dropped, {| q_items := items; q_coalesced := q_coalesced q; q_evicted := q_evicted q;
                     q_dropped_terminal := sat_add_u64 (q_dropped_terminal q) 1; q_high_water := q_high_water q |})
    end
  else (Queued, pushed items (q_evicted q)).

Definition offer (q : QueueState) (work : Work) : Offered * QueueState :=
  match work with
  | Upsert incoming =>
      match upsert_slot (q_items q) (in_id incoming) with
      | Some slot => (Coalesced, coalesced_into (<[slot := work]> (q_items q)) q)
      | None => offer_new q (q_items q) work
      end
  | Remove id =>
      match upsert_slot (q_items q) id with
      | Some slot => offer_new q (delete slot (q_items q)) work
      | None => offer_new q (q_items q) work
      end
  | AnnounceRoles =>
      if existsb is_announce (q_items q) then (Coalesced, coalesced_into (q_items q) q)
      else offer_new q (q_items q) work
  | _ => offer_new q (q_items q) work
  end.

Definition drain (q : QueueState) : list Work * QueueState :=
  (q_items q, {| q_items := []; q_coalesced := q_coalesced q; q_evicted := q_evicted q;
                 q_dropped_terminal := q_dropped_terminal q; q_high_water := q_high_water q |}).

Definition is_empty (q : QueueState) : bool := eqb (length (q_items q)) 0%nat.

(** * The scan *)

(** An item that neither orders the others nor is an upsert for [id]. *)
Definition passed (id : NotificationId) (w : Work) : Prop := is_barrier w = false /\ upsert_for id w = false.

Lemma upsert_for_true id w : upsert_for id w = true <-> exists i, w = Upsert i /\ in_id i = id.
Proof.
  destruct w; simpl; try (by split; [|intros (? & ? & _)]). rewrite eqb_true. split; [by eexists | by intros (? & [= ->] & ?)].
Qed.

Lemma upsert_slot_below_spec items id n : (n <= length items)%nat ->
  match upsert_slot_below items id n with
  | Some k => exists pre i mid, take n items = pre ++ Upsert i :: mid /\ length pre = k /\ in_id i = id /\ Forall (passed id) mid
  | None => exists pre mid, take n items = pre ++ mid /\ Forall (passed id) mid /\
      (pre = [] \/ exists pre' b, pre = pre' ++ [b] /\ is_barrier b = true)
  end.
Proof.
  induction n as [|n IH]; intros Hn; simpl; [exists [], []; by split_and!; [| |left]|].
  destruct (lookup_lt_is_Some_2 items n) as [w Hw]; [lia|]. rewrite Hw, (take_S_r _ _ _ Hw). destruct (is_barrier w) eqn:Hb.
  { exists (take n items ++ [w]), []. split_and!; [by rewrite app_nil_r | done | right; by eexists _, w]. }
  destruct (upsert_for id w) eqn:Hu.
  { apply upsert_for_true in Hu as (i & -> & Hi). exists (take n items), i, []. split_and!; try done. rewrite length_take. lia. }
  specialize (IH ltac:(lia)). destruct (upsert_slot_below items id n) as [k|].
  - destruct IH as (pre & i & mid & -> & ? & ? & Hm). exists pre, i, (mid ++ [w]). rewrite <- app_assoc. split_and!; try done.
    apply Forall_app. split; [done | by repeat constructor].
  - destruct IH as (pre & mid & -> & Hm & ?). exists pre, (mid ++ [w]). rewrite <- app_assoc. split_and!; try done.
    apply Forall_app. split; [done | by repeat constructor].
Qed.

Lemma upsert_slot_some items id k : upsert_slot items id = Some k ->
  exists pre i mid, items = pre ++ Upsert i :: mid /\ length pre = k /\ in_id i = id /\ Forall (passed id) mid.
Proof. intros H. pose proof (upsert_slot_below_spec items id (length items) (le_n _)) as Hs. by rewrite firstn_all in Hs; unfold upsert_slot in H; rewrite H in Hs. Qed.

Lemma upsert_slot_none items id : upsert_slot items id = None ->
  exists pre mid, items = pre ++ mid /\ Forall (passed id) mid /\ (pre = [] \/ exists pre' b, pre = pre' ++ [b] /\ is_barrier b = true).
Proof. intros H. pose proof (upsert_slot_below_spec items id (length items) (le_n _)) as Hs. by rewrite firstn_all in Hs; unfold upsert_slot in H; rewrite H in Hs. Qed.

(** * The queue is tidy *)

(** [w] updates or removes [id]. *)
Definition touches (id : NotificationId) (w : Work) : Prop :=
  match w with Upsert i => in_id i = id | Remove r => r = id | _ => False end.

(** Nothing touches [id] before the next barrier. *)
Fixpoint untouched (id : NotificationId) (l : list Work) : Prop :=
  match l with
  | [] => True
  | w :: l => is_barrier w = true \/ (~ touches id w /\ untouched id l)
  end.

(** Between two barriers an upsert is the last word about its notification. *)
Fixpoint tidy (l : list Work) : Prop :=
  match l with
  | [] => True
  | w :: l => match w with Upsert i => untouched (in_id i) l | _ => True end /\ tidy l
  end.

Lemma untouched_app id l k : untouched id l -> untouched id k -> untouched id (l ++ k).
Proof. induction l as [|w l IH]; simpl; [done|]. intros [?|[? ?]] ?; [by left | right; auto]. Qed.

Lemma untouched_barrier id l b k : untouched id (l ++ [b]) -> is_barrier b = true -> untouched id (l ++ b :: k).
Proof. induction l as [|w l IH]; simpl; intros H Hb; [by left|]. destruct H as [?|[? ?]]; [by left | right; auto]. Qed.

Lemma untouched_drop id l w k : is_barrier w = false -> untouched id (l ++ w :: k) -> untouched id (l ++ k).
Proof.
  intros Hb. induction l as [|x l IH]; simpl; [by intros [|[_ ?]]; [congruence|]|]. intros [?|[? ?]]; [by left | right; auto].
Qed.

Lemma untouched_swap id l i j k : in_id i = in_id j -> untouched id (l ++ Upsert i :: k) -> untouched id (l ++ Upsert j :: k).
Proof. intros Heq. induction l as [|x l IH]; simpl; [by rewrite Heq|]. intros [?|[? ?]]; [by left | right; auto]. Qed.

Lemma tidy_drop l w k : is_barrier w = false -> tidy (l ++ w :: k) -> tidy (l ++ k).
Proof.
  intros Hb. induction l as [|x l IH]; simpl; [tauto|]. intros [Hx Ht]. split; [|auto].
  destruct x; try done. by eapply untouched_drop.
Qed.

Lemma tidy_swap l i j k : in_id i = in_id j -> tidy (l ++ Upsert i :: k) -> tidy (l ++ Upsert j :: k).
Proof.
  intros Heq. induction l as [|x l IH]; simpl; [by rewrite Heq|]. intros [Hx Ht]. split; [|auto].
  destruct x; try done. by eapply untouched_swap.
Qed.

Lemma tidy_after l k : Forall (fun w => is_terminal w = true) l -> tidy k -> tidy (l ++ k).
Proof. induction 1 as [|w l Hw _ IH]; [done|]. intros Hk. destruct w; try done; simpl; auto. Qed.

Lemma tidy_app_r l k : tidy (l ++ k) -> tidy k.
Proof. induction l as [|w l IH]; simpl; [done|]. intros [_ ?]. auto. Qed.

Lemma untouched_past id l k : untouched id l -> Exists (fun w => is_barrier w = true) l -> untouched id (l ++ k).
Proof.
  induction l as [|w l IH]; simpl; [by intros _ ?%Exists_nil|]. intros [?|[? ?]] [Hb|He]%Exists_cons; try (by left).
  right. auto.
Qed.

#[export] Instance touches_dec id w : Decision (touches id w).
Proof. destruct w; simpl; apply _. Defined.

Lemma tidy_snoc l w : tidy l ->
  (forall pre i mid, l = pre ++ Upsert i :: mid -> touches (in_id i) w -> Exists (fun w => is_barrier w = true) mid) ->
  tidy (l ++ [w]).
Proof.
  induction l as [|x l IH]; simpl; [intros _ _; by destruct w|]. intros [Hx Ht] Hw. split.
  - destruct x as [|i| | | | |]; try done. destruct (decide (touches (in_id i) w)) as [Hi|Hi].
    + apply untouched_past; [done|]. exact (Hw [] i l eq_refl Hi).
    + apply untouched_app; [done|]. right. done.
  - apply IH; [done|]. intros pre i mid ->. apply (Hw (x :: pre)). done.
Qed.

Lemma slot_none_barrier items id pre i mid : upsert_slot items id = None -> items = pre ++ Upsert i :: mid -> in_id i = id ->
  Exists (fun w => is_barrier w = true) mid.
Proof.
  intros (p & m & -> & Hm & Hp)%upsert_slot_none Heq Hi.
  assert (forall k, m <> k ++ Upsert i :: mid) as Hno.
  { intros k ->. apply Forall_app in Hm as [_ Hm]. inversion Hm as [|? ? [_ Hu]]; subst. simpl in Hu. by rewrite eqb_refl in Hu. }
  apply app_eq_app in Heq as (k & [[-> Heq]|[-> Heq]]); [|by apply Hno in Heq].
  destruct k as [|x k]; simpl in Heq; [by symmetry in Heq; apply (Hno []) in Heq|]. injection Heq as <- ->.
  destruct Hp as [Hp|(p' & b & Hp & Hb)]; [by destruct pre|].
  destruct k as [|y k _] using rev_ind; [by apply app_inj_tail in Hp as [_ <-]|].
  rewrite app_comm_cons, app_assoc in Hp. apply app_inj_tail in Hp as [_ ->].
  apply Exists_app. left. apply Exists_app. right. by constructor.
Qed.

Lemma delete_middle {A} (l : list A) x k : delete (length l) (l ++ x :: k) = l ++ k.
Proof. induction l; simpl; [done | by f_equal]. Qed.

Lemma insert_middle {A} (l : list A) x y k : <[length l := y]> (l ++ x :: k) = l ++ y :: k.
Proof. induction l; simpl; [done | by f_equal]. Qed.

(** What is kept when a new item is to be pushed. *)
Lemma offer_new_cases q items work :
  (exists pre gone post, items = pre ++ gone :: post /\ Forall (fun w => is_terminal w = true) pre /\ is_terminal gone = false /\
     (MAX_QUEUED_WORK <= length items)%nat /\
     offer_new q items work = (Evicted, {| q_items := (pre ++ post) ++ [work]; q_coalesced := q_coalesced q;
       q_evicted := sat_add_u64 (q_evicted q) 1; q_dropped_terminal := q_dropped_terminal q;
       q_high_water := N.max (q_high_water q) (len ((pre ++ post) ++ [work])) |})) \/
  (Forall (fun w => is_terminal w = true) items /\ (MAX_QUEUED_WORK <= length items)%nat /\
     offer_new q items work = (Dropped, {| q_items := items; q_coalesced := q_coalesced q; q_evicted := q_evicted q;
       q_dropped_terminal := sat_add_u64 (q_dropped_terminal q) 1; q_high_water := q_high_water q |})) \/
  ((length items < MAX_QUEUED_WORK)%nat /\
     offer_new q items work = (Queued, {| q_items := items ++ [work]; q_coalesced := q_coalesced q; q_evicted := q_evicted q;
       q_dropped_terminal := q_dropped_terminal q; q_high_water := N.max (q_high_water q) (len (items ++ [work])) |})).
Proof.
  unfold offer_new. destruct (Nat.leb_spec MAX_QUEUED_WORK (length items)) as [Hfull|Hroom]; [|by right; right].
  destruct (position _ items) as [n|] eqn:Hp; [left | right; left].
  - apply position_some in Hp as (gone & Hn & Hg & Hbefore). apply negb_true_iff in Hg.
    exists (take n items), gone, (drop (S n) items). assert (items = take n items ++ gone :: drop (S n) items) as Hsplit.
    { by rewrite <- (drop_S _ _ _ Hn), take_drop. }
    split_and!; try done.
    + apply Forall_forall. intros w [j Hj]%list_elem_of_lookup. apply lookup_take_Some in Hj as [Hj Hlt].
      specialize (Hbefore j w Hlt Hj). by apply negb_false_iff in Hbefore.
    + assert (length (take n items) = n) as Hlen by (apply length_take_le; apply lookup_lt_Some in Hn; lia).
      assert (delete n items = take n items ++ drop (S n) items) as ->; [|done].
      rewrite Hsplit at 1. rewrite <- Hlen at 1. apply delete_middle.
  - apply position_none in Hp. split_and!; try done. eapply Forall_impl; [exact Hp|]. intros w. apply negb_false_iff.
Qed.

(** * One offer, as a relation *)

(** What coalescing leaves of [items] before [w] is pushed. *)
Inductive prepared : list Work -> Work -> list Work -> Prop :=
| prep_plain items w : (forall id, touches id w -> upsert_slot items id = None) -> prepared items w items
| prep_remove pre i mid : Forall (passed (in_id i)) mid ->
    prepared (pre ++ Upsert i :: mid) (Remove (in_id i)) (pre ++ mid).

Inductive takes : list Work -> Work -> Offered -> list Work -> Prop :=
| takes_merge pre i j mid : in_id i = in_id j -> Forall (passed (in_id j)) mid ->
    takes (pre ++ Upsert i :: mid) (Upsert j) Coalesced (pre ++ Upsert j :: mid)
| takes_announced items : takes items AnnounceRoles Coalesced items
| takes_queued items w base : prepared items w base -> (length base < MAX_QUEUED_WORK)%nat ->
    takes items w Queued (base ++ [w])
| takes_evicted items w pre gone post : prepared items w (pre ++ gone :: post) ->
    (MAX_QUEUED_WORK <= length (pre ++ gone :: post))%nat ->
    Forall (fun w => is_terminal w = true) pre -> is_terminal gone = false ->
    takes items w Evicted ((pre ++ post) ++ [w])
| takes_dropped items w base : prepared items w base -> (MAX_QUEUED_WORK <= length base)%nat ->
    Forall (fun w => is_terminal w = true) base -> takes items w Dropped base.

(** The high-water mark moves with what is pushed. *)
Definition high_after (q : QueueState) (v : Offered) (items : list Work) : N :=
  match v with Queued | Evicted => N.max (q_high_water q) (len items) | _ => q_high_water q end.

Lemma offer_new_takes q base w : prepared (q_items q) w base ->
  let (v, q') := offer_new q base w in
  takes (q_items q) w v (q_items q') /\ q_high_water q' = high_after q v (q_items q').
Proof.
  intros Hprep. destruct (offer_new_cases q base w) as [(pre & gone & post & -> & ? & ? & ? & ->)|[(? & ? & ->)|(? & ->)]]; simpl.
  - split; [by eapply takes_evicted | done].
  - split; [by apply takes_dropped | done].
  - split; [by apply takes_queued | done].
Qed.

Lemma offer_takes q w : let (v, q') := offer q w in
  takes (q_items q) w v (q_items q') /\ q_high_water q' = high_after q v (q_items q').
Proof.
  unfold offer. destruct w as [|j|id| | | |]; try (apply offer_new_takes; apply prep_plain; done).
  - destruct (existsb _ _); [by split; [constructor|]|]. apply offer_new_takes. by apply prep_plain.
  - destruct (upsert_slot _ _) as [slot|] eqn:Hs.
    + apply upsert_slot_some in Hs as (pre & i & mid & Heq & <- & Hi & Hm). simpl. split; [|done]. rewrite Heq.
      rewrite insert_middle. by apply takes_merge.
    + apply offer_new_takes, prep_plain. by intros id <-.
  - destruct (upsert_slot _ _) as [slot|] eqn:Hs; apply offer_new_takes.
    + apply upsert_slot_some in Hs as (pre & i & mid & -> & <- & <- & Hm). rewrite delete_middle. by constructor.
    + apply prep_plain. by intros ? <-.
Qed.

Lemma prepared_Forall (P : Work -> Prop) items w base : prepared items w base -> Forall P items -> Forall P base.
Proof. intros [|pre i mid _]; [done|]. intros [? Hm]%Forall_app. inversion Hm; subst. by apply Forall_app. Qed.

Lemma offer_Forall (P : Work -> Prop) q w : Forall P (q_items q) -> P w -> Forall P (q_items (offer q w).2).
Proof.
  intros Hq Hw. pose proof (offer_takes q w) as Ho. destruct (offer q w) as [v q']. destruct Ho as [Htake _]. simpl.
  revert Hq Hw. destruct Htake as [pre i j mid|items|items w base Hp|items w pre gone post Hp|items w base Hp]; intros Hq Hw; try done.
  - apply Forall_app in Hq as [? Hq]. inversion Hq; subst. apply Forall_app. split; [done | by constructor].
  - apply Forall_app. split; [by eapply prepared_Forall | by constructor].
  - apply (prepared_Forall P) in Hp; [|done]. apply Forall_app in Hp as [? Hp]. inversion Hp; subst.
    apply Forall_app. split; [by apply Forall_app | by constructor].
  - by eapply prepared_Forall.
Qed.

(** * Every offer keeps the queue tidy and bounded *)

Record queue_ok (q : QueueState) : Prop := {
  qo_tidy : tidy (q_items q);
  qo_bound : (length (q_items q) <= MAX_QUEUED_WORK)%nat;
  qo_high : q_high_water q <= 256
}.

Lemma prepared_length items w base : prepared items w base -> (length base <= length items)%nat.
Proof. intros []; [lia|]. rewrite !length_app. simpl. lia. Qed.

Lemma prepared_tidy items w base : tidy items -> prepared items w base -> tidy (base ++ [w]).
Proof.
  intros Ht Hp. destruct Hp as [items w Hnone|pre i mid Hmid].
  - apply tidy_snoc; [done|]. intros pre i mid -> Htouch. by eapply slot_none_barrier; [apply Hnone | |].
  - apply tidy_snoc; [by eapply (tidy_drop _ (Upsert i))|]. intros pre' j mid' Heq [= Hid].
    apply app_eq_app in Heq as (k & [[-> Heq]|[-> Heq]]).
    + destruct k as [|x k]; simpl in Heq.
      * exfalso. subst mid. inversion Hmid as [|? ? [_ Hu]]; subst. simpl in Hu. by rewrite Hid, eqb_refl in Hu.
      * injection Heq as <- ->. rewrite <- app_assoc in Ht. apply tidy_app_r in Ht.
        simpl in Ht. destruct Ht as [Hu _]. apply Exists_app. left. revert Hu. rewrite <- Hid. clear.
        induction k as [|y k IH]; simpl; [by intros [?|[[] _]]|]. intros [?|[_ Hu]]; [by left | by right; apply IH].
    + exfalso. rewrite Heq in Hmid. apply Forall_app in Hmid as [_ Hmid]. inversion Hmid as [|? ? [_ Hu]]; subst.
      simpl in Hu. by rewrite Hid, eqb_refl in Hu.
Qed.

Lemma untouched_app_l id l k : untouched id (l ++ k) -> untouched id l.
Proof. induction l as [|w l IH]; simpl; [done|]. intros [?|[? ?]]; [by left | right; auto]. Qed.

Lemma tidy_app_l l k : tidy (l ++ k) -> tidy l.
Proof.
  induction l as [|w l IH]; simpl; [done|]. intros [Hw ?]. split; [|auto]. destruct w; try done. by eapply untouched_app_l.
Qed.

Lemma takes_tidy items w v items' : tidy items -> takes items w v items' -> tidy items'.
Proof.
  intros Ht Htake. destruct Htake as [pre i j mid Hid Hm|items|items w base Hp|items w pre gone post Hp _ Hpre|items w base Hp]; try done.
  - by eapply tidy_swap.
  - by eapply prepared_tidy.
  - pose proof (prepared_tidy _ _ _ Ht Hp) as Ht'. rewrite <- !app_assoc in *. apply tidy_after; [done|].
    apply tidy_app_r in Ht'. simpl in Ht'. by destruct Ht'.
  - pose proof (prepared_tidy _ _ _ Ht Hp) as Ht'. by eapply tidy_app_l.
Qed.

Lemma takes_bound items w v items' : (length items <= MAX_QUEUED_WORK)%nat -> takes items w v items' ->
  (length items' <= MAX_QUEUED_WORK)%nat.
Proof.
  intros Hb Htake. destruct Htake as [| |? ? ? Hp|? ? ? ? ? Hp|? ? ? Hp]; rewrite ?length_app in *; simpl in *; try lia;
    apply prepared_length in Hp; rewrite ?length_app in *; simpl in *; lia.
Qed.

Lemma offer_ok q w : queue_ok q -> queue_ok (offer q w).2.
Proof.
  intros [Ht Hb Hh]. pose proof (offer_takes q w) as Ho. destruct (offer q w) as [v q'] eqn:Heq. destruct Ho as [Htake Hhigh].
  pose proof (takes_bound _ _ _ _ Hb Htake) as Hb'. constructor; simpl; [by eapply takes_tidy | done |].
  rewrite Hhigh. unfold high_after, len, MAX_QUEUED_WORK in *. destruct v; lia.
Qed.

(** * Runs of a queue *)

Inductive QEvent := QOffer (w : Work) | QDrain.

(** The queue, what its worker has been handed, and every offer with its verdict. *)
Record QRun := { qr_queue : QueueState; qr_done : list Work; qr_offered : list (Work * Offered) }.

Definition qrun_step (r : QRun) (ev : QEvent) : QRun :=
  match ev with
  | QOffer w =>
      let (v, q) := offer (qr_queue r) w in
      {| qr_queue := q; qr_done := qr_done r; qr_offered := qr_offered r ++ [(w, v)] |}
  | QDrain =>
      let (items, q) := drain (qr_queue r) in
      {| qr_queue := q; qr_done := qr_done r ++ items; qr_offered := qr_offered r |}
  end.

Definition qrun (evs : list QEvent) : QRun :=
  foldl qrun_step {| qr_queue := WorkQueue_new; qr_done := []; qr_offered := [] |} evs.

Lemma qrun_snoc evs ev : qrun (evs ++ [ev]) = qrun_step (qrun evs) ev.
Proof. unfold qrun. by rewrite foldl_app. Qed.

Lemma qrun_ok evs : queue_ok (qr_queue (qrun evs)).
Proof.
  induction evs as [|ev evs IH] using rev_ind; [constructor; simpl; [done | lia | lia]|]. rewrite qrun_snoc.
  destruct ev as [w|]; simpl.
  - pose proof (offer_ok _ w IH). by destruct (offer _ _).
  - destruct IH. constructor; simpl; [done | lia | done].
Qed.

(** ** Closing work is kept *)

Definition terminal (l : list Work) : list Work := filter (fun w => is_terminal w = true) l.

Lemma terminal_app l k : terminal (l ++ k) = terminal l ++ terminal k.
Proof. apply filter_app. Qed.

Lemma terminal_other w l : is_terminal w = false -> terminal (w :: l) = terminal l.
Proof. intros H. unfold terminal. rewrite filter_cons_False; [done | congruence]. Qed.

Lemma prepared_terminal items w base : prepared items w base -> terminal base = terminal items.
Proof. intros []; [done|]. by rewrite !terminal_app, terminal_other. Qed.

Lemma takes_terminal items w v items' : takes items w v items' ->
  terminal items' = terminal items ++ (match v with Dropped => [] | _ => terminal [w] end).
Proof.
  intros [pre i j mid _ _|k|? ? base Hp|? ? pre gone post Hp _ _ Hg|? ? base Hp _ _].
  - rewrite !terminal_app, !terminal_other by done. by rewrite app_nil_r.
  - by rewrite app_nil_r.
  - by rewrite terminal_app, (prepared_terminal _ _ _ Hp).
  - by rewrite <- (prepared_terminal _ _ _ Hp), !terminal_app, (terminal_other gone) by done.
  - by rewrite app_nil_r, (prepared_terminal _ _ _ Hp).
Qed.

(** What was offered and not dropped. *)
Definition accepted (l : list (Work * Offered)) : list Work :=
  omap (fun p => match p.2 with Dropped => None | _ => Some p.1 end) l.

(** No removal is lost.  Over any sequence of offers and drains: at most 256
    items are ever pending, and the high-water mark says so; the removals and
    bulk closes the worker has been given, followed by those still pending, are
    exactly the ones offered that were not refused, in the order they were
    offered; and one is refused only when 256 of them are already pending. *)
Theorem queue_keeps_closing_work evs :
  let r := qrun evs in
  len (q_items (qr_queue r)) <= 256 /\ q_high_water (qr_queue r) <= 256 /\
  terminal (qr_done r ++ q_items (qr_queue r)) = terminal (accepted (qr_offered r)) /\
  forall w, (offer (qr_queue r) w).1 = Dropped ->
    length (q_items (qr_queue r)) = 256%nat /\ Forall (fun w => is_terminal w = true) (q_items (qr_queue r)).
Proof.
  intros r. pose proof (qrun_ok evs) as Hok. fold r in Hok. destruct (Hok) as [_ Hb Hh].
  split_and!; [unfold len, MAX_QUEUED_WORK in *; lia | done | |].
  - subst r. clear Hok Hb Hh. induction evs as [|ev evs IH] using rev_ind; [done|]. rewrite qrun_snoc.
    destruct ev as [w|]; simpl; [|by rewrite app_nil_r].
    pose proof (offer_takes (qr_queue (qrun evs)) w) as Ho. destruct (offer _ _) as [v q']. destruct Ho as [Htake _]. simpl.
    unfold accepted in *. rewrite omap_app, !terminal_app in *. rewrite (takes_terminal _ _ _ _ Htake), app_assoc, IH.
    by destruct v; simpl; rewrite ?app_nil_r.
  - intros w Hd. pose proof (offer_takes (qr_queue r) w) as Ho. destruct (offer _ _) as [v q']. simpl in Hd. subst v.
    destruct Ho as [Htake _]. inversion Htake as [| | | |items ? base Hp Hfull Hall]; subst.
    destruct Hp as [items w|pre i mid]; [split; [unfold MAX_QUEUED_WORK in *; lia | done]|].
    exfalso. rewrite !length_app in *. simpl in *. lia.
Qed.

(** ** Coalescing does not change the screen *)

(** What a peer's work amounts to, on a desktop that does everything it is asked:
    each notification shown with whether it is shown reduced, the open snapshot,
    and whether the screen is locked.  (The ceiling on the number of
    notifications is left out: which one it closes depends on how often each was
    updated.) *)
Record Screen := {
  sc_shown : gmap NotificationId (NotificationUpsert * bool);
  sc_snapshot : Snapshot;
  sc_locked : bool
}.

Definition show (s : Screen) (w : Work) : Screen :=
  match w with
  | AnnounceRoles | Dismiss _ _ => s
  | Upsert i => {| sc_shown := <[in_id i := (in_message i, sc_locked s)]> (sc_shown s);
                   sc_snapshot := (snapshot_upsert (sc_snapshot s) (in_id i)).2; sc_locked := sc_locked s |}
  | Remove id => {| sc_shown := delete id (sc_shown s); sc_snapshot := sc_snapshot s; sc_locked := sc_locked s |}
  | Sync m =>
      let (st, snapshot) := marker (sc_snapshot s) m in
      {| sc_shown := match st with
                     | Complete named => filter (fun p => p.1 ∈ named) (sc_shown s)
                     | _ => sc_shown s
                     end;
         sc_snapshot := snapshot; sc_locked := sc_locked s |}
  | LockChanged locked => {| sc_shown := if locked then (fun p => (p.1, true)) <$> sc_shown s else sc_shown s;
                             sc_snapshot := sc_snapshot s; sc_locked := locked |}
  | CloseAll _ => {| sc_shown := ∅; sc_snapshot := abandon (sc_snapshot s); sc_locked := sc_locked s |}
  end.

(** Two open snapshots that name the same of the notifications shown. *)
Definition snapshots_agree (shown : gmap NotificationId (NotificationUpsert * bool)) (s1 s2 : Snapshot) : Prop :=
  match sn_open s1, sn_open s2 with
  | None, None => True
  | Some (i1, n1), Some (i2, n2) => i1 = i2 /\ forall id, is_Some (shown !! id) -> (id ∈ n1 <-> id ∈ n2)
  | _, _ => False
  end.

(** The same screen: a snapshot may differ on what is not shown any more. *)
#[export] Instance screen_equiv : Equiv Screen := fun s1 s2 =>
  sc_shown s1 = sc_shown s2 /\ sc_locked s1 = sc_locked s2 /\ snapshots_agree (sc_shown s1) (sc_snapshot s1) (sc_snapshot s2).

#[export] Instance screen_equivalence : Equivalence (≡@{Screen}).
Proof.
  split.
  - intros s. split_and!; try done. unfold snapshots_agree. destruct (sn_open _) as [[]|]; done.
  - intros s1 s2 (H1 & H2 & H3). split_and!; try done. unfold snapshots_agree in *. rewrite <- H1.
    destruct (sn_open (sc_snapshot s1)) as [[]|], (sn_open (sc_snapshot s2)) as [[]|]; try done.
    destruct H3 as [-> H3]. split; [done|]. intros id Hid. by rewrite H3.
  - intros s1 s2 s3 (H1 & H2 & H3) (H4 & H5 & H6). split_and!; [congruence | congruence|]. unfold snapshots_agree in *.
    rewrite <- H1 in H6. destruct (sn_open (sc_snapshot s1)) as [[]|], (sn_open (sc_snapshot s2)) as [[]|], (sn_open (sc_snapshot s3)) as [[]|]; try done.
    destruct H3 as [-> H3], H6 as [-> H6]. split; [done|]. intros id Hid. by rewrite H3, H6.
Qed.

Lemma snapshots_agree_mono sh sh' s1 s2 : (forall id, is_Some (sh' !! id) -> is_Some (sh !! id)) ->
  snapshots_agree sh s1 s2 -> snapshots_agree sh' s1 s2.
Proof.
  intros Hsub. unfold snapshots_agree. destruct (sn_open s1) as [[]|], (sn_open s2) as [[]|]; try done.
  intros [-> H]. split; [done|]. auto.
Qed.

#[export] Instance show_proper : Proper ((≡) ==> eq ==> (≡)) show.
Proof.
  intros s1 s2 (Hs & Hl & Ha) w _ <-. destruct w as [|i|id|id o|m|b|r]; simpl; [done| | |done| | |].
  - split_and!; simpl; [by rewrite Hs, Hl | done |]. unfold snapshots_agree, snapshot_upsert in *.
    destruct (sn_open (sc_snapshot s1)) as [[i1 n1]|] eqn:E1, (sn_open (sc_snapshot s2)) as [[i2 n2]|] eqn:E2; simpl; rewrite ?E1, ?E2; try done.
    destruct Ha as [-> Ha]. split; [done|]. intros id Hid. destruct (decide (id = in_id i)) as [->|Hne]; [set_solver|].
    rewrite lookup_insert_ne in Hid by done. specialize (Ha id Hid). set_solver.
  - split_and!; simpl; [by rewrite Hs | done |]. eapply snapshots_agree_mono; [|exact Ha]. intros x [v Hv].
    apply lookup_delete_Some in Hv as [_ Hv]. eauto.
  - unfold marker. destruct (sm_phase m) as [|[[]|[]|]|]; try done.
    + unfold snapshots_agree in Ha. destruct (sn_open (sc_snapshot s1)) as [[i1 n1]|] eqn:E1, (sn_open (sc_snapshot s2)) as [[i2 n2]|] eqn:E2; try done.
      destruct Ha as [-> Ha]. destruct (eqb i2 (sm_sync_id m)); split_and!; simpl; try done.
      * rewrite <- Hs. apply map_filter_ext. intros id v Hv. simpl. apply Ha. eauto.
    + by destruct (is_open (sc_snapshot s1)), (is_open (sc_snapshot s2)).
  - split_and!; simpl; [by rewrite Hs | done |]. destruct b; [|done]. eapply snapshots_agree_mono; [|exact Ha].
    intros x. rewrite lookup_fmap. by intros ?%fmap_is_Some.
  - by split_and!.
Qed.

Definition show_all (s : Screen) (l : list Work) : Screen := foldl show s l.

Lemma show_all_app s l k : show_all s (l ++ k) = show_all (show_all s l) k.
Proof. apply foldl_app. Qed.

#[export] Instance show_all_proper : Proper ((≡) ==> eq ==> (≡)) show_all.
Proof. intros s1 s2 Hs l _ <-. revert s1 s2 Hs. induction l as [|w l IH]; intros s1 s2 Hs; simpl; [done|]. apply IH. by rewrite Hs. Qed.

Lemma show_commute s i w : is_barrier w = false -> ~ touches (in_id i) w ->
  show (show s (Upsert i)) w = show (show s w) (Upsert i).
Proof.
  intros Hb Ht. destruct w as [|j|id| | | |]; simpl in *; try done.
  - rewrite insert_insert_ne by done. f_equal. unfold snapshot_upsert. destruct (sn_open (sc_snapshot s)) as [[k n]|] eqn:Ho; simpl; rewrite ?Ho; simpl; [|done].
    do 3 f_equal. set_solver.
  - by rewrite delete_insert_ne by done.
Qed.

Lemma show_overwrite s i j : in_id i = in_id j -> show (show s (Upsert i)) (Upsert j) = show s (Upsert j).
Proof.
  intros Hid. simpl. rewrite Hid, insert_insert_eq. f_equal. unfold snapshot_upsert.
  destruct (sn_open (sc_snapshot s)) as [[k n]|] eqn:Ho; simpl; rewrite ?Ho; simpl; [|done]. do 3 f_equal. set_solver.
Qed.

Lemma show_removed s i : show (show s (Upsert i)) (Remove (in_id i)) ≡ show s (Remove (in_id i)).
Proof.
  split_and!; simpl; [by rewrite delete_insert_eq | done|]. unfold snapshots_agree, snapshot_upsert.
  destruct (sn_open (sc_snapshot s)) as [[k n]|] eqn:Ho; simpl; rewrite ?Ho; [|done]. split; [done|].
  intros id [v Hv]. rewrite delete_insert_eq in Hv. apply lookup_delete_Some in Hv as [Hne _]. set_solver.
Qed.

Lemma show_all_commute s i mid : untouched (in_id i) mid -> Forall (passed (in_id i)) mid ->
  show_all (show s (Upsert i)) mid = show (show_all s mid) (Upsert i).
Proof.
  intros Hu Hp. revert s Hu. induction Hp as [|w mid [Hb _] Hp IH]; intros s Hu; [done|].
  destruct Hu as [|[Ht Hu]]; [congruence|].
  change (show_all (show (show s (Upsert i)) w) mid = show (show_all (show s w) mid) (Upsert i)).
  rewrite show_commute by done. by apply IH.
Qed.

(** A merged upsert, or one a removal supersedes, can as well be the last item. *)
Lemma show_all_delayed s pre i mid : tidy (pre ++ Upsert i :: mid) -> Forall (passed (in_id i)) mid ->
  show_all s (pre ++ Upsert i :: mid) = show (show_all s (pre ++ mid)) (Upsert i).
Proof. intros [Hu _]%tidy_app_r Hm. rewrite !show_all_app. by apply (show_all_commute (show_all s pre)). Qed.

Lemma prepared_screen s items w base : tidy items -> prepared items w base ->
  show (show_all s base) w ≡ show (show_all s items) w.
Proof.
  intros Ht Hp. destruct Hp as [|pre i mid Hm]; [done|]. rewrite show_all_delayed by assumption. symmetry. apply show_removed.
Qed.

Lemma takes_screen s items w v items' : tidy items -> takes items w v items' -> v = Queued \/ v = Coalesced ->
  show_all s items' ≡ show (show_all s items) w.
Proof.
  intros Ht Htake Hv. destruct Htake as [pre i j mid Hid Hm|items|items w base Hp| |]; [| done | | by destruct Hv | by destruct Hv].
  - rewrite show_all_delayed by (done || by eapply tidy_swap).
    rewrite (show_all_delayed s pre i mid) by (done || by rewrite Hid). by rewrite show_overwrite.
  - rewrite show_all_app. simpl. by eapply prepared_screen.
Qed.

(** C25: coalescing is invisible.  Take any sequence of offers and drains in which
    nothing was evicted or refused, and any screen to start from.  Performing what
    the worker was handed, and then what is still pending, leads to the same
    screen as performing everything that was offered, one by one and in order:
    merging updates in place, letting a removal supersede a pending update, and
    folding repeated role announcements never changes what is shown, what a
    snapshot will keep, or the lock state. *)
Theorem coalescing_is_invisible evs s :
  Forall (fun p => p.2 = Queued \/ p.2 = Coalesced) (qr_offered (qrun evs)) ->
  show_all s (qr_done (qrun evs) ++ q_items (qr_queue (qrun evs))) ≡ show_all s (qr_offered (qrun evs)).*1.
Proof.
  induction evs as [|ev evs IH] using rev_ind; [done|]. pose proof (qo_tidy _ (qrun_ok evs)) as Ht. rewrite qrun_snoc.
  destruct ev as [w|]; simpl; [|by rewrite app_nil_r].
  pose proof (offer_takes (qr_queue (qrun evs)) w) as Ho. destruct (offer _ _) as [v q']. destruct Ho as [Htake _]. simpl.
  intros [Hall Hv]%Forall_app. apply Forall_inv in Hv. simpl in Hv. rewrite fmap_app, !show_all_app. cbn [fmap list_fmap fst].
  rewrite (takes_screen _ _ _ _ _ Ht Htake Hv), <- show_all_app, IH by done. done.
Qed.

(** An upsert with an id of sixteen equal bytes. *)
Definition sample_id (b : byte) : NotificationId := BytesN (n := 16) (replicate 16 b) I.
Definition sample_upsert (b : byte) (title : str) : Incoming := {|
  in_id := sample_id b;
  in_message := {| nu_notification_id := replicate 16 b; nu_origin_device_id := lit "00112233445566778899aabbccddeeff";
    nu_app_id := lit "org.example"; nu_app_label := lit "Example"; nu_title := title; nu_body := lit "text";
    nu_posted_at_unix_ms := 0%Z; nu_importance := 2%Z; nu_privacy := 1%Z; nu_category := 0%Z; nu_progress := None;
    nu_ongoing := false; nu_dismissible := true; nu_group_id := []; nu_group_summary := false;
    nu_secondary_profile := false; nu_redacted := false; nu_content_hash := [] |} |}.

Definition sample_run : list QEvent :=
  [QOffer (Sync {| sm_sync_id := replicate 16 x07; sm_phase := 1%Z |});
   QOffer (Upsert (sample_upsert x01 (lit "10%"))); QOffer (Upsert (sample_upsert x02 (lit "hello")));
   QOffer (Upsert (sample_upsert x01 (lit "20%"))); QOffer (Remove (sample_id x02)); QDrain;
   QOffer (Sync {| sm_sync_id := replicate 16 x07; sm_phase := 2%Z |})].

Definition blank_screen : Screen := {| sc_shown := ∅; sc_snapshot := Snapshot_new; sc_locked := false |}.

Lemma coalescing_is_invisible_witness :
  (qr_offered (qrun sample_run)).*2 = [Queued; Queued; Queued; Coalesced; Queued; Queued] /\
  length (qr_done (qrun sample_run)) = 3%nat /\
  show_all blank_screen (qr_done (qrun sample_run) ++ q_items (qr_queue (qrun sample_run))) ≡
    show_all blank_screen (qr_offered (qrun sample_run)).*1.
Proof.
  split_and!; [vm_compute; reflexivity | vm_compute; reflexivity |].
  apply coalescing_is_invisible. vm_compute. repeat constructor; tauto.
Defined.

(** A full queue evicts whatever is oldest among the items that are not closing
    work, and that may be the news that the screen locked: the upserts behind it
    stay, the reduction of what is on the screen is gone. *)
Example eviction_drops_the_lock :
  let flood := QOffer (LockChanged true) ::
    map (fun n => QOffer (Upsert (sample_upsert (byte_of_N (N.of_nat n)) (lit "hello")))) (seq 0 256) in
  snd <$> last (qr_offered (qrun flood)) = Some Evicted /\
  existsb is_barrier (q_items (qr_queue (qrun flood))) = false.
Proof. split; vm_compute; reflexivity. Qed.
