(* ===== verification/NotifyMirror.v ===== *)
(** What is on the screen for one peer, and what this device says it can do.

    [capabilities/notifications/src/mirror.rs] and [roles.rs].  A table of
    mirrors is the [BTreeMap] of the source with its counters; an entry has no
    title and no body.  The theorems: the table never holds more than 200
    mirrors, and what it gives up to make room is the mirror updated the longest
    ago; and the peer that hears every announcement of a connection holds exactly
    the roles this device last announced. *)
From S2P Require Import Prelude NotifyContract.

Definition MAX_MIRRORS_PER_PEER : N := 200.

(** [ServerId], a [u32]. *)
Abbreviation ServerId := N.

Inductive Urgency := ULow | UNormal.

#[export] Instance Urgency_eq_dec : EqDecision Urgency.
Proof. solve_decision. Defined.

Record MirrorEntry := {
  me_server_id : option ServerId;
  me_content_hash : bytes;
  me_app_name : str;
  me_urgency : Urgency;
  me_reduced : bool;
  me_origin_device_id : str;
  me_seq : N
}.

Record MirrorTable := { mt_entries : gmap NotificationId MirrorEntry; mt_next_seq : N; mt_evicted : N }.

Definition MirrorTable_new : MirrorTable := {| mt_entries := ∅; mt_next_seq := 0; mt_evicted := 0 |}.

Definition mt_len (t : MirrorTable) : N := N.of_nat (size (mt_entries t)).
Definition mt_get (t : MirrorTable) (id : NotificationId) : option MirrorEntry := mt_entries t !! id.

(** [min_by_key] on [seq]: the first of the least. *)
Definition min_by_seq (l : list (NotificationId * MirrorEntry)) : option (NotificationId * MirrorEntry) :=
  foldr (fun x best =>
    match best with
    | None => Some x
    | Some y => if me_seq x.2 <=? me_seq y.2 then Some x else Some y
    end) None l.

Definition evict_if_full (t : MirrorTable) : option (NotificationId * MirrorEntry) * MirrorTable :=
  if mt_len t <? MAX_MIRRORS_PER_PEER then (None, t)
  else
    match min_by_seq (bt_items (mt_entries t)) with
    | None => (None, t)
    | Some (oldest, entry) =>
        (Some (oldest, entry),
         {| mt_entries := delete oldest (mt_entries t); mt_next_seq := mt_next_seq t;
            mt_evicted := sat_add_u64 (mt_evicted t) 1 |})
    end.

Definition mt_insert (t : MirrorTable) (id : NotificationId) (server_id : option ServerId) (content_hash : bytes)
    (app_name : str) (urgency : Urgency) (reduced : bool) (origin_device_id : str)
    : option (NotificationId * MirrorEntry) * MirrorTable :=
  let '(evicted, t1) := if bool_decide (is_Some (mt_entries t !! id)) then (None, t) else evict_if_full t in
  (evicted,
   {| mt_entries := <[id := {| me_server_id := server_id; me_content_hash := content_hash; me_app_name := app_name;
                               me_urgency := urgency; me_reduced := reduced; me_origin_device_id := origin_device_id;
                               me_seq := mt_next_seq t1 |}]> (mt_entries t1);
      mt_next_seq := sat_add_u64 (mt_next_seq t1) 1; mt_evicted := mt_evicted t1 |}).

Definition with_entries (t : MirrorTable) (m : gmap NotificationId MirrorEntry) : MirrorTable :=
  {| mt_entries := m; mt_next_seq := mt_next_seq t; mt_evicted := mt_evicted t |}.

Definition mt_remove (t : MirrorTable) (id : NotificationId) : option MirrorEntry * MirrorTable :=
  (mt_entries t !! id, with_entries t (delete id (mt_entries t))).

Definition forget_server_id (t : MirrorTable) (server_id : ServerId) : option (NotificationId * MirrorEntry) * MirrorTable :=
  match find_b (fun p => eqb (me_server_id p.2) (Some server_id)) (bt_items (mt_entries t)) with
  | None => (None, t)
  | Some (id, entry) => (Some (id, entry), with_entries t (delete id (mt_entries t)))
  end.

Definition without_handle (e : MirrorEntry) : MirrorEntry := {|
  me_server_id := None; me_content_hash := me_content_hash e; me_app_name := me_app_name e;
  me_urgency := me_urgency e; me_reduced := me_reduced e; me_origin_device_id := me_origin_device_id e;
  me_seq := me_seq e |}.

Definition invalidate_server_ids (t : MirrorTable) : MirrorTable := with_entries t (without_handle <$> mt_entries t).

(** [sort_by_key] on [seq], which is stable. *)
Fixpoint insert_by_seq (x : NotificationId * MirrorEntry) (l : list (NotificationId * MirrorEntry)) :=
  match l with
  | [] => [x]
  | y :: l' => if me_seq x.2 <=? me_seq y.2 then x :: l else y :: insert_by_seq x l'
  end.

Definition mt_iter (t : MirrorTable) : list (NotificationId * MirrorEntry) :=
  foldr insert_by_seq [] (bt_items (mt_entries t)).

Definition not_named_in (t : MirrorTable) (named : gset NotificationId) : list NotificationId :=
  filter (fun id => id ∉ named) (bt_keys (mt_entries t)).

Definition mt_drain (t : MirrorTable) : list (NotificationId * MirrorEntry) * MirrorTable :=
  (bt_items (mt_entries t), with_entries t ∅).

(** * The table over time *)

Lemma min_by_seq_spec l :
  match min_by_seq l with
  | None => l = []
  | Some x => x ∈ l /\ forall y, y ∈ l -> me_seq x.2 <= me_seq y.2
  end.
Proof.
  induction l as [|x l IH]; simpl; [done|]. destruct (min_by_seq l) as [y|].
  - destruct IH as [Hy Hmin]. destruct (N.leb_spec (me_seq x.2) (me_seq y.2)); (split; [set_solver|]);
      intros z [->|Hz]%elem_of_cons; try lia; specialize (Hmin _ Hz); lia.
  - subst l. split; [set_solver|]. intros z [->|Hz]%elem_of_cons; [done | set_solver].
Qed.

(** The invariant: at most 200 mirrors, each with a sequence number of its own,
    as long as the counter has not reached its ceiling. *)
Record table_ok (t : MirrorTable) : Prop := {
  to_bound : mt_len t <= 200;
  to_next : mt_next_seq t <= u64_max;
  to_seq : forall id e, mt_entries t !! id = Some e -> me_seq e <= mt_next_seq t /\ (mt_next_seq t < u64_max -> me_seq e < mt_next_seq t)
}.

Lemma table_ok_sub t m : table_ok t -> (forall id e, m !! id = Some e -> exists e', mt_entries t !! id = Some e' /\ me_seq e = me_seq e') ->
  table_ok (with_entries t m).
Proof.
  intros [Hb Hn Hs] Hsub. constructor; simpl; [|done|].
  - unfold mt_len in *. simpl. rewrite <- !size_dom in *. assert (dom m ⊆ dom (mt_entries t)) as Hd%subseteq_size.
    { intros id [e He]%elem_of_dom. apply elem_of_dom. destruct (Hsub _ _ He) as (e' & ? & _). eauto. }
    lia.
  - intros id e He. destruct (Hsub _ _ He) as (e' & He' & ->). by eapply Hs.
Qed.

Lemma table_ok_delete t id : table_ok t -> table_ok (with_entries t (delete id (mt_entries t))).
Proof. intros Ht. apply table_ok_sub; [done|]. intros x e [_ He]%lookup_delete_Some. eauto. Qed.

Lemma evict_ok t : table_ok t -> table_ok (evict_if_full t).2 /\ mt_len (evict_if_full t).2 < 200 /\
  mt_next_seq (evict_if_full t).2 = mt_next_seq t.
Proof.
  intros Ht. unfold evict_if_full, MAX_MIRRORS_PER_PEER. destruct (N.ltb_spec (mt_len t) 200) as [Hlt|Hge]; [done|].
  pose proof (min_by_seq_spec (bt_items (mt_entries t))) as Hm. destruct (min_by_seq _) as [[oldest e]|] eqn:Hmin; simpl.
  - destruct Hm as [Hin%elem_of_bt_items _]. destruct (table_ok_delete t oldest Ht) as [Hb Hn Hs].
    split; [by constructor|]. split; [|done]. unfold mt_len in *. simpl in *. rewrite map_size_delete_Some by eauto.
    destruct Ht as [Hb' _ _]. unfold mt_len in *. lia.
  - exfalso. assert (mt_entries t = ∅) as He.
    { apply map_eq. intros id. rewrite lookup_empty. destruct (mt_entries t !! id) eqn:Hid; [|done].
      apply elem_of_bt_items in Hid. rewrite Hm in Hid. set_solver. }
    unfold mt_len in Hge. rewrite He, map_size_empty in Hge. lia.
Qed.

Lemma mt_insert_ok t id sid h a u r o : table_ok t -> table_ok (mt_insert t id sid h a u r o).2.
Proof.
  intros Ht. unfold mt_insert. case_bool_decide as Hid.
  - destruct Ht as [Hb Hn Hs]. constructor; simpl.
    + unfold mt_len in *. simpl. by rewrite map_size_insert_Some.
    + unfold sat_add_u64. lia.
    + intros x e. unfold sat_add_u64. rewrite lookup_insert_Some. intros [[_ <-]|[_ He]]; simpl; [lia|].
      destruct (Hs _ _ He). lia.
  - destruct (evict_ok t Ht) as ([Hb Hn Hs] & Hlt & Hsame). destruct (evict_if_full t) as [ev t1]. simpl in *. constructor; simpl.
    + unfold mt_len in *. simpl. rewrite map_size_insert. case_match; unfold Datatypes.id; lia.
    + unfold sat_add_u64. lia.
    + intros x e. unfold sat_add_u64. rewrite lookup_insert_Some. intros [[_ <-]|[_ He]]; simpl; [lia|].
      destruct (Hs _ _ He). lia.
Qed.

Lemma invalidate_ok t : table_ok t -> table_ok (invalidate_server_ids t).
Proof.
  intros Ht. apply table_ok_sub; [done|]. intros id e. rewrite lookup_fmap. destruct (mt_entries t !! id) as [e'|]; [|done].
  intros [= <-]. eauto.
Qed.

Lemma remove_ok t id : table_ok t -> table_ok (mt_remove t id).2.
Proof. apply table_ok_delete. Qed.

Lemma forget_ok t sid : table_ok t -> table_ok (forget_server_id t sid).2.
Proof. intros Ht. unfold forget_server_id. destruct (find_b _ _) as [[id e]|]; [by apply table_ok_delete | done]. Qed.

Lemma drain_ok t : table_ok t -> table_ok (mt_drain t).2.
Proof. intros Ht. by apply table_ok_sub. Qed.

Lemma table_new_ok : table_ok MirrorTable_new.
Proof. constructor; simpl; [done | done |]. intros id e. by rewrite lookup_empty. Qed.

Lemma forget_some t sid id e t' : forget_server_id t sid = (Some (id, e), t') ->
  mt_entries t !! id = Some e /\ me_server_id e = Some sid /\ t' = with_entries t (delete id (mt_entries t)).
Proof.
  unfold forget_server_id. destruct (find_b _ _) as [[id' e']|] eqn:Hf; [|done]. intros [= -> -> <-].
  apply find_b_some in Hf as [Hin Heq]. apply elem_of_bt_items in Hin. by apply eqb_eq in Heq.
Qed.

Lemma forget_none t sid t' : forget_server_id t sid = (None, t') ->
  t' = t /\ forall id e, mt_entries t !! id = Some e -> me_server_id e <> Some sid.
Proof.
  unfold forget_server_id. destruct (find_b _ _) as [[id' e']|] eqn:Hf; [done|]. intros [= <-]. split; [done|].
  intros id e He Hs. apply elem_of_bt_items in He. pose proof (find_b_none _ _ _ Hf He) as Hne. simpl in Hne.
  rewrite Hs, eqb_refl in Hne. done.
Qed.

Lemma evict_some t victim e t' : evict_if_full t = (Some (victim, e), t') ->
  mt_len t >= 200 /\ mt_entries t !! victim = Some e /\ mt_entries t' = delete victim (mt_entries t) /\
  (forall id e', mt_entries t !! id = Some e' -> me_seq e <= me_seq e').
Proof.
  unfold evict_if_full, MAX_MIRRORS_PER_PEER. destruct (N.ltb_spec (mt_len t) 200); [done|].
  pose proof (min_by_seq_spec (bt_items (mt_entries t))) as Hm. destruct (min_by_seq _) as [[oldest x]|]; [|done].
  intros [= -> -> <-]. destruct Hm as [Hin%elem_of_bt_items Hmin]. split_and!; try done; [lia|].
  intros id e' He. apply elem_of_bt_items in He. exact (Hmin _ He).
Qed.

Lemma evict_none t t' : evict_if_full t = (None, t') -> t' = t.
Proof. unfold evict_if_full. case_match; [congruence|]. destruct (min_by_seq _) as [[]|]; congruence. Qed.

(** The table of mirrors makes room fairly.  Inserting a mirror into a table
    the operations have built leaves at most 200; the mirror is there with what
    was given; every other mirror is untouched but one at most, given up only when
    the table was full and the notification new; that one is handed back to be
    closed, and no mirror of the table was updated before it. *)
Theorem mirror_insert_exact t id sid h a u r o :
  table_ok t ->
  let (gone, t') := mt_insert t id sid h a u r o in
  table_ok t' /\ mt_len t' <= 200 /\
  (exists e, mt_entries t' !! id = Some e /\ me_server_id e = sid /\ me_content_hash e = h /\ me_app_name e = a /\
     me_urgency e = u /\ me_reduced e = r /\ me_origin_device_id e = o) /\
  match gone with
  | None => forall x, x <> id -> mt_entries t' !! x = mt_entries t !! x
  | Some (victim, e) =>
      mt_len t = 200 /\ mt_entries t !! id = None /\ mt_entries t !! victim = Some e /\
      mt_entries t' !! victim = None /\ (forall x, x <> id -> x <> victim -> mt_entries t' !! x = mt_entries t !! x) /\
      (forall x e', mt_entries t !! x = Some e' -> me_seq e <= me_seq e')
  end.
Proof.
  intros Ht. pose proof (mt_insert_ok t id sid h a u r o Ht) as Hok. unfold mt_insert in *.
  destruct (if bool_decide _ then _ else _) as [gone t1] eqn:Heq. simpl in *. split_and!; [done | apply Hok | |].
  { eexists. split; [apply lookup_insert_eq|]. done. }
  revert Heq. case_bool_decide as Hid; intros Heq.
  - injection Heq as <- <-. intros x Hx. by rewrite lookup_insert_ne.
  - destruct gone as [[victim e]|].
    + destruct (evict_some _ _ _ _ Heq) as (Hge & Hv & Ht1 & Hmin). destruct Ht as [Hb _ _].
      assert (mt_entries t !! id = None) as Hnone by by apply eq_None_not_Some.
      assert (victim <> id) by congruence.
      split_and!; try done; [lia | by rewrite lookup_insert_ne, Ht1, lookup_delete_eq |].
      intros x Hx Hxv. by rewrite lookup_insert_ne, Ht1, lookup_delete_ne.
    + apply evict_none in Heq as ->. intros x Hx. by rewrite lookup_insert_ne.
Qed.

(** A table of 200 mirrors. *)
Definition numbered_id (n : nat) : NotificationId :=
  BytesN (n := 16) (replicate 14 x00 ++ [byte_of_N (N.of_nat (n / 256)); byte_of_N (N.of_nat n)]) I.
Definition full_table : MirrorTable :=
  foldl (fun t n => (mt_insert t (numbered_id n) (Some (N.of_nat n)) [] [] UNormal false []).2) MirrorTable_new (seq 0 200).

Lemma full_table_ok : table_ok full_table.
Proof.
  unfold full_table. generalize (seq 0 200). intros l. assert (table_ok MirrorTable_new) as H by apply table_new_ok.
  revert H. generalize MirrorTable_new. induction l as [|n l IH]; intros t Ht; simpl; [done|]. apply IH. by apply mt_insert_ok.
Qed.

Lemma mirror_insert_exact_witness : table_ok full_table /\
  fst <$> (mt_insert full_table (numbered_id 200) None [] [] ULow true []).1 = Some (numbered_id 0) /\
  mt_len (mt_insert full_table (numbered_id 200) None [] [] ULow true []).2 <= 200.
Proof.
  assert (table_ok full_table) as Hok by apply full_table_ok.
  split_and!; [exact Hok | vm_compute; reflexivity |].
  pose proof (mirror_insert_exact full_table (numbered_id 200) None [] [] ULow true [] Hok) as H.
  destruct (mt_insert full_table (numbered_id 200) None [] [] ULow true []) as [gone t']. apply H.
Defined.

(** * [roles.rs] *)

Record LocalRoles := { lr_announced : option (gset Role); lr_epoch : N }.

Definition LocalRoles_new : LocalRoles := {| lr_announced := None; lr_epoch := 0 |}.

Definition lr_count (l : LocalRoles) : N := match lr_announced l with Some r => N.of_nat (size r) | None => 0 end.

(** [LocalRoles::announced]. *)
Definition has_announced (l : LocalRoles) (role : Role) : bool :=
  match lr_announced l with Some r => bool_decide (role ∈ r) | None => false end.

Definition lr_reset (l : LocalRoles) : LocalRoles := {| lr_announced := None; lr_epoch := 0 |}.

Definition desired (server_available dismiss_reporting : bool) : gset Role :=
  if negb server_available then ∅
  else if dismiss_reporting then {[ DismissReporter ]} ∪ {[ SinkRole ]} else {[ SinkRole ]}.

Definition to_wire (r : Role) : Z :=
  match r with Source => 1 | SinkRole => 2 | DismissTarget => 3 | DismissReporter => 4 end.

(** The order of the [BTreeSet]: that of the declaration. *)
Definition roles_in_order (s : gset Role) : list Role :=
  filter (fun r => r ∈ s) [Source; SinkRole; DismissTarget; DismissReporter].

Definition announce (l : LocalRoles) (server_available dismiss_reporting : bool) : option NotificationRoles * LocalRoles :=
  let desired := desired server_available dismiss_reporting in
  if eqb (lr_announced l) (Some desired) then (None, l)
  else
    let epoch := N.min (lr_epoch l + 1) u32_max in
    (Some {| nr_roles := to_wire <$> roles_in_order desired; nr_epoch := epoch |},
     {| lr_announced := Some desired; lr_epoch := epoch |}).

Lemma from_to_wire r : Role_from_wire (to_wire r) = Some r.
Proof. by destruct r. Qed.

Lemma announced_roles s e : announced_set {| nr_roles := to_wire <$> roles_in_order s; nr_epoch := e |} = s.
Proof.
  unfold announced_set. simpl. replace (omap Role_from_wire (to_wire <$> roles_in_order s)) with (roles_in_order s).
  - apply set_eq. intros r. rewrite elem_of_list_to_set. unfold roles_in_order. rewrite list_elem_of_filter.
    split; [tauto|]. intros Hr. split; [done|]. destruct r; set_solver.
  - induction (roles_in_order s) as [|r l IH]; [done|]. rewrite fmap_cons.
    cbn [omap list_omap]. rewrite from_to_wire. by f_equal.
Qed.

(** What a connection sends, one request to announce after another. *)
Definition announce_step (st : list NotificationRoles * LocalRoles) (can : bool * bool) : list NotificationRoles * LocalRoles :=
  let (a, l) := announce st.2 can.1 can.2 in (st.1 ++ option_list a, l).

Definition announce_run (cans : list (bool * bool)) : list NotificationRoles * LocalRoles :=
  foldl announce_step ([], LocalRoles_new) cans.

Lemma hear_snoc l m : hear (l ++ [m]) = (apply_roles (hear l) m).2.
Proof. unfold hear. by rewrite foldl_app. Qed.

Lemma announce_run_epoch cans : lr_epoch (announce_run cans).2 <= N.of_nat (length cans).
Proof.
  induction cans as [|can cans IH] using rev_ind; [done|]. unfold announce_run in *. rewrite foldl_app, length_app. simpl.
  set (st := foldl _ _ cans) in *. unfold announce_step, announce. destruct (eqb _ _); simpl; lia.
Qed.

(** The peer knows what this device can do.  Over any sequence of changes of
    what the desktop can do on one connection (fewer than 2^32 of them), a peer
    that hears every announcement holds exactly the roles last announced, which
    are those the desktop has now; the epochs it was sent rise one by one from 1,
    and a change that changes nothing sends nothing. *)
Theorem announced_is_heard cans can :
  N.of_nat (length cans) < u32_max ->
  let st := announce_run (cans ++ [can]) in
  pr_roles (hear st.1) = desired can.1 can.2 /\ lr_announced st.2 = Some (desired can.1 can.2) /\
  pr_epoch (hear st.1) = lr_epoch st.2 /\ nr_epoch <$> st.1 = map N.of_nat (seq 1 (length st.1)).
Proof.
  intros Hlen st.
  assert (forall l, N.of_nat (length l) <= u32_max -> let r := announce_run l in
    pr_roles (hear r.1) = default ∅ (lr_announced r.2) /\ pr_epoch (hear r.1) = lr_epoch r.2 /\
    lr_epoch r.2 = N.of_nat (length r.1) /\ nr_epoch <$> r.1 = map N.of_nat (seq 1 (length r.1))) as Hinv.
  { clear. induction l as [|can l IH] using rev_ind; intros Hlen; [done|]. rewrite length_app in Hlen. simpl in Hlen.
    destruct IH as (H1 & H2 & H3 & H4); [lia|]. pose proof (announce_run_epoch l) as He.
    unfold announce_run in *. rewrite foldl_app. simpl. set (r := foldl _ _ l) in *. unfold announce_step, announce.
    unfold eqb. case_bool_decide as Hsame; simpl; [by rewrite app_nil_r|].
    rewrite hear_snoc. unfold apply_roles. simpl. rewrite (N.min_l (lr_epoch r.2 + 1)) by lia.
    destruct (N.eqb_spec (lr_epoch r.2 + 1) 0) as [|_]; [lia|]. rewrite H2.
    destruct (N.leb_spec (lr_epoch r.2 + 1) (lr_epoch r.2)) as [|_]; [lia|]. simpl.
    rewrite announced_roles, length_app. simpl. split_and!; [done | done | lia|].
    rewrite fmap_app, H4, seq_app, map_app. simpl. do 2 f_equal. lia. }
  destruct (Hinv (cans ++ [can])) as (H1 & H2 & H3 & H4); [rewrite length_app; simpl; lia|].
  assert (lr_announced st.2 = Some (desired can.1 can.2)) as Hd.
  { unfold st, announce_run. rewrite foldl_app. simpl. unfold announce_step, announce, eqb. by case_bool_decide. }
  split_and!; try done. fold st in H1. by rewrite H1, Hd.
Qed.

Lemma announced_is_heard_witness :
  (announce_run [(true, true); (true, true); (false, true); (true, false)]).1 =
    [{| nr_roles := [2; 4]%Z; nr_epoch := 1 |}; {| nr_roles := []; nr_epoch := 2 |}; {| nr_roles := [2]%Z; nr_epoch := 3 |}] /\
  pr_roles (hear (announce_run ([(true, true); (true, true); (false, true)] ++ [(true, false)])).1) = desired true false.
Proof.
  split; [vm_compute; reflexivity|]. apply (announced_is_heard [(true, true); (true, true); (false, true)] (true, false)).
  simpl. unfold u32_max. lia.
Defined.
