(* ===== verification/Notifications.v ===== *)
(** Mirroring a phone's notifications on this desktop.

    [capabilities/notifications/src/lib.rs]: the manager, with one [PeerSlot] per
    peer, and its operations.  A peer's worker performs the work of its queue one
    item after another; whatever calls out to the desktop ([sink.display],
    [sink.close], [lock.is_locked]) takes time, and other peers, users and
    platform events go on meanwhile.  So a worker is a list of [Task]s, the first
    of which is under way; [worker_step] performs one, with the answer of the
    platform as an input, and everything else can happen between two steps.  What
    only awaits locks is one step, but for [detach_session], whose two halves
    take the locks anew.

    [nt_log] records every call to the desktop and every message queued for a
    peer.  The answers of the host's [NotificationAuthorizer], of the sink and of
    the lock source are inputs. *)
From S2P Require Import Prelude External Ids Capability Policy NotifyContract NotifyText NotifyQueue NotifyMirror.

Definition NOTIFICATIONS_ID : str := lit "notifications.v1".
Definition RECONNECT_GRACE : N := from_secs 60.
Definition SYNC_TIMEOUT : N := from_secs 30.

(** * [backend/mod.rs]: what is handed to the platform *)

Record Mirror := { mi_app_name : str; mi_summary : str; mi_body : str; mi_urgency : Urgency; mi_redacted : bool }.

Inductive SinkError := SUnavailable | SFailed | STimedOut.

Inductive CloseReason := Expired | Dismissed | Closed | Undefined.

Definition CloseReason_from_wire (v : N) : CloseReason :=
  match v with 1 => Expired | 2 => Dismissed | 3 => Closed | _ => Undefined end.

Definition is_human_dismissal (r : CloseReason) : bool := match r with Dismissed => true | _ => false end.

Record SinkCapabilities := { sc_body_markup : bool; sc_body : bool; sc_persistence : bool; sc_dismiss_reporting : bool }.

(** * Outcomes *)

Module NOutcome.
Inductive t :=
| Displayed | Removed | Duplicate | NotAuthorized | RejectedPolicy | RejectedRole | UnknownNotification
| TooLarge | Invalid | RateLimited | Unavailable | Failed.

(** [to_proto] and the number of the wire enumeration. *)
Definition to_proto (o : t) : Z :=
  match o with
  | Displayed => 1 | Removed => 2 | Duplicate => 3 | NotAuthorized => 4 | RejectedPolicy => 5 | RejectedRole => 6
  | UnknownNotification => 9 | TooLarge => 10 | Invalid => 11 | RateLimited => 12 | Unavailable => 13 | Failed => 14
  end.

Definition from_rejection (r : Rejection) : t := if too_large r then TooLarge else Invalid.

Definition from_sink_error (e : SinkError) : t :=
  match e with SUnavailable => Unavailable | SFailed | STimedOut => Failed end.
End NOutcome.

(** [is_declined_dismissal] on the wire value; one that is not in the enumeration
    is [Unspecified]. *)
Definition is_declined_dismissal (outcome : Z) : bool := negb ((outcome =? 2)%Z || (outcome =? 9)%Z).

(** * Presentation *)

Module Presentation.
Inductive t := Full | AppOnly | Suppress.

#[global] Instance eq_dec : EqDecision t.
Proof. solve_decision. Defined.

Definition resolve (policy : NotificationPolicy.t) (locked : bool) : t :=
  if negb locked then Full
  else match NotificationPolicy.when_sink_locked policy with
       | LockPolicy.Full => Full
       | LockPolicy.AppOnly => AppOnly
       | LockPolicy.Suppress => Suppress
       end.

Definition is_reduced (p : t) : bool := match p with AppOnly => true | _ => false end.
End Presentation.

Definition urgency_for (importance : Z) : Urgency :=
  match importance_or_default importance with ILow => ULow | _ => UNormal end.

Definition build_mirror (caps : SinkCapabilities) (message : NotificationUpsert) (presentation : Presentation.t) : Mirror :=
  let app_name := app_name (nu_app_label message) (nu_app_id message) in
  let urgency := urgency_for (nu_importance message) in
  match presentation with
  | Presentation.Full =>
      let '(title, text) := presented (nu_title message) (nu_body message) (sc_body_markup caps) in
      {| mi_summary := if eqb title [] then app_name else title;
         mi_body := if sc_body caps then text else [];
         mi_app_name := app_name; mi_urgency := urgency; mi_redacted := nu_redacted message |}
  | Presentation.AppOnly | Presentation.Suppress =>
      {| mi_summary := app_name; mi_body := []; mi_app_name := app_name; mi_urgency := urgency; mi_redacted := true |}
  end.

Definition named_identity (control : NotificationControl) : option bytes :=
  match nc_body control with
  | Some (NUpsert m) => Some (nu_notification_id m)
  | Some (NRemove m) => Some (nm_notification_id m)
  | Some (NDismiss m) => Some (dq_notification_id m)
  | Some (NResult m) => Some (ns_notification_id m)
  | Some (NRoles _) | Some (NSync _) | None => None
  end.

(** * The state *)

(** What the lock change collects of a mirror before it works through them. *)
Record Affected := {
  af_id : NotificationId; af_server_id : option ServerId; af_app_name : str; af_urgency : Urgency; af_reduced : bool
}.

(** What a worker has to do next.  [KAskLock], [KDisplay], [KClosing] and
    [KReducing] wait for the platform; [KSend] waits for room in a channel. *)
Inductive Task :=
| KWork (w : Work)
| KAskLock (i : Incoming) (policy : NotificationPolicy.t)
| KDisplay (i : Incoming) (mirror : Mirror) (reduced : bool)
| KClosing (id : NotificationId)
| KReduce (presentation : Presentation.t) (affected : list Affected)
| KReducing (id : NotificationId)
| KCloseMirrors (ids : list NotificationId)
| KCloseIds (ids : list ServerId)
| KAnswer (id : NotificationId) (o : NOutcome.t)
| KSend (channel : N) (control : NotificationControl).

(** [PeerSlot] with its [PeerState]; a channel is known by a number. *)
Record PeerSlot := {
  sl_local_roles : LocalRoles;
  sl_peer_roles : PeerRoles;
  sl_mirrors : MirrorTable;
  sl_snapshot : Snapshot;
  sl_deadline : option N;
  sl_connected : bool;
  sl_locked : bool;
  sl_dismissals_sent : N;
  sl_dismissals_refused : N;
  sl_superseded : N;
  sl_queue : QueueState;
  sl_outbound : option N;
  sl_generation : N;
  sl_tasks : list Task
}.

Definition PeerSlot_new : PeerSlot := {|
  sl_local_roles := LocalRoles_new; sl_peer_roles := PeerRoles_none; sl_mirrors := MirrorTable_new;
  sl_snapshot := Snapshot_new; sl_deadline := None; sl_connected := false; sl_locked := false;
  sl_dismissals_sent := 0; sl_dismissals_refused := 0; sl_superseded := 0; sl_queue := WorkQueue_new;
  sl_outbound := None; sl_generation := 0; sl_tasks := [] |}.

(** A session's outbound channel: takes a message, is gone, or stays full. *)
Inductive Channel := ChOpen | ChClosed | ChFull.

Inductive NLog :=
| LDisplay (peer : Fingerprint) (mirror : Mirror) (replaces : option ServerId)
| LClose (peer : Fingerprint) (id : ServerId)
| LSent (peer : Fingerprint) (channel : N) (control : NotificationControl) (m : OutboundMessage).

Record Notif := {
  nt_capabilities : SinkCapabilities;
  nt_authorizer : option (Fingerprint -> NotificationPolicy.t);
  nt_peers : gmap Fingerprint PeerSlot;
  nt_available : bool;
  nt_locked : bool;
  nt_closes_observed : N;
  nt_grace : N;
  nt_close_stream_missing : bool;
  nt_channels : gmap N Channel;
  nt_timers : list (Fingerprint * N * N);
  nt_detaching : list Fingerprint;
  nt_now : N;
  nt_log : list NLog
}.

(** Field assignments. *)
Definition with_local_roles (s : PeerSlot) (x : LocalRoles) : PeerSlot := {|
  sl_local_roles := x; sl_peer_roles := sl_peer_roles s; sl_mirrors := sl_mirrors s;
  sl_snapshot := sl_snapshot s; sl_deadline := sl_deadline s; sl_connected := sl_connected s;
  sl_locked := sl_locked s; sl_dismissals_sent := sl_dismissals_sent s;
  sl_dismissals_refused := sl_dismissals_refused s; sl_superseded := sl_superseded s; sl_queue := sl_queue s;
  sl_outbound := sl_outbound s; sl_generation := sl_generation s; sl_tasks := sl_tasks s |}.
Definition with_peer_roles (s : PeerSlot) (x : PeerRoles) : PeerSlot := {|
  sl_local_roles := sl_local_roles s; sl_peer_roles := x; sl_mirrors := sl_mirrors s;
  sl_snapshot := sl_snapshot s; sl_deadline := sl_deadline s; sl_connected := sl_connected s;
  sl_locked := sl_locked s; sl_dismissals_sent := sl_dismissals_sent s;
  sl_dismissals_refused := sl_dismissals_refused s; sl_superseded := sl_superseded s; sl_queue := sl_queue s;
  sl_outbound := sl_outbound s; sl_generation := sl_generation s; sl_tasks := sl_tasks s |}.
Definition with_mirrors (s : PeerSlot) (x : MirrorTable) : PeerSlot := {|
  sl_local_roles := sl_local_roles s; sl_peer_roles := sl_peer_roles s; sl_mirrors := x;
  sl_snapshot := sl_snapshot s; sl_deadline := sl_deadline s; sl_connected := sl_connected s;
  sl_locked := sl_locked s; sl_dismissals_sent := sl_dismissals_sent s;
  sl_dismissals_refused := sl_dismissals_refused s; sl_superseded := sl_superseded s; sl_queue := sl_queue s;
  sl_outbound := sl_outbound s; sl_generation := sl_generation s; sl_tasks := sl_tasks s |}.
Definition with_connected (s : PeerSlot) (x : bool) : PeerSlot := {|
  sl_local_roles := sl_local_roles s; sl_peer_roles := sl_peer_roles s; sl_mirrors := sl_mirrors s;
  sl_snapshot := sl_snapshot s; sl_deadline := sl_deadline s; sl_connected := x; sl_locked := sl_locked s;
  sl_dismissals_sent := sl_dismissals_sent s; sl_dismissals_refused := sl_dismissals_refused s;
  sl_superseded := sl_superseded s; sl_queue := sl_queue s; sl_outbound := sl_outbound s;
  sl_generation := sl_generation s; sl_tasks := sl_tasks s |}.
Definition with_slot_locked (s : PeerSlot) (x : bool) : PeerSlot := {|
  sl_local_roles := sl_local_roles s; sl_peer_roles := sl_peer_roles s; sl_mirrors := sl_mirrors s;
  sl_snapshot := sl_snapshot s; sl_deadline := sl_deadline s; sl_connected := sl_connected s; sl_locked := x;
  sl_dismissals_sent := sl_dismissals_sent s; sl_dismissals_refused := sl_dismissals_refused s;
  sl_superseded := sl_superseded s; sl_queue := sl_queue s; sl_outbound := sl_outbound s;
  sl_generation := sl_generation s; sl_tasks := sl_tasks s |}.
Definition with_sent (s : PeerSlot) (x : N) : PeerSlot := {|
  sl_local_roles := sl_local_roles s; sl_peer_roles := sl_peer_roles s; sl_mirrors := sl_mirrors s;
  sl_snapshot := sl_snapshot s; sl_deadline := sl_deadline s; sl_connected := sl_connected s;
  sl_locked := sl_locked s; sl_dismissals_sent := x; sl_dismissals_refused := sl_dismissals_refused s;
  sl_superseded := sl_superseded s; sl_queue := sl_queue s; sl_outbound := sl_outbound s;
  sl_generation := sl_generation s; sl_tasks := sl_tasks s |}.
Definition with_refused (s : PeerSlot) (x : N) : PeerSlot := {|
  sl_local_roles := sl_local_roles s; sl_peer_roles := sl_peer_roles s; sl_mirrors := sl_mirrors s;
  sl_snapshot := sl_snapshot s; sl_deadline := sl_deadline s; sl_connected := sl_connected s;
  sl_locked := sl_locked s; sl_dismissals_sent := sl_dismissals_sent s; sl_dismissals_refused := x;
  sl_superseded := sl_superseded s; sl_queue := sl_queue s; sl_outbound := sl_outbound s;
  sl_generation := sl_generation s; sl_tasks := sl_tasks s |}.
Definition with_superseded (s : PeerSlot) (x : N) : PeerSlot := {|
  sl_local_roles := sl_local_roles s; sl_peer_roles := sl_peer_roles s; sl_mirrors := sl_mirrors s;
  sl_snapshot := sl_snapshot s; sl_deadline := sl_deadline s; sl_connected := sl_connected s;
  sl_locked := sl_locked s; sl_dismissals_sent := sl_dismissals_sent s;
  sl_dismissals_refused := sl_dismissals_refused s; sl_superseded := x; sl_queue := sl_queue s;
  sl_outbound := sl_outbound s; sl_generation := sl_generation s; sl_tasks := sl_tasks s |}.
Definition with_queue (s : PeerSlot) (x : QueueState) : PeerSlot := {|
  sl_local_roles := sl_local_roles s; sl_peer_roles := sl_peer_roles s; sl_mirrors := sl_mirrors s;
  sl_snapshot := sl_snapshot s; sl_deadline := sl_deadline s; sl_connected := sl_connected s;
  sl_locked := sl_locked s; sl_dismissals_sent := sl_dismissals_sent s;
  sl_dismissals_refused := sl_dismissals_refused s; sl_superseded := sl_superseded s; sl_queue := x;
  sl_outbound := sl_outbound s; sl_generation := sl_generation s; sl_tasks := sl_tasks s |}.
Definition with_outbound (s : PeerSlot) (x : option N) : PeerSlot := {|
  sl_local_roles := sl_local_roles s; sl_peer_roles := sl_peer_roles s; sl_mirrors := sl_mirrors s;
  sl_snapshot := sl_snapshot s; sl_deadline := sl_deadline s; sl_connected := sl_connected s;
  sl_locked := sl_locked s; sl_dismissals_sent := sl_dismissals_sent s;
  sl_dismissals_refused := sl_dismissals_refused s; sl_superseded := sl_superseded s; sl_queue := sl_queue s;
  sl_outbound := x; sl_generation := sl_generation s; sl_tasks := sl_tasks s |}.
Definition with_generation (s : PeerSlot) (x : N) : PeerSlot := {|
  sl_local_roles := sl_local_roles s; sl_peer_roles := sl_peer_roles s; sl_mirrors := sl_mirrors s;
  sl_snapshot := sl_snapshot s; sl_deadline := sl_deadline s; sl_connected := sl_connected s;
  sl_locked := sl_locked s; sl_dismissals_sent := sl_dismissals_sent s;
  sl_dismissals_refused := sl_dismissals_refused s; sl_superseded := sl_superseded s; sl_queue := sl_queue s;
  sl_outbound := sl_outbound s; sl_generation := x; sl_tasks := sl_tasks s |}.
Definition with_tasks (s : PeerSlot) (x : list Task) : PeerSlot := {|
  sl_local_roles := sl_local_roles s; sl_peer_roles := sl_peer_roles s; sl_mirrors := sl_mirrors s;
  sl_snapshot := sl_snapshot s; sl_deadline := sl_deadline s; sl_connected := sl_connected s;
  sl_locked := sl_locked s; sl_dismissals_sent := sl_dismissals_sent s;
  sl_dismissals_refused := sl_dismissals_refused s; sl_superseded := sl_superseded s; sl_queue := sl_queue s;
  sl_outbound := sl_outbound s; sl_generation := sl_generation s; sl_tasks := x |}.
Definition with_snapshot (s : PeerSlot) (x : Snapshot) (d : option N) : PeerSlot := {|
  sl_local_roles := sl_local_roles s; sl_peer_roles := sl_peer_roles s; sl_mirrors := sl_mirrors s;
  sl_snapshot := x; sl_deadline := d; sl_connected := sl_connected s; sl_locked := sl_locked s;
  sl_dismissals_sent := sl_dismissals_sent s; sl_dismissals_refused := sl_dismissals_refused s;
  sl_superseded := sl_superseded s; sl_queue := sl_queue s; sl_outbound := sl_outbound s;
  sl_generation := sl_generation s; sl_tasks := sl_tasks s |}.

Definition set_authorizer_field (m : Notif) (x : option (Fingerprint -> NotificationPolicy.t)) : Notif := {|
  nt_capabilities := nt_capabilities m; nt_authorizer := x; nt_peers := nt_peers m;
  nt_available := nt_available m; nt_locked := nt_locked m; nt_closes_observed := nt_closes_observed m;
  nt_grace := nt_grace m; nt_close_stream_missing := nt_close_stream_missing m; nt_channels := nt_channels m;
  nt_timers := nt_timers m; nt_detaching := nt_detaching m; nt_now := nt_now m; nt_log := nt_log m |}.
Definition set_peers (m : Notif) (x : gmap Fingerprint PeerSlot) : Notif := {|
  nt_capabilities := nt_capabilities m; nt_authorizer := nt_authorizer m; nt_peers := x;
  nt_available := nt_available m; nt_locked := nt_locked m; nt_closes_observed := nt_closes_observed m;
  nt_grace := nt_grace m; nt_close_stream_missing := nt_close_stream_missing m; nt_channels := nt_channels m;
  nt_timers := nt_timers m; nt_detaching := nt_detaching m; nt_now := nt_now m; nt_log := nt_log m |}.
Definition set_available_field (m : Notif) (x : bool) : Notif := {|
  nt_capabilities := nt_capabilities m; nt_authorizer := nt_authorizer m; nt_peers := nt_peers m;
  nt_available := x; nt_locked := nt_locked m; nt_closes_observed := nt_closes_observed m;
  nt_grace := nt_grace m; nt_close_stream_missing := nt_close_stream_missing m; nt_channels := nt_channels m;
  nt_timers := nt_timers m; nt_detaching := nt_detaching m; nt_now := nt_now m; nt_log := nt_log m |}.
Definition set_locked_field (m : Notif) (x : bool) : Notif := {|
  nt_capabilities := nt_capabilities m; nt_authorizer := nt_authorizer m; nt_peers := nt_peers m;
  nt_available := nt_available m; nt_locked := x; nt_closes_observed := nt_closes_observed m;
  nt_grace := nt_grace m; nt_close_stream_missing := nt_close_stream_missing m; nt_channels := nt_channels m;
  nt_timers := nt_timers m; nt_detaching := nt_detaching m; nt_now := nt_now m; nt_log := nt_log m |}.
Definition set_closes (m : Notif) (x : N) : Notif := {|
  nt_capabilities := nt_capabilities m; nt_authorizer := nt_authorizer m; nt_peers := nt_peers m;
  nt_available := nt_available m; nt_locked := nt_locked m; nt_closes_observed := x; nt_grace := nt_grace m;
  nt_close_stream_missing := nt_close_stream_missing m; nt_channels := nt_channels m;
  nt_timers := nt_timers m; nt_detaching := nt_detaching m; nt_now := nt_now m; nt_log := nt_log m |}.
Definition set_missing (m : Notif) (x : bool) : Notif := {|
  nt_capabilities := nt_capabilities m; nt_authorizer := nt_authorizer m; nt_peers := nt_peers m;
  nt_available := nt_available m; nt_locked := nt_locked m; nt_closes_observed := nt_closes_observed m;
  nt_grace := nt_grace m; nt_close_stream_missing := x; nt_channels := nt_channels m;
  nt_timers := nt_timers m; nt_detaching := nt_detaching m; nt_now := nt_now m; nt_log := nt_log m |}.
Definition set_channels (m : Notif) (x : gmap N Channel) : Notif := {|
  nt_capabilities := nt_capabilities m; nt_authorizer := nt_authorizer m; nt_peers := nt_peers m;
  nt_available := nt_available m; nt_locked := nt_locked m; nt_closes_observed := nt_closes_observed m;
  nt_grace := nt_grace m; nt_close_stream_missing := nt_close_stream_missing m; nt_channels := x;
  nt_timers := nt_timers m; nt_detaching := nt_detaching m; nt_now := nt_now m; nt_log := nt_log m |}.
Definition set_timers (m : Notif) (x : list (Fingerprint * N * N)) : Notif := {|
  nt_capabilities := nt_capabilities m; nt_authorizer := nt_authorizer m; nt_peers := nt_peers m;
  nt_available := nt_available m; nt_locked := nt_locked m; nt_closes_observed := nt_closes_observed m;
  nt_grace := nt_grace m; nt_close_stream_missing := nt_close_stream_missing m; nt_channels := nt_channels m;
  nt_timers := x; nt_detaching := nt_detaching m; nt_now := nt_now m; nt_log := nt_log m |}.
Definition set_detaching (m : Notif) (x : list Fingerprint) : Notif := {|
  nt_capabilities := nt_capabilities m; nt_authorizer := nt_authorizer m; nt_peers := nt_peers m;
  nt_available := nt_available m; nt_locked := nt_locked m; nt_closes_observed := nt_closes_observed m;
  nt_grace := nt_grace m; nt_close_stream_missing := nt_close_stream_missing m; nt_channels := nt_channels m;
  nt_timers := nt_timers m; nt_detaching := x; nt_now := nt_now m; nt_log := nt_log m |}.
Definition set_now (m : Notif) (x : N) : Notif := {|
  nt_capabilities := nt_capabilities m; nt_authorizer := nt_authorizer m; nt_peers := nt_peers m;
  nt_available := nt_available m; nt_locked := nt_locked m; nt_closes_observed := nt_closes_observed m;
  nt_grace := nt_grace m; nt_close_stream_missing := nt_close_stream_missing m; nt_channels := nt_channels m;
  nt_timers := nt_timers m; nt_detaching := nt_detaching m; nt_now := x; nt_log := nt_log m |}.
Definition add_log (m : Notif) (l : list NLog) : Notif := {|
  nt_capabilities := nt_capabilities m; nt_authorizer := nt_authorizer m; nt_peers := nt_peers m;
  nt_available := nt_available m; nt_locked := nt_locked m; nt_closes_observed := nt_closes_observed m;
  nt_grace := nt_grace m; nt_close_stream_missing := nt_close_stream_missing m; nt_channels := nt_channels m;
  nt_timers := nt_timers m; nt_detaching := nt_detaching m; nt_now := nt_now m; nt_log := nt_log m ++ l |}.

(** [NotificationManager::new] with what the first probes answered. *)
Definition NotificationManager_new (caps : SinkCapabilities) (available locked : bool) : Notif := {|
  nt_capabilities := caps; nt_authorizer := None; nt_peers := ∅; nt_available := available; nt_locked := locked;
  nt_closes_observed := 0; nt_grace := RECONNECT_GRACE; nt_close_stream_missing := false; nt_channels := ∅;
  nt_timers := []; nt_detaching := []; nt_now := 0; nt_log := [] |}.

Definition reports_dismissals (m : Notif) : bool :=
  sc_dismiss_reporting (nt_capabilities m) && negb (nt_close_stream_missing m).

Definition policy_for (m : Notif) (peer : Fingerprint) : NotificationPolicy.t :=
  match nt_authorizer m with Some f => f peer | None => NotificationPolicy.DENIED end.

(** [slot]: the peer's, made on first use. *)
Definition slot_of (m : Notif) (peer : Fingerprint) : PeerSlot := default PeerSlot_new (nt_peers m !! peer).
Definition set_slot (m : Notif) (peer : Fingerprint) (s : PeerSlot) : Notif := set_peers m (<[peer := s]> (nt_peers m)).
Definition slot (m : Notif) (peer : Fingerprint) : Notif := set_slot m peer (slot_of m peer).

Definition offer_to (s : PeerSlot) (w : Work) : PeerSlot := with_queue s (offer (sl_queue s) w).2.

(** * Sessions *)

Definition attach_session (m : Notif) (peer : Fingerprint) (channel : N) : Notif :=
  let s := slot_of m peer in
  let s := with_outbound (with_generation s (wrap_add_u64 (sl_generation s) 1)) (Some channel) in
  let s := if sl_connected s then with_superseded s (N.min (sl_superseded s + 1) u32_max) else s in
  let s := with_peer_roles (with_local_roles (with_connected s true) (lr_reset (sl_local_roles s))) PeerRoles_none in
  let s := with_snapshot s (abandon (sl_snapshot s)) None in
  set_slot m peer (offer_to s AnnounceRoles).

(** [detach_session] up to the end of its first critical section: a detach that
    is owed to a replaced session is spent, any other goes on to the teardown. *)
Definition detach_check (m : Notif) (peer : Fingerprint) : Notif :=
  match nt_peers m !! peer with
  | None => m
  | Some s =>
      if 0 <? sl_superseded s then set_slot m peer (with_superseded s (sl_superseded s - 1))
      else set_detaching m (nt_detaching m ++ [peer])
  end.

(** The rest of [detach_session], and the timer it arms. *)
Definition detach_teardown (m : Notif) (peer : Fingerprint) : Notif :=
  match nt_peers m !! peer with
  | None => m
  | Some s =>
      let s := with_outbound s None in
      let generation := sl_generation s in
      let s := with_snapshot (with_connected s false) (abandon (sl_snapshot s)) None in
      let s := with_peer_roles (with_local_roles s (lr_reset (sl_local_roles s))) PeerRoles_none in
      set_timers (set_slot m peer s) (nt_timers m ++ [(peer, generation, nt_now m + nt_grace m)])
  end.

(** The grace timer armed by a detach. *)
Definition grace_expired (m : Notif) (peer : Fingerprint) (generation : N) : Notif :=
  match nt_peers m !! peer with
  | None => m
  | Some s =>
      if negb (sl_generation s =? generation) then m
      else if sl_connected s then m
      else set_slot m peer (offer_to s (CloseAll CGraceExpired))
  end.

Definition revoke_peer (m : Notif) (peer : Fingerprint) : Notif :=
  match nt_peers m !! peer with
  | None => m
  | Some s => set_slot m peer (offer_to s (CloseAll CRevoked))
  end.

(** * Reports *)

Record PeerReport := {
  rp_peer : Fingerprint; rp_connected : bool; rp_mirrors : N; rp_displayed : N; rp_evicted : N;
  rp_local_roles : N; rp_local_epoch : N; rp_peer_is_source : bool; rp_peer_is_dismiss_target : bool;
  rp_peer_epoch : N; rp_local_reports_dismissals : bool; rp_dismissals_sent : N; rp_dismissals_refused : N;
  rp_snapshot_open : bool; rp_queue : QueueStats
}.

Definition peer_report (peer : Fingerprint) (s : PeerSlot) : PeerReport := {|
  rp_peer := peer; rp_connected := sl_connected s; rp_mirrors := mt_len (sl_mirrors s);
  rp_displayed := len (filter (fun p => is_Some (me_server_id p.2)) (mt_iter (sl_mirrors s)));
  rp_evicted := mt_evicted (sl_mirrors s); rp_local_roles := lr_count (sl_local_roles s);
  rp_local_epoch := lr_epoch (sl_local_roles s); rp_peer_is_source := has (sl_peer_roles s) Source;
  rp_peer_is_dismiss_target := has (sl_peer_roles s) DismissTarget; rp_peer_epoch := pr_epoch (sl_peer_roles s);
  rp_local_reports_dismissals := has_announced (sl_local_roles s) DismissReporter;
  rp_dismissals_sent := sl_dismissals_sent s; rp_dismissals_refused := sl_dismissals_refused s;
  rp_snapshot_open := is_open (sl_snapshot s); rp_queue := stats (sl_queue s) |}.

(** In the order of the peers' hexadecimal names, which is that of their bytes. *)
Definition peer_reports (m : Notif) : list PeerReport := (fun p => peer_report p.1 p.2) <$> bt_items (nt_peers m).

Definition mirror_count (m : Notif) : N := foldr (fun r n => rp_mirrors r + n) 0 (peer_reports m).

(** * Platform events *)

Definition set_available (m : Notif) (available : bool) : Notif :=
  if eqb (nt_available m) available then m
  else
    let m := set_available_field m available in
    set_peers m ((fun s =>
      let s := if available then with_mirrors s (invalidate_server_ids (sl_mirrors s)) else s in
      offer_to s AnnounceRoles) <$> nt_peers m).

Definition note_backend_error (m : Notif) (e : SinkError) : Notif :=
  match e with SUnavailable => set_available m false | _ => m end.

Definition set_locked (m : Notif) (locked : bool) : Notif :=
  if eqb (nt_locked m) locked then m
  else
    let m := set_locked_field m locked in
    set_peers m ((fun s => offer_to s (LockChanged locked)) <$> nt_peers m).

Definition maybe_request_dismissal (m : Notif) (peer : Fingerprint) (id : NotificationId) (origin_device_id : str) : Notif :=
  if negb (NotificationPolicy.may_sync_dismissals (policy_for m peer)) then m
  else
    let s := slot_of m peer in
    if negb (has (sl_peer_roles s) DismissTarget) || negb (has_announced (sl_local_roles s) DismissReporter) then m
    else set_slot m peer (offer_to s (Dismiss id origin_device_id)).

(** The loop of [note_closed] over the slots, in the order the table gives them. *)
Fixpoint note_closed_in (m : Notif) (order : list Fingerprint) (id : ServerId) (reason : CloseReason) : Notif :=
  match order with
  | [] => m
  | peer :: order' =>
      match nt_peers m !! peer with
      | None => note_closed_in m order' id reason
      | Some s =>
          let '(forgotten, mirrors) := forget_server_id (sl_mirrors s) id in
          match forgotten with
          | None => note_closed_in m order' id reason
          | Some (nid, entry) =>
              let m := set_slot m peer (with_mirrors s mirrors) in
              if is_human_dismissal reason then maybe_request_dismissal m peer nid (me_origin_device_id entry) else m
          end
      end
  end.

Definition note_closed (m : Notif) (order : list Fingerprint) (id : ServerId) (reason : CloseReason) : Notif :=
  let m := note_closed_in m order id reason in
  set_closes m (wrap_add_u64 (nt_closes_observed m) 1).

(** The first half of [spawn_platform_pumps]: whether the sink has a close stream. *)
Definition note_close_stream (m : Notif) (has_stream : bool) : Notif :=
  if has_stream then set_missing m false
  else if sc_dismiss_reporting (nt_capabilities m) then set_missing m true else m.

Section Manager.
Context `{!Prost NotificationControl}.

(** * Outbound *)

Definition outbound_of (control : NotificationControl) : OutboundMessage :=
  {| om_capability_id := NOTIFICATIONS_ID; om_payload := encode_to_vec control |}.

(** A bounded send on the peer's channel, and whether it was queued. *)
Definition send_bounded (m : Notif) (peer : Fingerprint) (control : NotificationControl) : bool * Notif :=
  match sl_outbound (slot_of m peer) with
  | None => (false, m)
  | Some channel =>
      match nt_channels m !! channel with
      | Some ChOpen => (true, add_log m [LSent peer channel control (outbound_of control)])
      | _ => (false, m)
      end
  end.

Definition answer (m : Notif) (peer : Fingerprint) (id : NotificationId) (o : NOutcome.t) : Notif :=
  (send_bounded m peer {| nc_body := Some (NResult {| ns_notification_id := bn_bytes id; ns_outcome := NOutcome.to_proto o |}) |}).2.

Definition send_dismiss (m : Notif) (peer : Fingerprint) (id : NotificationId) (origin_device_id : str) : Notif :=
  let '(sent, m) := send_bounded m peer
    {| nc_body := Some (NDismiss {| dq_notification_id := bn_bytes id; dq_origin_device_id := origin_device_id |}) |} in
  if sent then
    let s := slot_of m peer in
    set_slot m peer (with_sent s (wrap_add_u64 (sl_dismissals_sent s) 1))
  else m.

(** * Inbound *)

Definition apply_peer_roles (m : Notif) (peer : Fingerprint) (announcement : NotificationRoles) : Notif :=
  let s := slot_of m peer in
  let was_source := has (sl_peer_roles s) Source in
  let '(applied, roles) := apply_roles (sl_peer_roles s) announcement in
  let s := with_peer_roles s roles in
  match applied with
  | Err _ => set_slot m peer s
  | Ok _ =>
      if was_source && negb (has roles Source) then set_slot m peer (offer_to s (CloseAll CRoleNarrowed))
      else set_slot m peer s
  end.

Definition refuse (m : Notif) (peer : Fingerprint) (control : NotificationControl) (rejection : Rejection) : Notif :=
  if negb (is_answerable rejection) then m
  else
    match named_identity control with
    | None => m
    | Some raw =>
        match NotificationId_from_bytes raw with
        | Err _ => m
        | Ok id => answer (slot m peer) peer id (NOutcome.from_rejection rejection)
        end
    end.

(** The id a full queue's answer names. *)
Definition named_work (w : Work) : option NotificationId :=
  match w with Upsert i => Some (in_id i) | Remove id => Some id | _ => None end.

Definition enqueue (m : Notif) (peer : Fingerprint) (work : Work) : Notif :=
  let s := slot_of m peer in
  let '(verdict, q) := offer (sl_queue s) work in
  let m := set_slot m peer (with_queue s q) in
  match verdict, named_work work with
  | Dropped, Some id => answer m peer id NOutcome.RateLimited
  | _, _ => m
  end.

Definition handle_control (m : Notif) (peer : Fingerprint) (payload : bytes) : Result unit * Notif :=
  match prost_decode payload with
  | None => (Err (EProtocol "malformed notifications.v1 payload"), m)
  | Some control =>
      (Ok tt,
       match validate_control control (len payload) with
       | Err rejection => refuse m peer control rejection
       | Ok _ =>
           let m := slot m peer in
           let policy := policy_for m peer in
           let denied := NotificationPolicy.is_denied policy in
           match nc_body control with
           | Some (NRoles announcement) => apply_peer_roles m peer announcement
           | Some (NUpsert message) =>
               match validate_upsert message with
               | Err _ => m
               | Ok id =>
                   if denied then answer m peer id NOutcome.NotAuthorized
                   else enqueue m peer (Upsert {| in_id := id; in_message := message |})
               end
           | Some (NRemove message) =>
               match validate_remove message with
               | Err _ => m
               | Ok id => if denied then answer m peer id NOutcome.NotAuthorized else enqueue m peer (Remove id)
               end
           | Some (NSync marker) => if denied then m else enqueue m peer (Sync marker)
           | Some (NDismiss message) =>
               match validate_dismiss message with
               | Err _ => m
               | Ok id => answer m peer id (if denied then NOutcome.NotAuthorized else NOutcome.RejectedRole)
               end
           | Some (NResult result) =>
               if is_declined_dismissal (ns_outcome result) then
                 let s := slot_of m peer in
                 set_slot m peer (with_refused s (wrap_add_u64 (sl_dismissals_refused s) 1))
               else m
           | None => m
           end
       end)
  end.

(** * The worker *)

(** [close_mirror]: forget the mirror, then ask the desktop to close it. *)
Definition close_mirror (m : Notif) (peer : Fingerprint) (id : NotificationId) : Notif :=
  let s := slot_of m peer in
  let '(entry, mirrors) := mt_remove (sl_mirrors s) id in
  let m := set_slot m peer (with_mirrors s mirrors) in
  match entry ≫= me_server_id with
  | Some server_id => add_log m [LClose peer server_id]
  | None => m
  end.

Definition announce_roles (m : Notif) (peer : Fingerprint) : list Task * Notif :=
  let s := slot_of m peer in
  match sl_outbound s with
  | None => ([], m)
  | Some channel =>
      let '(announcement, roles) := announce (sl_local_roles s) (nt_available m) (reports_dismissals m) in
      (match announcement with
       | Some a => [KSend channel {| nc_body := Some (NRoles a) |}]
       | None => []
       end, set_slot m peer (with_local_roles s roles))
  end.

(** [apply_upsert] until the platform is asked whether the screen is locked. *)
Definition apply_upsert (m : Notif) (peer : Fingerprint) (incoming : Incoming) : list Task * Notif :=
  let policy := policy_for m peer in
  let id := in_id incoming in
  if NotificationPolicy.is_denied policy then ([KAnswer id NOutcome.NotAuthorized], m)
  else if negb (has (sl_peer_roles (slot_of m peer)) Source) then ([KAnswer id NOutcome.RejectedRole], m)
  else if eqb (privacy_or_default (nu_privacy (in_message incoming))) Secret
  then ([KAnswer id NOutcome.RejectedPolicy], close_mirror m peer id)
  else ([KAskLock incoming policy], m).

(** Whether the mirror on the screen is already this notification, in this form. *)
Definition is_duplicate (entry : MirrorEntry) (content_hash : bytes) (reduced : bool) : bool :=
  negb (eqb content_hash []) && eqb (me_content_hash entry) content_hash
  && eqb (me_reduced entry) reduced && bool_decide (is_Some (me_server_id entry)).

(** [apply_upsert] from the lock state to the call of the desktop. *)
Definition upsert_locked (m : Notif) (peer : Fingerprint) (incoming : Incoming) (policy : NotificationPolicy.t)
    (locked : bool) : list Task * Notif :=
  let id := in_id incoming in
  let m := set_locked_field m locked in
  let presentation := Presentation.resolve policy locked in
  if eqb presentation Presentation.Suppress
  then ([KAnswer id NOutcome.RejectedPolicy], close_mirror m peer id)
  else
    let mirror := build_mirror (nt_capabilities m) (in_message incoming) presentation in
    let reduced := Presentation.is_reduced presentation in
    let s := slot_of m peer in
    let m := set_slot m peer (with_snapshot s (snapshot_upsert (sl_snapshot s) id).2 (sl_deadline s)) in
    let entry := mt_get (sl_mirrors s) id in
    let duplicate := match entry with
                     | Some e => is_duplicate e (nu_content_hash (in_message incoming)) reduced
                     | None => false
                     end in
    if duplicate then ([KAnswer id NOutcome.Duplicate], m)
    else ([KDisplay incoming mirror reduced], add_log m [LDisplay peer mirror (entry ≫= me_server_id)]).

(** The end of [apply_upsert]. *)
Definition upsert_displayed (m : Notif) (peer : Fingerprint) (incoming : Incoming) (mirror : Mirror) (reduced : bool)
    (r : result SinkError ServerId) : list Task * Notif :=
  let id := in_id incoming in
  match r with
  | Ok server_id =>
      let s := slot_of m peer in
      let '(evicted, mirrors) := mt_insert (sl_mirrors s) id (Some server_id) (nu_content_hash (in_message incoming))
        (mi_app_name mirror) (mi_urgency mirror) reduced (nu_origin_device_id (in_message incoming)) in
      let m := set_slot m peer (with_mirrors s mirrors) in
      ([KAnswer id NOutcome.Displayed],
       match evicted with
       | Some (_, entry) =>
           match me_server_id entry with Some stale => add_log m [LClose peer stale] | None => m end
       | None => m
       end)
  | Err error =>
      let m := note_backend_error m error in
      let s := slot_of m peer in
      let '(_, mirrors) := mt_insert (sl_mirrors s) id None [] (mi_app_name mirror) (mi_urgency mirror) reduced
        (nu_origin_device_id (in_message incoming)) in
      ([KAnswer id (NOutcome.from_sink_error error)], set_slot m peer (with_mirrors s mirrors))
  end.

(** [apply_remove] until the desktop is asked to close. *)
Definition apply_remove (m : Notif) (peer : Fingerprint) (id : NotificationId) : list Task * Notif :=
  let policy := policy_for m peer in
  if NotificationPolicy.is_denied policy then ([KAnswer id NOutcome.NotAuthorized], m)
  else
    let s := slot_of m peer in
    if negb (has (sl_peer_roles s) Source) then ([KAnswer id NOutcome.RejectedRole], m)
    else
      let '(entry, mirrors) := mt_remove (sl_mirrors s) id in
      let m := set_slot m peer (with_mirrors s mirrors) in
      match entry with
      | None => ([KAnswer id NOutcome.UnknownNotification], m)
      | Some entry =>
          match me_server_id entry with
          | None => ([KAnswer id NOutcome.Removed], m)
          | Some server_id => ([KClosing id], add_log m [LClose peer server_id])
          end
      end.

(** The end of [apply_remove]. *)
Definition remove_closed (m : Notif) (id : NotificationId) (r : result SinkError unit) : list Task * Notif :=
  match r with
  | Ok _ => ([KAnswer id NOutcome.Removed], m)
  | Err error => ([KAnswer id (NOutcome.from_sink_error error)], note_backend_error m error)
  end.

Definition apply_sync (m : Notif) (peer : Fingerprint) (mk : SyncMarker) : list Task * Notif :=
  let s := slot_of m peer in
  let '(step, snapshot) := marker (sl_snapshot s) mk in
  let deadline := match step with
                  | Opened | Restarted => Some (nt_now m + SYNC_TIMEOUT)
                  | Complete _ => None
                  | _ => sl_deadline s
                  end in
  (match step with
   | Complete named => [KCloseMirrors (not_named_in (sl_mirrors s) named)]
   | _ => []
   end, set_slot m peer (with_snapshot s snapshot deadline)).

Definition abandon_snapshot (m : Notif) (peer : Fingerprint) : Notif :=
  let s := slot_of m peer in
  if negb (is_open (sl_snapshot s)) then set_slot m peer (with_snapshot s (sl_snapshot s) None)
  else set_slot m peer (with_snapshot s (abandon (sl_snapshot s)) None).

Definition affected_by_lock (t : MirrorTable) : list Affected :=
  (fun p => {| af_id := p.1; af_server_id := me_server_id p.2; af_app_name := me_app_name p.2;
               af_urgency := me_urgency p.2; af_reduced := me_reduced p.2 |}) <$> mt_iter t.

Definition apply_lock_change (m : Notif) (peer : Fingerprint) (locked : bool) : list Task * Notif :=
  let m := set_locked_field m locked in
  let m := set_slot m peer (with_slot_locked (slot_of m peer) locked) in
  if negb locked then ([], m)
  else
    let presentation := Presentation.resolve (policy_for m peer) true in
    if eqb presentation Presentation.Full then ([], m)
    else ([KReduce presentation (affected_by_lock (sl_mirrors (slot_of m peer)))], m).

Definition update_entry (t : MirrorTable) (id : NotificationId) (f : MirrorEntry -> MirrorEntry) : MirrorTable :=
  with_entries t (alter f id (mt_entries t)).

Definition mark_reduced (e : MirrorEntry) : MirrorEntry := {|
  me_server_id := me_server_id e; me_content_hash := me_content_hash e; me_app_name := me_app_name e;
  me_urgency := me_urgency e; me_reduced := true; me_origin_device_id := me_origin_device_id e; me_seq := me_seq e |}.

Definition shown_reduced (new_id : ServerId) (e : MirrorEntry) : MirrorEntry := {|
  me_server_id := Some new_id; me_content_hash := []; me_app_name := me_app_name e;
  me_urgency := me_urgency e; me_reduced := true; me_origin_device_id := me_origin_device_id e; me_seq := me_seq e |}.

Definition reduced_mirror (a : Affected) : Mirror := {|
  mi_app_name := af_app_name a; mi_summary := af_app_name a; mi_body := []; mi_urgency := af_urgency a; mi_redacted := true |}.

(** One round of the loop of [apply_lock_change]. *)
Definition reduce_next (m : Notif) (peer : Fingerprint) (presentation : Presentation.t) (affected : list Affected)
    : list Task * Notif :=
  match affected with
  | [] => ([], m)
  | a :: rest =>
      if eqb presentation Presentation.Suppress then ([KReduce presentation rest], close_mirror m peer (af_id a))
      else if af_reduced a then ([KReduce presentation rest], m)
      else
        match af_server_id a with
        | None =>
            let s := slot_of m peer in
            ([KReduce presentation rest], set_slot m peer (with_mirrors s (update_entry (sl_mirrors s) (af_id a) mark_reduced)))
        | Some server_id =>
            ([KReducing (af_id a); KReduce presentation rest], add_log m [LDisplay peer (reduced_mirror a) (Some server_id)])
        end
  end.

(** The answer to a reduced re-post. *)
Definition reduce_displayed (m : Notif) (peer : Fingerprint) (id : NotificationId) (r : result SinkError ServerId) : Notif :=
  match r with
  | Ok new_id =>
      let s := slot_of m peer in
      set_slot m peer (with_mirrors s (update_entry (sl_mirrors s) id (shown_reduced new_id)))
  | Err error => close_mirror (note_backend_error m error) peer id
  end.

Definition close_all (m : Notif) (peer : Fingerprint) : list Task * Notif :=
  let s := slot_of m peer in
  let s := with_snapshot s (abandon (sl_snapshot s)) None in
  let '(entries, mirrors) := mt_drain (sl_mirrors s) in
  ([KCloseIds (omap (fun p => me_server_id p.2) entries)], set_slot m peer (with_mirrors s mirrors)).

Definition process (m : Notif) (peer : Fingerprint) (w : Work) : list Task * Notif :=
  match w with
  | AnnounceRoles => announce_roles m peer
  | Upsert incoming => apply_upsert m peer incoming
  | Remove id => apply_remove m peer id
  | Dismiss id origin_device_id => ([], send_dismiss m peer id origin_device_id)
  | Sync mk => apply_sync m peer mk
  | LockChanged locked => apply_lock_change m peer locked
  | CloseAll _ => close_all m peer
  end.

(** What the platform answered, if it did. *)
Inductive Reply :=
| RNone
| RLocked (locked : bool)
| RDisplay (r : result SinkError ServerId)
| RClose (r : result SinkError unit).

(** One task: what replaces it, or nothing yet. *)
Definition perform (m : Notif) (peer : Fingerprint) (t : Task) (reply : Reply) : option (list Task * Notif) :=
  match t, reply with
  | KWork w, _ => Some (process m peer w)
  | KAskLock i policy, RLocked locked => Some (upsert_locked m peer i policy locked)
  | KDisplay i mirror reduced, RDisplay r => Some (upsert_displayed m peer i mirror reduced r)
  | KClosing id, RClose r => Some (remove_closed m id r)
  | KReduce presentation affected, _ => Some (reduce_next m peer presentation affected)
  | KReducing id, RDisplay r => Some ([], reduce_displayed m peer id r)
  | KCloseMirrors [], _ => Some ([], m)
  | KCloseMirrors (id :: ids), _ => Some ([KCloseMirrors ids], close_mirror m peer id)
  | KCloseIds [], _ => Some ([], m)
  | KCloseIds (id :: ids), _ => Some ([KCloseIds ids], add_log m [LClose peer id])
  | KAnswer id o, _ => Some ([], answer m peer id o)
  | KSend channel control, _ =>
      match nt_channels m !! channel with
      | Some ChOpen => Some ([], add_log m [LSent peer channel control (outbound_of control)])
      | Some ChFull => None
      | _ => Some ([], m)
      end
  | _, _ => None
  end.

Definition set_tasks (m : Notif) (peer : Fingerprint) (tasks : list Task) : Notif :=
  set_slot m peer (with_tasks (slot_of m peer) tasks).

(** [run_worker]: the tasks under way, and then whatever is pending. *)
Definition worker_step (m : Notif) (peer : Fingerprint) (reply : Reply) : Notif :=
  match nt_peers m !! peer with
  | None => m
  | Some s =>
      match sl_tasks s with
      | [] =>
          let '(items, q) := drain (sl_queue s) in
          set_slot m peer (with_tasks (with_queue s q) (KWork <$> items))
      | t :: rest =>
          match perform m peer t reply with
          | Some (new, m) => set_tasks m peer (new ++ rest)
          | None => m
          end
      end
  end.

(** ** Everything that can happen *)

Inductive NEvent :=
| EvClock (now : N)
| EvAuthorizer (f : Fingerprint -> NotificationPolicy.t)
| EvChannel (channel : N) (c : Channel)
| EvAttach (peer : Fingerprint) (channel : N)
| EvDetach (peer : Fingerprint)
| EvTeardown (peer : Fingerprint)
| EvGrace (peer : Fingerprint) (generation due : N)
| EvRevoke (peer : Fingerprint)
| EvMessage (peer : Fingerprint) (payload : bytes)
| EvAvailable (available : bool)
| EvLocked (locked : bool)
| EvClosed (order : list Fingerprint) (id : ServerId) (reason : CloseReason)
| EvCloseStream (has_stream : bool)
| EvDeadline (peer : Fingerprint)
| EvWorker (peer : Fingerprint) (reply : Reply).

#[export] Instance timer_eq_dec : EqDecision (Fingerprint * N * N) := _.

(** One element less of a list. *)
Fixpoint remove_first {A} `{EqDecision A} (x : A) (l : list A) : list A :=
  match l with [] => [] | y :: l => if decide (x = y) then l else y :: remove_first x l end.

Definition notif_step (m : Notif) (ev : NEvent) : Notif :=
  match ev with
  | EvClock now => set_now m (N.max (nt_now m) now)
  | EvAuthorizer f => set_authorizer_field m (Some f)
  | EvChannel channel c => set_channels m (<[channel := c]> (nt_channels m))
  | EvAttach peer channel => attach_session m peer channel
  | EvDetach peer => detach_check m peer
  | EvTeardown peer =>
      if mem peer (nt_detaching m)
      then detach_teardown (set_detaching m (remove_first peer (nt_detaching m))) peer else m
  | EvGrace peer generation due =>
      if mem (peer, generation, due) (nt_timers m) && (due <=? nt_now m)
      then grace_expired (set_timers m (remove_first (peer, generation, due) (nt_timers m))) peer generation else m
  | EvRevoke peer => revoke_peer m peer
  | EvMessage peer payload => (handle_control m peer payload).2
  | EvAvailable available => set_available m available
  | EvLocked locked => set_locked m locked
  | EvClosed order id reason => note_closed m order id reason
  | EvCloseStream has_stream => note_close_stream m has_stream
  | EvDeadline peer =>
      match nt_peers m !! peer with
      | Some s =>
          match sl_tasks s, sl_deadline s with
          | [], Some t => if t <=? nt_now m then abandon_snapshot m peer else m
          | _, _ => m
          end
      | None => m
      end
  | EvWorker peer reply => worker_step m peer reply
  end.

Definition notif_run (m : Notif) (evs : list NEvent) : Notif := foldl notif_step m evs.
End Manager.
