(* ===== verification/NotifyFacts.v ===== *)
(** What notification mirroring does and never does.

    Theorems about [Notifications]: over any interleaving of peers, workers,
    users, policy changes, platform answers and timers, what reaches the desktop
    is what a permitted peer sent, in the form the lock state allows and as text
    fit to show; the only request ever sent to a peer is the dismissal of a mirror
    a person has just closed; a peer reaches its own mirrors and no others; the
    bookkeeping of replaced sessions is exact; and a worker gets through any batch
    of work. *)
From S2P Require Import Prelude External Ids Capability Policy NotifyContract NotifyText NotifyQueue NotifyMirror Notifications.

(** * Slots *)

Lemma slot_of_set_same m p s : slot_of (set_slot m p s) p = s.
Proof. unfold slot_of, set_slot. simpl. by rewrite lookup_insert_eq. Qed.

Lemma slot_of_set_other m p q s : q <> p -> slot_of (set_slot m p s) q = slot_of m q.
Proof. intros Hne. unfold slot_of, set_slot. simpl. by rewrite lookup_insert_ne. Qed.

Lemma slot_of_log m l p : slot_of (add_log m l) p = slot_of m p.
Proof. done. Qed.

(** * Text on the screen *)

(** A name short and printable. *)
Definition name_safe (s : str) : Prop := len s <= 64 /\ Forall line_safe s.

Lemma app_name_safe l a : name_safe (app_name l a).
Proof.
  assert (forall s, name_safe (sanitize_line s MAX_APP_NAME_CHARS)) as H.
  { intros s. split; [apply truncate_chars_len; unfold MAX_APP_NAME_CHARS; lia | apply sanitize_line_safe]. }
  unfold app_name. case_match; apply H.
Qed.

(** What a notification server may be given. *)
Record mirror_safe (markup : bool) (mi : Mirror) : Prop := {
  ms_name : name_safe (mi_app_name mi);
  ms_summary : len (mi_summary mi) <= 120 /\ Forall line_safe (mi_summary mi);
  ms_body : len (mi_body mi) <= 2000 /\ Forall block_safe (mi_body mi);
  ms_tag : markup = true -> Forall (fun c => c <> LT /\ c <> GT) (mi_body mi)
}.

(** Only the application's name. *)
Definition name_only (mi : Mirror) : Prop := mi_summary mi = mi_app_name mi /\ mi_body mi = [] /\ mi_redacted mi = true.

Lemma name_only_safe markup mi : name_safe (mi_app_name mi) -> name_only mi -> mirror_safe markup mi.
Proof.
  intros [Hl Hs] (Hsum & Hb & _). constructor; rewrite ?Hsum, ?Hb; [done | split; [lia | done] | |done].
  split; [by rewrite len_nil | constructor].
Qed.

Lemma build_mirror_name caps msg pr : mi_app_name (build_mirror caps msg pr) = app_name (nu_app_label msg) (nu_app_id msg).
Proof. by destruct pr. Qed.

Lemma build_mirror_safe caps msg pr : mirror_safe (sc_body_markup caps) (build_mirror caps msg pr).
Proof.
  destruct (app_name_safe (nu_app_label msg) (nu_app_id msg)) as [Hn1 Hn2].
  assert (pr <> Presentation.Full -> mirror_safe (sc_body_markup caps) (build_mirror caps msg pr)) as Hother.
  { intros Hpr. apply name_only_safe; [rewrite build_mirror_name; apply app_name_safe | by destruct pr]. }
  destruct (decide (pr = Presentation.Full)) as [->|Hne]; [clear Hother | by apply Hother].
  simpl. set (title := nu_title msg). set (raw := nu_body msg). constructor; simpl.
  - by split.
  - destruct (eqb (summary title) []); [split; [lia | done]|].
    split; [apply truncate_chars_len; unfold MAX_SUMMARY_CHARS; lia | apply sanitize_line_safe].
  - destruct (sc_body caps); [|split; [by rewrite len_nil | constructor]].
    split; [apply truncate_chars_len; unfold MAX_BODY_CHARS; lia | apply body_safe].
  - intros Hm. rewrite Hm. destruct (sc_body caps); [apply body_no_tag | constructor].
Qed.

Lemma reduced_mirror_name_only a : name_only (reduced_mirror a).
Proof. done. Qed.

(** * What holds of every reachable state *)

Section Good.
Context `{!Prost NotificationControl}.
Context (caps : SinkCapabilities).
(** What the history of a run has to say: an upsert was begun with a policy; the
    platform said the screen is locked or not; a dismissal was asked for. *)
Context (Began : Fingerprint -> Incoming -> NotificationPolicy.t -> Prop).
Context (Locked : Fingerprint -> Incoming -> bool -> Prop).
Context (Asked : Fingerprint -> NotificationId -> str -> Prop).

Definition work_ok (p : Fingerprint) (w : Work) : Prop :=
  match w with Dismiss id o => Asked p id o | _ => True end.

Definition task_ok (p : Fingerprint) (t : Task) : Prop :=
  match t with
  | KWork w => work_ok p w
  | KAskLock i pol => Began p i pol
  | KDisplay _ mi _ => name_safe (mi_app_name mi)
  | KReduce pr l => pr <> Presentation.Full /\ Forall (fun a => name_safe (af_app_name a)) l /\ (length l <= 200)%nat
  | KCloseMirrors l => (length l <= 200)%nat
  | KCloseIds l => (length l <= 200)%nat
  | KSend _ c => exists a, nc_body c = Some (NRoles a)
  | _ => True
  end.

Record slot_ok (p : Fingerprint) (s : PeerSlot) : Prop := {
  so_table : table_ok (sl_mirrors s);
  so_names : forall id e, mt_entries (sl_mirrors s) !! id = Some e -> name_safe (me_app_name e);
  so_tasks : Forall (task_ok p) (sl_tasks s);
  so_queue : Forall (work_ok p) (q_items (sl_queue s))
}.

(** How a display came about: an upsert that was begun, in the form its policy and
    the lock state ask for; or the reduction of a mirror to its name. *)
Definition allowed (p : Fingerprint) (mi : Mirror) (replaces : option ServerId) : Prop :=
  (exists i pol locked, Began p i pol /\ Locked p i locked /\
     Presentation.resolve pol locked <> Presentation.Suppress /\
     mi = build_mirror caps (in_message i) (Presentation.resolve pol locked)) \/
  (name_only mi /\ is_Some replaces).

Definition log_ok (e : NLog) : Prop :=
  match e with
  | LDisplay p mi replaces => mirror_safe (sc_body_markup caps) mi /\ allowed p mi replaces
  | LClose _ _ => True
  | LSent p _ c msg =>
      msg = outbound_of c /\
      match nc_body c with
      | Some (NRoles _) | Some (NResult _) => True
      | Some (NDismiss d) => exists id, dq_notification_id d = bn_bytes id /\ Asked p id (dq_origin_device_id d)
      | _ => False
      end
  end.

Record good (m : Notif) : Prop := {
  go_slots : forall p s, nt_peers m !! p = Some s -> slot_ok p s;
  go_log : Forall log_ok (nt_log m);
  go_caps : nt_capabilities m = caps
}.

Lemma slot_new_ok p : slot_ok p PeerSlot_new.
Proof. constructor; simpl; [apply table_new_ok | | constructor | constructor]. intros id e. by rewrite lookup_empty. Qed.

Lemma good_slot m p : good m -> slot_ok p (slot_of m p).
Proof. intros [Hs _ _]. unfold slot_of. destruct (nt_peers m !! p) eqn:Hp; simpl; [by apply Hs | apply slot_new_ok]. Qed.

Lemma good_set m p s : good m -> slot_ok p s -> good (set_slot m p s).
Proof. intros [Hs Hl Hc] Hok. constructor; try done. intros q t. simpl. intros [[-> ->]|[_ Hq]]%lookup_insert_Some; [done | by apply Hs]. Qed.

Lemma good_slots m m' : good m -> nt_log m' = nt_log m -> nt_capabilities m' = nt_capabilities m ->
  (forall p s', nt_peers m' !! p = Some s' -> exists s, nt_peers m !! p = Some s /\ (slot_ok p s -> slot_ok p s')) -> good m'.
Proof.
  intros [Hs Hl Hc] Hl' Hc' Hp. constructor; [|by rewrite Hl' | congruence].
  intros p s' (s & Hs1 & Himp)%Hp. auto.
Qed.

(** Changes of everything but the peers' slots and the log. *)
Lemma good_same m m' : good m -> nt_peers m' = nt_peers m -> nt_log m' = nt_log m -> nt_capabilities m' = nt_capabilities m -> good m'.
Proof. intros [Hs Hl Hc] H1 H2 H3. constructor; [by rewrite H1 | by rewrite H2 | congruence]. Qed.

Lemma good_log m l : good m -> Forall log_ok l -> good (add_log m l).
Proof. intros [Hs Hl Hc] H. constructor; [done | by apply Forall_app | done]. Qed.

(** ** Parts of a slot *)

Lemma slot_ok_same p s s' : slot_ok p s -> sl_mirrors s' = sl_mirrors s -> sl_tasks s' = sl_tasks s ->
  q_items (sl_queue s') = q_items (sl_queue s) -> slot_ok p s'.
Proof. intros [H1 H2 H3 H4] E1 E2 E3. constructor; rewrite ?E1, ?E2, ?E3; done. Qed.

Lemma slot_ok_offer p s w : slot_ok p s -> work_ok p w -> slot_ok p (offer_to s w).
Proof. intros [H1 H2 H3 H4] Hw. constructor; try done. by apply offer_Forall. Qed.

Lemma slot_ok_mirrors p s t : slot_ok p s -> table_ok t ->
  (forall id e, mt_entries t !! id = Some e -> name_safe (me_app_name e)) -> slot_ok p (with_mirrors s t).
Proof. intros [H1 H2 H3 H4] Ht Hn. by constructor. Qed.

(** The entries of [m] are some of those of [t], perhaps with other handles. *)
Definition entries_sub (t : MirrorTable) (m : gmap NotificationId MirrorEntry) : Prop :=
  forall id e, m !! id = Some e -> exists e', mt_entries t !! id = Some e' /\ me_seq e = me_seq e' /\ me_app_name e = me_app_name e'.

Lemma slot_ok_sub p s m : slot_ok p s -> entries_sub (sl_mirrors s) m -> slot_ok p (with_mirrors s (with_entries (sl_mirrors s) m)).
Proof.
  intros Hs Hsub. apply slot_ok_mirrors; [done | |].
  - apply table_ok_sub; [apply Hs|]. intros id e (e' & ? & ? & _)%Hsub. eauto.
  - intros id e (e' & He & _ & ->)%Hsub. by eapply so_names.
Qed.

Lemma entries_sub_delete t id : entries_sub t (delete id (mt_entries t)).
Proof. intros x e [_ He]%lookup_delete_Some. eauto. Qed.

Lemma entries_sub_alter t id f : (forall e, me_seq (f e) = me_seq e /\ me_app_name (f e) = me_app_name e) ->
  entries_sub t (alter f id (mt_entries t)).
Proof.
  intros Hf x e. rewrite lookup_alter_Some. intros [(_ & e' & He & ->)|[_ He]]; [|eauto].
  exists e'. destruct (Hf e'). done.
Qed.

Lemma entries_sub_fmap t f : (forall e, me_seq (f e) = me_seq e /\ me_app_name (f e) = me_app_name e) ->
  entries_sub t (f <$> mt_entries t).
Proof. intros Hf x e. rewrite lookup_fmap_Some. intros (e' & <- & He). exists e'. destruct (Hf e'). done. Qed.

Lemma insert_names t id sid h a u r o x e : (forall id e, mt_entries t !! id = Some e -> name_safe (me_app_name e)) ->
  name_safe a -> mt_entries (mt_insert t id sid h a u r o).2 !! x = Some e -> name_safe (me_app_name e).
Proof.
  intros Hn Ha. unfold mt_insert. destruct (if bool_decide _ then _ else _) as [gone t1] eqn:Heq. simpl.
  rewrite lookup_insert_Some. intros [[_ <-]|[_ He]]; [done|]. revert Heq. case_bool_decide; [intros [= _ <-]; eauto|].
  destruct gone as [[v g]|]; intros Heq.
  - apply evict_some in Heq as (_ & _ & Ht1 & _). rewrite Ht1 in He. apply lookup_delete_Some in He as [_ He]. eauto.
  - apply evict_none in Heq as ->. eauto.
Qed.

Lemma slot_ok_insert p s id sid h a u r o : slot_ok p s -> name_safe a ->
  slot_ok p (with_mirrors s (mt_insert (sl_mirrors s) id sid h a u r o).2).
Proof.
  intros Hs Ha. apply slot_ok_mirrors; [done | apply mt_insert_ok, Hs |]. intros x e. apply insert_names; [apply Hs | done].
Qed.

(** ** Lengths *)

Lemma bt_items_length (m : gmap NotificationId MirrorEntry) : length (bt_items m) = size m.
Proof. unfold bt_items. rewrite merge_sort_Permutation. apply length_map_to_list. Qed.

Lemma table_length t : table_ok t -> (length (bt_items (mt_entries t)) <= 200)%nat.
Proof. intros [Hb _ _]. rewrite bt_items_length. unfold mt_len in Hb. lia. Qed.

Lemma insert_by_seq_perm x l : insert_by_seq x l ≡ₚ x :: l.
Proof. induction l as [|y l IH]; simpl; [done|]. case_match; [done|]. rewrite IH. apply Permutation_swap. Qed.

Lemma mt_iter_perm t : mt_iter t ≡ₚ bt_items (mt_entries t).
Proof. unfold mt_iter. induction (bt_items _) as [|x l IH]; simpl; [done|]. by rewrite insert_by_seq_perm, IH. Qed.

Lemma affected_ok p s : slot_ok p s -> Forall (fun a => name_safe (af_app_name a)) (affected_by_lock (sl_mirrors s)) /\
  (length (affected_by_lock (sl_mirrors s)) <= 200)%nat.
Proof.
  intros Hs. unfold affected_by_lock. rewrite length_fmap, mt_iter_perm. split; [|eapply table_length, so_table, Hs].
  apply Forall_fmap, Forall_forall. intros [id e] Hin. apply elem_of_bt_items in Hin. simpl. by eapply so_names.
Qed.

Lemma stale_length t named : table_ok t -> (length (not_named_in t named) <= 200)%nat.
Proof.
  intros Ht. unfold not_named_in. etrans; [apply length_filter|]. unfold bt_keys. rewrite length_fmap. by apply table_length.
Qed.

Lemma drained_length t : table_ok t -> (length (omap (fun p => me_server_id p.2) (bt_items (mt_entries t))) <= 200)%nat.
Proof.
  intros Ht%table_length. etrans; [|exact Ht]. clear Ht. induction (bt_items _) as [|x l IH]; [done|].
  cbn [omap list_omap]. destruct (me_server_id _); cbn [length]; lia.
Qed.

(** ** The operations keep it *)

Lemma good_offer m p w : good m -> work_ok p w -> good (set_slot m p (offer_to (slot_of m p) w)).
Proof. intros Hm Hw. apply good_set; [done|]. apply slot_ok_offer; [by apply good_slot | done]. Qed.

Lemma slot_of_some m p s : nt_peers m !! p = Some s -> slot_of m p = s.
Proof. unfold slot_of. by intros ->. Qed.

Lemma good_attach m p c : good m -> good (attach_session m p c).
Proof.
  intros Hm. unfold attach_session. apply good_set; [done|]. apply slot_ok_offer; [|done].
  eapply slot_ok_same; [by apply good_slot| | |]; simpl; by case_match.
Qed.

Lemma good_detach_check m p : good m -> good (detach_check m p).
Proof.
  intros Hm. unfold detach_check. destruct (nt_peers m !! p) as [s|] eqn:Hp; [|done]. apply slot_of_some in Hp as <-.
  case_match; [|by apply (good_same m)]. apply good_set; [done|]. by eapply slot_ok_same; [apply good_slot| | |].
Qed.

Lemma good_teardown m p : good m -> good (detach_teardown m p).
Proof.
  intros Hm. unfold detach_teardown. destruct (nt_peers m !! p) as [s|] eqn:Hp; [|done]. apply slot_of_some in Hp as <-.
  match goal with |- good (set_timers ?m' _) => apply (good_same m'); [|done..] end.
  apply good_set; [done|]. by eapply slot_ok_same; [apply good_slot| | |].
Qed.

Lemma good_grace m p g : good m -> good (grace_expired m p g).
Proof.
  intros Hm. unfold grace_expired. destruct (nt_peers m !! p) as [s|] eqn:Hp; [|done]. apply slot_of_some in Hp as <-.
  repeat case_match; try done. by apply good_offer.
Qed.

Lemma good_revoke m p : good m -> good (revoke_peer m p).
Proof.
  intros Hm. unfold revoke_peer. destruct (nt_peers m !! p) as [s|] eqn:Hp; [|done]. apply slot_of_some in Hp as <-. by apply good_offer.
Qed.

Lemma good_available m b : good m -> good (set_available m b).
Proof.
  intros Hm. unfold set_available. case_match; [done|]. eapply good_slots; [exact Hm | done | done|].
  simpl. intros p s'. rewrite lookup_fmap_Some. intros (s & <- & Hs). exists s. split; [done|]. intros Hok.
  apply slot_ok_offer; [|done]. destruct b; [|done]. apply slot_ok_sub; [done|]. by apply entries_sub_fmap.
Qed.

Lemma good_backend_error m e : good m -> good (note_backend_error m e).
Proof. intros Hm. destruct e; simpl; [by apply good_available | done | done]. Qed.

Lemma good_locked m b : good m -> good (set_locked m b).
Proof.
  intros Hm. unfold set_locked. case_match; [done|]. eapply good_slots; [exact Hm | done | done|].
  simpl. intros p s'. rewrite lookup_fmap_Some. intros (s & <- & Hs). exists s. split; [done|]. intros Hok. by apply slot_ok_offer.
Qed.

(** A mirror on the screen of [p] under [sid], whose closing by a person may be
    passed on. *)
Definition live_and_allowed (m : Notif) (p : Fingerprint) (sid : ServerId) (id : NotificationId) (origin : str) : Prop :=
  exists e, mt_entries (sl_mirrors (slot_of m p)) !! id = Some e /\ me_server_id e = Some sid /\ me_origin_device_id e = origin /\
    NotificationPolicy.may_sync_dismissals (policy_for m p) = true /\
    has (sl_peer_roles (slot_of m p)) DismissTarget = true /\
    has_announced (sl_local_roles (slot_of m p)) DismissReporter = true.

Lemma good_closed_in m order sid reason : good m ->
  (reason = Dismissed -> forall p id o, live_and_allowed m p sid id o -> Asked p id o) ->
  good (note_closed_in m order sid reason).
Proof.
  intros Hm Hask. induction order as [|p order IH]; simpl; [done|]. destruct (nt_peers m !! p) as [s|] eqn:Hp; [|done].
  apply slot_of_some in Hp. destruct (forget_server_id (sl_mirrors s) sid) as [[[nid e]|] t] eqn:Hf; [|done].
  apply forget_some in Hf as (He & Hsid & ->).
  assert (good (set_slot m p (with_mirrors s (with_entries (sl_mirrors s) (delete nid (mt_entries (sl_mirrors s))))))) as Hm1.
  { apply good_set; [done|]. rewrite <- Hp. apply slot_ok_sub; [by apply good_slot | apply entries_sub_delete]. }
  destruct (is_human_dismissal reason) eqn:Hr; [|done]. destruct reason; try done.
  unfold maybe_request_dismissal. case_match eqn:Hsync; [done|]. case_match eqn:Hroles; [done|].
  apply good_offer; [done|]. simpl. apply Hask; [done|]. rewrite slot_of_set_same in Hroles. simpl in Hroles.
  apply orb_false_iff in Hroles as [Hr1 Hr2]. apply negb_false_iff in Hsync, Hr1, Hr2. exists e. by rewrite Hp.
Qed.

Lemma good_send m p c : good m -> log_ok (LSent p 0 c (outbound_of c)) -> good (send_bounded m p c).2.
Proof.
  intros Hm Hc. unfold send_bounded. destruct (sl_outbound _) as [ch|]; [|done]. destruct (nt_channels m !! ch) as [[]|]; try done.
  apply good_log; [done|]. constructor; [exact Hc | constructor].
Qed.

Lemma good_answer m p id o : good m -> good (answer m p id o).
Proof. intros Hm. by apply good_send. Qed.

Lemma send_bounded_slots m p c q : slot_of (send_bounded m p c).2 q = slot_of m q.
Proof. unfold send_bounded. destruct (sl_outbound _); [|done]. by repeat case_match. Qed.

Lemma good_send_dismiss m p id o : good m -> Asked p id o -> good (send_dismiss m p id o).
Proof.
  intros Hm Ha. unfold send_dismiss. set (c := {| nc_body := _ |}).
  assert (good (send_bounded m p c).2) as Hm1 by (apply good_send; [done|]; split; [done|]; by exists id).
  destruct (send_bounded m p c) as [sent m1]. destruct sent; [|done]. apply good_set; [done|].
  by eapply slot_ok_same; [apply good_slot| | |].
Qed.

Lemma good_peer_roles m p a : good m -> good (apply_peer_roles m p a).
Proof.
  intros Hm. unfold apply_peer_roles. destruct (apply_roles _ _) as [applied roles].
  assert (slot_ok p (with_peer_roles (slot_of m p) roles)) as Hs by by eapply slot_ok_same; [apply good_slot| | |].
  destruct applied as [[]|]; [|by apply good_set]. case_match; apply good_set; try done. by apply slot_ok_offer.
Qed.

Lemma good_slot_made m p : good m -> good (slot m p).
Proof. intros Hm. apply good_set; [done|]. by apply good_slot. Qed.

Lemma good_refuse m p c r : good m -> good (refuse m p c r).
Proof. intros Hm. unfold refuse. repeat case_match; try done. by apply good_answer, good_slot_made. Qed.

Lemma good_enqueue m p w : good m -> work_ok p w -> good (enqueue m p w).
Proof.
  intros Hm Hw. unfold enqueue. pose proof (good_offer m p w Hm Hw) as Ho. unfold offer_to in Ho.
  destruct (offer _ w) as [v q]. simpl in Ho. by repeat case_match; try apply good_answer.
Qed.

Lemma good_handle m p payload : good m -> good (handle_control m p payload).2.
Proof.
  intros Hm. unfold handle_control. destruct (prost_decode payload) as [c|]; [|done]. cbn [snd].
  destruct (validate_control _ _) as [[]|r]; [|by apply good_refuse]. pose proof (good_slot_made m p Hm) as Hm1.
  destruct (nc_body c) as [[a|u|r|d|r|mk]|]; try done; cbn zeta.
  - by apply good_peer_roles.
  - destruct (validate_upsert u); [|done]. case_match; [by apply good_answer | by apply good_enqueue].
  - destruct (validate_remove r); [|done]. case_match; [by apply good_answer | by apply good_enqueue].
  - destruct (validate_dismiss d); [|done]. by apply good_answer.
  - case_match; [|done]. apply good_set; [done|]. by eapply slot_ok_same; [apply good_slot| | |].
  - case_match; [done | by apply good_enqueue].
Qed.

Lemma good_close_mirror m p id : good m -> good (close_mirror m p id).
Proof.
  intros Hm. unfold close_mirror, mt_remove.
  assert (good (set_slot m p (with_mirrors (slot_of m p) (with_entries (sl_mirrors (slot_of m p)) (delete id (mt_entries (sl_mirrors (slot_of m p)))))))) as Hm1.
  { apply good_set; [done|]. apply slot_ok_sub; [by apply good_slot | apply entries_sub_delete]. }
  case_match; [|done]. apply good_log; [done|]. by repeat constructor.
Qed.

(** What a task becomes: fit tasks and a fit state. *)
Definition yields (p : Fingerprint) (r : list Task * Notif) : Prop := Forall (task_ok p) r.1 /\ good r.2.

Lemma yields_announce m p : good m -> yields p (announce_roles m p).
Proof.
  intros Hm. unfold announce_roles. destruct (sl_outbound _) as [ch|]; [|by split; [constructor|]].
  destruct (announce _ _ _) as [a roles]. split; simpl.
  - destruct a; repeat constructor. by eexists.
  - apply good_set; [done|]. by eapply slot_ok_same; [apply good_slot| | |].
Qed.

Lemma yields_upsert m p i : good m ->
  (let pol := policy_for m p in NotificationPolicy.is_denied pol = false -> has (sl_peer_roles (slot_of m p)) Source = true ->
   privacy_or_default (nu_privacy (in_message i)) <> Secret -> Began p i pol) ->
  yields p (apply_upsert m p i).
Proof.
  intros Hm Hb. unfold apply_upsert. case_match eqn:Hd; [by split; [repeat constructor|]|].
  case_match eqn:Hsrc; [by split; [repeat constructor|]|]. unfold eqb. case_bool_decide as Hp.
  - split; [by repeat constructor | by apply good_close_mirror].
  - split; [|done]. constructor; [|constructor]. simpl. apply Hb; [done | by apply negb_false_iff in Hsrc | done].
Qed.

Lemma yields_locked m p i pol locked : good m -> Began p i pol -> Locked p i locked -> yields p (upsert_locked m p i pol locked).
Proof.
  intros Hm Hb Hl. unfold upsert_locked. assert (good (set_locked_field m locked)) as Hm1 by by apply (good_same m).
  unfold eqb at 1. case_bool_decide as Hpr; [split; [by repeat constructor | by apply good_close_mirror]|].
  set (m1 := set_locked_field m locked) in *. set (s := slot_of m1 p).
  assert (good (set_slot m1 p (with_snapshot s (snapshot_upsert (sl_snapshot s) (in_id i)).2 (sl_deadline s)))) as Hm2.
  { apply good_set; [done|]. by eapply slot_ok_same; [apply good_slot| | |]. }
  case_match; [by split; [repeat constructor|]|]. split.
  - constructor; [|constructor]. simpl. rewrite build_mirror_name. apply app_name_safe.
  - apply good_log; [done|]. constructor; [|constructor]. assert (nt_capabilities m1 = caps) as -> by apply Hm1.
    split; [apply build_mirror_safe|]. left. by exists i, pol, locked.
Qed.

Lemma yields_displayed m p i mi r res : good m -> name_safe (mi_app_name mi) -> yields p (upsert_displayed m p i mi r res).
Proof.
  intros Hm Hn. unfold upsert_displayed. destruct res as [sid|e].
  - pose proof (fun h => slot_ok_insert p (slot_of m p) (in_id i) (Some sid) h (mi_app_name mi) (mi_urgency mi) r
      (nu_origin_device_id (in_message i)) (good_slot m p Hm) Hn) as Hs.
    specialize (Hs (nu_content_hash (in_message i))). destruct (mt_insert _ _ _ _ _ _ _ _) as [gone t]. simpl in Hs.
    split; [by repeat constructor|]. simpl. assert (good (set_slot m p (with_mirrors (slot_of m p) t))) by by apply good_set.
    repeat case_match; try done. apply good_log; [done|]. by repeat constructor.
  - pose proof (good_backend_error m e Hm) as Hm1. set (m1 := note_backend_error m e) in *.
    pose proof (slot_ok_insert p (slot_of m1 p) (in_id i) None [] (mi_app_name mi) (mi_urgency mi) r
      (nu_origin_device_id (in_message i)) (good_slot m1 p Hm1) Hn) as Hs.
    destruct (mt_insert _ _ _ _ _ _ _ _) as [gone t]. split; [by repeat constructor | by apply good_set].
Qed.

Lemma yields_remove m p id : good m -> yields p (apply_remove m p id).
Proof.
  intros Hm. unfold apply_remove. case_match; [by split; [repeat constructor|]|]. case_match; [by split; [repeat constructor|]|].
  unfold mt_remove. set (m1 := set_slot m p _).
  assert (good m1) as Hm1 by (apply good_set; [done|]; apply slot_ok_sub; [by apply good_slot | apply entries_sub_delete]).
  repeat case_match; (split; [by repeat constructor|]); try done. apply good_log; [done|]. by repeat constructor.
Qed.

Lemma yields_sync m p mk : good m -> yields p (apply_sync m p mk).
Proof.
  intros Hm. unfold apply_sync. destruct (marker _ mk) as [st sn]. split; simpl.
  - destruct st; try by constructor. constructor; [|constructor]. by eapply stale_length, so_table, good_slot.
  - apply good_set; [done|]. by eapply slot_ok_same; [apply good_slot| | |].
Qed.

Lemma yields_lock_change m p b : good m -> yields p (apply_lock_change m p b).
Proof.
  intros Hm. unfold apply_lock_change. set (m1 := set_slot _ p _).
  assert (good m1) as Hm1.
  { apply good_set; [by apply (good_same m)|]. by eapply slot_ok_same; [apply good_slot, (good_same m)| | |]. }
  case_match; [by split; [constructor|]|]. unfold eqb. case_bool_decide as Hf; (split; [|done]); [constructor|].
  constructor; [|constructor]. split; [done|]. by eapply affected_ok, good_slot.
Qed.

Lemma yields_close_all m p : good m -> yields p (close_all m p).
Proof.
  intros Hm. unfold close_all, mt_drain. pose proof (good_slot m p Hm) as Hs. split; simpl.
  - constructor; [|constructor]. by apply drained_length, Hs.
  - apply good_set; [done|]. match goal with |- slot_ok _ (with_mirrors ?s _) => assert (slot_ok p s) as Hs1 by by eapply slot_ok_same end.
    assert (entries_sub (sl_mirrors (slot_of m p)) ∅) as Hsub by (intros x e; by rewrite lookup_empty).
    pose proof (slot_ok_sub p _ ∅ Hs1 Hsub) as H. exact H.
Qed.

Lemma yields_reduce m p pr l : good m -> task_ok p (KReduce pr l) -> yields p (reduce_next m p pr l).
Proof.
  intros Hm (Hpr & Hn & Hl). unfold reduce_next. destruct l as [|a l]; [by split; [constructor|]|].
  inversion Hn as [|? ? Ha Hn']; subst. simpl in Hl.
  assert (Forall (task_ok p) [KReduce pr l]) as Hrest by (constructor; [split_and!; [done | done | lia] | constructor]).
  case_match; [by split; [|apply good_close_mirror]|]. case_match; [by split|].
  destruct (af_server_id a) as [sid|]; split; simpl; try done.
  - by constructor.
  - apply good_log; [done|]. constructor; [|constructor]. split; [by apply name_only_safe | right; by split].
  - apply good_set; [done|]. apply slot_ok_sub; [by apply good_slot | by apply entries_sub_alter].
Qed.

Lemma good_reduced m p id r : good m -> good (reduce_displayed m p id r).
Proof.
  intros Hm. destruct r as [sid|e]; simpl; [|by apply good_close_mirror, good_backend_error].
  apply good_set; [done|]. apply slot_ok_sub; [by apply good_slot | by apply entries_sub_alter].
Qed.

(** What the history has to show before a worker's step. *)
Definition begun_now (m : Notif) (p : Fingerprint) : Prop :=
  forall i rest, sl_tasks (slot_of m p) = KWork (Upsert i) :: rest ->
    let pol := policy_for m p in NotificationPolicy.is_denied pol = false -> has (sl_peer_roles (slot_of m p)) Source = true ->
    privacy_or_default (nu_privacy (in_message i)) <> Secret -> Began p i pol.

(** The lock state a worker is told is about the notification it asked for. *)
Definition told_now (m : Notif) (p : Fingerprint) (reply : Reply) : Prop :=
  forall b i pol rest, reply = RLocked b -> sl_tasks (slot_of m p) = KAskLock i pol :: rest -> Locked p i b.

Lemma yields_perform m p t rest reply new : good m -> sl_tasks (slot_of m p) = t :: rest -> task_ok p t -> begun_now m p ->
  told_now m p reply ->
  perform m p t reply = Some new -> yields p new.
Proof.
  intros Hm Ht Htask Hbegun Hlock. destruct t as [w|i pol|i mi r|id|pr l|id|l|l|id o|ch c]; simpl.
  - intros [= <-]. destruct w as [|i|id|id o|mk|b|r]; simpl; [by apply yields_announce | | by apply yields_remove | | by apply yields_sync | by apply yields_lock_change | by apply yields_close_all].
    + apply yields_upsert; [done|]. by apply (Hbegun i rest).
    + split; [constructor | by apply good_send_dismiss].
  - destruct reply; try done. intros [= <-]. apply yields_locked; eauto.
  - destruct reply; try done. intros [= <-]. by apply yields_displayed.
  - destruct reply; try done. intros [= <-]. destruct r as [[]|e]; (split; [by repeat constructor|]); [done | by apply good_backend_error].
  - intros [= <-]. by apply yields_reduce.
  - destruct reply; try done. intros [= <-]. split; [constructor | by apply good_reduced].
  - destruct l as [|id l]; intros [= <-]; [by split; [constructor|]|]. split; [|by apply good_close_mirror].
    constructor; [|constructor]. simpl in *. lia.
  - destruct l as [|id l]; intros [= <-]; [by split; [constructor|]|]. split; [constructor; [|constructor]; simpl in *; lia|].
    apply good_log; [done|]. by repeat constructor.
  - intros [= <-]. split; [constructor | by apply good_answer].
  - destruct (nt_channels m !! ch) as [[]|]; try done; intros [= <-]; (split; [constructor|]); try done.
    apply good_log; [done|]. constructor; [|constructor]. split; [done|]. destruct Htask as [a ->]. done.
Qed.

Lemma good_worker m p reply : good m -> begun_now m p -> told_now m p reply -> good (worker_step m p reply).
Proof.
  intros Hm Hb Hl. unfold worker_step. destruct (nt_peers m !! p) as [s|] eqn:Hp; [|done]. apply slot_of_some in Hp.
  pose proof (good_slot m p Hm) as Hs. rewrite Hp in Hs. destruct (sl_tasks s) as [|t rest] eqn:Ht.
  - simpl. apply good_set; [done|]. destruct Hs as [H1 H2 H3 H4]. constructor; try done.
    simpl. apply Forall_fmap. eapply Forall_impl; [exact H4|]. done.
  - destruct (perform m p t reply) as [[new m1]|] eqn:Hperf; [|done].
    pose proof (so_tasks _ _ Hs) as Htasks. rewrite Ht in Htasks. inversion Htasks as [|? ? Htask Hrest]; subst.
    assert (yields p (new, m1)) as [Hnew Hm1] by (eapply (yields_perform m p t rest); eauto).
    apply good_set; [done|]. destruct (good_slot m1 p Hm1) as [H1 H2 H3 H4]. constructor; try done.
    simpl. by apply Forall_app.
Qed.

Lemma good_abandon m p : good m -> good (abandon_snapshot m p).
Proof.
  intros Hm. unfold abandon_snapshot. case_match; (apply good_set; [done|]); by eapply slot_ok_same; [apply good_slot| | |].
Qed.

Lemma good_step m ev : good m ->
  (forall p r, ev = EvWorker p r -> begun_now m p /\ told_now m p r) ->
  (forall order sid, ev = EvClosed order sid Dismissed -> forall p id o, live_and_allowed m p sid id o -> Asked p id o) ->
  good (notif_step m ev).
Proof.
  intros Hm Hw Hc. destruct ev; simpl; try by apply (good_same m).
  - by apply good_attach.
  - by apply good_detach_check.
  - case_match; [|done]. by apply good_teardown, (good_same m).
  - case_match; [|done]. by apply good_grace, (good_same m).
  - by apply good_revoke.
  - by apply good_handle.
  - by apply good_available.
  - by apply good_locked.
  - unfold note_closed. match goal with |- good (set_closes ?m' _) => apply (good_same m'); [|done..] end.
    apply good_closed_in; [done|]. intros ->. by eapply Hc.
  - unfold note_close_stream. repeat case_match; by apply (good_same m).
  - repeat case_match; try done. by apply good_abandon.
  - destruct (Hw _ _ eq_refl). by apply good_worker.
Qed.

Lemma good_new available locked : good (NotificationManager_new caps available locked).
Proof. constructor; simpl; [intros p s; by rewrite lookup_empty | constructor | done]. Qed.
End Good.

(** ** Weaker histories *)

Section Mono.
Context `{!Prost NotificationControl} (caps : SinkCapabilities).
Context (B B' : Fingerprint -> Incoming -> NotificationPolicy.t -> Prop) (L L' : Fingerprint -> Incoming -> bool -> Prop).
Context (A A' : Fingerprint -> NotificationId -> str -> Prop).
Context (HB : forall p i pol, B p i pol -> B' p i pol) (HL : forall p i b, L p i b -> L' p i b) (HA : forall p id o, A p id o -> A' p id o).

Lemma work_ok_mono p w : work_ok A p w -> work_ok A' p w.
Proof. destruct w; simpl; auto. Qed.

Lemma notify_task_mono p t : task_ok B A p t -> task_ok B' A' p t.
Proof. destruct t; simpl; auto using work_ok_mono. Qed.

Lemma log_ok_mono e : log_ok caps B L A e -> log_ok caps B' L' A' e.
Proof.
  destruct e as [p mi r| |p c ctl msg]; simpl; [|done|].
  - intros [Hs [(i & pol & b & ? & ? & ?)|Hn]]; (split; [done|]); [left; exists i, pol, b; split_and!; try tauto; auto | by right].
  - intros [Hmsg Hc]. split; [done|]. destruct (nc_body ctl) as [[]|]; try done. destruct Hc as (id & ? & ?). eauto.
Qed.

Lemma good_mono m : good caps B L A m -> good caps B' L' A' m.
Proof.
  intros [Hs Hl Hc]. constructor; [|eapply Forall_impl; [exact Hl | apply log_ok_mono] | done].
  intros p s [H1 H2 H3 H4]%Hs. constructor; try done.
  - eapply Forall_impl; [exact H3 | apply notify_task_mono].
  - eapply Forall_impl; [exact H4 | apply work_ok_mono].
Qed.
End Mono.

(** * Histories *)

Section Runs.
Context `{!Prost NotificationControl}.
Context (caps : SinkCapabilities) (available locked : bool).

(** The state after [evs], from the daemon's start. *)
Definition after (evs : list NEvent) : Notif := notif_run (NotificationManager_new caps available locked) evs.

(** At some moment the worker of [p] took up the upsert [i], when [pol] was the
    policy of [p] and allowed mirroring, [p] had said it is a source, and the
    notification was not secret. *)
Definition began (evs : list NEvent) (p : Fingerprint) (i : Incoming) (pol : NotificationPolicy.t) : Prop :=
  exists pre reply post rest, evs = pre ++ EvWorker p reply :: post /\
    sl_tasks (slot_of (after pre) p) = KWork (Upsert i) :: rest /\
    pol = policy_for (after pre) p /\ NotificationPolicy.is_denied pol = false /\
    has (sl_peer_roles (slot_of (after pre) p)) Source = true /\
    privacy_or_default (nu_privacy (in_message i)) <> Secret.

(** When the worker of [p] asked whether it may show [i], the platform said the
    screen is locked or not. *)
Definition said_locked (evs : list NEvent) (p : Fingerprint) (i : Incoming) (b : bool) : Prop :=
  exists pre post pol rest, evs = pre ++ EvWorker p (RLocked b) :: post /\
    sl_tasks (slot_of (after pre) p) = KAskLock i pol :: rest.

(** At some moment a person closed the mirror of [id], while it was on the screen
    for [p], and everything needed to pass that on held. *)
Definition asked (evs : list NEvent) (p : Fingerprint) (id : NotificationId) (origin : str) : Prop :=
  exists pre order sid post, evs = pre ++ EvClosed order sid Dismissed :: post /\
    live_and_allowed (after pre) p sid id origin.

Lemma after_snoc evs ev : after (evs ++ [ev]) = notif_step (after evs) ev.
Proof. unfold after, notif_run. by rewrite foldl_app. Qed.

Lemma after_good evs : good caps (began evs) (said_locked evs) (asked evs) (after evs).
Proof.
  induction evs as [|ev evs IH] using rev_ind; [apply good_new|]. rewrite after_snoc.
  apply good_step.
  - revert IH. apply good_mono.
    + intros p i pol (pre & r & post & rest & -> & ?). exists pre, r, (post ++ [ev]), rest. by rewrite <- app_assoc.
    + intros p i b (pre & post & pol & rest & -> & ?). exists pre, (post ++ [ev]), pol, rest. by rewrite <- app_assoc.
    + intros p id o (pre & order & sid & post & -> & ?). exists pre, order, sid, (post ++ [ev]). by rewrite <- app_assoc.
  - intros p r ->. split.
    + intros i rest Ht pol Hd Hsrc Hpriv. by exists evs, r, [], rest.
    + intros b i pol rest -> Ht. by exists evs, [], pol, rest.
  - intros order sid -> p id o Hlive. by exists evs, order, sid, [].
Qed.

(** C9: only what is allowed reaches the screen.  Over any interleaving of peers,
    workers, users, policy changes, platform answers and timers: whatever is
    displayed for a peer is text fit to show (bounded, printable, without markup
    of its own), and is either the notification of an upsert whose work began
    when the peer was granted mirroring, had announced itself a source, and did
    not call it secret, in the form that policy asks for under the lock state the
    platform reported when asked about that notification, and on a locked screen nothing but the application's name
    unless the policy says full; or a mirror already shown, reduced to the
    application's name. *)
Theorem displayed_only_as_allowed evs p mi replaces :
  LDisplay p mi replaces ∈ nt_log (after evs) ->
  mirror_safe (sc_body_markup caps) mi /\
  ((exists i pol b, began evs p i pol /\ said_locked evs p i b /\
      Presentation.resolve pol b <> Presentation.Suppress /\
      mi = build_mirror caps (in_message i) (Presentation.resolve pol b) /\
      (b = true -> NotificationPolicy.when_sink_locked pol <> LockPolicy.Full -> name_only mi)) \/
   (name_only mi /\ is_Some replaces)).
Proof.
  intros Hin. destruct (after_good evs) as [_ Hlog _]. rewrite Forall_forall in Hlog. apply Hlog in Hin as [Hs Ha].
  split; [done|]. destruct Ha as [(i & pol & b & Hb & Hl & Hne & ->)|Hn]; [left | by right].
  exists i, pol, b. split_and!; try done. intros -> Hfull. unfold Presentation.resolve in *. simpl in *. by destruct (NotificationPolicy.when_sink_locked pol).
Qed.

(** C16: the desktop asks nothing of a phone but what a person did.  Every message
    ever queued for a peer is the encoding of a role announcement, of an answer,
    or of a dismissal request; and a dismissal request names a notification that
    was on the screen for that very peer when a person (not a timer, not this
    program) closed it, at a moment when mirroring and dismissal syncing were
    allowed for the peer, the peer had said it acts on dismissals and this device
    had told it that it reports them.  It carries the origin the peer itself
    sent. *)
Theorem only_dismissals_are_requested evs p channel control msg :
  LSent p channel control msg ∈ nt_log (after evs) ->
  msg = outbound_of control /\
  match nc_body control with
  | Some (NRoles _) | Some (NResult _) => True
  | Some (NDismiss d) => exists id, dq_notification_id d = bn_bytes id /\ asked evs p id (dq_origin_device_id d)
  | _ => False
  end.
Proof. intros Hin. destruct (after_good evs) as [_ Hlog _]. rewrite Forall_forall in Hlog. by apply Hlog in Hin. Qed.
End Runs.
