(* ===== verification/NotifyLive.v ===== *)
(** Who touches what, and that work gets done.

    More theorems about [Notifications]: what one peer does reaches no other
    peer's mirrors; the count of replaced sessions is exact; and a worker gets
    through its batch in a bounded number of steps. *)
From S2P Require Import Prelude External Ids Capability Policy NotifyContract NotifyText NotifyQueue NotifyMirror Notifications NotifyFacts.

(** * Frames *)

(** What the bookkeeping of sessions keeps in a slot. *)
Definition session_view (s : PeerSlot) : bool * N * N := (sl_connected s, sl_superseded s, sl_generation s).

(** A slot without its queue. *)
Definition apart_from_queue (s : PeerSlot) : PeerSlot := with_queue s WorkQueue_new.

Definition log_peer (e : NLog) : Fingerprint :=
  match e with LDisplay p _ _ | LClose p _ | LSent p _ _ _ => p end.

(** Nobody's session comes or goes. *)
Record calm (m m' : Notif) : Prop := {
  ca_channels : nt_channels m' = nt_channels m;
  ca_detaching : nt_detaching m' = nt_detaching m;
  ca_views : forall q, session_view (slot_of m' q) = session_view (slot_of m q)
}.

(** Nothing of any peer but [p] changes, except that work may be queued for it. *)
Record own (p : Fingerprint) (m m' : Notif) : Prop := {
  ow_others : forall q, q <> p -> apart_from_queue (slot_of m' q) = apart_from_queue (slot_of m q);
  ow_log : exists l, nt_log m' = nt_log m ++ l /\ Forall (fun e => log_peer e = p) l
}.

#[export] Instance calm_preorder : PreOrder calm.
Proof.
  split; [intros m; by constructor|]. intros m1 m2 m3 [A1 A2 A3] [B1 B2 B3]. constructor; [congruence | congruence|].
  intros q. by rewrite B3.
Qed.

#[export] Instance own_preorder p : PreOrder (own p).
Proof.
  split.
  - intros m. constructor; [done|]. exists []. by rewrite app_nil_r.
  - intros m1 m2 m3 [A1 (l1 & A2 & A3)] [B1 (l2 & B2 & B3)]. constructor.
    + intros q Hq. by rewrite B1, A1.
    + exists (l1 ++ l2). rewrite B2, A2, <- app_assoc. split; [done | by apply Forall_app].
Qed.

Definition frame (p : Fingerprint) (m m' : Notif) : Prop := calm m m' /\ own p m m'.

#[export] Instance frame_preorder p : PreOrder (frame p).
Proof. split; [by split | intros m1 m2 m3 [? ?] [? ?]; split; by etrans]. Qed.

Lemma own_set p m s : own p m (set_slot m p s).
Proof. constructor; [intros q Hq; by rewrite slot_of_set_other|]. exists []. by rewrite app_nil_r. Qed.

Lemma frame_set p m s : session_view s = session_view (slot_of m p) -> frame p m (set_slot m p s).
Proof.
  intros Hv. split; [|apply own_set]. constructor; [done | done|]. intros q.
  destruct (decide (q = p)) as [->|Hq]; [by rewrite slot_of_set_same | by rewrite slot_of_set_other].
Qed.

Lemma frame_log p m l : Forall (fun e => log_peer e = p) l -> frame p m (add_log m l).
Proof. intros Hl. split; constructor; try done. by exists l. Qed.

(** Changes outside the slots, the channels and the log. *)
Lemma frame_same p m m' : nt_peers m' = nt_peers m -> nt_channels m' = nt_channels m -> nt_detaching m' = nt_detaching m ->
  nt_log m' = nt_log m -> frame p m m'.
Proof.
  intros H1 H2 H3 H4. unfold frame. split; constructor; try done; unfold slot_of; rewrite ?H1, ?H4; try done.
  exists []. by rewrite app_nil_r.
Qed.

Lemma frame_offer p m w : frame p m (set_slot m p (offer_to (slot_of m p) w)).
Proof. by apply frame_set. Qed.

Section Frames.
Context `{!Prost NotificationControl}.

Lemma frame_send p m c : frame p m (send_bounded m p c).2.
Proof.
  unfold send_bounded. destruct (sl_outbound _); [|done]. repeat case_match; try done. apply frame_log. by repeat constructor.
Qed.

Lemma frame_answer p m id o : frame p m (answer m p id o).
Proof. apply frame_send. Qed.

Lemma frame_close_mirror p m id : frame p m (close_mirror m p id).
Proof.
  unfold close_mirror, mt_remove. set (m1 := set_slot m p _). assert (frame p m m1) as H by by apply frame_set.
  case_match; [|done]. etrans; [exact H|]. apply frame_log. by repeat constructor.
Qed.

(** Every slot changed alike. *)
Lemma slot_of_fmap m f q : PeerSlot_new = f PeerSlot_new \/ is_Some (nt_peers m !! q) -> 
  slot_of (set_peers m (f <$> nt_peers m)) q = f (slot_of m q).
Proof. unfold slot_of. simpl. rewrite lookup_fmap. destruct (nt_peers m !! q); [done|]. simpl. by intros [<-|[]]. Qed.

Lemma slot_of_fmap_view {A} (v : PeerSlot -> A) m f q : (forall s, v (f s) = v s) ->
  v (slot_of (set_peers m (f <$> nt_peers m)) q) = v (slot_of m q).
Proof. intros Hv. unfold slot_of. simpl. rewrite lookup_fmap. destruct (nt_peers m !! q); simpl; [apply Hv | done]. Qed.

Lemma calm_available m b : calm m (set_available m b).
Proof.
  unfold set_available. case_match; [done|]. constructor; [done | done|]. intros q. rewrite (slot_of_fmap_view session_view); [done|].
  intros s. by destruct b.
Qed.

Lemma frame_backend_error p m e : frame p m (note_backend_error m e).
Proof.
  destruct e; try done. simpl. split; [apply calm_available|]. unfold set_available. case_match; [done|]. constructor.
  - intros q Hq. by rewrite (slot_of_fmap_view apart_from_queue).
  - exists []. by rewrite app_nil_r.
Qed.

Lemma frame_send_dismiss p m id o : frame p m (send_dismiss m p id o).
Proof.
  unfold send_dismiss. set (c := {| nc_body := _ |}). pose proof (frame_send p m c) as H.
  destruct (send_bounded m p c) as [[] m1]; [|done]. etrans; [exact H|]. by apply frame_set.
Qed.

Lemma frame_displayed p m i mi r res : frame p m (upsert_displayed m p i mi r res).2.
Proof.
  unfold upsert_displayed. destruct res as [sid|e].
  - destruct (mt_insert _ _ _ _ _ _ _ _) as [gone t]. simpl. set (m1 := set_slot m p _).
    assert (frame p m m1) as H by by apply frame_set.
    repeat case_match; try done. etrans; [exact H|]. apply frame_log. by repeat constructor.
  - destruct (mt_insert _ _ _ _ _ _ _ _) as [gone t]. simpl. etrans; [apply frame_backend_error|]. by apply frame_set.
Qed.

Lemma frame_locked p m i pol b : frame p m (upsert_locked m p i pol b).2.
Proof.
  unfold upsert_locked. assert (frame p m (set_locked_field m b)) as H by by apply frame_same.
  case_match; [etrans; [exact H | apply frame_close_mirror]|]. set (m1 := set_locked_field m b) in *. set (m2 := set_slot m1 p _).
  assert (frame p m m2) as H2 by (etrans; [exact H | by apply frame_set]).
  case_match; [done|]. etrans; [exact H2|]. apply frame_log. by repeat constructor.
Qed.

Lemma frame_process p m w : frame p m (process m p w).2.
Proof.
  destruct w as [|i|id|id o|mk|b|r]; simpl.
  - unfold announce_roles. destruct (sl_outbound _); [|done]. destruct (announce _ _ _). by apply frame_set.
  - unfold apply_upsert. repeat case_match; try done. apply frame_close_mirror.
  - unfold apply_remove, mt_remove. do 2 (case_match; [done|]). set (m1 := set_slot m p _).
    assert (frame p m m1) as H1 by by apply frame_set. repeat case_match; try done. etrans; [exact H1|]. apply frame_log. by repeat constructor.
  - apply frame_send_dismiss.
  - unfold apply_sync. destruct (marker _ mk). by apply frame_set.
  - unfold apply_lock_change. set (m1 := set_slot _ p _).
    assert (frame p m m1) as H1 by (etrans; [by apply (frame_same p m (set_locked_field m b)) | by apply frame_set]). by repeat case_match.
  - unfold close_all. by apply frame_set.
Qed.

Lemma frame_perform p m t reply new m' : perform m p t reply = Some (new, m') -> frame p m m'.
Proof.
  assert (forall r, Some r = Some (new, m') -> frame p m r.2 -> frame p m m') as Hr by by intros r [= ->].
  destruct t as [w|i pol|i mi r|id|pr l|id|l|l|id o|ch c]; simpl.
  - intros H. apply (Hr _ H), frame_process.
  - destruct reply; try done. intros H. apply (Hr _ H), frame_locked.
  - destruct reply; try done. intros H. apply (Hr _ H), frame_displayed.
  - destruct reply; try done. intros H. apply (Hr _ H). destruct r; [done | apply frame_backend_error].
  - intros H. apply (Hr _ H). unfold reduce_next. destruct l as [|a l]; [done|].
    repeat case_match; try done; [apply frame_close_mirror | apply frame_log; by repeat constructor | by apply frame_set].
  - destruct reply as [| |r|]; try done. intros H. apply (Hr _ H). unfold reduce_displayed. simpl.
    destruct r; [by apply frame_set|]. etrans; [apply frame_backend_error | apply frame_close_mirror].
  - destruct l; intros H; apply (Hr _ H); [done | apply frame_close_mirror].
  - destruct l; intros H; apply (Hr _ H); [done | apply frame_log; by repeat constructor].
  - intros H. apply (Hr _ H), frame_answer.
  - destruct (nt_channels m !! ch) as [[]|]; try done; intros H; apply (Hr _ H); try done. apply frame_log. by repeat constructor.
Qed.

Lemma frame_worker p m reply : frame p m (worker_step m p reply).
Proof.
  unfold worker_step. destruct (nt_peers m !! p) as [s|] eqn:Hp; [|done]. apply slot_of_some in Hp as <-.
  destruct (sl_tasks _); [by apply frame_set|]. destruct (perform m p _ reply) as [[new m1]|] eqn:He; [|done].
  etrans; [by eapply frame_perform|]. by apply frame_set.
Qed.

Lemma frame_handle p m payload : frame p m (handle_control m p payload).2.
Proof.
  unfold handle_control. destruct (prost_decode payload) as [c|]; [|done]. cbn [snd].
  assert (frame p m (slot m p)) as Hs by by apply frame_set.
  assert (forall w, frame p (slot m p) (enqueue (slot m p) p w)) as Henq.
  { intros w. unfold enqueue. destruct (offer _ w) as [v q]. set (m1 := set_slot _ p _).
    assert (frame p (slot m p) m1) as H1 by by apply frame_set. repeat case_match; try done. etrans; [exact H1 | apply frame_answer]. }
  destruct (validate_control _ _) as [[]|r].
  - etrans; [exact Hs|]. destruct (nc_body c) as [[a|u|r|d|r|mk]|]; try done; cbn zeta.
    + unfold apply_peer_roles. destruct (apply_roles _ _) as [[[]|] roles]; repeat case_match; by apply frame_set.
    + destruct (validate_upsert u); [|done]. case_match; [apply frame_answer | apply Henq].
    + destruct (validate_remove r); [|done]. case_match; [apply frame_answer | apply Henq].
    + destruct (validate_dismiss d); [|done]. apply frame_answer.
    + case_match; [by apply frame_set | done].
    + case_match; [done | apply Henq].
  - unfold refuse. repeat case_match; try done. etrans; [exact Hs | apply frame_answer].
Qed.

(** * One peer does not reach another *)

(** Whose doing an event is, if it is one peer's. *)
Definition event_peer (ev : NEvent) : option Fingerprint :=
  match ev with
  | EvAttach p _ | EvDetach p | EvTeardown p | EvGrace p _ _ | EvRevoke p | EvMessage p _ | EvDeadline p | EvWorker p _ => Some p
  | _ => None
  end.

Lemma own_same p m m' : nt_peers m' = nt_peers m -> nt_log m' = nt_log m -> own p m m'.
Proof. intros H1 H2. constructor; [unfold slot_of; by rewrite H1|]. exists []. by rewrite app_nil_r. Qed.

Lemma own_step p m ev : event_peer ev = Some p -> own p m (notif_step m ev).
Proof.
  destruct ev; intros [= ->]; simpl.
  - apply own_set.
  - unfold detach_check. repeat case_match; try done; [apply own_set | by apply own_same].
  - case_match; [|done]. set (m1 := set_detaching m _). etrans; [by apply (own_same p m m1)|].
    unfold detach_teardown. case_match; [|done]. etrans; [apply own_set | by apply own_same].
  - case_match; [|done]. set (m1 := set_timers m _). etrans; [by apply (own_same p m m1)|].
    unfold grace_expired. repeat case_match; try done. apply own_set.
  - unfold revoke_peer. case_match; [apply own_set | done].
  - apply frame_handle.
  - repeat case_match; try done. unfold abandon_snapshot. case_match; apply own_set.
  - apply frame_worker.
Qed.

(** C17: a peer reaches its own mirrors and nobody else's.  Whatever a peer sends,
    whenever it connects, leaves or is revoked, and whatever its worker does and
    the platform answers it, from any state at all: no other peer's mirrors,
    snapshot, roles, session or work under way change; and all that is displayed,
    closed or sent in that step is for the peer itself.  (Other peers may be told
    that the notification server is gone.) *)
Theorem peers_are_isolated m ev p q :
  event_peer ev = Some p -> q <> p ->
  let s := slot_of m q in
  let s' := slot_of (notif_step m ev) q in
  sl_mirrors s' = sl_mirrors s /\ sl_snapshot s' = sl_snapshot s /\ sl_peer_roles s' = sl_peer_roles s /\
  sl_local_roles s' = sl_local_roles s /\ sl_connected s' = sl_connected s /\ sl_outbound s' = sl_outbound s /\
  sl_tasks s' = sl_tasks s /\
  exists l, nt_log (notif_step m ev) = nt_log m ++ l /\ Forall (fun e => log_peer e = p) l.
Proof.
  intros Hev Hq s s'. destruct (own_step p m ev Hev) as [Hothers Hlog]. specialize (Hothers q Hq). fold s s' in Hothers.
  unfold apart_from_queue, with_queue in Hothers. injection Hothers. intros. by split_and!.
Qed.

(** * Replaced sessions *)

Lemma calm_closed_in m order id reason : calm m (note_closed_in m order id reason).
Proof.
  induction order as [|x order IH]; simpl; [done|].
  destruct (nt_peers m !! x) as [s|] eqn:Hx; [|done]. apply slot_of_some in Hx as <-.
  destruct (forget_server_id _ _) as [[[nid e]|] t]; [|done]. set (m1 := set_slot m x _).
  assert (frame x m m1) as Hf by by apply frame_set. destruct (is_human_dismissal reason); [|apply Hf].
  unfold maybe_request_dismissal. case_match; [apply Hf|]. case_match; [apply Hf|]. etrans; [apply Hf | apply (frame_offer x m1)].
Qed.

Lemma calm_step p m ev : (forall c, ev <> EvAttach p c) -> ev <> EvDetach p -> ev <> EvTeardown p ->
  session_view (slot_of (notif_step m ev) p) = session_view (slot_of m p) /\
  (p ∉ nt_detaching m -> p ∉ nt_detaching (notif_step m ev)).
Proof.
  intros H1 H2 H3.
  assert (forall m', calm m m' -> session_view (slot_of m' p) = session_view (slot_of m p) /\ (p ∉ nt_detaching m -> p ∉ nt_detaching m')) as Hcalm.
  { intros m' [_ Hd Hv]. split; [apply Hv | by rewrite Hd]. }
  destruct ev as [now|f|ch c|q ch|q|q|q g due|q|q payload|b|b|order id reason|b|q|q reply]; cbn [notif_step]; try done.
  - assert (q <> p) as Hne by (intros ->; by eapply H1). split; [|done]. unfold attach_session. by rewrite slot_of_set_other by done.
  - assert (q <> p) as Hne by (intros ->; done). unfold detach_check. destruct (nt_peers m !! q); [|done].
    case_match; [by rewrite slot_of_set_other by done|]. split; [done|]. simpl. set_solver.
  - assert (q <> p) as Hne by (intros ->; done). case_match; [|done]. set (m1 := set_detaching m _).
    assert (p ∉ nt_detaching m -> p ∉ nt_detaching m1) as Hd.
    { simpl. generalize (nt_detaching m). induction l as [|x l IH]; simpl; [done|]. case_match; set_solver. }
    unfold detach_teardown. destruct (nt_peers m1 !! q); [|done]. split; [|done].
    unfold slot_of. simpl. by rewrite lookup_insert_ne by done.
  - case_match; [|done]. unfold grace_expired. destruct (nt_peers _ !! q) as [s|] eqn:Hq; [|done]. do 2 (case_match; [done|]).
    simpl in Hq. apply slot_of_some in Hq as <-. apply Hcalm. set (m1 := set_timers m _). etrans; [|apply (frame_offer q m1)].
    by apply (frame_same q).
  - unfold revoke_peer. destruct (nt_peers m !! q) as [s|] eqn:Hq; [|done]. apply slot_of_some in Hq as <-. apply Hcalm, frame_offer.
  - apply Hcalm, frame_handle.
  - apply Hcalm, calm_available.
  - apply Hcalm. unfold set_locked. case_match; [done|]. constructor; [done | done|]. intros r. by rewrite (slot_of_fmap_view session_view).
  - apply Hcalm. destruct (calm_closed_in m order id reason). by constructor.
  - unfold note_close_stream. by repeat case_match.
  - repeat case_match; try done. apply Hcalm. unfold abandon_snapshot. by case_match; apply (frame_set q).
  - apply Hcalm, frame_worker.
Qed.
End Frames.

Section Sessions.
Context `{!Prost NotificationControl}.
Context (caps : SinkCapabilities) (available locked : bool) (p : Fingerprint).

(** The life of one peer's sessions: a session begins, a session ends (both
    halves of the detach together), or anything else happens. *)
Inductive SEvent := SAttach (channel : N) | SDetach | SOther (ev : NEvent).

Definition elsewhere (ev : NEvent) : Prop :=
  match ev with EvAttach q _ | EvDetach q | EvTeardown q => q <> p | _ => True end.

Definition events_of (ev : SEvent) : list NEvent :=
  match ev with SAttach c => [EvAttach p c] | SDetach => [EvDetach p; EvTeardown p] | SOther ev => [ev] end.

(** A session ends after it began; fewer than 2^32 are open. *)
Fixpoint plausible (n : N) (l : list SEvent) : Prop :=
  match l with
  | [] => True
  | SAttach _ :: l => n < u32_max /\ plausible (n + 1) l
  | SDetach :: l => 0 < n /\ plausible (n - 1) l
  | SOther ev :: l => elsewhere ev /\ plausible n l
  end.

Definition count_open (n : N) (ev : SEvent) : N :=
  match ev with SAttach _ => n + 1 | SDetach => n - 1 | SOther _ => n end.

Definition open_sessions (l : list SEvent) : N := foldl count_open 0 l.

(** The slot agrees with the number of sessions that are open. *)
Record counted (m : Notif) (n : N) : Prop := {
  co_connected : sl_connected (slot_of m p) = (0 <? n);
  co_superseded : sl_superseded (slot_of m p) = n - 1;
  co_detaching : p ∉ nt_detaching m
}.

Lemma remove_first_last {A} `{EqDecision A} (x : A) l : x ∉ l -> remove_first x (l ++ [x]) = l.
Proof. induction l as [|y l IH]; simpl; [by rewrite decide_True|]. intros Hx. rewrite decide_False by set_solver. f_equal. apply IH. set_solver. Qed.

Lemma counted_attach m n c : counted m n -> n < u32_max -> counted (attach_session m p c) (n + 1).
Proof.
  intros [H1 H2 H3] Hn. unfold attach_session. constructor; [| |done]; rewrite slot_of_set_same; simpl.
  - symmetry. apply N.ltb_lt. lia.
  - rewrite H1. destruct (N.ltb_spec 0 n); simpl; rewrite H2; lia.
Qed.

Lemma connected_slot m : sl_connected (slot_of m p) = true -> exists s, nt_peers m !! p = Some s /\ slot_of m p = s.
Proof. unfold slot_of. destruct (nt_peers m !! p) as [s|]; simpl; [eauto | done]. Qed.

Lemma counted_detach m n : counted m n -> 0 < n -> counted (notif_run m [EvDetach p; EvTeardown p]) (n - 1).
Proof.
  intros [H1 H2 H3] Hn. rewrite (proj2 (N.ltb_lt _ _) Hn) in H1. destruct (connected_slot m H1) as (s & Hs & Hslot). rewrite Hslot in H1, H2.
  unfold notif_run. cbn [foldl notif_step]. unfold detach_check. rewrite Hs, H2. destruct (N.ltb_spec 0 (n - 1)) as [Hmore|Hlast].
  - simpl. rewrite (proj2 (mem_false p _) H3). constructor; [| |done]; rewrite slot_of_set_same; simpl; [|done].
    rewrite H1. symmetry. apply N.ltb_lt. lia.
  - simpl. assert (mem p (nt_detaching m ++ [p]) = true) as -> by (apply mem_true; set_solver).
    unfold detach_teardown. simpl. rewrite Hs. constructor.
    + unfold slot_of. simpl. rewrite lookup_insert_eq. simpl. symmetry. apply N.ltb_ge. lia.
    + unfold slot_of. simpl. rewrite lookup_insert_eq. simpl. lia.
    + simpl. by rewrite remove_first_last.
Qed.

Lemma counted_other m n ev : counted m n -> elsewhere ev -> counted (notif_step m ev) n.
Proof.
  intros [H1 H2 H3] He. destruct (calm_step p m ev) as [Hv Hd]; [by intros c ->| by intros -> | by intros -> |].
  unfold session_view in Hv. injection Hv as Hv1 Hv2 _. constructor; [congruence | congruence | auto].
Qed.

Lemma counted_run l m n : counted m n -> plausible n l ->
  counted (notif_run m (l ≫= events_of)) (foldl count_open n l).
Proof.
  revert m n. induction l as [|ev l IH]; intros m n Hc Hp; [done|]. simpl. unfold notif_run. rewrite foldl_app. fold (notif_run m (events_of ev)).
  destruct ev as [c| |ev]; destruct Hp as [Hn Hp]; apply IH; try done.
  - by apply counted_attach.
  - by apply counted_detach.
  - by apply counted_other.
Qed.

(** Replaced sessions are counted exactly.  Let the sessions of a peer begin
    and end in any order (a new one before the end of the one it replaces, many
    at once, the newest ending first), with anything else happening in between.
    As long as any of them is open, the peer counts as connected, and no grace
    timer, however old, queues the closing of its mirrors; once the last has ended
    it counts as disconnected. *)
Theorem sessions_counted l :
  plausible 0 l ->
  let m := after caps available locked (l ≫= events_of) in
  sl_connected (slot_of m p) = (0 <? open_sessions l) /\ (0 < open_sessions l -> sl_superseded (slot_of m p) = open_sessions l - 1 /\ forall g, grace_expired m p g = m).
Proof.
  intros Hp m. destruct (counted_run l (NotificationManager_new caps available locked) 0) as [H1 H2 H3]; [| done |].
  { constructor; [done | done|]. simpl. set_solver. }
  fold (after caps available locked (l ≫= events_of)) in H1, H2. fold m in H1, H2. split; [done|]. intros Hn. split; [done|]. intros g.
  unfold open_sessions in *. rewrite (proj2 (N.ltb_lt _ _) Hn) in H1. destruct (connected_slot m H1) as (s & Hs & Hslot).
  rewrite Hslot in H1. unfold grace_expired. rewrite Hs, H1. by case_match.
Qed.
End Sessions.

(** * A worker gets through its batch *)

Section Worker.
Context `{!Prost NotificationControl}.
Context (caps : SinkCapabilities) (available locked : bool).

(** The most steps a task can take: a snapshot's end or a lock change goes
    through at most 200 mirrors. *)
Definition work_weight (w : Work) : nat :=
  match w with
  | AnnounceRoles => 2 | Upsert _ => 4 | Remove _ => 3 | Dismiss _ _ => 1
  | Sync _ => 202 | LockChanged _ => 402 | CloseAll _ => 202
  end.

Definition task_weight (t : Task) : nat :=
  match t with
  | KWork w => work_weight w
  | KAskLock _ _ => 3
  | KDisplay _ _ _ | KClosing _ => 2
  | KReduce _ l => 2 * length l + 1
  | KCloseMirrors l => length l + 1
  | KCloseIds l => length l + 1
  | KReducing _ | KAnswer _ _ | KSend _ _ => 1
  end.

Definition weight (l : list Task) : nat := sum_list (task_weight <$> l).

Lemma weight_app l k : weight (l ++ k) = (weight l + weight k)%nat.
Proof. unfold weight. by rewrite fmap_app, sum_list_with_app || (induction l; simpl; lia). Qed.

(** The platform's answers, should it be asked. *)
Record Oracle := { or_locked : bool; or_display : result SinkError ServerId; or_close : result SinkError unit }.

Definition reply_for (o : Oracle) (t : Task) : Reply :=
  match t with
  | KAskLock _ _ => RLocked (or_locked o)
  | KDisplay _ _ _ | KReducing _ => RDisplay (or_display o)
  | KClosing _ => RClose (or_close o)
  | _ => RNone
  end.

Definition no_channel_full (m : Notif) : Prop := forall c, nt_channels m !! c <> Some ChFull.

Lemma perform_progress m p t o : no_channel_full m -> is_Some (perform m p t (reply_for o t)).
Proof.
  intros Hf. destruct t as [| | | | | |l|l| |ch c]; simpl; eauto; [destruct l; eauto | destruct l; eauto|].
  specialize (Hf ch). destruct (nt_channels m !! ch) as [[]|]; eauto. done.
Qed.

Lemma process_weight m p w : table_ok (sl_mirrors (slot_of m p)) -> (weight (process m p w).1 < work_weight w)%nat.
Proof.
  intros Ht. destruct w as [|i|id|id o|mk|b|r]; simpl.
  - unfold announce_roles. destruct (sl_outbound _); [|unfold weight; simpl; lia]. destruct (announce _ _ _) as [[] ?]; unfold weight; simpl; lia.
  - unfold apply_upsert. repeat case_match; unfold weight; simpl; lia.
  - unfold apply_remove. repeat case_match; unfold weight; simpl; lia.
  - unfold weight. simpl. lia.
  - unfold apply_sync. destruct (marker _ mk) as [st ?]. destruct st; unfold weight; simpl; try lia.
    pose proof (stale_length _ named Ht). lia.
  - unfold apply_lock_change. repeat case_match; unfold weight; simpl; try lia. rewrite slot_of_set_same. simpl.
    unfold affected_by_lock. rewrite length_fmap, mt_iter_perm. pose proof (table_length _ Ht).
    change (sl_mirrors (slot_of (set_locked_field m b) p)) with (sl_mirrors (slot_of m p)). lia.
  - unfold weight. simpl. pose proof (drained_length _ Ht). lia.
Qed.

Lemma perform_weight m p t reply new m' : table_ok (sl_mirrors (slot_of m p)) ->
  perform m p t reply = Some (new, m') -> (weight new < task_weight t)%nat.
Proof.
  intros Ht. destruct t as [w|i pol|i mi r|id|pr l|id|l|l|id o|ch c]; simpl.
  - intros [= H]. pose proof (process_weight m p w Ht) as Hw. by rewrite H in Hw.
  - destruct reply; try done. unfold upsert_locked. repeat case_match; intros [= <- _]; unfold weight; simpl; lia.
  - destruct reply; try done. unfold upsert_displayed. repeat case_match; intros [= <- _]; unfold weight; simpl; lia.
  - destruct reply; try done. unfold remove_closed. repeat case_match; intros [= <- _]; unfold weight; simpl; lia.
  - unfold reduce_next. repeat case_match; intros [= <- _]; unfold weight; simpl; lia.
  - destruct reply; try done. intros [= <- _]. unfold weight. simpl. lia.
  - destruct l; intros [= <- _]; unfold weight; simpl; lia.
  - destruct l; intros [= <- _]; unfold weight; simpl; lia.
  - intros [= <- _]. unfold weight. simpl. lia.
  - destruct (nt_channels m !! ch) as [[]|]; intros [= <- _]; unfold weight; simpl; lia.
Qed.

(** The worker of [p] alone, as long as it has tasks, the platform answering with
    [os] in turn. *)
Fixpoint serve (os : list Oracle) (evs : list NEvent) (p : Fingerprint) : list NEvent :=
  match os with
  | [] => evs
  | o :: os =>
      match sl_tasks (slot_of (after caps available locked evs) p) with
      | [] => evs
      | t :: _ => serve os (evs ++ [EvWorker p (reply_for o t)]) p
      end
  end.

Lemma tasks_kept m p reply t rest new m' : sl_tasks (slot_of m p) = t :: rest -> perform m p t reply = Some (new, m') ->
  worker_step m p reply = set_tasks m' p (new ++ rest).
Proof.
  intros Ht Hp. unfold worker_step. unfold slot_of in Ht. destruct (nt_peers m !! p) as [s|]; [|done]. simpl in Ht. by rewrite Ht, Hp.
Qed.

(** C26: a worker gets through its batch.  In any reachable state, let the worker
    of a peer go on, with whatever answers or refusals the platform gives to its
    calls (a call that takes too long is one that timed out), while no outbound
    channel stays full: within as many steps as the batch weighs (at most 402 for
    each item of work) it has performed all of it and is free to take up the work
    that came in meanwhile. *)
Theorem worker_finishes evs p os :
  no_channel_full (after caps available locked evs) ->
  (weight (sl_tasks (slot_of (after caps available locked evs) p)) <= length os)%nat ->
  sl_tasks (slot_of (after caps available locked (serve os evs p)) p) = [].
Proof.
  revert evs. induction os as [|o os IH]; intros evs Hfull Hw; simpl.
  { destruct (sl_tasks _) as [|t l]; [done|]. exfalso. change (t :: l) with ([t] ++ l) in Hw. rewrite weight_app in Hw.
    unfold weight in Hw. simpl in Hw. destruct t as [[]| | | | | | | | |]; simpl in Hw; lia. }
  destruct (sl_tasks _) as [|t rest] eqn:Ht; [done|].
  destruct (perform_progress _ p t o Hfull) as [[new m'] Hp].
  pose proof (so_table _ _ _ _ (good_slot _ _ _ _ _ p (after_good caps available locked evs))) as Htab.
  pose proof (perform_weight _ _ _ _ _ _ Htab Hp) as Hlt. pose proof (frame_perform _ _ _ _ _ _ Hp) as [[Hch _ _] _].
  pose proof (tasks_kept _ _ _ _ _ _ _ Ht Hp) as Hstep.
  apply IH; rewrite after_snoc; cbn [notif_step]; rewrite Hstep.
  - intros c. simpl. rewrite Hch. apply Hfull.
  - unfold set_tasks. rewrite slot_of_set_same. simpl. rewrite weight_app. change (t :: rest) with ([t] ++ rest) in Hw. rewrite weight_app in Hw.
    unfold weight in Hw at 1. simpl in Hw. lia.
Qed.
End Worker.
