(* ===== verification/NotifyRuns.v ===== *)
(** Notification mirroring, run.

    Two phones, a desktop and a person, evaluated with concrete codecs: a
    notification is shown, updated, reduced when the screen locks, closed by hand
    and dismissed on the phone; witnesses of the theorems about runs.  Then runs
    that show behaviour the comments of the code do not promise: a lock that
    nobody hears of, a mirror given up without being closed, and a detach that
    ends its successor. *)
From S2P Require Import Prelude External Ids Capability Policy NotifyContract NotifyText NotifyQueue NotifyMirror Notifications NotifyFacts NotifyLive.

#[export] Instance Progress_eq_dec : EqDecision Progress.
Proof. solve_decision. Defined.
#[export] Instance Progress_countable : Countable Progress.
Proof.
  refine (inj_countable' (fun p => (pg_current p, pg_max p, pg_indeterminate p)) (fun '(a, b, c) => Build_Progress a b c) _); by intros [].
Defined.
#[export] Instance NotificationUpsert_eq_dec : EqDecision NotificationUpsert.
Proof. solve_decision. Defined.
#[export] Instance NotificationUpsert_countable : Countable NotificationUpsert.
Proof.
  refine (inj_countable'
    (fun '(Build_NotificationUpsert a b c d e f g h i j k l m n o p q r) =>
       ((((a, b), (c, d)), ((e, f), (g, h))), (((i, j), (k, l)), ((m, n), ((o, p), (q, r))))))
    (fun '((((a, b), (c, d)), ((e, f), (g, h))), (((i, j), (k, l)), ((m, n), ((o, p), (q, r))))) =>
       Build_NotificationUpsert a b c d e f g h i j k l m n o p q r) _); by intros [].
Defined.
#[export] Instance NotificationRoles_eq_dec : EqDecision NotificationRoles.
Proof. solve_decision. Defined.
#[export] Instance NotificationRemove_eq_dec : EqDecision NotificationRemove.
Proof. solve_decision. Defined.
#[export] Instance DismissRequest_eq_dec : EqDecision DismissRequest.
Proof. solve_decision. Defined.
#[export] Instance NotificationResult_eq_dec : EqDecision NotificationResult.
Proof. solve_decision. Defined.
#[export] Instance SyncMarker_eq_dec : EqDecision SyncMarker.
Proof. solve_decision. Defined.
#[export] Instance NotificationBody_eq_dec : EqDecision NotificationBody.
Proof. solve_decision. Defined.
#[export] Instance NotificationControl_eq_dec : EqDecision NotificationControl.
Proof. solve_decision. Defined.
#[export] Instance NotificationControl_countable : Countable NotificationControl.
Proof.
  refine (inj_countable'
    (fun c => match nc_body c with
     | None => None
     | Some (NRoles m) => Some (inl (inl (nr_roles m, nr_epoch m)))
     | Some (NUpsert m) => Some (inl (inr m))
     | Some (NRemove m) => Some (inr (inl (inl (nm_notification_id m, nm_origin_device_id m))))
     | Some (NDismiss m) => Some (inr (inl (inr (dq_notification_id m, dq_origin_device_id m))))
     | Some (NResult m) => Some (inr (inr (inl (ns_notification_id m, ns_outcome m))))
     | Some (NSync m) => Some (inr (inr (inr (sm_sync_id m, sm_phase m))))
     end)
    (fun s => {| nc_body := match s with
       | None => None
       | Some (inl (inl (a, b))) => Some (NRoles {| nr_roles := a; nr_epoch := b |})
       | Some (inl (inr m)) => Some (NUpsert m)
       | Some (inr (inl (inl (a, b)))) => Some (NRemove {| nm_notification_id := a; nm_origin_device_id := b |})
       | Some (inr (inl (inr (a, b)))) => Some (NDismiss {| dq_notification_id := a; dq_origin_device_id := b |})
       | Some (inr (inr (inl (a, b)))) => Some (NResult {| ns_notification_id := a; ns_outcome := b |})
       | Some (inr (inr (inr (a, b)))) => Some (NSync {| sm_sync_id := a; sm_phase := b |})
       end |}) _); by intros [[[[]|[]|[]|[]|[]|[]]|]].
Defined.

Definition notif_codec : Prost NotificationControl := countable_prost NotificationControl.
#[local] Existing Instance notif_codec.

Definition phone : Fingerprint := BytesN (n := 32) (replicate 32 x02) I.
Definition tablet : Fingerprint := BytesN (n := 32) (replicate 32 x03) I.

Definition gnome : SinkCapabilities := {| sc_body_markup := true; sc_body := true; sc_persistence := true; sc_dismiss_reporting := true |}.

(** Everybody may mirror, with dismissals; names only on a locked screen. *)
Definition trusting (_ : Fingerprint) : NotificationPolicy.t := NotificationPolicy.Policy true LockPolicy.AppOnly true.

Definition says (b : NotificationBody) : bytes := encode_to_vec {| nc_body := Some b |}.
Definition upsert (b : byte) (title : str) : bytes := says (NUpsert (in_message (sample_upsert b title))).

(** A session begins: the worker announces, the phone says it is a source that
    acts on dismissals. *)
Definition connect (p : Fingerprint) (c : N) : list NEvent :=
  [EvChannel c ChOpen; EvAttach p c; EvWorker p RNone; EvWorker p RNone; EvWorker p RNone;
   EvMessage p (says (NRoles {| nr_roles := [1; 3]%Z; nr_epoch := 1 |}))].

(** A message's work, step by step: taken up, begun, the lock asked, the desktop
    asked, answered. *)
Definition shown (p : Fingerprint) (b : byte) (title : str) (locked : bool) (r : result SinkError ServerId) : list NEvent :=
  [EvMessage p (upsert b title); EvWorker p RNone; EvWorker p RNone; EvWorker p (RLocked locked); EvWorker p (RDisplay r); EvWorker p RNone].

Definition start : list NEvent := EvAuthorizer trusting :: connect phone 1.
Definition hello_run : list NEvent := start ++ shown phone x01 (lit "hello") false (Ok 7).

Abbreviation at_ := (after gnome true false).

(** The phone's message is shown in full; the screen locks and it is shown again
    with its name alone; the person closes it and the phone is asked to dismiss it. *)
Example mirrored_and_dismissed :
  let m := at_ (hello_run ++ [EvLocked true; EvWorker phone RNone; EvWorker phone RNone; EvWorker phone RNone;
                              EvWorker phone (RDisplay (Ok 7)); EvWorker phone RNone;
                              EvClosed [phone] 7 Dismissed; EvWorker phone RNone; EvWorker phone RNone]) in
  match nt_log m with
  | [LSent _ 1 {| nc_body := Some (NRoles r) |} _; LDisplay _ full None; LSent _ 1 {| nc_body := Some (NResult ok) |} _;
     LDisplay _ short (Some 7); LSent _ 1 {| nc_body := Some (NDismiss d) |} _] =>
      nr_roles r = [2; 4]%Z /\ mi_summary full = lit "hello" /\ mi_body full = lit "text" /\ ns_outcome ok = 1%Z /\
      mi_summary short = lit "Example" /\ mi_body short = [] /\ dq_notification_id d = replicate 16 x01 /\
      dq_origin_device_id d = lit "00112233445566778899aabbccddeeff"
  | _ => False
  end.
Proof. vm_compute. repeat split. Qed.

(** * Witnesses *)

Definition hello_mirror : Mirror := build_mirror gnome (in_message (sample_upsert x01 (lit "hello"))) Presentation.Full.

Lemma displayed_only_as_allowed_witness :
  LDisplay phone hello_mirror None ∈ nt_log (at_ hello_run) /\ mirror_safe true hello_mirror.
Proof.
  assert (LDisplay phone hello_mirror None ∈ nt_log (at_ hello_run)) as Hin.
  { apply list_elem_of_lookup. exists 1%nat. vm_compute. reflexivity. }
  split; [exact Hin|]. exact (proj1 (displayed_only_as_allowed gnome true false hello_run phone hello_mirror None Hin)).
Defined.

Definition dismissed_run : list NEvent :=
  hello_run ++ [EvClosed [tablet; phone] 7 Dismissed; EvWorker phone RNone; EvWorker phone RNone].
Definition dismissal : NotificationControl := {| nc_body := Some (NDismiss {|
  dq_notification_id := replicate 16 x01; dq_origin_device_id := lit "00112233445566778899aabbccddeeff" |}) |}.

Lemma only_dismissals_are_requested_witness :
  LSent phone 1 dismissal (outbound_of dismissal) ∈ nt_log (at_ dismissed_run) /\
  exists id, asked gnome true false dismissed_run phone id (lit "00112233445566778899aabbccddeeff").
Proof.
  assert (LSent phone 1 dismissal (outbound_of dismissal) ∈ nt_log (at_ dismissed_run)) as Hin.
  { apply list_elem_of_lookup. exists 3%nat. vm_compute. reflexivity. }
  split; [exact Hin|].
  destruct (only_dismissals_are_requested gnome true false dismissed_run phone 1 dismissal (outbound_of dismissal) Hin) as [_ (id & _ & H)].
  exists id. exact H.
Defined.

(** The tablet sends a notification under the id of the phone's. *)
Lemma peers_are_isolated_witness :
  let m := at_ (hello_run ++ connect tablet 2) in
  mt_len (sl_mirrors (slot_of m phone)) = 1 /\
  sl_mirrors (slot_of (notif_step m (EvMessage tablet (upsert x01 (lit "other")))) phone) = sl_mirrors (slot_of m phone).
Proof.
  split; [vm_compute; reflexivity|].
  apply (peers_are_isolated (at_ (hello_run ++ connect tablet 2)) (EvMessage tablet (upsert x01 (lit "other"))) tablet phone); [reflexivity|].
  intros H. discriminate H.
Defined.

(** A second session, then the end of the first. *)
Lemma sessions_counted_witness :
  let l := [SAttach 1; SOther (EvChannel 2 ChOpen); SAttach 2; SDetach] in
  plausible phone 0 l /\ sl_connected (slot_of (at_ (l ≫= events_of phone)) phone) = true.
Proof.
  assert (plausible phone 0 [SAttach 1; SOther (EvChannel 2 ChOpen); SAttach 2; SDetach]) as Hp.
  { simpl. unfold u32_max. repeat split; lia. }
  split; [exact Hp|]. exact (proj1 (sessions_counted gnome true false phone [SAttach 1; SOther (EvChannel 2 ChOpen); SAttach 2; SDetach] Hp)).
Defined.

Definition refusing : Oracle := {| or_locked := true; or_display := Err SUnavailable; or_close := Err STimedOut |}.
Definition batch : list NEvent := start ++ [EvMessage phone (upsert x01 (lit "hello")); EvWorker phone RNone].

Lemma worker_finishes_witness :
  weight (sl_tasks (slot_of (at_ batch) phone)) = 4%nat /\
  sl_tasks (slot_of (at_ (serve gnome true false (replicate 4 refusing) batch phone)) phone) = [].
Proof.
  split; [vm_compute; reflexivity|]. apply worker_finishes.
  - assert (nt_channels (at_ batch) = {[ 1 := ChOpen ]}) as Hc by (vm_compute; reflexivity).
    intros c. rewrite Hc, lookup_singleton_Some. intros [_ H]. discriminate H.
  - vm_compute. repeat constructor.
Defined.

(** * What the comments do not promise *)

(** The screen locks while a notification is being worked on.  Its worker asks the
    platform, hears that the screen is locked, and stores that; the signal of the
    lock then looks like no change, no peer is told to reduce what it shows, and
    the message shown before stays in full on the locked screen. *)
Example lock_goes_unheard :
  let m := at_ (hello_run ++ shown phone x02 (lit "again") true (Ok 8) ++ [EvLocked true]) in
  nt_locked m = true /\ q_items (sl_queue (slot_of m phone)) = [] /\ sl_tasks (slot_of m phone) = [] /\
  me_reduced <$> mt_entries (sl_mirrors (slot_of m phone)) !! sample_id x01 = Some false /\
  (me_server_id <$> mt_entries (sl_mirrors (slot_of m phone)) !! sample_id x01) = Some (Some 7).
Proof. vm_compute. repeat split. Qed.

(** A table of 200 mirrors, and a display that fails: the oldest mirror is given
    up to remember the failed one, and nobody closes its notification, which
    stays on the screen with nothing left that could update or remove it. *)
Example failed_display_leaves_one_behind :
  let m := set_slot (at_ start) phone (with_mirrors (slot_of (at_ start) phone) full_table) in
  let m' := (upsert_displayed m phone (sample_upsert x09 (lit "hello")) hello_mirror false (Err SFailed)).2 in
  (me_server_id <$> mt_entries (sl_mirrors (slot_of m phone)) !! numbered_id 0) = Some (Some 0) /\
  mt_entries (sl_mirrors (slot_of m' phone)) !! numbered_id 0 = None /\ nt_log m' = nt_log m.
Proof. vm_compute. repeat split. Qed.

(** A detach checks for a replaced session and tears down in two critical
    sections.  A session that begins between them is taken down with the old one:
    the peer counts as disconnected, its channel is gone, and after the grace its
    mirrors are closed under a session that is up. *)
Example detach_ends_its_successor :
  let m := at_ (hello_run ++ [EvDetach phone; EvChannel 2 ChOpen; EvAttach phone 2; EvTeardown phone; EvClock RECONNECT_GRACE;
                              EvGrace phone 2 RECONNECT_GRACE]) in
  sl_connected (slot_of m phone) = false /\ sl_outbound (slot_of m phone) = None /\ sl_superseded (slot_of m phone) = 1 /\
  q_items (sl_queue (slot_of m phone)) = [AnnounceRoles; CloseAll CGraceExpired].
Proof. vm_compute. repeat split. Qed.
