(* ===== verification/NotifyBus.v ===== *)
(** The desktop's notification server and its lock screen.

    [capabilities/notifications/src/backend]: the [NotificationSink] and
    [LockSource] traits with their in-memory and empty implementations
    ([mod.rs]), the freedesktop server on the session bus ([dbus.rs]) and
    logind's [LockedHint] on the system bus ([logind.rs]).

    The buses and the services on them are other programs: [SessionBus] and
    [Logind] answer each call, given all the calls before it, and nothing is
    assumed of them.  The state of the operations is the list of calls made. *)
From S2P Require Import Prelude External Ids Capability Policy Utf8 Panel NotifyContract NotifyText NotifyQueue NotifyMirror Notifications.

(** * [SinkError] *)

Module Sink.
Inductive Fault := Unavailable (why : str) | Failed (why : str) | TimedOut.

Definition fmt (e : Fault) : str :=
  match e with
  | Unavailable why => lit "no notification server: " ++ why
  | Failed why => lit "the notification server refused: " ++ why
  | TimedOut => lit "the notification server did not answer in time"
  end.

Definition class (e : Fault) : str :=
  match e with Unavailable _ => lit "unavailable" | Failed _ => lit "failed" | TimedOut => lit "timed-out" end.

(** What the manager distinguishes. *)
Definition kind (e : Fault) : SinkError :=
  match e with Unavailable _ => SUnavailable | Failed _ => SFailed | TimedOut => STimedOut end.
End Sink.

Abbreviation SinkResult := (result Sink.Fault).

Definition as_hint (u : Urgency) : N := match u with ULow => 0 | UNormal => 1 end.

Definition CloseReason_as_str (r : CloseReason) : str :=
  match r with
  | Expired => lit "expired" | Dismissed => lit "dismissed" | Closed => lit "closed" | Undefined => lit "undefined"
  end.

(** * The traits *)

(** Operations act on the server's state [W]. *)
Class NotificationSink (S W : Type) := {
  sink_id : S -> str;
  sink_describe : S -> str;
  sink_capabilities : S -> W -> SinkCapabilities;
  sink_availability : S -> W -> SinkResult unit * W;
  display : S -> Mirror -> option ServerId -> W -> SinkResult ServerId * W;
  sink_close : S -> ServerId -> W -> SinkResult unit * W
}.

Class LockSource (L W : Type) := {
  lock_id : L -> str;
  lock_describe : L -> str;
  is_locked : L -> W -> bool * (L * W)
}.

(** * In-memory and empty implementations *)

(** [MemorySinkState]; the two event channels are the lists of what was put on
    them. *)
Record MemorySinkState := {
  mk_next_id : ServerId;
  mk_live : gmap ServerId Mirror;
  mk_displays : list (option ServerId * Mirror);
  mk_closes : list ServerId;
  mk_last_id : option ServerId;
  mk_failure : option Sink.Fault;
  mk_display_failure : option Sink.Fault;
  mk_close_failure : option Sink.Fault;
  mk_capabilities : SinkCapabilities;
  mk_available : bool;
  mk_withhold_closed_events : bool;
  mk_closed_events : list (ServerId * CloseReason);
  mk_availability_events : list bool
}.

Definition MemorySink_new : MemorySinkState := {|
  mk_next_id := 1; mk_live := ∅; mk_displays := []; mk_closes := []; mk_last_id := None; mk_failure := None;
  mk_display_failure := None; mk_close_failure := None;
  mk_capabilities := {| sc_body_markup := true; sc_body := true; sc_persistence := true; sc_dismiss_reporting := true |};
  mk_available := true; mk_withhold_closed_events := false; mk_closed_events := []; mk_availability_events := [] |}.

Definition or_else {A} (a b : option A) : option A := match a with Some _ => a | None => b end.

(** [u32::saturating_add]. *)
Definition sat_add_u32 (a b : N) : N := N.min (a + b) u32_max.

Definition memory_display (mirror : Mirror) (replaces : option ServerId) (s : MemorySinkState)
    : SinkResult ServerId * MemorySinkState :=
  match or_else (mk_failure s) (mk_display_failure s) with
  | Some f => (Err f, s)
  | None =>
      let held := match replaces with
                  | Some id => if bool_decide (is_Some (mk_live s !! id)) then Some id else None
                  | None => None
                  end in
      let '(id, next) := match held with
                         | Some id => (id, mk_next_id s)
                         | None => (mk_next_id s, sat_add_u32 (mk_next_id s) 1)
                         end in
      (Ok id, {| mk_next_id := next; mk_live := <[id := mirror]> (mk_live s);
                 mk_displays := mk_displays s ++ [(replaces, mirror)]; mk_closes := mk_closes s; mk_last_id := Some id;
                 mk_failure := mk_failure s; mk_display_failure := mk_display_failure s;
                 mk_close_failure := mk_close_failure s; mk_capabilities := mk_capabilities s;
                 mk_available := mk_available s; mk_withhold_closed_events := mk_withhold_closed_events s; mk_closed_events := mk_closed_events s;
                 mk_availability_events := mk_availability_events s |})
  end.

Definition memory_close (id : ServerId) (s : MemorySinkState) : SinkResult unit * MemorySinkState :=
  match or_else (mk_failure s) (mk_close_failure s) with
  | Some f => (Err f, s)
  | None =>
      (Ok tt, {| mk_next_id := mk_next_id s; mk_live := delete id (mk_live s); mk_displays := mk_displays s;
                 mk_closes := mk_closes s ++ [id]; mk_last_id := mk_last_id s; mk_failure := mk_failure s;
                 mk_display_failure := mk_display_failure s; mk_close_failure := mk_close_failure s;
                 mk_capabilities := mk_capabilities s; mk_available := mk_available s; mk_withhold_closed_events := mk_withhold_closed_events s;
                 mk_closed_events := mk_closed_events s; mk_availability_events := mk_availability_events s |})
  end.

Definition memory_availability (s : MemorySinkState) : SinkResult unit :=
  match mk_failure s with
  | Some f => Err f
  | None => if mk_available s then Ok tt else Err (Sink.Unavailable (lit "no server"))
  end.

Definition go_away (s : MemorySinkState) : MemorySinkState := {|
  mk_next_id := 1; mk_live := ∅; mk_displays := mk_displays s; mk_closes := mk_closes s; mk_last_id := mk_last_id s;
  mk_failure := Some (Sink.Unavailable (lit "gone")); mk_display_failure := mk_display_failure s;
  mk_close_failure := mk_close_failure s; mk_capabilities := mk_capabilities s; mk_available := false; mk_withhold_closed_events := mk_withhold_closed_events s;
  mk_closed_events := mk_closed_events s; mk_availability_events := mk_availability_events s ++ [false] |}.

Definition come_back (s : MemorySinkState) : MemorySinkState := {|
  mk_next_id := mk_next_id s; mk_live := mk_live s; mk_displays := mk_displays s; mk_closes := mk_closes s;
  mk_last_id := mk_last_id s; mk_failure := None; mk_display_failure := mk_display_failure s;
  mk_close_failure := mk_close_failure s; mk_capabilities := mk_capabilities s; mk_available := true; mk_withhold_closed_events := mk_withhold_closed_events s;
  mk_closed_events := mk_closed_events s; mk_availability_events := mk_availability_events s ++ [true] |}.

Definition user_closes (id : ServerId) (reason : CloseReason) (s : MemorySinkState) : MemorySinkState := {|
  mk_next_id := mk_next_id s; mk_live := delete id (mk_live s); mk_displays := mk_displays s; mk_closes := mk_closes s;
  mk_last_id := mk_last_id s; mk_failure := mk_failure s; mk_display_failure := mk_display_failure s;
  mk_close_failure := mk_close_failure s; mk_capabilities := mk_capabilities s; mk_available := mk_available s; mk_withhold_closed_events := mk_withhold_closed_events s;
  mk_closed_events := mk_closed_events s ++ [(id, reason)]; mk_availability_events := mk_availability_events s |}.

Inductive MemorySink := TheMemorySink.
#[export] Instance memory_sink : NotificationSink MemorySink MemorySinkState := {|
  sink_id _ := lit "memory";
  sink_describe _ := lit "in-memory notification server (tests only)";
  sink_capabilities _ s := mk_capabilities s;
  sink_availability _ s := (memory_availability s, s);
  display _ := memory_display;
  sink_close _ := memory_close |}.

Inductive NoSink := TheNoSink.
Definition no_server : Sink.Fault := Sink.Unavailable (lit "no notification server").
#[export] Instance no_sink (W : Type) : NotificationSink NoSink W := {|
  sink_id _ := lit "none";
  sink_describe _ := lit "no notification server on this session";
  sink_capabilities _ _ := {| sc_body_markup := false; sc_body := false; sc_persistence := false; sc_dismiss_reporting := false |};
  sink_availability _ w := (Err no_server, w);
  display _ _ _ w := (Err no_server, w);
  sink_close _ _ w := (Ok tt, w) |}.

Record MemoryLockState := { lk_locked : bool; lk_unknown : bool }.
#[export] Instance memory_lock (W : Type) : LockSource MemoryLockState W := {|
  lock_id _ := lit "memory";
  lock_describe _ := lit "in-memory lock state (tests only)";
  is_locked l w := (lk_unknown l || lk_locked l, (l, w)) |}.

Inductive UnknownLock := TheUnknownLock.
#[export] Instance unknown_lock (W : Type) : LockSource UnknownLock W := {|
  lock_id _ := lit "unknown";
  lock_describe _ := lit "no lock-state source on this platform; treated as locked";
  is_locked l w := (true, (l, w)) |}.

(** * [zbus::Error] *)

(** The variants the code tells apart; a message is the other end's text. *)
Inductive ZError :=
| MethodError (name : str) (message : option str)
| InputOutput (message : str)
| Address (message : str)
| Handshake (message : str)
| InvalidReply
| NameTaken
| InterfaceNotFound
| OtherZError (message : str).

(** [ErrorClass]'s [Display], of [dbus.rs]. *)
Definition ErrorClass (e : ZError) : str :=
  match e with
  | MethodError name _ => lit "method-error:" ++ name
  | InputOutput _ => lit "io"
  | Address _ => lit "address"
  | Handshake _ => lit "handshake"
  | InvalidReply => lit "invalid-reply"
  | NameTaken => lit "name-taken"
  | InterfaceNotFound | OtherZError _ => lit "other"
  end.

(** [class], of [logind.rs]. *)
Definition class (e : ZError) : str :=
  match e with
  | MethodError _ _ => lit "method-error"
  | InputOutput _ => lit "io"
  | Address _ => lit "address"
  | Handshake _ => lit "handshake"
  | InvalidReply => lit "invalid-reply"
  | NameTaken | InterfaceNotFound | OtherZError _ => lit "other"
  end.

Definition classify (e : ZError) : Sink.Fault :=
  let class := ErrorClass e in
  match e with
  | MethodError name _ =>
      if contains (lit "ServiceUnknown") name || contains (lit "NameHasNoOwner") name
      then Sink.Unavailable class else Sink.Failed class
  | InputOutput _ | Address _ => Sink.Unavailable class
  | _ => Sink.Failed class
  end.

(** * [DbusSink] *)

Definition DEST : str := lit "org.freedesktop.Notifications".
Definition APP_ID : str := lit "io.github.yurisismotto.pliwee".
Definition EXPIRE_DEFAULT : Z := -1.

(** The values of the hints that are sent. *)
Inductive HintValue := HU8 (n : N) | HStr (s : str).

Record NotifyArgs := {
  na_app_name : str;
  na_replaces_id : N;
  na_app_icon : str;
  na_summary : str;
  na_body : str;
  na_actions : list str;
  na_hints : gmap str HintValue;
  na_expire_timeout : Z
}.

Inductive BusCall :=
| GetServerInformation
| GetCapabilities
| Notify (args : NotifyArgs)
| CloseNotification (id : N)
| Subscribe (signal : str).

Class SessionBus := {
  sb_connect : result ZError unit;
  sb_proxy : list BusCall -> str -> result ZError unit;
  sb_server_information : list BusCall -> result ZError (str * str * str * str);
  sb_capabilities : list BusCall -> result ZError (list str);
  sb_notify : list BusCall -> NotifyArgs -> result ZError N;
  sb_close : list BusCall -> N -> result ZError unit;
  sb_subscribe : list BusCall -> str -> result ZError unit
}.

(** The receivers are there or not; [closed_events] takes its one away. *)
Record DbusSink := {
  ds_capabilities : SinkCapabilities;
  ds_server : str;
  ds_closed_rx : bool;
  ds_availability_rx : bool
}.

Section Dbus.
Context `{!SessionBus}.

(** One subscription: its own proxy, then the match rule. *)
Definition subscribe (dest signal : str) (log : list BusCall) : bool * list BusCall :=
  match sb_proxy log dest with
  | Err _ => (false, log)
  | Ok _ => (is_ok (sb_subscribe log signal), log ++ [Subscribe signal])
  end.

Definition spawn_signal_pumps (log : list BusCall) : bool * bool * list BusCall :=
  let '(closes, log1) := subscribe DEST (lit "NotificationClosed") log in
  let '(availability, log2) := subscribe (lit "org.freedesktop.DBus") (lit "NameOwnerChanged") log1 in
  (closes, availability, log2).

(** The bodies of the pumps: what a message puts on the channel; none is an
    undecodable one or, of the second, one about another name. *)
Definition closed_message (body : option (N * N)) : option (ServerId * CloseReason) :=
  '(id, reason) ← body; Some (id, CloseReason_from_wire reason).

Definition owner_message (body : option (str * str * str)) : option bool :=
  '(name, _, new) ← body; if eqb name DEST then Some (negb (eqb new [])) else None.

Definition DbusSink_connect (log : list BusCall) : option DbusSink * list BusCall :=
  match sb_connect with
  | Err _ => (None, log)
  | Ok _ =>
      match sb_proxy log DEST with
      | Err _ => (None, log)
      | Ok _ =>
          let log1 := log ++ [GetServerInformation] in
          match sb_server_information log with
          | Err _ => (None, log1)
          | Ok (name, vendor, version, spec) =>
              let advertised := match sb_capabilities log1 with Ok l => l | Err _ => [] end in
              let '(closed_rx, availability_rx, log2) := spawn_signal_pumps (log1 ++ [GetCapabilities]) in
              (Some {| ds_capabilities := {| sc_body_markup := mem (lit "body-markup") advertised;
                                             sc_body := mem (lit "body") advertised;
                                             sc_persistence := mem (lit "persistence") advertised;
                                             sc_dismiss_reporting := closed_rx |};
                       ds_server := name ++ lit " " ++ version ++ lit " (spec " ++ spec ++ lit ", " ++ vendor ++ lit ")";
                       ds_closed_rx := closed_rx; ds_availability_rx := availability_rx |}, log2)
          end
      end
  end.

Definition proxy (log : list BusCall) : SinkResult unit :=
  map_err (fun e => Sink.Failed (ErrorClass e)) (sb_proxy log DEST).

Definition dbus_availability (log : list BusCall) : SinkResult unit * list BusCall :=
  match proxy log with
  | Err e => (Err e, log)
  | Ok _ => (_ ← map_err (fun e => Sink.Unavailable (ErrorClass e)) (sb_server_information log); Ok tt,
             log ++ [GetServerInformation])
  end.

Definition notify_args (mirror : Mirror) (replaces : option ServerId) : NotifyArgs := {|
  na_app_name := mi_app_name mirror; na_replaces_id := default 0 replaces; na_app_icon := [];
  na_summary := mi_summary mirror; na_body := mi_body mirror; na_actions := [];
  na_hints := <[lit "desktop-entry" := HStr APP_ID]> (<[lit "urgency" := HU8 (as_hint (mi_urgency mirror))]> ∅);
  na_expire_timeout := EXPIRE_DEFAULT |}.

Definition dbus_display (mirror : Mirror) (replaces : option ServerId) (log : list BusCall)
    : SinkResult ServerId * list BusCall :=
  match proxy log with
  | Err e => (Err e, log)
  | Ok _ => let args := notify_args mirror replaces in
            (map_err classify (sb_notify log args), log ++ [Notify args])
  end.

Definition dbus_close (id : ServerId) (log : list BusCall) : SinkResult unit * list BusCall :=
  match proxy log with
  | Err e => (Err e, log)
  | Ok _ =>
      (match sb_close log id with
       | Ok _ => Ok tt
       | Err e => match classify e with Sink.Failed _ => Ok tt | other => Err other end
       end, log ++ [CloseNotification id])
  end.

(** [closed_events] and [availability_events]: the receiver, once. *)
Definition closed_events (s : DbusSink) : bool * DbusSink :=
  (ds_closed_rx s, {| ds_capabilities := ds_capabilities s; ds_server := ds_server s; ds_closed_rx := false;
                      ds_availability_rx := ds_availability_rx s |}).
Definition availability_events (s : DbusSink) : bool * DbusSink :=
  (ds_availability_rx s, {| ds_capabilities := ds_capabilities s; ds_server := ds_server s; ds_closed_rx := ds_closed_rx s;
                            ds_availability_rx := false |}).

#[export] Instance dbus_sink : NotificationSink DbusSink (list BusCall) := {|
  sink_id _ := lit "freedesktop";
  sink_describe s := lit "org.freedesktop.Notifications " ++ [8212] ++ lit " " ++ ds_server s;
  sink_capabilities s _ := ds_capabilities s;
  sink_availability _ := dbus_availability;
  display _ := dbus_display;
  sink_close _ := dbus_close |}.
End Dbus.

(** * [LogindLock] *)

Definition MANAGER_PATH : str := lit "/org/freedesktop/login1".
Definition MANAGER_IFACE : str := lit "org.freedesktop.login1.Manager".
Definition SESSION_IFACE : str := lit "org.freedesktop.login1.Session".
Definition USER_IFACE : str := lit "org.freedesktop.login1.User".
Definition PROPERTIES_IFACE : str := lit "org.freedesktop.DBus.Properties".
Definition LOCKED_HINT : str := lit "LockedHint".

Inductive LogindCall :=
| GetUser (uid : N)
| GetDisplay (user_path : str)
| GetSessionByPID (pid : N)
| GetSession (id : str)
| GetLockedHint (path : str)
| SubscribeProperties (path : str).

Class Logind := {
  lg_connect : bool;
  lg_proxy : list LogindCall -> str -> str -> result ZError unit;
  lg_get_user : list LogindCall -> N -> result ZError str;
  lg_display : list LogindCall -> str -> result ZError (str * str);
  lg_session_by_pid : list LogindCall -> N -> result ZError str;
  lg_get_session : list LogindCall -> str -> result ZError str;
  lg_locked_hint : list LogindCall -> str -> result ZError bool;
  lg_subscribe : list LogindCall -> str -> result ZError unit
}.

(** What the process knows of itself. *)
Record ProcessEnv := {
  pe_status : option str;                      (** [/proc/self/status] *)
  pe_pid : N;
  pe_session_id : option str                   (** [XDG_SESSION_ID] *)
}.

(** [split_whitespace]. *)
Fixpoint words_from (word s : str) : list str :=
  match s with
  | [] => if eqb word [] then [] else [word]
  | c :: s' => if is_whitespace c then (if eqb word [] then [] else [word]) ++ words_from [] s'
               else words_from (word ++ [c]) s'
  end.
Definition split_whitespace (s : str) : list str := words_from [] s.

(** [str::parse::<u32>]. *)
Definition parse_u32 (s : str) : option N :=
  n ← parse_u64 s; if n <=? u32_max then Some n else None.

Definition users_uid (env : ProcessEnv) : N :=
  default 0 (status ← pe_status env;
             line ← find_b (starts_with (lit "Uid:")) (lines status);
             word ← split_whitespace line !! 1%nat;
             parse_u32 word).

Record LogindLock := {
  ll_session_path : str;
  ll_cached : bool;
  ll_events : bool
}.

Section LogindSource.
Context `{!Logind}.

(** The user's primary graphical session, if logind names one. *)
Definition display_session (env : ProcessEnv) (log : list LogindCall) : option str * list LogindCall :=
  let uid := users_uid env in
  let log1 := log ++ [GetUser uid] in
  match lg_get_user log uid with
  | Err _ => (None, log1)
  | Ok user_path =>
      match lg_proxy log1 user_path USER_IFACE with
      | Err _ => (None, log1)
      | Ok _ =>
          (match lg_display log1 user_path with
           | Ok (id, path) => if negb (eqb id []) then Some path else None
           | Err _ => None
           end, log1 ++ [GetDisplay user_path])
      end
  end.

Definition resolve_session (env : ProcessEnv) (log : list LogindCall) : option str * list LogindCall :=
  match lg_proxy log MANAGER_PATH MANAGER_IFACE with
  | Err _ => (None, log)
  | Ok _ =>
      let '(found, log1) := display_session env log in
      match found with
      | Some path => (Some path, log1)
      | None =>
          let log2 := log1 ++ [GetSessionByPID (pe_pid env)] in
          match lg_session_by_pid log1 (pe_pid env) with
          | Ok path => (Some path, log2)
          | Err _ =>
              match pe_session_id env with
              | None | Some [] => (None, log2)
              | Some id => (match lg_get_session log2 id with Ok path => Some path | Err _ => None end,
                            log2 ++ [GetSession id])
              end
          end
      end
  end.

(** [read_locked_hint], and [reread] of the pump. *)
Definition read_locked_hint (path : str) (log : list LogindCall) : bool * list LogindCall :=
  match lg_proxy log path SESSION_IFACE with
  | Err _ => (true, log)
  | Ok _ => (match lg_locked_hint log path with Ok locked => locked | Err _ => true end, log ++ [GetLockedHint path])
  end.

Definition spawn_property_pump (path : str) (log : list LogindCall) : bool * list LogindCall :=
  match lg_proxy log path PROPERTIES_IFACE with
  | Err _ => (false, log)
  | Ok _ => (is_ok (lg_subscribe log path), log ++ [SubscribeProperties path])
  end.

Definition LogindLock_connect (env : ProcessEnv) (log : list LogindCall) : option LogindLock * list LogindCall :=
  if negb lg_connect then (None, log)
  else
    let '(session, log1) := resolve_session env log in
    match session with
    | None => (None, log1)
    | Some path =>
        let '(locked, log2) := read_locked_hint path log1 in
        let '(events, log3) := spawn_property_pump path log2 in
        (Some {| ll_session_path := path; ll_cached := locked; ll_events := events |}, log3)
    end.

(** A [PropertiesChanged] message. *)
Inductive PropValue := VBool (b : bool) | VOther.
Record PropertiesChanged := {
  pm_iface : str;
  pm_changed : gmap str PropValue;
  pm_invalidated : list str
}.

(** The pump's turn for one message: what it sends on, if anything. *)
Definition pump_message (path : str) (body : option PropertiesChanged) (log : list LogindCall)
    : option bool * list LogindCall :=
  match body with
  | None => (None, log)
  | Some msg =>
      if negb (eqb (pm_iface msg) SESSION_IFACE) then (None, log)
      else
        match pm_changed msg !! LOCKED_HINT with
        | Some (VBool locked) => (Some locked, log)
        | Some VOther => (Some true, log)
        | None =>
            if negb (mem LOCKED_HINT (pm_invalidated msg)) then (None, log)
            else let '(locked, log1) := read_locked_hint path log in (Some locked, log1)
        end
  end.

Definition logind_is_locked (l : LogindLock) (log : list LogindCall) : bool * (LogindLock * list LogindCall) :=
  let '(locked, log1) := read_locked_hint (ll_session_path l) log in
  (locked, ({| ll_session_path := ll_session_path l; ll_cached := locked; ll_events := ll_events l |}, log1)).

#[export] Instance logind_lock : LockSource LogindLock (list LogindCall) := {|
  lock_id _ := lit "logind";
  lock_describe l := lit "org.freedesktop.login1.Session.LockedHint on " ++ ll_session_path l;
  is_locked := logind_is_locked |}.
End LogindSource.

(** What the daemon composes: logind, or a lock nobody can tell the state of. *)
Inductive DesktopLock := WithLogind (l : LogindLock) | WithoutLogind.

#[export] Instance desktop_lock `{!Logind} : LockSource DesktopLock (list LogindCall) := {|
  lock_id l := match l with WithLogind l => lock_id (W:=list LogindCall) l | WithoutLogind => lock_id (W:=list LogindCall) TheUnknownLock end;
  lock_describe l := match l with
    | WithLogind l => lock_describe (W:=list LogindCall) l
    | WithoutLogind => lock_describe (W:=list LogindCall) TheUnknownLock end;
  is_locked l w := match l with
    | WithLogind l => let '(b, (l', w')) := is_locked l w in (b, (WithLogind l', w'))
    | WithoutLogind => let '(b, (_, w')) := is_locked TheUnknownLock w in (b, (WithoutLogind, w')) end |}.

Definition compose_lock `{!Logind} (env : ProcessEnv) (log : list LogindCall) : DesktopLock * list LogindCall :=
  let '(found, log1) := LogindLock_connect env log in
  (match found with Some l => WithLogind l | None => WithoutLogind end, log1).
