(* ===== verification/NotifyBusFacts.v ===== *)
(** What the desktop is asked to show and when.

    The notification manager with logind's answers in place of the lock state:
    content is shown only while logind says the screen is unlocked, and every
    way of not knowing counts as locked.  What reaches the notification server
    and what of its errors reaches a log. *)
From S2P Require Import Prelude External Ids Capability Policy Utf8 Panel NotifyContract NotifyText NotifyQueue NotifyMirror Notifications NotifyFacts NotifyBus.

(** * Errors *)

(** [e] without the other end's words. *)
Definition blank (e : ZError) : ZError :=
  match e with
  | MethodError name _ => MethodError name None
  | InputOutput _ => InputOutput []
  | Address _ => Address []
  | Handshake _ => Handshake []
  | OtherZError _ => OtherZError []
  | e => e
  end.

Lemma classify_blank e : ErrorClass e = ErrorClass (blank e) /\ class e = class (blank e) /\ classify e = classify (blank e).
Proof. by destruct e. Qed.

(** A close fails only when there is nobody to ask. *)
Lemma classify_not_timed_out e : classify e <> Sink.TimedOut.
Proof. destruct e; simpl; try done. by case_match. Qed.

(** * The notification server *)

Section Dbus.
Context `{!SessionBus}.

(** No button, no icon and no way to be urgent, and the text of the mirror. *)
Lemma notify_args_plain mirror replaces : let a := notify_args mirror replaces in
  na_actions a = [] /\ na_app_icon a = [] /\ (forall k v, na_hints a !! k = Some v -> k = lit "desktop-entry" \/ k = lit "urgency") /\
  (exists n, na_hints a !! lit "urgency" = Some (HU8 n) /\ n <= 1) /\
  na_app_name a = mi_app_name mirror /\ na_summary a = mi_summary mirror /\ na_body a = mi_body mirror.
Proof.
  split_and!; try done.
  - intros k v. cbn [na_hints notify_args]. rewrite !lookup_insert_Some. intros [[<- _]|[_ [[<- _]|[_ Hk]]]]; auto. by rewrite lookup_empty in Hk.
  - exists (as_hint (mi_urgency mirror)). split; [done | by destruct (mi_urgency mirror)].
Qed.

(** One call each, made once. *)
Lemma dbus_display_spec mirror replaces log r log' : dbus_display mirror replaces log = (r, log') ->
  (log' = log /\ exists why, r = Err (Sink.Failed why)) \/
  (log' = log ++ [Notify (notify_args mirror replaces)] /\
   r = map_err classify (sb_notify log (notify_args mirror replaces))).
Proof.
  unfold dbus_display, proxy. destruct (sb_proxy log DEST) as [[]|e]; intros [= <- <-]; [by right|]. left. split; [done | by eexists].
Qed.

(** A close is a success when the server did it or refused, and a failure when
    there is no server. *)
Lemma dbus_close_spec id log log' r : dbus_close id log = (r, log') -> sb_proxy log DEST = Ok tt ->
  log' = log ++ [CloseNotification id] /\
  (r <> Ok tt <-> exists e, sb_close log id = Err e /\
     ((exists name msg, e = MethodError name msg /\
         (contains (lit "ServiceUnknown") name || contains (lit "NameHasNoOwner") name) = true) \/
      (exists msg, e = InputOutput msg) \/ (exists msg, e = Address msg))).
Proof.
  unfold dbus_close, proxy. intros Hc Hp. rewrite Hp in Hc. cbn [map_err] in Hc. injection Hc as <- <-. split; [done|].
  destruct (sb_close log id) as [[]|e]; [split; [done | by intros (? & ? & ?)]|].
  split.
  - intros Hr. exists e. split; [done|]. destruct e as [name msg|msg|msg|msg| | | |msg]; simpl in Hr; try done; eauto.
    destruct (_ || _) eqn:Hn; [left; eauto | done].
  - intros (e' & [= <-] & [(name & msg & -> & Hn)|[[msg ->]|[msg ->]]]); simpl; try done. unfold classify. by rewrite Hn.
Qed.

(** Dismissals are reported exactly when the close signal is held. *)
Lemma connect_reports log s log' : DbusSink_connect log = (Some s, log') ->
  sc_dismiss_reporting (ds_capabilities s) = ds_closed_rx s.
Proof.
  unfold DbusSink_connect. destruct sb_connect; [|done]. destruct (sb_proxy _ _); [|done].
  destruct (sb_server_information _) as [[[[? ?] ?] ?]|]; [|done]. destruct (spawn_signal_pumps _) as [[? ?] ?]. by intros [= <- _].
Qed.
End Dbus.

(** * logind *)

Section Locks.
Context `{!Logind}.

(** The session a lock was found for, in the order of [resolve_session]. *)
Lemma display_session_spec env log path log' : display_session env log = (Some path, log') ->
  exists user id, lg_get_user log (users_uid env) = Ok user /\ id <> [] /\
    lg_display (log ++ [GetUser (users_uid env)]) user = Ok (id, path).
Proof.
  unfold display_session. destruct (lg_get_user _ _) as [user|]; [|done]. destruct (lg_proxy _ _ _); [|done].
  destruct (lg_display _ _) as [[id path']|] eqn:Hd; [|done]. unfold eqb. case_bool_decide; [done|]. intros [= <- _]. eauto.
Qed.

(** The graphical session is taken whenever logind names one. *)
Lemma resolve_prefers_display env log path log1 : lg_proxy log MANAGER_PATH MANAGER_IFACE = Ok tt ->
  display_session env log = (Some path, log1) -> resolve_session env log = (Some path, log1).
Proof. intros Hp Hd. unfold resolve_session. by rewrite Hp, Hd. Qed.

Lemma read_unlocked path log log' : read_locked_hint path log = (false, log') ->
  lg_locked_hint log path = Ok false /\ log' = log ++ [GetLockedHint path].
Proof.
  unfold read_locked_hint. destruct (lg_proxy _ _ _); [|done].
  destruct (lg_locked_hint log path) as [[]|]; intros [= <-]; done.
Qed.

(** The pump says unlocked only if the message or logind does. *)
Lemma pump_unlocked path body log log' : pump_message path body log = (Some false, log') ->
  exists msg, body = Some msg /\ pm_iface msg = SESSION_IFACE /\
    (pm_changed msg !! LOCKED_HINT = Some (VBool false) \/
     (pm_changed msg !! LOCKED_HINT = None /\ LOCKED_HINT ∈ pm_invalidated msg /\ lg_locked_hint log path = Ok false)).
Proof.
  unfold pump_message. destruct body as [msg|]; [|done]. unfold eqb. case_bool_decide as Hi; [|done]. cbn [negb].
  destruct (pm_changed msg !! LOCKED_HINT) as [[b|]|] eqn:Hc; [intros [= -> _]; eauto 10 | done|].
  destruct (mem LOCKED_HINT (pm_invalidated msg)) eqn:Hm; [|done]. cbn [negb].
  destruct (read_locked_hint path log) as [b log1] eqn:Hr. intros [= -> ->]. apply read_unlocked in Hr as [Hr _].
  exists msg. split_and!; try done. right. split_and!; try done. by apply mem_true.
Qed.

(** ** The manager on this lock *)

Context `{!Prost NotificationControl} (caps : SinkCapabilities) (available locked : bool).

(** What happens to the manager, and its workers' questions to the lock. *)
Inductive LkEvent := LkEv (ev : NEvent) | LkAsk (peer : Fingerprint).

Record LkState := { lk_events : list NEvent; lk_lock : DesktopLock; lk_calls : list LogindCall }.

Definition answers_lock (ev : NEvent) : bool :=
  match ev with EvWorker _ (RLocked _) => true | _ => false end.

Definition lk_step (s : LkState) (e : LkEvent) : LkState :=
  match e with
  | LkEv ev =>
      if answers_lock ev then s
      else {| lk_events := lk_events s ++ [ev]; lk_lock := lk_lock s; lk_calls := lk_calls s |}
  | LkAsk p =>
      let '(b, (l, calls)) := is_locked (lk_lock s) (lk_calls s) in
      {| lk_events := lk_events s ++ [EvWorker p (RLocked b)]; lk_lock := l; lk_calls := calls |}
  end.
Definition lk_run (s : LkState) (evs : list LkEvent) : LkState := foldl lk_step s evs.

(** The manager after the events of [s]. *)
Definition manager (s : LkState) : Notif := after caps available locked (lk_events s).

(** The daemon's start. *)
Definition lk_start (env : ProcessEnv) (calls : list LogindCall) : LkState :=
  let '(l, calls') := compose_lock env calls in {| lk_events := []; lk_lock := l; lk_calls := calls' |}.

Lemma lk_run_snoc s evs e : lk_run s (evs ++ [e]) = lk_step (lk_run s evs) e.
Proof. unfold lk_run. by rewrite foldl_app. Qed.

(** Every answer a worker was given is the lock's, at that moment. *)
Lemma lk_trace s0 evs pre p b post : lk_events s0 = [] ->
  lk_events (lk_run s0 evs) = pre ++ EvWorker p (RLocked b) :: post ->
  exists before later, evs = before ++ LkAsk p :: later /\ lk_events (lk_run s0 before) = pre /\
    (is_locked (lk_lock (lk_run s0 before)) (lk_calls (lk_run s0 before))).1 = b.
Proof.
  intros H0. revert post. induction evs as [|e evs IH] using rev_ind; intros post.
  { cbn. rewrite H0. by destruct pre. }
  assert (Hold : forall post', lk_events (lk_run s0 evs) = pre ++ EvWorker p (RLocked b) :: post' ->
    exists before later, evs ++ [e] = before ++ LkAsk p :: later /\ lk_events (lk_run s0 before) = pre /\
      (is_locked (lk_lock (lk_run s0 before)) (lk_calls (lk_run s0 before))).1 = b).
  { intros post' (before & later & -> & H1 & H2)%IH. exists before, (later ++ [e]). by rewrite <- app_assoc. }
  rewrite lk_run_snoc. destruct e as [ev|q]; cbn [lk_step].
  - destruct (answers_lock ev) eqn:Ha; [apply Hold|]. cbn [lk_events].
    destruct post as [|x post _] using rev_ind; intros Heq.
    + apply app_inj_tail in Heq as [_ ->]. done.
    + rewrite app_comm_cons, app_assoc in Heq. apply app_inj_tail in Heq as [Heq _]. by apply (Hold post).
  - destruct (is_locked _ _) as [b' [l calls]] eqn:Hl. cbn [lk_events].
    destruct post as [|x post _] using rev_ind; intros Heq.
    + apply app_inj_tail in Heq as [Heq [= <- <-]]. exists evs, []. by rewrite Hl.
    + rewrite app_comm_cons, app_assoc in Heq. apply app_inj_tail in Heq as [Heq _]. by apply (Hold post).
Qed.

(** The session does not change. *)
Definition session_of (l : DesktopLock) : option str :=
  match l with WithLogind l => Some (ll_session_path l) | WithoutLogind => None end.

Lemma lk_session s evs : session_of (lk_lock (lk_run s evs)) = session_of (lk_lock s).
Proof.
  induction evs as [|e evs IH] using rev_ind; [done|]. rewrite lk_run_snoc, <- IH.
  destruct e as [ev|q]; cbn [lk_step]; [by destruct (answers_lock ev)|].
  destruct (lk_lock (lk_run s evs)) as [l|]; cbn; [|done]. unfold logind_is_locked.
  by destruct (read_locked_hint _ _).
Qed.

Lemma unlocked_session l calls : (is_locked l calls).1 = false ->
  exists path, session_of l = Some path /\ lg_locked_hint calls path = Ok false.
Proof.
  destruct l as [l|]; [|done]. cbn. unfold logind_is_locked.
  destruct (read_locked_hint (ll_session_path l) calls) as [b calls'] eqn:Hr. cbn. intros ->.
  apply read_unlocked in Hr as [Hr _]. eauto.
Qed.

End Locks.
