(* ===== verification/NotifyBusRuns.v ===== *)
(** The desktop's buses, run.

    logind on a machine with a graphical and an ssh session; a notification that
    comes in with the screen unlocked, locked, and with a bus that does not
    answer; the notification server's errors. *)
From S2P Require Import Prelude External Ids Capability Policy Utf8 Panel NotifyContract NotifyText NotifyQueue NotifyMirror Notifications NotifyFacts NotifyLive NotifyRuns NotifyBus NotifyBusFacts.

#[local] Existing Instance notif_codec.

Definition graphical : str := lit "/org/freedesktop/login1/session/_32".
Definition ssh : str := lit "/org/freedesktop/login1/session/_33".

(** [hint] is what the graphical session's [LockedHint] answers; the other one
    never locks. *)
Definition logind (hint : result ZError bool) : Logind := {|
  lg_connect := true;
  lg_proxy _ _ _ := Ok tt;
  lg_get_user _ uid := if uid =? 1000 then Ok (lit "/org/freedesktop/login1/user/_1000") else Err InvalidReply;
  lg_display _ _ := Ok (lit "2", graphical);
  lg_session_by_pid _ _ := Ok ssh;
  lg_get_session _ _ := Ok ssh;
  lg_locked_hint _ path := if eqb path graphical then hint else Ok false;
  lg_subscribe _ _ := Ok tt |}.

Definition me : ProcessEnv := {|
  pe_status := Some (lit "Name:" ++ [9] ++ lit "pliweed" ++ [10] ++ lit "Uid:" ++ [9] ++ lit "1000" ++ [9] ++ lit "1000" ++ [10]);
  pe_pid := 4242; pe_session_id := None |}.

(** The screen that counts is the graphical one, although this process belongs to
    the other session; without a uid it would not be found. *)
Example graphical_session_found :
  users_uid me = 1000 /\
  (@resolve_session (logind (Ok true)) me []).1 = Some graphical /\
  (@resolve_session (logind (Ok true)) {| pe_status := None; pe_pid := 4242; pe_session_id := None |} []).1 = Some ssh.
Proof. vm_compute. split_and!; reflexivity. Qed.

Definition arrives (b : byte) (title : str) : list LkEvent :=
  LkEv <$> [EvMessage phone (upsert b title); EvWorker phone RNone; EvWorker phone RNone].
Definition lk_shown : list LkEvent :=
  (LkEv <$> start) ++ arrives x01 (lit "hello") ++ [LkAsk phone; LkEv (EvWorker phone (RDisplay (Ok 7)))].

Definition bodies (hint : result ZError bool) : list str :=
  omap (fun e => match e with LDisplay _ mi _ => Some (mi_body mi) | _ => None end)
    (nt_log (manager gnome true false (@lk_run (logind hint) (@lk_start (logind hint) me []) lk_shown))).

(** In full; by name only; and by name only when logind does not answer. *)
Example shown_by_lock_state :
  bodies (Ok false) = [lit "text"] /\ bodies (Ok true) = [[]] /\ bodies (Err (InputOutput (lit "broken pipe"))) = [[]].
Proof. vm_compute. split_and!; reflexivity. Qed.


(** ** Signals *)

Definition changed (v : option PropValue) (invalidated : list str) : option PropertiesChanged := Some {|
  pm_iface := SESSION_IFACE; pm_changed := match v with Some v => {[LOCKED_HINT := v]} | None => ∅ end;
  pm_invalidated := invalidated |}.

Example pump_examples :
  let pump body := (@pump_message (logind (Err InvalidReply)) graphical body []).1 in
  pump (changed (Some (VBool false)) []) = Some false /\ pump (changed (Some VOther) []) = Some true /\
  pump (changed None [LOCKED_HINT]) = Some true /\ pump (changed None []) = None /\ pump None = None.
Proof. vm_compute. split_and!; reflexivity. Qed.

(** ** The server's errors *)

(** The message of the server stays with it; a server that is gone is told from
    one that refuses.  A call the bus gave up on arrives as a method error of its
    own and counts as refused, so a close that timed out is reported done. *)
Example errors_classified :
  classify (MethodError (lit "org.freedesktop.DBus.Error.ServiceUnknown") (Some (lit "secret"))) =
    Sink.Unavailable (lit "method-error:org.freedesktop.DBus.Error.ServiceUnknown") /\
  classify (MethodError (lit "org.freedesktop.DBus.Error.NoReply") None) =
    Sink.Failed (lit "method-error:org.freedesktop.DBus.Error.NoReply") /\
  classify (InputOutput (lit "secret")) = Sink.Unavailable (lit "io").
Proof. vm_compute. split_and!; reflexivity. Qed.

Definition silent : SessionBus := {|
  sb_connect := Ok tt; sb_proxy _ _ := Ok tt; sb_server_information _ := Err InvalidReply; sb_capabilities _ := Ok [];
  sb_notify _ _ := Err InvalidReply;
  sb_close _ _ := Err (MethodError (lit "org.freedesktop.DBus.Error.NoReply") None);
  sb_subscribe _ _ := Ok tt |}.

Example unanswered_close_is_ok : (@dbus_close silent 7 []).1 = Ok tt.
Proof. vm_compute. reflexivity. Qed.
