(* ===== verification/Tray.v ===== *)
(** The tray item and the desktop application behind it.

    [platform-linux/src/tray]: the identity, the menu and the closed set of
    actions ([model.rs]), the menu on the bus ([menu.rs]), the item
    ([item.rs]), the call that presents a window ([activate.rs]), publishing
    ([mod.rs]) and following the shell ([watcher.rs]); [activation.rs], which
    makes the application activatable in a running session, and
    [systemd_transition.rs].

    The bus and the programs on it answer each call given the calls made
    before it; nothing is assumed of them.  A spawned task is a pending entry
    of the state until it is run, and tasks run in any order. *)
From S2P Require Import Prelude External Utf8 NotifyBus MigrateFs Migration.

(** * [model.rs] *)

Definition DESKTOP_APP_ID : str := lit "io.github.yurisismotto.pliwee".
Definition DESKTOP_APP_OBJECT_PATH : str := lit "/io/github/yurisismotto/pliwee".
Definition ICON_NAME : str := DESKTOP_APP_ID.
Definition ITEM_ID : str := DESKTOP_APP_ID.
Definition ITEM_TITLE : str := lit "Pliwee".
Definition ITEM_CATEGORY : str := lit "ApplicationStatus".
Definition ITEM_STATUS : str := lit "Active".
Definition TOOLTIP_TITLE : str := lit "Pliwee".
Definition TOOLTIP_BODY : str := lit "One flow. Any device.".

Inductive TrayAction := TQuickPanel | TFiles | TSettings.
#[export] Instance TrayAction_eq_dec : EqDecision TrayAction.
Proof. solve_decision. Defined.

Definition TrayAction_ALL : list TrayAction := [TQuickPanel; TFiles; TSettings].

Definition gapplication_action (a : TrayAction) : str :=
  match a with TQuickPanel => lit "quick-panel" | TFiles => lit "transfers" | TSettings => lit "settings" end.

Definition primary_activation : TrayAction := TQuickPanel.

Definition MENU_ROOT_ID : Z := 0.

Record MenuEntry := { me_id : Z; me_label : str; me_action : TrayAction }.

Definition MENU : list MenuEntry := [
  {| me_id := 1; me_label := lit "Quick Panel"; me_action := TQuickPanel |};
  {| me_id := 2; me_label := lit "Files"; me_action := TFiles |};
  {| me_id := 3; me_label := lit "Settings"; me_action := TSettings |} ].

Definition entry_for_menu_id (id : Z) : option MenuEntry := find_b (fun e => (me_id e =? id)%Z) MENU.

Definition action_for_menu_id (id : Z) : option TrayAction :=
  me_action <$> find_b (fun e => (me_id e =? id)%Z) MENU.

Definition ACTIVATION_EVENT : str := lit "clicked".

Definition action_for_menu_event (id : Z) (event : str) : option TrayAction :=
  if negb (eqb event ACTIVATION_EVENT) then None else action_for_menu_id id.

(** * [activate.rs] *)

(** [char::is_ascii_graphic]. *)
Definition is_ascii_graphic (c : N) : bool := in_range 33 126 c.

Definition usable_token (token : str) : bool :=
  negb (eqb token []) && (str_len token <=? 512)
  && forallb (fun c => is_ascii_graphic c || (c =? 32) || (c =? 45) || (c =? 95)) token.

Definition describe_bus_error (e : ZError) : str :=
  match e with
  | MethodError name _ => name
  | NameTaken => lit "name taken"
  | InterfaceNotFound => lit "interface not found"
  | InputOutput _ => lit "i/o error"
  | Address _ => lit "no usable bus address"
  | _ => lit "bus error"
  end.

(** The values that are put on the bus. *)
Inductive Value := VStr (s : str) | VBool (b : bool).

(** The calls of the tray, each with its destination, path and interface where
    a proxy carries them. *)
Inductive TrayCall :=
| ActivateAction (dest path iface action : str) (parameter : list Value) (platform : gmap str Value)
| ServeAt (path : str)
| RequestName (name : str)
| SubscribeOwner (name : str)
| GetNameOwner (name : str)
| RegisterStatusNotifierItem (item : str).

Class TrayBus := {
  tb_session : result ZError unit;
  tb_proxy : list TrayCall -> str -> result ZError unit;
  tb_call : list TrayCall -> TrayCall -> result ZError unit
}.

Inductive ActivationError := ActivationFailed (why : str).

Definition APPLICATION_IFACE : str := lit "org.freedesktop.Application".

Definition platform_data (activation_token : option str) : gmap str Value :=
  match activation_token with
  | Some token => if usable_token token then <[lit "activation-token" := VStr token]> ∅ else ∅
  | None => ∅
  end.

Definition activation_call (action : TrayAction) (activation_token : option str) : TrayCall :=
  ActivateAction DESKTOP_APP_ID DESKTOP_APP_OBJECT_PATH APPLICATION_IFACE (gapplication_action action) []
    (platform_data activation_token).

Definition DbusActivator_activate `{!TrayBus} (action : TrayAction) (activation_token : option str) (log : list TrayCall)
    : result ActivationError unit * list TrayCall :=
  match tb_proxy log DESKTOP_APP_ID with
  | Err e => (Err (ActivationFailed (describe_bus_error e)), log)
  | Ok _ =>
      let call := activation_call action activation_token in
      (map_err (fun e => ActivationFailed (describe_bus_error e)) (tb_call log call), log ++ [call])
  end.

(** * [menu.rs] *)

Definition LAYOUT_REVISION : N := 1.

Definition root_properties : gmap str Value := <[lit "children-display" := VStr (lit "submenu")]> ∅.

Definition entry_properties (e : MenuEntry) : gmap str Value :=
  <[lit "visible" := VBool true]> (<[lit "enabled" := VBool true]> (<[lit "label" := VStr (me_label e)]> ∅)).

Definition filtered (props : gmap str Value) (wanted : list str) : gmap str Value :=
  match wanted with
  | [] => props
  | _ => filter (fun kv => existsb (fun w => eqb w kv.1) wanted = true) props
  end.

(** [LayoutItem]: a row, or the root with the rows below it. *)
Record LayoutRow := { lr_id : Z; lr_properties : gmap str Value }.
Record LayoutItem := { li_id : Z; li_properties : gmap str Value; li_children : list LayoutRow }.

Definition leaf_row (e : MenuEntry) (wanted : list str) : LayoutRow :=
  {| lr_id := me_id e; lr_properties := filtered (entry_properties e) wanted |}.

Definition leaf (e : MenuEntry) (wanted : list str) : LayoutItem :=
  {| li_id := me_id e; li_properties := filtered (entry_properties e) wanted; li_children := [] |}.

Definition menu_root (recursion_depth : Z) (wanted : list str) : LayoutItem :=
  {| li_id := MENU_ROOT_ID; li_properties := filtered root_properties wanted;
     li_children := if (recursion_depth =? 0)%Z then [] else (fun e => leaf_row e wanted) <$> MENU |}.

(** [zbus::fdo::Error::InvalidArgs], the one error answered. *)
Inductive InvalidArgs := TInvalidArgs (why : str).

Definition no_such_item : InvalidArgs := TInvalidArgs (lit "no such menu item").

Definition get_layout (parent_id recursion_depth : Z) (property_names : list str) : result InvalidArgs (N * LayoutItem) :=
  if (parent_id =? MENU_ROOT_ID)%Z then Ok (LAYOUT_REVISION, menu_root recursion_depth property_names)
  else match entry_for_menu_id parent_id with
       | Some e => Ok (LAYOUT_REVISION, leaf e property_names)
       | None => Err no_such_item
       end.

Definition get_group_properties (ids : list Z) (property_names : list str) : list (Z * gmap str Value) :=
  let asked id := match ids with [] => true | _ => mem id ids end in
  (if asked MENU_ROOT_ID then [(MENU_ROOT_ID, filtered root_properties property_names)] else [])
  ++ ((fun e => (me_id e, filtered (entry_properties e) property_names)) <$> filter (fun e => asked (me_id e) = true) MENU).

Definition get_property (id : Z) (name : str) : result InvalidArgs Value :=
  props ← (if (id =? MENU_ROOT_ID)%Z then Ok root_properties
           else match entry_for_menu_id id with
                | Some e => Ok (entry_properties e)
                | None => Err no_such_item
                end);
  ok_or (TInvalidArgs (lit "no such property")) (props !! name).

Definition about_to_show (id : Z) : bool := false.
Definition menu_version : N := 3.
Definition menu_status : str := lit "normal".

(** * [item.rs] *)

Definition ITEM_OBJECT_PATH : str := lit "/StatusNotifierItem".
Definition MENU_OBJECT_PATH : str := lit "/MenuBar".

(** The properties, by their name on the bus; the pixmaps are the empty
    array. *)
Inductive ItemValue := IVStr (s : str) | IVInt (n : Z) | IVBool (b : bool) | IVPath (p : str) | IVNoPixmaps
| IVToolTip (icon title body : str).

Definition item_properties : list (str * ItemValue) := [
  (lit "Category", IVStr ITEM_CATEGORY); (lit "Id", IVStr ITEM_ID); (lit "Title", IVStr ITEM_TITLE);
  (lit "Status", IVStr ITEM_STATUS); (lit "WindowId", IVInt 0); (lit "IconName", IVStr ICON_NAME);
  (lit "IconPixmap", IVNoPixmaps); (lit "OverlayIconName", IVStr []); (lit "OverlayIconPixmap", IVNoPixmaps);
  (lit "AttentionIconName", IVStr []); (lit "AttentionIconPixmap", IVNoPixmaps); (lit "AttentionMovieName", IVStr []);
  (lit "IconThemePath", IVStr []); (lit "Menu", IVPath MENU_OBJECT_PATH); (lit "ItemIsMenu", IVBool false);
  (lit "ToolTip", IVToolTip [] TOOLTIP_TITLE TOOLTIP_BODY) ].

(** The item's slot, the spawned tasks that have not run and the calls made. *)
Record TrayState := {
  ts_token : option str;
  ts_pending : list (TrayAction * option str);
  ts_log : list TrayCall
}.

Definition StatusNotifierItem_new : TrayState := {| ts_token := None; ts_pending := []; ts_log := [] |}.

(** [StatusNotifierItem::dispatch]: the token is taken, the task spawned. *)
Definition item_dispatch (action : TrayAction) (s : TrayState) : TrayState :=
  {| ts_token := None; ts_pending := ts_pending s ++ [(action, ts_token s)]; ts_log := ts_log s |}.

(** [TrayMenu::dispatch]. *)
Definition menu_dispatch (action : TrayAction) (s : TrayState) : TrayState :=
  {| ts_token := ts_token s; ts_pending := ts_pending s ++ [(action, None)]; ts_log := ts_log s |}.

Definition provide_xdg_activation_token (token : str) (s : TrayState) : TrayState :=
  {| ts_token := Some token; ts_pending := ts_pending s; ts_log := ts_log s |}.

Definition item_activate (x y : Z) (s : TrayState) : TrayState := item_dispatch primary_activation s.
Definition secondary_activate (x y : Z) (s : TrayState) : TrayState := s.
Definition context_menu (x y : Z) (s : TrayState) : TrayState := s.
Definition scroll (delta : Z) (orientation : str) (s : TrayState) : TrayState := s.

Definition menu_event (id : Z) (event_id : str) (data : Value) (timestamp : N) (s : TrayState) : TrayState :=
  match action_for_menu_event id event_id with Some action => menu_dispatch action s | None => s end.

(** A message of the shell, or the turn of the [n]-th spawned task. *)
Inductive TrayEvent :=
| ProvideXdgActivationToken (token : str)
| Activate (x y : Z)
| SecondaryActivate (x y : Z)
| ContextMenu (x y : Z)
| Scroll (delta : Z) (orientation : str)
| MenuEvent (id : Z) (event_id : str) (data : Value) (timestamp : N)
| AboutToShow (id : Z)
| GetLayout (parent_id recursion_depth : Z) (property_names : list str)
| GetGroupProperties (ids : list Z) (property_names : list str)
| GetProperty (id : Z) (name : str)
| RunTask (n : nat).

Definition tray_step `{!TrayBus} (s : TrayState) (ev : TrayEvent) : TrayState :=
  match ev with
  | ProvideXdgActivationToken t => provide_xdg_activation_token t s
  | Activate x y => item_activate x y s
  | SecondaryActivate x y => secondary_activate x y s
  | ContextMenu x y => context_menu x y s
  | Scroll d o => scroll d o s
  | MenuEvent id e d t => menu_event id e d t s
  | AboutToShow _ | GetLayout _ _ _ | GetGroupProperties _ _ | GetProperty _ _ => s
  | RunTask n =>
      match ts_pending s !! n with
      | Some (action, token) =>
          {| ts_token := ts_token s; ts_pending := delete n (ts_pending s);
             ts_log := (DbusActivator_activate action token (ts_log s)).2 |}
      | None => s
      end
  end.

Definition tray_run `{!TrayBus} (evs : list TrayEvent) : TrayState := foldl tray_step StatusNotifierItem_new evs.

(** * [watcher.rs] *)

Definition WATCHER_BUS_NAME : str := lit "org.kde.StatusNotifierWatcher".

Definition register_item `{!TrayBus} (item_bus_name : str) (log : list TrayCall) : bool * list TrayCall :=
  match tb_proxy log WATCHER_BUS_NAME with
  | Err _ => (false, log)
  | Ok _ => (is_ok (tb_call log (RegisterStatusNotifierItem item_bus_name)), log ++ [RegisterStatusNotifierItem item_bus_name])
  end.

(** One message of the stream: none when its arguments cannot be read,
    otherwise the new owner. *)
Abbreviation OwnerChange := (option (option str)).

Definition on_owner_change `{!TrayBus} (item_bus_name : str) (st : option str * list TrayCall) (change : OwnerChange)
    : option str * list TrayCall :=
  let '(registered_with, log) := st in
  match change with
  | None => st
  | Some (Some owner) =>
      if eqb registered_with (Some owner) then st
      else let '(ok, log1) := register_item item_bus_name log in
           (if ok then Some owner else registered_with, log1)
  | Some None => (None, log)
  end.

(** The first look: [owner] is the answer of [get_name_owner]. *)
Definition first_look `{!TrayBus} (item_bus_name : str) (owner : result ZError str) (log : list TrayCall)
    : option str * list TrayCall :=
  match owner with
  | Ok owner => let '(ok, log1) := register_item item_bus_name log in (if ok then Some owner else None, log1)
  | Err _ => (None, log)
  end.

(** [follow]: [owner] answers the question of the first look, [changes] is the
    stream until it ends. *)
Definition follow `{!TrayBus} (item_bus_name : str) (owner : result ZError str) (changes : list OwnerChange)
    (log : list TrayCall) : result ZError (option str) * list TrayCall :=
  match tb_proxy log (lit "org.freedesktop.DBus") with
  | Err e => (Err e, log)
  | Ok _ =>
      let log1 := log ++ [SubscribeOwner WATCHER_BUS_NAME] in
      match tb_call log (SubscribeOwner WATCHER_BUS_NAME) with
      | Err e => (Err e, log1)
      | Ok _ =>
          let '(registered_with, log2) :=
            foldl (on_owner_change item_bus_name)
              (first_look item_bus_name owner (log1 ++ [GetNameOwner WATCHER_BUS_NAME])) changes in
          (Ok registered_with, log2)
      end
  end.

(** * [mod.rs] *)

Inductive TrayError := TNoSessionBus (why : str) | TPublish (why : str).

Definition TrayError_fmt (e : TrayError) : str :=
  match e with
  | TNoSessionBus why => lit "no session bus (" ++ why ++ lit ")"
  | TPublish why => lit "could not publish the tray item (" ++ why ++ lit ")"
  end.

(** [ITEM_SEQUENCE] is a wrapping counter. *)
Definition item_bus_name (pid sequence : N) : str :=
  lit "org.kde.StatusNotifierItem-" ++ u32_to_string pid ++ lit "-" ++ u32_to_string ((sequence + 1) mod (u32_max + 1)).

Definition tray_call `{!TrayBus} (call : TrayCall) (log : list TrayCall) : result TrayError unit * list TrayCall :=
  (map_err (fun e => TPublish (describe_bus_error e)) (tb_call log call), log ++ [call]).

Definition publish_item `{!TrayBus} (pid sequence : N) (log : list TrayCall) : result TrayError str * list TrayCall :=
  let bus_name := item_bus_name pid sequence in
  match tray_call (ServeAt ITEM_OBJECT_PATH) log with
  | (Err e, log1) => (Err e, log1)
  | (Ok _, log1) =>
      match tray_call (ServeAt MENU_OBJECT_PATH) log1 with
      | (Err e, log2) => (Err e, log2)
      | (Ok _, log2) =>
          match tray_call (RequestName bus_name) log2 with
          | (Err e, log3) => (Err e, log3)
          | (Ok _, log3) => (Ok bus_name, log3)
          end
      end
  end.

(** [run] with the production activator. *)
Definition tray_main `{!TrayBus} (pid sequence : N) (owner : result ZError str) (changes : list OwnerChange)
    : result TrayError unit * list TrayCall :=
  match tb_session with
  | Err e => (Err (TNoSessionBus (describe_bus_error e)), [])
  | Ok _ =>
      match publish_item pid sequence [] with
      | (Err e, log) => (Err e, log)
      | (Ok bus_name, log) =>
          let '(r, log1) := follow bus_name owner changes log in
          (_ ← map_err (fun e => TPublish (describe_bus_error e)) r; Ok tt, log1)
      end
  end.

(** * [activation.rs] *)

Inductive Unavailable := UNoSessionBus (why : str) | ListFailed (why : str) | ReloadFailed (why : str) | RecheckFailed (why : str).
Inductive Activation := AlreadyActivatable | HealedByReload | StillMissing | ActUnavailable (why : Unavailable).

Definition Unavailable_fmt (u : Unavailable) : str :=
  match u with
  | UNoSessionBus why => lit "no session bus (" ++ why ++ lit ")"
  | ListFailed why => lit "ListActivatableNames failed (" ++ why ++ lit ")"
  | ReloadFailed why => lit "ReloadConfig failed (" ++ why ++ lit ")"
  | RecheckFailed why => lit "the re-query failed (" ++ why ++ lit ")"
  end.

Definition Activation_fmt (a : Activation) : str :=
  match a with
  | AlreadyActivatable => lit "already activatable"
  | HealedByReload => lit "activatable after one ReloadConfig"
  | StillMissing => lit "not activatable after one ReloadConfig"
  | ActUnavailable why => Unavailable_fmt why
  end.

(** The trait's two calls, over the state of the bus. *)
Class SessionBusControl (W : Type) := {
  list_activatable_names : W -> result str (list str) * W;
  reload_config : W -> result str unit * W
}.

Definition ensure_activatable `{!SessionBusControl W} (name : str) (w : W) : Activation * W :=
  match list_activatable_names w with
  | (Err why, w1) => (ActUnavailable (ListFailed why), w1)
  | (Ok names, w1) =>
      if existsb (fun n => eqb n name) names then (AlreadyActivatable, w1)
      else match reload_config w1 with
           | (Err why, w2) => (ActUnavailable (ReloadFailed why), w2)
           | (Ok _, w2) =>
               match list_activatable_names w2 with
               | (Ok names, w3) => if existsb (fun n => eqb n name) names then (HealedByReload, w3) else (StillMissing, w3)
               | (Err why, w3) => (ActUnavailable (RecheckFailed why), w3)
               end
           end
  end.

(** [zbus::fdo::Error], the variants told apart. *)
Inductive FdoError :=
| FZBus (e : ZError)
| FAccessDenied (message : str)
| FServiceUnknown (message : str)
| FNotSupported (message : str)
| FFailed (message : str)
| FOther (message : str).

Definition describe_fdo_error (e : FdoError) : str :=
  match e with
  | FZBus e => describe_bus_error e
  | FAccessDenied _ => lit "org.freedesktop.DBus.Error.AccessDenied"
  | FServiceUnknown _ => lit "org.freedesktop.DBus.Error.ServiceUnknown"
  | FNotSupported _ => lit "org.freedesktop.DBus.Error.NotSupported"
  | FFailed _ => lit "org.freedesktop.DBus.Error.Failed"
  | FOther _ => lit "bus error"
  end.

(** The session bus answers each of the two calls given those before it. *)
Inductive ControlCall := ListActivatableNames | ReloadConfig.
#[export] Instance ControlCall_eq_dec : EqDecision ControlCall.
Proof. solve_decision. Defined.

Class ControlBus := {
  cb_connect : result ZError unit;
  cb_proxy : result ZError unit;
  cb_list : list ControlCall -> result FdoError (list str);
  cb_reload : list ControlCall -> result FdoError unit
}.

#[export] Instance session_bus `{!ControlBus} : SessionBusControl (list ControlCall) := {|
  list_activatable_names log := (map_err describe_fdo_error (cb_list log), log ++ [ListActivatableNames]);
  reload_config log := (map_err describe_fdo_error (cb_reload log), log ++ [ReloadConfig]) |}.

Definition SessionBus_on `{!ControlBus} : result Unavailable unit :=
  map_err (fun e => UNoSessionBus (describe_bus_error e)) cb_proxy.

Definition SessionBus_connect `{!ControlBus} : result Unavailable unit :=
  _ ← map_err (fun e => UNoSessionBus (describe_bus_error e)) cb_connect; SessionBus_on.

Definition self_heal_on `{!ControlBus} : Activation * list ControlCall :=
  match SessionBus_on with
  | Ok _ => ensure_activatable DESKTOP_APP_ID []
  | Err why => (ActUnavailable why, [])
  end.

Definition self_heal_desktop_activation `{!ControlBus} : Activation * list ControlCall :=
  match SessionBus_connect with
  | Ok _ => ensure_activatable DESKTOP_APP_ID []
  | Err why => (ActUnavailable why, [])
  end.

(** * [systemd_transition.rs] *)

Definition LEGACY_UNIT : str := lit "omnibridged.service".
Definition UNIT : str := lit "pliweed.service".

Inductive Enablement := Canonical | LegacyOnly (link : str) | Both (link : str).

Definition wants_dir (xdg_config_home home : option str) : str :=
  path_join (xdg_base xdg_config_home home (lit ".config")) (lit "systemd/user/default.target.wants").

(** [present p]: the metadata of [p] itself, not of what it links to, can be
    read. *)
Definition classify_links (present : str -> bool) (dir : str) : Enablement :=
  let legacy := path_join dir LEGACY_UNIT in
  let has_legacy := present legacy in
  let has_canonical := present (path_join dir UNIT) in
  match has_legacy, has_canonical with
  | true, false => LegacyOnly legacy
  | true, true => Both legacy
  | false, _ => Canonical
  end.
