(* ===== verification/TrayFacts.v ===== *)
(** What the tray can ask for, and how it stays registered.

    Whatever the shell sends, the calls to the desktop application are those
    of the clicks, each made at most once and with nothing of a message in
    them but an activation token; the item ends up registered with the shell
    that runs, whatever order shells start and stop in; the self-heal reloads
    the bus at most once and says what it found. *)
From S2P Require Import Prelude External Utf8 NotifyBus NotifyBusFacts MigrateFs Migration Tray.

(** * Clicks *)

(** The specification: what the messages ask for.  [slot] is the token offered
    since the last click on the icon. *)
Definition chosen (id : Z) (event : str) : option TrayAction :=
  if eqb event (lit "clicked") then
    match id with 1%Z => Some TQuickPanel | 2%Z => Some TFiles | 3%Z => Some TSettings | _ => None end
  else None.

Fixpoint decisions (slot : option str) (evs : list TrayEvent) : list (TrayAction * option str) :=
  match evs with
  | [] => []
  | ProvideXdgActivationToken t :: r => decisions (Some t) r
  | Activate _ _ :: r => (TQuickPanel, slot) :: decisions None r
  | MenuEvent id e _ _ :: r => match chosen id e with Some a => [(a, None)] | None => [] end ++ decisions slot r
  | _ :: r => decisions slot r
  end.

(** The tokens the shell offered, and the one a call carries. *)
Definition offered (ev : TrayEvent) : option str :=
  match ev with ProvideXdgActivationToken t => Some t | _ => None end.
Definition forwarded (c : TrayCall) : option str :=
  match c with
  | ActivateAction _ _ _ _ _ p => match p !! lit "activation-token" with Some (VStr t) => Some t | _ => None end
  | _ => None
  end.

Lemma menu_event_chosen id e : action_for_menu_event id e = chosen id e.
Proof.
  unfold action_for_menu_event, chosen, action_for_menu_id, ACTIVATION_EVENT, find_b.
  destruct (eqb e (lit "clicked")); [|done]. simpl.
  destruct id as [|[[]|[]|]|]; done.
Qed.

Lemma forwarded_call a t : forwarded (activation_call a t) = (t' ← t; if usable_token t' then Some t' else None).
Proof.
  unfold forwarded, activation_call, platform_data. destruct t as [t|]; simpl; [|by rewrite lookup_empty].
  destruct (usable_token t); [by rewrite lookup_insert_eq|by rewrite lookup_empty].
Qed.

Lemma forwarded_calls (ds : list (TrayAction * option str)) :
  omap forwarded (uncurry activation_call <$> ds) `sublist_of` omap snd ds.
Proof.
  induction ds as [|[a t] ds IH]; [done|]. cbn [fmap list_fmap omap list_omap uncurry snd].
  rewrite forwarded_call. destruct t as [t|]; simpl; [|done].
  destruct (usable_token t); [by apply sublist_skip|by apply sublist_cons].
Qed.

(** Each offered token goes with at most one decision. *)
Lemma decided_tokens slot evs : omap snd (decisions slot evs) `sublist_of` option_list slot ++ omap offered evs.
Proof.
  revert slot. induction evs as [|ev evs IH]; intros slot; [by apply sublist_nil_l|].
  destruct ev as [t|x y|x y|x y|d o|id e d t|id|id d l|ids l|id n|n]; cbn [decisions omap list_omap offered]; try apply IH.
  - etrans; [apply IH|]. simpl. apply sublist_inserts_l. done.
  - simpl. destruct slot as [t|]; simpl; [apply sublist_skip|]; apply (IH None).
  - destruct (chosen id e) as [a|]; simpl; apply IH.
Qed.

Lemma omap_submseteq {A B} (f : A -> option B) (l k : list A) : l ⊆+ k -> omap f l ⊆+ omap f k.
Proof.
  induction 1 as [|x l k H IH|x y l|x l k H IH|l k j H1 IH1 H2 IH2]; simpl; try done.
  - destruct (f x); [by apply submseteq_skip|done].
  - destruct (f x), (f y); try done. apply submseteq_swap.
  - destruct (f x); [by apply submseteq_cons|done].
  - by etrans.
Qed.

Section Clicks.
Context `{!TrayBus}.

(** The calls made and the calls still to be made. *)
Definition tray_calls (s : TrayState) : list TrayCall := ts_log s ++ (uncurry activation_call <$> ts_pending s).

Lemma run_task s n : tray_calls (tray_step s (RunTask n)) ⊆+ tray_calls s.
Proof.
  simpl. destruct (ts_pending s !! n) as [[a t]|] eqn:Hn; [|done].
  unfold tray_calls, DbusActivator_activate. simpl.
  assert (Hp : uncurry activation_call <$> ts_pending s ≡ₚ activation_call a t :: (uncurry activation_call <$> delete n (ts_pending s))).
  { rewrite (delete_Permutation (ts_pending s) n (a, t)) at 1 by done. done. }
  rewrite Hp. destruct (tb_proxy _ _); simpl; [rewrite <- app_assoc; done|].
  apply submseteq_app; [done|]. by apply submseteq_cons.
Qed.

(** A message decides what it adds. *)
Lemma message_step_calls s ev evs : (forall n, ev <> RunTask n) ->
  tray_calls (tray_step s ev) ++ (uncurry activation_call <$> decisions (ts_token (tray_step s ev)) evs)
  = tray_calls s ++ (uncurry activation_call <$> decisions (ts_token s) (ev :: evs)).
Proof.
  intros Hev. destruct ev as [t|x y|x y|x y|d o|id e d t|id|id d l|ids l|id nm|n]; try done; [| |by specialize (Hev n)].
  - unfold tray_calls. cbn. rewrite fmap_app. simpl. rewrite <- !app_assoc. done.
  - cbn [tray_step decisions]. unfold menu_event. rewrite menu_event_chosen.
    destruct (chosen id e) as [a|]; [|done]. unfold tray_calls. cbn. rewrite fmap_app. simpl. rewrite <- !app_assoc. done.
Qed.

Lemma tray_step_calls s ev evs :
  tray_calls (tray_step s ev) ++ (uncurry activation_call <$> decisions (ts_token (tray_step s ev)) evs)
  ⊆+ tray_calls s ++ (uncurry activation_call <$> decisions (ts_token s) (ev :: evs)).
Proof.
  destruct ev as [| | | | | | | | | |n]; try (by rewrite message_step_calls).
  apply submseteq_app; [apply run_task|]. simpl. by destruct (_ !! n) as [[]|].
Qed.

Lemma tray_run_calls s evs :
  tray_calls (foldl tray_step s evs) ⊆+ tray_calls s ++ (uncurry activation_call <$> decisions (ts_token s) evs).
Proof.
  revert s. induction evs as [|ev evs IH]; intros s; [by rewrite app_nil_r|].
  simpl foldl. etrans; [apply IH|]. apply tray_step_calls.
Qed.

(** C34: whatever the shell sends and in whatever order the spawned tasks run,
    the calls made to the desktop application are, as a multiset, among those
    the clicks decided: a click on the icon is the Quick Panel, a clicked
    menu row its own surface, and nothing else is a decision.  Every call goes to
    the one application and asks for one of its three actions without a
    parameter; the only thing of a message that can be in it is a usable
    activation token, and the tokens that left are among those offered, each
    as often as it was offered. *)
Theorem every_window_was_clicked evs : let log := ts_log (tray_run evs) in
  log ⊆+ (uncurry activation_call <$> decisions None evs) /\
  omap forwarded log ⊆+ omap offered evs /\
  forall c, c ∈ log -> exists action p,
    c = ActivateAction DESKTOP_APP_ID DESKTOP_APP_OBJECT_PATH APPLICATION_IFACE (gapplication_action action) [] p /\
    (p = ∅ \/ exists t, p = {[ lit "activation-token" := VStr t ]} /\ usable_token t = true).
Proof.
  intros log.
  assert (Hlog : log ⊆+ (uncurry activation_call <$> decisions None evs)).
  { etrans; [|apply (tray_run_calls StatusNotifierItem_new)]. apply submseteq_inserts_r. done. }
  split_and!; [done| |].
  - etrans; [by apply omap_submseteq|]. apply sublist_submseteq.
    etrans; [apply forwarded_calls|]. apply (decided_tokens None).
  - intros c Hc. eapply elem_of_submseteq in Hc; [|done].
    apply list_elem_of_fmap in Hc as ([a t] & -> & _). exists a, (platform_data t). split; [done|].
    unfold platform_data. destruct t as [t|]; [|by left]. destruct (usable_token t) eqn:Hu; [|by left]. right. by exists t.
Qed.

(** When proxies can be made and every task has run, nothing clicked is
    lost. *)
Lemma no_click_lost evs : (forall log d, tb_proxy log d = Ok tt) -> ts_pending (tray_run evs) = [] ->
  ts_log (tray_run evs) ≡ₚ (uncurry activation_call <$> decisions None evs).
Proof.
  intros Hp Hd. unfold tray_run in *.
  assert (Hrun : forall s, tray_calls (foldl tray_step s evs) ≡ₚ tray_calls s ++ (uncurry activation_call <$> decisions (ts_token s) evs)).
  { clear Hd. induction evs as [|ev r IH]; intros s; [by rewrite app_nil_r|]. simpl foldl. rewrite IH.
    destruct ev as [| | | | | | | | | |n]; try (by rewrite message_step_calls).
    simpl. destruct (ts_pending s !! n) as [[a t]|] eqn:Hn; [|done].
    unfold tray_calls, DbusActivator_activate. simpl. rewrite Hp. simpl.
    rewrite (delete_Permutation (ts_pending s) n (a, t)) at 2 by done. simpl. by rewrite <- !app_assoc. }
  specialize (Hrun StatusNotifierItem_new). unfold tray_calls in Hrun at 1. rewrite Hd, app_nil_r in Hrun. done.
Qed.
End Clicks.

(** * The menu *)

Definition menu_items : list (Z * gmap str Value) :=
  (MENU_ROOT_ID, root_properties) :: ((fun e => (me_id e, entry_properties e)) <$> MENU).

(** A property asked for alone is the one a bulk question answers. *)
Lemma get_property_agrees id name v :
  get_property id name = Ok v <-> exists props, (id, props) ∈ get_group_properties [] [] /\ props !! name = Some v.
Proof.
  change (get_group_properties [] []) with menu_items.
  assert (Hitems : forall props, (id, props) ∈ menu_items <->
    (if (id =? MENU_ROOT_ID)%Z then Some root_properties else entry_properties <$> entry_for_menu_id id) = Some props).
  { intros props. rewrite list_elem_of_In. unfold menu_items, entry_for_menu_id, find_b, MENU_ROOT_ID, MENU.
    cbn [List.find me_id].
    destruct (Z.eqb_spec id 0) as [->|H0]; [simpl; intuition congruence|].
    destruct (Z.eqb_spec 1 id) as [<-|H1]; [simpl; intuition congruence|].
    destruct (Z.eqb_spec 2 id) as [<-|H2]; [simpl; intuition congruence|].
    destruct (Z.eqb_spec 3 id) as [<-|H3]; [simpl; intuition congruence|].
    simpl. intuition congruence. }
  setoid_rewrite Hitems. unfold get_property.
  destruct (id =? MENU_ROOT_ID)%Z; [|destruct (entry_for_menu_id id) as [e|]]; simpl;
    [destruct (root_properties !! name) eqn:He|destruct (entry_properties e !! name) eqn:He|]; naive_solver.
Qed.

(** Every row of the layout stands for an action, and the rows for different
    ones. *)
Lemma layout_rows_choose depth wanted rev item : get_layout MENU_ROOT_ID depth wanted = Ok (rev, item) -> depth <> 0%Z ->
  (fun r => chosen (lr_id r) (lit "clicked")) <$> li_children item = Some <$> TrayAction_ALL.
Proof. unfold get_layout. simpl. intros [= <- <-] Hd. simpl. by rewrite (proj2 (Z.eqb_neq depth 0) Hd). Qed.

(** What a caller asked for is what it gets. *)
Lemma filtered_lookup props wanted k : wanted <> [] ->
  filtered props wanted !! k = if mem k wanted then props !! k else None.
Proof.
  intros Hw. unfold filtered. destruct wanted as [|w ws]; [done|].
  assert (Hm : existsb (fun w' => eqb w' k) (w :: ws) = mem k (w :: ws)).
  { unfold mem. apply eq_true_iff_eq. rewrite !existsb_exists. unfold eqb.
    by split; intros (x & Hx & He%bool_decide_eq_true); exists x; (split; [done|]; apply bool_decide_eq_true). }
  destruct (props !! k) as [v|] eqn:Hk.
  - destruct (mem k (w :: ws)) eqn:He.
    + apply map_lookup_filter_Some. by split.
    + apply map_lookup_filter_None. right. intros x Hx. cbn [fst]. by rewrite Hm.
  - rewrite (proj2 (map_lookup_filter_None _ _ _) (or_introl Hk)). by destruct (mem k (w :: ws)).
Qed.

(** * Publishing *)

(** The name is asked for only when both objects are served. *)
Lemma served_before_named `{!TrayBus} pid n name : RequestName name ∈ (publish_item pid n []).2 ->
  name = item_bus_name pid n /\
  (publish_item pid n []).2 = [ServeAt ITEM_OBJECT_PATH; ServeAt MENU_OBJECT_PATH; RequestName name] /\
  tb_call [] (ServeAt ITEM_OBJECT_PATH) = Ok tt /\ tb_call [ServeAt ITEM_OBJECT_PATH] (ServeAt MENU_OBJECT_PATH) = Ok tt.
Proof.
  unfold publish_item, tray_call. simpl.
  destruct (tb_call [] _) as [[]|] eqn:H1; simpl; [|set_solver].
  destruct (tb_call [_] _) as [[]|] eqn:H2; simpl; [|set_solver].
  destruct (tb_call [_; _] _) as [[]|]; simpl; set_solver.
Qed.

(** Nothing of what the other end wrote is in an error. *)
Lemma describe_bus_error_blank e : describe_bus_error e = describe_bus_error (blank e).
Proof. by destruct e. Qed.

(** * Following the shell *)

(** Who owns the watcher's name, the changes announced to the follower and not
    yet read, the owners that were told of the item, and where the follower
    is. *)
Inductive Phase := NotYet | Subscribed | Asked (owner : str) | Parked (registered_with : option str).
Record Shell := {
  sh_owner : option str;
  sh_queue : list (option str);
  sh_told : list str;
  sh_phase : Phase
}.

Inductive ShellEvent := OwnerBecomes (owner : option str) | FollowerTurn.

(** A call to the watcher's name reaches its owner, which accepts; with none
    it is an error. *)
Definition service_unknown : ZError := MethodError (lit "org.freedesktop.DBus.Error.ServiceUnknown") None.
Definition shell_bus (owner : option str) : TrayBus := {|
  tb_session := Ok tt;
  tb_proxy _ _ := Ok tt;
  tb_call _ c := match c, owner with RegisterStatusNotifierItem _, None => Err service_unknown | _, _ => Ok tt end |}.

(** Who hears of the calls in [log]. *)
Definition hears (owner : option str) (log : list TrayCall) : list str := match log with [] => [] | _ => option_list owner end.

(** Change of owner, and the follower's next wait done. *)
Definition shell_step (item : str) (s : Shell) (ev : ShellEvent) : Shell :=
  match ev with
  | OwnerBecomes x =>
      if eqb x (sh_owner s) then s
      else {| sh_owner := x; sh_queue := match sh_phase s with NotYet => [] | _ => sh_queue s ++ [x] end;
              sh_told := sh_told s; sh_phase := sh_phase s |}
  | FollowerTurn =>
      let at_phase p := {| sh_owner := sh_owner s; sh_queue := sh_queue s; sh_told := sh_told s; sh_phase := p |} in
      match sh_phase s with
      | NotYet => at_phase Subscribed
      | Subscribed => at_phase (match sh_owner s with Some o => Asked o | None => Parked None end)
      | Asked o =>
          let '(reg, log) := @first_look (shell_bus (sh_owner s)) item (Ok o) [] in
          {| sh_owner := sh_owner s; sh_queue := sh_queue s; sh_told := sh_told s ++ hears (sh_owner s) log; sh_phase := Parked reg |}
      | Parked reg =>
          match sh_queue s with
          | [] => s
          | x :: q =>
              let '(reg', log) := @on_owner_change (shell_bus (sh_owner s)) item (reg, []) (Some x) in
              {| sh_owner := sh_owner s; sh_queue := q; sh_told := sh_told s ++ hears (sh_owner s) log; sh_phase := Parked reg' |}
          end
      end
  end.

Definition shell_start (owner : option str) : Shell :=
  {| sh_owner := owner; sh_queue := []; sh_told := []; sh_phase := NotYet |}.
Definition shell_run (item : str) (owner : option str) (evs : list ShellEvent) : Shell :=
  foldl (shell_step item) (shell_start owner) evs.

(** Consecutive announcements differ. *)
Fixpoint changing (l : list (option str)) : Prop :=
  match l with x :: ((y :: _) as r) => x <> y /\ changing r | _ => True end.

(** What is recorded was told, or a change is still to be read. *)
Definition settled (s : Shell) (reg : option str) : Prop :=
  forall o, reg = Some o -> o ∈ sh_told s \/ exists x, x ∈ sh_queue s /\ x <> Some o.

Definition shell_inv (s : Shell) : Prop :=
  changing (sh_queue s) /\ (forall x, last (sh_queue s) = Some x -> x = sh_owner s) /\
  match sh_phase s with
  | NotYet => sh_queue s = []
  | Subscribed => True
  | Asked o => sh_owner s = Some o \/ exists x, x ∈ sh_queue s /\ x <> Some o
  | Parked reg => (sh_queue s = [] -> reg = sh_owner s) /\ settled s reg
  end.

Lemma changing_snoc l x : changing l -> last l <> Some x -> changing (l ++ [x]).
Proof.
  induction l as [|a [|b l] IH]; [done| |].
  - simpl. naive_solver.
  - cbn [changing app]. intros [Hab Hl] Hx. split; [done|]. apply IH; [done|]. by rewrite last_cons_cons in Hx.
Qed.

Lemma changing_tail x q : changing (x :: q) -> changing q.
Proof. destruct q; simpl; naive_solver. Qed.

Lemma owner_change_inv item s x : shell_inv s -> shell_inv (shell_step item s (OwnerBecomes x)).
Proof.
  intros (Hc & Hl & Hp). simpl. destruct (eqb x (sh_owner s)) eqn:Hx; [done|]. apply eqb_neq in Hx. unfold shell_inv, settled in *. simpl.
  destruct (sh_phase s) as [| |o|reg] eqn:Hph; [by split_and!| | |].
  all: split; [apply changing_snoc; [done|]; intros Hq%Hl; congruence|]; split; [intros y; rewrite last_snoc; congruence|].
  - done.
  - right. destruct Hp as [Ho|(y & Hy & Hne)]; [|exists y; set_solver].
    exists x. split; [set_solver|]. congruence.
  - destruct Hp as [He Hs]. split; [by destruct (sh_queue s)|].
    intros o ->. destruct (Hs o eq_refl) as [?|(y & Hy & Hne)]; [by left|]. right. exists y. set_solver.
Qed.

(** What a message does to the record. *)
Lemma on_owner_change_shell item owner reg x :
  @on_owner_change (shell_bus owner) item (reg, []) (Some x)
  = match x with
    | Some o => if eqb reg (Some o) then (reg, [])
                else (match owner with Some _ => Some o | None => reg end, [RegisterStatusNotifierItem item])
    | None => (None, [])
    end.
Proof. destruct x as [o|]; [|done]. simpl. destruct (eqb reg (Some o)); [done|]. by destruct owner. Qed.

Lemma parked_turn_inv item s reg x q : sh_phase s = Parked reg -> sh_queue s = x :: q -> shell_inv s ->
  shell_inv (shell_step item s FollowerTurn).
Proof.
  intros Hph Hq (Hc & Hl & Hp). cbn [shell_step]. rewrite Hph, Hq, on_owner_change_shell.
  rewrite Hph in Hp. destruct Hp as [_ Hs]. unfold shell_inv, settled in *. rewrite Hq in *.
  assert (Hlast : q = [] -> x = sh_owner s) by (intros ->; by apply Hl).
  assert (Hl' : forall y, last q = Some y -> y = sh_owner s).
  { intros y Hy. apply Hl. destruct q as [|z q]; [done|]. by rewrite last_cons_cons. }
  assert (Hnext : q <> [] -> exists y, y ∈ q /\ y <> x).
  { destruct q as [|y q]; [done|]. intros _. exists y. destruct Hc as [Hne _]. split; [set_solver|congruence]. }
  apply changing_tail in Hc.
  destruct x as [o|]; simpl; [|by split_and!].
  destruct (eqb reg (Some o)) eqn:E; [apply eqb_eq in E|apply eqb_neq in E]; simpl; split_and!; try done.
  - intros Hn. rewrite <- Hlast; done.
  - rewrite app_nil_r. intros o' Ho'. destruct (Hs o' Ho') as [?|(y & Hy & Hne)]; [by left|].
    right. exists y. split; [|done]. apply elem_of_cons in Hy as [->|?]; [congruence|done].
  - intros Hn. by rewrite <- Hlast.
  - intros o' Ho'. destruct (sh_owner s) as [c|] eqn:Hown; simplify_eq/=.
    + destruct (decide (q = [])) as [->|Hn]; [|right; by apply Hnext].
      left. specialize (Hlast eq_refl). simplify_eq. set_solver.
    + destruct (decide (q = [])) as [->|Hn]; [by specialize (Hlast eq_refl)|].
      destruct (Hs o' eq_refl) as [?|_]; [left; set_solver|]. right.
      destruct (last q) as [y|] eqn:Hy; [|by apply last_None in Hy].
      exists y. split; [|by rewrite (Hl' y eq_refl)]. apply last_Some in Hy as [q' ->]. set_solver.
Qed.

Lemma turn_inv item s : shell_inv s -> shell_inv (shell_step item s FollowerTurn).
Proof.
  intros Hinv. destruct (sh_phase s) as [| |o|reg] eqn:Hph.
  - destruct Hinv as (Hc & Hl & Hp). simpl. rewrite Hph in *. by split_and!.
  - destruct Hinv as (Hc & Hl & Hp). simpl. rewrite Hph in *. unfold shell_inv. simpl. split_and!; try done.
    destruct (sh_owner s); [by left|by split].
  - destruct Hinv as (Hc & Hl & Hp). simpl. rewrite Hph in *. unfold shell_inv, settled.
    destruct (sh_owner s) as [c|] eqn:Hown; simpl; split_and!; try done.
    + intros Hn. destruct Hp as [?|(x & Hx & _)]; [done|]. rewrite Hn in Hx. by apply elem_of_nil in Hx.
    + intros o' [= <-]. destruct Hp as [[= ->]|?]; [left; set_solver|by right].
  - destruct (sh_queue s) as [|x q] eqn:Hq; [|by eapply parked_turn_inv].
    simpl. by rewrite Hph, Hq.
Qed.

Lemma shell_run_inv item owner evs : shell_inv (shell_run item owner evs).
Proof.
  unfold shell_run. assert (Hs : shell_inv (shell_start owner)) by by split_and!.
  revert Hs. generalize (shell_start owner). induction evs as [|[x|] evs IH]; intros s Hs; [done| |].
  - apply IH. by apply owner_change_inv.
  - apply IH. by apply turn_inv.
Qed.

(** The waits left before the follower parks with nothing to read. *)
Definition todo (s : Shell) : nat :=
  match sh_phase s with NotYet => 3 | Subscribed => 2 | Asked _ => 1 | Parked _ => 0 end + length (sh_queue s).

Lemma turn_todo item s : (todo (shell_step item s FollowerTurn) <= pred (todo s))%nat /\
  sh_owner (shell_step item s FollowerTurn) = sh_owner s.
Proof.
  unfold todo. cbn [shell_step]. destruct (sh_phase s) as [| |o|reg] eqn:Hph; cbn [sh_phase sh_queue sh_owner].
  - split; [lia|done].
  - destruct (sh_owner s); (split; [lia|done]).
  - destruct (sh_owner s); simpl; (split; [lia|done]).
  - destruct (sh_queue s) as [|x q] eqn:Hq; [rewrite Hph, Hq; by split|].
    rewrite on_owner_change_shell. destruct x as [o|]; [destruct (eqb reg (Some o))|]; simpl; (split; [lia|done]).
Qed.

Lemma step_todo item s ev : (todo (shell_step item s ev) <= S (todo s))%nat.
Proof.
  destruct ev as [x|]; [|pose proof (turn_todo item s); lia].
  simpl. destruct (eqb x (sh_owner s)); [lia|]. unfold todo. simpl. destruct (sh_phase s); simpl; rewrite ?length_app; simpl; lia.
Qed.

Lemma run_todo item evs s : (todo (foldl (shell_step item) s evs) <= todo s + length evs)%nat.
Proof.
  revert s. induction evs as [|ev evs IH]; intros s; simpl; [lia|].
  specialize (IH (shell_step item s ev)). pose proof (step_todo item s ev). lia.
Qed.

Lemma turns_todo item n s : (todo (foldl (shell_step item) s (replicate n FollowerTurn)) <= todo s - n)%nat /\
  sh_owner (foldl (shell_step item) s (replicate n FollowerTurn)) = sh_owner s.
Proof.
  revert s. induction n as [|n IH]; intros s; [simpl; split; [lia|done]|]. cbn [replicate foldl].
  destruct (IH (shell_step item s FollowerTurn)) as [Hn Ho]. destruct (turn_todo item s) as [Ht Ho'].
  split; [lia|congruence].
Qed.

(** Shells start, stop and replace one another at any moment,
    between any two waits of the follower and before it has asked who is
    there; once they rest, three waits and one for each change are enough
    for the follower to be parked with the shell that runs on record, and
    that shell was told of the item. *)
Theorem running_shell_is_told item owner evs n : (3 + length evs <= n)%nat ->
  let s := shell_run item owner (evs ++ replicate n FollowerTurn) in
  sh_phase s = Parked (sh_owner s) /\ sh_owner s = sh_owner (shell_run item owner evs) /\
  forall o, sh_owner s = Some o -> o ∈ sh_told s.
Proof.
  intros Hn s. pose proof (shell_run_inv item owner (evs ++ replicate n FollowerTurn)) as (_ & _ & Hp). fold s in Hp.
  assert (Htodo : todo s = 0%nat /\ sh_owner s = sh_owner (shell_run item owner evs)).
  { unfold s, shell_run. rewrite foldl_app. set (s0 := foldl _ _ evs).
    destruct (turns_todo item n s0) as [Ht Ho]. split; [|done].
    pose proof (run_todo item evs (shell_start owner)) as Hr. fold s0 in Hr. unfold todo at 2 in Hr. simpl in Hr. lia. }
  destruct Htodo as [Htodo Hown]. unfold todo in Htodo.
  destruct (sh_phase s) as [| |o|reg]; try (simpl in Htodo; lia).
  destruct (sh_queue s) eqn:Hq; [|simpl in Htodo; lia]. destruct Hp as [Hreg Hset].
  rewrite (Hreg eq_refl). split_and!; [done|done|]. intros o Ho.
  destruct (Hset o) as [?|(x & Hx & _)]; [by rewrite (Hreg eq_refl)|done|]. rewrite Hq in Hx. by apply elem_of_nil in Hx.
Qed.

(** The owners that appear in a sequence of changes, each as often as it
    comes. *)
Fixpoint appearances (owner : option str) (xs : list (option str)) : list str :=
  match xs with
  | [] => []
  | x :: r => (if eqb x owner then [] else option_list x) ++ appearances x r
  end.

(** When each change is read before the next, every appearance is told
    once. *)
Lemma told_once item xs s : sh_phase s = Parked (sh_owner s) -> sh_queue s = [] ->
  sh_told (foldl (shell_step item) s (xs ≫= fun x => [OwnerBecomes x; FollowerTurn])) = sh_told s ++ appearances (sh_owner s) xs.
Proof.
  revert s. induction xs as [|x xs IH]; intros s Hph Hq; [by rewrite app_nil_r|].
  cbn [mbind list_bind app foldl appearances].
  destruct (eqb x (sh_owner s)) eqn:E.
  - apply eqb_eq in E as ->. cbn [shell_step]. rewrite eqb_refl, Hph, Hq. by apply IH.
  - set (s1 := shell_step item s (OwnerBecomes x)).
    assert (Hs1 : s1 = {| sh_owner := x; sh_queue := [x]; sh_told := sh_told s; sh_phase := Parked (sh_owner s) |}).
    { unfold s1. simpl. by rewrite E, Hph, Hq. }
    rewrite Hs1. cbn [shell_step sh_phase sh_queue sh_owner sh_told]. rewrite on_owner_change_shell.
    assert (E' : eqb (sh_owner s) x = false) by (apply eqb_false; apply eqb_false in E; congruence).
    destruct x as [o|]; [rewrite E'|]; rewrite IH; try done; simpl; by rewrite <- ?app_assoc.
Qed.

(** A shell that replaces another between the question and the registration
    is told twice. *)
Example told_twice : sh_told (shell_run (lit "item") (Some (lit ":1.1"))
  [FollowerTurn; FollowerTurn; OwnerBecomes (Some (lit ":1.2")); FollowerTurn; FollowerTurn]) = [lit ":1.2"; lit ":1.2"].
Proof. vm_compute. reflexivity. Qed.

(** * The self-heal *)

Lemma any_name (name : str) names : existsb (fun n => eqb n name) names = true <-> name ∈ names.
Proof.
  rewrite existsb_exists, list_elem_of_In. setoid_rewrite eqb_true. naive_solver.
Qed.

(** What the two answers of the bus decide, over any bus. *)
Inductive heals `{!SessionBusControl W} (name : str) (w : W) : Activation -> list ControlCall -> Prop :=
| HealsList why w1 : list_activatable_names w = (Err why, w1) ->
    heals name w (ActUnavailable (ListFailed why)) [ListActivatableNames]
| HealsAlready names w1 : list_activatable_names w = (Ok names, w1) -> name ∈ names ->
    heals name w AlreadyActivatable [ListActivatableNames]
| HealsReload names w1 why w2 : list_activatable_names w = (Ok names, w1) -> name ∉ names ->
    reload_config w1 = (Err why, w2) ->
    heals name w (ActUnavailable (ReloadFailed why)) [ListActivatableNames; ReloadConfig]
| HealsRecheck names w1 w2 why w3 : list_activatable_names w = (Ok names, w1) -> name ∉ names ->
    reload_config w1 = (Ok tt, w2) -> list_activatable_names w2 = (Err why, w3) ->
    heals name w (ActUnavailable (RecheckFailed why)) [ListActivatableNames; ReloadConfig; ListActivatableNames]
| HealsDone names w1 w2 names' w3 : list_activatable_names w = (Ok names, w1) -> name ∉ names ->
    reload_config w1 = (Ok tt, w2) -> list_activatable_names w2 = (Ok names', w3) -> name ∈ names' ->
    heals name w HealedByReload [ListActivatableNames; ReloadConfig; ListActivatableNames]
| HealsMissing names w1 w2 names' w3 : list_activatable_names w = (Ok names, w1) -> name ∉ names ->
    reload_config w1 = (Ok tt, w2) -> list_activatable_names w2 = (Ok names', w3) -> name ∉ names' ->
    heals name w StillMissing [ListActivatableNames; ReloadConfig; ListActivatableNames].

Lemma ensure_activatable_heals `{!ControlBus} name : let r := ensure_activatable name [] in heals name [] r.1 r.2.
Proof.
  unfold ensure_activatable. simpl.
  assert (Hn : forall names, existsb (fun n => eqb n name) names = false -> name ∉ names).
  { intros names Hf Hin%any_name. congruence. }
  destruct (map_err _ (cb_list [])) as [names|why] eqn:H1; [|eapply HealsList; simpl; by rewrite H1].
  destruct (existsb _ names) eqn:E; [eapply HealsAlready; [simpl; by rewrite H1|by apply any_name]|].
  destruct (map_err _ (cb_reload _)) as [[]|why] eqn:H2; [|eapply HealsReload; [simpl; by rewrite H1|auto|simpl; by rewrite H2]].
  destruct (map_err _ (cb_list [ListActivatableNames; ReloadConfig])) as [names'|why] eqn:H3;
    [|eapply HealsRecheck; [simpl; by rewrite H1|auto|simpl; by rewrite H2|simpl; by rewrite H3]].
  destruct (existsb _ names') eqn:E';
    [eapply HealsDone; [simpl; by rewrite H1|auto|simpl; by rewrite H2|simpl; by rewrite H3|by apply any_name]
    |eapply HealsMissing; [simpl; by rewrite H1|auto|simpl; by rewrite H2|simpl; by rewrite H3|auto]].
Qed.

(** At most one reload, and none when the name is there or nothing is
    known. *)
Lemma self_heal_reloads_once `{!ControlBus} : let '(a, log) := self_heal_desktop_activation in
  (length (filter (eq ReloadConfig) log) <= 1)%nat /\
  (ReloadConfig ∈ log <-> cb_connect = Ok tt /\ cb_proxy = Ok tt /\ exists names, cb_list [] = Ok names /\ DESKTOP_APP_ID ∉ names).
Proof.
  unfold self_heal_desktop_activation, SessionBus_connect, SessionBus_on.
  destruct cb_connect as [[]|] eqn:Hc; simpl; [|split; [lia|set_solver]].
  destruct cb_proxy as [[]|] eqn:Hp; simpl; [|split; [lia|set_solver]].
  pose proof (ensure_activatable_heals DESKTOP_APP_ID) as Hh. destruct (ensure_activatable _ _) as [a log].
  cbn [fst snd] in Hh. destruct (cb_list []) as [names|e] eqn:Hl.
  - destruct Hh as [why w1 H1|ns w1 H1 Hin|ns w1 why w2 H1 Hin|ns w1 w2 why w3 H1 Hin|ns w1 w2 ns' w3 H1 Hin|ns w1 w2 ns' w3 H1 Hin];
      simpl in H1; rewrite Hl in H1; simpl in H1; simplify_eq; (split; [simpl; lia|]); split; try set_solver; naive_solver.
  - destruct Hh as [why w1 H1|ns w1 H1|ns w1 why w2 H1|ns w1 w2 why w3 H1|ns w1 w2 ns' w3 H1|ns w1 w2 ns' w3 H1];
      simpl in H1; rewrite Hl in H1; simpl in H1; simplify_eq. split; [simpl; lia|]. set_solver.
Qed.

(** * Units *)

(** The account is pointed at the legacy link exactly when it is there. *)
Lemma classify_links_canonical present dir :
  classify_links present dir = Canonical <-> present (path_join dir LEGACY_UNIT) = false.
Proof. unfold classify_links. by destruct (present (path_join dir LEGACY_UNIT)), (present (path_join dir UNIT)). Qed.

(** * Runs *)

(** A token, a click, a hover, the same token not offered again, two menu
    rows, and the tasks run last first. *)
Definition some_clicks : list TrayEvent := [
  ProvideXdgActivationToken (lit "kwin-7"); Activate 3 4; MenuEvent 2 (lit "hovered") (VBool true) 0; Scroll 1 (lit "vertical");
  Activate 3 4; MenuEvent 3 (lit "clicked") (VStr []) 9; MenuEvent 7 (lit "clicked") (VStr []) 9;
  RunTask 2; RunTask 1; RunTask 0; RunTask 0 ].

Example some_clicks_run : let log := ts_log (@tray_run (shell_bus None) some_clicks) in
  log = [activation_call TSettings None; activation_call TQuickPanel None; activation_call TQuickPanel (Some (lit "kwin-7"))] /\
  omap forwarded log = [lit "kwin-7"].
Proof. vm_compute. done. Qed.

Lemma every_window_was_clicked_witness :
  activation_call TSettings None ∈ ts_log (@tray_run (shell_bus None) some_clicks) /\
  ts_log (@tray_run (shell_bus None) some_clicks) ⊆+ (uncurry activation_call <$> decisions None some_clicks) /\
  exists action p, activation_call TSettings None
    = ActivateAction DESKTOP_APP_ID DESKTOP_APP_OBJECT_PATH APPLICATION_IFACE (gapplication_action action) [] p.
Proof.
  assert (Hin : activation_call TSettings None ∈ ts_log (@tray_run (shell_bus None) some_clicks)).
  { destruct some_clicks_run as [-> _]. left. }
  destruct (@every_window_was_clicked (shell_bus None) some_clicks) as (Hsub & _ & Hall).
  destruct (Hall _ Hin) as (a & p & He & _). split_and!; [done|done|]. by exists a, p.
Defined.

(** Two shells come and go around the follower's start; the second stays. *)
Lemma running_shell_is_told_witness :
  let evs := [FollowerTurn; OwnerBecomes (Some (lit ":1.1")); FollowerTurn; OwnerBecomes None; OwnerBecomes (Some (lit ":1.2"))] in
  (3 + length evs <= 8)%nat /\
  lit ":1.2" ∈ sh_told (shell_run (lit "item") None (evs ++ replicate 8 FollowerTurn)).
Proof.
  intros evs. split; [simpl; lia|].
  destruct (running_shell_is_told (lit "item") None evs 8) as (_ & Ho & Ht); [simpl; lia|].
  apply Ht. rewrite Ho. reflexivity.
Defined.

(** A package installed into a running session: the reload makes the name
    appear. *)
Definition stale_bus : ControlBus := {|
  cb_connect := Ok tt; cb_proxy := Ok tt;
  cb_list log := Ok (if mem ReloadConfig log then [lit "org.example"; DESKTOP_APP_ID] else [DESKTOP_APP_ID ++ lit ".Devel"]);
  cb_reload _ := Ok tt |}.
Example healed : @self_heal_desktop_activation stale_bus = (HealedByReload, [ListActivatableNames; ReloadConfig; ListActivatableNames]).
Proof. vm_compute. reflexivity. Qed.
