(* ===== verification/Battery.v ===== *)
(** Battery levels.

    [capabilities/battery/src/lib.rs] and [upower.rs]: what this machine reports
    of its own battery, and the newest reading held of each peer's.  A double is
    [F64]: a finite one is [m * 2^e]; it is rounded, clamped and cast as the
    source does.  The calls of UPower over D-Bus are inputs.

    The theorems: a machine without a battery says nothing, and what one with a
    battery says arrives as it was said, with a level from 0 to 100, whatever the
    firmware reports; and what is held of a peer is the newest of what it said,
    never out of range. *)
From S2P Require Import Prelude External Ids Capability.

Definition BATTERY_ID : str := lit "battery.v1".
Definition UPOWER_KIND_BATTERY : N := 2.

Inductive ChargingState := CUnspecified | Charging | Discharging | CFull | NotCharging.

#[export] Instance ChargingState_eq_dec : EqDecision ChargingState.
Proof. solve_decision. Defined.

(** The numbers of the wire enumeration. *)
Definition charging_to_i32 (c : ChargingState) : Z :=
  match c with CUnspecified => 0 | Discharging => 1 | Charging => 2 | CFull => 3 | NotCharging => 4 end.
Definition charging_from_i32 (v : Z) : ChargingState :=
  match v with 1%Z => Discharging | 2%Z => Charging | 3%Z => CFull | 4%Z => NotCharging | _ => CUnspecified end.

(** The message of [battery_v1.proto]. *)
Record BatteryMessage := { bm_percentage : N; bm_charging_state : Z; bm_timestamp_unix_ms : Z }.

Record BatteryReading := { br_percentage : N; br_charging_state : ChargingState; br_peer_timestamp_unix_ms : Z }.

Record PeerBattery := { pb_reading : BatteryReading; pb_received_at : N }.

(** [BatteryState]: the newest reading per peer. *)
Abbreviation BatteryState := (gmap Fingerprint PeerBattery).

Definition battery_update (s : BatteryState) (now : N) (peer : Fingerprint) (reading : BatteryReading) : BatteryState :=
  let put := <[peer := {| pb_reading := reading; pb_received_at := now |}]> s in
  match s !! peer with
  | Some existing =>
      if (br_peer_timestamp_unix_ms reading <? br_peer_timestamp_unix_ms (pb_reading existing))%Z then s else put
  | None => put
  end.

Definition battery_forget (s : BatteryState) (peer : Fingerprint) : BatteryState := delete peer s.

(** * [upower.rs] *)

Inductive F64 := Finite (m e : Z) | Infinite (negative : bool) | NaN.

Definition is_finite (x : F64) : bool := match x with Finite _ _ => true | _ => false end.

(** [f64::round]: the nearest integer, halves away from zero; of [m * 2^e]. *)
Definition f64_round (m e : Z) : Z :=
  if (0 <=? e)%Z then (m * 2 ^ e)%Z
  else let d := (2 ^ (- e))%Z in
       if (0 <=? m)%Z then ((2 * m + d) / (2 * d))%Z else (- ((2 * - m + d) / (2 * d)))%Z.

(** [round().clamp(0.0, 100.0) as u32]. *)
Definition percentage_of (x : F64) : N :=
  match x with
  | Finite m e => Z.to_N (Z.max 0 (Z.min 100 (f64_round m e)))
  | _ => 0
  end.

Record DisplayDevice := {
  dd_kind : N; dd_is_present : bool; dd_power_supply : bool; dd_percentage : F64; dd_state : N
}.

Inductive BatteryPresence := Present | Absent.

Definition presence (d : DisplayDevice) : BatteryPresence :=
  if (dd_kind d =? UPOWER_KIND_BATTERY) && dd_is_present d && dd_power_supply d then Present else Absent.

Definition map_state (state : N) : ChargingState :=
  match state with
  | 1 => Charging | 2 => Discharging | 3 => NotCharging | 4 => CFull | 5 => NotCharging | 6 => Discharging
  | _ => CUnspecified
  end.

Definition reading_of (d : DisplayDevice) (now_unix_ms : Z) : option BatteryReading :=
  match presence d with
  | Absent => None
  | Present =>
      if negb (is_finite (dd_percentage d)) then None
      else Some {| br_percentage := percentage_of (dd_percentage d); br_charging_state := map_state (dd_state d);
                   br_peer_timestamp_unix_ms := now_unix_ms |}
  end.

(** What a probe concluded. *)
Inductive LocalBattery := LPresent | LAbsent | LUnavailable.

(** [detect], given what UPower answered, if it did. *)
Definition detect (answer : option DisplayDevice) : LocalBattery :=
  match answer with
  | None => LUnavailable
  | Some d => match presence d with Present => LPresent | Absent => LAbsent end
  end.

(** [LocalBatterySource::read] of the reader. *)
Definition upower_read (answer : option DisplayDevice) (now_unix_ms : Z) : option BatteryReading :=
  answer ≫= fun d => reading_of d now_unix_ms.

(** * The capability *)

Section Battery.
Context `{!Prost BatteryMessage}.

Definition battery_encode (r : BatteryReading) : OutboundMessage := {|
  om_capability_id := BATTERY_ID;
  om_payload := encode_to_vec {| bm_percentage := br_percentage r; bm_charging_state := charging_to_i32 (br_charging_state r);
                                 bm_timestamp_unix_ms := br_peer_timestamp_unix_ms r |} |}.

Definition battery_decode (payload : bytes) : Result BatteryReading :=
  match prost_decode payload with
  | None => Err EDecode
  | Some msg =>
      if 100 <? bm_percentage msg then Err (EProtocol "battery percentage out of range")
      else Ok {| br_percentage := bm_percentage msg; br_charging_state := charging_from_i32 (bm_charging_state msg);
                 br_peer_timestamp_unix_ms := bm_timestamp_unix_ms msg |}
  end.

(** [on_peer_connected]: what is sent, given the local source if there is one. *)
Definition battery_on_connected (local : option (option BatteryReading)) : list OutboundMessage :=
  match local with Some (Some r) => [battery_encode r] | _ => [] end.

Definition battery_on_message (s : BatteryState) (now : N) (peer : Fingerprint) (payload : bytes) : Result unit * BatteryState :=
  match battery_decode payload with
  | Err e => (Err e, s)
  | Ok r => (Ok tt, battery_update s now peer r)
  end.

(** * What is said arrives *)

Lemma charging_roundtrip c : charging_from_i32 (charging_to_i32 c) = c.
Proof. by destruct c. Qed.

Lemma percentage_le x : percentage_of x <= 100.
Proof. destruct x; simpl; lia. Qed.

(** Rounding goes to the nearest integer, twice the distance being at most one. *)
Lemma f64_round_nearest m e : (e < 0)%Z -> (Z.abs (2 * (f64_round m e * 2 ^ (- e) - m)) <= 2 ^ (- e))%Z.
Proof.
  intros He. unfold f64_round. rewrite (proj2 (Z.leb_gt 0 e) He). set (d := (2 ^ (- e))%Z).
  assert (0 < d)%Z as Hd by (apply Z.pow_pos_nonneg; lia).
  assert (forall n, 0 <= n -> let q := ((2 * n + d) / (2 * d))%Z in Z.abs (2 * (q * d - n)) <= d)%Z as H.
  { intros n Hn q. pose proof (Z.div_mod (2 * n + d) (2 * d) ltac:(lia)) as Hdiv. fold q in Hdiv.
    pose proof (Z.mod_pos_bound (2 * n + d) (2 * d) ltac:(lia)). lia. }
  destruct (Z.leb_spec 0 m); [by apply H|]. specialize (H (- m)%Z ltac:(lia)). cbn zeta in H. lia.
Qed.

Lemma battery_roundtrip r : br_percentage r <= 100 -> battery_decode (om_payload (battery_encode r)) = Ok r.
Proof.
  intros Hr. unfold battery_decode. simpl. rewrite prost_decode_encode. simpl.
  destruct (N.ltb_spec 100 (br_percentage r)); [lia|]. rewrite charging_roundtrip. by destruct r.
Qed.

(** A machine reports what it has, and the report arrives.  On connecting, a
    machine without a battery, or with one that gives no number, sends nothing;
    otherwise it sends one message, which every peer accepts and reads as the same
    reading, with a level of at most 100. *)
Theorem battery_report_arrives d now :
  match battery_on_connected (Some (upower_read (Some d) now)) with
  | [] => presence d = Absent \/ is_finite (dd_percentage d) = false
  | [m] => presence d = Present /\ is_finite (dd_percentage d) = true /\
      exists r, reading_of d now = Some r /\ br_percentage r <= 100 /\ battery_decode (om_payload m) = Ok r
  | _ => False
  end.
Proof.
  unfold upower_read. simpl. destruct (reading_of d now) as [r|] eqn:Hr; unfold reading_of in Hr; simpl.
  - destruct (presence d); [|done]. destruct (is_finite _); [|done]. injection Hr as <-. split_and!; try done.
    eexists. split; [done|]. pose proof (percentage_le (dd_percentage d)). split; [done|]. by apply battery_roundtrip.
  - destruct (presence d); [right | by left]. by destruct (is_finite _).
Qed.

(** * What is held *)

Inductive BEvent := BMessage (now : N) (peer : Fingerprint) (payload : bytes) | BDisconnected (peer : Fingerprint).

Definition battery_step (s : BatteryState) (ev : BEvent) : BatteryState :=
  match ev with
  | BMessage now peer payload => (battery_on_message s now peer payload).2
  | BDisconnected peer => battery_forget s peer
  end.

Definition battery_run (evs : list BEvent) : BatteryState := foldl battery_step ∅ evs.

(** What [p] has said since it last disconnected. *)
Definition said_step (p : Fingerprint) (l : list BatteryReading) (ev : BEvent) : list BatteryReading :=
  match ev with
  | BMessage _ q payload => if eqb q p then match battery_decode payload with Ok r => l ++ [r] | Err _ => l end else l
  | BDisconnected q => if eqb q p then [] else l
  end.

Definition said (p : Fingerprint) (evs : list BEvent) : list BatteryReading := foldl (said_step p) [] evs.

(** The newest reading is what is held: a peer that has said nothing since it
    disconnected has no entry, and any other has one of its own readings, with a
    level of at most 100, that no reading it sent is newer than. *)
Theorem battery_newest_held p evs :
  match battery_run evs !! p with
  | None => said p evs = []
  | Some b => pb_reading b ∈ said p evs /\ br_percentage (pb_reading b) <= 100 /\
      Forall (fun r => br_peer_timestamp_unix_ms r <= br_peer_timestamp_unix_ms (pb_reading b))%Z (said p evs)
  end.
Proof.
  induction evs as [|ev evs IH] using rev_ind; [done|]. unfold battery_run, said. rewrite !foldl_app. simpl.
  fold (battery_run evs) (said p evs). destruct ev as [now q payload|q]; simpl.
  - unfold battery_on_message. destruct (battery_decode payload) as [r|] eqn:Hd; simpl; [|by destruct (eqb q p)].
    assert (br_percentage r <= 100) as Hr.
    { unfold battery_decode in Hd. destruct (prost_decode payload); [|done]. destruct (N.ltb_spec 100 (bm_percentage b)); [done|].
      injection Hd as <-. done. }
    unfold battery_update, eqb. case_bool_decide as Hq; [subst q|].
    + destruct (battery_run evs !! p) as [b|] eqn:Hb.
      * destruct IH as (Hin & Hle & Hall). destruct (Z.ltb_spec (br_peer_timestamp_unix_ms r) (br_peer_timestamp_unix_ms (pb_reading b))) as [Hlt|Hge].
        -- rewrite Hb. split_and!; [set_solver | done|]. apply Forall_app. split; [done|]. repeat constructor. lia.
        -- rewrite lookup_insert_eq. simpl. split_and!; [set_solver | done|]. apply Forall_app. split; [|by repeat constructor].
           eapply Forall_impl; [exact Hall|]. simpl. lia.
      * rewrite lookup_insert_eq, IH. simpl. split_and!; [set_solver | done | by repeat constructor].
    + destruct (battery_run evs !! q) as [b|]; [destruct (_ <? _)%Z; [done|]|]; rewrite lookup_insert_ne by done; exact IH.
  - unfold battery_forget, eqb. case_bool_decide as Hq; [subst q; by rewrite lookup_delete_eq | by rewrite lookup_delete_ne].
Qed.
End Battery.
