(* ===== verification/Dedup.v ===== *)
(** Bounded memories of the clipboard.

    [capabilities/clipboard/src/dedup.rs]: the events already handled
    ([EventCache]) and the texts this device wrote for a peer and whose echo it
    still has to swallow ([SuppressionCache]).  [Instant::now()] is an argument,
    in nanoseconds.  The theorem: over any sequence of events at times that do
    not run backwards, the event cache answers exactly as if it looked at the
    whole history, at the last 256 events and at those of the last five
    minutes. *)
From S2P Require Import Prelude.

Definition EVENT_CACHE_ENTRIES : nat := 256.
Definition EVENT_CACHE_TTL : N := 300 * 1000000000.
Definition SUPPRESSION_ENTRIES : nat := 64.
Definition SUPPRESSION_TTL : N := 10 * 1000000000.

(** [while len > capacity { pop_front }] *)
Definition cap_front {A} (capacity : nat) (l : list A) : list A := drop (length l - capacity) l.

(** * [EventCache] *)

Record EventCache := { ec_entries : list (bytes * N); ec_capacity : nat; ec_ttl : N }.

Definition EventCache_new (capacity : nat) (ttl : N) : EventCache :=
  {| ec_entries := []; ec_capacity := capacity; ec_ttl := ttl |}.

Definition EventCache_default : EventCache := EventCache_new EVENT_CACHE_ENTRIES EVENT_CACHE_TTL.

Definition with_entries (c : EventCache) (l : list (bytes * N)) : EventCache :=
  {| ec_entries := l; ec_capacity := ec_capacity c; ec_ttl := ec_ttl c |}.

Definition EventCache_expire (c : EventCache) (now : N) : EventCache :=
  with_entries c (drop_while (fun e => ec_ttl c <=? now - e.2) (ec_entries c)).

Definition EventCache_admit (c : EventCache) (now : N) (event_id : bytes) : bool * EventCache :=
  let c1 := EventCache_expire c now in
  if existsb (fun e => eqb e.1 event_id) (ec_entries c1) then (false, c1)
  else (true, with_entries c1 (cap_front (ec_capacity c1) (ec_entries c1 ++ [(event_id, now)]))).

Definition EventCache_contains (c : EventCache) (now : N) (event_id : bytes) : bool :=
  existsb (fun e => eqb e.1 event_id && (now - e.2 <? ec_ttl c)) (ec_entries c).

(** * [SuppressionCache] *)

Record Suppressed := { su_hash : bytesn 32; su_at : N; su_origin_device_id : str }.

Record SuppressionCache := { sc_entries : list Suppressed; sc_capacity : nat; sc_ttl : N }.

Definition SuppressionCache_new (capacity : nat) (ttl : N) : SuppressionCache :=
  {| sc_entries := []; sc_capacity := capacity; sc_ttl := ttl |}.

Definition SuppressionCache_default : SuppressionCache := SuppressionCache_new SUPPRESSION_ENTRIES SUPPRESSION_TTL.

Definition with_suppressed (c : SuppressionCache) (l : list Suppressed) : SuppressionCache :=
  {| sc_entries := l; sc_capacity := sc_capacity c; sc_ttl := sc_ttl c |}.

Definition SuppressionCache_expire (c : SuppressionCache) (now : N) : SuppressionCache :=
  with_suppressed c (drop_while (fun e => sc_ttl c <=? now - su_at e) (sc_entries c)).

Definition arm (c : SuppressionCache) (now : N) (hash : bytesn 32) (origin : str) : SuppressionCache :=
  let c1 := SuppressionCache_expire c now in
  with_suppressed c1 (cap_front (sc_capacity c1)
    (sc_entries c1 ++ [{| su_hash := hash; su_at := now; su_origin_device_id := origin |}])).

(** [position] and [remove]: the first entry with the hash, and the others. *)
Fixpoint take_first (hash : bytesn 32) (l : list Suppressed) : option (Suppressed * list Suppressed) :=
  match l with
  | [] => None
  | e :: l' =>
      if eqb (su_hash e) hash then Some (e, l')
      else match take_first hash l' with Some (x, r) => Some (x, e :: r) | None => None end
  end.

Definition SuppressionCache_take (c : SuppressionCache) (now : N) (hash : bytesn 32)
    : option str * SuppressionCache :=
  let c1 := SuppressionCache_expire c now in
  match take_first hash (sc_entries c1) with
  | Some (e, rest) => (Some (su_origin_device_id e), with_suppressed c1 rest)
  | None => (None, c1)
  end.

(** * The event cache against the whole history *)

(** The answers to a sequence of events, each with the time it is handled. *)
Fixpoint handle_events (c : EventCache) (l : list (bytes * N)) : list bool :=
  match l with
  | [] => []
  | (id, now) :: l' => let '(r, c') := EventCache_admit c now id in r :: handle_events c' l'
  end.

(** What a perfect memory of [capacity] and [ttl] would know: of all the events
    ever accepted, the last [capacity], as far as they are younger than [ttl]. *)
Definition remembered (capacity : nat) (ttl now : N) (history : list (bytes * N)) : list (bytes * N) :=
  filter (fun e => now - e.2 < ttl) (cap_front capacity history).

Fixpoint ideal_events (capacity : nat) (ttl : N) (history : list (bytes * N)) (l : list (bytes * N)) : list bool :=
  match l with
  | [] => []
  | (id, now) :: l' =>
      let new := bool_decide (id ∉ (remembered capacity ttl now history).*1) in
      new :: ideal_events capacity ttl (if new then history ++ [(id, now)] else history) l'
  end.

(** Times that never run backwards, from [t] on. *)
Fixpoint monotone_from (t : N) (l : list (bytes * N)) : Prop :=
  match l with
  | [] => True
  | (_, now) :: l' => t <= now /\ monotone_from now l'
  end.

Definition by_time (a b : bytes * N) : Prop := a.2 <= b.2.

Lemma drop_while_live ttl now (l : list (bytes * N)) : StronglySorted by_time l ->
  drop_while (fun e => ttl <=? now - e.2) l = filter (fun e => now - e.2 < ttl) l.
Proof.
  induction 1 as [|e l Hl IH Hall]; [done|]. simpl. destruct (N.leb_spec ttl (now - e.2)) as [Hd|Hd].
  - rewrite filter_cons_False by lia. exact IH.
  - rewrite filter_cons_True by lia. f_equal. symmetry. apply filter_all.
    eapply Forall_impl; [exact Hall|]. unfold by_time. simpl. lia.
Qed.

Lemma cap_front_app {A} n (a b : list A) : (length b <= n)%nat -> exists k, cap_front n (a ++ b) = k ++ b /\ k `suffix_of` a.
Proof.
  intros Hb. unfold cap_front. rewrite length_app. rewrite drop_app_le by lia.
  eexists. split; [done|]. apply suffix_drop.
Qed.

Lemma cap_front_full {A} n (a b : list A) : length b = n -> cap_front n (a ++ b) = b.
Proof. intros <-. unfold cap_front. rewrite length_app, Nat.add_sub. by rewrite drop_app_length. Qed.

(** The cache is the part of the history that still counts: everything older has
    expired, or the cache is full. *)
Definition tracks (c : EventCache) (history : list (bytes * N)) (t : N) : Prop :=
  StronglySorted by_time history /\ Forall (fun e => e.2 <= t) history /\
  (length (ec_entries c) <= ec_capacity c)%nat /\
  exists pre, history = pre ++ ec_entries c /\
    (Forall (fun e => ec_ttl c <= t - e.2) pre \/ length (ec_entries c) = ec_capacity c).

Lemma expire_tracks c history t now : tracks c history t -> t <= now ->
  tracks (EventCache_expire c now) history now /\
  ec_entries (EventCache_expire c now) = remembered (ec_capacity c) (ec_ttl c) now history.
Proof.
  intros (Hs & Ht & Hlen & pre & Heq & Hpre) Hnow. unfold tracks, EventCache_expire, remembered. simpl.
  pose proof Hs as Hs'. rewrite Heq in Hs'. apply StronglySorted_app in Hs' as (Hcross & _ & Hse).
  destruct (drop_while_split (fun e => ec_ttl c <=? now - e.2) (ec_entries c)) as (k & Hk & Hdead).
  rewrite drop_while_live in * by done. set (live := filter _ _) in *. split.
  - split; [done|]. split; [eapply Forall_impl; [exact Ht|]; simpl; lia|].
    split; [rewrite Hk in Hlen; rewrite length_app in Hlen; lia|].
    destruct k as [|x k].
    + exists pre. simpl in Hk. rewrite <- Hk. split; [done|]. destruct Hpre as [Hd|]; [left|by right].
      eapply Forall_impl; [exact Hd|]. simpl. lia.
    + exists (pre ++ x :: k). split; [rewrite Heq, Hk at 1; by rewrite <- app_assoc|]. left.
      apply Forall_app. split; [|eapply Forall_impl; [exact Hdead|]; simpl; intros e He; by apply N.leb_le].
      apply Forall_forall. intros e He.
      assert (by_time e x) as Hex by (apply Hcross; [done|]; rewrite Hk; set_solver).
      inversion Hdead as [|?? Hx]; subst. apply N.leb_le in Hx. unfold by_time in Hex. lia.
  - destruct Hpre as [Hd|Hfull]; [|by rewrite Heq, cap_front_full].
    destruct (cap_front_app (ec_capacity c) pre (ec_entries c) Hlen) as (k' & Hk' & Hsuf). rewrite Heq, Hk', filter_app.
    rewrite (filter_none _ k'); [done|]. destruct Hsuf as [j ->]. apply Forall_app in Hd as [_ Hd].
    eapply Forall_impl; [exact Hd|]. simpl. lia.
Qed.

Lemma known_in (l : list (bytes * N)) id : existsb (fun e => eqb e.1 id) l = negb (bool_decide (id ∉ l.*1)).
Proof.
  apply eq_true_iff_eq. rewrite negb_true_iff, bool_decide_eq_false, existsb_exists. split.
  - intros (e & He & Heq) Hn. apply Hn. unfold eqb in Heq. apply bool_decide_eq_true in Heq as <-.
    apply list_elem_of_fmap. exists e. split; [done|]. by apply list_elem_of_In.
  - intros Hn. destruct (decide (id ∈ l.*1)) as [Hin|]; [|done].
    apply list_elem_of_fmap in Hin as (e & -> & He). exists e. split; [by apply list_elem_of_In|].
    by apply bool_decide_eq_true.
Qed.

Lemma admit_tracks c history t now id : tracks c history t -> t <= now ->
  let new := bool_decide (id ∉ (remembered (ec_capacity c) (ec_ttl c) now history).*1) in
  exists c', EventCache_admit c now id = (new, c') /\ ec_capacity c' = ec_capacity c /\ ec_ttl c' = ec_ttl c /\
    tracks c' (if new then history ++ [(id, now)] else history) now.
Proof.
  intros Htr Hnow new. destruct (expire_tracks _ _ _ _ Htr Hnow) as [Htr' Hent]. unfold EventCache_admit.
  rewrite known_in, Hent. fold new. destruct new; simpl; [|by eexists]. eexists. split; [done|]. do 2 (split; [done|]).
  rewrite <- Hent. destruct Htr' as (Hs & Ht & Hlen & pre & Heq & Hpre). simpl in *.
  set (es := drop_while _ _) in *. unfold tracks. simpl. split.
  { apply StronglySorted_app_2; [|done|by repeat constructor]. intros x1 x2 H1 ->%list_elem_of_singleton.
    by apply (proj1 (Forall_forall _ _) Ht). }
  split; [apply Forall_app; split; [done|by repeat constructor]|].
  split; [unfold cap_front; rewrite length_drop; lia|].
  unfold cap_front. rewrite length_app. simpl. destruct (decide (length es < ec_capacity c)%nat) as [Hroom|Hfull].
  - replace (_ - _)%nat with O by lia. exists pre. rewrite Heq, drop_0, <- app_assoc. split; [done|]. left.
    destruct Hpre as [Hd|]; [done | lia].
  - exists (pre ++ take (length es + 1 - ec_capacity c) (es ++ [(id, now)])). rewrite <- app_assoc, take_drop.
    split; [by rewrite Heq, <- app_assoc|]. right. rewrite length_drop, length_app. simpl. lia.
Qed.

Lemma handle_events_ideal l c history t : tracks c history t -> monotone_from t l ->
  handle_events c l = ideal_events (ec_capacity c) (ec_ttl c) history l.
Proof.
  revert c history t. induction l as [|[id now] l IH]; intros c history t Htr; [done|]. intros [Hnow Hl]. simpl.
  destruct (admit_tracks c history t now id Htr Hnow) as (c' & -> & <- & <- & Htr').
  f_equal. by eapply IH.
Qed.

(** A clipboard event is handled once.  Whatever events arrive, at whatever
    times (on a clock that does not run backwards), the cache takes an event for
    new exactly when it is not among the last 256 it took for new, or was taken
    five minutes ago or earlier: expiring from the front and dropping the oldest
    loses nothing that a perfect memory with these two bounds would keep. *)
Theorem event_cache_refines l : monotone_from 0 l ->
  handle_events EventCache_default l = ideal_events EVENT_CACHE_ENTRIES EVENT_CACHE_TTL [] l.
Proof.
  apply handle_events_ideal. split; [constructor|]. split; [constructor|]. split; [simpl; lia|].
  exists []. split; [done|]. by left.
Qed.

(** The same id twice, once more after five minutes, and another one. *)
Lemma event_cache_refines_witness :
  let a := [x01] in let l := [(a, 5); (a, 6); ([x02], 7); (a, 5 + EVENT_CACHE_TTL)] in
  monotone_from 0 l /\ handle_events EventCache_default l = [true; false; true; true] /\
  ideal_events EVENT_CACHE_ENTRIES EVENT_CACHE_TTL [] l = [true; false; true; true].
Proof.
  cbv zeta. assert (monotone_from 0 [([x01], 5); ([x01], 6); ([x02], 7); ([x01], 5 + EVENT_CACHE_TTL)]) as H.
  { simpl. unfold EVENT_CACHE_TTL. lia. }
  split; [exact H|]. pose proof (event_cache_refines _ H) as Heq. split; [vm_compute; reflexivity|].
  rewrite <- Heq. vm_compute. reflexivity.
Defined.

(** * The suppression cache *)

(** An entry for [hash] armed at [t] or later, with at most [n] younger ones. *)
Definition armed (c : SuppressionCache) (hash : bytesn 32) (t : N) (n : nat) : Prop :=
  exists pre e post, sc_entries c = pre ++ e :: post /\ su_hash e = hash /\ t <= su_at e /\ (length post <= n)%nat.

Lemma drop_while_app_keep {A} (p : A -> bool) pre e post : p e = false ->
  exists pre', drop_while p (pre ++ e :: post) = pre' ++ e :: post.
Proof.
  intros He. induction pre as [|x pre [pre' IH]]; simpl; [rewrite He; by exists []|].
  destruct (p x); [by exists pre' | by exists (x :: pre)].
Qed.

Lemma armed_expire c hash t n now : armed c hash t n -> now - t < sc_ttl c -> armed (SuppressionCache_expire c now) hash t n.
Proof.
  intros (pre & e & post & Heq & Hh & Ht & Hn) Hnow. unfold armed, SuppressionCache_expire. simpl. rewrite Heq.
  destruct (drop_while_app_keep (fun e => sc_ttl c <=? now - su_at e) pre e post) as [pre' ->]; [apply N.leb_gt; lia|].
  by exists pre', e, post.
Qed.

Lemma armed_arm c hash t n now hash' origin : armed c hash t n -> now - t < sc_ttl c -> (S (S n) <= sc_capacity c)%nat ->
  armed (arm c now hash' origin) hash t (S n).
Proof.
  intros Ha Hnow Hcap. destruct (armed_expire c hash t n now Ha Hnow) as (pre & e & post & Heq & Hh & Ht & Hn).
  unfold armed, arm. cbn [with_suppressed sc_entries sc_capacity SuppressionCache_expire] in *. rewrite Heq. unfold cap_front.
  rewrite <- app_assoc. cbn [app]. set (x := {| su_hash := _ |}).
  exists (drop (length (pre ++ e :: post ++ [x]) - sc_capacity c) pre), e, (post ++ [x]).
  split_and!; try done; [|rewrite length_app; simpl; lia].
  rewrite drop_app_le; [done|]. rewrite !length_app. simpl. rewrite length_app. simpl. lia.
Qed.

Lemma arm_armed c now hash origin : (1 <= sc_capacity c)%nat -> armed (arm c now hash origin) hash now 0.
Proof.
  intros Hcap. unfold armed, arm. cbn [with_suppressed sc_entries sc_capacity SuppressionCache_expire].
  set (x := {| su_hash := _ |}). set (l := drop_while _ _).
  exists (drop (length (l ++ [x]) - sc_capacity c) l), x, []. split_and!; try done. unfold cap_front.
  rewrite drop_app_le; [done|]. rewrite length_app. simpl. lia.
Qed.

Lemma take_first_armed hash l e post pre : l = pre ++ e :: post -> su_hash e = hash -> is_Some (take_first hash l).
Proof.
  intros -> Hh. induction pre as [|x pre [[y r] IH]]; simpl; unfold eqb.
  - rewrite bool_decide_eq_true_2 by done. eauto.
  - case_bool_decide; [eauto|]. rewrite IH. eauto.
Qed.

Lemma take_first_other hash hash' pre e post x rest : su_hash e = hash -> hash' <> hash ->
  take_first hash' (pre ++ e :: post) = Some (x, rest) ->
  exists pre' post', rest = pre' ++ e :: post' /\ (length post' <= length post)%nat.
Proof.
  intros Hh Hne. revert rest. induction pre as [|y pre IH]; intros rest; simpl; unfold eqb.
  - rewrite bool_decide_eq_false_2 by congruence. destruct (take_first hash' post) as [[z r]|] eqn:Hp; [|done].
    intros [= <- <-]. exists [], r. split; [done|]. clear -Hp. revert z r Hp.
    induction post as [|y post IH]; intros z r; simpl; [done|]. case_match; [by intros [= <- <-]; lia|].
    destruct (take_first hash' post) as [[z' r']|]; [|done]. intros [= <- <-]. specialize (IH _ _ eq_refl). simpl. lia.
  - case_bool_decide; [intros [= <- <-]; by exists pre, post|].
    destruct (take_first hash' (pre ++ e :: post)) as [[z r]|]; [|done]. intros [= <- <-].
    destruct (IH r eq_refl) as (pre' & post' & -> & Hl). by exists (y :: pre'), post'.
Qed.

Lemma armed_take_other c hash t n now hash' : armed c hash t n -> now - t < sc_ttl c -> hash' <> hash ->
  armed (SuppressionCache_take c now hash').2 hash t n.
Proof.
  intros Ha Hnow Hne. pose proof (armed_expire c hash t n now Ha Hnow) as Hx. unfold SuppressionCache_take.
  destruct (take_first hash' _) as [[x rest]|] eqn:Htf; [|done].
  destruct Hx as (pre & e & post & Heq & Hh & Ht & Hn). rewrite Heq in Htf.
  destruct (take_first_other _ _ _ _ _ _ _ Hh Hne Htf) as (pre' & post' & -> & Hl).
  exists pre', e, post'. split_and!; try done. lia.
Qed.

Lemma armed_take c hash t n now : armed c hash t n -> now - t < sc_ttl c ->
  exists origin, (SuppressionCache_take c now hash).1 = Some origin.
Proof.
  intros Ha Hnow. destruct (armed_expire c hash t n now Ha Hnow) as (pre & e & post & Heq & Hh & _).
  unfold SuppressionCache_take. destruct (take_first_armed hash _ _ _ _ Heq Hh) as [[x rest] ->]. by eexists.
Qed.

Lemma take_capacity c now hash : sc_capacity (SuppressionCache_take c now hash).2 = sc_capacity c /\
  sc_ttl (SuppressionCache_take c now hash).2 = sc_ttl c.
Proof. unfold SuppressionCache_take. by destruct (take_first _ _) as [[]|]. Qed.
