(* ===== verification/Clipboard.v ===== *)
(** Clipboard sharing.

    [capabilities/clipboard/src/lib.rs] and [text.rs]: what counts as clipboard
    text, the manager that applies a peer's clips and sends this device's, and
    the supervised watcher of the local clipboard.  [Clip] has the fields of
    [ClipboardManager]; the answers of the host's [ClipboardAuthorizer] and of
    the platform's clipboard are inputs of the steps.  A write to the platform's
    clipboard takes time, so it is a step of its own: [cb_writes] are the writes
    under way, and anything can happen between a write's start and its end.
    [cb_log] records what was put on the clipboard and what was sent.

    The decision on one inbound update is one step: all it awaits are locks and
    one question to the authorizer. *)
From S2P Require Import Prelude External Ids Capability Policy Discovery Dedup.

Definition EVENT_ID_LEN : N := 16.
Definition MAX_CLIPBOARD_TEXT_BYTES : N := 32 * 1024.
Definition PENDING_CLIP_TTL : N := 300 * 1000000000.
Definition WATCH_RESTART_MIN_BACKOFF : N := 1 * 1000000000.
Definition WATCH_RESTART_MAX_BACKOFF : N := 60 * 1000000000.
Definition CLIPBOARD_ID : str := lit "clipboard.v1".

(** * [text.rs] *)

Inductive TextRejection := Empty | TooLarge (bytes : N) | ContainsNul.

Record ClipboardText := { ct_text : str; ct_hash : bytesn 32 }.

Section Text.
Context `{!Crypto}.

Definition content_hash (text : str) : bytesn 32 := sha256 (str_bytes text).

Definition validate (text : str) : result TextRejection ClipboardText :=
  if eqb text [] then Err Empty
  else if MAX_CLIPBOARD_TEXT_BYTES <? str_len text then Err (TooLarge (str_len text))
  else if mem 0 text then Err ContainsNul
  else Ok {| ct_text := text; ct_hash := content_hash text |}.

(** Both fields are private and [validate] is the only constructor. *)
Definition made (t : ClipboardText) : Prop := validate (ct_text t) = Ok t.

(** What can be shared at all. *)
Record sharable (text : str) : Prop := {
  sh_some : text <> [];
  sh_bounded : str_len text <= 32768;
  sh_no_nul : 0 ∉ text
}.

Lemma validate_ok text t : validate text = Ok t <-> sharable text /\ t = {| ct_text := text; ct_hash := content_hash text |}.
Proof.
  unfold validate. split.
  - unfold eqb. case_bool_decide as He; [done|]. destruct (N.ltb_spec MAX_CLIPBOARD_TEXT_BYTES (str_len text)); [done|].
    destruct (mem 0 text) eqn:Hm; [done|]. apply mem_false in Hm. intros [= <-]. by split.
  - intros [[Hne Hb Hn] ->]. unfold eqb. rewrite bool_decide_eq_false_2 by done.
    destruct (N.ltb_spec MAX_CLIPBOARD_TEXT_BYTES (str_len text)) as [Hl|_]; [unfold MAX_CLIPBOARD_TEXT_BYTES in Hl; lia|].
    by apply mem_false in Hn as ->.
Qed.

Lemma validate_made text t : validate text = Ok t -> made t /\ ct_text t = text.
Proof. intros Hv. pose proof (proj1 (validate_ok _ _) Hv) as [_ ->]. by split. Qed.

Lemma made_sharable t : made t -> sharable (ct_text t) /\ ct_hash t = content_hash (ct_text t).
Proof. intros [Hs Ht]%validate_ok. split; [done|]. by rewrite Ht at 1. Qed.
End Text.

(** * Outcomes *)

Module Outcome.
Inductive t :=
| Applied | PendingUser | Duplicate | NotAuthorized | RejectedPolicy | RejectedSensitive
| TooLarge | InvalidText | Failed.

#[export] Instance eq_dec : EqDecision t.
Proof. solve_decision. Defined.

Definition as_str (o : t) : str :=
  match o with
  | Applied => lit "applied"
  | PendingUser => lit "pending"
  | Duplicate => lit "duplicate"
  | NotAuthorized => lit "not authorized"
  | RejectedPolicy => lit "rejected by policy"
  | RejectedSensitive => lit "rejected as sensitive"
  | TooLarge => lit "too large"
  | InvalidText => lit "invalid text"
  | Failed => lit "failed"
  end.

(** [to_proto] and the number of the wire enumeration. *)
Definition to_proto (o : t) : Z :=
  match o with
  | Applied => 1 | PendingUser => 2 | Duplicate => 3 | NotAuthorized => 4 | RejectedPolicy => 5
  | RejectedSensitive => 6 | TooLarge => 7 | InvalidText => 8 | Failed => 9
  end.

(** [ClipboardOutcome::try_from] with its fallback, and [from_proto]. *)
Definition from_proto (i : Z) : t :=
  match i with
  | 1%Z => Applied | 2%Z => PendingUser | 3%Z => Duplicate | 4%Z => NotAuthorized | 5%Z => RejectedPolicy
  | 6%Z => RejectedSensitive | 7%Z => TooLarge | 8%Z => InvalidText | _ => Failed
  end.

Lemma outcome_roundtrip o : from_proto (to_proto o) = o.
Proof. by destruct o. Qed.
End Outcome.

Inductive BackendError := Unavailable | BackendFailed | TimedOut.

Inductive SendError :=
| NotPermitted | NotConnected | NothingToSend | Rejected (r : TextRejection) | Backend (e : BackendError) | SessionBusy.

(** * Messages *)

Record ClipboardUpdate := {
  cu_event_id : bytes;
  cu_origin_device_id : str;
  cu_text_utf8 : str;
  cu_content_hash : bytes;
  cu_sensitive_hint : bool;
  cu_timestamp_unix_ms : Z
}.

Record ClipboardResult := { cr_event_id : bytes; cr_outcome : Z }.

Inductive ClipboardBody := CUpdate (u : ClipboardUpdate) | CResult (r : ClipboardResult).

Record ClipboardControl := { cc_body : option ClipboardBody }.

(** * The manager *)

Record PendingClip := {
  pc_text : ClipboardText;
  pc_sensitive : bool;
  pc_origin_device_id : str;
  pc_received_at : N
}.

(** [ClipboardAuthorizer], as it answers at the moment. *)
Record Authorizer := {
  au_policy_for : Fingerprint -> ClipboardPolicy.t;
  au_auto_send_peers : list Fingerprint
}.

(** A session's outbound queue: takes a message, is gone, or stays full. *)
Inductive Queue := QOpen | QClosed | QFull.

(** Why a write is under way: an update to answer on a channel, or a held clip
    the user asked for. *)
Inductive Purpose := ForUpdate (channel : N) (event_id : bytes) | ForPending (clip : PendingClip).

Record Write := {
  wt_peer : Fingerprint;
  wt_text : ClipboardText;
  wt_sensitive : bool;
  wt_purpose : Purpose
}.

Inductive ClipLog :=
| LWrote (peer : Fingerprint) (text : ClipboardText) (sensitive : bool)
| LHeld (peer : Fingerprint) (text : ClipboardText) (sensitive : bool) (at_ : N)
| LQueued (channel : N) (m : OutboundMessage).

Record Clip := {
  cb_authorizer : option Authorizer;
  cb_local_device_id : str;
  cb_events : EventCache;
  cb_suppression : SuppressionCache;
  cb_sessions : gmap Fingerprint N;
  cb_pending : gmap Fingerprint PendingClip;
  cb_policy_epoch : N;
  cb_last_results : gmap Fingerprint Outcome.t;
  cb_channels : gmap N Queue;
  cb_writes : gmap N Write;
  cb_next_write : N;
  cb_now : N;
  cb_unix_ms : Z;
  cb_log : list ClipLog
}.

(** Field assignments. *)
Definition set_authorizer_field (m : Clip) (a : option Authorizer) : Clip := {|
  cb_authorizer := a; cb_local_device_id := cb_local_device_id m; cb_events := cb_events m;
  cb_suppression := cb_suppression m; cb_sessions := cb_sessions m; cb_pending := cb_pending m;
  cb_policy_epoch := cb_policy_epoch m; cb_last_results := cb_last_results m;
  cb_channels := cb_channels m; cb_writes := cb_writes m; cb_next_write := cb_next_write m;
  cb_now := cb_now m; cb_unix_ms := cb_unix_ms m; cb_log := cb_log m |}.
Definition set_events (m : Clip) (c : EventCache) : Clip := {|
  cb_authorizer := cb_authorizer m; cb_local_device_id := cb_local_device_id m; cb_events := c;
  cb_suppression := cb_suppression m; cb_sessions := cb_sessions m; cb_pending := cb_pending m;
  cb_policy_epoch := cb_policy_epoch m; cb_last_results := cb_last_results m;
  cb_channels := cb_channels m; cb_writes := cb_writes m; cb_next_write := cb_next_write m;
  cb_now := cb_now m; cb_unix_ms := cb_unix_ms m; cb_log := cb_log m |}.
Definition set_suppression (m : Clip) (c : SuppressionCache) : Clip := {|
  cb_authorizer := cb_authorizer m; cb_local_device_id := cb_local_device_id m;
  cb_events := cb_events m; cb_suppression := c; cb_sessions := cb_sessions m;
  cb_pending := cb_pending m; cb_policy_epoch := cb_policy_epoch m;
  cb_last_results := cb_last_results m; cb_channels := cb_channels m; cb_writes := cb_writes m;
  cb_next_write := cb_next_write m; cb_now := cb_now m; cb_unix_ms := cb_unix_ms m; cb_log := cb_log m |}.
Definition set_sessions (m : Clip) (t : gmap Fingerprint N) : Clip := {|
  cb_authorizer := cb_authorizer m; cb_local_device_id := cb_local_device_id m;
  cb_events := cb_events m; cb_suppression := cb_suppression m; cb_sessions := t;
  cb_pending := cb_pending m; cb_policy_epoch := cb_policy_epoch m;
  cb_last_results := cb_last_results m; cb_channels := cb_channels m; cb_writes := cb_writes m;
  cb_next_write := cb_next_write m; cb_now := cb_now m; cb_unix_ms := cb_unix_ms m; cb_log := cb_log m |}.
Definition set_pending (m : Clip) (t : gmap Fingerprint PendingClip) : Clip := {|
  cb_authorizer := cb_authorizer m; cb_local_device_id := cb_local_device_id m;
  cb_events := cb_events m; cb_suppression := cb_suppression m; cb_sessions := cb_sessions m;
  cb_pending := t; cb_policy_epoch := cb_policy_epoch m; cb_last_results := cb_last_results m;
  cb_channels := cb_channels m; cb_writes := cb_writes m; cb_next_write := cb_next_write m;
  cb_now := cb_now m; cb_unix_ms := cb_unix_ms m; cb_log := cb_log m |}.
Definition set_last_results (m : Clip) (t : gmap Fingerprint Outcome.t) : Clip := {|
  cb_authorizer := cb_authorizer m; cb_local_device_id := cb_local_device_id m;
  cb_events := cb_events m; cb_suppression := cb_suppression m; cb_sessions := cb_sessions m;
  cb_pending := cb_pending m; cb_policy_epoch := cb_policy_epoch m; cb_last_results := t;
  cb_channels := cb_channels m; cb_writes := cb_writes m; cb_next_write := cb_next_write m;
  cb_now := cb_now m; cb_unix_ms := cb_unix_ms m; cb_log := cb_log m |}.
Definition set_channels (m : Clip) (t : gmap N Queue) : Clip := {|
  cb_authorizer := cb_authorizer m; cb_local_device_id := cb_local_device_id m;
  cb_events := cb_events m; cb_suppression := cb_suppression m; cb_sessions := cb_sessions m;
  cb_pending := cb_pending m; cb_policy_epoch := cb_policy_epoch m;
  cb_last_results := cb_last_results m; cb_channels := t; cb_writes := cb_writes m;
  cb_next_write := cb_next_write m; cb_now := cb_now m; cb_unix_ms := cb_unix_ms m; cb_log := cb_log m |}.
Definition set_writes (m : Clip) (t : gmap N Write) (next : N) : Clip := {|
  cb_authorizer := cb_authorizer m; cb_local_device_id := cb_local_device_id m;
  cb_events := cb_events m; cb_suppression := cb_suppression m; cb_sessions := cb_sessions m;
  cb_pending := cb_pending m; cb_policy_epoch := cb_policy_epoch m;
  cb_last_results := cb_last_results m; cb_channels := cb_channels m; cb_writes := t;
  cb_next_write := next; cb_now := cb_now m; cb_unix_ms := cb_unix_ms m; cb_log := cb_log m |}.
Definition set_clock (m : Clip) (now : N) (unix : Z) : Clip := {|
  cb_authorizer := cb_authorizer m; cb_local_device_id := cb_local_device_id m;
  cb_events := cb_events m; cb_suppression := cb_suppression m; cb_sessions := cb_sessions m;
  cb_pending := cb_pending m; cb_policy_epoch := cb_policy_epoch m;
  cb_last_results := cb_last_results m; cb_channels := cb_channels m; cb_writes := cb_writes m;
  cb_next_write := cb_next_write m; cb_now := now; cb_unix_ms := unix; cb_log := cb_log m |}.
Definition bump_epoch (m : Clip)  : Clip := {|
  cb_authorizer := cb_authorizer m; cb_local_device_id := cb_local_device_id m;
  cb_events := cb_events m; cb_suppression := cb_suppression m; cb_sessions := cb_sessions m;
  cb_pending := cb_pending m; cb_policy_epoch := cb_policy_epoch m + 1;
  cb_last_results := cb_last_results m; cb_channels := cb_channels m; cb_writes := cb_writes m;
  cb_next_write := cb_next_write m; cb_now := cb_now m; cb_unix_ms := cb_unix_ms m; cb_log := cb_log m |}.
Definition add_log (m : Clip) (l : list ClipLog) : Clip := {|
  cb_authorizer := cb_authorizer m; cb_local_device_id := cb_local_device_id m;
  cb_events := cb_events m; cb_suppression := cb_suppression m; cb_sessions := cb_sessions m;
  cb_pending := cb_pending m; cb_policy_epoch := cb_policy_epoch m;
  cb_last_results := cb_last_results m; cb_channels := cb_channels m; cb_writes := cb_writes m;
  cb_next_write := cb_next_write m; cb_now := cb_now m; cb_unix_ms := cb_unix_ms m;
  cb_log := cb_log m ++ l |}.

Section Manager.
Context `{!Crypto, !Prost ClipboardControl}.

Definition policy_changed (m : Clip) : Clip := bump_epoch m.

Definition set_authorizer (m : Clip) (a : Authorizer) : Clip := policy_changed (set_authorizer_field m (Some a)).

Definition policy_for (m : Clip) (peer : Fingerprint) : ClipboardPolicy.t :=
  match cb_authorizer m with
  | Some a => au_policy_for a peer
  | None => ClipboardPolicy.DENIED
  end.

Definition clip_auto_send_peers (m : Clip) : list Fingerprint :=
  match cb_authorizer m with
  | Some a => au_auto_send_peers a
  | None => []
  end.

Definition attach_session (m : Clip) (peer : Fingerprint) (session : N) : Clip :=
  set_sessions m (<[peer := session]> (cb_sessions m)).

Definition detach_session (m : Clip) (peer : Fingerprint) : Clip :=
  let m1 := set_sessions m (delete peer (cb_sessions m)) in
  let m2 := set_pending m1 (delete peer (cb_pending m1)) in
  set_last_results m2 (delete peer (cb_last_results m2)).

(** A bounded send on a channel. *)
Definition queue_on (m : Clip) (channel : N) (msg : OutboundMessage) : result SendError unit * Clip :=
  match cb_channels m !! channel with
  | Some QOpen => (Ok tt, add_log m [LQueued channel msg])
  | Some QFull => (Err SessionBusy, m)
  | _ => (Err NotConnected, m)
  end.

Definition encode_result (event_id : bytes) (o : Outcome.t) : OutboundMessage := {|
  om_capability_id := CLIPBOARD_ID;
  om_payload := encode_to_vec {| cc_body := Some (CResult {| cr_event_id := event_id; cr_outcome := Outcome.to_proto o |}) |} |}.

(** [handle_control]'s answer to an update, queued by [on_message]. *)
Definition answer (m : Clip) (channel : N) (event_id : bytes) (o : Outcome.t) : Clip :=
  if negb (len event_id =? EVENT_ID_LEN) then m
  else (queue_on m channel (encode_result event_id o)).2.

(** The suppression entry is armed before the write is started. *)
Definition start_write (m : Clip) (peer : Fingerprint) (text : ClipboardText) (sensitive : bool) (origin : str)
    (purpose : Purpose) : Clip :=
  let m1 := set_suppression m (arm (cb_suppression m) (cb_now m) (ct_hash text) origin) in
  let m2 := set_writes m1 (<[cb_next_write m1 := {| wt_peer := peer; wt_text := text; wt_sensitive := sensitive; wt_purpose := purpose |}]>
                             (cb_writes m1)) (cb_next_write m1 + 1) in
  add_log m2 [LWrote peer text sensitive].

(** The decision on an update: an outcome at once, or the clip to write with the
    device it is said to come from. *)
Definition decide_update (m : Clip) (peer : Fingerprint) (peer_device_id : str) (u : ClipboardUpdate)
    : (Outcome.t + ClipboardText * str) * Clip :=
  let policy := policy_for m peer in
  if ClipboardPolicy.is_denied policy then (inl Outcome.NotAuthorized, m)
  else if negb (ClipboardPolicy.allow_receive policy) then (inl Outcome.RejectedPolicy, m)
  else if negb (len (cu_event_id u) =? EVENT_ID_LEN) then (inl Outcome.InvalidText, m)
  else if MAX_CLIPBOARD_TEXT_BYTES <? str_len (cu_text_utf8 u) then (inl Outcome.TooLarge, m)
  else
    match validate (cu_text_utf8 u) with
    | Err (TooLarge _) => (inl Outcome.TooLarge, m)
    | Err _ => (inl Outcome.InvalidText, m)
    | Ok text =>
        if negb (eqb (cu_content_hash u) []) && negb (eqb (cu_content_hash u) (bn_bytes (ct_hash text)))
        then (inl Outcome.InvalidText, m)
        else
          let '(new, events) := EventCache_admit (cb_events m) (cb_now m) (cu_event_id u) in
          let m1 := set_events m events in
          if negb new then (inl Outcome.Duplicate, m1)
          else
            let origin := if eqb (cu_origin_device_id u) [] then peer_device_id
                          else sanitize_device_name (cu_origin_device_id u) in
            if negb (ClipboardPolicy.may_auto_receive policy) then
              let clip := {| pc_text := text; pc_sensitive := cu_sensitive_hint u;
                             pc_origin_device_id := origin; pc_received_at := cb_now m1 |} in
              let m2 := set_pending m1 (<[peer := clip]> (cb_pending m1)) in
              (inl Outcome.PendingUser, add_log m2 [LHeld peer text (cu_sensitive_hint u) (cb_now m)])
            else (inr (text, origin), m1)
    end.

Definition handle_update (m : Clip) (peer : Fingerprint) (peer_device_id : str) (channel : N) (u : ClipboardUpdate) : Clip :=
  match decide_update m peer peer_device_id u with
  | (inl o, m1) => answer m1 channel (cu_event_id u) o
  | (inr (text, origin), m1) =>
      start_write m1 peer text (cu_sensitive_hint u) origin (ForUpdate channel (cu_event_id u))
  end.

(** [on_message] with [handle_control]. *)
Definition on_message (m : Clip) (peer : Fingerprint) (peer_device_id : str) (channel : N) (payload : bytes)
    : Result unit * Clip :=
  match prost_decode payload with
  | None => (Err (EProtocol "malformed clipboard.v1 payload"), m)
  | Some control =>
      (Ok tt,
       match cc_body control with
       | Some (CUpdate u) => handle_update m peer peer_device_id channel u
       | Some (CResult r) => set_last_results m (<[peer := Outcome.from_proto (cr_outcome r)]> (cb_last_results m))
       | None => m
       end)
  end.

Definition pending_fresh (now : N) (clip : PendingClip) : bool := now - pc_received_at clip <? PENDING_CLIP_TTL.

(** [pending_clips] drops what has expired before it reports the rest. *)
Definition pending_clips (m : Clip) : Clip :=
  set_pending m (filter (fun kv => pending_fresh (cb_now m) kv.2 = true) (cb_pending m)).

(** [apply_pending] up to the write. *)
Definition apply_pending (m : Clip) (peer : Fingerprint) : result SendError unit * Clip :=
  if negb (ClipboardPolicy.allow_receive (policy_for m peer)) then (Err NotPermitted, m)
  else
    let m1 := set_pending m (delete peer (cb_pending m)) in
    match cb_pending m !! peer with
    | Some clip =>
        if pending_fresh (cb_now m) clip
        then (Ok tt, start_write m1 peer (pc_text clip) (pc_sensitive clip) (pc_origin_device_id clip) (ForPending clip))
        else (Err NothingToSend, m1)
    | None => (Err NothingToSend, m1)
    end.

(** The end of a write: [apply] answers the peer; [apply_pending] puts the clip
    back when the platform refused it. *)
Definition write_done (m : Clip) (k : N) (r : result BackendError unit) : Clip :=
  match cb_writes m !! k with
  | None => m
  | Some w =>
      let m1 := set_writes m (delete k (cb_writes m)) (cb_next_write m) in
      let m2 := match r with
                | Ok _ => m1
                | Err _ => set_suppression m1 (SuppressionCache_take (cb_suppression m1) (cb_now m1) (ct_hash (wt_text w))).2
                end in
      match wt_purpose w, r with
      | ForUpdate channel event_id, Ok _ => answer m2 channel event_id Outcome.Applied
      | ForUpdate channel event_id, Err _ => answer m2 channel event_id Outcome.Failed
      | ForPending clip, Ok _ => m2
      | ForPending clip, Err _ => pending_clips (set_pending m2 (<[wt_peer w := clip]> (cb_pending m2)))
      end
  end.

(** ** Outbound *)

Record LocalEvent := {
  le_event_id : bytes;
  le_text : ClipboardText;
  le_sensitive : bool;
  le_origin_device_id : str
}.

(** [random] is the generator's draw; none gives an empty id. *)
Definition random_event_id (random : option (bytesn 16)) : bytes :=
  match random with Some b => bn_bytes b | None => [] end.

Definition new_event (m : Clip) (random : option (bytesn 16)) (text : ClipboardText) (sensitive : bool) : LocalEvent := {|
  le_event_id := random_event_id random; le_text := text; le_sensitive := sensitive;
  le_origin_device_id := cb_local_device_id m |}.

Definition encode_update (m : Clip) (e : LocalEvent) : ClipboardControl := {|
  cc_body := Some (CUpdate {|
    cu_event_id := le_event_id e; cu_origin_device_id := le_origin_device_id e;
    cu_text_utf8 := ct_text (le_text e); cu_content_hash := bn_bytes (ct_hash (le_text e));
    cu_sensitive_hint := le_sensitive e; cu_timestamp_unix_ms := cb_unix_ms m |}) |}.

Definition deliver (m : Clip) (peer : Fingerprint) (e : LocalEvent) : result SendError unit * Clip :=
  match cb_sessions m !! peer with
  | None => (Err NotConnected, m)
  | Some channel =>
      queue_on m channel {| om_capability_id := CLIPBOARD_ID; om_payload := encode_to_vec (encode_update m e) |}
  end.

(** What [read_text] of the platform's clipboard answered. *)
Abbreviation ReadText := (result BackendError (option ClipboardText)).

Definition send_text (m : Clip) (peer : Fingerprint) (text : ClipboardText) (sensitive : bool)
    (random : option (bytesn 16)) : result SendError N * Clip :=
  if negb (ClipboardPolicy.allow_send (policy_for m peer)) then (Err NotPermitted, m)
  else
    let '(r, m1) := deliver m peer (new_event m random text sensitive) in
    (_ ← r; Ok (str_len (ct_text text)), m1).

Definition send_current_clipboard (m : Clip) (peer : Fingerprint) (sensitive : bool) (read : ReadText)
    (random : option (bytesn 16)) : result SendError N * Clip :=
  if negb (ClipboardPolicy.allow_send (policy_for m peer)) then (Err NotPermitted, m)
  else
    match read with
    | Ok None => (Err NothingToSend, m)
    | Err e => (Err (Backend e), m)
    | Ok (Some text) =>
        let '(r, m1) := deliver m peer (new_event m random text sensitive) in
        (_ ← r; Ok (str_len (ct_text text)), m1)
    end.

Definition on_local_change (m : Clip) (read : ReadText) (random : option (bytesn 16)) : Clip :=
  match read with
  | Ok (Some text) =>
      let '(origin, cache) := SuppressionCache_take (cb_suppression m) (cb_now m) (ct_hash text) in
      let m1 := set_suppression m cache in
      match origin with
      | Some _ => m1
      | None =>
          let peers := clip_auto_send_peers m1 in
          if eqb peers [] then m1
          else
            let e := new_event m1 random text false in
            foldl (fun m peer => (deliver m peer e).2) m1 peers
      end
  | _ => m
  end.

(** ** The watcher *)

(** Where [run_watcher] waits: for somebody to send to, for another policy after
    the platform said it cannot watch, for the next attempt, or for a change. *)
Inductive Watcher := WIdle (backoff : N) | WStarting (backoff : N) | WUnable (backoff : N) | WSleeping (until backoff : N) | WWatching (backoff : N).

Inductive WatchInput :=
| WEpoch                                     (** a policy change was announced *)
| WStarted (r : result BackendError unit)    (** [watch_changes] answered *)
| WTimer                                     (** the clock moved *)
| WSignal (read : ReadText) (random : option (bytesn 16))
| WEnded.                                    (** the platform's watch stopped *)

(** The top of the outer loop. *)
Definition watch_top (m : Clip) (backoff : N) : Watcher :=
  if eqb (clip_auto_send_peers m) [] then WIdle backoff else WStarting backoff.

Definition watch_step (m : Clip) (w : Watcher) (i : WatchInput) : Watcher * Clip :=
  match w, i with
  | WIdle b, WEpoch => (watch_top m b, m)
  | WStarting b, WStarted (Ok _) => (WWatching WATCH_RESTART_MIN_BACKOFF, m)
  | WStarting b, WStarted (Err Unavailable) => (WUnable b, m)
  | WStarting b, WStarted (Err _) => (WSleeping (cb_now m + b) (N.min (b * 2) WATCH_RESTART_MAX_BACKOFF), m)
  | WUnable b, WEpoch => (watch_top m b, m)
  | WSleeping t b, WTimer => if t <=? cb_now m then (watch_top m b, m) else (w, m)
  | WWatching b, WSignal read random => (w, on_local_change m read random)
  | WWatching b, WEnded => (watch_top m b, m)
  | WWatching b, WEpoch => if eqb (clip_auto_send_peers m) [] then (watch_top m b, m) else (w, m)
  | _, _ => (w, m)
  end.

(** ** Everything that can happen *)

Inductive ClipEvent :=
| EvClock (now : N) (unix : Z)
| EvPolicy (a : Authorizer)
| EvChannel (channel : N) (q : Queue)
| EvConnected (peer : Fingerprint) (channel : N)
| EvDisconnected (peer : Fingerprint)
| EvMessage (peer : Fingerprint) (device_id : str) (channel : N) (payload : bytes)
| EvWritten (k : N) (r : result BackendError unit)
| EvReport
| EvApply (peer : Fingerprint)
| EvSend (peer : Fingerprint) (sensitive : bool) (read : ReadText) (random : option (bytesn 16))
| EvSendText (peer : Fingerprint) (text : ClipboardText) (sensitive : bool) (random : option (bytesn 16))
| EvLocal (read : ReadText) (random : option (bytesn 16)).

Definition clip_step (m : Clip) (ev : ClipEvent) : Clip :=
  match ev with
  | EvClock now unix => set_clock m (N.max (cb_now m) now) unix
  | EvPolicy a => set_authorizer m a
  | EvChannel c q => set_channels m (<[c := q]> (cb_channels m))
  | EvConnected peer c => policy_changed (attach_session m peer c)
  | EvDisconnected peer => detach_session m peer
  | EvMessage peer id c payload => (on_message m peer id c payload).2
  | EvWritten k r => write_done m k r
  | EvReport => pending_clips m
  | EvApply peer => (apply_pending m peer).2
  | EvSend peer s read random => (send_current_clipboard m peer s read random).2
  | EvSendText peer text s random => (send_text m peer text s random).2
  | EvLocal read random => on_local_change m read random
  end.

Definition clip_run (m : Clip) (evs : list ClipEvent) : Clip := foldl clip_step m evs.

Definition ClipboardManager_new (device_id : str) : Clip := {|
  cb_authorizer := None; cb_local_device_id := device_id; cb_events := EventCache_default;
  cb_suppression := SuppressionCache_default; cb_sessions := ∅; cb_pending := ∅; cb_policy_epoch := 0;
  cb_last_results := ∅; cb_channels := ∅; cb_writes := ∅; cb_next_write := 0; cb_now := 0; cb_unix_ms := 0;
  cb_log := [] |}.
End Manager.
