(* ===== verification/ClipboardFacts.v ===== *)
(** What the clipboard manager guarantees.

    Everything put on the clipboard and everything sent is accounted for by one
    allowed cause, and what was written for a peer does not go out again. *)
From S2P Require Import Prelude External Ids Capability Policy Discovery Dedup Clipboard.

Section Facts.
Context `{!Crypto, !Prost ClipboardControl}.

(** ** What each operation logs *)

(** [m'] has logged [l] more than [m]. *)
Definition logs (m m' : Clip) (l : list ClipLog) : Prop := cb_log m' = cb_log m ++ l.

Lemma logs_nil m m' : cb_log m' = cb_log m -> logs m m' [].
Proof. intros H'. unfold logs. by rewrite app_nil_r. Qed.

Lemma queue_on_logs m c msg : exists l, logs m (queue_on m c msg).2 l /\ (l = [] \/ l = [LQueued c msg]).
Proof.
  unfold queue_on. destruct (cb_channels m !! c) as [[]|]; [exists [LQueued c msg] | exists []..];
    (split; [first [done | by apply logs_nil] | by auto]).
Qed.

Lemma queue_on_same m c msg : cb_pending (queue_on m c msg).2 = cb_pending m /\
  cb_writes (queue_on m c msg).2 = cb_writes m /\ cb_suppression (queue_on m c msg).2 = cb_suppression m /\
  cb_sessions (queue_on m c msg).2 = cb_sessions m /\ cb_now (queue_on m c msg).2 = cb_now m /\
  cb_unix_ms (queue_on m c msg).2 = cb_unix_ms m /\ cb_channels (queue_on m c msg).2 = cb_channels m.
Proof. unfold queue_on. by repeat case_match. Qed.

Lemma answer_logs m c id o : exists l, logs m (answer m c id o) l /\ (l = [] \/ l = [LQueued c (encode_result id o)]).
Proof. unfold answer. case_match; [exists []; split; [by apply logs_nil | by left] | apply queue_on_logs]. Qed.

Lemma answer_same m c id o : cb_pending (answer m c id o) = cb_pending m /\
  cb_writes (answer m c id o) = cb_writes m /\ cb_suppression (answer m c id o) = cb_suppression m /\
  cb_now (answer m c id o) = cb_now m.
Proof. unfold answer. case_match; [done|]. by destruct (queue_on_same m c (encode_result id o)) as (-> & -> & -> & _ & -> & _). Qed.

(** ** One cause for everything *)

(** An update as it travels, and the text it carries. *)
Definition carries (payload : bytes) (u : ClipboardUpdate) (t : ClipboardText) (s : bool) : Prop :=
  prost_decode payload = Some {| cc_body := Some (CUpdate u) |} /\
  cu_text_utf8 u = ct_text t /\ cu_sensitive_hint u = s /\ sharable (ct_text t).

(** [msg] carries the text [t] of this device. *)
Definition shares (m : Clip) (msg : OutboundMessage) (t : ClipboardText) : Prop :=
  exists e, le_text e = t /\ le_origin_device_id e = cb_local_device_id m /\
    om_payload msg = encode_to_vec (encode_update m e).

(** Why [ev] may do [entry] in [m]. *)
Definition explained (m : Clip) (ev : ClipEvent) (entry : ClipLog) : Prop :=
  match entry with
  | LHeld p t s at_ =>
      exists dev c payload u, ev = EvMessage p dev c payload /\ carries payload u t s /\ at_ = cb_now m /\
        ClipboardPolicy.allow_receive (policy_for m p) = true /\
        (EventCache_admit (cb_events m) (cb_now m) (cu_event_id u)).1 = true
  | LWrote p t s =>
      ClipboardPolicy.allow_receive (policy_for m p) = true /\ sharable (ct_text t) /\
      ((exists dev c payload u, ev = EvMessage p dev c payload /\ carries payload u t s /\
          ClipboardPolicy.auto_receive (policy_for m p) = true /\
          (EventCache_admit (cb_events m) (cb_now m) (cu_event_id u)).1 = true) \/
       (ev = EvApply p /\ exists at_, LHeld p t s at_ ∈ cb_log m /\ cb_now m - at_ < PENDING_CLIP_TTL))
  | LQueued c msg =>
      (exists id o, msg = encode_result id o /\
         ((exists p dev payload, ev = EvMessage p dev c payload) \/
          (exists k r w, ev = EvWritten k r /\ cb_writes m !! k = Some w /\ wt_purpose w = ForUpdate c id))) \/
      (exists p t, cb_sessions m !! p = Some c /\ shares m msg t /\
         ((exists s r, ev = EvSend p s (Ok (Some t)) r /\ ClipboardPolicy.allow_send (policy_for m p) = true) \/
          (exists s r, ev = EvSendText p t s r /\ ClipboardPolicy.allow_send (policy_for m p) = true) \/
          (exists r, ev = EvLocal (Ok (Some t)) r /\ p ∈ clip_auto_send_peers m /\
             (SuppressionCache_take (cb_suppression m) (cb_now m) (ct_hash t)).1 = None)))
  end.

(** Held clips were logged when they came, and so were those being written. *)
Definition held_ok (m : Clip) : Prop :=
  (forall p clip, cb_pending m !! p = Some clip ->
     made (pc_text clip) /\ LHeld p (pc_text clip) (pc_sensitive clip) (pc_received_at clip) ∈ cb_log m) /\
  (forall k w clip, cb_writes m !! k = Some w -> wt_purpose w = ForPending clip ->
     made (pc_text clip) /\ LHeld (wt_peer w) (pc_text clip) (pc_sensitive clip) (pc_received_at clip) ∈ cb_log m).

Lemma held_ok_grows m m' l : logs m m' l -> cb_pending m' = cb_pending m -> cb_writes m' = cb_writes m ->
  held_ok m -> held_ok m'.
Proof.
  intros Hl Hp Hw [H1 H2]. unfold held_ok. rewrite Hl, Hp, Hw. split.
  - intros p clip Hc. destruct (H1 p clip Hc). set_solver.
  - intros k w clip Hc Hf. destruct (H2 k w clip Hc Hf). set_solver.
Qed.

(** What one step does: everything it logs is explained, and held clips stay
    accounted for. *)
Definition accounted (m : Clip) (ev : ClipEvent) (m' : Clip) : Prop :=
  held_ok m -> (exists l, logs m m' l /\ Forall (explained m ev) l) /\ held_ok m'.

Lemma accounted_quiet m ev m' : cb_log m' = cb_log m -> cb_pending m' = cb_pending m -> cb_writes m' = cb_writes m ->
  accounted m ev m'.
Proof.
  intros Hl Hp Hw Hok. split; [exists []; split; [by apply logs_nil | constructor]|].
  apply (held_ok_grows m m' []); [by apply logs_nil | done..].
Qed.

(** Fewer held clips are no trouble. *)
Lemma accounted_fewer m ev m' : cb_log m' = cb_log m -> cb_pending m' ⊆ cb_pending m -> cb_writes m' ⊆ cb_writes m ->
  accounted m ev m'.
Proof.
  intros Hl Hp Hw [H1 H2]. split; [exists []; split; [by apply logs_nil | constructor]|].
  unfold held_ok. rewrite Hl. split.
  - intros p clip Hc. apply H1. by eapply lookup_weaken.
  - intros k w clip Hc. apply (H2 k w clip). by eapply lookup_weaken.
Qed.

Lemma accounted_queued m ev c msg : explained m ev (LQueued c msg) -> accounted m ev (queue_on m c msg).2.
Proof.
  intros He. destruct (queue_on_logs m c msg) as (l & Hl & Hc).
  destruct (queue_on_same m c msg) as (Hp & Hw & _). intros Hok. split.
  - exists l. split; [done|]. destruct Hc as [->| ->]; [apply Forall_nil_2 | by apply Forall_singleton].
  - by apply (held_ok_grows m _ l).
Qed.

Lemma start_write_held m p t s origin purpose : held_ok m ->
  (forall clip, purpose = ForPending clip ->
     made (pc_text clip) /\ LHeld p (pc_text clip) (pc_sensitive clip) (pc_received_at clip) ∈ cb_log m) ->
  held_ok (start_write m p t s origin purpose).
Proof.
  intros [H1 H2] Hpur. unfold start_write, held_ok. simpl. split.
  - intros q clip Hc. destruct (H1 q clip Hc). set_solver.
  - intros k w clip [[<- <-]|[_ Hk]]%lookup_insert_Some Hf; simpl in *.
    + destruct (Hpur clip Hf). set_solver.
    + destruct (H2 k w clip Hk Hf). set_solver.
Qed.

Lemma decide_update_spec m p dev u :
  let policy := policy_for m p in
  match decide_update m p dev u with
  | (inl _, m1) =>
      cb_writes m1 = cb_writes m /\
      ((cb_log m1 = cb_log m /\ cb_pending m1 = cb_pending m) \/
       exists clip, validate (cu_text_utf8 u) = Ok (pc_text clip) /\ pc_sensitive clip = cu_sensitive_hint u /\
         pc_received_at clip = cb_now m /\ ClipboardPolicy.allow_receive policy = true /\
         (EventCache_admit (cb_events m) (cb_now m) (cu_event_id u)).1 = true /\
         cb_pending m1 = <[p := clip]> (cb_pending m) /\
         logs m m1 [LHeld p (pc_text clip) (pc_sensitive clip) (pc_received_at clip)])
  | (inr (t, _), m1) =>
      validate (cu_text_utf8 u) = Ok t /\ ClipboardPolicy.allow_receive policy = true /\
      ClipboardPolicy.auto_receive policy = true /\
      (EventCache_admit (cb_events m) (cb_now m) (cu_event_id u)).1 = true /\
      cb_log m1 = cb_log m /\ cb_pending m1 = cb_pending m /\ cb_writes m1 = cb_writes m /\
      cb_now m1 = cb_now m /\ cb_suppression m1 = cb_suppression m
  end.
Proof.
  intros policy. unfold decide_update. fold policy. destruct (ClipboardPolicy.is_denied policy); [by auto|].
  destruct (ClipboardPolicy.allow_receive policy) eqn:Hr; cbn [negb]; [|by auto].
  destruct (negb (len _ =? _)); [by auto|]. destruct (_ <? _); [by auto|].
  destruct (validate _) as [t|[]]; [|by auto..]. destruct (_ && _); [by auto|].
  destruct (EventCache_admit _ _ _) as [[] c] eqn:Ha; simpl; [|by auto].
  unfold ClipboardPolicy.may_auto_receive. rewrite Hr. simpl.
  destruct (ClipboardPolicy.auto_receive policy) eqn:Hauto; simpl; [done|].
  split; [done|]. right. match goal with |- context [<[_ := ?c]> _] => exists c end. by split_and!.
Qed.

Lemma update_accounted m p dev c payload u : prost_decode payload = Some {| cc_body := Some (CUpdate u) |} ->
  accounted m (EvMessage p dev c payload) (handle_update m p dev c u).
Proof.
  intros Hpay Hok. unfold handle_update. pose proof (decide_update_spec m p dev u) as Hd. simpl in Hd.
  destruct (decide_update m p dev u) as [[o|[t origin]] m1].
  - destruct Hd as [Hw Hd]. destruct (answer_logs m1 c (cu_event_id u) o) as (l & Hl & Hc).
    destruct (answer_same m1 c (cu_event_id u) o) as (Hp' & Hw' & _).
    assert (Forall (explained m (EvMessage p dev c payload)) l) as Hq.
    { destruct Hc as [->| ->]; [apply Forall_nil_2 | apply Forall_singleton]. left. do 2 eexists. split; [done|]. left. eauto. }
    destruct Hd as [[Hlog Hp]|(clip & Hv & Hs & Hat & Hr & Hnew & Hp & Hlog)].
    + split; [exists l; split; [unfold logs; by rewrite <- Hlog | done]|].
      apply (held_ok_grows m _ l); [unfold logs; by rewrite <- Hlog | by rewrite Hp', Hp | by rewrite Hw', Hw | done].
    + destruct (validate_made _ _ Hv) as [Hmade Htext]. split.
      * eexists. split; [unfold logs; rewrite Hl, Hlog; by rewrite <- app_assoc|]. apply Forall_app. split; [|done].
        apply Forall_singleton. exists dev, c, payload, u. split_and!; try done.
        by apply made_sharable in Hmade as [? _].
      * destruct Hok as [H1 H2]. unfold held_ok. rewrite Hl, Hlog, Hp', Hw', Hp, Hw. split.
        -- intros q clip' [[<- <-]|[_ Hq']]%lookup_insert_Some; [split; [done | set_solver]|].
           destruct (H1 q clip' Hq'). set_solver.
        -- intros k w clip' Hk Hf. destruct (H2 k w clip' Hk Hf). set_solver.
  - destruct Hd as (Hv & Hr & Hauto & Hnew & Hlog & Hp & Hw & Hnow & _).
    destruct (validate_made _ _ Hv) as [Hmade Htext]. destruct (made_sharable _ Hmade) as [Hsh _]. split.
    + exists [LWrote p t (cu_sensitive_hint u)]. split; [unfold logs, start_write; simpl; by rewrite Hlog|].
      apply Forall_singleton. split_and!; try done. left. by exists dev, c, payload, u.
    + apply start_write_held; [|done]. by apply (held_ok_grows m m1 []); [apply logs_nil|..].
Qed.

Lemma apply_accounted m p : accounted m (EvApply p) (apply_pending m p).2.
Proof.
  intros Hok. unfold apply_pending.
  destruct (ClipboardPolicy.allow_receive _) eqn:Hr; cbn [negb]; [|by apply accounted_quiet].
  assert (Hdel : accounted m (EvApply p) (set_pending m (delete p (cb_pending m)))).
  { apply accounted_fewer; [done | apply delete_subseteq | done]. }
  destruct (cb_pending m !! p) as [clip|] eqn:Hc; [|by apply Hdel].
  destruct (pending_fresh _ _) eqn:Hf; [|by apply Hdel]. apply N.ltb_lt in Hf.
  destruct (proj1 Hok p clip Hc) as [Hmade Hheld]. destruct (made_sharable _ Hmade) as [Hsh _]. split.
  - exists [LWrote p (pc_text clip) (pc_sensitive clip)]. split; [done|]. apply Forall_singleton.
    split_and!; try done. right. eauto.
  - apply start_write_held; [by apply Hdel|]. by intros ? [= <-].
Qed.

Lemma written_accounted m k r : accounted m (EvWritten k r) (write_done m k r).
Proof.
  intros Hok. unfold write_done. destruct (cb_writes m !! k) as [w|] eqn:Hw; [|by apply accounted_quiet].
  set (m1 := set_writes m _ _). set (m2 := match r with Ok _ => m1 | Err _ => _ end).
  assert (Hm2 : accounted m (EvWritten k r) m2).
  { apply accounted_fewer; subst m2 m1; destruct r; simpl; try done; apply delete_subseteq. }
  destruct (Hm2 Hok) as [(l2 & Hl2 & _) Hok2].
  assert (Hlog : cb_log m2 = cb_log m) by (subst m2 m1; by destruct r).
  destruct (wt_purpose w) as [c id|clip] eqn:Hpur.
  - assert (Hans : forall o, (exists l, logs m (answer m2 c id o) l /\ Forall (explained m (EvWritten k r)) l) /\ held_ok (answer m2 c id o)).
    { intros o. destruct (answer_logs m2 c id o) as (l & Hl & Hc). destruct (answer_same m2 c id o) as (Hp' & Hw' & _).
      split; [|by apply (held_ok_grows m2 _ l)]. exists l. split; [unfold logs in *; by rewrite <- Hlog|].
      destruct Hc as [->| ->]; [apply Forall_nil_2 | apply Forall_singleton]. left. do 2 eexists. split; [done|]. right. eauto 10. }
    destruct r; apply Hans.
  - destruct r as [u|e]; [by apply Hm2|]. split; [exists []; split; [by apply logs_nil | constructor]|].
    destruct (proj2 Hok k w clip Hw Hpur) as [Hmade Hheld].
    destruct Hok2 as [H1 H2]. unfold held_ok, pending_clips. simpl. rewrite <- Hlog in Hheld. split; [|exact H2].
    intros q clip' [Hq _]%map_lookup_filter_Some. apply lookup_insert_Some in Hq as [[<- <-]|[_ Hq]]; auto.
Qed.

Lemma deliver_accounted m ev p e : le_origin_device_id e = cb_local_device_id m ->
  (forall c msg, cb_sessions m !! p = Some c -> shares m msg (le_text e) -> explained m ev (LQueued c msg)) ->
  accounted m ev (deliver m p e).2.
Proof.
  intros Hor He. unfold deliver. destruct (cb_sessions m !! p) as [c|] eqn:Hc; [|by apply accounted_quiet].
  apply accounted_queued. apply He; [done|]. exists e. done.
Qed.

Lemma deliver_all_accounted m m1 ev e peers :
  cb_sessions m1 = cb_sessions m -> cb_unix_ms m1 = cb_unix_ms m -> le_origin_device_id e = cb_local_device_id m ->
  (forall p c msg, p ∈ peers -> cb_sessions m !! p = Some c -> shares m msg (le_text e) -> explained m ev (LQueued c msg)) ->
  held_ok m1 -> let m' := foldl (fun m p => (deliver m p e).2) m1 peers in
  (exists l, logs m1 m' l /\ Forall (explained m ev) l) /\ held_ok m'.
Proof.
  intros Hs Hu Hor. revert m1 Hs Hu. induction peers as [|p peers IH]; intros m1 Hs Hu He Hok m'.
  { split; [exists []; split; [by apply logs_nil | constructor] | done]. }
  assert (Hone : (exists l, logs m1 (deliver m1 p e).2 l /\ Forall (explained m ev) l) /\ held_ok (deliver m1 p e).2 /\
    cb_sessions (deliver m1 p e).2 = cb_sessions m /\ cb_unix_ms (deliver m1 p e).2 = cb_unix_ms m).
  { unfold deliver. rewrite Hs. destruct (cb_sessions m !! p) as [c|] eqn:Hc.
    - set (msg := {| om_capability_id := _ |}). destruct (queue_on_logs m1 c msg) as (l & Hl & Hcase).
      destruct (queue_on_same m1 c msg) as (Hp' & Hw' & _ & Hs' & _ & Hu' & _). split_and!; try congruence.
      + exists l. split; [done|]. destruct Hcase as [->| ->]; [apply Forall_nil_2 | apply Forall_singleton].
        apply (He p); [set_solver | done|]. exists e. split_and!; try done. simpl. unfold encode_update. by rewrite Hu.
      + by apply (held_ok_grows m1 _ l).
    - split_and!; try done. exists []. split; [by apply logs_nil | constructor]. }
  destruct Hone as ((l1 & Hl1 & Hf1) & Hok1 & Hs1 & Hu1).
  destruct (IH (deliver m1 p e).2) as [(l2 & Hl2 & Hf2) Hok2]; try done.
  { intros q c msg Hq. apply He. set_solver. }
  split; [|done]. exists (l1 ++ l2). split; [subst m'; unfold logs in *; cbn [foldl]; by rewrite Hl2, Hl1, <- app_assoc|].
  by apply Forall_app.
Qed.

Lemma local_accounted m read r : accounted m (EvLocal read r) (on_local_change m read r).
Proof.
  intros Hok. unfold on_local_change. destruct read as [[t|]|]; [|by apply accounted_quiet..].
  destruct (SuppressionCache_take _ _ _) as [origin cache] eqn:Htake. set (m1 := set_suppression m cache).
  assert (Hok1 : held_ok m1) by exact Hok.
  destruct origin as [o|]; [by apply accounted_quiet|]. destruct (eqb _ []); [by apply accounted_quiet|].
  apply (deliver_all_accounted m m1); try done. intros p c msg Hp Hc Hsh. right. exists p, t.
  split; [done|]. split; [done|]. right. right. exists r. split; [done|]. split; [done|]. by rewrite Htake.
Qed.

Lemma send_accounted m p s read r : accounted m (EvSend p s read r) (send_current_clipboard m p s read r).2.
Proof.
  unfold send_current_clipboard. destruct (ClipboardPolicy.allow_send _) eqn:Ha; cbn [negb]; [|by apply accounted_quiet].
  destruct read as [[t|]|]; [|by apply accounted_quiet..].
  assert (accounted m (EvSend p s (Ok (Some t)) r) (deliver m p (new_event m r t s)).2) as Hd.
  { apply deliver_accounted; [done|]. intros c msg Hc Hsh. right. exists p, t. split_and!; try done. left. eauto. }
  by destruct (deliver _ _ _) as [? ?].
Qed.

Lemma send_text_accounted m p t s r : accounted m (EvSendText p t s r) (send_text m p t s r).2.
Proof.
  unfold send_text. destruct (ClipboardPolicy.allow_send _) eqn:Ha; cbn [negb]; [|by apply accounted_quiet].
  assert (accounted m (EvSendText p t s r) (deliver m p (new_event m r t s)).2) as Hd.
  { apply deliver_accounted; [done|]. intros c msg Hc Hsh. right. exists p, t. split_and!; try done. right. left. eauto. }
  by destruct (deliver _ _ _) as [? ?].
Qed.

Lemma step_accounted m ev : accounted m ev (clip_step m ev).
Proof.
  destruct ev; simpl; try (by apply accounted_quiet).
  - apply accounted_fewer; [done | apply delete_subseteq | done].
  - unfold on_message. destruct (prost_decode payload) as [[[[u|r]|]]|] eqn:Hp; [|by apply accounted_quiet..].
    by apply update_accounted.
  - apply written_accounted.
  - apply accounted_fewer; [done | apply map_filter_subseteq | done].
  - apply apply_accounted.
  - apply send_accounted.
  - apply send_text_accounted.
  - apply local_accounted.
Qed.

Lemma held_ok_new id : held_ok (ClipboardManager_new id).
Proof. split; intros ???; by rewrite ?lookup_empty. Qed.

Lemma held_ok_run m evs : held_ok m -> held_ok (clip_run m evs).
Proof. revert m. induction evs as [|ev evs IH]; intros m Hok; [done|]. apply IH. by apply (step_accounted m ev). Qed.


(** ** No echo, no relay *)

(** Events that do not use up the entry for [h]: nobody reads that text off the
    local clipboard, and no other write of it fails. *)
Definition leaves (h : bytesn 32) (m : Clip) (ev : ClipEvent) : Prop :=
  match ev with
  | EvLocal (Ok (Some t)) _ => ct_hash t <> h
  | EvWritten k (Err _) => forall w, cb_writes m !! k = Some w -> ct_hash (wt_text w) <> h
  | _ => True
  end.

Fixpoint all_leave (h : bytesn 32) (m : Clip) (evs : list ClipEvent) : Prop :=
  match evs with
  | [] => True
  | ev :: evs' => leaves h m ev /\ all_leave h (clip_step m ev) evs'
  end.

(** Events that may start a write. *)
Definition arming (ev : ClipEvent) : bool :=
  match ev with EvMessage _ _ _ _ | EvApply _ => true | _ => false end.

Lemma deliver_keeps m p e : cb_suppression (deliver m p e).2 = cb_suppression m /\ cb_now (deliver m p e).2 = cb_now m.
Proof.
  unfold deliver. destruct (cb_sessions m !! p) as [c|]; [|done].
  by destruct (queue_on_same m c {| om_capability_id := CLIPBOARD_ID; om_payload := encode_to_vec (encode_update m e) |})
    as (_ & _ & -> & _ & -> & _).
Qed.

Lemma deliver_all_keeps m e peers : let m' := foldl (fun m p => (deliver m p e).2) m peers in
  cb_suppression m' = cb_suppression m /\ cb_now m' = cb_now m.
Proof.
  revert m. induction peers as [|p peers IH]; intros m; [done|]. simpl. destruct (IH (deliver m p e).2) as [-> ->].
  apply deliver_keeps.
Qed.

Lemma message_suppression m p dev c payload :
  let m' := (on_message m p dev c payload).2 in cb_now m' = cb_now m /\
  (cb_suppression m' = cb_suppression m \/
   exists h o, cb_suppression m' = arm (cb_suppression m) (cb_now m) h o).
Proof.
  unfold on_message. destruct (prost_decode payload) as [[[[u|r]|]]|]; simpl; auto. unfold handle_update.
  pose proof (decide_update_spec m p dev u) as Hd. simpl in Hd.
  assert (cb_suppression (decide_update m p dev u).2 = cb_suppression m /\ cb_now (decide_update m p dev u).2 = cb_now m) as [Hs Hn].
  { unfold decide_update. repeat case_match; done. }
  destruct (decide_update m p dev u) as [[o|[t origin]] m1]; simpl in *.
  - destruct (answer_same m1 c (cu_event_id u) o) as (_ & _ & -> & ->). rewrite Hs, Hn. auto.
  - rewrite Hs, Hn. split; [done|]. right. by do 2 eexists.
Qed.

Lemma step_suppression h m ev : let m' := clip_step m ev in cb_now m <= cb_now m' /\
  (cb_suppression m' = cb_suppression m \/
   (exists h', (leaves h m ev -> h' <> h) /\ cb_suppression m' = (SuppressionCache_take (cb_suppression m) (cb_now m) h').2) \/
   (arming ev = true /\ exists h' o, cb_suppression m' = arm (cb_suppression m) (cb_now m) h' o)).
Proof.
  destruct ev as [now' unix|a|c' q|p c'|p|p dev c' payload|k r| |p|p s read r|p t s r|read r]; simpl;
    try (split; [done || lia | by auto]).
  - destruct (message_suppression m p dev c' payload) as [-> [->|Ha]]; auto.
  - unfold write_done. destruct (cb_writes m !! k) as [w|] eqn:Hw; [|auto].
    destruct r as [u|e]; destruct (wt_purpose w) as [c id|clip]; simpl; auto.
    + match goal with |- context [answer ?a ?b ?x ?y] => destruct (answer_same a b x y) as (_ & _ & -> & ->) end. auto.
    + match goal with |- context [answer ?a ?b ?x ?y] => destruct (answer_same a b x y) as (_ & _ & -> & ->) end. simpl.
      split; [done|]. right. left. exists (ct_hash (wt_text w)). auto.
    + split; [done|]. right. left. exists (ct_hash (wt_text w)). auto.
  - unfold apply_pending. repeat case_match; simpl; auto. split; [done|]. right. right. split; [done|]. by do 2 eexists.
  - unfold send_current_clipboard. repeat case_match; simplify_eq/=; auto.
    match goal with Hd : deliver ?a ?b ?e = (_, ?m1) |- _ => pose proof (deliver_keeps a b e) as [Hs Hn]; rewrite Hd in Hs, Hn end.
    simpl in *. rewrite Hs, Hn. auto.
  - unfold send_text. repeat case_match; simplify_eq/=; auto.
    match goal with Hd : deliver ?a ?b ?e = (_, ?m1) |- _ => pose proof (deliver_keeps a b e) as [Hs Hn]; rewrite Hd in Hs, Hn end.
    simpl in *. rewrite Hs, Hn. auto.
  - unfold on_local_change. destruct read as [[t|]|]; auto.
    destruct (SuppressionCache_take _ _ _) as [origin cache] eqn:Ht.
    assert (cache = (SuppressionCache_take (cb_suppression m) (cb_now m) (ct_hash t)).2) as Hc by by rewrite Ht.
    destruct origin as [o|]; simpl; [split; [done|]; right; left; eauto|].
    destruct (eqb _ []); simpl; [split; [done|]; right; left; eauto|].
    match goal with |- context [foldl _ ?a ?ps] => destruct (deliver_all_keeps a (new_event (set_suppression m cache) r t false) ps) as [-> ->] end.
    simpl. split; [done|]. right. left. eauto.
Qed.

Definition cache_ok (m : Clip) : Prop :=
  sc_capacity (cb_suppression m) = SUPPRESSION_ENTRIES /\ sc_ttl (cb_suppression m) = SUPPRESSION_TTL.

Lemma cache_ok_step m ev : cache_ok m -> cache_ok (clip_step m ev).
Proof.
  unfold cache_ok. destruct (step_suppression (sha256 []) m ev) as [_ [->|[(h' & _ & ->)|(_ & h' & o & ->)]]]; try done.
  by destruct (take_capacity (cb_suppression m) (cb_now m) h') as [-> ->].
Qed.

Lemma cache_ok_run m evs : cache_ok m -> cache_ok (clip_run m evs).
Proof. revert m. induction evs as [|ev evs IH]; intros m Hok; [done|]. by apply IH, cache_ok_step. Qed.

Lemma clip_run_now m evs : cb_now m <= cb_now (clip_run m evs).
Proof.
  revert m. induction evs as [|ev evs IH]; intros m; [done|]. etrans; [|apply IH].
  apply (step_suppression (sha256 []) m ev).
Qed.

Lemma armed_run h t n m evs : cache_ok m -> armed (cb_suppression m) h t n -> all_leave h m evs ->
  (n + length (filter (fun ev => arming ev = true) evs) < SUPPRESSION_ENTRIES)%nat ->
  cb_now (clip_run m evs) - t < SUPPRESSION_TTL ->
  exists n', armed (cb_suppression (clip_run m evs)) h t n'.
Proof.
  revert n m. induction evs as [|ev evs IH]; intros n m Hok Ha Hl Hn Hnow; [by exists n|].
  destruct Hl as [Hev Hl]. simpl in Hnow. pose proof (clip_run_now (clip_step m ev) evs) as Hmono.
  destruct (step_suppression h m ev) as [Hle Hc]. pose proof (cache_ok_step m ev Hok) as Hok'. destruct Hok as [Hcap Httl].
  assert (cb_now m - t < sc_ttl (cb_suppression m)) as Hlive by (rewrite Httl; change (foldl clip_step ?a ?b) with (clip_run a b) in *; lia).
  rewrite filter_cons in Hn. destruct Hc as [Hs|[(h' & Hne & Hs)|(Harm & h' & o & Hs)]].
  - apply (IH n); try done; [by rewrite Hs | case_decide; simpl in *; lia].
  - apply (IH n); try done; [rewrite Hs; by apply armed_take_other; auto | case_decide; simpl in *; lia].
  - rewrite decide_True in Hn by done. simpl in Hn. apply (IH (S n)); try done; [|lia].
    rewrite Hs. apply armed_arm; try done. rewrite Hcap. unfold SUPPRESSION_ENTRIES in *. lia.
Qed.

Lemma deliver_queues m p c e : cb_sessions m !! p = Some c -> cb_channels m !! c = Some QOpen ->
  LQueued c {| om_capability_id := CLIPBOARD_ID; om_payload := encode_to_vec (encode_update m e) |} ∈ cb_log (deliver m p e).2.
Proof. intros Hs Hc. unfold deliver, queue_on. rewrite Hs, Hc. simpl. set_solver. Qed.

Lemma deliver_frame m p e : let m' := (deliver m p e).2 in cb_sessions m' = cb_sessions m /\
  cb_channels m' = cb_channels m /\ cb_unix_ms m' = cb_unix_ms m /\ cb_log m `prefix_of` cb_log m'.
Proof.
  unfold deliver, queue_on. destruct (cb_sessions m !! p) as [c|]; [|done].
  destruct (cb_channels m !! c) as [[]|]; try done. split_and!; try done. by eexists.
Qed.

Lemma deliver_all_queues m p c e peers : p ∈ peers -> cb_sessions m !! p = Some c -> cb_channels m !! c = Some QOpen ->
  LQueued c {| om_capability_id := CLIPBOARD_ID; om_payload := encode_to_vec (encode_update m e) |} ∈
    cb_log (foldl (fun m p => (deliver m p e).2) m peers).
Proof.
  set (msg := fun m => {| om_capability_id := CLIPBOARD_ID; om_payload := encode_to_vec (encode_update m e) |}).
  assert (Hkeep : forall peers m, cb_log m `prefix_of` cb_log (foldl (fun m p => (deliver m p e).2) m peers)).
  { intros ps. induction ps as [|q ps IH]; intros m0; [done|]. etrans; [apply (deliver_frame m0 q e) | apply IH]. }
  intros Hp Hs Hc. change (LQueued c (msg m) ∈ cb_log (foldl (fun m p => (deliver m p e).2) m peers)).
  revert m Hs Hc. induction peers as [|q peers IH]; intros m Hs Hc; [set_solver|]. simpl.
  destruct (decide (p = q)) as [<-|Hne].
  - destruct (Hkeep peers (deliver m p e).2) as [l ->]. apply elem_of_app. left. by apply deliver_queues.
  - destruct (deliver_frame m q e) as (Hs' & Hc' & Hu & _).
    assert (msg m = msg (deliver m q e).2) as -> by (unfold msg, encode_update; by rewrite Hu).
    apply IH; [set_solver | by rewrite Hs' | by rewrite Hc'].
Qed.

(** A text with no entry left is a copy of the user's. *)
Lemma local_copy_sent m t r q c : (SuppressionCache_take (cb_suppression m) (cb_now m) (ct_hash t)).1 = None ->
  q ∈ clip_auto_send_peers m -> cb_sessions m !! q = Some c -> cb_channels m !! c = Some QOpen ->
  LQueued c {| om_capability_id := CLIPBOARD_ID; om_payload := encode_to_vec (encode_update m (new_event m r t false)) |} ∈
    cb_log (on_local_change m (Ok (Some t)) r).
Proof.
  intros Hnone Hq Hs Hc. unfold on_local_change. destruct (SuppressionCache_take _ _ _) as [o cache].
  simpl in Hnone. subst o. cbv zeta.
  change (clip_auto_send_peers (set_suppression m cache)) with (clip_auto_send_peers m). unfold eqb.
  case_bool_decide as He; [rewrite He in Hq; set_solver|].
  exact (deliver_all_queues (set_suppression m cache) q c _ _ Hq Hs Hc).
Qed.

End Facts.
