(* ===== verification/ClipboardRuns.v ===== *)
(** The clipboard, run.

    A clip from a phone reaches the desktop's clipboard, its echo is swallowed,
    and the same text copied by hand goes out; evaluated with concrete codecs.
    Then runs that show behaviour the comments of the code do not promise: a clip
    put back after a failed write replaces a newer one, a session that closes
    late takes its successor's channel along, and a watch that ends as soon as it
    starts is restarted without a pause. *)
From S2P Require Import Prelude External Ids Capability Policy Discovery Dedup Clipboard ClipboardFacts.

#[export] Instance ClipboardUpdate_eq_dec : EqDecision ClipboardUpdate.
Proof. solve_decision. Defined.
#[export] Instance ClipboardUpdate_countable : Countable ClipboardUpdate.
Proof.
  refine (inj_countable' (fun '(Build_ClipboardUpdate x0 x1 x2 x3 x4 x5) => (x0, x1, x2, x3, x4, x5))
    (fun '(x0, x1, x2, x3, x4, x5) => Build_ClipboardUpdate x0 x1 x2 x3 x4 x5) _); by intros [].
Defined.
#[export] Instance ClipboardResult_eq_dec : EqDecision ClipboardResult.
Proof. solve_decision. Defined.
#[export] Instance ClipboardBody_eq_dec : EqDecision ClipboardBody.
Proof. solve_decision. Defined.
#[export] Instance ClipboardControl_eq_dec : EqDecision ClipboardControl.
Proof. solve_decision. Defined.
#[export] Instance ClipboardControl_countable : Countable ClipboardControl.
Proof.
  refine (inj_countable'
    (fun c => match cc_body c with
     | Some (CUpdate u) => Some (inl u)
     | Some (CResult r) => Some (inr (cr_event_id r, cr_outcome r))
     | None => None
     end)
    (fun s => {| cc_body := match s with
       | Some (inl u) => Some (CUpdate u)
       | Some (inr (i, o)) => Some (CResult {| cr_event_id := i; cr_outcome := o |})
       | None => None
       end |}) _); by intros [[[[]|[]]|]].
Defined.

Definition clip_codec : Prost ClipboardControl := countable_prost ClipboardControl.
#[local] Existing Instances clip_codec toy_crypto.

Definition phone : Fingerprint := pad_array [x02].
Definition tablet : Fingerprint := pad_array [x03].
Definition phone_id : str := lit "0a".

(** Both devices may send and receive; the phone by itself. *)
Definition trusting : Authorizer := {|
  au_policy_for := fun p => if eqb p phone then ClipboardPolicy.Policy true true true true
                            else ClipboardPolicy.Policy true true true false;
  au_auto_send_peers := [phone; tablet] |}.

Definition connect : list ClipEvent :=
  [EvPolicy trusting; EvChannel 1 QOpen; EvChannel 2 QOpen; EvConnected phone 1; EvConnected tablet 2].

Definition hello : ClipboardText := {| ct_text := lit "hello"; ct_hash := content_hash (lit "hello") |}.

Definition update (n : byte) (text : str) : bytes := encode_to_vec {| cc_body := Some (CUpdate {|
  cu_event_id := replicate 16 n; cu_origin_device_id := []; cu_text_utf8 := text;
  cu_content_hash := []; cu_sensitive_hint := false; cu_timestamp_unix_ms := 0 |}) |}.

Definition connected : Clip := clip_run (ClipboardManager_new phone_id) connect.

(** The phone's text is written, its echo dropped, and a copy by hand goes to both. *)
Example clip_received : let m := clip_run connected
    [EvMessage phone phone_id 1 (update x01 (lit "hello")); EvLocal (Ok (Some hello)) None; EvWritten 0 (Ok tt);
     EvMessage phone phone_id 1 (update x01 (lit "hello"))] in
  cb_log m = [LWrote phone hello false; LQueued 1 (encode_result (replicate 16 x01) Outcome.Applied);
              LQueued 1 (encode_result (replicate 16 x01) Outcome.Duplicate)] /\
  length (cb_log (clip_step m (EvLocal (Ok (Some hello)) None))) = 5%nat.
Proof. vm_compute. split; reflexivity. Qed.


(** ** Less than promised *)

(** A held clip is taken to be written; a newer one arrives; the write fails, and
    the older clip is put back over the newer. *)
Example put_back_replaces_newer : let m := clip_run connected
    [EvMessage tablet [] 2 (update x01 (lit "old")); EvApply tablet; EvMessage tablet [] 2 (update x02 (lit "new"));
     EvWritten 0 (Err TimedOut)] in
  (fun clip => ct_text (pc_text clip)) <$> cb_pending m !! tablet = Some (lit "old") /\
  exists s t, LHeld tablet {| ct_text := lit "new"; ct_hash := content_hash (lit "new") |} s t ∈ cb_log m.
Proof. split; [vm_compute; reflexivity|]. exists false, 0. apply list_elem_of_In. vm_compute. auto 10. Qed.

(** A device reconnects before its old session is torn down: the teardown
    removes the new session's channel, and nothing can be sent to the device. *)
Example late_close_detaches_successor :
  let m := clip_run connected [EvChannel 3 QOpen; EvConnected phone 3; EvDisconnected phone] in
  cb_channels m !! 3 = Some QOpen /\ (send_text m phone hello false None).1 = Err NotConnected.
Proof. vm_compute. split; reflexivity. Qed.

(** A watch that starts and ends at once comes round again at the same instant. *)
Example ended_watch_restarts_at_once b : clip_auto_send_peers connected <> [] /\
  watch_step connected (WStarting b) (WStarted (Ok tt)) = (WWatching WATCH_RESTART_MIN_BACKOFF, connected) /\
  watch_step connected (WWatching WATCH_RESTART_MIN_BACKOFF) WEnded = (WStarting WATCH_RESTART_MIN_BACKOFF, connected).
Proof. vm_compute. split_and!; done. Qed.
