(* ===== verification/WlClipboard.v ===== *)
(** The platform's clipboard.

    [capabilities/clipboard/src/backend]: the [ClipboardBackend] trait and what
    it promises ([mod.rs]), the [wl-clipboard] tools of a Wayland session
    ([wayland.rs]), the XFIXES watch on the Xwayland bridge ([x11.rs]), the
    backend of a session that has no clipboard and the one in memory.

    The tools are processes of other programs: [Tools] answers what each did,
    given all that was started before it, and nothing is assumed of it.  The
    state of the Wayland backend's operations is the list of processes it has
    started, with their arguments and what was written to their input. *)
From S2P Require Import Prelude External Ids Utf8 Migration Panel Dedup Clipboard.

(** * [BackendError] *)

Module Backend.
Inductive Fault := Unavailable (why : str) | Failed (why : str) | TimedOut.

Definition fmt (e : Fault) : str :=
  match e with
  | Unavailable why => lit "clipboard unavailable: " ++ why
  | Failed why => lit "clipboard operation failed: " ++ why
  | TimedOut =>
      lit "the clipboard did not respond in time: wl-copy and wl-paste are waiting for a seat the compositor has not granted. A locked session is one cause; a session where no client may read a selection it does not own is another. Run `pliwee clipboard status` to see which applies here."
  end.

(** What the manager distinguishes. *)
Definition kind (e : Fault) : BackendError :=
  match e with Unavailable _ => Clipboard.Unavailable | Failed _ => BackendFailed | TimedOut => Clipboard.TimedOut end.
End Backend.

Abbreviation BackendResult := (result Backend.Fault).

(** * The trait *)

(** Operations act on the platform's state [W]. *)
Class ClipboardBackend (B W : Type) := {
  backend_id : B -> str;
  read_text : B -> W -> BackendResult (option ClipboardText) * W;
  write_text : B -> ClipboardText -> bool -> W -> BackendResult unit * W;
  availability : B -> W -> result str unit;
  sensitive_support : B -> W -> result str unit;
  watch_availability : B -> W -> result str unit;
  describe : B -> W -> str
}.

(** * Standard library *)

(** The longest start of [b] that is the beginning of some character, when [b]
    does not start with a whole one: the bytes [from_utf8_lossy] replaces by one
    U+FFFD. *)
Definition second_ok (n : N) (y : byte) : bool :=
  let m := to_N y in
  if n =? 224 then in_range 160 191 m
  else if n =? 237 then in_range 128 159 m
  else if n =? 240 then in_range 144 191 m
  else if n =? 244 then in_range 128 143 m
  else in_range 128 191 m.

Definition bad_len (b : bytes) : nat :=
  match b with
  | [] => 0
  | x :: b1 =>
      let n := to_N x in
      match b1 with
      | y :: b2 =>
          if in_range 224 239 n then if second_ok n y then 2 else 1
          else if in_range 240 244 n then
            if second_ok n y then
              match b2 with
              | z :: _ => if continuation z then 3 else 2
              | [] => 2
              end
            else 1
          else 1
      | [] => 1
      end
  end%nat.

Definition REPLACEMENT : N := 65533.

Fixpoint lossy (fuel : nat) (b : bytes) : str :=
  match b, fuel with
  | [], _ => []
  | _, O => []
  | _, S fuel' =>
      match decode_char b with
      | Some (c, rest) => c :: lossy fuel' rest
      | None => REPLACEMENT :: lossy fuel' (drop (bad_len b) b)
      end
  end.
(** [String::from_utf8_lossy]; every step takes a byte. *)
Definition from_utf8_lossy (b : bytes) : str := lossy (length b) b.

(** [ExitStatus]: the exit code, none when a signal ended the process, and what
    the status prints as. *)
Record ExitStatus := { es_code : option N; es_display : str }.
Definition success (s : ExitStatus) : bool := eqb (es_code s) (Some 0).

(** * Processes *)

Inductive Stdio := Null | Piped.

(** A process as it was started; [pr_stdin] is what it was given to read, none
    for [/dev/null]. *)
Record Proc := {
  pr_program : str;
  pr_args : list str;
  pr_stdin : option bytes;
  pr_stdout : Stdio;
  pr_stderr : Stdio
}.

(** How [Command::output] under the timeout ended. *)
Inductive OutputRun := OSpawnError (e : str) | OTimedOut | OExited (st : ExitStatus) (stdout stderr : bytes).

(** How the future that feeds [wl-copy] ended; [written] bytes of the text had
    been taken when the write failed or the time was over. *)
Inductive CopyRun :=
| CSpawnError (e : str)
| CNoStdin
| CWriteError (written : nat) (e : str)
| CWaitError (e : str)
| CExited (st : ExitStatus)
| CTimedOut (written : nat).

(** What [try_wait] said of a probe that has run for a while. *)
Inductive ProbeRun := PSpawnError (e : str) | PExited (st : ExitStatus) | PRunning | PWaitError (e : str).

Class Tools := {
  run_output : list Proc -> Proc -> OutputRun;
  run_copy : list Proc -> list str -> bytes -> CopyRun;
  run_probe : list Proc -> Proc -> ProbeRun
}.

Definition WL_COPY : str := lit "wl-copy".
Definition WL_PASTE : str := lit "wl-paste".
Definition TEXT_MIME : str := lit "text/plain;charset=utf-8".
Definition PLAIN_MIME : str := lit "text/plain".

(** * [WaylandBackend] *)

Inductive WatchSource := DataControl | X11Fixes | WatchNone (why : str).

Definition WatchSource_describe (w : WatchSource) : str :=
  match w with
  | DataControl => lit "wl-paste --watch (data-control)"
  | X11Fixes => lit "XFIXES on the Xwayland CLIPBOARD selection"
  | WatchNone why => lit "unavailable (" ++ why ++ lit ")"
  end.

Inductive SensitiveSupport := Supported | Unsupported (why : str).

Definition as_result (s : SensitiveSupport) : result str unit :=
  match s with Supported => Ok tt | Unsupported why => Err why end.
Definition SensitiveSupport_describe (s : SensitiveSupport) : str :=
  match s with Supported => lit "yes" | Unsupported _ => lit "no" end.

Record WaylandBackend := {
  wb_tools : result str unit;
  wb_watch : WatchSource;
  wb_sensitive : SensitiveSupport
}.

Inductive ReadAttempt := AText (t : ClipboardText) | ARejected (why : str) | ANothing.

(** [TextRejection]: [as_str] and its [Display]. *)
Definition rejection_str (r : TextRejection) : str :=
  match r with
  | Empty => lit "empty"
  | TooLarge _ => lit "too large"
  | ContainsNul => lit "contains a NUL character"
  end.
Definition rejection_text (r : TextRejection) : str :=
  match r with
  | TooLarge n =>
      lit "clipboard text is " ++ u64_to_string n ++ lit " bytes; the limit is " ++
      u64_to_string MAX_CLIPBOARD_TEXT_BYTES ++
      lit " bytes. Use `pliwee send` to share something this size as a file."
  | other => rejection_str other
  end.

Section Wayland.
Context `{!Crypto, !UnicodeCase, !Tools}.

(** ** Reading *)

Definition paste_command (mime : str) : Proc := {|
  pr_program := WL_PASTE; pr_args := [lit "--no-newline"; lit "--type"; mime];
  pr_stdin := None; pr_stdout := Piped; pr_stderr := Piped |}.

(** The phrases [wl-paste] explains itself with. *)
Definition NOTHING_PHRASES : list str :=
  [lit "nothing is copied"; lit "not available as requested type"; lit "content is not available";
   lit "no selection"; lit "selection is empty"; lit "no suitable type"; lit "offer"].
Definition COMPOSITOR_PHRASES : list str := [lit "connect"; lit "compositor"; lit "wayland"].

Definition classify_paste (st : ExitStatus) (stderr : bytes) : BackendResult ReadAttempt :=
  let e := to_lowercase (from_utf8_lossy stderr) in
  if existsb (fun p => contains p e) NOTHING_PHRASES then Ok ANothing
  else if existsb (fun p => contains p e) COMPOSITOR_PHRASES
  then Err (Backend.Unavailable (WL_PASTE ++ lit " could not reach the Wayland compositor"))
  else Err (Backend.Failed (WL_PASTE ++ lit " exited with " ++ es_display st)).

Definition read_as (mime : str) (log : list Proc) : BackendResult ReadAttempt * list Proc :=
  let p := paste_command mime in
  (match run_output log p with
   | OSpawnError e => Err (Backend.Failed (lit "could not run " ++ WL_PASTE ++ lit ": " ++ e))
   | OTimedOut => Err Backend.TimedOut
   | OExited st stdout stderr =>
       if success st then
         if eqb stdout [] then Ok ANothing
         else match from_utf8 stdout with
              | None => Ok ANothing
              | Some text => Ok (match validate text with
                                 | Ok t => AText t
                                 | Err rejection => ARejected (rejection_text rejection)
                                 end)
              end
       else classify_paste st stderr
   end, log ++ [p]).

Definition require_tools (b : WaylandBackend) : BackendResult unit := map_err Backend.Unavailable (wb_tools b).

(** The loop over the types: only finding nothing goes on to the next one. *)
Fixpoint read_types (mimes : list str) (log : list Proc) : BackendResult (option ClipboardText) * list Proc :=
  match mimes with
  | [] => (Ok None, log)
  | mime :: rest =>
      let '(r, log1) := read_as mime log in
      match r with
      | Err e => (Err e, log1)
      | Ok (AText text) => (Ok (Some text), log1)
      | Ok (ARejected why) => (Err (Backend.Failed why), log1)
      | Ok ANothing => read_types rest log1
      end
  end.

Definition wayland_read_text (b : WaylandBackend) (log : list Proc) : BackendResult (option ClipboardText) * list Proc :=
  match require_tools b with
  | Err e => (Err e, log)
  | Ok _ => read_types [TEXT_MIME; PLAIN_MIME] log
  end.

(** ** Writing *)

Definition copy_args (sensitive : bool) : list str :=
  [lit "--type"; TEXT_MIME] ++ (if sensitive then [lit "--sensitive"] else []).

Definition copy_proc (sensitive : bool) (given : option bytes) : Proc := {|
  pr_program := WL_COPY; pr_args := copy_args sensitive; pr_stdin := given;
  pr_stdout := Null; pr_stderr := Null |}.

(** The future under the timeout, and the bytes it wrote to the child's input. *)
Definition copy_text (sensitive : bool) (text : bytes) (log : list Proc) : BackendResult unit * list Proc :=
  let failed what := Err (Backend.Failed what) in
  match run_copy log (copy_args sensitive) text with
  | CSpawnError e => (failed (lit "could not run " ++ WL_COPY ++ lit ": " ++ e), log)
  | CNoStdin => (failed (WL_COPY ++ lit " did not provide a stdin"), log ++ [copy_proc sensitive (Some [])])
  | CWriteError n e => (failed (lit "could not write to " ++ WL_COPY ++ lit ": " ++ e), log ++ [copy_proc sensitive (Some (take n text))])
  | CWaitError e => (failed (WL_COPY ++ lit " did not exit: " ++ e), log ++ [copy_proc sensitive (Some text)])
  | CExited st =>
      (if success st then Ok tt else failed (WL_COPY ++ lit " exited with " ++ es_display st),
       log ++ [copy_proc sensitive (Some text)])
  | CTimedOut n => (Err Backend.TimedOut, log ++ [copy_proc sensitive (Some (take n text))])
  end.

Definition unmarkable (why : str) : Backend.Fault :=
  Backend.Unavailable (lit "this clip is marked sensitive and " ++ why ++
    lit " It was NOT written to the clipboard: writing it unmarked would leave a password in your clipboard manager's history without telling you.").

Definition wayland_write_text (b : WaylandBackend) (text : ClipboardText) (sensitive : bool) (log : list Proc)
    : BackendResult unit * list Proc :=
  match require_tools b with
  | Err e => (Err e, log)
  | Ok _ =>
      match (if sensitive then map_err unmarkable (as_result (wb_sensitive b)) else Ok tt) with
      | Err e => (Err e, log)
      | Ok _ => copy_text sensitive (str_bytes (ct_text text)) log
      end
  end.

(** ** What it says it can do *)

Definition wayland_watch_availability (b : WaylandBackend) : result str unit :=
  _ ← wb_tools b;
  match wb_watch b with DataControl | X11Fixes => Ok tt | WatchNone why => Err why end.

Definition wayland_availability (b : WaylandBackend) : result str unit := wb_tools b.

Definition wayland_sensitive_support (b : WaylandBackend) : result str unit := _ ← wb_tools b; as_result (wb_sensitive b).

Definition wayland_describe (b : WaylandBackend) : str :=
  match wb_tools b with
  | Ok _ => lit "wl-clipboard; watch: " ++ WatchSource_describe (wb_watch b) ++
            lit "; sensitive marking: " ++ SensitiveSupport_describe (wb_sensitive b)
  | Err why => lit "wl-clipboard unavailable (" ++ why ++ lit ")"
  end.

#[export] Instance wayland_backend : ClipboardBackend WaylandBackend (list Proc) := {|
  backend_id _ := lit "wl-clipboard";
  read_text := wayland_read_text;
  write_text := wayland_write_text;
  availability b _ := wayland_availability b;
  sensitive_support b _ := wayland_sensitive_support b;
  watch_availability b _ := wayland_watch_availability b;
  describe b _ := wayland_describe b |}.

(** ** Detection *)

(** What the process sees of its session: the variables it reads and which
    paths are files, and what the X display answered the probe. *)
Record XProbe := {
  xp_connect : result str unit;                (** [x11rb::connect] *)
  xp_query : result str unit;                  (** the version request was sent *)
  xp_reply : option (N * N)                    (** major and minor, or no extension *)
}.

Record SessionEnv := {
  se_path : option str;
  se_is_file : str -> bool;
  se_display : bool;
  se_wayland_display : bool;
  se_x : XProbe
}.

Definition which (env : SessionEnv) (binary : str) : bool :=
  match se_path env with
  | None => false
  | Some path => existsb (fun dir => se_is_file env (path_join dir binary)) (split 58 path)
  end.

Definition x11_probe (env : SessionEnv) : result str unit :=
  if negb (se_display env)
  then Err (lit "DISPLAY is not set, so there is no Xwayland server to observe the clipboard through")
  else
    _ ← map_err (fun e => lit "cannot connect to the X display: " ++ e) (xp_connect (se_x env));
    _ ← map_err (fun e => lit "XFIXES query failed: " ++ e) (xp_query (se_x env));
    '(major, minor) ← ok_or (lit "the X server does not provide the XFIXES extension") (xp_reply (se_x env));
    if major <? 1
    then Err (lit "XFIXES " ++ u64_to_string major ++ lit "." ++ u64_to_string minor ++
              lit " is too old for selection notifications")
    else Ok tt.

Definition watch_probe_proc : Proc := {|
  pr_program := WL_PASTE; pr_args := [lit "--watch"; lit "/usr/bin/true"];
  pr_stdin := None; pr_stdout := Null; pr_stderr := Null |}.

Definition probe_data_control (log : list Proc) : result str unit * list Proc :=
  (match run_probe log watch_probe_proc with
   | PSpawnError e => Err (lit "could not run " ++ WL_PASTE ++ lit ": " ++ e)
   | PExited st => Err (lit "wl-paste --watch exited with " ++ es_display st)
   | PRunning => Ok tt
   | PWaitError e => Err (lit "could not probe " ++ WL_PASTE ++ lit ": " ++ e)
   end, log ++ [watch_probe_proc]).

Definition no_watch (why : str) : str :=
  lit "the compositor does not implement the wlr/ext data-control protocol, and the Xwayland fallback is not usable either (" ++
  why ++ lit "). This session cannot read a selection it does not own, so neither automatic nor manual sending can work here. Receiving a clipboard from a paired device is unaffected.".

Definition detect_watch_source (env : SessionEnv) (log : list Proc) : WatchSource * list Proc :=
  let '(r, log1) := probe_data_control log in
  match r with
  | Ok _ => (DataControl, log1)
  | Err _ => (match x11_probe env with Ok _ => X11Fixes | Err why => WatchNone (no_watch why) end, log1)
  end.

Definition REMEDY : str :=
  lit "this system's wl-copy does not support sensitive clipboard marking. Install a wl-clipboard build whose wl-copy accepts `--sensitive` (upstream added it in 2.3.0; some distributions backport it into an earlier version).".

Definition probe_sensitive_from_output (help : option str) : SensitiveSupport :=
  match help with
  | Some text => if contains (lit "--sensitive") text then Supported else Unsupported REMEDY
  | None => Unsupported (REMEDY ++ lit " (wl-copy could not be run to check)")
  end.

(** Nothing bounds how long this one may take; both its outputs are piped. *)
Definition help_proc : Proc := {|
  pr_program := WL_COPY; pr_args := [lit "--help"]; pr_stdin := None; pr_stdout := Piped; pr_stderr := Piped |}.

Definition probe_sensitive (log : list Proc) : SensitiveSupport * list Proc :=
  (probe_sensitive_from_output
     (match run_output log help_proc with
      | OExited _ out err => Some (from_utf8_lossy out ++ from_utf8_lossy err)
      | _ => None
      end), log ++ [help_proc]).

Definition WaylandBackend_detect (env : SessionEnv) (log : list Proc) : WaylandBackend * list Proc :=
  let tools := if which env WL_COPY && which env WL_PASTE then Ok tt
               else Err (WL_COPY ++ lit "/" ++ WL_PASTE ++ lit " not found on PATH. Install the wl-clipboard package.") in
  if is_ok tools then
    let '(watch, log1) := detect_watch_source env log in
    let '(sensitive, log2) := probe_sensitive log1 in
    ({| wb_tools := tools; wb_watch := watch; wb_sensitive := sensitive |}, log2)
  else
    ({| wb_tools := tools; wb_watch := WatchNone (lit "wl-clipboard is not installed");
        wb_sensitive := Unsupported (lit "wl-clipboard is not installed") |}, log).
End Wayland.

(** * Watching *)

(** The channel of capacity 64 a watch reports on: a signal carries nothing. *)
Record Chan := { ch_queued : N; ch_closed : bool }.
Definition WATCH_QUEUE : N := 64.
Definition channel : Chan := {| ch_queued := 0; ch_closed := false |}.

Definition try_send (c : Chan) : result unit unit * Chan :=
  if ch_closed c then (Err tt, c)
  else if WATCH_QUEUE <=? ch_queued c then (Err tt, c)
  else (Ok tt, {| ch_queued := ch_queued c + 1; ch_closed := false |}).

(** [if tx.try_send(()).is_err() && tx.is_closed() break]: whether the loop goes
    on, and the channel. *)
Definition signal (c : Chan) : bool * Chan :=
  let '(r, c1) := try_send c in (negb (negb (is_ok r) && ch_closed c1), c1).

(** The receiver's side: one signal taken, or the watch dropped. *)
Definition recv (c : Chan) : Chan := {| ch_queued := ch_queued c - 1; ch_closed := ch_closed c |}.
Definition close (c : Chan) : Chan := {| ch_queued := ch_queued c; ch_closed := true |}.

(** ** [spawn_wl_paste_watch] *)

Definition watch_proc : Proc := {|
  pr_program := WL_PASTE; pr_args := [lit "--watch"; lit "/usr/bin/echo"];
  pr_stdin := None; pr_stdout := Piped; pr_stderr := Null |}.

(** What [next_line] gives: a line, whatever is on it, or the end. *)
Inductive LineEvent := Line (text : bytes) | LineEnd.

Definition paste_watch_step (c : Chan) (e : LineEvent) : bool * Chan :=
  match e with Line _ => signal c | LineEnd => (false, c) end.

(** ** XFIXES *)

Inductive XRequest :=
| QueryVersion (major minor : N)
| InternAtom (name : bytes)
| CreateWindow (window root visual : N)
| SelectSelectionInput (window selection : N)
| Flush.

(** What the display answered each step of [watch_clipboard]. *)
Record XServer := {
  xs_connect : result str nat;                 (** the screen's number *)
  xs_roots : list (N * N);                     (** root window and visual of each screen *)
  xs_query : result str unit;
  xs_version : option (N * N);
  xs_intern : bytes -> result str N;
  xs_generate_id : result str N;
  xs_create : result str unit;
  xs_select : result str unit;
  xs_flush : result str unit;
  xs_thread : result str unit
}.

Record X11Watch := { xw_window : N; xw_clipboard : N; xw_stop : N }.

Definition XFIXES_MAJOR : N := 5.
Definition XFIXES_MINOR : N := 0.
Definition CLIPBOARD_ATOM : bytes := blit "CLIPBOARD".
Definition STOP_ATOM : bytes := blit "_PLIWEE_CLIPBOARD_WATCH_STOP".

(** A failed request of the display. *)
Definition x_failed {A} (what : string) (r : result str A) : BackendResult A :=
  map_err (fun e => Backend.Failed (lit what ++ e)) r.

(** Every request with its answer, in order. *)
Definition watch_clipboard (x : XServer) : BackendResult X11Watch * list XRequest :=
  match xs_connect x with
  | Err e => (Err (Backend.Unavailable (lit "cannot connect to the X display: " ++ e)), [])
  | Ok screen_num =>
      match xs_roots x !! screen_num with
      | None => (Err (Backend.Failed (lit "the X display has no usable screen")), [])
      | Some (root, visual) =>
          let r0 := [QueryVersion XFIXES_MAJOR XFIXES_MINOR] in
          match x_failed "XFIXES query failed: " (xs_query x) with
          | Err e => (Err e, r0)
          | Ok _ =>
          match xs_version x with
          | None => (Err (Backend.Unavailable (lit "the X server has no XFIXES extension")), r0)
          | Some _ =>
          let r1 := r0 ++ [InternAtom CLIPBOARD_ATOM] in
          match x_failed "InternAtom failed: " (xs_intern x CLIPBOARD_ATOM) with
          | Err e => (Err e, r1)
          | Ok clipboard =>
          match x_failed "could not allocate an X id: " (xs_generate_id x) with
          | Err e => (Err e, r1)
          | Ok window =>
          let r2 := r1 ++ [CreateWindow window root visual] in
          match x_failed "could not create the watch window: " (xs_create x) with
          | Err e => (Err e, r2)
          | Ok _ =>
          let r3 := r2 ++ [SelectSelectionInput window clipboard] in
          match x_failed "could not select selection input: " (xs_select x) with
          | Err e => (Err e, r3)
          | Ok _ =>
          let r4 := r3 ++ [Flush] in
          match x_failed "could not flush the X connection: " (xs_flush x) with
          | Err e => (Err e, r4)
          | Ok _ =>
          let r5 := r4 ++ [InternAtom STOP_ATOM] in
          match x_failed "InternAtom failed: " (xs_intern x STOP_ATOM) with
          | Err e => (Err e, r5)
          | Ok stop =>
          match x_failed "could not start the watch thread: " (xs_thread x) with
          | Err e => (Err e, r5)
          | Ok _ => (Ok {| xw_window := window; xw_clipboard := clipboard; xw_stop := stop |}, r5)
          end end end end end end end end end
      end
  end.

(** The events of the display's connection. *)
Inductive XEvent := SelectionNotify (selection : N) | ClientMessage (type_ : N) | OtherEvent | ConnectionEnded.

Definition x11_watch_step (w : X11Watch) (c : Chan) (e : XEvent) : bool * Chan :=
  match e with
  | ConnectionEnded => (false, c)
  | SelectionNotify selection => if selection =? xw_clipboard w then signal c else (true, c)
  | ClientMessage type_ => if type_ =? xw_stop w then (false, c) else (true, c)
  | OtherEvent => (true, c)
  end.

(** [X11WatchGuard::drop]: what it does, in order. *)
Inductive GuardAction := SendClientMessage (window type_ : N) | GFlush | DestroyWindow (window : N) | Join.
Definition guard_drop (w : X11Watch) (handle : bool) : list GuardAction :=
  [SendClientMessage (xw_window w) (xw_stop w); GFlush] ++
  (if handle then [DestroyWindow (xw_window w); GFlush; Join] else []).

(** ** [watch_changes] *)

Inductive Watch := PasteWatch | FixesWatch (w : X11Watch).

Definition Watch_source (w : Watch) : str :=
  match w with PasteWatch => lit "wl-paste --watch" | FixesWatch _ => lit "XFIXES (Xwayland CLIPBOARD)" end.

(** [spawn_wl_paste_watch]: the answer of the spawn, and whether the child's
    output was there to take. *)
Definition spawn_wl_paste_watch (spawn : result str bool) (log : list Proc) : BackendResult Watch * list Proc :=
  match spawn with
  | Err e => (Err (Backend.Failed (lit "could not start " ++ WL_PASTE ++ lit " --watch: " ++ e)), log)
  | Ok false => (Err (Backend.Failed (WL_PASTE ++ lit " did not provide a stdout")), log ++ [watch_proc])
  | Ok true => (Ok PasteWatch, log ++ [watch_proc])
  end.

Definition watch_changes (b : WaylandBackend) (spawn : result str bool) (x : XServer) (log : list Proc)
    : BackendResult Watch * list Proc :=
  match require_tools b with
  | Err e => (Err e, log)
  | Ok _ =>
      match wb_watch b with
      | DataControl => spawn_wl_paste_watch spawn log
      | X11Fixes => (FixesWatch <$> (watch_clipboard x).1, log)
      | WatchNone why => (Err (Backend.Unavailable why), log)
      end
  end.

(** A watch's life: what its source reports, and what its receiver does. *)
Inductive WatchEvent := FromPaste (e : LineEvent) | FromX (e : XEvent) | Received | Dropped.

Definition watch_run_step (w : Watch) (s : bool * Chan) (e : WatchEvent) : bool * Chan :=
  match e with
  | Received => (s.1, recv s.2)
  | Dropped => (s.1, close s.2)
  | FromPaste l => match w with PasteWatch => if s.1 then paste_watch_step s.2 l else s | FixesWatch _ => s end
  | FromX x => match w with FixesWatch g => if s.1 then x11_watch_step g s.2 x else s | PasteWatch => s end
  end.
Definition watch_run (w : Watch) (evs : list WatchEvent) : bool * Chan := foldl (watch_run_step w) (true, channel) evs.

(** * The other backends *)

(** [Unsupported]: nothing works, and it says why. *)
Record UnsupportedBackend := { un_why : str }.

#[export] Instance unsupported_backend (W : Type) : ClipboardBackend UnsupportedBackend W := {|
  backend_id _ := lit "unsupported";
  read_text b w := (Err (Backend.Unavailable (un_why b)), w);
  write_text b _ _ w := (Err (Backend.Unavailable (un_why b)), w);
  availability b _ := Err (un_why b);
  sensitive_support b _ := Err (un_why b);
  watch_availability b _ := Err (un_why b);
  describe b _ := lit "unsupported (" ++ un_why b ++ lit ")" |}.

(** [MemoryBackend]: the state behind its lock; a watcher is its queue. *)
Record MemoryState := {
  ms_text : option ClipboardText;
  ms_writes : list (str * bool);
  ms_watchers : list Chan;
  ms_failure : option Backend.Fault;
  ms_watch_supported : bool;
  ms_sensitive_supported : bool;
  ms_available : bool
}.

Definition MemoryBackend_new : MemoryState := {|
  ms_text := None; ms_writes := []; ms_watchers := []; ms_failure := None;
  ms_watch_supported := true; ms_sensitive_supported := true; ms_available := true |}.

Definition unmarked : str := lit "this backend cannot mark a clip sensitive".

Definition memory_read_text (s : MemoryState) : BackendResult (option ClipboardText) * MemoryState :=
  (match ms_failure s with Some f => Err f | None => Ok (ms_text s) end, s).

Definition memory_write_text (text : ClipboardText) (sensitive : bool) (s : MemoryState) : BackendResult unit * MemoryState :=
  match ms_failure s with
  | Some f => (Err f, s)
  | None =>
      if sensitive && negb (ms_sensitive_supported s) then (Err (Backend.Unavailable unmarked), s)
      else (Ok tt, {| ms_text := Some text; ms_writes := ms_writes s ++ [(ct_text text, sensitive)];
                      ms_watchers := (fun c => (try_send c).2) <$> ms_watchers s; ms_failure := None;
                      ms_watch_supported := ms_watch_supported s;
                      ms_sensitive_supported := ms_sensitive_supported s; ms_available := ms_available s |})
  end.

Definition memory_watch_changes (s : MemoryState) : BackendResult unit * MemoryState :=
  if negb (ms_watch_supported s) then (Err (Backend.Unavailable (lit "watching is disabled")), s)
  else match ms_failure s with
       | Some f => (Err f, s)
       | None => (Ok tt, {| ms_text := ms_text s; ms_writes := ms_writes s; ms_watchers := ms_watchers s ++ [channel];
                            ms_failure := None; ms_watch_supported := true;
                            ms_sensitive_supported := ms_sensitive_supported s; ms_available := ms_available s |})
       end.

(** The one backend value; everything is in its state. *)
Inductive Memory := TheMemory.

#[export] Instance memory_backend : ClipboardBackend Memory MemoryState := {|
  backend_id _ := lit "memory";
  read_text _ := memory_read_text;
  write_text _ := memory_write_text;
  availability _ s := if ms_available s then Ok tt else Err (lit "this backend has no usable clipboard");
  sensitive_support _ s := if ms_sensitive_supported s then Ok tt else Err unmarked;
  watch_availability _ s := if ms_watch_supported s then Ok tt else Err (lit "watching is disabled");
  describe _ _ := lit "memory" |}.

(** ** [detect] *)

Inductive Detected := DWayland (b : WaylandBackend) | DUnsupported (b : UnsupportedBackend).

Definition detect_linux `{!Tools} (env : SessionEnv) (log : list Proc) : Detected * list Proc :=
  if se_wayland_display env then
    let '(b, log1) := WaylandBackend_detect env log in (DWayland b, log1)
  else
    (DUnsupported {| un_why :=
       if se_display env
       then lit "this is an X11 session; clipboard.v1 currently implements the Wayland backend only (the X11 watch exists, read/write does not)"
       else lit "no graphical session found (neither WAYLAND_DISPLAY nor DISPLAY is set), so there is no clipboard to share" |}, log).

(** [Arc<dyn ClipboardBackend>]: the calls go to the backend found. *)
#[export] Instance detected_backend `{!Crypto, !UnicodeCase, !Tools} : ClipboardBackend Detected (list Proc) := {|
  backend_id d := match d with DWayland b => backend_id (W:=list Proc) b | DUnsupported b => backend_id (W:=list Proc) b end;
  read_text d := match d with DWayland b => read_text b | DUnsupported b => read_text b end;
  write_text d := match d with DWayland b => write_text b | DUnsupported b => write_text b end;
  availability d := match d with DWayland b => availability b | DUnsupported b => availability b end;
  sensitive_support d := match d with DWayland b => sensitive_support b | DUnsupported b => sensitive_support b end;
  watch_availability d := match d with DWayland b => watch_availability b | DUnsupported b => watch_availability b end;
  describe d := match d with DWayland b => describe b | DUnsupported b => describe b end |}.
