(* ===== verification/WlClipboardFacts.v ===== *)
(** What the platform's clipboard is given and what is read from it.

    [LawfulBackend] is what the clipboard manager relies on: a clip is handed
    over whole, under the marking that was asked for, and not at all when the
    marking is not to be had.  The Wayland backend, the one in memory, the one
    of a session without a clipboard and whichever of them detection picks keep
    it.  The watches never miss a change and never queue without bound. *)
From S2P Require Import Prelude External Ids Utf8 Migration Panel Dedup Clipboard WlClipboard.

(** * The contract *)

(** [handed] are the clips the platform was given, with whether each was marked
    sensitive; [backend_ok] is what the backend keeps true of its state. *)
Class LawfulBackend (B W : Type) `{!Crypto} `{!ClipboardBackend B W} := {
  handed : W -> list (bytes * bool);
  backend_ok : W -> Prop;
  read_hands_nothing b w r w' : read_text b w = (r, w') -> handed w' = handed w /\ (backend_ok w -> backend_ok w');
  read_made b w t w' : backend_ok w -> read_text b w = (Ok (Some t), w') -> made t;
  write_whole b t s w w' : write_text b t s w = (Ok tt, w') -> handed w' = handed w ++ [(str_bytes (ct_text t), s)];
  write_failed b t s w e w' : write_text b t s w = (Err e, w') ->
    handed w' = handed w \/ exists part, part `prefix_of` str_bytes (ct_text t) /\ handed w' = handed w ++ [(part, s)];
  write_keeps b t s w r w' : made t -> backend_ok w -> write_text b t s w = (r, w') -> backend_ok w';
  unmarkable_refused b t w why : sensitive_support b w = Err why -> exists e, write_text b t true w = (Err e, w)
}.

(** * The Wayland backend *)

Section Wayland.
Context `{!Crypto, !UnicodeCase, !Tools}.

Definition clip_of (p : Proc) : option (bytes * bool) :=
  if eqb (pr_program p) WL_COPY
  then (fun given => (given, mem (lit "--sensitive") (pr_args p))) <$> pr_stdin p
  else None.

Definition clips_given (log : list Proc) : list (bytes * bool) := omap clip_of log.

Lemma clips_given_app l1 l2 : clips_given (l1 ++ l2) = clips_given l1 ++ clips_given l2.
Proof. apply omap_app. Qed.

Lemma clip_of_copy s given : clip_of (copy_proc s (Some given)) = Some (given, s).
Proof. by destruct s. Qed.

Lemma clips_given_copy log s given : clips_given (log ++ [copy_proc s (Some given)]) = clips_given log ++ [(given, s)].
Proof. rewrite clips_given_app. cbn [clips_given omap list_omap]. by rewrite clip_of_copy. Qed.

(** A text that was read is what a [wl-paste] that succeeded printed, and the
    last process that was started. *)
Definition printed (log : list Proc) (tried : list str) (t : ClipboardText) : Prop :=
  exists before mime st out err text,
    tried = before ++ [mime] /\
    run_output (log ++ (paste_command <$> before)) (paste_command mime) = OExited st out err /\
    success st = true /\ from_utf8 out = Some text /\ validate text = Ok t.

(** The processes of a read: one for each type tried, in the order given. *)
Definition read_ran (mimes : list str) (log : list Proc) (r : BackendResult (option ClipboardText)) (log' : list Proc) : Prop :=
  exists tried, tried `prefix_of` mimes /\ log' = log ++ (paste_command <$> tried) /\
    forall t, r = Ok (Some t) -> printed log tried t.

Lemma read_ran_stop mime mimes log r : (forall t, r <> Ok (Some t)) -> read_ran (mime :: mimes) log r (log ++ [paste_command mime]).
Proof.
  intros Hr. exists [mime]. split; [apply prefix_cons, prefix_nil|]. split; [done|]. intros t ->. by destruct (Hr t).
Qed.

Lemma read_ran_next mime mimes log r log' : read_ran mimes (log ++ [paste_command mime]) r log' -> read_ran (mime :: mimes) log r log'.
Proof.
  intros (tried & Hpre & -> & Hok). exists (mime :: tried). split; [by apply prefix_cons|].
  split; [cbn; by rewrite <- app_assoc|]. intros t Ht.
  destruct (Hok t Ht) as (before & mime' & st & out & err & text & -> & Hrun & Hrest).
  exists (mime :: before), mime', st, out, err, text. split; [done|]. split; [|done].
  cbn [fmap list_fmap]. by rewrite <- app_assoc in Hrun.
Qed.

Lemma read_as_ran mime log r : (read_as mime log).1 = r -> (read_as mime log).2 = log ++ [paste_command mime] /\
  forall t, r = Ok (AText t) -> printed log [mime] t.
Proof.
  intros <-. split; [done|]. intros t. unfold read_as. cbn [fst].
  destruct (run_output log (paste_command mime)) as [e| |st out err] eqn:Hrun; [done..|].
  destruct (success st) eqn:Hst; [|unfold classify_paste; by repeat case_match].
  destruct (eqb out []); [done|]. destruct (from_utf8 out) as [text|] eqn:Hu; [|done].
  destruct (validate text) as [t'|e] eqn:Hv; [|done]. intros [= ->].
  exists [], mime, st, out, err, text. cbn. rewrite app_nil_r. done.
Qed.

Lemma read_types_spec mimes log r log' : read_types mimes log = (r, log') -> read_ran mimes log r log'.
Proof.
  revert log. induction mimes as [|mime mimes IH]; intros log.
  { intros [= <- <-]. exists []. split; [done|]. split; [by rewrite app_nil_r | done]. }
  cbn [read_types]. destruct (read_as mime log) as [r1 log1] eqn:Hr. pose proof (read_as_ran mime log r1) as Hran.
  rewrite Hr in Hran. destruct (Hran eq_refl) as [Hlog Htext]. cbn [snd] in Hlog. subst log1.
  destruct r1 as [[t|why|]|e]; [intros [= <- <-] | intros [= <- <-] | | intros [= <- <-]].
  - exists [mime]. split; [apply prefix_cons, prefix_nil|]. split; [done|]. intros t' [= <-]. by apply Htext.
  - by apply read_ran_stop.
  - intros Hn. by apply read_ran_next, IH.
  - by apply read_ran_stop.
Qed.

Lemma wayland_read_spec b log r log' : wayland_read_text b log = (r, log') -> read_ran [TEXT_MIME; PLAIN_MIME] log r log'.
Proof.
  unfold wayland_read_text, require_tools. destruct (wb_tools b) as [[]|why]; cbn [map_err].
  - apply read_types_spec.
  - intros [= <- <-]. exists []. split; [apply prefix_nil|]. split; [by rewrite app_nil_r | done].
Qed.

Lemma copy_text_ok s text log log' : copy_text s text log = (Ok tt, log') ->
  log' = log ++ [copy_proc s (Some text)] /\ exists st, run_copy log (copy_args s) text = CExited st /\ success st = true.
Proof.
  unfold copy_text. destruct (run_copy _ _ _) as [| | | |st|]; try done.
  destruct (success st) eqn:Hs; [|done]. intros [= <-]. eauto.
Qed.

Lemma copy_text_err s text log e log' : copy_text s text log = (Err e, log') ->
  log' = log \/ exists part, part `prefix_of` text /\ log' = log ++ [copy_proc s (Some part)].
Proof.
  assert (Htake : forall n, take n text `prefix_of` text).
  { intros n. exists (drop n text). by rewrite take_drop. }
  unfold copy_text. destruct (run_copy _ _ _) as [e'| |n e'|e'|st|n]; [|..|destruct (success st); [done|]|]; intros [= <- <-]; eauto.
  right. exists []. split; [apply prefix_nil | done].
Qed.

(** When a write gets as far as the tool. *)
Definition may_write (b : WaylandBackend) (s : bool) : Prop :=
  wb_tools b = Ok tt /\ (s = true -> wb_sensitive b = Supported).

Lemma wayland_write_cases b t s log :
  (may_write b s /\ wayland_write_text b t s log = copy_text s (str_bytes (ct_text t)) log) \/
  (~ may_write b s /\ exists why, wayland_write_text b t s log = (Err (Backend.Unavailable why), log)).
Proof.
  unfold wayland_write_text, require_tools, may_write. destruct (wb_tools b) as [[]|why]; simpl.
  - destruct s; [|by left]. destruct (wb_sensitive b) as [|why]; simpl; [by left|].
    right. split; [intros [_ Hx]; by specialize (Hx eq_refl) | unfold unmarkable; eauto].
  - right. split; [by intros [? _] | eauto].
Qed.

Lemma unsupported_cannot_write b log why : sensitive_support b log = Err why -> ~ may_write b true.
Proof.
  cbn. unfold wayland_sensitive_support. destruct (wb_tools b) as [[]|] eqn:Ht; cbn.
  - intros Hs [_ Hok]. by rewrite Hok in Hs.
  - intros _ [Hx _]. congruence.
Qed.

#[export] Program Instance wayland_lawful : LawfulBackend WaylandBackend (list Proc) := {|
  handed := clips_given; backend_ok := fun _ => True |}.
Next Obligation.
  intros b w r w' (tried & _ & -> & _)%wayland_read_spec. split; [|done]. rewrite clips_given_app.
  replace (clips_given (paste_command <$> tried)) with (@nil (bytes * bool)); [by rewrite app_nil_r|].
  induction tried; [done|]. by rewrite fmap_cons.
Qed.
Next Obligation.
  intros b w t w' _ (tried & _ & _ & Hok)%wayland_read_spec.
  destruct (Hok t eq_refl) as (? & ? & ? & ? & ? & text & _ & _ & _ & _ & Hv). by destruct (validate_made _ _ Hv).
Qed.
Next Obligation.
  intros b t s w w'. cbn. destruct (wayland_write_cases b t s w) as [[_ ->]|(_ & why & ->)]; [|done].
  intros [-> _]%copy_text_ok. apply clips_given_copy.
Qed.
Next Obligation.
  intros b t s w e w'. cbn. destruct (wayland_write_cases b t s w) as [[_ ->]|(_ & why & ->)]; [|intros [= _ <-]; by left].
  intros [->|(part & Hpre & ->)]%copy_text_err; [by left|]. right. exists part. split; [done|].
  apply clips_given_copy.
Qed.
Next Obligation. done. Qed.
Next Obligation.
  intros b t w why Hs%unsupported_cannot_write. cbn.
  destruct (wayland_write_cases b t true w) as [[? _]|(_ & why' & ->)]; [done | eauto].
Qed.
End Wayland.

(** * The other backends *)

Section Others.
Context `{!Crypto}.

#[export] Program Instance memory_lawful : LawfulBackend Memory MemoryState := {|
  handed s := (fun w => (str_bytes w.1, w.2)) <$> ms_writes s;
  backend_ok s := forall t, ms_text s = Some t -> made t |}.
Next Obligation. by intros b s r s' [= <- <-]. Qed.
Next Obligation.
  intros b s t s' Hok. cbn. unfold memory_read_text. destruct (ms_failure s); [done|]. intros [= Ht <-]. by apply Hok.
Qed.
Next Obligation.
  intros b t s w w'. cbn. unfold memory_write_text. destruct (ms_failure w); [done|].
  destruct (_ && _); [done|]. intros [= <-]. cbn. by rewrite fmap_app.
Qed.
Next Obligation.
  intros b t s w e w'. cbn. unfold memory_write_text. destruct (ms_failure w); [intros [= _ <-]; by left|].
  destruct (_ && _); [intros [= _ <-]; by left | done].
Qed.
Next Obligation.
  intros b t s w r w' Ht Hok. cbn. unfold memory_write_text. destruct (ms_failure w); [by intros [= _ <-]|].
  destruct (_ && _); intros [= _ <-]; [done|]. by intros t' [= <-].
Qed.
Next Obligation.
  intros b t w why. cbn. destruct (ms_sensitive_supported w) eqn:Hs; [done|]. intros _. unfold memory_write_text.
  rewrite Hs. destruct (ms_failure w); cbn; eauto.
Qed.

#[export] Program Instance detected_lawful `{!UnicodeCase, !Tools} : LawfulBackend Detected (list Proc) := {|
  handed := clips_given; backend_ok := fun _ => True |}.
Next Obligation. intros ?? [b|b] w r w'; [exact (read_hands_nothing (B:=WaylandBackend) b w r w') | by intros [= _ <-]]. Qed.
Next Obligation. intros ?? [b|b] w t w' Hok; [exact (read_made (B:=WaylandBackend) b w t w' Hok) | done]. Qed.
Next Obligation. intros ?? [b|b] t s w w'; [exact (write_whole (B:=WaylandBackend) b t s w w') | done]. Qed.
Next Obligation. intros ?? [b|b] t s w e w'; [exact (write_failed (B:=WaylandBackend) b t s w e w') | intros [= _ <-]; by left]. Qed.
Next Obligation. done. Qed.
Next Obligation. intros ?? [b|b] t w why; [exact (unmarkable_refused (B:=WaylandBackend) b t w why) | cbn; eauto]. Qed.
End Others.

(** * Detection *)

Section Detection.
Context `{!Crypto, !UnicodeCase, !Tools}.

(** [wl-copy] was run and its help lists the option. *)
Definition help_lists_sensitive (log : list Proc) : Prop :=
  exists st out err, run_output log help_proc = OExited st out err /\
    contains (lit "--sensitive") (from_utf8_lossy out ++ from_utf8_lossy err) = true.

Lemma probe_sensitive_spec log : (probe_sensitive log).1 = Supported <-> help_lists_sensitive log.
Proof.
  unfold probe_sensitive, probe_sensitive_from_output, help_lists_sensitive. cbn [fst].
  destruct (run_output log help_proc) as [| |st out err] eqn:Ho; [split; [done | by intros (? & ? & ? & ? & ?)]..|].
  destruct (contains _ _) eqn:Hs; split; try done; [by exists st, out, err|].
  intros (? & ? & ? & [= <- <- <-] & ?). congruence.
Qed.

Lemma detect_watch_source_spec env log :
  ((detect_watch_source env log).1 = DataControl <-> run_probe log watch_probe_proc = PRunning) /\
  ((detect_watch_source env log).1 = X11Fixes <-> run_probe log watch_probe_proc <> PRunning /\ x11_probe env = Ok tt) /\
  (detect_watch_source env log).2 = log ++ [watch_probe_proc].
Proof.
  unfold detect_watch_source, probe_data_control.
  destruct (run_probe log watch_probe_proc), (x11_probe env) as [[]|]; cbn; split_and!; try done; split; naive_solver.
Qed.

(** What detection finds, and what it starts: only the two probes, in this
    order, and nothing at all when a tool is missing. *)
Lemma detect_runs env log b log' : WaylandBackend_detect env log = (b, log') ->
  let installed := which env WL_COPY = true /\ which env WL_PASTE = true in
  log' = log ++ (if is_ok (wb_tools b) then [watch_probe_proc; help_proc] else []) /\
  (wb_tools b = Ok tt <-> installed) /\
  (wb_watch b = DataControl <-> installed /\ run_probe log watch_probe_proc = PRunning) /\
  (wb_watch b = X11Fixes <-> installed /\ run_probe log watch_probe_proc <> PRunning /\ x11_probe env = Ok tt) /\
  (wb_sensitive b = Supported <-> installed /\ help_lists_sensitive (log ++ [watch_probe_proc])).
Proof.
  unfold WaylandBackend_detect. destruct (which env WL_COPY && which env WL_PASTE) eqn:Hc; cbn [is_ok].
  - apply andb_true_iff in Hc. destruct (detect_watch_source_spec env log) as (Hd & Hx & Hl).
    pose proof (probe_sensitive_spec (log ++ [watch_probe_proc])) as Hs.
    destruct (detect_watch_source env log) as [watch log1]. cbn [fst snd] in *. subst log1.
    destruct (probe_sensitive (log ++ [watch_probe_proc])) as [sens log2] eqn:Hp. injection Hp as _ <-. cbn [fst] in Hs.
    intros [= <- <-]. cbn. split; [by rewrite <- app_assoc|]. tauto.
  - apply andb_false_iff in Hc. intros [= <- <-]. cbn. rewrite app_nil_r.
    assert (~ (which env WL_COPY = true /\ which env WL_PASTE = true)) as Hn by (intros [? ?]; destruct Hc; congruence).
    split; [done|]. repeat split; try done; tauto.
Qed.
End Detection.

(** * Watching *)

Lemma signal_spec c : ch_queued c <= WATCH_QUEUE ->
  let '(go, c') := signal c in
  ch_queued c' <= WATCH_QUEUE /\ ch_closed c' = ch_closed c /\ go = negb (ch_closed c) /\
  (ch_closed c = false -> 0 < ch_queued c').
Proof.
  intros Hle. unfold signal, try_send, WATCH_QUEUE in *. destruct (ch_closed c) eqn:Hc; cbn; [by rewrite Hc|].
  destruct (N.leb_spec 64 (ch_queued c)); cbn; rewrite ?Hc; split_and!; try done; lia.
Qed.

(** A change of the clipboard, as each source reports it. *)
Definition is_change (w : Watch) (e : WatchEvent) : bool :=
  match w, e with
  | PasteWatch, FromPaste (Line _) => true
  | FixesWatch g, FromX (SelectionNotify s) => s =? xw_clipboard g
  | _, _ => false
  end.

(** A change was reported and no signal was taken since. *)
Definition owes (w : Watch) (owed : bool) (e : WatchEvent) : bool :=
  match e with Received => false | _ => owed || is_change w e end.

Definition watch_ok (s : bool * Chan) (owed : bool) : Prop :=
  ch_queued s.2 <= WATCH_QUEUE /\
  (s.1 = true -> ch_closed s.2 = false -> owed = true -> 0 < ch_queued s.2).

Lemma watch_ok_step w s owed e : watch_ok s owed -> watch_ok (watch_run_step w s e) (owes w owed e).
Proof.
  destruct s as [go c]. intros [Hle How]. cbn [fst snd] in *.
  assert (Hsig : forall o, watch_ok (signal c) o).
  { intros o. pose proof (signal_spec c Hle) as Hs. destruct (signal c) as [go' c']. destruct Hs as (H1 & H2 & H3 & H4).
    split; cbn; [done|]. rewrite H2. auto. }
  assert (Hkeep : forall o, (o = true -> owed = true) -> watch_ok (go, c) o) by (intros o Ho; split; cbn; auto).
  assert (Hend : forall o, watch_ok (false, c) o) by (intros o; split; cbn; [done | by intros]).
  destruct e as [l|x| |]; cbn [watch_run_step owes fst snd].
  - destruct w as [|g]; [|apply Hkeep; cbn; by rewrite orb_false_r]. destruct go; [|by apply Hend].
    destruct l; cbn [paste_watch_step]; [apply Hsig | apply Hend].
  - destruct w as [|g]; [apply Hkeep; cbn; by rewrite orb_false_r|]. destruct go; [|by apply Hend].
    destruct x as [sel|ty| |]; cbn [x11_watch_step is_change]; rewrite ?orb_false_r.
    + destruct (sel =? xw_clipboard g); [apply Hsig | apply Hkeep; by rewrite orb_false_r].
    + destruct (ty =? xw_stop g); [apply Hend | by apply Hkeep].
    + by apply Hkeep.
    + apply Hend.
  - split; cbn; [lia | done].
  - split; cbn; [done | by intros].
Qed.

Lemma watch_ok_run w evs s owed : watch_ok s owed -> watch_ok (foldl (watch_run_step w) s evs) (foldl (owes w) owed evs).
Proof. revert s owed. induction evs as [|e evs IH]; intros s owed Hok; [done|]. by apply IH, watch_ok_step. Qed.

(** Only the [CLIPBOARD] selection is ever watched. *)
Lemma watch_clipboard_selects x r reqs : watch_clipboard x = (r, reqs) ->
  (forall win sel, SelectSelectionInput win sel ∈ reqs -> xs_intern x CLIPBOARD_ATOM = Ok sel) /\
  (forall g, r = Ok g -> xs_intern x CLIPBOARD_ATOM = Ok (xw_clipboard g) /\
     SelectSelectionInput (xw_window g) (xw_clipboard g) ∈ reqs).
Proof.
  assert (Hno : forall e l, (forall win sel, SelectSelectionInput win sel ∈ l -> xs_intern x CLIPBOARD_ATOM = Ok sel) ->
    (Err e, l) = (r, reqs) -> (forall win sel, SelectSelectionInput win sel ∈ reqs -> xs_intern x CLIPBOARD_ATOM = Ok sel) /\
      (forall g, r = Ok g -> xs_intern x CLIPBOARD_ATOM = Ok (xw_clipboard g) /\
         SelectSelectionInput (xw_window g) (xw_clipboard g) ∈ reqs)) by (intros e l Hl [= <- <-]; done).
  unfold watch_clipboard, x_failed. destruct (xs_connect x) as [n|]; [|apply Hno; set_solver].
  destruct (xs_roots x !! n) as [[root visual]|]; [|apply Hno; set_solver].
  destruct (xs_query x); cbn [map_err]; [|apply Hno; set_solver]. destruct (xs_version x); [|apply Hno; set_solver].
  destruct (xs_intern x CLIPBOARD_ATOM) as [clipboard|] eqn:Hi; cbn [map_err]; [|apply Hno; set_solver].
  destruct (xs_generate_id x) as [window|]; cbn [map_err]; [|apply Hno; set_solver].
  destruct (xs_create x); cbn [map_err]; [|apply Hno; set_solver]. destruct (xs_select x); cbn [map_err]; [|apply Hno; set_solver].
  destruct (xs_flush x); cbn [map_err]; [|apply Hno; set_solver].
  destruct (xs_intern x STOP_ATOM); cbn [map_err]; [|apply Hno; set_solver].
  destruct (xs_thread x); cbn [map_err]; [|apply Hno; set_solver].
  intros [= <- <-]. split; [set_solver|]. intros g [= <-]. set_solver.
Qed.

(** What makes a watch stop. *)
Definition stops (w : Watch) (s : bool * Chan) (e : WatchEvent) : Prop :=
  match w, e with
  | PasteWatch, FromPaste LineEnd => True
  | FixesWatch _, FromX ConnectionEnded => True
  | FixesWatch g, FromX (ClientMessage ty) => ty = xw_stop g
  | _, _ => ch_closed s.2 = true
  end.

Lemma watch_stops w s e : ch_queued s.2 <= WATCH_QUEUE -> s.1 = true -> (watch_run_step w s e).1 = false -> stops w s e.
Proof.
  destruct s as [go c]. cbn [fst snd]. intros Hle ->. pose proof (signal_spec c Hle) as Hs.
  assert (Hsig : (signal c).1 = false -> ch_closed c = true).
  { destruct (signal c). destruct Hs as (_ & _ & -> & _). cbn. by destruct (ch_closed c). }
  destruct w as [|g], e as [l|x| |]; cbn [watch_run_step fst snd stops]; try done.
  - destruct l; cbn [paste_watch_step]; auto.
  - destruct x as [sel|ty| |]; cbn [x11_watch_step]; try done.
    + destruct (sel =? xw_clipboard g); [auto | done].
    + by destruct (N.eqb_spec ty (xw_stop g)).
Qed.

(** No change of the clipboard is missed.  Whichever source the backend
    watches with, through any sequence of its events and of what the receiver
    does: never more than 64 signals wait; while the watch runs and somebody
    holds it, a change that was reported and not yet collected leaves at least
    one signal waiting, even after changes that found the queue full; and it
    stops only when its source ends or its holder is gone.  With XFIXES the
    selection that counts is the one the display names [CLIPBOARD], never
    [PRIMARY]; with [wl-paste] what is started prints one line for each change
    and nothing of the clipboard. *)
Theorem watch_never_misses `{!Crypto} b spawn x log w log' evs e :
  watch_changes b spawn x log = (Ok w, log') ->
  let s := watch_run w evs in
  (ch_queued s.2 <= 64 /\
   (s.1 = true -> ch_closed s.2 = false -> foldl (owes w) false evs = true -> 0 < ch_queued s.2)) /\
  (s.1 = true -> (watch_run_step w s e).1 = false -> stops w s e) /\
  match w with
  | PasteWatch => wb_watch b = DataControl /\ log' = log ++ [watch_proc]
  | FixesWatch g => wb_watch b = X11Fixes /\ log' = log /\ xs_intern x CLIPBOARD_ATOM = Ok (xw_clipboard g)
  end.
Proof.
  intros Hw s. assert (Hok : watch_ok s (foldl (owes w) false evs)).
  { unfold s, watch_run. apply watch_ok_run. split; cbn; [unfold WATCH_QUEUE; lia | done]. }
  split; [exact Hok|]. split; [apply watch_stops, Hok|].
  unfold watch_changes in Hw. destruct (require_tools b); [|done]. destruct (wb_watch b); [| |done].
  - unfold spawn_wl_paste_watch in Hw. destruct spawn as [[]|]; by simplify_eq.
  - destruct (watch_clipboard x) as [r reqs] eqn:Hr. cbn [fst] in Hw. destruct r as [g|]; [|done].
    cbn in Hw. simplify_eq. split_and!; try done. by apply (watch_clipboard_selects x (Ok g) reqs).
Qed.
