(* ===== verification/ClipDesk.v ===== *)
(** The clipboard manager on a platform.

    [Clipboard.v] takes the platform's answers as inputs and [WlClipboard.v] has
    the platform.  Here the manager of [capabilities/clipboard/src/lib.rs] calls
    a [ClipboardBackend]: the writes it starts are carried out by [write_text],
    and what it sends is read with [read_text].  The theorems hold of every
    backend that keeps the contract. *)
From S2P Require Import Prelude External Ids Capability Policy Discovery Utf8 Migration Panel Dedup Clipboard ClipboardFacts ClipboardRuns WlClipboard WlClipboardFacts.

Section Desk.
Context {B W : Type} `{!Crypto, !Prost ClipboardControl, !ClipboardBackend B W}.

Record Desk := { dk_clip : Clip; dk_world : W }.

(** What happens to the manager by itself, and what it asks of the platform: a
    write it started is carried out and answered, the user sends the clipboard
    to a peer, and a change was signalled. *)
Inductive DeskEvent :=
| DkClip (ev : ClipEvent)
| DkWrite (k : N)
| DkSend (peer : Fingerprint) (sensitive : bool) (random : option (bytesn 16))
| DkLocal (random : option (bytesn 16)).

Definition asks_platform (ev : ClipEvent) : bool :=
  match ev with EvWritten _ _ | EvSend _ _ _ _ | EvLocal _ _ => true | _ => false end.

Definition desk_step (b : B) (d : Desk) (e : DeskEvent) : Desk :=
  let m := dk_clip d in
  match e with
  | DkClip ev => if asks_platform ev then d else {| dk_clip := clip_step m ev; dk_world := dk_world d |}
  | DkWrite k =>
      match cb_writes m !! k with
      | None => d
      | Some w =>
          let '(r, world) := write_text b (wt_text w) (wt_sensitive w) (dk_world d) in
          {| dk_clip := clip_step m (EvWritten k (map_err Backend.kind r)); dk_world := world |}
      end
  | DkSend peer sensitive random =>
      (* the grant is asked for before the clipboard is read *)
      if negb (ClipboardPolicy.allow_send (policy_for m peer)) then d
      else
        let '(r, world) := read_text b (dk_world d) in
        {| dk_clip := clip_step m (EvSend peer sensitive (map_err Backend.kind r) random); dk_world := world |}
  | DkLocal random =>
      let '(r, world) := read_text b (dk_world d) in
      {| dk_clip := clip_step m (EvLocal (map_err Backend.kind r) random); dk_world := world |}
  end.

Definition desk_run (b : B) (d : Desk) (evs : list DeskEvent) : Desk := foldl (desk_step b) d evs.
Definition desk_start (id : str) (w : W) : Desk := {| dk_clip := ClipboardManager_new id; dk_world := w |}.

(** ** Writes under way were logged *)

Definition writes_logged (m : Clip) : Prop :=
  forall k w, cb_writes m !! k = Some w ->
    made (wt_text w) /\ LWrote (wt_peer w) (wt_text w) (wt_sensitive w) ∈ cb_log m.

(** What a step may do to the writes under way. *)
Definition writes_step (m m' : Clip) : Prop :=
  cb_writes m' ⊆ cb_writes m \/
  exists w, made (wt_text w) /\ cb_writes m' = <[cb_next_write m := w]> (cb_writes m) /\
    LWrote (wt_peer w) (wt_text w) (wt_sensitive w) ∈ cb_log m'.

Lemma deliver_writes m p e : cb_writes (deliver m p e).2 = cb_writes m.
Proof. unfold deliver. case_match; [|done]. apply queue_on_same. Qed.

Lemma deliver_all_writes m e peers : cb_writes (foldl (fun m p => (deliver m p e).2) m peers) = cb_writes m.
Proof. revert m. induction peers as [|p peers IH]; intros m; [done|]. simpl. by rewrite IH, deliver_writes. Qed.

Lemma decide_next m p dev u : cb_next_write (decide_update m p dev u).2 = cb_next_write m.
Proof. unfold decide_update. repeat case_match; done. Qed.

Lemma message_writes m p dev c payload : writes_step m (on_message m p dev c payload).2.
Proof.
  unfold on_message. destruct (prost_decode payload) as [[[[u|r]|]]|]; [|by left..]. cbn [snd cc_body]. unfold handle_update.
  pose proof (decide_update_spec m p dev u) as Hd. pose proof (decide_next m p dev u) as Hn. simpl in Hd.
  destruct (decide_update m p dev u) as [[o|[t origin]] m1]; cbn [snd] in Hn.
  - left. destruct Hd as [Hw _]. destruct (answer_same m1 c (cu_event_id u) o) as (_ & -> & _). by rewrite Hw.
  - right. destruct Hd as (Hv & _ & _ & _ & _ & _ & Hw & _). destruct (validate_made _ _ Hv) as [Hmade _].
    eexists. split; [|split; [unfold start_write; simpl; by rewrite Hw, Hn|]]; [done|]. simpl. set_solver.
Qed.

Lemma done_writes m k r : cb_writes (write_done m k r) ⊆ cb_writes m.
Proof.
  unfold write_done. destruct (cb_writes m !! k) as [w|] eqn:Hw; [|done].
  pose proof (delete_subseteq (cb_writes m) k) as Hdel.
  destruct r; destruct (wt_purpose w) as [c id|clip]; try (by simpl);
    match goal with |- context [answer ?a ?b ?x ?y] => destruct (answer_same a b x y) as (_ & -> & _) end; by simpl.
Qed.

Lemma step_writes m ev : held_ok m -> writes_step m (clip_step m ev).
Proof.
  intros Hok. destruct ev; simpl; try (by left).
  - apply message_writes.
  - left. apply done_writes.
  - unfold apply_pending. case_match; [by left|]. destruct (cb_pending m !! peer) as [clip|] eqn:Hc; [|by left].
    case_match; [|by left]. right. destruct (proj1 Hok _ _ Hc) as [Hmade _].
    eexists. split; [|split; [unfold start_write; simpl; done|]]; [done|]. simpl. set_solver.
  - left. unfold send_current_clipboard. case_match; [done|]. destruct read as [[t|]|]; [|done..].
    pose proof (deliver_writes m peer (new_event m random t sensitive)) as Hd. destruct (deliver _ _ _) as [r m1].
    cbn [snd] in Hd |- *. by rewrite Hd.
  - left. unfold send_text. case_match; [done|].
    pose proof (deliver_writes m peer (new_event m random text sensitive)) as Hd. destruct (deliver _ _ _) as [r m1].
    cbn [snd] in Hd |- *. by rewrite Hd.
  - left. unfold on_local_change. destruct read as [[t|]|]; [|done..].
    destruct (SuppressionCache_take _ _ _) as [[o|] cache]; [done|]. case_match; [done|]. by rewrite deliver_all_writes.
Qed.

Lemma log_grows m ev : held_ok m -> forall x, x ∈ cb_log m -> x ∈ cb_log (clip_step m ev).
Proof. intros Hok x Hx. destruct (step_accounted m ev Hok) as [(l & -> & _) _]. set_solver. Qed.

Lemma writes_logged_step m ev : held_ok m -> writes_logged m -> writes_logged (clip_step m ev).
Proof.
  intros Hok Hwl k w Hk. destruct (step_writes m ev Hok) as [Hsub|(w0 & Hm & Heq & Hlog)].
  - destruct (Hwl k w) as [? ?]; [by eapply lookup_weaken|]. split; [done | by apply log_grows].
  - rewrite Heq in Hk. apply lookup_insert_Some in Hk as [[_ <-]|[_ Hk]]; [done|].
    destruct (Hwl k w Hk). split; [done | by apply log_grows].
Qed.

(** ** Who is told that a clip was applied *)

Lemma encode_result_inj id o id' o' : encode_result id o = encode_result id' o' -> id = id' /\ o = o'.
Proof.
  unfold encode_result. intros [= He]. apply (f_equal prost_decode) in He. rewrite !prost_decode_encode in He.
  injection He as -> Ho. split; [done|]. by rewrite <- (Outcome.outcome_roundtrip o), Ho, Outcome.outcome_roundtrip.
Qed.

Lemma result_not_update m id o e : om_payload (encode_result id o) <> encode_to_vec (encode_update m e).
Proof.
  intros He. apply (f_equal prost_decode) in He. unfold encode_result, encode_update in He. cbn [om_payload] in He.
  rewrite !prost_decode_encode in He. discriminate He.
Qed.

Lemma decide_not_applied m p dev u o m1 : decide_update m p dev u = (inl o, m1) -> o <> Outcome.Applied.
Proof. unfold decide_update. repeat case_match; intros [= <- _]; done. Qed.

Abbreviation told c id m := (LQueued c (encode_result id Outcome.Applied) ∈ cb_log m).

Lemma answer_told m c c' id id' o : told c id (answer m c' id' o) -> told c id m \/ (c = c' /\ id = id' /\ o = Outcome.Applied).
Proof.
  destruct (answer_logs m c' id' o) as (l & -> & [->| ->]); [rewrite app_nil_r; by left|].
  intros [?|Hin]%elem_of_app; [by left|]. right. apply list_elem_of_singleton in Hin.
  assert (c = c' /\ encode_result id Outcome.Applied = encode_result id' o) as [-> He] by (split; congruence).
  apply encode_result_inj in He as [-> <-]. done.
Qed.

Lemma write_done_told m k r c id : told c id (write_done m k r) ->
  told c id m \/ exists u w, r = Ok u /\ cb_writes m !! k = Some w /\ wt_purpose w = ForUpdate c id.
Proof.
  unfold write_done. destruct (cb_writes m !! k) as [w|] eqn:Hw; [|by left].
  destruct r as [u|e]; destruct (wt_purpose w) as [c' id'|clip] eqn:Hp; simpl; try (by left).
  - intros [?|(-> & -> & _)]%answer_told; [by left|]. right. by exists u, w.
  - intros [?|(_ & _ & ?)]%answer_told; [by left | done].
Qed.

Lemma message_told m p dev c' payload c id : told c id (on_message m p dev c' payload).2 -> told c id m.
Proof.
  unfold on_message. destruct (prost_decode payload) as [[[[u|r]|]]|]; [|done..]. cbn [snd cc_body]. unfold handle_update.
  pose proof (decide_update_spec m p dev u) as Hd. pose proof (decide_not_applied m p dev u) as Ho. simpl in Hd.
  destruct (decide_update m p dev u) as [[o|[t origin]] m1].
  - intros [Hin|(_ & _ & ->)]%answer_told; [|by destruct (Ho _ _ eq_refl)]. destruct Hd as [_ [[<- _]|(clip & _ & _ & _ & _ & _ & _ & Hl)]]; [done|].
    rewrite Hl in Hin. set_solver.
  - destruct Hd as (_ & _ & _ & _ & Hl & _). unfold start_write. simpl. rewrite Hl. set_solver.
Qed.

Lemma step_told m ev c id : held_ok m -> told c id (clip_step m ev) ->
  told c id m \/ exists k u w, ev = EvWritten k (Ok u) /\ cb_writes m !! k = Some w /\ wt_purpose w = ForUpdate c id.
Proof.
  intros Hok Htold. destruct (step_accounted m ev Hok) as [(l & Hl & Hf) _]. pose proof Htold as Hin.
  rewrite Hl in Hin. apply elem_of_app in Hin as [?|Hin]; [by left|].
  rewrite Forall_forall in Hf. destruct (Hf _ Hin) as [(id' & o & He & [(p & dev & payload & ->)|(k & r & w & -> & Hw & _)])
    |(p & t & _ & (e & _ & _ & He) & _)].
  - left. exact (message_told m p dev c payload c id Htold).
  - destruct (write_done_told m k r c id Htold) as [?|(u & w' & -> & Hw' & Hp)]; [by left | right; eauto 10].
  - by destruct (result_not_update m id Outcome.Applied e).
Qed.

(** ** On every lawful backend *)

Context `{!LawfulBackend B W}.

Definition desk_ok (d : Desk) : Prop :=
  held_ok (dk_clip d) /\ writes_logged (dk_clip d) /\ backend_ok (dk_world d).

Lemma clip_step_ok m ev : held_ok m -> writes_logged m -> held_ok (clip_step m ev) /\ writes_logged (clip_step m ev).
Proof. intros Hok Hwl. split; [by apply step_accounted | by apply writes_logged_step]. Qed.

Lemma desk_step_ok b d e : desk_ok d -> desk_ok (desk_step b d e).
Proof.
  intros (Hok & Hwl & Hb). destruct e as [ev|k|p s r|r]; cbn [desk_step].
  - destruct (asks_platform ev); [done|]. by destruct (clip_step_ok _ ev Hok Hwl).
  - destruct (cb_writes (dk_clip d) !! k) as [w|] eqn:Hw; [|done].
    destruct (write_text _ _ _ _) as [r world] eqn:Hr. destruct (clip_step_ok _ (EvWritten k (map_err Backend.kind r)) Hok Hwl).
    split_and!; try done. destruct (Hwl k w Hw). by eapply (write_keeps b).
  - destruct (negb _); [done|]. destruct (read_text _ _) as [x world] eqn:Hr.
    destruct (clip_step_ok _ (EvSend p s (map_err Backend.kind x) r) Hok Hwl). split_and!; try done.
    by eapply (read_hands_nothing b).
  - destruct (read_text _ _) as [x world] eqn:Hr. destruct (clip_step_ok _ (EvLocal (map_err Backend.kind x) r) Hok Hwl).
    split_and!; try done. by eapply (read_hands_nothing b).
Qed.

Lemma desk_run_ok b d evs : desk_ok d -> desk_ok (desk_run b d evs).
Proof. revert d. induction evs as [|e evs IH]; intros d Hok; [done|]. by apply IH, desk_step_ok. Qed.

Lemma desk_start_ok id w : backend_ok w -> desk_ok (desk_start id w).
Proof. intros Hb. split; [apply held_ok_new|]. split; [|done]. intros k w' Hk. cbn in Hk. by rewrite lookup_empty in Hk. Qed.

(** What a step may hand to the platform: nothing, or part of the clip whose
    write is carried out, under its own marking. *)
Definition hands_over (b : B) (d : Desk) (e : DeskEvent) (d' : Desk) : Prop :=
  handed (dk_world d') = handed (dk_world d) \/
  exists k w part, e = DkWrite k /\ cb_writes (dk_clip d) !! k = Some w /\
    part `prefix_of` str_bytes (ct_text (wt_text w)) /\
    handed (dk_world d') = handed (dk_world d) ++ [(part, wt_sensitive w)] /\
    LWrote (wt_peer w) (wt_text w) (wt_sensitive w) ∈ cb_log (dk_clip d) /\
    (wt_sensitive w = true -> sensitive_support b (dk_world d) = Ok tt).

Lemma write_hands b d k w : desk_ok d -> cb_writes (dk_clip d) !! k = Some w -> hands_over b d (DkWrite k) (desk_step b d (DkWrite k)).
Proof.
  intros (_ & Hwl & _) Hw. unfold hands_over. cbn [desk_step]. rewrite Hw.
  destruct (write_text b (wt_text w) (wt_sensitive w) (dk_world d)) as [r world] eqn:Hr. cbn [dk_world].
  assert (Hmark : handed world = handed (dk_world d) \/ (wt_sensitive w = true -> sensitive_support b (dk_world d) = Ok tt)).
  { destruct (sensitive_support b (dk_world d)) as [[]|why] eqn:Hs; [by right|]. destruct (wt_sensitive w) eqn:Hsens; [|by right].
    left. destruct (unmarkable_refused b (wt_text w) (dk_world d) why Hs) as [e He]. rewrite Hr in He. by injection He as _ ->. }
  destruct Hmark as [?|Hmark]; [by left|]. destruct (Hwl k w Hw) as [_ Hlog]. destruct r as [[]|e].
  - right. exists k, w, (str_bytes (ct_text (wt_text w))). by rewrite (write_whole b _ _ _ _ Hr).
  - destruct (write_failed b _ _ _ _ _ Hr) as [?|(part & Hpre & Heq)]; [by left|]. right. by exists k, w, part.
Qed.

Lemma desk_step_hands b d e : desk_ok d -> hands_over b d e (desk_step b d e).
Proof.
  intros Hok. destruct e as [ev|k|p s r|r].
  - left. cbn [desk_step]. by destruct (asks_platform ev).
  - destruct (cb_writes (dk_clip d) !! k) as [w|] eqn:Hw; [by eapply write_hands|]. left. cbn [desk_step]. by rewrite Hw.
  - left. cbn [desk_step]. destruct (negb _); [done|]. destruct (read_text _ _) as [x world] eqn:Hr. by apply (read_hands_nothing b) in Hr as [? _].
  - left. cbn [desk_step]. destruct (read_text _ _) as [x world] eqn:Hr. by apply (read_hands_nothing b) in Hr as [? _].
Qed.

(** A peer is told only in the step that put its whole clip on the clipboard. *)
Lemma desk_step_told b d e c id : desk_ok d -> told c id (dk_clip (desk_step b d e)) -> told c id (dk_clip d) \/
  exists k w, e = DkWrite k /\ cb_writes (dk_clip d) !! k = Some w /\ wt_purpose w = ForUpdate c id /\
    handed (dk_world (desk_step b d e)) = handed (dk_world d) ++ [(str_bytes (ct_text (wt_text w)), wt_sensitive w)].
Proof.
  intros (Hok & _ & _). destruct e as [ev|k|p s r|r]; cbn [desk_step].
  - destruct (asks_platform ev) eqn:Ha; [by left|]. intros [?|(k & u & w & -> & _)]%step_told; [by left | done..].
  - destruct (cb_writes (dk_clip d) !! k) as [w|] eqn:Hw; [|by left].
    destruct (write_text _ _ _ _) as [r world] eqn:Hr. cbn [dk_clip dk_world].
    intros [?|(k' & u & w' & Hev & Hw' & Hp)]%step_told; [by left | | done]. right. injection Hev as <- Hr'.
    rewrite Hw in Hw'. injection Hw' as <-. exists k, w. split_and!; try done.
    destruct r as [[]|e]; [by apply (write_whole b) in Hr | done].
  - destruct (negb _); [by left|]. destruct (read_text _ _) as [x world]. cbn [dk_clip].
    intros [?|(k & u & w & ? & _)]%step_told; [by left | done..].
  - destruct (read_text _ _) as [x world]. cbn [dk_clip]. intros [?|(k & u & w & ? & _)]%step_told; [by left | done..].
Qed.

(** C12: what reaches the desktop's clipboard.  On every backend that keeps the
    contract, through any interleaving of peers, users, policy changes, signals
    and writes: a step hands the platform nothing, or a clip whose write the
    manager had started and logged (which the policy allowed, and only sharable
    text): no byte that is not the clip's own, and marked sensitive exactly when
    the clip is, which needs a platform that can mark it.  A peer is told that
    its clip was applied only in the step that handed over the whole of it. *)
Theorem platform_gets_what_was_allowed b id w0 evs e :
  backend_ok w0 ->
  let d := desk_run b (desk_start id w0) evs in
  let d' := desk_step b d e in
  hands_over b d e d' /\
  (forall k w, cb_writes (dk_clip d) !! k = Some w -> sharable (ct_text (wt_text w))) /\
  (forall c ev_id, told c ev_id (dk_clip d') -> told c ev_id (dk_clip d) \/
     exists k w, e = DkWrite k /\ cb_writes (dk_clip d) !! k = Some w /\ wt_purpose w = ForUpdate c ev_id /\
       handed (dk_world d') = handed (dk_world d) ++ [(str_bytes (ct_text (wt_text w)), wt_sensitive w)]).
Proof.
  intros Hb d d'. assert (Hok : desk_ok d) by (by apply desk_run_ok, desk_start_ok).
  split; [by apply desk_step_hands|]. split; [|intros c ev_id; by apply desk_step_told].
  intros k w Hw. destruct Hok as (_ & Hwl & _). destruct (Hwl k w Hw) as [Hm _]. by apply made_sharable in Hm as [? _].
Qed.
End Desk.
