(* ===== verification/ClipDeskRuns.v ===== *)
(** The platform's clipboard, run.

    A phone's clip goes through the manager to [wl-copy] on a session with the
    tools installed; a sensitive one is refused where [wl-copy] cannot mark it,
    and the peer is told so; what [wl-paste] prints is classified; the watches
    coalesce. *)
From S2P Require Import Prelude External Ids Capability Policy Discovery Utf8 Migration Panel Dedup Clipboard ClipboardFacts ClipboardRuns WlClipboard WlClipboardFacts ClipDesk.

#[local] Existing Instances clip_codec toy_crypto.

Definition ascii_only_case : UnicodeCase := {| to_lowercase s := map ascii_lower s; to_lowercase_ascii _ _ := eq_refl |}.
#[local] Existing Instance ascii_only_case.

Definition exited (n : N) : ExitStatus := {| es_code := Some n; es_display := lit "exit status: " ++ u64_to_string n |}.

(** Tools that work; [help] is what [wl-copy --help] prints, [pasted] the answer
    of every [wl-paste]. *)
Definition tools (help : bytes) (pasted : OutputRun) (probe : ProbeRun) : Tools := {|
  run_output _ p := if eqb (pr_program p) WL_COPY then OExited (exited 0) help [] else pasted;
  run_copy _ _ _ := CExited (exited 0);
  run_probe _ _ := probe |}.

Definition nothing_copied : OutputRun := OExited (exited 1) [] (blit "Nothing is copied").
Definition modern : Tools := tools (blit "  -s, --sensitive") nothing_copied PRunning.
Definition older : Tools := tools (blit "  -o, --paste-once") nothing_copied (PExited (exited 1)).

Definition session : SessionEnv := {|
  se_path := Some (lit "/usr/local/bin:/usr/bin");
  se_is_file p := eqb p (lit "/usr/bin/wl-copy") || eqb p (lit "/usr/bin/wl-paste");
  se_display := true; se_wayland_display := true;
  se_x := {| xp_connect := Ok tt; xp_query := Ok tt; xp_reply := Some (5, 0) |} |}.

(** With the flag and the protocol, and without either. *)
Example detected_modern : @detect_linux modern session [] =
  (DWayland {| wb_tools := Ok tt; wb_watch := DataControl; wb_sensitive := Supported |}, [watch_probe_proc; help_proc]).
Proof. vm_compute. reflexivity. Qed.

Example detected_older : (@detect_linux older session []).1 =
  DWayland {| wb_tools := Ok tt; wb_watch := X11Fixes; wb_sensitive := Unsupported REMEDY |}.
Proof. vm_compute. reflexivity. Qed.

Definition modern_backend : Detected := (@detect_linux modern session []).1.
Definition older_backend : Detected := (@detect_linux older session []).1.

Definition marked_update (n : byte) (text : str) : bytes := encode_to_vec {| cc_body := Some (CUpdate {|
  cu_event_id := replicate 16 n; cu_origin_device_id := []; cu_text_utf8 := text;
  cu_content_hash := []; cu_sensitive_hint := true; cu_timestamp_unix_ms := 0 |}) |}.

Definition from_phone (payload : bytes) : list DeskEvent :=
  (DkClip <$> connect) ++ [DkClip (EvMessage phone phone_id 1 payload)].

(** Marked and written, and the phone is told; refused whole where it cannot be
    marked, and the phone is told that. *)
Example sensitive_clip_written :
  let d := @desk_run _ _ toy_crypto clip_codec (@detected_backend toy_crypto ascii_only_case modern) modern_backend
    (desk_start phone_id []) (from_phone (marked_update x01 (lit "hunter2")) ++ [DkWrite 0]) in
  dk_world d = [copy_proc true (Some (blit "hunter2"))] /\
  last (cb_log (dk_clip d)) = Some (LQueued 1 (encode_result (replicate 16 x01) Outcome.Applied)).
Proof. vm_compute. split; reflexivity. Qed.

Example sensitive_clip_refused :
  let d := @desk_run _ _ toy_crypto clip_codec (@detected_backend toy_crypto ascii_only_case older) older_backend
    (desk_start phone_id []) (from_phone (marked_update x01 (lit "hunter2")) ++ [DkWrite 0]) in
  dk_world d = [] /\
  last (cb_log (dk_clip d)) = Some (LQueued 1 (encode_result (replicate 16 x01) Outcome.Failed)).
Proof. vm_compute. split; reflexivity. Qed.

Lemma platform_gets_what_was_allowed_witness :
  let cb := @detected_backend toy_crypto ascii_only_case modern in
  let d := @desk_run _ _ toy_crypto clip_codec cb modern_backend
    (desk_start phone_id []) (from_phone (marked_update x01 (lit "hunter2"))) in
  @hands_over _ _ toy_crypto cb (@detected_lawful toy_crypto ascii_only_case modern)
    modern_backend d (DkWrite 0) (@desk_step _ _ toy_crypto clip_codec cb modern_backend d (DkWrite 0)) /\
  is_Some (cb_writes (dk_clip d) !! 0).
Proof.
  intros cb d. split; [|vm_compute; by eexists].
  exact (proj1 (@platform_gets_what_was_allowed _ _ toy_crypto clip_codec cb
    (@detected_lawful toy_crypto ascii_only_case modern) modern_backend phone_id []
    (from_phone (marked_update x01 (lit "hunter2"))) (DkWrite 0) I)).
Defined.

(** ** What [wl-paste] says *)

Definition plain_backend : WaylandBackend := {| wb_tools := Ok tt; wb_watch := DataControl; wb_sensitive := Supported |}.

(** Nothing of the first type, so the second is asked for; bytes that are not
    text are nothing either; a text that cannot be carried is an error at once. *)
Example paste_classified :
  let read out := @wayland_read_text toy_crypto ascii_only_case (tools [] out PRunning) plain_backend [] in
  read nothing_copied = (Ok None, [paste_command TEXT_MIME; paste_command PLAIN_MIME]) /\
  (read (OExited (exited 0) [xff; xfe] [])).1 = Ok None /\
  read (OExited (exited 0) (blit "hello") []) = (Ok (Some hello), [paste_command TEXT_MIME]) /\
  read (OExited (exited 0) [x61; x00] []) = (Err (Backend.Failed (lit "contains a NUL character")), [paste_command TEXT_MIME]) /\
  (read (OExited (exited 1) [] (blit "Failed to connect to a Wayland server"))).1 =
    Err (Backend.Unavailable (lit "wl-paste could not reach the Wayland compositor")) /\
  (read OTimedOut).1 = Err Backend.TimedOut.
Proof. vm_compute. split_and!; reflexivity. Qed.

(** A failure whose message has the letters of offer in it is taken for an empty
    clipboard. *)
Example offered_failure_is_nothing : (@wayland_read_text toy_crypto ascii_only_case
  (tools [] (OExited (exited 1) [] (blit "Failed to receive the data offered: broken pipe")) PRunning) plain_backend []).1 = Ok None.
Proof. vm_compute. reflexivity. Qed.

(** [from_utf8_lossy] on text, on a truncated character and on stray bytes. *)
Example lossy_examples : from_utf8_lossy (blit "ok") = lit "ok" /\
  from_utf8_lossy [x61; xe2; x82] = [97; REPLACEMENT] /\
  from_utf8_lossy [xe2; x82; xac; xff; x62] = [8364; REPLACEMENT; 98] /\
  from_utf8_lossy [xf0; x9f; x41] = [REPLACEMENT; 65] /\
  from_utf8_lossy [xed; xa0; x80] = [REPLACEMENT; REPLACEMENT; REPLACEMENT].
Proof. vm_compute. split_and!; reflexivity. Qed.

(** ** Watching *)

Definition x_server : XServer := {|
  xs_connect := Ok 0%nat; xs_roots := [(7, 33)]; xs_query := Ok tt; xs_version := Some (5, 0);
  xs_intern name := if eqb name CLIPBOARD_ATOM then Ok 300 else Ok 301;
  xs_generate_id := Ok 9; xs_create := Ok tt; xs_select := Ok tt; xs_flush := Ok tt; xs_thread := Ok tt |}.

(** Seventy copies before anybody looks: 64 signals wait, and taking them all
    and copying once more leaves one; the selection filled with the mouse does
    nothing. *)
Lemma watch_never_misses_witness :
  let g := {| xw_window := 9; xw_clipboard := 300; xw_stop := 301 |} in
  let evs := replicate 70 (FromX (SelectionNotify 300)) ++ replicate 64 Received ++
             [FromX (SelectionNotify 1); FromX (SelectionNotify 300)] in
  watch_run (FixesWatch g) (replicate 70 (FromX (SelectionNotify 300))) = (true, {| ch_queued := 64; ch_closed := false |}) /\
  0 < ch_queued (watch_run (FixesWatch g) evs).2.
Proof.
  intros g evs. split; [vm_compute; reflexivity|].
  pose proof (@watch_never_misses toy_crypto {| wb_tools := Ok tt; wb_watch := X11Fixes; wb_sensitive := Supported |}
    (Ok true) x_server [] (FixesWatch g) [] evs Dropped ltac:(vm_compute; reflexivity)) as [[_ Hsome] _].
  apply Hsome; vm_compute; reflexivity.
Defined.

(** ** Receiving only *)

(** A session that can neither mark nor watch still receives. *)
Example receiving_needs_no_watch :
  let b := DWayland {| wb_tools := Ok tt; wb_watch := WatchNone (no_watch []); wb_sensitive := Unsupported REMEDY |} in
  let d := @desk_run _ _ toy_crypto clip_codec (@detected_backend toy_crypto ascii_only_case older) b
    (desk_start phone_id []) (from_phone (update x01 (lit "hello")) ++ [DkWrite 0]) in
  dk_world d = [copy_proc false (Some (blit "hello"))].
Proof. vm_compute. reflexivity. Qed.
