(* ===== verification/Session.v ===== *)
(** The handshakes.

    [core/src/session.rs]: [accept_handshake] with [accept_pairing] (the
    responder) and [connect_handshake] (the initiator).  Both are programs of a
    small state-and-error monad over a [World]: the host application behind the
    [SessionHost] class, the two halves of the stream, and everything the code
    draws from outside (timers, random ids, the wall clock, the nonce generator,
    the human).  [w_others] is what other tasks do to the host before each call
    that awaits it, so the theorems hold under any interleaving.  [w_log] records
    the calls made to the host, with their answers, in order. *)
From S2P Require Import Prelude External Ids Wire Framing Capability Pairing Replay.

Definition HANDSHAKE_TIMEOUT : N := from_secs 15.
Definition PAIRING_CONFIRM_TIMEOUT : N := from_secs 60.

Module PeerStatus.
Inductive t :=
| Trusted (device_id device_name : str) (granted_capabilities : list str)
| Unknown
| Revoked.
End PeerStatus.

(** * The host *)

(** The trait; [H] is the type of capability handlers.  [confirm_pairing] gets
    the human's answer, if there is one. *)
Class SessionHost (S H : Type) := {
  local_device_info : S -> DeviceInfo;
  registry : S -> CapabilityRegistry H;
  lookup_peer : S -> Fingerprint -> PeerStatus.t;
  pairing_mode_active : S -> bool;
  verify_pairing_proof :
    S -> Profile -> Fingerprint -> bytes -> bytes -> result PairingError (bytesn 32) * S;
  confirm_pairing : S -> DeviceInfo -> Fingerprint -> bool -> bool;
  store_peer : S -> DeviceInfo -> Fingerprint -> list str -> N -> Result unit * S
}.

(** A call to the host that awaits it, with its answer. *)
Inductive HostCall :=
| HcLookup (fp : Fingerprint) (status : PeerStatus.t)
| HcActive (b : bool)
| HcVerify (profile : Profile) (fp : Fingerprint) (nonce proof : bytes)
    (answer : result PairingError (bytesn 32))
| HcConfirm (device : DeviceInfo) (fp : Fingerprint) (answer : bool)
| HcStore (device : DeviceInfo) (fp : Fingerprint) (caps : list str) (version : N) (answer : Result unit).

(** * The monad *)

Record World (S : Type) := {
  w_host : S;
  w_in : Reader;
  w_out : Writer;
  w_timeouts : list bool;
  w_ids : list (bytes * Z);
  w_nonces : list (option (bytesn 32));
  w_human : list (option bool);
  w_others : list (S -> S);
  w_log : list HostCall
}.
Arguments w_host {_}. Arguments w_in {_}. Arguments w_out {_}. Arguments w_timeouts {_}.
Arguments w_ids {_}. Arguments w_nonces {_}. Arguments w_human {_}. Arguments w_others {_}.
Arguments w_log {_}.

Definition M (S A : Type) : Type := World S -> Result A * World S.

#[export] Instance m_ret {S} : MRet (M S) := fun A a w => (Ok a, w).
#[export] Instance m_bind {S} : MBind (M S) := fun A B k m w =>
  match m w with
  | (Ok a, w') => k a w'
  | (Err e, w') => (Err e, w')
  end.

Section Effects.
Context {S : Type}.

Definition throw {A} (e : Error) : M S A := fun w => (Err e, w).
Definition lift {A} (r : Result A) : M S A := fun w => (r, w).

(** [let _ = ...;]: an error is dropped. *)
Definition ignore (m : M S unit) : M S unit := fun w => (Ok tt, (m w).2).

Definition gets {A} (f : S -> A) : M S A := fun w => (Ok (f (w_host w)), w).

Definition set_host (w : World S) (h : S) (others : list (S -> S)) (c : HostCall) : World S := {|
  w_host := h; w_in := w_in w; w_out := w_out w; w_timeouts := w_timeouts w; w_ids := w_ids w;
  w_nonces := w_nonces w; w_human := w_human w; w_others := others; w_log := w_log w ++ [c] |}.

(** An awaited call: the other tasks run first, then the call, atomically (the
    host takes its locks). *)
Definition call {A} (f : S -> A * S) (c : A -> HostCall) : M S A := fun w =>
  let '(h, others) := match w_others w with [] => (w_host w, []) | g :: l => (g (w_host w), l) end in
  let '(a, h') := f h in (Ok a, set_host w h' others (c a)).

(** A call that only reads. *)
Definition ask {A} (f : S -> A) (c : A -> HostCall) : M S A := call (fun h => (f h, h)) c.

(** A random message id and the time of day. *)
Definition fresh_id : M S (bytes * Z) := fun w =>
  match w_ids w with
  | [] => (Ok ([], 0%Z), w)
  | x :: l => (Ok x, {| w_host := w_host w; w_in := w_in w; w_out := w_out w; w_timeouts := w_timeouts w;
      w_ids := l; w_nonces := w_nonces w; w_human := w_human w; w_others := w_others w; w_log := w_log w |})
  end.

(** [generate_nonce] *)
Definition generate_nonce : M S (bytesn 32) := fun w =>
  match w_nonces w with
  | Some n :: l => (Ok n, {| w_host := w_host w; w_in := w_in w; w_out := w_out w; w_timeouts := w_timeouts w;
      w_ids := w_ids w; w_nonces := l; w_human := w_human w; w_others := w_others w; w_log := w_log w |})
  | _ => (Err (EStore "system CSPRNG unavailable"), w)
  end.

(** The human's answer within the time allowed. *)
Definition human : M S (option bool) := fun w =>
  match w_human w with
  | [] => (Ok None, w)
  | a :: l => (Ok a, {| w_host := w_host w; w_in := w_in w; w_out := w_out w; w_timeouts := w_timeouts w;
      w_ids := w_ids w; w_nonces := w_nonces w; w_human := l; w_others := w_others w; w_log := w_log w |})
  end.

Context `{PR : !Prost Envelope}.

(** [tokio::time::timeout(_, framing::read_envelope(stream))] with its two [?]. *)
Definition read_timed (msg : string) : M S Envelope := fun w =>
  let '(late, ts) := match w_timeouts w with [] => (false, []) | b :: l => (b, l) end in
  let put r := {| w_host := w_host w; w_in := r; w_out := w_out w; w_timeouts := ts; w_ids := w_ids w;
      w_nonces := w_nonces w; w_human := w_human w; w_others := w_others w; w_log := w_log w |} in
  if late then (Err (EProtocol msg), put (w_in w))
  else let '(r, rd) := read_envelope (w_in w) in (r, put rd).

Definition write_env (e : Envelope) : M S unit := fun w =>
  let '(r, out) := write_envelope (w_out w) e in
  (r, {| w_host := w_host w; w_in := w_in w; w_out := out; w_timeouts := w_timeouts w; w_ids := w_ids w;
      w_nonces := w_nonces w; w_human := w_human w; w_others := w_others w; w_log := w_log w |}).

(** [guard.admit(&env)?] *)
Definition admit_env (g : ReplayGuard) (e : Envelope) : M S ReplayGuard := fun w =>
  match ReplayGuard_admit g e with
  | (Ok _, g') => (Ok g', w)
  | (Err err, _) => (Err err, w)
  end.

(** [factory.build] and [factory.build_reply] followed by a write. *)
Definition send (f : EnvelopeFactory) (body : Body) : M S EnvelopeFactory :=
  x ← fresh_id;
  let '(e, f') := build f x.1 x.2 body in
  _ ← write_env e; mret f'.

Definition send_reply (f : EnvelopeFactory) (body : Body) (correlate : bytes) : M S EnvelopeFactory :=
  x ← fresh_id;
  let '(e, f') := build_reply f x.1 x.2 body correlate in
  _ ← write_env e; mret f'.

(** The same with the write's error dropped. *)
Definition try_reply (f : EnvelopeFactory) (body : Body) (correlate : bytes) : M S unit :=
  x ← fresh_id;
  let '(e, _) := build_reply f x.1 x.2 body correlate in
  ignore (write_env e).
End Effects.

(** * The responder *)

Record Established := {
  es_peer : Fingerprint;
  es_profile : Profile;
  es_device : DeviceInfo;
  es_negotiated_capabilities : list str;
  es_protocol_version : N
}.

Record EnvelopeState := { en_factory : EnvelopeFactory; en_guard : ReplayGuard }.

Definition ack (device : DeviceInfo) (status : HelloStatus) (version : N) (caps : list str) (nonce : bytes) : Body :=
  BHelloAck {| ha_device := Some device; ha_status := hello_status_i32 status;
    ha_negotiated_protocol_version := version; ha_capabilities := caps; ha_pairing_nonce := nonce |}.

Definition pair_response (status : PairStatus) (confirmation : bytes) : Body :=
  BPairResponse {| ps_status := pair_status_i32 status; ps_confirmation := confirmation |}.

(** [info.device_id = ..; info.device_name = ..] *)
Definition rename_device (d : DeviceInfo) (device_id device_name : str) : DeviceInfo := {|
  di_device_id := device_id; di_device_name := device_name; di_platform := di_platform d;
  di_identity_fingerprint := di_identity_fingerprint d |}.

(** [.filter(|c| granted.iter().any(|g| g == c))] *)
Definition only_granted (granted mutual : list str) : list str :=
  filter (fun c => mem c granted = true) mutual.

Definition reject_status (e : PairingError) : PairStatus :=
  match e with
  | NotInPairingMode => PsNotInPairingMode
  | RateLimited => PsRateLimited
  | _ => PsRejected
  end.

Section Handshakes.
Context {S H : Type} `{SH : !SessionHost S H, PR : !Prost Envelope, HC : !HexCodec}.

Definition accept_pairing (profile : Profile) (factory : EnvelopeFactory) (guard : ReplayGuard)
    (peer_fingerprint : Fingerprint) (device : DeviceInfo) (nonce : bytes) (version : N)
    (peer_capabilities : list str) : M S (Established * EnvelopeState) :=
  env ← read_timed "timed out waiting for PAIR_REQUEST";
  guard ← admit_env guard env;
  _ ← lift (guard_err (negb (e_protocol_version env =? version))
              (EProtocol "protocol version changed mid-connection"));
  request ← match e_body env with
            | Some (BPairRequest r) => mret r
            | _ => throw (EProtocol "expected PAIR_REQUEST from unknown peer")
            end;
  verdict ← call (fun h => verify_pairing_proof h profile peer_fingerprint nonce (pr_proof request))
              (HcVerify profile peer_fingerprint nonce (pr_proof request));
  match verdict with
  | Err e =>
      _ ← try_reply factory (pair_response (reject_status e) []) (e_message_id env);
      throw (EPairing e)
  | Ok confirmation =>
      answer ← human;
      confirmed ← ask (fun h => match answer with
                                | Some a => confirm_pairing h device peer_fingerprint a
                                | None => false
                                end) (HcConfirm device peer_fingerprint);
      if negb confirmed then
        _ ← try_reply factory (pair_response PsDeclinedByUser []) (e_message_id env);
        throw (EPairing DeclinedByUser)
      else
        reg ← gets registry;
        let mutual := negotiate reg peer_capabilities in
        stored ← call (fun h => store_peer h device peer_fingerprint mutual version)
                   (HcStore device peer_fingerprint mutual version);
        _ ← lift stored;
        factory ← send_reply factory (pair_response PsAccepted (bn_bytes confirmation)) (e_message_id env);
        status ← ask (fun h => lookup_peer h peer_fingerprint) (HcLookup peer_fingerprint);
        let granted := match status with PeerStatus.Trusted _ _ g => g | _ => [] end in
        mret ({| es_peer := peer_fingerprint; es_profile := profile; es_device := device;
                 es_negotiated_capabilities := only_granted granted mutual;
                 es_protocol_version := version |},
              {| en_factory := factory; en_guard := guard |})
  end.

Definition accept_handshake (peer_fingerprint : Fingerprint) (profile : Profile)
    : M S (Established * EnvelopeState) :=
  hello_env ← read_timed "timed out waiting for HELLO";
  guard ← admit_env ReplayGuard_new hello_env;
  hello ← match e_body hello_env with
          | Some (BHello h) => mret h
          | _ => throw (EProtocol "expected HELLO as the first message")
          end;
  device ← lift (ok_or (EProtocol "HELLO without device info") (h_device hello));
  claimed ← lift (map_err (fun _ => EProtocol "HELLO fingerprint is malformed")
                    (from_hex (di_identity_fingerprint device)));
  _ ← lift (guard_err (negb (eqb claimed peer_fingerprint))
              (EProtocol "HELLO fingerprint does not match the TLS peer certificate"));
  reg ← gets registry;
  local_info ← gets local_device_info;
  match negotiate_version (h_min_protocol_version hello) (h_max_protocol_version hello) with
  | None =>
      _ ← try_reply (EnvelopeFactory_new PROTOCOL_VERSION_MAX)
            (ack local_info HsVersionUnsupported 0 [] []) (e_message_id hello_env);
      throw EVersionUnsupported
  | Some version =>
      let factory := EnvelopeFactory_new version in
      status ← ask (fun h => lookup_peer h peer_fingerprint) (HcLookup peer_fingerprint);
      treat_as_unknown ← match status with
                         | PeerStatus.Revoked => ask pairing_mode_active HcActive
                         | _ => mret false
                         end;
      let greet :=
        active ← ask pairing_mode_active HcActive;
        nonce ← (if active : bool then n ← generate_nonce; mret (bn_bytes n) else mret []);
        factory ← send_reply factory (ack local_info HsPairingRequired version (advertised reg) nonce)
                    (e_message_id hello_env);
        if negb active then throw (EPairing NotInPairingMode)
        else accept_pairing profile factory guard peer_fingerprint device nonce version
               (h_capabilities hello) in
      match status with
      | PeerStatus.Revoked =>
          if negb treat_as_unknown then
            _ ← try_reply factory (ack local_info HsRejected version [] []) (e_message_id hello_env);
            throw ENotAuthorized
          else greet
      | PeerStatus.Trusted device_id device_name granted_capabilities =>
          let mutual := negotiate reg (h_capabilities hello) in
          factory ← send_reply factory (ack local_info HsTrusted version (advertised reg) [])
                      (e_message_id hello_env);
          mret ({| es_peer := peer_fingerprint; es_profile := profile;
                   es_device := rename_device device device_id device_name;
                   es_negotiated_capabilities := only_granted granted_capabilities mutual;
                   es_protocol_version := version |},
                {| en_factory := factory; en_guard := guard |})
      | PeerStatus.Unknown => greet
      end
  end.

(** * The initiator *)

Inductive ClientHandshake :=
| ChEstablished (e : Established) (s : EnvelopeState)
| ChPairingRequired.

Definition set_version (f : EnvelopeFactory) (v : N) : EnvelopeFactory :=
  {| ef_protocol_version := v; ef_sequence := ef_sequence f |}.

Definition version_ok (v : N) : bool := (PROTOCOL_VERSION_MIN <=? v) && (v <=? PROTOCOL_VERSION_MAX).

Definition pair_error (s : PairStatus) : PairingError :=
  match s with
  | PsDeclinedByUser => DeclinedByUser
  | PsNotInPairingMode => NotInPairingMode
  | PsRateLimited => RateLimited
  | _ => BadProof
  end.

Context `{CR : !Crypto}.

Definition connect_handshake (server_fingerprint : Fingerprint) (profile : Profile)
    (pairing : option PairingToken) : M S ClientHandshake :=
  local_info ← gets local_device_info;
  local_fp ← lift (from_hex (di_identity_fingerprint local_info));
  reg ← gets registry;
  factory ← send (EnvelopeFactory_new PROTOCOL_VERSION_MAX)
              (BHello {| h_device := Some local_info; h_min_protocol_version := PROTOCOL_VERSION_MIN;
                         h_max_protocol_version := PROTOCOL_VERSION_MAX;
                         h_capabilities := advertised reg |});
  ack_env ← read_timed "timed out waiting for HELLO_ACK";
  guard ← admit_env ReplayGuard_new ack_env;
  a ← match e_body ack_env with
      | Some (BHelloAck a) => mret a
      | _ => throw (EProtocol "expected HELLO_ACK")
      end;
  remote ← lift (ok_or (EProtocol "HELLO_ACK without device info") (ha_device a));
  claimed ← lift (map_err (fun _ => EProtocol "HELLO_ACK fingerprint is malformed")
                    (from_hex (di_identity_fingerprint remote)));
  _ ← lift (guard_err (negb (eqb claimed server_fingerprint))
              (EProtocol "HELLO_ACK fingerprint does not match the pinned server identity"));
  let version := ha_negotiated_protocol_version a in
  let mutual := negotiate reg (ha_capabilities a) in
  let established := {| es_peer := server_fingerprint; es_profile := profile; es_device := remote;
                        es_negotiated_capabilities := mutual; es_protocol_version := version |} in
  match default HsUnspecified (hello_status_try_from (ha_status a)) with
  | HsVersionUnsupported => throw EVersionUnsupported
  | HsRejected => throw ENotAuthorized
  | HsUnspecified => throw (EProtocol "HELLO_ACK with unspecified status")
  | HsTrusted =>
      if negb (version_ok version) then throw EVersionUnsupported
      else mret (ChEstablished established {| en_factory := set_version factory version; en_guard := guard |})
  | HsPairingRequired =>
      match pairing with
      | None => mret ChPairingRequired
      | Some token =>
          if negb (len (ha_pairing_nonce a) =? N.of_nat NONCE_LEN) then throw (EPairing NotInPairingMode)
          else if negb (version_ok version) then throw EVersionUnsupported
          else
            let proof := compute_proof profile token server_fingerprint local_fp (ha_pairing_nonce a) in
            factory ← send (set_version factory version) (BPairRequest {| pr_proof := bn_bytes proof |});
            resp_env ← read_timed "timed out waiting for PAIR_RESPONSE";
            guard ← admit_env guard resp_env;
            resp ← match e_body resp_env with
                   | Some (BPairResponse r) => mret r
                   | _ => throw (EProtocol "expected PAIR_RESPONSE")
                   end;
            let pair_status := default PsUnspecified (pair_status_try_from (ps_status resp)) in
            if negb (eqb pair_status PsAccepted) then throw (EPairing (pair_error pair_status))
            else
              let expected :=
                compute_confirmation profile token server_fingerprint local_fp (ha_pairing_nonce a) in
              if negb (verify_proof expected (ps_confirmation resp)) then throw (EPairing BadProof)
              else
                stored ← call (fun h => store_peer h remote server_fingerprint mutual version)
                           (HcStore remote server_fingerprint mutual version);
                _ ← lift stored;
                mret (ChEstablished established {| en_factory := factory; en_guard := guard |})
      end
  end.

End Handshakes.
