(* ===== verification/SessionFacts.v ===== *)
(** What a completed handshake proves.

    Inversion of the programs of [Session.v]: each theorem takes a run that ended
    in [Ok] and says what the peer sent and which questions the host was asked,
    with which answers, whatever other tasks did in between. *)
From S2P Require Import Prelude External Ids Wire Framing Capability Pairing Replay Session.

(** * Runs of the monad *)

Section Inversion.
Context {S : Type}.

Lemma bind_run {A B} (m : M S A) (k : A -> M S B) w b w' :
  (m ≫= k) w = (Ok b, w') <-> exists a w1, m w = (Ok a, w1) /\ k a w1 = (Ok b, w').
Proof.
  unfold mbind, m_bind. destruct (m w) as [[a|e] w1]; split.
  - eauto.
  - by intros (? & ? & [= <- <-] & ?).
  - done.
  - by intros (? & ? & ? & ?).
Qed.

Lemma ret_run {A} (a b : A) (w w' : World S) : mret (M := M S) a w = (Ok b, w') <-> a = b /\ w = w'.
Proof. unfold mret, m_ret. naive_solver. Qed.

Lemma throw_run {A} e (w : World S) (a : A) w' : throw e w <> (Ok a, w').
Proof. done. Qed.

Lemma lift_run {A} (r : Result A) (w : World S) a w' : lift r w = (Ok a, w') <-> r = Ok a /\ w = w'.
Proof. unfold lift. destruct r; naive_solver. Qed.

Lemma gets_run {A} (f : S -> A) w a w' : gets f w = (Ok a, w') <-> a = f (w_host w) /\ w = w'.
Proof. unfold gets. naive_solver. Qed.

(** Nothing the host knows changed. *)
Definition quiet (w w' : World S) : Prop :=
  w_log w' = w_log w /\ w_host w' = w_host w /\ w_others w' = w_others w.

#[export] Instance quiet_trans : Transitive quiet.
Proof. intros a b c (? & ? & ?) (? & ? & ?). split_and!; congruence. Qed.
#[export] Instance quiet_refl : Reflexive quiet.
Proof. by intros a. Qed.

(** The host as the next awaited call finds it. *)
Definition next_host (w : World S) : S :=
  match w_others w with [] => w_host w | g :: _ => g (w_host w) end.

Lemma call_run {A} (f : S -> A * S) c w a w' : call f c w = (Ok a, w') ->
  f (next_host w) = (a, w_host w') /\ w_log w' = w_log w ++ [c a] /\ w_in w' = w_in w /\
  w_nonces w' = w_nonces w /\ w_others w' = tail (w_others w).
Proof.
  unfold call, next_host. intros Hc.
  destruct (w_others w) as [|g l]; simpl in *;
    destruct (f _) as [a1 h1] eqn:Hf; simplify_eq; simpl; done.
Qed.

Lemma ask_run {A} (f : S -> A) c w a w' : ask f c w = (Ok a, w') ->
  a = f (next_host w) /\ w_host w' = next_host w /\ w_log w' = w_log w ++ [c a] /\ w_in w' = w_in w /\
  w_nonces w' = w_nonces w /\ w_others w' = tail (w_others w).
Proof. unfold ask. intros Hc%call_run. naive_solver. Qed.

Lemma fresh_id_run w x w' : fresh_id w = (Ok x, w') ->
  quiet w w' /\ w_in w' = w_in w /\ w_nonces w' = w_nonces w /\ w_out w' = w_out w.
Proof. unfold fresh_id, quiet. destruct (w_ids w); intros; by simplify_eq. Qed.

Lemma human_run w x w' : human w = (Ok x, w') -> quiet w w' /\ w_in w' = w_in w /\ w_nonces w' = w_nonces w.
Proof. unfold human, quiet. destruct (w_human w); intros; by simplify_eq. Qed.

Lemma generate_nonce_run w x w' : generate_nonce w = (Ok x, w') ->
  quiet w w' /\ w_in w' = w_in w /\ w_nonces w = Some x :: w_nonces w'.
Proof. unfold generate_nonce, quiet. destruct (w_nonces w) as [|[n|] l]; intros; by simplify_eq. Qed.

Context `{PR : !Prost Envelope}.

Lemma read_timed_run msg w e w' : read_timed msg w = (Ok e, w') ->
  quiet w w' /\ read_envelope (w_in w) = (Ok e, w_in w') /\ w_nonces w' = w_nonces w.
Proof.
  unfold read_timed, quiet. destruct (match w_timeouts w with [] => _ | _ => _ end) as [late ts].
  destruct late; [done|]. destruct (read_envelope (w_in w)) as [r rd] eqn:Hr. intros; by simplify_eq.
Qed.

Lemma write_env_run e w u w' : write_env e w = (Ok u, w') ->
  quiet w w' /\ w_in w' = w_in w /\ w_nonces w' = w_nonces w.
Proof.
  unfold write_env, quiet. destruct (write_envelope (w_out w) e). intros; by simplify_eq.
Qed.

Lemma admit_env_run g e (w : World S) g' w' : admit_env g e w = (Ok g', w') -> ReplayGuard_admit g e = (Ok tt, g') /\ w = w'.
Proof. unfold admit_env. destruct (ReplayGuard_admit g e) as [[[]|] g1]; intros; by simplify_eq. Qed.

Lemma send_reply_run f b c w f' w' : send_reply f b c w = (Ok f', w') ->
  quiet w w' /\ w_in w' = w_in w /\ w_nonces w' = w_nonces w.
Proof.
  unfold send_reply. intros (x & w1 & Hx & Hk)%bind_run.
  destruct (build_reply f x.1 x.2 b c) as [e f1]. apply bind_run in Hk as (u & w2 & Hu & Hr).
  apply ret_run in Hr as [_ <-]. apply fresh_id_run in Hx as (? & ? & ? & _).
  apply write_env_run in Hu as (? & ? & ?). split_and!; [by etrans|congruence|congruence].
Qed.

Lemma send_run f b w f' w' : send f b w = (Ok f', w') ->
  quiet w w' /\ w_in w' = w_in w /\ w_nonces w' = w_nonces w.
Proof.
  unfold send. intros (x & w1 & Hx & Hk)%bind_run.
  destruct (build f x.1 x.2 b) as [e f1]. apply bind_run in Hk as (u & w2 & Hu & Hr).
  apply ret_run in Hr as [_ <-]. apply fresh_id_run in Hx as (? & ? & ? & _).
  apply write_env_run in Hu as (? & ? & ?). split_and!; [by etrans|congruence|congruence].
Qed.
End Inversion.

(** Splits a run that ended in [Ok] into the runs of its parts. *)
Ltac inv_run :=
  repeat match goal with
  | H : (_ ≫= _) _ = (Ok _, _) |- _ => apply bind_run in H as (? & ? & ? & H)
  | H : mret _ _ = (Ok _, _) |- _ => apply ret_run in H as [? ?]
  | H : throw _ _ = (Ok _, _) |- _ => by apply throw_run in H
  | H : lift _ _ = (Ok _, _) |- _ => apply lift_run in H as [? ?]
  | H : gets _ _ = (Ok _, _) |- _ => apply gets_run in H as [? ?]
  | H : admit_env _ _ _ = (Ok _, _) |- _ => apply admit_env_run in H as [? ?]
  end; subst.

(** * The responder *)

Lemma only_granted_spec c granted mutual : c ∈ only_granted granted mutual <-> c ∈ granted /\ c ∈ mutual.
Proof. unfold only_granted. by rewrite list_elem_of_filter, mem_true. Qed.

Section Responder.
Context {S H : Type} `{SH : !SessionHost S H, PR : !Prost Envelope, HC : !HexCodec}.

(** The calls that admit a device through a pairing window. *)
Definition pairing_calls (profile : Profile) (fp : Fingerprint) (nonce : bytes) (device : DeviceInfo)
    (last : PeerStatus.t) (calls : list HostCall) : Prop :=
  exists proof conf caps v, calls =
    [HcVerify profile fp nonce proof (Ok conf); HcConfirm device fp true;
     HcStore device fp caps v (Ok tt); HcLookup fp last].

(** The grants an answer of the store carries. *)
Definition granted_by (status : PeerStatus.t) : list str :=
  match status with PeerStatus.Trusted _ _ g => g | _ => [] end.

Lemma accept_pairing_run profile f g fp device nonce v caps w est st w' :
  accept_pairing profile f g fp device nonce v caps w = (Ok (est, st), w') ->
  es_peer est = fp /\ es_profile est = profile /\ es_device est = device /\
  es_protocol_version est = v /\
  exists calls last, w_log w' = w_log w ++ calls /\ pairing_calls profile fp nonce device last calls /\
    forall c, c ∈ es_negotiated_capabilities est -> c ∈ granted_by last /\ c ∈ caps.
Proof.
  unfold accept_pairing. intros Hrun. apply bind_run in Hrun as (env & w1 & Hread & Hrun).
  apply read_timed_run in Hread as ((Hl1 & _) & _).
  apply bind_run in Hrun as (g1 & w2 & Hadm & Hrun). apply admit_env_run in Hadm as [_ <-].
  apply bind_run in Hrun as (? & w3 & Hver & Hrun). apply lift_run in Hver as [_ <-].
  apply bind_run in Hrun as (req & w4 & Hreq & Hrun).
  assert (w1 = w4) as <- by (repeat case_match; inv_run; done).
  apply bind_run in Hrun as (verdict & w5 & Hverify & Hrun).
  apply call_run in Hverify as (_ & Hl5 & _).
  destruct verdict as [conf|e]; [|by inv_run].
  apply bind_run in Hrun as (ans & w6 & Hhum & Hrun). apply human_run in Hhum as ((Hl6 & _) & _).
  apply bind_run in Hrun as (ok & w7 & Hask & Hrun). apply ask_run in Hask as (_ & _ & Hl7 & _).
  destruct ok; simpl in Hrun; [|by inv_run].
  apply bind_run in Hrun as (reg & w8 & Hreg & Hrun). apply gets_run in Hreg as [-> <-].
  apply bind_run in Hrun as (stored & w9 & Hst & Hrun). apply call_run in Hst as (_ & Hl9 & _).
  apply bind_run in Hrun as (u & w10 & Hlift & Hrun). apply lift_run in Hlift as [-> <-].
  apply bind_run in Hrun as (f2 & w11 & Hsend & Hrun). apply send_reply_run in Hsend as ((Hl11 & _) & _).
  apply bind_run in Hrun as (status & w12 & Hlook & Hrun). apply ask_run in Hlook as (_ & _ & Hl12 & _).
  apply ret_run in Hrun as [Heq <-]. simplify_eq. simpl. split_and!; try done.
  destruct u. eexists _, status. split; [|split].
  - rewrite Hl12, Hl11, Hl9, Hl7, Hl6, Hl5, Hl1, <- !app_assoc. simpl. reflexivity.
  - unfold pairing_calls. eauto 8.
  - intros c Hc. apply only_granted_spec in Hc as [Hg Hm].
    split; [done|]. by apply elem_of_negotiate in Hm as [? _].
Qed.

(** What the first message of an accepted connection was. *)
Definition first_hello (w : World S) (hello : Hello) : Prop :=
  exists env rd, read_envelope (w_in w) = (Ok env, rd) /\ e_body env = Some (BHello hello).

(** The ways in.  The HELLO carried the fingerprint of the key that TLS
    authenticated, and the host was asked, in this order: only whether the key is
    trusted, and it was; or, the key being unknown, or revoked while a pairing
    window was open, whether a window is open (yes), whether the proof for this
    connection's fresh nonce verifies (yes), the human (yes), and to store the
    pairing (done).  Each capability was announced by the peer, and granted to
    it by the host's last answer. *)
Definition admission (fp : Fingerprint) (profile : Profile) (w : World S) (est : Established) (w' : World S) : Prop :=
  es_peer est = fp /\ es_profile est = profile /\
  exists hello device status calls,
    first_hello w hello /\ h_device hello = Some device /\
    from_hex (di_identity_fingerprint device) = Ok fp /\
    w_log w' = w_log w ++ HcLookup fp status :: calls /\
    exists last, (forall c, c ∈ es_negotiated_capabilities est -> c ∈ h_capabilities hello /\ c ∈ granted_by last) /\
    ((exists i n g, status = PeerStatus.Trusted i n g /\ last = status /\ calls = []) \/
     (exists pre nonce rest,
        (status = PeerStatus.Unknown /\ pre = [] \/ status = PeerStatus.Revoked /\ pre = [HcActive true]) /\
        calls = pre ++ HcActive true :: rest /\ head (w_nonces w) = Some (Some nonce) /\
        pairing_calls profile fp (bn_bytes nonce) device last rest)).

Lemma greet_run fp profile version info caps_adv g1 device hello status pre (w10 : World S) mid w est st w' :
  w_log w10 = w_log w ++ HcLookup fp status :: pre -> w_nonces w10 = w_nonces w ->
  first_hello w hello -> h_device hello = Some device -> from_hex (di_identity_fingerprint device) = Ok fp ->
  (status = PeerStatus.Unknown /\ pre = [] \/ status = PeerStatus.Revoked /\ pre = [HcActive true]) ->
  (active ← ask pairing_mode_active HcActive;
   nonce ← (if active : bool then n ← generate_nonce; mret (bn_bytes n) else mret []);
   factory ← send_reply (EnvelopeFactory_new version) (ack info HsPairingRequired version caps_adv nonce) mid;
   if negb active then throw (EPairing NotInPairingMode)
   else accept_pairing profile factory g1 fp device nonce version (h_capabilities hello)) w10
    = (Ok (est, st), w') ->
  admission fp profile w est w'.
Proof.
  intros Hl10 Hn10 Hfirst Hdev Hfp Hpre Hg.
  apply bind_run in Hg as (active & w11 & Hact & Hg). apply ask_run in Hact as (_ & _ & Hl11 & _ & Hn11 & _).
  apply bind_run in Hg as (nonce & w12 & Hnonce & Hg).
  apply bind_run in Hg as (f2 & w13 & Hsend & Hg). apply send_reply_run in Hsend as ((Hl13 & _) & _).
  destruct active; simpl in Hg; [|by inv_run].
  apply bind_run in Hnonce as (n & w14 & Hgen & Hret). apply ret_run in Hret as [<- <-].
  apply generate_nonce_run in Hgen as ((Hl14 & _) & _ & Hn14).
  apply accept_pairing_run in Hg as (? & ? & _ & _ & calls & last & Hlog & Hcalls & Hcaps).
  split_and!; try done. exists hello, device, status, (pre ++ HcActive true :: calls).
  split_and!; try done.
  - by rewrite Hlog, Hl13, Hl14, Hl11, Hl10, <- !app_assoc.
  - exists last. split; [naive_solver|]. right. exists pre, n, calls. split_and!; try done.
    by rewrite <- Hn10, <- Hn11, Hn14.
Qed.

(** A handshake that completes was an admission. *)
Lemma accept_handshake_admits fp profile w est st w' :
  accept_handshake fp profile w = (Ok (est, st), w') -> admission fp profile w est w'.
Proof.
  unfold accept_handshake. intros Hrun. apply bind_run in Hrun as (env & w1 & Hread & Hrun).
  apply read_timed_run in Hread as ((Hl1 & _) & Hhello & Hn1).
  apply bind_run in Hrun as (g1 & w2 & Hadm & Hrun). apply admit_env_run in Hadm as [_ <-].
  apply bind_run in Hrun as (hello & w3 & Hh & Hrun).
  assert (e_body env = Some (BHello hello) /\ w1 = w3) as [Hbody <-]
    by (repeat case_match; inv_run; done).
  apply bind_run in Hrun as (device & w4 & Hdev & Hrun). apply lift_run in Hdev as [Hdev <-].
  apply bind_run in Hrun as (claimed & w5 & Hcl & Hrun). apply lift_run in Hcl as [Hcl <-].
  apply bind_run in Hrun as (u & w6 & Hguard & Hrun). apply lift_run in Hguard as [Hguard <-].
  inv_result. apply negb_false_iff, eqb_eq in Hguard as ->.
  apply bind_run in Hrun as (reg & w7 & Hreg & Hrun). apply gets_run in Hreg as [-> <-].
  apply bind_run in Hrun as (li & w8 & Hli & Hrun). apply gets_run in Hli as [-> <-].
  destruct (negotiate_version _ _) as [version|]; [|by inv_run].
  apply bind_run in Hrun as (status & w9 & Hlook & Hrun). apply ask_run in Hlook as (_ & _ & Hl9 & _ & Hn9 & _).
  apply bind_run in Hrun as (treat & w10 & Htreat & Hrun). cbv zeta in Hrun.
  assert (Hfirst : first_hello w hello) by (by exists env, (w_in w1)).
  destruct status as [i n granted| |].
  - apply ret_run in Htreat as [<- <-].
    apply bind_run in Hrun as (f2 & w11 & Hsend & Hrun). apply send_reply_run in Hsend as ((Hl11 & _) & _).
    apply ret_run in Hrun as [Heq <-]. simplify_eq. simpl. split_and!; try done.
    exists hello, device, (PeerStatus.Trusted i n granted), []. split_and!; try done.
    + rewrite Hl11, Hl9, Hl1. done.
    + exists (PeerStatus.Trusted i n granted). split; [|left; eauto 6].
      intros c Hc. apply only_granted_spec in Hc as [Hg Hm].
      split; [by apply elem_of_negotiate in Hm as [? _]|done].
  - apply ret_run in Htreat as [<- <-]. eapply greet_run with (w := w) (w10 := w9) (pre := []); [|congruence|done..|auto|exact Hrun].
    rewrite Hl9, Hl1. done.
  - apply ask_run in Htreat as (_ & _ & Hl10 & _ & Hn10 & _).
    destruct treat; simpl in Hrun; [|by inv_run].
    eapply greet_run with (w := w) (w10 := w10) (pre := [HcActive true]); [|congruence|done..|auto|exact Hrun].
    rewrite Hl10, Hl9, Hl1, <- app_assoc. done.
Qed.

(** C1: how a device gets in.  A responder's handshake that completes was an
    [admission]: the peer was trusted, or it proved the token of an open window
    and a human said yes and the pairing was stored.  There is no other way in,
    whatever the peer sends and whatever other tasks do to the host meanwhile. *)
Theorem accept_handshake_safe fp profile w est st w' :
  accept_handshake fp profile w = (Ok (est, st), w') -> admission fp profile w est w'.
Proof. apply accept_handshake_admits. Qed.

(** A property of the host that every other task keeps. *)
Definition kept (P : S -> Prop) (w : World S) : Prop :=
  P (w_host w) /\ Forall (fun g => forall h, P h -> P (g h)) (w_others w).

Lemma kept_quiet P w w' : quiet w w' -> kept P w -> kept P w'.
Proof. intros (_ & Hh & Ho) [HP Hg]. unfold kept. by rewrite Hh, Ho. Qed.

Lemma kept_next P w : kept P w -> P (next_host w).
Proof.
  intros [HP Hg]. unfold next_host. destruct (w_others w) as [|g l]; [done|].
  inversion Hg; subst. auto.
Qed.

Lemma kept_ask {A} P (f : S -> A) c w a w' : ask f c w = (Ok a, w') -> kept P w -> kept P w'.
Proof.
  intros Ha Hk. pose proof (kept_next _ _ Hk) as Hn. apply ask_run in Ha as (_ & Hh & _ & _ & _ & Ho).
  split; [by rewrite Hh|]. rewrite Ho. destruct Hk as [_ Hg].
  destruct (w_others w); [done|]. by inversion Hg.
Qed.

(** A key the host reports as revoked, with no window open, for as long as the
    handshake lasts, is not let in. *)
Lemma accept_handshake_shut_out P fp profile w x w' :
  (forall h, P h -> lookup_peer h fp = PeerStatus.Revoked /\ pairing_mode_active h = false) ->
  kept P w -> accept_handshake fp profile w <> (Ok x, w').
Proof.
  unfold accept_handshake. intros HP Hk Hrun. apply bind_run in Hrun as (env & w1 & Hread & Hrun).
  apply read_timed_run in Hread as (Hq & _). apply (kept_quiet P) in Hq; [|done]. clear Hk. rename Hq into Hk.
  apply bind_run in Hrun as (g1 & w2 & Hadm & Hrun). apply admit_env_run in Hadm as [_ <-].
  apply bind_run in Hrun as (hello & w3 & Hh & Hrun).
  assert (w1 = w3) as <- by (repeat case_match; inv_run; done).
  apply bind_run in Hrun as (device & w4 & Hdev & Hrun). apply lift_run in Hdev as [_ <-].
  apply bind_run in Hrun as (claimed & w5 & Hcl & Hrun). apply lift_run in Hcl as [_ <-].
  apply bind_run in Hrun as (u & w6 & Hguard & Hrun). apply lift_run in Hguard as [_ <-].
  apply bind_run in Hrun as (reg & w7 & Hreg & Hrun). apply gets_run in Hreg as [-> <-].
  apply bind_run in Hrun as (li & w8 & Hli & Hrun). apply gets_run in Hli as [-> <-].
  destruct (negotiate_version _ _) as [version|]; [|by inv_run].
  apply bind_run in Hrun as (status & w9 & Hlook & Hrun).
  pose proof (kept_ask P _ _ _ _ _ Hlook Hk) as Hk9.
  apply ask_run in Hlook as (Hst & _). rewrite (proj1 (HP _ (kept_next _ _ Hk))) in Hst. subst status.
  apply bind_run in Hrun as (treat & w10 & Htreat & Hrun).
  apply ask_run in Htreat as (Ht & _). rewrite (proj2 (HP _ (kept_next _ _ Hk9))) in Ht. subst treat.
  cbv zeta in Hrun. cbn [negb] in Hrun. by inv_run.
Qed.
End Responder.

(** * The initiator *)

Section Initiator.
Context {S H : Type} `{SH : !SessionHost S H, PR : !Prost Envelope, HC : !HexCodec, CR : !Crypto}.

(** Two frames the responder sent, one after the other. *)
Definition reads (rd : Reader) (b : Body) (rd' : Reader) : Prop :=
  exists env, read_envelope rd = (Ok env, rd') /\ e_body env = Some b.

(** C5: what a phone knows when its handshake completes.  The HELLO_ACK it read
    names the pinned key and a version this build speaks; and either it claims
    the client is already trusted and nothing was stored, or the client had
    scanned a token and the PAIR_RESPONSE that followed carries the confirmation
    of this very transcript under that token, with the nonce of the HELLO_ACK:
    a responder that holds the pinned key and not the token is not paired with. *)
Theorem connect_handshake_safe sfp profile pairing w est st w' :
  connect_handshake sfp profile pairing w = (Ok (ChEstablished est st), w') ->
  es_peer est = sfp /\ es_profile est = profile /\ version_ok (es_protocol_version est) = true /\
  exists a rd, reads (w_in w) (BHelloAck a) rd /\ ha_device a = Some (es_device est) /\
    from_hex (di_identity_fingerprint (es_device est)) = Ok sfp /\
    es_protocol_version est = ha_negotiated_protocol_version a /\
    (forall c, c ∈ es_negotiated_capabilities est -> c ∈ ha_capabilities a) /\
    ((hello_status_try_from (ha_status a) = Some HsTrusted /\ w_log w' = w_log w) \/
     (exists token local_fp r rd' caps,
        hello_status_try_from (ha_status a) = Some HsPairingRequired /\
        pairing = Some token /\
        from_hex (di_identity_fingerprint (local_device_info (w_host w))) = Ok local_fp /\
        len (ha_pairing_nonce a) = N.of_nat NONCE_LEN /\
        reads rd (BPairResponse r) rd' /\
        ps_confirmation r = bn_bytes (compute_confirmation profile token sfp local_fp (ha_pairing_nonce a)) /\
        w_log w' = w_log w ++ [HcStore (es_device est) sfp caps (es_protocol_version est) (Ok tt)])).
Proof.
  unfold connect_handshake. intros Hrun.
  apply bind_run in Hrun as (li & w1 & Hli & Hrun). apply gets_run in Hli as [-> <-].
  apply bind_run in Hrun as (lfp & w2 & Hlfp & Hrun). apply lift_run in Hlfp as [Hlfp <-].
  apply bind_run in Hrun as (reg & w3 & Hreg & Hrun). apply gets_run in Hreg as [-> <-].
  apply bind_run in Hrun as (f1 & w4 & Hsend & Hrun). apply send_run in Hsend as ((Hl4 & Hh4 & _) & Hin4 & _).
  apply bind_run in Hrun as (env & w5 & Hread & Hrun). apply read_timed_run in Hread as ((Hl5 & Hh5 & _) & Hrd & _).
  apply bind_run in Hrun as (g1 & w6 & Hadm & Hrun). apply admit_env_run in Hadm as [_ <-].
  apply bind_run in Hrun as (a & w7 & Ha & Hrun).
  assert (e_body env = Some (BHelloAck a) /\ w5 = w7) as [Hbody <-]
    by (repeat case_match; inv_run; done). clear Ha.
  apply bind_run in Hrun as (remote & w8 & Hrem & Hrun). apply lift_run in Hrem as [Hrem <-].
  apply bind_run in Hrun as (claimed & w9 & Hcl & Hrun). apply lift_run in Hcl as [Hcl <-].
  apply bind_run in Hrun as (u & w10 & Hguard & Hrun). apply lift_run in Hguard as [Hguard <-].
  inv_result. apply negb_false_iff, eqb_eq in Hguard as ->. cbv zeta in Hrun.
  assert (Hack : reads (w_in w) (BHelloAck a) (w_in w5)) by (exists env; by rewrite <- Hin4).
  assert (Hcaps : forall c, c ∈ negotiate (registry (w_host w)) (ha_capabilities a) -> c ∈ ha_capabilities a)
    by (intros c Hc; by apply elem_of_negotiate in Hc as [? _]).
  destruct (hello_status_try_from (ha_status a)) as [[]|] eqn:Hst; simpl in Hrun; try by inv_run.
  - destruct (version_ok _) eqn:Hv; simpl in Hrun; [|by inv_run].
    apply ret_run in Hrun as [Heq <-]. simplify_eq. simpl. split_and!; try done.
    exists a, (w_in w5). split_and!; try done. left. split; [done|congruence].
  - destruct pairing as [token|]; [|by inv_run].
    destruct (len (ha_pairing_nonce a) =? N.of_nat NONCE_LEN) eqn:Hnl; simpl in Hrun; [|by inv_run].
    apply N.eqb_eq in Hnl. destruct (version_ok _) eqn:Hv; simpl in Hrun; [|by inv_run].
    apply bind_run in Hrun as (f2 & w11 & Hsend2 & Hrun).
    apply send_run in Hsend2 as ((Hl11 & _) & Hin11 & _).
    apply bind_run in Hrun as (renv & w12 & Hread2 & Hrun).
    apply read_timed_run in Hread2 as ((Hl12 & _) & Hrd2 & _).
    apply bind_run in Hrun as (g2 & w13 & Hadm2 & Hrun). apply admit_env_run in Hadm2 as [_ <-].
    apply bind_run in Hrun as (r & w14 & Hr & Hrun).
    assert (e_body renv = Some (BPairResponse r) /\ w12 = w14) as [Hrb <-]
      by (repeat case_match; inv_run; done). clear Hr.
    destruct (eqb _ PsAccepted); simpl in Hrun; [|by inv_run].
    destruct (verify_proof _ _) eqn:Hvp; simpl in Hrun; [|by inv_run]. apply verify_proof_true in Hvp.
    apply bind_run in Hrun as (stored & w15 & Hstore & Hrun). apply call_run in Hstore as (_ & Hl15 & _).
    apply bind_run in Hrun as ([] & w16 & Hlift & Hrun). apply lift_run in Hlift as [-> <-].
    apply ret_run in Hrun as [Heq <-]. simplify_eq. simpl. split_and!; try done.
    exists a, (w_in w5). split_and!; try done. right.
    eexists token, lfp, r, (w_in w12), _. split_and!; try done.
    + exists renv. by rewrite <- Hin11.
    + rewrite Hl15, Hl12, Hl11, Hl5, Hl4. done.
Qed.
End Initiator.
