(* ===== verification/SessionLoop.v ===== *)
(** The message loop of an established session.

    [core/src/session.rs], [run_session]: the dispatch loop is a step function on
    its local state, one [LoopEvent] per turn of the [select!] (an inbound frame,
    a command from outside, the writer's end, a liveness tick); which one comes is
    the environment's choice, so the theorems hold for every schedule.  What a
    turn does outside the loop is a list of effects: frames queued for the writer,
    messages delivered to capabilities, ping replies.  The writer task stamps the
    queued frames in order.

    The theorems: a capability only ever receives what was negotiated, in frames
    the replay guard admitted; a session that has been silent for too long ends
    at the next tick, and was probed before; a PING is answered by its payload;
    and the frames one writer sends are all admitted by the guard at the other
    end. *)
From S2P Require Import Prelude External Ids Wire Capability Replay Session.

Definition MAX_PING_PAYLOAD : N := 64.
Definition LIVENESS_TICK : N := from_secs 15.
Definition LIVENESS_PROBE_AFTER : N := from_secs 60.
Definition LIVENESS_DEAD_AFTER : N := from_secs 180.
Definition LIVENESS_STALE_AFTER : N := from_secs 90.

(** * Frames for the writer *)

Record WriteRequest := {
  wq_body : Body;
  wq_message_id : option bytes;
  wq_correlation_id : bytes
}.

Definition WriteRequest_new (b : Body) : WriteRequest :=
  {| wq_body := b; wq_message_id := None; wq_correlation_id := [] |}.
Definition reply_to (b : Body) (correlate : bytes) : WriteRequest :=
  {| wq_body := b; wq_message_id := None; wq_correlation_id := correlate |}.
Definition with_id (b : Body) (id : bytes) : WriteRequest :=
  {| wq_body := b; wq_message_id := Some id; wq_correlation_id := [] |}.

(** The body a capability's message travels in. *)
Definition capability_body (m : OutboundMessage) : Body :=
  BCapabilityMessage {| cm_capability_id := om_capability_id m; cm_payload := om_payload m |}.

(** One turn of the writer: stamp and send. *)
Definition stamp (f : EnvelopeFactory) (r : WriteRequest) (id : bytes) (now_unix_ms : Z) : Envelope * EnvelopeFactory :=
  let '(e, f') := build f id now_unix_ms (wq_body r) in
  ({| e_protocol_version := e_protocol_version e;
      e_message_id := default (e_message_id e) (wq_message_id r);
      e_sequence := e_sequence e; e_timestamp_unix_ms := e_timestamp_unix_ms e;
      e_correlation_id := wq_correlation_id r; e_body := e_body e |}, f').

(** The frames of a writer, in the order it takes them from its two queues. *)
Fixpoint stamp_all (f : EnvelopeFactory) (l : list (WriteRequest * bytes * Z)) : list Envelope :=
  match l with
  | [] => []
  | (r, id, t) :: l' => let '(e, f') := stamp f r id t in e :: stamp_all f' l'
  end.

(** * The loop *)

(** [Command::Ping] carries the id it minted, its payload and which caller waits
    for the answer. *)
Inductive Command :=
| CmdPing (id payload : bytes) (reply : N)
| CmdSendCapability (m : OutboundMessage)
| CmdShutdown.

Inductive LoopEvent :=
| Inbound (now : N) (item : option (Result Envelope))
| Cmd (now : N) (c : Command)
| WriterJoined (r : option (Result unit))
| Tick (now : N) (payload : bytes).

Inductive Effect :=
| EffWrite (r : WriteRequest)
| EffDeliver (capability : str) (payload : bytes)
| EffPong (reply rtt : N).

Record LoopState := {
  ls_guard : ReplayGuard;
  ls_last_inbound : N;
  ls_pending_ping : option (bytes * N * N)
}.

Section Loop.
Context {H : Type} (registry : CapabilityRegistry H) (established : Established).

(** [if write_tx.send(req).await.is_err() { break Ok(()) }] *)
Definition queue (writer_alive : bool) (r : WriteRequest) (s : LoopState)
    : LoopState * list Effect * option (Result unit) :=
  if writer_alive then (s, [EffWrite r], None) else (s, [], Some (Ok tt)).

Definition unsupported : Body :=
  BError {| we_code := ERROR_UNSUPPORTED_CAPABILITY; we_message := lit "capability not negotiated";
            we_fatal := false |}.

(** The arm of an inbound envelope that passed the version check and the guard. *)
Definition dispatch (writer_alive : bool) (now : N) (env : Envelope) (s : LoopState)
    : LoopState * list Effect * option (Result unit) :=
  match e_body env with
  | Some (BPing p) =>
      if MAX_PING_PAYLOAD <? len (ping_payload p)
      then (s, [], Some (Err (EProtocol "ping payload too large")))
      else queue writer_alive (reply_to (BPong {| pong_payload := ping_payload p |}) (e_message_id env)) s
  | Some (BPong _) =>
      match ls_pending_ping s with
      | Some (id, sent_at, reply) =>
          if eqb (e_correlation_id env) id
          then ({| ls_guard := ls_guard s; ls_last_inbound := ls_last_inbound s; ls_pending_ping := None |},
                [EffPong reply (now - sent_at)], None)
          else (s, [], None)
      | None => (s, [], None)
      end
  | Some (BCapabilityMessage m) =>
      if negb (mem (cm_capability_id m) (es_negotiated_capabilities established))
      then queue writer_alive (reply_to unsupported (e_message_id env)) s
      else
        match registry !! cm_capability_id m with
        | Some _ => (s, [EffDeliver (cm_capability_id m) (cm_payload m)], None)
        | None => (s, [], None)
        end
  | Some (BCapabilityAnnounce _) => (s, [], None)
  | Some (BError e) =>
      if we_fatal e then (s, [], Some (Err (EPeerError (error_code_or_unspecified (we_code e)))))
      else (s, [], None)
  | _ => (s, [], Some (Err (EProtocol "unexpected message on established session")))
  end.

(** One turn: the new state, what it did, and the loop's result if it broke.
    [writer_alive] says whether the writer still takes frames. *)
Definition loop_step (writer_alive : bool) (ev : LoopEvent) (s : LoopState)
    : LoopState * list Effect * option (Result unit) :=
  match ev with
  | Inbound now item =>
      match item with
      | None => (s, [], Some (Ok tt))
      | Some (Err EClosed) => (s, [], Some (Ok tt))
      | Some (Err e) => (s, [], Some (Err e))
      | Some (Ok env) =>
          let s1 := {| ls_guard := ls_guard s; ls_last_inbound := now; ls_pending_ping := ls_pending_ping s |} in
          if negb (e_protocol_version env =? es_protocol_version established)
          then (s1, [], Some (Err (EProtocol "protocol version changed mid-connection")))
          else
            match ReplayGuard_admit (ls_guard s) env with
            | (Err e, g) =>
                ({| ls_guard := g; ls_last_inbound := now; ls_pending_ping := ls_pending_ping s |}, [], Some (Err e))
            | (Ok _, g) =>
                dispatch writer_alive now env
                  {| ls_guard := g; ls_last_inbound := now; ls_pending_ping := ls_pending_ping s |}
            end
      end
  | Cmd now c =>
      match c with
      | CmdShutdown => (s, [], Some (Ok tt))
      | CmdPing id payload reply =>
          if writer_alive
          then ({| ls_guard := ls_guard s; ls_last_inbound := ls_last_inbound s;
                   ls_pending_ping := Some (id, now, reply) |},
                [EffWrite (with_id (BPing {| ping_payload := payload |}) id)], None)
          else (s, [], Some (Ok tt))
      | CmdSendCapability m => queue writer_alive (WriteRequest_new (capability_body m)) s
      end
  | WriterJoined r =>
      match r with
      | Some (Err e) => (s, [], Some (Err e))
      | _ => (s, [], Some (Ok tt))
      end
  | Tick now payload =>
      let silent_for := now - ls_last_inbound s in
      if LIVENESS_DEAD_AFTER <=? silent_for
      then (s, [], Some (Err (EProtocol "peer stopped responding")))
      else if LIVENESS_PROBE_AFTER <=? silent_for
      then queue writer_alive (WriteRequest_new (BPing {| ping_payload := payload |})) s
      else (s, [], None)
  end.

(** Turns until one breaks; the events left over are not looked at. *)
Fixpoint run_loop (evs : list (bool * LoopEvent)) (s : LoopState)
    : LoopState * list Effect * option (Result unit) :=
  match evs with
  | [] => (s, [], None)
  | (alive, ev) :: evs' =>
      match loop_step alive ev s with
      | (s1, eff, Some r) => (s1, eff, Some r)
      | (s1, eff, None) => let '(s2, eff', r) := run_loop evs' s1 in (s2, eff ++ eff', r)
      end
  end.

(** What the session tells its capabilities and its host, around the loop. *)
Inductive Notice :=
| NConnected (capability : str)
| NEstablished (peer : Fingerprint) (session_id : N)
| NEffect (e : Effect)
| NDisconnected (capability : str)
| NClosed (peer : Fingerprint) (session_id : N).

(** The negotiated capabilities this device has a handler for. *)
Definition handled : list str :=
  filter (fun c => is_Some (registry !! c)) (es_negotiated_capabilities established).

(** [run_session] with the final merge of the two results; [None] is a session
    whose loop has not ended yet. *)
Definition run_session (session_id started : N) (state : EnvelopeState) (evs : list (bool * LoopEvent))
    (writer_result : Result unit) : list Notice * option (Result unit) :=
  let init := {| ls_guard := en_guard state; ls_last_inbound := started; ls_pending_ping := None |} in
  let '(_, effs, r) := run_loop evs init in
  let before := map NConnected handled ++ [NEstablished (es_peer established) session_id] ++ map NEffect effs in
  match r with
  | None => (before, None)
  | Some result =>
      (before ++ map NDisconnected handled ++ [NClosed (es_peer established) session_id],
       Some (match result, writer_result with Ok _, Err e => Err e | _, _ => result end))
  end.

(** * Theorems *)

(** The inbound envelope a turn dispatched. *)
Lemma loop_step_deliver alive ev s c p :
  EffDeliver c p ∈ (loop_step alive ev s).1.2 ->
  exists now env m, ev = Inbound now (Some (Ok env)) /\ e_body env = Some (BCapabilityMessage m) /\
    cm_capability_id m = c /\ cm_payload m = p /\
    c ∈ es_negotiated_capabilities established /\ is_Some (registry !! c) /\
    e_protocol_version env = es_protocol_version established /\
    (ReplayGuard_admit (ls_guard s) env).1 = Ok tt.
Proof.
  unfold loop_step, dispatch, queue. intros Hin.
  repeat case_match; simplify_eq/=; try (by apply elem_of_nil in Hin);
    try (apply list_elem_of_singleton in Hin; discriminate).
  apply list_elem_of_singleton in Hin. simplify_eq. to_prop.
  match goal with Hu : ReplayGuard_admit _ _ = (Ok ?u, _) |- _ => destruct u; rename Hu into Hadm end.
  eexists _, _, _. rewrite Hadm. split_and!; eauto.
Qed.

(** The envelopes the guard saw, in order, in the turns of a run. *)
Fixpoint inbound (evs : list (bool * LoopEvent)) : list Envelope :=
  match evs with
  | [] => []
  | (_, Inbound _ (Some (Ok env))) :: evs' => env :: inbound evs'
  | _ :: evs' => inbound evs'
  end.

(** A turn that goes on admitted its envelope, or left the guard alone. *)
Lemma loop_step_guard alive ev s s1 eff :
  loop_step alive ev s = (s1, eff, None) ->
  match ev with
  | Inbound _ (Some (Ok env)) => ReplayGuard_admit (ls_guard s) env = (Ok tt, ls_guard s1)
  | _ => ls_guard s1 = ls_guard s
  end.
Proof.
  unfold loop_step, dispatch, queue. intros Hs.
  repeat case_match; simplify_eq/=; try done;
    match goal with Hu : ReplayGuard_admit _ _ = (Ok ?u, _) |- _ => by destruct u end.
Qed.

(** Where a delivered message came from. *)
Lemma run_loop_delivers evs s c p :
  EffDeliver c p ∈ (run_loop evs s).1.2 ->
  exists pre alive now env m post, evs = pre ++ (alive, Inbound now (Some (Ok env))) :: post /\
    e_body env = Some (BCapabilityMessage m) /\ cm_capability_id m = c /\ cm_payload m = p /\
    c ∈ es_negotiated_capabilities established /\ is_Some (registry !! c) /\
    e_protocol_version env = es_protocol_version established /\
    Forall (eq true) (admits (ls_guard s) (inbound pre ++ [env])).1.
Proof.
  revert s. induction evs as [|[alive ev] evs IH]; intros s; simpl; [by intros ?%elem_of_nil|].
  destruct (loop_step alive ev s) as [[s1 eff] r] eqn:Hs. intros Hin.
  assert (Hhere : EffDeliver c p ∈ eff -> exists pre a now env m post,
    (alive, ev) :: evs = pre ++ (a, Inbound now (Some (Ok env))) :: post /\
    e_body env = Some (BCapabilityMessage m) /\ cm_capability_id m = c /\ cm_payload m = p /\
    c ∈ es_negotiated_capabilities established /\ is_Some (registry !! c) /\
    e_protocol_version env = es_protocol_version established /\
    Forall (eq true) (admits (ls_guard s) (inbound pre ++ [env])).1).
  { intros He. pose proof (loop_step_deliver alive ev s c p) as Hd. rewrite Hs in Hd.
    destruct (Hd He) as (now & env & m & -> & ? & ? & ? & ? & ? & ? & Hadm).
    exists [], alive, now, env, m, evs. split_and!; try done. simpl.
    destruct (ReplayGuard_admit (ls_guard s) env) as [x g]. simpl in *. rewrite Hadm. by constructor. }
  destruct r as [r|]; [by apply Hhere|].
  destruct (run_loop evs s1) as [[s2 eff'] r'] eqn:Hr. simpl in Hin.
  apply elem_of_app in Hin as [Hin|Hin]; [by apply Hhere|].
  specialize (IH s1). rewrite Hr in IH. destruct (IH Hin) as (pre & a & now & env & m & post & -> & ? & ? & ? & ? & ? & ? & Hf).
  exists ((alive, ev) :: pre), a, now, env, m, post. split_and!; try done.
  apply loop_step_guard in Hs. simpl.
  destruct ev as [t [[e0|e0]|]| | |]; simpl; try (by rewrite <- Hs).
  rewrite Hs. destruct (admits (ls_guard s1) (inbound pre ++ [env])). simpl in *. by constructor.
Qed.

(** C15: dispatch.  Whatever the peer sends and however the turns interleave, a
    message reaches a capability only if that capability was negotiated and
    granted at the handshake and is registered, in a frame of the session's
    protocol version that the replay guard admitted after all those before it. *)
Theorem dispatch_authorized evs s c p :
  EffDeliver c p ∈ (run_loop evs s).1.2 ->
  exists pre alive now env m post, evs = pre ++ (alive, Inbound now (Some (Ok env))) :: post /\
    e_body env = Some (BCapabilityMessage m) /\ cm_capability_id m = c /\ cm_payload m = p /\
    c ∈ es_negotiated_capabilities established /\ is_Some (registry !! c) /\
    e_protocol_version env = es_protocol_version established /\
    Forall (eq true) (admits (ls_guard s) (inbound pre ++ [env])).1.
Proof. apply run_loop_delivers. Qed.

(** ** Liveness *)

(** When the peer was last heard of, in the turns so far. *)
Fixpoint last_heard (started : N) (evs : list (bool * LoopEvent)) : N :=
  match evs with
  | [] => started
  | (_, Inbound now (Some (Ok _))) :: evs' => last_heard now evs'
  | _ :: evs' => last_heard started evs'
  end.

Lemma loop_step_heard alive ev s s1 eff :
  loop_step alive ev s = (s1, eff, None) ->
  ls_last_inbound s1 = last_heard (ls_last_inbound s) [(alive, ev)].
Proof. unfold loop_step, dispatch, queue. intros Hs. by repeat case_match; simplify_eq/=. Qed.

Lemma run_loop_app evs evs' s :
  run_loop (evs ++ evs') s =
    match run_loop evs s with
    | (s1, eff, Some r) => (s1, eff, Some r)
    | (s1, eff, None) => let '(s2, eff', r) := run_loop evs' s1 in (s2, eff ++ eff', r)
    end.
Proof.
  revert s. induction evs as [|[alive ev] evs IH]; intros s; simpl.
  { by destruct (run_loop evs' s) as [[? ?] ?]. }
  destruct (loop_step alive ev s) as [[s1 eff] [r|]]; [done|].
  rewrite IH. destruct (run_loop evs s1) as [[s2 eff2] [r2|]]; [done|].
  destruct (run_loop evs' s2) as [[s3 eff3] r3]. by rewrite app_assoc.
Qed.

Lemma last_heard_app t evs evs' : last_heard t (evs ++ evs') = last_heard (last_heard t evs) evs'.
Proof.
  revert t. induction evs as [|[a ev] evs IH]; intros t; simpl; [done|].
  destruct ev as [? [[?|?]|]| | |]; apply IH.
Qed.

Lemma run_loop_heard evs s s1 eff :
  run_loop evs s = (s1, eff, None) -> ls_last_inbound s1 = last_heard (ls_last_inbound s) evs.
Proof.
  revert s eff. induction evs as [|[alive ev] evs IH]; intros s eff; simpl; [by intros [= <- _]|].
  destruct (loop_step alive ev s) as [[s2 e2] [r|]] eqn:Hs; [done|].
  destruct (run_loop evs s2) as [[s3 e3] r3] eqn:Hr. intros [= <- _ ->].
  rewrite (IH _ _ Hr), (loop_step_heard _ _ _ _ _ Hs). simpl.
  by destruct ev as [? [[?|?]|]| | |].
Qed.

(** No zombie sessions.  Take any run that is still going, and a liveness
    tick at time [now]: if nothing has arrived for [LIVENESS_DEAD_AFTER] (three
    minutes) the loop ends there; if nothing has for [LIVENESS_PROBE_AFTER] (one
    minute) a PING is queued; and it ends for no other reason, as long as the
    writer takes frames. *)
Theorem liveness_tick evs s s1 eff now payload alive :
  run_loop evs s = (s1, eff, None) ->
  let silent := now - last_heard (ls_last_inbound s) evs in
  (run_loop (evs ++ [(alive, Tick now payload)]) s).2 =
    (if LIVENESS_DEAD_AFTER <=? silent then Some (Err (EProtocol "peer stopped responding"))
     else if (LIVENESS_PROBE_AFTER <=? silent) && negb alive then Some (Ok tt) else None) /\
  (LIVENESS_PROBE_AFTER <= silent < LIVENESS_DEAD_AFTER -> alive = true ->
     (run_loop (evs ++ [(alive, Tick now payload)]) s).1.2 =
       eff ++ [EffWrite (WriteRequest_new (BPing {| ping_payload := payload |}))]).
Proof.
  intros Hrun silent. rewrite run_loop_app, Hrun. simpl. rewrite (run_loop_heard _ _ _ _ Hrun).
  fold silent. unfold queue.
  destruct (N.leb_spec LIVENESS_DEAD_AFTER silent); [split; [done|intros; lia]|].
  destruct (N.leb_spec LIVENESS_PROBE_AFTER silent); [|split; [done|intros; lia]].
  destruct alive; simpl; split; done.
Qed.

(** An echo.  A PING of at most 64 bytes that the guard admits is answered
    by one PONG with the same payload, correlated to it; a longer one ends the
    session, so a peer cannot make it echo more. *)
Theorem ping_echo s now env p g :
  e_protocol_version env = es_protocol_version established ->
  ReplayGuard_admit (ls_guard s) env = (Ok tt, g) -> e_body env = Some (BPing p) ->
  (loop_step true (Inbound now (Some (Ok env))) s).1.2 =
    (if MAX_PING_PAYLOAD <? len (ping_payload p) then []
     else [EffWrite (reply_to (BPong {| pong_payload := ping_payload p |}) (e_message_id env))]) /\
  (loop_step true (Inbound now (Some (Ok env))) s).2 =
    (if MAX_PING_PAYLOAD <? len (ping_payload p) then Some (Err (EProtocol "ping payload too large")) else None).
Proof.
  intros Hv Hadm Hb. simpl. rewrite Hv, N.eqb_refl, Hadm. simpl. unfold dispatch. rewrite Hb.
  by destruct (MAX_PING_PAYLOAD <? len (ping_payload p)).
Qed.
End Loop.

(** ** One writer against one guard *)

(** The ids a run of the writer uses. *)
Definition sent_ids (l : list (WriteRequest * bytes * Z)) : list bytes :=
  map (fun x => default x.1.2 (wq_message_id x.1.1)) l.

Lemma stamp_all_fresh l f history :
  NoDup ((e_message_id <$> history) ++ sent_ids l) ->
  Forall (fun i => len i = 16) (sent_ids l) ->
  Forall (fun e => e_sequence e <= ef_sequence f) history ->
  ef_sequence f + len l <= u64_max ->
  Forall (eq true) (judge history (stamp_all f l)).1.
Proof.
  revert f history. induction l as [|[[r id] t] l IH]; intros f h Hnd Hlen Hseq Hmax; simpl; [constructor|].
  rewrite len_cons in Hmax.
  set (e := {| e_protocol_version := _ |}).
  assert (Hid : e_message_id e = default id (wq_message_id r)) by done.
  assert (Hw : wrap_add_u64 (ef_sequence f) 1 = ef_sequence f + 1).
  { unfold wrap_add_u64. rewrite N.mod_small; lia. }
  assert (Hes : e_sequence e = ef_sequence f + 1) by done.
  simpl in Hnd, Hlen. apply Forall_cons in Hlen as [Hl16 Hlen].
  assert (Hfresh : fresh h e = true).
  { unfold fresh. rewrite !andb_true_iff, negb_true_iff, mem_false, N.eqb_eq, N.ltb_lt, Hid, Hes.
    split_and!; [done| |lia|].
    - apply forallb_forall. intros q Hq. rewrite <- list_elem_of_In in Hq.
      pose proof (proj1 (Forall_forall _ _) Hseq q Hq). simpl in *. apply N.ltb_lt. lia.
    - intros Hin. apply NoDup_app in Hnd as (_ & Hd & _). eapply Hd; [|left].
      by eapply elem_of_last_n. }
  rewrite Hfresh.
  specialize (IH {| ef_protocol_version := ef_protocol_version f; ef_sequence := wrap_add_u64 (ef_sequence f) 1 |} (h ++ [e])).
  destruct (judge (h ++ [e]) _) as [vs h']. constructor; [done|]. apply IH; clear IH.
  - rewrite fmap_app, <- app_assoc. simpl. rewrite <- Hid in Hnd. exact Hnd.
  - done.
  - cbn [ef_sequence]. rewrite Hw. apply Forall_app. split; [|constructor; [lia|done]].
    eapply Forall_impl; [exact Hseq|]. simpl. intros; lia.
  - cbn [ef_sequence]. lia.
Qed.

(** Honest peers never trip each other.  The frames one writer task stamps
    over a whole connection, with distinct 16-byte ids, are admitted one and all
    by a fresh replay guard at the other end (up to 2^64 frames). *)
Theorem honest_writer_admitted v l :
  NoDup (sent_ids l) -> Forall (fun i => len i = 16) (sent_ids l) -> len l <= u64_max ->
  Forall (eq true) (admits ReplayGuard_new (stamp_all (EnvelopeFactory_new v) l)).1.
Proof.
  intros Hnd Hlen Hmax. destruct (admits_judge _ _ (stamp_all (EnvelopeFactory_new v) l) guards_new) as [-> _].
  apply stamp_all_fresh; [done|done|constructor|simpl; lia].
Qed.

(** * Runs *)

Definition run_fp : Fingerprint := pad_array [x01].
Definition run_device : DeviceInfo := {|
  di_device_id := lit "aa"; di_device_name := lit "phone"; di_platform := 1; di_identity_fingerprint := [] |}.
Definition run_established : Established := {|
  es_peer := run_fp; es_profile := Profile.Pliwee; es_device := run_device;
  es_negotiated_capabilities := [lit "battery.v1"]; es_protocol_version := 1 |}.
Definition run_registry : CapabilityRegistry unit := {[ lit "battery.v1" := tt ]}.
Definition run_env (id : byte) (seq : N) (b : Body) : Envelope := {|
  e_protocol_version := 1; e_message_id := replicate 16 id; e_sequence := seq;
  e_timestamp_unix_ms := 0; e_correlation_id := []; e_body := Some b |}.
Definition run_start : LoopState :=
  {| ls_guard := ReplayGuard_new; ls_last_inbound := 0; ls_pending_ping := None |}.
Definition ping_env : Envelope := run_env x01 1 (BPing {| ping_payload := [x05] |}).
Definition battery_env : Envelope :=
  run_env x02 2 (BCapabilityMessage {| cm_capability_id := lit "battery.v1"; cm_payload := [x07] |}).
Definition run_events : list (bool * LoopEvent) :=
  [(true, Inbound (from_secs 1) (Some (Ok ping_env))); (true, Inbound (from_secs 2) (Some (Ok battery_env)))].

Lemma dispatch_authorized_witness :
  exists env m, e_body env = Some (BCapabilityMessage m) /\ cm_capability_id m = lit "battery.v1" /\
    lit "battery.v1" ∈ es_negotiated_capabilities run_established.
Proof.
  destruct (dispatch_authorized run_registry run_established run_events run_start (lit "battery.v1") [x07])
    as (? & ? & ? & env & m & ? & _ & ? & ? & _ & ? & _); [vm_compute; set_solver|]. by exists env, m.
Defined.

Lemma liveness_tick_witness :
  (run_loop run_registry run_established (run_events ++ [(true, Tick (from_secs 182) [])]) run_start).2 =
    Some (Err (EProtocol "peer stopped responding")).
Proof.
  destruct (run_loop run_registry run_established run_events run_start) as [[s1 eff] r] eqn:Hr.
  assert (r = None) as -> by (vm_compute in Hr; congruence).
  exact (proj1 (liveness_tick run_registry run_established run_events run_start s1 eff (from_secs 182) [] true Hr)).
Defined.

Lemma ping_echo_witness :
  (loop_step run_registry run_established true (Inbound 0 (Some (Ok ping_env))) run_start).1.2 =
    [EffWrite (reply_to (BPong {| pong_payload := [x05] |}) (replicate 16 x01))].
Proof.
  exact (proj1 (ping_echo run_registry run_established run_start 0 ping_env {| ping_payload := [x05] |}
    (ReplayGuard_admit ReplayGuard_new ping_env).2 eq_refl eq_refl eq_refl)).
Defined.

Lemma honest_writer_admitted_witness :
  Forall (eq true) (admits ReplayGuard_new (stamp_all (EnvelopeFactory_new 1)
    [(WriteRequest_new (BPing {| ping_payload := [] |}), replicate 16 x01, 0%Z);
     (reply_to unsupported [x01], replicate 16 x02, 0%Z)])).1.
Proof.
  apply honest_writer_admitted.
  - vm_compute. repeat constructor; set_solver.
  - repeat constructor.
  - vm_compute. congruence.
Defined.
