(* ===== verification/Tls.v ===== *)
(** TLS 1.3 with pinned keys.

    [core/src/tls.rs]: the two certificate verifiers, the configurations they go
    into, and what is read back from a completed handshake.  rustls and the X.509
    parser are third-party code: classes with what their documentation promises
    of a handshake that completed.  The theorems say what a completed handshake
    proves of the other end when the configuration is one of this file's. *)
From S2P Require Import Prelude External Ids Wire Identity.

(** * Third-party code *)

(** [x509_parser]: the key and the validity of a DER certificate, the dates as
    signed seconds since 1970. *)
Record X509Certificate := {
  xc_spki : bytes;
  xc_not_before : Z;
  xc_not_after : Z
}.

Class X509Parser := { parse_x509_certificate : bytes -> option X509Certificate }.

(** The same parser gives fingerprints their key. *)
#[export] Instance parser_x509 `{X509Parser} : X509 :=
  {| parse_spki der := xc_spki <$> parse_x509_certificate der |}.

Inductive TlsVersion := TLS12 | TLS13.

#[export] Instance TlsVersion_eq_dec : EqDecision TlsVersion.
Proof. solve_decision. Defined.

Inductive SignatureScheme :=
| ECDSA_NISTP256_SHA256 | ECDSA_NISTP384_SHA384 | ED25519
| RSA_PSS_SHA256 | RSA_PSS_SHA384 | RSA_PSS_SHA512.

Inductive TlsError :=
| BadEncoding | NotValidYet | CertExpired | ApplicationVerificationFailure
| Tls12NotOffered | OtherTls (code : N).

(** [rustls::crypto]: the ring provider's check of a handshake signature, and
    whether it has cipher suites for the versions asked for. *)
Class CryptoProvider := {
  DigitallySignedStruct : Type;
  crypto_verify_tls13_signature : bytes -> bytes -> DigitallySignedStruct -> result TlsError unit;
  with_protocol_versions : list TlsVersion -> result TlsError unit
}.

(** [rustls::client::danger::ServerCertVerifier]; a name is not looked at. *)
Record ServerCertVerifier `{CryptoProvider} := {
  verify_server_cert : bytes -> list bytes -> bytes -> bytes -> N -> result TlsError unit;
  sv_verify_tls12_signature : bytes -> bytes -> DigitallySignedStruct -> result TlsError unit;
  sv_verify_tls13_signature : bytes -> bytes -> DigitallySignedStruct -> result TlsError unit;
  sv_supported_verify_schemes : list SignatureScheme
}.

(** [rustls::server::danger::ClientCertVerifier] *)
Record ClientCertVerifier `{CryptoProvider} := {
  root_hint_subjects : list bytes;
  client_auth_mandatory : bool;
  verify_client_cert : bytes -> list bytes -> N -> result TlsError unit;
  cv_verify_tls12_signature : bytes -> bytes -> DigitallySignedStruct -> result TlsError unit;
  cv_verify_tls13_signature : bytes -> bytes -> DigitallySignedStruct -> result TlsError unit;
  cv_supported_verify_schemes : list SignatureScheme
}.

(** The fields of the two configurations the source sets. *)
Record ServerConfig `{CryptoProvider} := {
  sc_versions : list TlsVersion;
  sc_verifier : ClientCertVerifier;
  sc_certified_key : Identity;
  sc_alpn_protocols : list bytes;
  sc_send_tls13_tickets : N
}.

Record ClientConfig `{CryptoProvider} := {
  cc_versions : list TlsVersion;
  cc_verifier : ServerCertVerifier;
  cc_certified_key : Identity;
  cc_alpn_protocols : list bytes
}.

(** [rustls::CommonState] of a completed handshake.  [cs_signed] is what the
    handshake signature covers: the transcript, different on every connection. *)
Record CommonState := {
  cs_version : TlsVersion;
  cs_peer_certificates : option (list bytes);
  cs_alpn_protocol : option bytes;
  cs_signed : bytes
}.

(** The signature of the handshake, checked by the verifier's method for the
    version in use. *)
Definition signature_checked `{CryptoProvider}
    (v12 v13 : bytes -> bytes -> DigitallySignedStruct -> result TlsError unit)
    (c : CommonState) (leaf : bytes) : Prop :=
  exists dss, (match cs_version c with TLS12 => v12 | TLS13 => v13 end) (cs_signed c) leaf dss = Ok tt.

(** rustls.  [tls_accept] and [tls_connect] run a handshake with whatever is at
    the other end ([Endpoint]); [earlier] are the connections already made with
    this client configuration, whose sessions it may resume.  Documented: only a
    configured version and protocol is used; where client certificates are
    mandatory and no tickets are sent, so that nothing is resumed, the client's
    certificate and its signature were put to the verifier; a client puts the
    server's to its verifier or resumes a session of an earlier connection,
    whose certificates it keeps. *)
Class Rustls `{CP : CryptoProvider} := {
  Endpoint : Type;
  tls_accept : ServerConfig -> Endpoint -> N -> result io_kind CommonState;
  tls_connect : ClientConfig -> list CommonState -> Endpoint -> N -> result io_kind CommonState;
  accept_uses_config cfg p now c : tls_accept cfg p now = Ok c ->
    cs_version c ∈ sc_versions cfg /\ forall a, cs_alpn_protocol c = Some a -> a ∈ sc_alpn_protocols cfg;
  accept_authenticates cfg p now c : tls_accept cfg p now = Ok c ->
    client_auth_mandatory (sc_verifier cfg) = true -> sc_send_tls13_tickets cfg = 0 ->
    exists leaf rest, cs_peer_certificates c = Some (leaf :: rest) /\
      verify_client_cert (sc_verifier cfg) leaf rest now = Ok tt /\
      signature_checked (cv_verify_tls12_signature (sc_verifier cfg)) (cv_verify_tls13_signature (sc_verifier cfg)) c leaf;
  connect_uses_config cfg earlier p now c : tls_connect cfg earlier p now = Ok c ->
    cs_version c ∈ cc_versions cfg /\ forall a, cs_alpn_protocol c = Some a -> a ∈ cc_alpn_protocols cfg;
  connect_authenticates cfg earlier p now c : tls_connect cfg earlier p now = Ok c ->
    (exists leaf rest name ocsp, cs_peer_certificates c = Some (leaf :: rest) /\
       verify_server_cert (cc_verifier cfg) leaf rest name ocsp now = Ok tt /\
       signature_checked (sv_verify_tls12_signature (cc_verifier cfg)) (sv_verify_tls13_signature (cc_verifier cfg)) c leaf) \/
    (exists c0, c0 ∈ earlier /\ cs_peer_certificates c = cs_peer_certificates c0)
}.

(** * [tls.rs] *)

Definition TLS13_ONLY : list TlsVersion := [TLS13].

Definition supported_schemes : list SignatureScheme :=
  [ECDSA_NISTP256_SHA256; ECDSA_NISTP384_SHA384; ED25519; RSA_PSS_SHA256; RSA_PSS_SHA384; RSA_PSS_SHA512].

Definition CLOCK_SKEW_TOLERANCE_SECS : N := 86400.

(** [as u64] of an [i64]. *)
Definition i64_as_u64 (z : Z) : N := Z.to_N (z mod 2 ^ 64).

Section Tls.
Context `{XP : X509Parser, CR : Crypto, CP : CryptoProvider}.

Definition validate_certificate_structure (cert_der : bytes) (now : N) : result TlsError unit :=
  match parse_x509_certificate cert_der with
  | None => Err BadEncoding
  | Some cert =>
      let not_before := i64_as_u64 (xc_not_before cert) in
      let not_after := i64_as_u64 (xc_not_after cert) in
      if wrap_add_u64 now CLOCK_SKEW_TOLERANCE_SECS <? not_before then Err NotValidYet
      else if sat_add_u64 not_after CLOCK_SKEW_TOLERANCE_SECS <? now then Err CertExpired
      else Ok tt
  end.

(** ** The verifiers *)

Definition PinnedServerCertVerifier (expected : Fingerprint) : ServerCertVerifier := {|
  verify_server_cert end_entity _ _ _ now :=
    _ ← validate_certificate_structure end_entity now;
    presented ← map_err (fun _ => BadEncoding) (from_certificate_der end_entity);
    if eqb presented expected then Ok tt else Err ApplicationVerificationFailure;
  sv_verify_tls12_signature _ _ _ := Err Tls12NotOffered;
  sv_verify_tls13_signature message cert dss := crypto_verify_tls13_signature message cert dss;
  sv_supported_verify_schemes := supported_schemes |}.

Definition RecordingClientCertVerifier : ClientCertVerifier := {|
  root_hint_subjects := [];
  client_auth_mandatory := true;
  verify_client_cert end_entity _ now := validate_certificate_structure end_entity now;
  cv_verify_tls12_signature _ _ _ := Err Tls12NotOffered;
  cv_verify_tls13_signature message cert dss := crypto_verify_tls13_signature message cert dss;
  cv_supported_verify_schemes := supported_schemes |}.

(** ** The configurations *)

Definition SERVER_ALPN_PROTOCOLS : list bytes :=
  [ALPN_PROTOCOL; ALPN_DATA_PROTOCOL; LEGACY_ALPN_PROTOCOL; LEGACY_ALPN_DATA_PROTOCOL].

Definition server_config (identity : Identity) : Result ServerConfig :=
  _ ← map_err (fun _ => ETls) (with_protocol_versions TLS13_ONLY);
  Ok {| sc_versions := TLS13_ONLY; sc_verifier := RecordingClientCertVerifier; sc_certified_key := identity;
        sc_alpn_protocols := SERVER_ALPN_PROTOCOLS; sc_send_tls13_tickets := 0 |}.

Definition client_config_with_alpn (identity : Identity) (expected_server : Fingerprint) (alpn : bytes) : Result ClientConfig :=
  _ ← map_err (fun _ => ETls) (with_protocol_versions TLS13_ONLY);
  Ok {| cc_versions := TLS13_ONLY; cc_verifier := PinnedServerCertVerifier expected_server;
        cc_certified_key := identity; cc_alpn_protocols := [alpn] |}.

Definition client_config (identity : Identity) (expected_server : Fingerprint) (profile : Profile) : Result ClientConfig :=
  client_config_with_alpn identity expected_server (Profile.control_alpn profile).

Definition data_stream_client_config (identity : Identity) (expected_server : Fingerprint) (profile : Profile) : Result ClientConfig :=
  client_config_with_alpn identity expected_server (Profile.data_alpn profile).

(** ** What a handshake turned out to be *)

Definition peer_fingerprint (conn : CommonState) : Result Fingerprint :=
  certs ← ok_or (ECertificate "peer presented no certificate") (cs_peer_certificates conn);
  leaf ← ok_or (ECertificate "empty peer certificate chain") (head certs);
  from_certificate_der leaf.
End Tls.

Inductive ConnectionKind := Control | Data.

#[export] Instance ConnectionKind_eq_dec : EqDecision ConnectionKind.
Proof. solve_decision. Defined.

Record NegotiatedProtocol := { np_profile : Profile; np_kind : ConnectionKind }.

#[export] Instance NegotiatedProtocol_eq_dec : EqDecision NegotiatedProtocol.
Proof. solve_decision. Defined.

Definition from_alpn (alpn : bytes) : option NegotiatedProtocol :=
  find_map (fun profile =>
    if eqb alpn (Profile.control_alpn profile) then Some {| np_profile := profile; np_kind := Control |}
    else if eqb alpn (Profile.data_alpn profile) then Some {| np_profile := profile; np_kind := Data |}
    else None) Profile.ALL.

Definition negotiated_protocol (conn : CommonState) : option NegotiatedProtocol :=
  cs_alpn_protocol conn ≫= from_alpn.

Definition require_negotiated (conn : CommonState) (profile : Profile) (kind : ConnectionKind) : Result unit :=
  if decide (negotiated_protocol conn = Some {| np_profile := profile; np_kind := kind |}) then Ok tt
  else Err (EProtocol "the server did not negotiate the one ALPN this client offered").

(** * Theorems *)

Definition alpn_of (p : NegotiatedProtocol) : bytes :=
  match np_kind p with Control => Profile.control_alpn (np_profile p) | Data => Profile.data_alpn (np_profile p) end.

(** An ALPN value names a profile and a kind exactly when it is theirs. *)
Lemma from_alpn_exact a p : from_alpn a = Some p <-> a = alpn_of p.
Proof.
  split.
  - unfold from_alpn, Profile.ALL, find_map. intros H.
    repeat case_match; simplify_eq; repeat match goal with E : eqb _ _ = true |- _ => apply eqb_eq in E end; subst; done.
  - intros ->. destruct p as [[] []]; vm_compute; reflexivity.
Qed.

(** The listener offers exactly the protocols it can tell apart. *)
Lemma server_alpn_known a : a ∈ SERVER_ALPN_PROTOCOLS <-> is_Some (from_alpn a).
Proof.
  split.
  - unfold SERVER_ALPN_PROTOCOLS. rewrite !elem_of_cons, elem_of_nil.
    intros [->|[->|[->|[->|[]]]]]; vm_compute; eauto.
  - intros [p ->%from_alpn_exact]. unfold SERVER_ALPN_PROTOCOLS. rewrite !elem_of_cons.
    destruct p as [[] []]; cbv [alpn_of np_kind np_profile Profile.control_alpn Profile.data_alpn]; auto.
Qed.

(** [as u64] keeps a date from 1970 on. *)
Lemma i64_as_u64_pos z : (0 <= z < 2 ^ 63)%Z -> i64_as_u64 z = Z.to_N z.
Proof. intros H. unfold i64_as_u64. rewrite Z.mod_small by lia. done. Qed.

Section Facts.
Context `{XP : X509Parser, CR : Crypto, CP : CryptoProvider, RT : !Rustls}.

(** For dates from 1970 on and a clock within range, the window is the
    certificate's own, a day wider on either side. *)
Lemma validate_certificate_exact der now :
  (now + CLOCK_SKEW_TOLERANCE_SECS <= u64_max) ->
  (forall x, parse_x509_certificate der = Some x -> (0 <= xc_not_before x < 2 ^ 63)%Z /\ (0 <= xc_not_after x < 2 ^ 63)%Z) ->
  validate_certificate_structure der now = Ok tt <->
  exists x, parse_x509_certificate der = Some x /\
    (xc_not_before x <= Z.of_N now + 86400)%Z /\ (Z.of_N now <= xc_not_after x + 86400)%Z.
Proof.
  intros Hnow Hdates. unfold validate_certificate_structure. destruct (parse_x509_certificate der) as [x|]; [|naive_solver].
  destruct (Hdates x eq_refl) as [Hb Ha]. rewrite !i64_as_u64_pos by lia.
  unfold wrap_add_u64, sat_add_u64. rewrite N.mod_small by lia. unfold CLOCK_SKEW_TOLERANCE_SECS, u64_max in *.
  split.
  - intros H. exists x. repeat case_match; simplify_eq; to_prop; split_and!; [done|lia..].
  - intros (x' & [= <-] & ? & ?). repeat case_match; to_prop; try done; lia.
Qed.

(** What a verified leaf was: a certificate in its window, with this key, whose
    holder signed this connection's transcript. *)
Record proven (c : CommonState) (now : N) (leaf : bytes) (fp : Fingerprint) : Prop := {
  pv_window : validate_certificate_structure leaf now = Ok tt;
  pv_key : from_certificate_der leaf = Ok fp;
  pv_version : cs_version c = TLS13;
  pv_signature : exists dss, crypto_verify_tls13_signature (cs_signed c) leaf dss = Ok tt }.

Lemma valid_has_key leaf now : validate_certificate_structure leaf now = Ok tt -> exists fp, from_certificate_der leaf = Ok fp.
Proof.
  unfold validate_certificate_structure, from_certificate_der. simpl.
  destruct (parse_x509_certificate leaf); [|done]. simpl. eauto.
Qed.

(** Who is at the other end of an accepted connection.  A handshake that
    completes under the daemon's server configuration is TLS 1.3; the peer's
    fingerprint can be read from it, and is that of the key in a certificate
    within its window whose holder signed this connection's transcript; and the
    protocol it carries is one of the four, or none. *)
Theorem accepted_peer_proven identity cfg p now c :
  server_config identity = Ok cfg -> tls_accept cfg p now = Ok c ->
  (exists leaf rest fp, cs_peer_certificates c = Some (leaf :: rest) /\ peer_fingerprint c = Ok fp /\ proven c now leaf fp) /\
  match cs_alpn_protocol c with Some a => is_Some (negotiated_protocol c) | None => negotiated_protocol c = None end.
Proof.
  unfold server_config. intros Hcfg Hacc. inv_result.
  destruct (accept_uses_config _ _ _ _ Hacc) as [Hv Ha]. apply list_elem_of_singleton in Hv.
  apply accept_authenticates in Hacc as (leaf & rest & Hcerts & Hval & dss & Hsig); [|done..].
  rewrite Hv in Hsig. destruct (valid_has_key leaf now Hval) as [fp Hfp]. split.
  - exists leaf, rest, fp. split_and!; [done| |by split; eauto].
    unfold peer_fingerprint. rewrite Hcerts. done.
  - unfold negotiated_protocol. destruct (cs_alpn_protocol c) as [a|]; [|done]. apply server_alpn_known, Ha. done.
Qed.

(** The connections one client configuration has made, the latest first. *)
Inductive dialled (cfg : ClientConfig) : list CommonState -> Prop :=
| dialled_none : dialled cfg []
| dialled_more l p now c : dialled cfg l -> tls_connect cfg l p now = Ok c -> dialled cfg (c :: l).

Lemma pinned_key expected leaf rest name ocsp now :
  verify_server_cert (PinnedServerCertVerifier expected) leaf rest name ocsp now = Ok tt ->
  validate_certificate_structure leaf now = Ok tt /\ from_certificate_der leaf = Ok expected.
Proof.
  simpl. intros H. destruct (validate_certificate_structure leaf now) as [[]|]; [|done]. split; [done|]. simpl in H. inv_result. unfold map_err in *.
  repeat case_match; simplify_eq. to_prop. by subst.
Qed.

(** C6: who is at the other end of a dialled connection.  Whatever answers, and
    however many connections were made with the same configuration before, a
    connection that completes carries the pinned fingerprint; its certificate was
    presented on a TLS 1.3 connection of this configuration, within its window,
    by an end that signed that connection's transcript with the pinned key; and
    once the protocol has been required, it is the one protocol offered, of the
    profile and the kind asked for. *)
Theorem dialled_peer_pinned identity expected q cfg l c :
  client_config_with_alpn identity expected (alpn_of q) = Ok cfg -> dialled cfg l -> c ∈ l ->
  peer_fingerprint c = Ok expected /\
  (exists c0 now leaf rest, c0 ∈ l /\ cs_peer_certificates c = Some (leaf :: rest) /\
     cs_peer_certificates c0 = Some (leaf :: rest) /\ proven c0 now leaf expected) /\
  (forall profile kind, require_negotiated c profile kind = Ok tt -> q = {| np_profile := profile; np_kind := kind |}).
Proof.
  unfold client_config_with_alpn. intros Hcfg Hd Hc. inv_result.
  match goal with |- _ => set (cfg := Build_ClientConfig _ _ _ _ _) in Hd end.
  induction Hd as [|l p now c' Hd IH Hcon] in c, Hc |- *; [by apply elem_of_nil in Hc|].
  apply elem_of_cons in Hc as [->|Hc]; cycle 1.
  { destruct (IH c Hc) as (Hf & (c0 & n0 & leaf & rest & Hin & ?) & Hq). split_and!; [done| |done].
    exists c0, n0, leaf, rest. split; [by right|done]. }
  destruct (connect_uses_config _ _ _ _ _ Hcon) as [Hv Ha]. apply list_elem_of_singleton in Hv.
  split_and!; cycle 2.
  { intros profile kind Hr. unfold require_negotiated, negotiated_protocol in Hr.
    destruct (decide _) as [Hn|]; [|done]. destruct (cs_alpn_protocol c') as [a|]; [|done].
    specialize (Ha a eq_refl). apply list_elem_of_singleton in Ha as ->. simpl in Hn.
    rewrite (proj2 (from_alpn_exact _ q)) in Hn by done. by simplify_eq. }
  - apply connect_authenticates in Hcon as [(leaf & rest & name & ocsp & Hcs & Hver & _)|(c0 & Hin & Hsame)].
    + apply pinned_key in Hver as [_ Hk]. unfold peer_fingerprint. by rewrite Hcs.
    + unfold peer_fingerprint. rewrite Hsame. by apply (IH c0).
  - apply connect_authenticates in Hcon as [(leaf & rest & name & ocsp & Hcs & Hver & dss & Hsig)|(c0 & Hin & Hsame)].
    + rewrite Hv in Hsig. apply pinned_key in Hver as [Hw Hk].
      exists c', now, leaf, rest. split_and!; [by left|done..|by split; eauto].
    + destruct (IH c0 Hin) as (_ & (c1 & n1 & leaf & rest & Hin1 & Hs & Hrest) & _).
      exists c1, n1, leaf, rest. split_and!; [by right|congruence|apply Hrest..].
Qed.
End Facts.

(** * A handshake to run them on *)

(** An end that presents certificates, signs with the keys it holds, offers
    protocols, and would resume a session if it could. *)
Record ToyEnd := {
  te_version : TlsVersion;
  te_certs : list bytes;
  te_holds : list bytes;
  te_alpn : list bytes;
  te_resumes : bool;
  te_nonce : bytes
}.

(** A signature is the message and the certificate signed for. *)
Definition toy_provider : CryptoProvider := {|
  DigitallySignedStruct := option (bytes * bytes);
  crypto_verify_tls13_signature m cert dss := if decide (dss = Some (m, cert)) then Ok tt else Err (OtherTls 1);
  with_protocol_versions _ := Ok tt |}.

(** Certificates that are their own key, valid from second 1000 to 2000. *)
Definition toy_parser : X509Parser := {|
  parse_x509_certificate der :=
    match der with [] => None | _ => Some {| xc_spki := der; xc_not_before := 1000; xc_not_after := 2000 |} end |}.

Definition toy_alpn (offered chosen : list bytes) : result io_kind (option bytes) :=
  match offered, find_b (fun a => mem a offered) chosen with
  | [], _ => Ok None
  | _, Some a => Ok (Some a)
  | _, None => Err InvalidData
  end.

Definition toy_signature (p : ToyEnd) (m leaf : bytes) : option (bytes * bytes) :=
  if mem leaf (te_holds p) then Some (m, leaf) else None.

Section Toy.
#[local] Existing Instance toy_provider.

Definition toy_checked (v12 v13 : bytes -> bytes -> option (bytes * bytes) -> result TlsError unit) (p : ToyEnd) (leaf : bytes) : bool :=
  is_ok ((match te_version p with TLS12 => v12 | TLS13 => v13 end) (te_nonce p) leaf (toy_signature p (te_nonce p) leaf)).

Definition toy_state (p : ToyEnd) (certs : option (list bytes)) (alpn : option bytes) : CommonState := {|
  cs_version := te_version p; cs_peer_certificates := certs; cs_alpn_protocol := alpn; cs_signed := te_nonce p |}.

Definition toy_authenticate (cfg : ServerConfig) (p : ToyEnd) (now : N) (alpn : option bytes) : result io_kind CommonState :=
  let v := sc_verifier cfg in
  if te_resumes p && negb (sc_send_tls13_tickets cfg =? 0) then Ok (toy_state p (Some (te_certs p)) alpn)
  else match te_certs p with
  | [] => if client_auth_mandatory v then Err InvalidData else Ok (toy_state p None alpn)
  | leaf :: rest =>
      if is_ok (verify_client_cert v leaf rest now) && toy_checked (cv_verify_tls12_signature v) (cv_verify_tls13_signature v) p leaf
      then Ok (toy_state p (Some (leaf :: rest)) alpn) else Err InvalidData
  end.

Definition toy_accept (cfg : ServerConfig) (p : ToyEnd) (now : N) : result io_kind CommonState :=
  _ ← guard_err (negb (bool_decide (te_version p ∈ sc_versions cfg))) InvalidData;
  alpn ← toy_alpn (te_alpn p) (sc_alpn_protocols cfg);
  toy_authenticate cfg p now alpn.

Definition toy_pin (cfg : ClientConfig) (earlier : list CommonState) (p : ToyEnd) (now : N) (alpn : option bytes) : result io_kind CommonState :=
  let v := cc_verifier cfg in
  match te_resumes p, earlier with
  | true, c0 :: _ => Ok (toy_state p (cs_peer_certificates c0) alpn)
  | _, _ =>
      match te_certs p with
      | [] => Err InvalidData
      | leaf :: rest =>
          if is_ok (verify_server_cert v leaf rest [] [] now) && toy_checked (sv_verify_tls12_signature v) (sv_verify_tls13_signature v) p leaf
          then Ok (toy_state p (Some (leaf :: rest)) alpn) else Err InvalidData
      end
  end.

Definition toy_connect (cfg : ClientConfig) (earlier : list CommonState) (p : ToyEnd) (now : N) : result io_kind CommonState :=
  _ ← guard_err (negb (bool_decide (te_version p ∈ cc_versions cfg))) InvalidData;
  alpn ← toy_alpn (te_alpn p) (cc_alpn_protocols cfg);
  toy_pin cfg earlier p now alpn.

Lemma toy_accept_run cfg p now c : toy_accept cfg p now = Ok c ->
  exists alpn, te_version p ∈ sc_versions cfg /\ toy_alpn (te_alpn p) (sc_alpn_protocols cfg) = Ok alpn /\
    toy_authenticate cfg p now alpn = Ok c.
Proof.
  unfold toy_accept, guard_err. case_bool_decide; [|done]. simpl.
  destruct (toy_alpn _ _) as [alpn|]; [|done]. by exists alpn.
Qed.

Lemma toy_connect_run cfg earlier p now c : toy_connect cfg earlier p now = Ok c ->
  exists alpn, te_version p ∈ cc_versions cfg /\ toy_alpn (te_alpn p) (cc_alpn_protocols cfg) = Ok alpn /\
    toy_pin cfg earlier p now alpn = Ok c.
Proof.
  unfold toy_connect, guard_err. case_bool_decide; [|done]. simpl.
  destruct (toy_alpn _ _) as [alpn|]; [|done]. by exists alpn.
Qed.

Lemma toy_alpn_chosen offered chosen o : toy_alpn offered chosen = Ok o -> forall a, o = Some a -> a ∈ chosen.
Proof.
  unfold toy_alpn. intros H a ->. destruct offered; [done|]. destruct (find_b _ _) as [b|] eqn:Hf; [|done].
  simplify_eq. by apply find_b_some in Hf as [? _].
Qed.

Lemma is_ok_unit {E} (r : result E unit) : is_ok r = true -> r = Ok tt.
Proof. by destruct r as [[]|]. Qed.

#[global] Program Instance toy_rustls : Rustls := {|
  Endpoint := ToyEnd; tls_accept := toy_accept; tls_connect := toy_connect |}.
Next Obligation.
  intros cfg p now c H. simpl in H. apply toy_accept_run in H as (alpn & Hv & Ha & H). unfold toy_authenticate, toy_pin in H.
  assert (cs_version c = te_version p /\ cs_alpn_protocol c = alpn) as [-> ->] by (repeat case_match; simplify_eq; done).
  split; [done|]. by eapply toy_alpn_chosen.
Qed.
Next Obligation.
  intros cfg p now c H Hm Ht. simpl in H. apply toy_accept_run in H as (alpn & _ & _ & H). unfold toy_authenticate in H. rewrite Ht, andb_false_r, Hm in H.
  destruct (te_certs p) as [|leaf rest]; [done|]. destruct (_ && _) eqn:Hc in H; [|done]. simplify_eq.
  apply andb_true_iff in Hc as [Hv%is_ok_unit Hs%is_ok_unit].
  exists leaf, rest. split_and!; [done..|]. by exists (toy_signature p (te_nonce p) leaf).
Qed.
Next Obligation.
  intros cfg earlier p now c H. simpl in H. apply toy_connect_run in H as (alpn & Hv & Ha & H). unfold toy_authenticate, toy_pin in H.
  assert (cs_version c = te_version p /\ cs_alpn_protocol c = alpn) as [-> ->] by (repeat case_match; simplify_eq; done).
  split; [done|]. by eapply toy_alpn_chosen.
Qed.
Next Obligation.
  intros cfg earlier p now c H. simpl in H. apply toy_connect_run in H as (alpn & _ & _ & H). unfold toy_pin in H. destruct (te_resumes p), earlier as [|c0 l].
  2: { simplify_eq. right. exists c0. split; [by left|done]. }
  all: destruct (te_certs p) as [|leaf rest]; [done|]; destruct (_ && _) eqn:Hc in H; [|done]; simplify_eq;
    apply andb_true_iff in Hc as [Hv%is_ok_unit Hs%is_ok_unit]; left;
    exists leaf, rest, [], []; split_and!; [done..|]; by exists (toy_signature p (te_nonce p) leaf).
Qed.
End Toy.

(** * Runs *)

Section Runs.
#[local] Existing Instance toy_provider.
#[local] Existing Instance toy_parser.
#[local] Existing Instance toy_crypto.

Definition run_identity : Identity := {|
  id_device_id := lit "desk"; id_device_name := lit "Desk"; id_platform := Wire.Linux; id_certificate_der := [x01];
  id_fingerprint := sha256 [x01]; id_backing := KeyBacking.Software; id_secret := [x01] |}.

(** A phone with its own key, and somebody who has a copy of its certificate. *)
Definition phone_end : ToyEnd := {|
  te_version := TLS13; te_certs := [[x07]]; te_holds := [[x07]]; te_alpn := [ALPN_PROTOCOL];
  te_resumes := false; te_nonce := [x55] |}.
Definition copycat_end : ToyEnd := {|
  te_version := TLS13; te_certs := [[x07]]; te_holds := [[x08]]; te_alpn := [ALPN_PROTOCOL];
  te_resumes := true; te_nonce := [x56] |}.

Definition run_config : ServerConfig := default
  {| sc_versions := []; sc_verifier := RecordingClientCertVerifier; sc_certified_key := run_identity;
     sc_alpn_protocols := []; sc_send_tls13_tickets := 0 |} (match server_config run_identity with Ok c => Some c | Err _ => None end).

Definition phone_conn : CommonState := {|
  cs_version := TLS13; cs_peer_certificates := Some [[x07]]; cs_alpn_protocol := Some ALPN_PROTOCOL; cs_signed := [x55] |}.

Lemma accepted_peer_proven_witness :
  server_config run_identity = Ok run_config /\ @tls_accept _ toy_rustls run_config phone_end 1500 = Ok phone_conn /\
  exists leaf rest fp, cs_peer_certificates phone_conn = Some (leaf :: rest) /\ peer_fingerprint phone_conn = Ok fp /\
    proven phone_conn 1500 leaf fp.
Proof.
  split; [reflexivity|split; [vm_compute; reflexivity|]].
  apply (accepted_peer_proven (RT := toy_rustls) run_identity run_config phone_end 1500 phone_conn); [reflexivity|vm_compute; reflexivity].
Defined.

(** Without the key a copy of a certificate is worth nothing, out of its window
    neither is the key, and an older TLS is not spoken. *)
Example copied_certificate_refused :
  is_ok (@tls_accept _ toy_rustls run_config copycat_end 1500) = false /\
  is_ok (@tls_accept _ toy_rustls run_config phone_end 88401) = false /\
  is_ok (@tls_accept _ toy_rustls run_config {| te_version := TLS12; te_certs := [[x07]]; te_holds := [[x07]];
    te_alpn := [ALPN_PROTOCOL]; te_resumes := false; te_nonce := [] |} 1500) = false.
Proof. vm_compute. done. Qed.

Definition run_client : ClientConfig := default
  {| cc_versions := []; cc_verifier := PinnedServerCertVerifier (sha256 [x07]); cc_certified_key := run_identity;
     cc_alpn_protocols := [] |} (match client_config run_identity (sha256 [x07]) Profile.Pliwee with Ok c => Some c | Err _ => None end).

Definition resumed_conn : CommonState := {|
  cs_version := TLS13; cs_peer_certificates := Some [[x07]]; cs_alpn_protocol := Some ALPN_PROTOCOL; cs_signed := [x56] |}.

(** The second connection resumes the first. *)
Lemma dialled_peer_pinned_witness :
  dialled run_client [resumed_conn; phone_conn] /\ peer_fingerprint resumed_conn = Ok (sha256 [x07]).
Proof.
  assert (dialled run_client [resumed_conn; phone_conn]) as Hd.
  { eapply (dialled_more (RT := toy_rustls) _ _ copycat_end 1600); [|vm_compute; reflexivity].
    eapply (dialled_more (RT := toy_rustls) _ _ phone_end 1500); [constructor|vm_compute; reflexivity]. }
  split; [exact Hd|].
  apply (dialled_peer_pinned (RT := toy_rustls) run_identity (sha256 [x07]) {| np_profile := Profile.Pliwee; np_kind := Control |}
    run_client [resumed_conn; phone_conn] resumed_conn); [reflexivity|exact Hd|by left].
Defined.
End Runs.

(** A certificate that ran out before 1970 never expires, and one issued before
    1970 is not valid yet: the signed date is read as an unsigned number. *)
Example dates_before_1970 :
  let old nb na := {| parse_x509_certificate _ := Some {| xc_spki := [x01]; xc_not_before := nb; xc_not_after := na |} |} in
  @validate_certificate_structure (old 0%Z (-1)%Z) [] 1700000000 = Ok tt /\
  @validate_certificate_structure (old (-1)%Z 4000000000%Z) [] 1700000000 = Err NotValidYet.
Proof. vm_compute. done. Qed.
