(* ===== verification/Listener.v ===== *)
(** The network listener.

    [runtime/src/listener.rs]: binding the sockets, the accept loop with its
    connection slots, and what becomes of one connection; and
    [runtime/src/mdns.rs], the advertisement of what was bound.  A connection goes
    through TLS ([Tls.v]), then either the handshake and the message loop
    ([Session.v], [SessionLoop.v]) or a data stream of the transfer manager
    ([Transfers.v]); the theorem [connection_admitted] composes what each of them
    promises. *)
From S2P Require Import Prelude External Ids Wire Capability Identity Framing Replay Discovery Transfer Sink Transfers TransfersFacts Session SessionFacts SessionLoop Tls.

(** * Binding *)

Inductive Family := V4 | V6.

#[export] Instance Family_eq_dec : EqDecision Family.
Proof. solve_decision. Defined.

Inductive BindFailure := AddrInUse | OtherBind (code : N).

(** A socket listening on a wildcard address; [so_v6only] is its
    [IPV6_V6ONLY]. *)
Record Sock := { so_family : Family; so_port : N; so_v6only : bool }.

(** The families a socket accepts connections of: without [IPV6_V6ONLY] an IPv6
    socket also accepts IPv4 through mapped addresses. *)
Definition accepts (s : Sock) (f : Family) : bool :=
  match so_family s, f with
  | V4, V4 => true
  | V6, V6 => true
  | V6, V4 => negb (so_v6only s)
  | V4, V6 => false
  end.

Definition conflict (a b : Sock) : bool :=
  (so_port a =? so_port b) && ((accepts a V4 && accepts b V4) || (accepts a V6 && accepts b V6)).

(** The host's side: the families it has, [net.ipv6.bindv6only], the sockets of
    other processes and of this one, the port it would pick, and the faults of
    the calls to come. *)
Record Net := {
  nt_ipv4 : bool;
  nt_ipv6 : bool;
  nt_v6only : bool;
  nt_others : list Sock;
  nt_mine : list Sock;
  nt_pick : N;
  nt_faults : list (option N)
}.

Definition next_fault (n : Net) : option N * Net :=
  match nt_faults n with
  | [] => (None, n)
  | f :: l => (f, {| nt_ipv4 := nt_ipv4 n; nt_ipv6 := nt_ipv6 n; nt_v6only := nt_v6only n; nt_others := nt_others n;
                     nt_mine := nt_mine n; nt_pick := nt_pick n; nt_faults := l |})
  end.

Definition add_mine (n : Net) (s : Sock) : Net := {|
  nt_ipv4 := nt_ipv4 n; nt_ipv6 := nt_ipv6 n; nt_v6only := nt_v6only n; nt_others := nt_others n;
  nt_mine := s :: nt_mine n; nt_pick := nt_pick n; nt_faults := nt_faults n |}.

(** [std::net::TcpListener::bind] on the wildcard address of a family. *)
Definition bind_socket (n : Net) (f : Family) (port : N) : result BindFailure Sock * Net :=
  match next_fault n with
  | (Some code, n1) => (Err (OtherBind code), n1)
  | (None, n1) =>
      if negb (match f with V4 => nt_ipv4 n1 | V6 => nt_ipv6 n1 end) then (Err (OtherBind 97), n1)
      else
        let s := {| so_family := f; so_port := if port =? 0 then nt_pick n1 else port;
                    so_v6only := match f with V4 => false | V6 => nt_v6only n1 end |} in
        if existsb (conflict s) (nt_mine n1 ++ nt_others n1) then (Err AddrInUse, n1) else (Ok s, add_mine n1 s)
  end.

(** A call that can only fail or go well: [local_addr], [set_nonblocking],
    [from_std]. *)
Definition fallible {A} (n : Net) (a : A) : result BindFailure A * Net :=
  match next_fault n with
  | (Some code, n1) => (Err (OtherBind code), n1)
  | (None, n1) => (Ok a, n1)
  end.

Record Families := { fa_ipv4 : bool; fa_ipv6 : bool }.

(** [Display] of [Families] *)
Definition Families_fmt (f : Families) : str :=
  match fa_ipv4 f, fa_ipv6 f with
  | true, true => lit "IPv4+IPv6"
  | true, false => lit "IPv4"
  | false, true => lit "IPv6"
  | false, false => lit "none"
  end.

Record Bound := { bd_listeners : list Sock; bd_port : N; bd_families : Families }.

(** The [?] of [bind_endpoints]. *)
Definition try_net {A B} (x : result BindFailure A * Net) (k : A -> Net -> result BindFailure B * Net) : result BindFailure B * Net :=
  match x with (Ok a, n) => k a n | (Err e, n) => (Err e, n) end.

Definition adopt (n : Net) (s : Sock) : result BindFailure Sock * Net :=
  try_net (fallible n tt) (fun _ n1 => fallible n1 s).

Definition bind_endpoints (n : Net) (port : N) : result BindFailure Bound * Net :=
  match bind_socket n V6 port with
  | (Ok v6, n1) =>
      try_net (fallible n1 (so_port v6)) (fun bound_port n2 =>
        match bind_socket n2 V4 bound_port with
        | (Ok v4, n3) =>
            try_net (adopt n3 v6) (fun l6 n4 => try_net (adopt n4 v4) (fun l4 n5 =>
              (Ok {| bd_listeners := [l6; l4]; bd_port := bound_port; bd_families := {| fa_ipv4 := true; fa_ipv6 := true |} |}, n5)))
        | (Err AddrInUse, n3) =>
            try_net (adopt n3 v6) (fun l6 n4 =>
              (Ok {| bd_listeners := [l6]; bd_port := bound_port; bd_families := {| fa_ipv4 := true; fa_ipv6 := true |} |}, n4))
        | (Err (OtherBind _), n3) =>
            try_net (adopt n3 v6) (fun l6 n4 =>
              (Ok {| bd_listeners := [l6]; bd_port := bound_port; bd_families := {| fa_ipv4 := false; fa_ipv6 := true |} |}, n4))
        end)
  | (Err _, n1) =>
      try_net (bind_socket n1 V4 port) (fun v4 n2 => try_net (fallible n2 (so_port v4)) (fun bound_port n3 =>
        try_net (adopt n3 v4) (fun l4 n4 =>
          (Ok {| bd_listeners := [l4]; bd_port := bound_port; bd_families := {| fa_ipv4 := true; fa_ipv6 := false |} |}, n4))))
  end.

(** * Advertising *)

(** The calls to the mDNS responder ([mdns_sd]), each of which can fail. *)
Inductive MdnsCall :=
| DisableInterface (f : Family)
| Register (service_type instance hostname : str) (port : N) (txt : gmap str str)
| Unregister (fullname : str).

(** The full name of a service, as [ServiceInfo] makes it. *)
Definition fullname (service_type instance : str) : str := instance ++ lit "." ++ service_type.

(** A program that makes calls: whether it got to its end, and the calls that
    were made.  [works] says of each call whether it works. *)
Definition Mdns : Type := list bool -> bool * list MdnsCall * list bool.

Definition mdns_call (c : MdnsCall) : Mdns := fun works =>
  match works with false :: l => (false, [c], l) | true :: l => (true, [c], l) | [] => (true, [c], []) end.

(** A step that makes no such call: creating the responder, or a record. *)
Definition mdns_may_fail : Mdns := fun works =>
  match works with false :: l => (false, [], l) | true :: l => (true, [], l) | [] => (true, [], []) end.

Definition mdns_seq (a b : Mdns) : Mdns := fun works =>
  match a works with
  | (false, l, w) => (false, l, w)
  | (true, l, w) => let '(r, l', w') := b w in (r, l ++ l', w')
  end.

Definition mdns_skip : Mdns := fun works => (true, [], works).

Definition service_call (device_id : str) (port : N) (txt : gmap str str) (profile : Profile) : MdnsCall :=
  Register (Profile.service_type profile) device_id (device_id ++ lit ".local.") port txt.

(** [Advertisement::publish] *)
Definition publish (device_id device_name : str) (port : N) (families : Families) : Mdns :=
  mdns_seq mdns_may_fail
  (mdns_seq (if negb (fa_ipv6 families) then mdns_call (DisableInterface V6) else mdns_skip)
  (mdns_seq (if negb (fa_ipv4 families) then mdns_call (DisableInterface V4) else mdns_skip)
  (foldr mdns_seq mdns_skip
    (map (fun profile => mdns_seq mdns_may_fail (mdns_call (service_call device_id port (build_txt device_id device_name) profile)))
      Profile.ALL)))).

(** [Drop] of an [Advertisement]: a best-effort goodbye for each record. *)
Definition withdraw (device_id : str) : list MdnsCall :=
  map (fun profile => Unregister (fullname (Profile.service_type profile) device_id)) Profile.ALL.

(** * The accept loop *)

Definition MAX_CONCURRENT_CONNECTIONS : N := 32.
Definition TLS_HANDSHAKE_TIMEOUT : N := from_secs 10.

(** Where a connection's task is: in the TLS handshake since some time, or past
    it. *)
Inductive Phase := Handshaking (since : N) | Serving.

#[export] Instance Phase_eq_dec : EqDecision Phase.
Proof. solve_decision. Defined.

(** The free permits of the semaphore and the tasks that hold the others. *)
Record Slots := { sl_free : N; sl_tasks : gmap N Phase; sl_next : N }.

Definition Slots_new : Slots := {| sl_free := MAX_CONCURRENT_CONNECTIONS; sl_tasks := ∅; sl_next := 0 |}.

Inductive LoopTurn :=
| Accepted (now : N)
| AcceptFailed
| HandshakePolled (task now : N) (outcome : option bool)   (** [None]: still pending *)
| ConnectionEnded (task : N).

(** A task's end drops its permit. *)
Definition finish (s : Slots) (task : N) : Slots :=
  {| sl_free := sl_free s + 1; sl_tasks := delete task (sl_tasks s); sl_next := sl_next s |}.

Definition turn (s : Slots) (t : LoopTurn) : Slots :=
  match t with
  | AcceptFailed => s
  | Accepted now =>
      if sl_free s =? 0 then s
      else {| sl_free := sl_free s - 1; sl_tasks := <[sl_next s := Handshaking now]> (sl_tasks s); sl_next := sl_next s + 1 |}
  | HandshakePolled task now outcome =>
      match sl_tasks s !! task with
      | Some (Handshaking since) =>
          match outcome with
          | Some true => {| sl_free := sl_free s; sl_tasks := <[task := Serving]> (sl_tasks s); sl_next := sl_next s |}
          | Some false => finish s task
          | None => if since + TLS_HANDSHAKE_TIMEOUT <=? now then finish s task else s
          end
      | _ => s
      end
  | ConnectionEnded task =>
      match sl_tasks s !! task with Some Serving => finish s task | _ => s end
  end.

Definition turns (s : Slots) (l : list LoopTurn) : Slots := foldl turn s l.

(** * One connection *)

(** What a connection came to: a session, with what it told its capabilities and
    its result if it has ended; or a data stream. *)
Inductive Handled (S : Type) :=
| HSession (est : Established) (notices : list SessionLoop.Notice) (ended : option (Result unit))
| HData (result : Result unit) (m : Manager).
Arguments HSession {_} _ _ _. Arguments HData {_} _ _.

(** What the peer of a data stream does, and what a session's loop goes through. *)
Record StreamInput := { si_frame : option (result io_kind DataStreamAuth); si_sent : result io_kind unit }.
Record LoopInput := { li_session_id : N; li_started : N; li_events : list (bool * LoopEvent); li_writer : Result unit }.

Section Connection.
Context {S H : Type} `{SH : !SessionHost S H, PR : !Prost Envelope, HC : !HexCodec, CR : !Crypto, PF : !Prost FileControl,
  XP : !X509Parser, CP : !CryptoProvider, RT : !Rustls}.

Definition handle_data_stream (fingerprint : Fingerprint) (profile : Profile) (transfers : option Manager) (i : StreamInput) :
    Result (Handled S) :=
  match transfers with
  | None => Err (EProtocol "file transfer is not enabled")
  | Some m =>
      let '(r, m') := accept_data_stream m fingerprint (si_frame i) PROTOCOL_VERSION_MAX profile (si_sent i) in
      Ok (HData r m')
  end.

(** [stalled]: the handshake did not finish in time. *)
Definition handle_connection (acceptor : ServerConfig) (peer : Endpoint) (now : N) (stalled : bool) (transfers : option Manager)
    (data : StreamInput) (loop : LoopInput) : M S (Handled S) :=
  tls ← lift (if stalled then Err (EProtocol "TLS handshake timed out")
              else map_err EIo (tls_accept acceptor peer now));
  fingerprint ← lift (peer_fingerprint tls);
  match negotiated_protocol tls with
  | None => throw (EProtocol "peer negotiated no known ALPN protocol")
  | Some protocol =>
      match np_kind protocol with
      | Data => lift (handle_data_stream fingerprint (np_profile protocol) transfers data)
      | Control =>
          '(established, envelope_state) ← accept_handshake fingerprint (np_profile protocol);
          reg ← gets registry;
          let '(notices, ended) := run_session reg established (li_session_id loop) (li_started loop) envelope_state
                                     (li_events loop) (li_writer loop) in
          mret (HSession established notices ended)
      end
  end.
End Connection.

(** * Theorems *)

(** ** Binding *)

Lemma next_fault_same n : let n' := (next_fault n).2 in
  nt_ipv4 n' = nt_ipv4 n /\ nt_ipv6 n' = nt_ipv6 n /\ nt_v6only n' = nt_v6only n /\ nt_others n' = nt_others n /\ nt_mine n' = nt_mine n /\ nt_pick n' = nt_pick n.
Proof. unfold next_fault. by destruct (nt_faults n). Qed.

(** What a bind did to the host. *)
Lemma bind_socket_run n f port r n' : bind_socket n f port = (r, n') ->
  nt_v6only n' = nt_v6only n /\ nt_others n' = nt_others n /\
  match r with
  | Ok s => so_family s = f /\ so_v6only s = (match f with V4 => false | V6 => nt_v6only n end) /\
      so_port s = (if port =? 0 then nt_pick n else port) /\ nt_mine n' = s :: nt_mine n
  | Err AddrInUse => nt_mine n' = nt_mine n /\
      (port <> 0 -> exists o, o ∈ nt_mine n ++ nt_others n /\
        conflict {| so_family := f; so_port := port; so_v6only := match f with V4 => false | V6 => nt_v6only n end |} o = true)
  | Err _ => nt_mine n' = nt_mine n
  end.
Proof.
  unfold bind_socket. pose proof (next_fault_same n) as (_ & _ & Hv & Ho & Hm & Hk).
  destruct (next_fault n) as [[code|] n1]; simpl in *; [by intros [= <- <-]|].
  destruct (negb _); [by intros [= <- <-]|]. rewrite Hv, Ho, Hm, Hk.
  destruct (existsb _ _) eqn:He; intros [= <- <-]; simpl; split_and!; try done.
  { intros Hp. apply existsb_exists in He as (o & Ho' & Hc). exists o. split; [by apply list_elem_of_In|].
    apply N.eqb_neq in Hp. by rewrite Hp in Hc. }
  by rewrite Hm.
Qed.

Lemma fallible_ok {A} n (a x : A) n' : fallible n a = (Ok x, n') ->
  x = a /\ nt_v6only n' = nt_v6only n /\ nt_others n' = nt_others n /\ nt_mine n' = nt_mine n.
Proof.
  unfold fallible. pose proof (next_fault_same n) as (_ & _ & Hv & Ho & Hm & _).
  by destruct (next_fault n) as [[code|] n1]; intros [= <- <-].
Qed.

Lemma adopt_ok n s l n' : adopt n s = (Ok l, n') -> l = s.
Proof.
  unfold adopt, try_net. destruct (fallible n tt) as [[]] eqn:H1; [|done]. intros H2.
  by apply fallible_ok in H2 as [-> _].
Qed.

Lemma try_net_ok {A B} (x : result BindFailure A * Net) k (b : B) n' : try_net x k = (Ok b, n') ->
  exists a n, x = (Ok a, n) /\ k a n = (Ok b, n').
Proof. destruct x as [[a|] n]; [|done]. by exists a, n. Qed.

(** Every claim of a family has a socket, and all sockets have the port. *)
Definition served (b : Bound) : Prop :=
  bd_listeners b <> [] /\ Forall (fun s => so_port s = bd_port b) (bd_listeners b) /\
  (fa_ipv6 (bd_families b) = true <-> exists s, s ∈ bd_listeners b /\ accepts s V6 = true) /\
  (fa_ipv4 (bd_families b) = true -> exists s, s ∈ bd_listeners b /\ accepts s V4 = true).

Lemma served_v6 l v6 b4 : so_family v6 = V6 -> Forall (fun s => so_port s = so_port v6) l ->
  (b4 = true -> exists s, s ∈ v6 :: l /\ accepts s V4 = true) ->
  served {| bd_listeners := v6 :: l; bd_port := so_port v6; bd_families := {| fa_ipv4 := b4; fa_ipv6 := true |} |}.
Proof.
  intros Hf Hl H4. split_and!; simpl; [done|by constructor| |done]. split; [|done].
  intros _. exists v6. split; [by left|]. unfold accepts. by rewrite Hf.
Qed.

(** An IPv4 bind finds the port taken: by this process's own IPv6 socket, which
    accepts IPv4, or by somebody else. *)
Lemma taken_v4 n v6 o : so_family v6 = V6 -> nt_mine n = [v6] -> o ∈ nt_mine n ++ nt_others n ->
  conflict {| so_family := V4; so_port := so_port v6; so_v6only := false |} o = true ->
  accepts v6 V4 = true \/ (o ∈ nt_others n /\ so_port o = so_port v6 /\ accepts o V4 = true).
Proof.
  intros Hf -> Hin. unfold conflict. simpl. intros [Hp Ha]%andb_true_iff. apply N.eqb_eq in Hp. rewrite orb_false_r in Ha.
  apply elem_of_cons in Hin as [->|Hin]; [by left|]. right. by rewrite Hp.
Qed.

(** What is claimed is served.  Whatever sockets other processes hold,
    whatever port is asked for and whichever calls fail, the sockets that
    [bind_endpoints] returns all listen on the port it reports, they accept IPv6
    exactly if it says so, and they accept IPv4 if it says so; provided only that
    no other process is listening for IPv4 on that port where sockets are IPv6
    only. *)
Lemma bound_served n port b n' :
  nt_mine n = [] -> nt_pick n <> 0 -> bind_endpoints n port = (Ok b, n') ->
  (nt_v6only n = true -> forall o, o ∈ nt_others n -> so_port o = bd_port b -> accepts o V4 = false) ->
  served b.
Proof.
  intros Hmine Hpick. unfold bind_endpoints.
  destruct (bind_socket n V6 port) as [r6 n1] eqn:H6. apply bind_socket_run in H6 as (Hv1 & Ho1 & H6).
  destruct r6 as [v6|e].
  - destruct H6 as (Hf6 & Hs6 & Hp6 & Hm1). intros (bp & n2 & Hl & Hb)%try_net_ok.
    apply fallible_ok in Hl as (-> & Hv2 & Ho2 & Hm2).
    destruct (bind_socket n2 V4 (so_port v6)) as [r4 n3] eqn:H4. apply bind_socket_run in H4 as (_ & _ & H4).
    assert (Hp : (so_port v6 =? 0) = false) by (rewrite Hp6; apply N.eqb_neq; destruct (port =? 0) eqn:E; [done|by apply N.eqb_neq]).
    destruct r4 as [v4|[|code]]; apply try_net_ok in Hb as (l6 & n4 & ->%adopt_ok & Hb).
    + apply try_net_ok in Hb as (l4 & n5 & ->%adopt_ok & Hb). injection Hb as <- _. intros _.
      destruct H4 as (Hf4 & _ & Hp4 & _). rewrite Hp in Hp4. apply served_v6; [done|by repeat constructor|].
      intros _. exists v4. split; [by right; left|]. unfold accepts. by rewrite Hf4.
    + injection Hb as <- _. simpl. intros Hother. apply served_v6; [done|constructor|]. intros _. exists v6. split; [by left|].
      destruct H4 as [_ H4]. destruct H4 as (o & Hin & Hc); [by apply N.eqb_neq|].
      destruct (taken_v4 n2 v6 o) as [?|(Hin' & Hpo & Hac)]; [done|congruence|done..|].
      unfold accepts. rewrite Hf6, Hs6. destruct (nt_v6only n); [|done].
      rewrite (Hother eq_refl o) in Hac; congruence.
    + injection Hb as <- _. intros _. by apply served_v6.
  - intros (v4 & n2 & H4 & Hb)%try_net_ok _. apply bind_socket_run in H4 as (_ & _ & Hf4 & _ & _ & _).
    apply try_net_ok in Hb as (bp & n3 & [-> _]%fallible_ok & Hb). apply try_net_ok in Hb as (l4 & n4 & ->%adopt_ok & Hb).
    injection Hb as <- _. split_and!; simpl; [done|by repeat constructor| |].
    + split; [done|]. intros (s & Hs & Ha). apply list_elem_of_singleton in Hs as ->. unfold accepts in Ha. by rewrite Hf4 in Ha.
    + intros _. exists v4. split; [by left|]. unfold accepts. by rewrite Hf4.
Qed.

(** ** Advertising *)

Lemma mdns_seq_done a b works l w : mdns_seq a b works = (true, l, w) ->
  exists la wa lb, a works = (true, la, wa) /\ b wa = (true, lb, w) /\ l = la ++ lb.
Proof.
  unfold mdns_seq. destruct (a works) as [[[] la] wa]; [|done]. destruct (b wa) as [[r lb] wb] eqn:Hb.
  intros [= -> <- <-]. by exists la, wa, lb.
Qed.

Lemma mdns_call_done c works l w : mdns_call c works = (true, l, w) -> l = [c].
Proof. unfold mdns_call. destruct works as [|[] ?]; by intros [=]. Qed.

Lemma mdns_may_fail_done works l w : mdns_may_fail works = (true, l, w) -> l = [].
Proof. unfold mdns_may_fail. destruct works as [|[] ?]; by intros [=]. Qed.

Lemma mdns_if_done (b : bool) c works l w : (if b then mdns_call c else mdns_skip) works = (true, l, w) -> l = if b then [c] else [].
Proof. destruct b; [apply mdns_call_done|]. by intros [= <- _]. Qed.

(** The calls of an advertisement that was published. *)
Lemma publish_calls id name port fs works l w : publish id name port fs works = (true, l, w) ->
  l = (if negb (fa_ipv6 fs) then [DisableInterface V6] else []) ++ (if negb (fa_ipv4 fs) then [DisableInterface V4] else []) ++
      map (service_call id port (build_txt id name)) Profile.ALL.
Proof.
  unfold publish. intros (l0 & w0 & r0 & ->%mdns_may_fail_done & H & ->)%mdns_seq_done.
  apply mdns_seq_done in H as (l1 & w1 & r1 & ->%mdns_if_done & H & ->).
  apply mdns_seq_done in H as (l2 & w2 & r2 & ->%mdns_if_done & H & ->). rewrite app_nil_l. do 2 f_equal.
  apply mdns_seq_done in H as (l3 & w3 & r3 & H3 & H & ->). apply mdns_seq_done in H as (l4 & w4 & r4 & H4 & [= <- _] & ->).
  apply mdns_seq_done in H3 as (? & ? & ? & ->%mdns_may_fail_done & ->%mdns_call_done & ->).
  apply mdns_seq_done in H4 as (? & ? & ? & ->%mdns_may_fail_done & ->%mdns_call_done & ->). done.
Qed.

(** Only what is served is advertised.  When the record of the sockets that
    were bound has been published, both service types are registered under the
    device's id, at the port the sockets listen on, with the same record; and an
    address of a family is advertised only if a socket accepts it. *)
Theorem advertises_what_it_serves n port b n' id name works l w :
  nt_mine n = [] -> nt_pick n <> 0 -> bind_endpoints n port = (Ok b, n') ->
  (nt_v6only n = true -> forall o, o ∈ nt_others n -> so_port o = bd_port b -> accepts o V4 = false) ->
  publish id name (bd_port b) (bd_families b) works = (true, l, w) ->
  (forall profile, exists host, Register (Profile.service_type profile) id host (bd_port b) (build_txt id name) ∈ l) /\
  (forall ty i host p txt, Register ty i host p txt ∈ l -> exists s, s ∈ bd_listeners b /\ so_port s = p) /\
  (forall f, DisableInterface f ∉ l -> exists s, s ∈ bd_listeners b /\ accepts s f = true).
Proof.
  intros Hm Hk Hb Ho ->%publish_calls. destruct (bound_served _ _ _ _ Hm Hk Hb Ho) as (Hne & Hport & H6 & H4).
  split_and!.
  - intros profile. eexists. do 2 (apply elem_of_app; right). apply list_elem_of_fmap. exists profile. split; [done|].
    destruct profile; [by left|by right; left].
  - intros ty i host p txt Hin. destruct (bd_listeners b) as [|s ls]; [done|]. exists s. split; [by left|].
    apply Forall_inv in Hport. rewrite Hport. rewrite !elem_of_app in Hin.
    destruct Hin as [Hin|[Hin|Hin]]; [by destruct (negb _); set_solver..|].
    apply list_elem_of_fmap in Hin as (? & [= _ _ _ -> _] & _). done.
  - intros [] Hno; [apply H4|apply H6]; apply not_false_iff_true; intros Hf; apply Hno; rewrite Hf; set_solver.
Qed.

(** ** Slots *)

(** Every permit is free or held by one task, and no two tasks share a number. *)
Definition slots_ok (s : Slots) : Prop :=
  sl_free s + N.of_nat (size (sl_tasks s)) = MAX_CONCURRENT_CONNECTIONS /\ forall k, is_Some (sl_tasks s !! k) -> k < sl_next s.

Lemma finish_ok s k : slots_ok s -> is_Some (sl_tasks s !! k) -> slots_ok (finish s k).
Proof.
  intros [Hc Hk] Hs. split; simpl.
  - rewrite map_size_delete_Some by done. assert (size (sl_tasks s) <> 0%nat); [|lia].
    intros E%map_size_empty_inv. rewrite E, lookup_empty in Hs. by destruct Hs.
  - intros j [x Hj]. apply lookup_delete_Some in Hj as [_ Hj]. eauto.
Qed.

Lemma turn_ok s t : slots_ok s -> slots_ok (turn s t).
Proof.
  intros Hs. pose proof Hs as [Hc Hk]. destruct t as [now| |k now o|k]; simpl; [| done| |].
  - destruct (sl_free s =? 0) eqn:E; [done|]. apply N.eqb_neq in E. split; simpl.
    + rewrite map_size_insert_None; [lia|]. apply eq_None_not_Some. intros H%Hk. lia.
    + intros j [x Hj]. apply lookup_insert_Some in Hj as [[<- _]|[_ Hj]]; [lia|]. assert (j < sl_next s); [eauto|lia].
  - destruct (sl_tasks s !! k) as [[since|]|] eqn:Ek; [|done..].
    destruct o as [[]|]; [| |destruct (_ <=? _); [|done]]; try (by apply finish_ok).
    split; simpl; [by rewrite map_size_insert_Some by (rewrite Ek; eauto)|].
    intros j [x Hj]. apply lookup_insert_Some in Hj as [[<- _]|[_ Hj]]; eauto.
  - destruct (sl_tasks s !! k) as [[since|]|] eqn:Ek; [done| |done]. by apply finish_ok.
Qed.

Lemma turns_ok l s : slots_ok s -> slots_ok (turns s l).
Proof. revert s. induction l as [|t l IH]; intros s Hs; [done|]. by apply IH, turn_ok. Qed.

Lemma slots_new_ok : slots_ok Slots_new.
Proof. split; [done|]. intros k []. simplify_map_eq. Qed.

(** C35: the connection limit.  Over any course of connections, on however many
    sockets, at most 32 tasks are alive and the permits that are not free are
    exactly theirs; while fewer are alive a new connection is taken, and at 32 it
    is dropped and nothing changes; and a handshake still pending when its time
    is up gives its slot back. *)
Theorem connections_bounded l :
  let s := turns Slots_new l in
  N.of_nat (size (sl_tasks s)) <= 32 /\ sl_free s = 32 - N.of_nat (size (sl_tasks s)) /\
  (forall now, if N.of_nat (size (sl_tasks s)) <? 32
    then sl_tasks s !! sl_next s = None /\ sl_tasks (turn s (Accepted now)) = <[sl_next s := Handshaking now]> (sl_tasks s)
    else turn s (Accepted now) = s) /\
  (forall k since now, sl_tasks s !! k = Some (Handshaking since) -> since + TLS_HANDSHAKE_TIMEOUT <= now ->
    let s' := turn s (HandshakePolled k now None) in
    sl_tasks s' = delete k (sl_tasks s) /\ sl_free s' = sl_free s + 1).
Proof.
  intros s. destruct (turns_ok l Slots_new slots_new_ok) as [Hc Hk]. fold s in Hc, Hk. unfold MAX_CONCURRENT_CONNECTIONS in Hc.
  split_and!; [lia|lia| |].
  - intros now. destruct (_ <? _) eqn:E; to_prop; simpl.
    + split; [apply eq_None_not_Some; intros H%Hk; lia|]. destruct (sl_free s =? 0) eqn:E0; [to_prop; lia|done].
    + destruct (sl_free s =? 0) eqn:E0; [done|to_prop; lia].
  - intros k since now Hl Ht s'. subst s'. simpl. rewrite Hl. assert ((since + TLS_HANDSHAKE_TIMEOUT <=? now) = true) as ->; [|done].
    by apply N.leb_le.
Qed.

(** ** Connections *)

Section Admission.
Context {S H : Type} `{SH : !SessionHost S H, PR : !Prost Envelope, HC : !HexCodec, CR : !Crypto, PF : !Prost FileControl,
  XP : !X509Parser, CP : !CryptoProvider, RT : !Rustls}.

(** A delivery among a session's notices is one of its loop. *)
Lemma run_session_delivers (reg : CapabilityRegistry H) est id started st evs wr cap payload :
  NEffect (EffDeliver cap payload) ∈ (run_session reg est id started st evs wr).1 ->
  EffDeliver cap payload ∈ (run_loop reg est evs {| ls_guard := en_guard st; ls_last_inbound := started; ls_pending_ping := None |}).1.2.
Proof.
  unfold run_session. destruct (run_loop _ _ _ _) as [[s effs] r]. simpl. intros Hin.
  assert (NEffect (EffDeliver cap payload) ∈ map NConnected (handled reg est) ++
    [NEstablished (es_peer est) id] ++ map NEffect effs ++ map NDisconnected (handled reg est) ++ [NClosed (es_peer est) id]) as Hin'.
  { destruct r; simpl in Hin; rewrite !elem_of_app in *; set_solver. }
  clear Hin. rewrite !elem_of_app in Hin'. destruct Hin' as [Hin|[Hin|[Hin|[Hin|Hin]]]].
  - by apply list_elem_of_fmap in Hin as (? & ? & _).
  - by apply list_elem_of_singleton in Hin.
  - by apply list_elem_of_fmap in Hin as (? & [= ->] & ?).
  - by apply list_elem_of_fmap in Hin as (? & ? & _).
  - by apply list_elem_of_singleton in Hin.
Qed.

(** What a stream that was let in had: a transfer of this peer and profile under
    way, authorized now, and the code of its challenge. *)
Definition stream_admitted (m : Manager) (fp : Fingerprint) (profile : Profile) (data : StreamInput) : Prop :=
  exists auth id t c, si_frame data = Some (Ok auth) /\ TransferId.from_bytes (da_transfer_id auth) = Some id /\
    mg_transfers m !! id = Some t /\ authorized m fp = true /\ tr_peer t = fp /\
    tr_state t = TransferState.Transferring /\ tr_profile t = profile /\ tr_challenge t = Some c /\
    da_mac auth = bn_bytes (compute_stream_mac profile c (mg_local m) fp id).

(** C2: nothing gets past the listener unproven.  If a connection becomes a
    session or a data stream, a TLS 1.3 handshake was completed in time by an
    end that signed it with the key of the fingerprint used from there on, and
    the protocol negotiated in it fixed the profile.  A session was then admitted
    for that key by the trust store or a pairing window, and delivers to a
    capability only what was negotiated in that admission; a data stream that is
    let in belongs to a transfer under way with that key, and one that is
    refused changes nothing. *)
Theorem connection_admitted identity cfg p now stalled transfers data loop (w : World S) h w' :
  server_config identity = Ok cfg ->
  handle_connection cfg p now stalled transfers data loop w = (Ok h, w') ->
  stalled = false /\
  exists c leaf rest fp profile, tls_accept cfg p now = Ok c /\ cs_peer_certificates c = Some (leaf :: rest) /\ proven c now leaf fp /\
  match h with
  | HSession est notices _ =>
      cs_alpn_protocol c = Some (Profile.control_alpn profile) /\ admission fp profile w est w' /\
      forall cap payload, NEffect (EffDeliver cap payload) ∈ notices -> cap ∈ es_negotiated_capabilities est
  | HData r m' =>
      cs_alpn_protocol c = Some (Profile.data_alpn profile) /\
      exists m, transfers = Some m /\ (r = Ok tt -> stream_admitted m fp profile data) /\ (r = Err ENotAuthorized -> m' = m)
  end.
Proof.
  intros Hcfg. unfold handle_connection. intros (c & w1 & Htls & Hrun)%bind_run. apply lift_run in Htls as [Htls <-].
  destruct stalled; [done|]. split; [done|]. destruct (tls_accept cfg p now) as [c'|] eqn:Hacc; [|done]. simpl in Htls. simplify_eq.
  destruct (accepted_peer_proven _ _ _ _ _ Hcfg Hacc) as [(leaf & rest & fp & Hcs & Hfp & Hpv) _].
  apply bind_run in Hrun as (fp' & w2 & Hl & Hrun). apply lift_run in Hl as [Hl <-]. rewrite Hfp in Hl. injection Hl as <-.
  destruct (negotiated_protocol c) as [q|] eqn:Hq; [|by inv_run].
  exists c, leaf, rest, fp, (np_profile q). split_and!; [done..|].
  assert (cs_alpn_protocol c = Some (alpn_of q)) as Halpn.
  { unfold negotiated_protocol in Hq. destruct (cs_alpn_protocol c); [|done]. simpl in Hq. by apply from_alpn_exact in Hq as ->. }
  unfold alpn_of in Halpn. destruct (np_kind q).
  - apply bind_run in Hrun as ([est st] & w3 & Hhs & Hrun). apply bind_run in Hrun as (reg & w4 & Hreg & Hrun).
    apply gets_run in Hreg as [-> <-].
    destruct (run_session _ _ _ _ _ _ _) as [notices ended] eqn:Hs. apply ret_run in Hrun as [<- <-].
    split_and!; [done|by eapply accept_handshake_admits|].
    intros cap payload Hin. assert (notices = (notices, ended).1) as E by done. rewrite E, <- Hs in Hin.
    apply run_session_delivers, run_loop_delivers in Hin. by destruct Hin as (? & ? & ? & ? & ? & ? & ? & ? & ? & ? & ? & _).
  - apply lift_run in Hrun as [Hd <-]. unfold handle_data_stream in Hd. destruct transfers as [m|]; [|done].
    destruct (accept_data_stream _ _ _ _ _ _) as [r m'] eqn:Hacc'. injection Hd as <-.
    apply accept_data_stream_run in Hacc' as [Hno Hok]. split; [done|]. exists m. split_and!; [done| |done].
    intros ->. destruct Hok as (auth & id & t & k & ? & ? & ? & ? & ? & ? & ? & ? & ? & _); [done|]. exists auth, id, t, k. done.
Qed.
End Admission.

(** * Runs *)

(** A host with both families whose IPv6 sockets also accept IPv4. *)
Definition demo_net (v6only : bool) (others : list Sock) (faults : list (option N)) : Net := {|
  nt_ipv4 := true; nt_ipv6 := true; nt_v6only := v6only; nt_others := others; nt_mine := []; nt_pick := 40001; nt_faults := faults |}.

Definition demo_bound : Bound := {|
  bd_listeners := [{| so_family := V6; so_port := 55432; so_v6only := false |}]; bd_port := 55432;
  bd_families := {| fa_ipv4 := true; fa_ipv6 := true |} |}.

Lemma advertises_what_it_serves_witness :
  exists n' l w, bind_endpoints (demo_net false [] []) 55432 = (Ok demo_bound, n') /\
  publish (lit "0a") (lit "desk") 55432 (bd_families demo_bound) [] = (true, l, w) /\
  (forall f, DisableInterface f ∉ l -> exists s, s ∈ bd_listeners demo_bound /\ accepts s f = true).
Proof.
  eexists _, _, _. split; [vm_compute; reflexivity|]. split; [reflexivity|].
  eapply (advertises_what_it_serves (demo_net false [] []) 55432 demo_bound _ (lit "0a") (lit "desk") []);
    [reflexivity|discriminate|vm_compute; reflexivity|discriminate|reflexivity].
Defined.

(** Two sockets where IPv6 sockets are IPv6 only; IPv4 alone where there is no
    IPv6; and nothing where another process has the port. *)
Example bound_each_way :
  (fun r => match r with Ok b => Some (map so_family (bd_listeners b), Families_fmt (bd_families b)) | Err _ => None end)
    <$> map (fun n => (bind_endpoints n 55432).1)
      [demo_net true [] []; demo_net false [] [Some 97]; demo_net false [{| so_family := V4; so_port := 55432; so_v6only := false |}] []]
  = [Some ([V6; V4], lit "IPv4+IPv6"); Some ([V4], lit "IPv4"); None].
Proof. vm_compute. reflexivity. Qed.

(** Another process holds the port for IPv4 and sockets are IPv6 only: the
    failed bind is taken for a dual-stack socket, and IPv4 is claimed though no
    socket accepts it. *)
Example claims_ipv4_without_serving :
  (fun r => match r with Ok b => Some (fa_ipv4 (bd_families b), existsb (fun s => accepts s V4) (bd_listeners b)) | Err _ => None end)
    (bind_endpoints (demo_net true [{| so_family := V4; so_port := 55432; so_v6only := false |}] []) 55432).1 = Some (true, false).
Proof. vm_compute. reflexivity. Qed.

(** Established sessions hold their slots too: with 32 of them a new connection
    is dropped, though no handshake is pending. *)
Example sessions_fill_the_slots :
  let s := turns Slots_new (flat_map (fun k => [Accepted 0; HandshakePolled (N.of_nat k) 1 (Some true)]) (seq 0 32)) in
  Forall (fun kv => kv.2 = Serving) (map_to_list (sl_tasks s)) /\ turn s (Accepted 2) = s.
Proof.
  split; [|vm_compute; reflexivity]. apply (bool_decide_unpack _). vm_compute. exact I.
Qed.
