(* ===== verification/Daemon.v ===== *)
(** The daemon's shared state.

    [runtime/src/state.rs], [runtime/src/renegotiate.rs] and the handlers of
    [runtime/src/server.rs] that change who is trusted ([do_unpair],
    [do_hide_revoked], [do_hide_all_revoked], [do_grant] with
    [enforce_revocation]).  [DaemonState] has a field per lock of the source; an
    operation runs under its locks and is one transition.  What it asks of other
    tasks (a session to shut down, transfers to cancel, notifications to take off
    the screen) is recorded in [dm_notices].  The daemon is the [SessionHost] of
    the handshakes, and the authorizer of the three capabilities. *)
From S2P Require Import Prelude External Ids Wire Framing Capability Pairing Policy Identity Store Replay Discovery Session.

Definition FILES : str := lit "files.v1".
Definition CLIPBOARD : str := lit "clipboard.v1".
Definition NOTIFICATIONS : str := lit "notifications.v1".

(** * [renegotiate.rs] *)

Inductive Decision := Withdrawn | NoSession | AlreadyNegotiated | AlreadyRequested | Reconnect.

#[export] Instance Decision_eq_dec : EqDecision Decision.
Proof. solve_decision. Defined.

Definition is_reconnect (d : Decision) : bool := match d with Reconnect => true | _ => false end.

Record LiveSession := { lv_id : N; lv_negotiated : list str }.

Definition decide_grant (granted : bool) (capability : str) (session : option LiveSession)
    (requested : option N) : Decision :=
  if negb granted then Withdrawn
  else
    match session with
    | None => NoSession
    | Some session =>
        if mem capability (lv_negotiated session) then AlreadyNegotiated
        else if eqb requested (Some (lv_id session)) then AlreadyRequested
        else Reconnect
    end.

Definition on_grant_changed (requested : gmap Fingerprint N) (peer : Fingerprint) (capability : str)
    (granted : bool) (session : option LiveSession) : Decision * gmap Fingerprint N :=
  let decision := decide_grant granted capability session (requested !! peer) in
  match decision, session with
  | Reconnect, Some session => (decision, <[peer := lv_id session]> requested)
  | _, _ => (decision, requested)
  end.

(** * [state.rs] *)

Record SessionHandle := {
  sh_id : N;
  sh_peer : Fingerprint;
  sh_profile : Profile;
  sh_device_id : str;
  sh_device_name : str;
  sh_negotiated : list str;
  sh_started : N;            (** on the monotonic clock *)
  sh_last_inbound_ms : N     (** since then *)
}.

Inductive Notice :=
| ShutdownSession (session_id : N)
| CancelTransfers (peer : Fingerprint)
| ClipboardPolicyChanged
| NotificationsRevoked (peer : Fingerprint).

(** [dm_now] is the monotonic clock and [dm_unix] the wall clock in seconds, as
    the operation finds them; [dm_operator] says whether a [pliwee pair] control
    session is attached. *)
Record DaemonState (D H : Type) := {
  dm_store : Store;
  dm_disk : D;
  dm_registry : CapabilityRegistry H;
  dm_pairing : option PairingSession;
  dm_operator : bool;
  dm_sessions : gmap Fingerprint SessionHandle;
  dm_requested : gmap Fingerprint N;
  dm_last_seen : gmap Fingerprint Z;
  dm_device_info : DeviceInfo;
  dm_now : N;
  dm_unix : Z;
  dm_notices : list Notice
}.
Arguments dm_store {_ _}. Arguments dm_disk {_ _}. Arguments dm_registry {_ _}.
Arguments dm_pairing {_ _}. Arguments dm_operator {_ _}. Arguments dm_sessions {_ _}.
Arguments dm_requested {_ _}. Arguments dm_last_seen {_ _}. Arguments dm_device_info {_ _}.
Arguments dm_now {_ _}. Arguments dm_unix {_ _}. Arguments dm_notices {_ _}.

Section Daemon.
Context {D H : Type} `{SS : !SecretStore D, B64 : !Base64Codec, JS : !Json StateFile,
  HC : !HexCodec, B32 : !Base32Codec, CR : !Crypto}.

Abbreviation State := (DaemonState D H).

Definition set_store (s : State) (st : Store) (d : D) : State := {|
  dm_store := st; dm_disk := d; dm_registry := dm_registry s; dm_pairing := dm_pairing s;
  dm_operator := dm_operator s; dm_sessions := dm_sessions s; dm_requested := dm_requested s;
  dm_last_seen := dm_last_seen s; dm_device_info := dm_device_info s; dm_now := dm_now s;
  dm_unix := dm_unix s; dm_notices := dm_notices s |}.

Definition set_pairing (s : State) (p : option PairingSession) (operator : bool) : State := {|
  dm_store := dm_store s; dm_disk := dm_disk s; dm_registry := dm_registry s; dm_pairing := p;
  dm_operator := operator; dm_sessions := dm_sessions s; dm_requested := dm_requested s;
  dm_last_seen := dm_last_seen s; dm_device_info := dm_device_info s; dm_now := dm_now s;
  dm_unix := dm_unix s; dm_notices := dm_notices s |}.

Definition set_sessions (s : State) (m : gmap Fingerprint SessionHandle) (seen : gmap Fingerprint Z) : State := {|
  dm_store := dm_store s; dm_disk := dm_disk s; dm_registry := dm_registry s; dm_pairing := dm_pairing s;
  dm_operator := dm_operator s; dm_sessions := m; dm_requested := dm_requested s;
  dm_last_seen := seen; dm_device_info := dm_device_info s; dm_now := dm_now s;
  dm_unix := dm_unix s; dm_notices := dm_notices s |}.

Definition set_requested (s : State) (m : gmap Fingerprint N) : State := {|
  dm_store := dm_store s; dm_disk := dm_disk s; dm_registry := dm_registry s; dm_pairing := dm_pairing s;
  dm_operator := dm_operator s; dm_sessions := dm_sessions s; dm_requested := m;
  dm_last_seen := dm_last_seen s; dm_device_info := dm_device_info s; dm_now := dm_now s;
  dm_unix := dm_unix s; dm_notices := dm_notices s |}.

Definition notice (s : State) (n : Notice) : State := {|
  dm_store := dm_store s; dm_disk := dm_disk s; dm_registry := dm_registry s; dm_pairing := dm_pairing s;
  dm_operator := dm_operator s; dm_sessions := dm_sessions s; dm_requested := dm_requested s;
  dm_last_seen := dm_last_seen s; dm_device_info := dm_device_info s; dm_now := dm_now s;
  dm_unix := dm_unix s; dm_notices := dm_notices s ++ [n] |}.

(** ** Pairing windows *)

Definition begin_pairing (s : State) (rng : option PairingToken) (ttl : N) : Result str * State :=
  match PairingSession_new rng (dm_now s) ttl with
  | Err e => (Err e, s)
  | Ok session => (Ok (to_base32 (ps_token session)), set_pairing s (Some session) true)
  end.

Definition end_pairing (s : State) : State := set_pairing s None false.

Definition pairing_remaining (s : State) : option N :=
  match dm_pairing s with
  | Some p => if negb (is_exhausted p (dm_now s)) then Some (remaining p (dm_now s)) else None
  | None => None
  end.

(** ** Sessions *)

Definition clear_renegotiation (s : State) (peer : Fingerprint) : State :=
  set_requested s (delete peer (dm_requested s)).

Definition register_session (s : State) (handle : SessionHandle) : State :=
  let s1 := clear_renegotiation s (sh_peer handle) in
  let displaced := dm_sessions s1 !! sh_peer handle in
  let s2 := set_sessions s1 (<[sh_peer handle := handle]> (dm_sessions s1)) (dm_last_seen s1) in
  match displaced with
  | Some old => notice s2 (ShutdownSession (sh_id old))
  | None => s2
  end.

Definition unregister_session (s : State) (peer : Fingerprint) (session_id : N) : State :=
  match dm_sessions s !! peer with
  | Some h =>
      if sh_id h =? session_id
      then set_sessions s (delete peer (dm_sessions s)) (<[peer := dm_unix s]> (dm_last_seen s))
      else s
  | None => s
  end.

Definition drop_session (s : State) (peer : Fingerprint) : State :=
  match dm_sessions s !! peer with
  | Some _ => set_sessions s (delete peer (dm_sessions s)) (<[peer := dm_unix s]> (dm_last_seen s))
  | None => s
  end.

Definition session_for (s : State) (peer : Fingerprint) : option SessionHandle := dm_sessions s !! peer.

Definition renegotiate_after_grant (s : State) (peer : Fingerprint) (capability : str) (granted : bool)
    : Decision * State :=
  let handle := session_for s peer in
  let session := (fun h => {| lv_id := sh_id h; lv_negotiated := sh_negotiated h |}) <$> handle in
  let '(decision, requested) := on_grant_changed (dm_requested s) peer capability granted session in
  let s1 := set_requested s requested in
  match is_reconnect decision, handle with
  | true, Some h => (decision, notice s1 (ShutdownSession (sh_id h)))
  | _, _ => (decision, s1)
  end.

(** ** Selectors *)

Definition resolve_device (s : State) (selector : str) : option Fingerprint :=
  let needle := map ascii_lower (trim selector) in
  let by_id := if negb (eqb needle [])
               then find_b (fun p => eqb (tp_device_id p) needle) (listed_peers (dm_store s))
               else None in
  match by_id with
  | Some p => Some (tp_fingerprint p)
  | None =>
      if str_len needle <? 8 then None
      else
        match filter (fun p => starts_with needle (to_hex (tp_fingerprint p)) = true)
                (listed_peers (dm_store s)) with
        | [one] => Some (tp_fingerprint one)
        | _ => None
        end
  end.

(** ** Authorizers *)

Definition is_authorized (s : State) (peer : Fingerprint) : bool :=
  match trusted_peer (dm_store s) peer with
  | Some p => allows p FILES
  | None => false
  end.

Definition clipboard_policy_for (s : State) (peer : Fingerprint) : ClipboardPolicy.t :=
  match trusted_peer (dm_store s) peer with
  | Some p => if allows p CLIPBOARD then tp_clipboard_policy p else ClipboardPolicy.DENIED
  | None => ClipboardPolicy.DENIED
  end.

Definition auto_send_peers (s : State) : list Fingerprint :=
  map tp_fingerprint
    (filter (fun p => ClipboardPolicy.may_auto_send (tp_clipboard_policy p) = true)
       (filter (fun p => allows p CLIPBOARD = true) (peers (dm_store s)))).

Definition notification_policy_for (s : State) (peer : Fingerprint) : NotificationPolicy.t :=
  match trusted_peer (dm_store s) peer with
  | Some p => if allows p NOTIFICATIONS then tp_notification_policy p else NotificationPolicy.DENIED
  | None => NotificationPolicy.DENIED
  end.

(** ** The session host *)

Definition daemon_lookup_peer (s : State) (fp : Fingerprint) : PeerStatus.t :=
  match peer_record (dm_store s) fp with
  | None => PeerStatus.Unknown
  | Some p =>
      if tp_revoked p then PeerStatus.Revoked
      else PeerStatus.Trusted (tp_device_id p) (tp_device_name p)
             (map fst (filter (fun kv => kv.2 = true) (bt_items (tp_granted_capabilities p))))
  end.

Definition daemon_pairing_active (s : State) : bool :=
  let has_operator := dm_operator s in
  let window_open := match dm_pairing s with Some p => negb (is_exhausted p (dm_now s)) | None => false end in
  has_operator && window_open.

Definition daemon_verify_proof (s : State) (profile : Profile) (initiator : Fingerprint) (nonce proof : bytes)
    : result PairingError (bytesn 32) * State :=
  match from_hex (di_identity_fingerprint (dm_device_info s)) with
  | Err _ => (Err BadProof, s)
  | Ok responder =>
      match dm_pairing s with
      | None => (Err NotInPairingMode, s)
      | Some session =>
          let '(result, session') := verify_and_consume session (dm_now s) profile responder initiator nonce proof in
          (result, set_pairing s (if is_exhausted session' (dm_now s) then None else Some session') (dm_operator s))
      end
  end.

(** The record of a fresh pairing. *)
Definition new_peer (s : State) (device : DeviceInfo) (fp : Fingerprint) (caps : list str) (v : N) : TrustedPeer := {|
  tp_device_id := di_device_id device;
  tp_device_name := sanitize_device_name (di_device_name device);
  tp_platform := di_platform device;
  tp_fingerprint := fp;
  tp_paired_at_unix := dm_unix s;
  tp_granted_capabilities :=
    collect_map (map (fun c => (c, mem c (set_auto_grant (st_settings (dm_store s))))) caps);
  tp_last_protocol_version := v;
  tp_revoked := false;
  tp_hidden := false;
  tp_clipboard_policy := ClipboardPolicy.default;
  tp_notification_policy := NotificationPolicy.default |}.

Definition daemon_store_peer (s : State) (device : DeviceInfo) (fp : Fingerprint) (caps : list str) (v : N)
    : Result unit * State :=
  let '(r, st, d) := add_peer (dm_store s) (dm_disk s) (new_peer s device fp caps v) in
  (r, set_store s st d).

#[export] Instance daemon_host : SessionHost State H := {|
  local_device_info := dm_device_info;
  registry := dm_registry;
  lookup_peer := daemon_lookup_peer;
  pairing_mode_active := daemon_pairing_active;
  verify_pairing_proof := daemon_verify_proof;
  confirm_pairing s device fp answer := if dm_operator s then answer else false;
  store_peer := daemon_store_peer |}.

(** * [server.rs] *)

Inductive Response := ROk | RError (message : string).

Definition enforce_revocation (s : State) (fp : Fingerprint) : State :=
  let s1 := notice s (CancelTransfers fp) in
  let s2 := match session_for s1 fp with Some h => notice s1 (ShutdownSession (sh_id h)) | None => s1 end in
  let s3 := drop_session s2 fp in
  let s4 := clear_renegotiation s3 fp in
  notice (notice s4 ClipboardPolicyChanged) (NotificationsRevoked fp).

Definition do_unpair (s : State) (device : str) : Response * State :=
  match resolve_device s device with
  | None => (RError "no device", s)
  | Some fp =>
      let '(r, st, d) := revoke_peer (dm_store s) (dm_disk s) fp in
      let s1 := set_store s st d in
      match r with
      | Ok true => (ROk, enforce_revocation s1 fp)
      | Ok false => (RError "no such device", s1)
      | Err _ => (RError "failed to persist revocation", s1)
      end
  end.

Definition do_hide_revoked (s : State) (fingerprint : str) : Response * State :=
  match from_hex (trim fingerprint) with
  | Err _ => (RError "that is not a device fingerprint", s)
  | Ok fp =>
      let '(r, st, d) := hide_revoked_peer (dm_store s) (dm_disk s) fp in
      let s1 := set_store s st d in
      match r with
      | Ok Hidden => (ROk, enforce_revocation s1 fp)
      | Ok AlreadyHidden => (ROk, s1)
      | Ok NotRevoked => (RError "that device is still paired", s1)
      | Ok NotFound => (RError "no such device", s1)
      | Err _ => (RError "failed to persist the change", s1)
      end
  end.

Definition do_hide_all_revoked (s : State) : Response * State :=
  let '(r, st, d) := hide_all_revoked_peers (dm_store s) (dm_disk s) in
  let s1 := set_store s st d in
  match r with
  | Ok fps => (ROk, foldl enforce_revocation s1 fps)
  | Err _ => (RError "failed to persist the change", s1)
  end.

Definition do_grant (s : State) (device capability : str) (granted : bool) : Response * State :=
  match resolve_device s device with
  | None => (RError "no device", s)
  | Some fp =>
      if negb (supports (dm_registry s) capability) then (RError "this daemon does not implement it", s)
      else
        match trusted_peer (dm_store s) fp with
        | None => (RError "that device is not paired (or its pairing was revoked)", s)
        | Some _ =>
            let '(r, st, d) := set_capability_grant (dm_store s) (dm_disk s) fp capability granted in
            let s1 := set_store s st d in
            match r with
            | Err _ => (RError "could not persist the grant", s1)
            | Ok _ =>
                let s2 := if negb granted && eqb capability FILES then notice s1 (CancelTransfers fp) else s1 in
                let s3 := if eqb capability CLIPBOARD then notice s2 ClipboardPolicyChanged else s2 in
                let s4 := if negb granted && eqb capability NOTIFICATIONS
                          then notice s3 (NotificationsRevoked fp) else s3 in
                let '(_, s5) := renegotiate_after_grant s4 fp capability granted in
                (ROk, s5)
            end
        end
  end.

End Daemon.
