(* ===== verification/DaemonFacts.v ===== *)
(** What the daemon guarantees about its devices.

    Revocation seen from every door (the handshake, the authorizers, the live
    session, the reconnect bookkeeping), the pairing window as the daemon uses it,
    what a fresh pairing is allowed, and which device a selector names. *)
From S2P Require Import Prelude External Ids Wire Framing Capability Pairing Policy Identity Store UnixFs StoreFacts Replay Discovery Session SessionFacts SessionLoop Daemon.

Section Facts.
Context {D H : Type} `{SS : !SecretStore D, IB : !IdentityBackend, B64 : !Base64Codec, JS : !Json StateFile,
  HC : !HexCodec, B32 : !Base32Codec, CR : !Crypto, PR : !Prost Envelope}.
Abbreviation State := (DaemonState D H).

(** ** Revoked devices *)

(** The key is on record as revoked, and no pairing window is open. *)
Definition shut_out (fp : Fingerprint) (s : State) : Prop :=
  revoked_in (st_peers (dm_store s)) fp /\ daemon_pairing_active s = false.

Lemma revoked_lookup (s : State) fp : revoked_in (st_peers (dm_store s)) fp -> daemon_lookup_peer s fp = PeerStatus.Revoked.
Proof.
  intros (p & Hp & Hr). unfold daemon_lookup_peer, peer_record. by rewrite Hp, Hr.
Qed.

(** C3: a revoked device with no pairing window open is not let in, whatever it
    sends, as long as whatever else runs during its handshake neither pairs it
    again nor opens a window. *)
Theorem revoked_device_rejected fp profile (w : World State) r w' :
  shut_out fp (w_host w) ->
  Forall (fun g => forall s, shut_out fp s -> shut_out fp (g s)) (w_others w) ->
  accept_handshake fp profile w = (r, w') -> is_ok r = false.
Proof.
  intros Hs Ho Hrun. destruct r as [x|e]; [|done]. exfalso.
  eapply (accept_handshake_shut_out (shut_out fp)); [|by split|exact Hrun].
  intros h [Hr Ha]. split; [by apply revoked_lookup|done].
Qed.

(** A revoked device has no permission anywhere: the file authorizer says
    no, its clipboard and notification policies are the denied ones whatever its
    record says, it is not a target of automatic clipboard pushes, and the
    handshake is told it is revoked. *)
Theorem revoked_device_denied (s : State) fp :
  peers_ok (st_peers (dm_store s)) -> revoked_in (st_peers (dm_store s)) fp ->
  is_authorized s fp = false /\ clipboard_policy_for s fp = ClipboardPolicy.DENIED /\
  notification_policy_for s fp = NotificationPolicy.DENIED /\
  fp ∉ auto_send_peers s /\ daemon_lookup_peer s fp = PeerStatus.Revoked.
Proof.
  intros Hm Hrev. pose proof (revoked_lookup _ _ Hrev) as Hl. destruct Hrev as (p & Hp & Hr).
  unfold is_authorized, clipboard_policy_for, notification_policy_for, trusted_peer. rewrite Hp, Hr.
  split_and!; try done. unfold auto_send_peers, peers.
  rewrite list_elem_of_In, in_map_iff. intros (q & Hq & Hin). rewrite <- list_elem_of_In in Hin.
  apply list_elem_of_filter in Hin as [_ Hin]. apply list_elem_of_filter in Hin as [Hal Hin].
  apply elem_of_bt_values in Hin as [k Hk]. destruct (Hm _ _ Hk) as [Hfp _].
  assert (k = fp) as -> by congruence. assert (q = p) as -> by congruence.
  unfold allows in Hal. by rewrite Hr in Hal.
Qed.

(** What [enforce_revocation] leaves. *)
Lemma enforce_revocation_spec (s : State) fp :
  session_for (enforce_revocation s fp) fp = None /\
  dm_requested (enforce_revocation s fp) !! fp = None /\
  dm_store (enforce_revocation s fp) = dm_store s /\
  dm_disk (enforce_revocation s fp) = dm_disk s /\
  (forall k, k <> fp -> session_for (enforce_revocation s fp) k = session_for s k) /\
  dm_notices (enforce_revocation s fp) = dm_notices s ++ CancelTransfers fp ::
    match session_for s fp with Some h => [ShutdownSession (sh_id h)] | None => [] end ++
    [ClipboardPolicyChanged; NotificationsRevoked fp].
Proof.
  unfold enforce_revocation, drop_session, session_for, clear_renegotiation. simpl.
  destruct (dm_sessions s !! fp) as [h|] eqn:Hh; simpl; rewrite ?Hh; simpl; rewrite lookup_delete_eq.
  - rewrite lookup_delete_eq. split_and!; try done.
    + intros k Hk. by rewrite lookup_delete_ne.
    + by rewrite <- !app_assoc.
  - split_and!; try done. by rewrite <- !app_assoc.
Qed.

(** Unpairing takes effect now.  If [do_unpair] answers yes, the device it
    resolved is revoked in the store, has no registered session and no pending
    reconnect; its live session was told to shut down, its transfers to stop and
    its notifications to leave the screen; and no other device's session was
    touched. *)
Theorem unpair_takes_effect (s : State) device s' :
  peers_ok (st_peers (dm_store s)) -> do_unpair s device = (ROk, s') ->
  exists fp, resolve_device s device = Some fp /\
    revoked_in (st_peers (dm_store s')) fp /\
    session_for s' fp = None /\ dm_requested s' !! fp = None /\
    CancelTransfers fp ∈ dm_notices s' /\ NotificationsRevoked fp ∈ dm_notices s' /\
    (forall h, session_for s fp = Some h -> ShutdownSession (sh_id h) ∈ dm_notices s') /\
    (forall k, k <> fp -> session_for s' k = session_for s k).
Proof.
  intros Hm. unfold do_unpair. destruct (resolve_device s device) as [fp|]; [|done].
  destruct (revoke_peer (dm_store s) (dm_disk s) fp) as [[r st] d] eqn:Hr.
  destruct r as [[]|]; [|done..]. intros [= <-]. exists fp.
  set (s1 := set_store s st d).
  destruct (enforce_revocation_spec s1 fp) as (H1 & H2 & H3 & _ & H5 & H6).
  rewrite H6. split_and!; try done.
  - rewrite H3. simpl. unfold revoke_peer in Hr. destruct (st_peers (dm_store s) !! fp) as [p|] eqn:Hp; [|done].
    destruct (persist _ _) as [[[]|] d'] eqn:Hw; simplify_eq. exists (revoke p). simpl.
    by rewrite lookup_insert_eq.
  - set_solver.
  - set_solver.
  - intros h Hh. assert (session_for s1 fp = Some h) as -> by done. set_solver.
Qed.

(** ** Sessions *)

(** A superseded session's late close does not evict its replacement.  When
    a device reconnects, its older session is told to shut down, the newer one is
    the registered one, and it stays so through the older one's close, which
    does not even mark the device as seen. *)
Theorem late_close_keeps_session (s : State) old new :
  sh_peer new = sh_peer old -> sh_id new <> sh_id old ->
  session_for s (sh_peer old) = Some old ->
  let s1 := register_session s new in
  ShutdownSession (sh_id old) ∈ dm_notices s1 /\
  session_for (unregister_session s1 (sh_peer old) (sh_id old)) (sh_peer old) = Some new /\
  unregister_session s1 (sh_peer old) (sh_id old) = s1 /\
  session_for (unregister_session s1 (sh_peer new) (sh_id new)) (sh_peer old) = None.
Proof.
  intros Hpeer Hid Hold s1. unfold session_for in *.
  assert (Hs1 : dm_sessions s1 !! sh_peer old = Some new).
  { unfold s1, register_session, clear_renegotiation. simpl. rewrite Hpeer, Hold. simpl. by rewrite lookup_insert_eq. }
  assert (Hun : unregister_session s1 (sh_peer old) (sh_id old) = s1).
  { unfold unregister_session. rewrite Hs1. by rewrite (proj2 (N.eqb_neq _ _) Hid). }
  split_and!.
  - unfold s1, register_session, clear_renegotiation. simpl. rewrite Hpeer, Hold. simpl. set_solver.
  - by rewrite Hun.
  - done.
  - rewrite Hpeer. unfold unregister_session. rewrite Hs1, N.eqb_refl. simpl. by rewrite lookup_delete_eq.
Qed.

(** Any sequence of grant changes for one peer, judged against one session. *)
Fixpoint grant_changes (requested : gmap Fingerprint N) (peer : Fingerprint) (session : LiveSession)
    (l : list (str * bool)) : list Decision * gmap Fingerprint N :=
  match l with
  | [] => ([], requested)
  | (c, g) :: l' =>
      let '(d, requested') := on_grant_changed requested peer c g (Some session) in
      let '(ds, r) := grant_changes requested' peer session l' in (d :: ds, r)
  end.

Lemma grant_changes_requested m peer session l :
  m !! peer = Some (lv_id session) -> Forall (fun d => d <> Reconnect) (grant_changes m peer session l).1.
Proof.
  intros Hm. induction l as [|[c g] l IH]; simpl; [constructor|].
  unfold on_grant_changed, decide_grant. rewrite Hm, eqb_refl.
  destruct g; simpl; [destruct (mem c _); simpl|];
    destruct (grant_changes m peer session l); simpl in *; by constructor.
Qed.

(** Reconnects are bounded.  Whatever grants are flipped, in whatever
    order and however often, one session is asked to reconnect at most once, and
    only for a grant it did not negotiate. *)
Theorem one_reconnect_per_session m peer session l :
  (count is_reconnect (grant_changes m peer session l).1 <= 1) /\
  (forall i c g, l !! i = Some (c, g) -> (grant_changes m peer session l).1 !! i = Some Reconnect ->
     g = true /\ c ∉ lv_negotiated session).
Proof.
  split.
  - revert m. induction l as [|[c g] l IH]; intros m; simpl.
    { rewrite count_none by constructor. lia. }
    destruct (on_grant_changed m peer c g (Some session)) as [d m'] eqn:Hd.
    destruct (is_reconnect d) eqn:Hr.
    + assert (Hm' : m' !! peer = Some (lv_id session)).
      { unfold on_grant_changed in Hd. destruct (decide_grant _ _ _ _); simplify_eq; try done.
        by rewrite lookup_insert_eq. }
      pose proof (grant_changes_requested m' peer session l Hm') as Hf.
      destruct (grant_changes m' peer session l) as [ds r]. simpl in *. rewrite count_cons, Hr.
      rewrite count_none; [lia|]. eapply Forall_impl; [exact Hf|]. by intros [].
    + specialize (IH m'). destruct (grant_changes m' peer session l) as [ds r]. simpl in *.
      rewrite count_cons, Hr. lia.
  - revert m. induction l as [|[c' g'] l IH]; intros m i c g; simpl; [done|].
    destruct (on_grant_changed m peer c' g' (Some session)) as [d m'] eqn:Hd.
    specialize (IH m'). destruct (grant_changes m' peer session l) as [ds r]. simpl in *.
    destruct i as [|i]; simpl; [|by apply IH]. intros [= -> ->] [= ->].
    unfold on_grant_changed, decide_grant in Hd. destruct g; simpl in Hd; [|by simplify_eq].
    destruct (mem c _) eqn:Hmem; simpl in Hd; [by simplify_eq|]. split; [done|]. by apply mem_false.
Qed.
(** ** Pairing *)

(** What a fresh pairing is allowed.  After [store_peer] succeeds the
    device is trusted under exactly the key of its connection, visible and
    unrevoked; it is allowed a capability only if that was negotiated and is one
    this desktop grants by itself; its policies are the defaults, in which
    nothing is automatic; and nothing of an earlier record under the same key
    (a tombstone, old grants) has survived. *)
Theorem fresh_pairing_is_minimal (s : State) device fp caps v s' :
  daemon_store_peer s device fp caps v = (Ok tt, s') ->
  exists p, trusted_peer (dm_store s') fp = Some p /\ tp_fingerprint p = fp /\
    tp_hidden p = false /\ tp_device_name p = sanitize_device_name (di_device_name device) /\
    (forall c, allows p c = true <-> c ∈ caps /\ c ∈ set_auto_grant (st_settings (dm_store s))) /\
    ClipboardPolicy.may_auto_send (tp_clipboard_policy p) = false /\
    ClipboardPolicy.may_auto_receive (tp_clipboard_policy p) = false /\
    NotificationPolicy.may_sync_dismissals (tp_notification_policy p) = false.
Proof.
  unfold daemon_store_peer, add_peer, persisting.
  destruct (persist _ _) as [r d] eqn:Hp. intros [= -> <-]. simpl.
  exists (new_peer s device fp caps v). unfold trusted_peer. simpl. rewrite lookup_insert_eq. simpl.
  split_and!; try done. intros c. unfold allows. simpl.
  set (auto := set_auto_grant (st_settings (dm_store s))). clearbody auto. clear Hp.
  induction caps as [|x l IH] using rev_ind; [simpl; split; [done|set_solver]|].
  rewrite map_app. simpl. rewrite collect_map_snoc.
  destruct (decide (x = c)) as [->|Hne].
  - rewrite lookup_insert_eq. simpl. rewrite mem_true. set_solver.
  - rewrite lookup_insert_ne by done. rewrite IH. set_solver.
Qed.

(** A window opens one door once.  When the daemon accepts a proof, the
    proof was the MAC of the window's token over this device's key, the peer's
    key and the nonce of its connection; the window is gone with its token, no
    pairing mode is reported, and any further proof, from anyone, is refused. *)
Theorem daemon_window_single_use (s : State) profile fp nonce proof conf s' :
  daemon_verify_proof s profile fp nonce proof = (Ok conf, s') ->
  (exists responder session, from_hex (di_identity_fingerprint (dm_device_info s)) = Ok responder /\
     dm_pairing s = Some session /\ is_expired session (dm_now s) = false /\
     proof = bn_bytes (compute_proof profile (ps_token session) responder fp nonce) /\
     conf = compute_confirmation profile (ps_token session) responder fp nonce) /\
  dm_pairing s' = None /\ daemon_pairing_active s' = false /\
  forall profile' fp' nonce' proof',
    is_ok (daemon_verify_proof s' profile' fp' nonce' proof').1 = false.
Proof.
  unfold daemon_verify_proof at 1.
  destruct (from_hex _) as [responder|] eqn:Hr; [|done].
  destruct (dm_pairing s) as [session|] eqn:Hp; [|done].
  destruct (verify_and_consume _ _ _ _ _ _ _) as [res session'] eqn:Hv. intros [= -> <-].
  apply verify_and_consume_cases in Hv as [(_ & _ & [?|[?|?]])|[(_ & ? & _)|(Hex & -> & [= ->] & Hc)]];
    try done.
  assert (Hex' : is_exhausted session' (dm_now s) = true) by (unfold is_exhausted; by rewrite Hc).
  rewrite Hex'. split_and!; try done.
  - exists responder, session. unfold is_exhausted in Hex. rewrite !orb_false_iff in Hex.
    split_and!; try done. by destruct Hex as [[_ ?] _].
  - unfold daemon_pairing_active. simpl. by rewrite andb_false_r.
  - intros. unfold daemon_verify_proof. simpl. by rewrite Hr.
Qed.

(** ** Selectors *)

(** A selector names a device a person can see, or nothing.  What
    [resolve_device] answers is the key of a listed record (never a tombstone),
    and the selector was either its exact device id or at least eight characters
    of its fingerprint that no other listed device shares. *)
Theorem resolve_device_sound (s : State) selector fp :
  peers_ok (st_peers (dm_store s)) -> resolve_device s selector = Some fp ->
  let needle := map ascii_lower (trim selector) in
  exists p, peer_record (dm_store s) fp = Some p /\ tp_hidden p = false /\ needle <> [] /\
    (tp_device_id p = needle \/
     (8 <= str_len needle /\ needle `prefix_of` to_hex fp /\
      forall q, q ∈ listed_peers (dm_store s) -> needle `prefix_of` to_hex (tp_fingerprint q) -> q = p)).
Proof.
  intros Hm Hres needle. unfold resolve_device in Hres. fold needle in Hres.
  assert (Hlisted : forall p, p ∈ listed_peers (dm_store s) ->
    peer_record (dm_store s) (tp_fingerprint p) = Some p /\ tp_hidden p = false).
  { intros p Hp. unfold listed_peers in Hp. apply list_elem_of_filter in Hp as [Hl Hin].
    apply elem_of_bt_values in Hin as [k Hk]. destruct (Hm _ _ Hk) as [-> _].
    split; [done|]. unfold is_listed in Hl. by apply negb_true_iff. }
  destruct (if negb (eqb needle []) then _ else None) as [p|] eqn:Hid.
  - destruct (eqb needle []) eqn:Hne; simpl in Hid; [done|]. apply eqb_neq in Hne.
    apply find_b_some in Hid as [Hin Heq]. apply eqb_eq in Heq. injection Hres as <-.
    destruct (Hlisted _ Hin). exists p. auto.
  - destruct (N.ltb_spec (str_len needle) 8) as [|H8]; [done|].
    assert (Hne : needle <> []) by (intros ->; by vm_compute in H8).
    destruct (filter _ _) as [|one [|two l]] eqn:Hf; [done| |done]. injection Hres as <-.
    assert (Hone : one ∈ [one]) by set_solver. rewrite <- Hf in Hone.
    apply list_elem_of_filter in Hone as [Hpre Hin]. destruct (Hlisted _ Hin) as [? ?].
    exists one. split_and!; try done. right. split_and!; [done|by apply starts_with_prefix|].
    intros q Hq Hpq. apply list_elem_of_singleton. rewrite <- Hf. apply list_elem_of_filter.
    split; [by apply starts_with_prefix|done].
Qed.
End Facts.

(** * Runs *)

Section Runs.
#[local] Existing Instances std_hex letters32 letters64 toy_crypto envelope_codec run_json
  whole_certificate toy_keys.

Definition phone_fp : Fingerprint := pad_array [x08].
Definition phone_info : DeviceInfo := {|
  di_device_id := lit "0b"; di_device_name := lit "tablet"; di_platform := 1;
  di_identity_fingerprint := to_hex phone_fp |}.

(** A desktop with one paired device; a window opened at time zero, or none. *)
Definition demo_window : PairingSession := {|
  ps_token := demo_token; ps_opened_at := 0; ps_ttl := DEFAULT_TOKEN_TTL;
  ps_failed_attempts := 0; ps_consumed := false |}.

Definition demo_daemon (window : option PairingSession) : DaemonState Fs unit := {|
  dm_store := demo_store; dm_disk := demo_disk; dm_registry := {[ lit "battery.v1" := tt ]};
  dm_pairing := window; dm_operator := true; dm_sessions := ∅; dm_requested := ∅; dm_last_seen := ∅;
  dm_device_info := device_info (st_identity demo_store); dm_now := from_secs 5; dm_unix := 7;
  dm_notices := [] |}.

Definition envelope_of (id : byte) (seq : N) (b : Body) : Envelope := {|
  e_protocol_version := 1; e_message_id := replicate 16 id; e_sequence := seq;
  e_timestamp_unix_ms := 0; e_correlation_id := []; e_body := Some b |}.

Definition hello_of (info : DeviceInfo) : Envelope := envelope_of x01 1 (BHello {|
  h_device := Some info; h_min_protocol_version := 1; h_max_protocol_version := 3;
  h_capabilities := [lit "battery.v1"; lit "files.v1"] |}).

Definition demo_nonce : bytesn 32 := pad_array [x2a].
Definition desktop_fp : Fingerprint := id_fingerprint (st_identity demo_store).
Definition request_of (fp : Fingerprint) : Envelope := envelope_of x02 2 (BPairRequest {|
  pr_proof := bn_bytes (compute_proof Profile.Pliwee demo_token desktop_fp fp (bn_bytes demo_nonce)) |}).

Definition wire (l : list Envelope) : Reader :=
  {| rd_bytes := l ≫= (fun e => frame_of (encode_to_vec e)); rd_end := UnexpectedEof |}.

Definition demo_world (s : DaemonState Fs unit) (l : list Envelope) : World (DaemonState Fs unit) := {|
  w_host := s; w_in := wire l; w_out := {| wr_bytes := []; wr_room := None |}; w_timeouts := [];
  w_ids := [(replicate 16 x0a, 0%Z); (replicate 16 x0b, 0%Z)]; w_nonces := [Some demo_nonce];
  w_human := [Some true]; w_others := []; w_log := [] |}.

(** An unknown phone with the token of the window on screen. *)
Definition pairing_run :=
  accept_handshake phone_fp Profile.Pliwee
    (demo_world (demo_daemon (Some demo_window)) [hello_of phone_info; request_of phone_fp]).

Lemma ok_run {E A B} (x : result E A * B) : is_ok x.1 = true -> exists a b, x = (Ok a, b).
Proof. destruct x as [[a|] b]; [eauto|done]. Defined.

Lemma accept_handshake_safe_witness : exists est w',
  admission phone_fp Profile.Pliwee
    (demo_world (demo_daemon (Some demo_window)) [hello_of phone_info; request_of phone_fp]) est w'.
Proof.
  destruct (ok_run pairing_run) as ([est st] & w' & Hrun); [vm_compute; reflexivity|].
  exists est, w'. exact (accept_handshake_safe _ _ _ est st w' Hrun).
Defined.

(** The same phone as the initiator, against the frames the desktop sent. *)
Definition desktop_info : DeviceInfo := device_info (st_identity demo_store).
Definition ack_of (status : HelloStatus) : Envelope :=
  envelope_of x05 1 (ack desktop_info status 1 [lit "battery.v1"] (bn_bytes demo_nonce)).
Definition response_of : Envelope := envelope_of x06 2 (pair_response PsAccepted
  (bn_bytes (compute_confirmation Profile.Pliwee demo_token desktop_fp phone_fp (bn_bytes demo_nonce)))).

Definition phone_host : DaemonState Fs unit := {|
  dm_store := demo_store; dm_disk := demo_disk; dm_registry := {[ lit "battery.v1" := tt ]};
  dm_pairing := None; dm_operator := false; dm_sessions := ∅; dm_requested := ∅; dm_last_seen := ∅;
  dm_device_info := phone_info; dm_now := 0; dm_unix := 0; dm_notices := [] |}.

Lemma connect_handshake_safe_witness : exists est,
  es_peer est = desktop_fp /\ version_ok (es_protocol_version est) = true.
Proof.
  destruct (ok_run (connect_handshake desktop_fp Profile.Pliwee (Some demo_token)
    (demo_world phone_host [ack_of HsPairingRequired; response_of]))) as ([est st|] & w' & Hrun);
    [vm_compute; reflexivity| |].
  - destruct (connect_handshake_safe _ _ _ _ est st w' Hrun) as (Hp & _ & Hv & _). exact (ex_intro _ est (conj Hp Hv)).
  - exfalso. apply (f_equal (fun r => match r.1 with Ok ChPairingRequired => true | _ => false end)) in Hrun.
    vm_compute in Hrun. congruence.
Defined.

(** The daemon with its one device revoked. *)
Definition revoked_daemon : DaemonState Fs unit :=
  set_store (demo_daemon None) after_revoke.1.2 after_revoke.2.

Lemma revoked_daemon_ok : peers_ok (st_peers (dm_store revoked_daemon)).
Proof.
  destruct (reachable_ok Linux _ (reach_step Linux _ (EvOp (OpRevoke (tp_fingerprint demo_peer))) demo_running I))
    as [_ Hok]. unfold step, run_op in Hok. fold after_revoke in Hok. unfold revoked_daemon. simpl.
  destruct after_revoke as [[r s] d]. simpl in *. by apply Hok.
Defined.

Lemma revoked_daemon_revoked : revoked_in (st_peers (dm_store revoked_daemon)) (tp_fingerprint demo_peer).
Proof. exists (revoke demo_peer). split; vm_compute; reflexivity. Defined.

Definition revoked_info : DeviceInfo := {|
  di_device_id := lit "aa"; di_device_name := lit "phone"; di_platform := 1;
  di_identity_fingerprint := to_hex (tp_fingerprint demo_peer) |}.

Lemma revoked_device_rejected_witness :
  is_ok (accept_handshake (tp_fingerprint demo_peer) Profile.Pliwee
    (demo_world revoked_daemon [hello_of revoked_info])).1 = false.
Proof.
  refine (revoked_device_rejected (tp_fingerprint demo_peer) Profile.Pliwee
    (demo_world revoked_daemon [hello_of revoked_info]) _ _ _ _ (surjective_pairing _)).
  - split; [exact revoked_daemon_revoked | reflexivity].
  - constructor.
Defined.

Lemma revoked_device_denied_witness : is_authorized revoked_daemon (tp_fingerprint demo_peer) = false.
Proof.
  exact (proj1 (revoked_device_denied revoked_daemon _ revoked_daemon_ok revoked_daemon_revoked)).
Defined.

Lemma demo_peers_ok : peers_ok (st_peers demo_store).
Proof. exact (proj1 (proj2 (reachable_ok Linux _ demo_running) demo_store eq_refl)). Defined.

Lemma unpair_takes_effect_witness :
  exists s', do_unpair (demo_daemon None) (lit " AA ") = (ROk, s') /\
    session_for s' (tp_fingerprint demo_peer) = None.
Proof.
  exists (do_unpair (demo_daemon None) (lit " AA ")).2.
  assert (Hrun : do_unpair (demo_daemon None) (lit " AA ") = (ROk, (do_unpair (demo_daemon None) (lit " AA ")).2))
    by (apply pair_eq_fst; vm_compute; reflexivity).
  split; [exact Hrun|].
  destruct (unpair_takes_effect (demo_daemon None) (lit " AA ") _ demo_peers_ok Hrun) as (fp & Hfp & _ & Hs & _).
  vm_compute in Hfp. assert (fp = tp_fingerprint demo_peer) as <- by (vm_compute; congruence). exact Hs.
Defined.

Definition session_of (id : N) : SessionHandle := {|
  sh_id := id; sh_peer := phone_fp; sh_profile := Profile.Pliwee; sh_device_id := []; sh_device_name := [];
  sh_negotiated := []; sh_started := 0; sh_last_inbound_ms := 0 |}.

Lemma late_close_keeps_session_witness :
  let s1 := register_session (register_session (demo_daemon None) (session_of 1)) (session_of 2) in
  session_for (unregister_session s1 phone_fp 1) phone_fp = Some (session_of 2).
Proof.
  exact (proj1 (proj2 (late_close_keeps_session (register_session (demo_daemon None) (session_of 1))
    (session_of 1) (session_of 2) eq_refl ltac:(vm_compute; congruence) eq_refl))).
Defined.

Lemma fresh_pairing_is_minimal_witness : exists s' p,
  daemon_store_peer (demo_daemon None) phone_info phone_fp [lit "battery.v1"; lit "files.v1"] 1 = (Ok tt, s') /\
  trusted_peer (dm_store s') phone_fp = Some p.
Proof.
  set (x := daemon_store_peer (demo_daemon None) phone_info phone_fp [lit "battery.v1"; lit "files.v1"] 1).
  assert (Hx : x = (Ok tt, x.2)) by (apply pair_eq_fst; vm_compute; reflexivity).
  destruct (fresh_pairing_is_minimal _ _ _ _ _ _ Hx) as (p & Hp & _). exact (ex_intro _ x.2 (ex_intro _ p (conj Hx Hp))).
Defined.

Lemma daemon_window_single_use_witness :
  let proof := bn_bytes (compute_proof Profile.Pliwee demo_token desktop_fp phone_fp (bn_bytes demo_nonce)) in
  dm_pairing (daemon_verify_proof (demo_daemon (Some demo_window)) Profile.Pliwee phone_fp
    (bn_bytes demo_nonce) proof).2 = None.
Proof.
  intros proof.
  refine (proj1 (proj2 (daemon_window_single_use (demo_daemon (Some demo_window)) Profile.Pliwee phone_fp
    (bn_bytes demo_nonce) proof
    (compute_confirmation Profile.Pliwee demo_token desktop_fp phone_fp (bn_bytes demo_nonce)) _ _))).
  apply pair_eq_fst. vm_compute. reflexivity.
Defined.

Lemma resolve_device_sound_witness : exists p, peer_record demo_store (tp_fingerprint demo_peer) = Some p.
Proof.
  destruct (resolve_device_sound (demo_daemon None) (lit "AA") (tp_fingerprint demo_peer) demo_peers_ok) as (p & Hp & _);
    [vm_compute; reflexivity|]. exact (ex_intro _ p Hp).
Defined.

(** Two gaps.  A handshake reads the trust store before its session is
    registered, so a device revoked in between ends up with a registered
    session; and an unpairing whose write fails leaves the live session as it
    was, while the store in memory says revoked. *)
Lemma revocation_between_lookup_and_registration :
  let s := (do_unpair (demo_daemon None) (lit "aa")).2 in
  let h := {| sh_id := 1; sh_peer := tp_fingerprint demo_peer; sh_profile := Profile.Pliwee;
              sh_device_id := lit "aa"; sh_device_name := []; sh_negotiated := [lit "battery.v1"];
              sh_started := 0; sh_last_inbound_ms := 0 |} in
  (do_unpair (demo_daemon None) (lit "aa")).1 = ROk /\
  trusted_peer (dm_store (register_session s h)) (tp_fingerprint demo_peer) = None /\
  session_for (register_session s h) (tp_fingerprint demo_peer) = Some h.
Proof. vm_compute. auto. Qed.

Lemma failed_unpair_keeps_session :
  let h := {| sh_id := 1; sh_peer := tp_fingerprint demo_peer; sh_profile := Profile.Pliwee;
              sh_device_id := lit "aa"; sh_device_name := []; sh_negotiated := [lit "battery.v1"];
              sh_started := 0; sh_last_inbound_ms := 0 |} in
  let s := register_session (set_store (demo_daemon None) demo_store full_disk) h in
  let s' := (do_unpair s (lit "aa")).2 in
  (do_unpair s (lit "aa")).1 = RError "failed to persist revocation" /\
  trusted_peer (dm_store s') (tp_fingerprint demo_peer) = None /\
  session_for s' (tp_fingerprint demo_peer) = Some h /\ dm_notices s' = dm_notices s.
Proof. vm_compute. auto. Qed.
End Runs.
