(* ===== verification/ListenerRuns.v ===== *)
(** A connection from the first byte on.

    A phone dials the listener, proves its key in the TLS handshake, and pairs
    through the window on the screen: the daemon of [DaemonFacts.v] behind the
    listener of [Listener.v]. *)
From S2P Require Import Prelude External Ids Wire Capability Pairing Qr Policy Identity Store UnixFs StoreFacts Framing Replay Discovery Transfer Sink Transfers TransfersFacts TransferRuns Session SessionFacts SessionLoop Daemon DaemonFacts Tls Listener.

Section Runs.
#[local] Existing Instances std_hex letters32 letters64 toy_crypto envelope_codec run_json toy_keys toy_provider toy_parser.
#[local] Existing Instance control_codec.

(** The phone's key is in its certificate. *)
Definition dial_fp : Fingerprint := sha256 [x07].
Definition dial_info : DeviceInfo := {|
  di_device_id := lit "0c"; di_device_name := lit "phone"; di_platform := 1; di_identity_fingerprint := to_hex dial_fp |}.

Definition dial_world : World (DaemonState Fs unit) :=
  demo_world (demo_daemon (Some demo_window)) [hello_of dial_info; request_of dial_fp].

Definition no_stream : StreamInput := {| si_frame := None; si_sent := Ok tt |}.
Definition one_turn : LoopInput := {|
  li_session_id := 1; li_started := 0; li_writer := Ok tt;
  li_events := [(true, Inbound 1 (Some (Ok (envelope_of x03 3 (BCapabilityMessage {|
    cm_capability_id := lit "battery.v1"; cm_payload := [x07] |})))))] |}.

Definition dial_run := handle_connection (RT := toy_rustls) run_config phone_end 1500 false None no_stream one_turn dial_world.

Lemma connection_admitted_witness : exists est notices ended w',
  dial_run = (Ok (HSession est notices ended), w') /\
  exists c fp profile, @tls_accept _ toy_rustls run_config phone_end 1500 = Ok c /\
    cs_alpn_protocol c = Some (Profile.control_alpn profile) /\ admission fp profile dial_world est w'.
Proof.
  destruct (ok_run dial_run) as (h & w' & Hrun); [vm_compute; reflexivity|].
  unfold dial_run in Hrun.
  destruct (connection_admitted run_identity run_config _ _ _ _ _ _ _ _ _ eq_refl Hrun) as (_ & c & leaf & rest & fp & profile & Hacc & _ & _ & Hh).
  destruct h as [est notices ended|r m]; [|destruct Hh as (_ & m' & ? & _); discriminate].
  exists est, notices, ended, w'. split; [exact Hrun|]. exists c, fp, profile. destruct Hh as (? & ? & _). auto.
Defined.

(** The message of the session reaches the battery capability; the same phone
    that takes too long, or speaks no known protocol, gets nothing. *)
Example dialled_session_delivers :
  match dial_run.1 with
  | Ok (HSession est notices _) => existsb (fun n => match n with NEffect (EffDeliver c _) => eqb c (lit "battery.v1") | _ => false end) notices
  | _ => false
  end = true.
Proof. vm_compute. reflexivity. Qed.

Example late_or_unknown_protocol :
  (handle_connection (RT := toy_rustls) run_config phone_end 1500 true None no_stream one_turn dial_world).1 =
    Err (EProtocol "TLS handshake timed out") /\
  (handle_connection (RT := toy_rustls) run_config {| te_version := TLS13; te_certs := [[x07]]; te_holds := [[x07]];
     te_alpn := []; te_resumes := false; te_nonce := [] |} 1500 false None no_stream one_turn dial_world).1 =
    Err (EProtocol "peer negotiated no known ALPN protocol").
Proof. split; vm_compute; reflexivity. Qed.
End Runs.
