(* ===== verification/ControlServer.v ===== *)
(** The control server and the daemon it speaks for.

    [runtime/src/server.rs]: the dispatch of one request ([serve_client]) and its
    handlers, over [Runtime], the daemon's state with the components it holds:
    battery readings, transfer manager, clipboard manager and notification
    manager.  The handlers that change who is trusted are those of [Daemon]; what
    they ask of other components ([dm_notices]) is delivered here ([deliver]), and
    the components' authorizers answer from the daemon's store at the time
    ([authorize]).  [run_pair_session] is a machine over what its connection and
    the handshakes do ([pair_step]).  What a platform, a disk, a random source or
    a peer answers is in [Env]; the iteration order of a [HashMap] is an input. *)
From S2P Require Import Prelude External Ids Wire Capability Pairing Qr Policy Identity Store UnixFs Control Replay Discovery Transfer Sink Transfers Approval NotifyContract NotifyQueue NotifyMirror Notifications Battery Dedup Clipboard Session SessionLoop Daemon.

(** * Rendering *)

(** [Fingerprint::to_display_short]: [HEXUPPER] writes the digits of [HEXLOWER]
    in upper case. *)
Definition display_short `{HexCodec} (fp : Fingerprint) : str :=
  let hex := map ascii_upper (hexlower_encode (take 8 (bn_bytes fp))) in
  join [32] (chunks4 (length hex) hex).

Definition Direction_as_str (d : Direction) : str := match d with Sending => lit "sending" | Receiving => lit "receiving" end.

(** [FailureReason::as_str] *)
Definition failure_text (r : FailureReason.t) : str :=
  match r with
  | FailureReason.DeclinedByUser => lit "declined by the user"
  | FailureReason.NotAuthorized => lit "peer is not allowed to transfer files"
  | FailureReason.TooManyTransfers => lit "too many transfers at once"
  | FailureReason.TooLarge => lit "file is larger than the configured limit"
  | FailureReason.BadMetadata => lit "the offer's metadata was unusable"
  | FailureReason.TimedOut => lit "timed out"
  | FailureReason.Integrity => lit "the received data did not match the offer"
  | FailureReason.Storage => lit "could not store the file"
  | FailureReason.Transport => lit "the connection ended mid-transfer"
  | FailureReason.CancelledByUser => lit "cancelled"
  | FailureReason.Revoked => lit "the device's pairing was revoked"
  | FailureReason.UnknownTransfer => lit "no such transfer"
  end.

(** [TransferSnapshot::percentage], in 64 bits. *)
Definition percentage (size transferred : N) : option N :=
  if size =? 0 then None
  else Some ((N.min transferred size * 100) mod (u64_max + 1) / size mod 256).

(** [{:?}] of the proto enumeration. *)
Definition charging_name (c : ChargingState) : str :=
  match c with
  | CUnspecified => lit "Unspecified" | Charging => lit "Charging" | Discharging => lit "Discharging"
  | CFull => lit "Full" | NotCharging => lit "NotCharging"
  end.

Definition platform_name (p : Z) : str :=
  if (p =? platform_i32 Android)%Z then lit "android"
  else if (p =? platform_i32 Linux)%Z then lit "linux"
  else lit "unknown".

(** [Duration::as_secs] *)
Definition as_secs (ns : N) : N := ns / 1000000000.

(** * Liveness, as a report sees it *)

Definition silent_for (now : N) (h : SessionHandle) : N := (now - sh_started h) - from_millis (sh_last_inbound_ms h).
Definition is_stale (now : N) (h : SessionHandle) : bool := LIVENESS_STALE_AFTER <=? silent_for now h.
Definition live_state (now : N) (h : SessionHandle) : DeviceState.t :=
  if is_stale now h then DeviceState.Stale else DeviceState.Connected.

(** * The daemon with its components *)

Record Runtime (D H : Type) := {
  rn_daemon : DaemonState D H;
  rn_battery : BatteryState;
  rn_transfers : option Manager;
  rn_clipboard : option Clip;
  rn_notifications : option Notif;
  rn_file_approval : option FileApproval;
  rn_listen_port : N;
  rn_listen_families : str;
  rn_migrated_from : option MigrationReport;
  rn_legacy_partial_files : list str
}.
Arguments rn_daemon {_ _}. Arguments rn_battery {_ _}. Arguments rn_transfers {_ _}. Arguments rn_clipboard {_ _}.
Arguments rn_notifications {_ _}. Arguments rn_file_approval {_ _}. Arguments rn_listen_port {_ _}. Arguments rn_listen_families {_ _}.
Arguments rn_migrated_from {_ _}. Arguments rn_legacy_partial_files {_ _}.

(** What the clipboard backend says of itself. *)
Record Backend := {
  bk_id : str; bk_describe : str; bk_available : bool; bk_watch : bool; bk_sensitive : result str unit
}.

Record Env := {
  en_session_order : list Fingerprint;            (** the sessions' [HashMap] *)
  en_pending_order : list Fingerprint;            (** the held clips' [HashMap] *)
  en_pong : option N;                             (** milliseconds, if the peer answered in time *)
  en_backend : Backend;
  en_read : result BackendError (option ClipboardText);
  en_written : result BackendError unit;
  en_event_id : option (bytesn 16);
  en_sink_id : str; en_sink_describe : str;
  en_lock_id : str; en_lock_describe : str;
  en_token : option PairingToken;
  en_metadata : option bool;                      (** of the file to send: whether it is a regular file *)
  en_file_name : str;
  en_source : option (list (option bytes));
  en_transfer_id : option TransferId;
  en_elsewhere : Manager -> Manager               (** other tasks, while the file is hashed *)
}.

Section Server.
Context {D H : Type} `{SS : !SecretStore D, B64 : !Base64Codec, JS : !Json StateFile, HC : !HexCodec, B32 : !Base32Codec,
  CR : !Crypto, PF : !Prost FileControl, PC : !Prost ClipboardControl, PN : !Prost NotificationControl}.

Abbreviation State := (DaemonState D H).
Abbreviation Run := (Runtime D H).

Definition set_daemon (r : Run) (s : State) : Run := {|
  rn_daemon := s; rn_battery := rn_battery r; rn_transfers := rn_transfers r; rn_clipboard := rn_clipboard r;
  rn_notifications := rn_notifications r; rn_file_approval := rn_file_approval r; rn_listen_port := rn_listen_port r;
  rn_listen_families := rn_listen_families r; rn_migrated_from := rn_migrated_from r;
  rn_legacy_partial_files := rn_legacy_partial_files r |}.

Definition set_components (r : Run) (t : option Manager) (c : option Clip) (n : option Notif) : Run := {|
  rn_daemon := rn_daemon r; rn_battery := rn_battery r; rn_transfers := t; rn_clipboard := c;
  rn_notifications := n; rn_file_approval := rn_file_approval r; rn_listen_port := rn_listen_port r; rn_listen_families := rn_listen_families r;
  rn_migrated_from := rn_migrated_from r; rn_legacy_partial_files := rn_legacy_partial_files r |}.

Definition on_transfers (f : Manager -> Manager) (r : Run) : Run :=
  set_components r (f <$> rn_transfers r) (rn_clipboard r) (rn_notifications r).
Definition on_clipboard (f : Clip -> Clip) (r : Run) : Run :=
  set_components r (rn_transfers r) (f <$> rn_clipboard r) (rn_notifications r).
Definition on_notifications (f : Notif -> Notif) (r : Run) : Run :=
  set_components r (rn_transfers r) (rn_clipboard r) (f <$> rn_notifications r).

(** The authorizers read the trust store when they are asked. *)
Definition authorize (r : Run) : Run :=
  let s := rn_daemon r in
  on_transfers (fun m => set_env m (mg_channels m) (Some (is_authorized s)) (mg_now m) (fs_faults (mg_fs m)))
    (on_clipboard (fun c => Clipboard.set_authorizer_field c
        (Some {| au_policy_for := clipboard_policy_for s; au_auto_send_peers := auto_send_peers s |}))
       (on_notifications (fun n => Notifications.set_authorizer_field n (Some (notification_policy_for s))) r)).

(** What a handler asked of the other components. *)
Definition deliver (r : Run) (n : Notice) : Run :=
  match n with
  | ShutdownSession _ => r
  | CancelTransfers fp => on_transfers (fun m => cancel_peer m fp FailureReason.Revoked) r
  | ClipboardPolicyChanged => on_clipboard policy_changed r
  | NotificationsRevoked fp => on_notifications (fun n => Notifications.revoke_peer n fp) r
  end.

(** A handler of the daemon has run: its notices reach the components. *)
Definition commit (r : Run) (s : State) : Run :=
  foldl deliver (authorize (set_daemon r s)) (drop (length (dm_notices (rn_daemon r))) (dm_notices s)).

Definition reply (o : Daemon.Response) : Control.Response.t :=
  match o with ROk => Response.Ok | RError m => Response.Error m end.

(** * Reports *)

Definition battery_report (r : Run) (peer : Fingerprint) : option BatteryReport :=
  (fun b =>
     let age_secs := as_secs (dm_now (rn_daemon r) - pb_received_at b) in
     {| ba_percentage := br_percentage (pb_reading b);
        ba_charging_state := charging_name (br_charging_state (pb_reading b));
        ba_age_secs := age_secs;
        ba_stale := BATTERY_STALE_AFTER_SECS <=? age_secs |}) <$> rn_battery r !! peer.

Definition connection_report (r : Run) (h : SessionHandle) : ConnectionReport :=
  let now := dm_now (rn_daemon r) in {|
  co_device_id := sh_device_id h;
  co_device_name := sh_device_name h;
  co_fingerprint_short := display_short (sh_peer h);
  co_negotiated_capabilities := sh_negotiated h;
  co_battery := battery_report r (sh_peer h);
  co_session_id := sh_id h;
  co_state := live_state now h;
  co_silent_secs := as_secs (silent_for now h) |}.

(** [session_handles], in the map's order. *)
Definition session_handles (s : State) (order : list Fingerprint) : list SessionHandle :=
  omap (fun fp => dm_sessions s !! fp) order.

(** [SystemTime::elapsed]: an error when the clock was set back. *)
Definition elapsed_secs (now at_ : Z) : option N := if (at_ <=? now)%Z then Some (Z.to_N (now - at_)) else None.

Definition device_report (r : Run) (p : TrustedPeer) : DeviceReport :=
  let s := rn_daemon r in
  let session := Daemon.session_for s (tp_fingerprint p) in
  let connected := bool_decide (is_Some session) in {|
  dr_device_id := tp_device_id p;
  dr_device_name := tp_device_name p;
  dr_platform := platform_name (tp_platform p);
  dr_fingerprint := to_hex (tp_fingerprint p);
  dr_fingerprint_short := display_short (tp_fingerprint p);
  dr_paired_at_unix := tp_paired_at_unix p;
  dr_granted_capabilities := map fst (filter (fun kv => kv.2 = true) (bt_items (tp_granted_capabilities p)));
  dr_revoked := tp_revoked p;
  dr_paired := negb (tp_revoked p);
  dr_connected := connected;
  dr_state := match session, tp_revoked p with
              | _, true => DeviceState.Revoked
              | Some h, false => live_state (dm_now s) h
              | None, false => DeviceState.Disconnected
              end;
  dr_silent_secs := (fun h => as_secs (silent_for (dm_now s) h)) <$> session;
  dr_last_seen_secs_ago := dm_last_seen s !! tp_fingerprint p ≫= elapsed_secs (dm_unix s);
  dr_battery := if connected then battery_report r (tp_fingerprint p) else None |}.

Definition build_devices (r : Run) : list DeviceReport := map (device_report r) (listed_peers (dm_store (rn_daemon r))).

Definition build_status (r : Run) (e : Env) : StatusReport :=
  let s := rn_daemon r in
  let info := dm_device_info s in
  let store := dm_store s in {|
  sr_device_name := set_device_name (st_settings store);
  sr_device_id := di_device_id info;
  sr_fingerprint := di_identity_fingerprint info;
  sr_fingerprint_short := match from_hex (di_identity_fingerprint info) with Ok f => display_short f | Err _ => [] end;
  sr_key_backing := lit (KeyBacking.label (id_backing (st_identity store)));
  sr_listen_port := rn_listen_port r;
  sr_listen_families := rn_listen_families r;
  sr_protocol_version_min := PROTOCOL_VERSION_MIN;
  sr_protocol_version_max := PROTOCOL_VERSION_MAX;
  sr_capabilities := advertised (dm_registry s);
  sr_paired_devices := len (filter (fun p => tp_revoked p = false) (listed_peers store));
  sr_connections := map (connection_report r) (session_handles s (en_session_order e));
  sr_devices := build_devices r;
  sr_pairing_active := bool_decide (is_Some (pairing_remaining s));
  sr_migrated_from := rn_migrated_from r;
  sr_legacy_partial_files := rn_legacy_partial_files r |}.

(** One transfer, for a client. *)
Definition transfer_report (r : Run) (t : TransferRecord) : TransferReport := {|
  xr_transfer_id := TransferId.to_hex (tr_id t);
  xr_seq := tr_seq t;
  xr_device_name := match peer_record (dm_store (rn_daemon r)) (tr_peer t) with
                    | Some p => tp_device_name p
                    | None => lit "unknown device"
                    end;
  xr_fingerprint_short := display_short (tr_peer t);
  xr_direction := Direction_as_str (tr_direction t);
  xr_filename := tr_filename t;
  xr_mime_type := tr_mime_type t;
  xr_size_bytes := tr_size_bytes t;
  xr_bytes_transferred := tr_bytes t;
  xr_percentage := percentage (tr_size_bytes t) (tr_bytes t);
  xr_state := lit (TransferState.as_str (tr_state t));
  xr_failure := failure_text <$> tr_failure t;
  xr_failure_code := (fun f => lit (FailureReason.code f)) <$> tr_failure t;
  xr_stored_at := tr_stored_at t |}.

Definition build_transfers (r : Run) : list TransferReport :=
  match rn_transfers r with
  | None => []
  | Some m => map (transfer_report r) (bt_values (mg_transfers m))
  end.

(** ** Clipboard *)

Definition clipboard_peer_report (r : Run) (c : Clip) (p : TrustedPeer) : ClipboardPeerReport := {|
  cp_device_id := tp_device_id p;
  cp_device_name := tp_device_name p;
  cp_fingerprint_short := display_short (tp_fingerprint p);
  cp_granted := allows p CLIPBOARD;
  cp_revoked := tp_revoked p;
  cp_connected := bool_decide (is_Some (Daemon.session_for (rn_daemon r) (tp_fingerprint p)));
  cp_allow_send := ClipboardPolicy.allow_send (tp_clipboard_policy p);
  cp_allow_receive := ClipboardPolicy.allow_receive (tp_clipboard_policy p);
  cp_auto_send := ClipboardPolicy.auto_send (tp_clipboard_policy p);
  cp_auto_receive := ClipboardPolicy.auto_receive (tp_clipboard_policy p);
  cp_last_outcome := Clipboard.Outcome.as_str <$> cb_last_results c !! tp_fingerprint p |}.

(** [pending_clips] and the rows made of it; of the content a size and the
    first eight hexadecimal digits of its hash. *)
Definition pending_report (r : Run) (c : Clip) (fp : Fingerprint) : option PendingClipReport :=
  (fun clip => {|
     pr_device_name := match find_b (fun p => eqb (tp_fingerprint p) fp) (listed_peers (dm_store (rn_daemon r))) with
                       | Some p => tp_device_name p
                       | None => lit "unknown device"
                       end;
     pr_fingerprint_short := display_short fp;
     pr_bytes := str_len (ct_text (pc_text clip));
     pr_hash_prefix := hex_string (take 4 (bn_bytes (ct_hash (pc_text clip))));
     pr_sensitive := pc_sensitive clip;
     pr_origin_device_id := pc_origin_device_id clip;
     pr_age_secs := as_secs (cb_now c - pc_received_at clip) |}) <$> cb_pending c !! fp.

Definition build_clipboard_status (r : Run) (e : Env) : ClipboardStatusReport * Run :=
  match rn_clipboard r with
  | None =>
      ({| cs_enabled := false; cs_backend := lit "none";
          cs_backend_detail := lit "clipboard.v1 is not enabled in this daemon"; cs_backend_available := false;
          cs_watch_available := false; cs_sensitive_available := false;
          cs_sensitive_detail := lit "clipboard.v1 is not enabled in this daemon";
          cs_event_cache_entries := 0; cs_suppression_cache_entries := 0; cs_peers := []; cs_pending := [] |}, r)
  | Some c =>
      let b := en_backend e in
      let c' := pending_clips c in
      ({| cs_enabled := true; cs_backend := bk_id b; cs_backend_detail := bk_describe b;
          cs_backend_available := bk_available b; cs_watch_available := bk_watch b;
          cs_sensitive_available := is_ok (bk_sensitive b);
          cs_sensitive_detail := match bk_sensitive b with Ok _ => [] | Err d => d end;
          cs_event_cache_entries := len (ec_entries (cb_events c));
          cs_suppression_cache_entries := len (sc_entries (cb_suppression c));
          cs_peers := map (clipboard_peer_report r c) (listed_peers (dm_store (rn_daemon r)));
          cs_pending := omap (pending_report r c') (en_pending_order e) |},
       on_clipboard pending_clips r)
  end.

(** ** Notifications *)

Definition notification_peer_report (r : Run) (reports : list PeerReport) (p : TrustedPeer) : NotificationPeerReport :=
  let live := find_b (fun q => eqb (rp_peer q) (tp_fingerprint p)) reports in
  let num f := match live with Some q => f q | None => 0 end in
  let flag f := match live with Some q => f q | None => false end in {|
  np_device_id := tp_device_id p;
  np_device_name := tp_device_name p;
  np_fingerprint_short := display_short (tp_fingerprint p);
  np_granted := allows p NOTIFICATIONS;
  np_revoked := tp_revoked p;
  np_connected := bool_decide (is_Some (Daemon.session_for (rn_daemon r) (tp_fingerprint p)));
  np_allow_mirror := NotificationPolicy.allow_mirror (tp_notification_policy p);
  np_when_locked := LockPolicy.as_str (NotificationPolicy.when_sink_locked (tp_notification_policy p));
  np_allow_dismiss_sync := NotificationPolicy.allow_dismiss_sync (tp_notification_policy p);
  np_mirrors := num rp_mirrors; np_displayed := num rp_displayed; np_evicted := num rp_evicted;
  np_local_roles := num rp_local_roles; np_local_epoch := num rp_local_epoch;
  np_peer_is_source := flag rp_peer_is_source; np_peer_is_dismiss_target := flag rp_peer_is_dismiss_target;
  np_peer_epoch := num rp_peer_epoch; np_local_reports_dismissals := flag rp_local_reports_dismissals;
  np_dismissals_sent := num rp_dismissals_sent; np_dismissals_refused := num rp_dismissals_refused;
  np_snapshot_open := flag rp_snapshot_open; np_queued := num (fun q => qs_pending (rp_queue q));
  np_coalesced := num (fun q => qs_coalesced (rp_queue q));
  np_dropped := num (fun q => qs_dropped_terminal (rp_queue q)) |}.

Definition build_notifications_status (r : Run) (e : Env) : NotificationsStatusReport :=
  match rn_notifications r with
  | None =>
      {| ns_enabled := false; ns_backend := lit "none";
         ns_backend_detail := lit "notifications.v1 is not enabled in this daemon"; ns_available := false;
         ns_body_markup := false; ns_persistence := false; ns_lock_source := lit "none";
         ns_lock_detail := lit "notifications.v1 is not enabled in this daemon"; ns_locked := true;
         ns_mirrors := 0; ns_peers := [] |}
  | Some n =>
      let reports := peer_reports n in
      {| ns_enabled := true; ns_backend := en_sink_id e; ns_backend_detail := en_sink_describe e;
         ns_available := nt_available n; ns_body_markup := sc_body_markup (nt_capabilities n);
         ns_persistence := sc_persistence (nt_capabilities n); ns_lock_source := en_lock_id e;
         ns_lock_detail := en_lock_describe e; ns_locked := nt_locked n; ns_mirrors := mirror_count n;
         ns_peers := map (notification_peer_report r reports) (listed_peers (dm_store (rn_daemon r))) |}
  end.

(** * Handlers *)

Definition do_ping (r : Run) (e : Env) (device : str) : Control.Response.t :=
  match resolve_device (rn_daemon r) device with
  | None => Response.Error "no device"
  | Some fp =>
      match Daemon.session_for (rn_daemon r) fp with
      | None => Response.Error "device is not currently connected"
      | Some _ =>
          match en_pong e with
          | Some rtt_ms => Response.Pong rtt_ms
          | None => Response.Error "no PONG received before the timeout"
          end
      end
  end.

(** A handler of the daemon. *)
Definition by_daemon (r : Run) (out : Daemon.Response * State) : Control.Response.t * Run :=
  (reply out.1, commit r out.2).

Definition cancel_candidates (m : Manager) (needle : str) : list TransferRecord :=
  filter (fun t => TransferState.is_active (tr_state t) = true /\ starts_with needle (TransferId.to_hex (tr_id t)) = true)
    (bt_values (mg_transfers m)).

Definition do_cancel_transfer (r : Run) (selector : str) : Control.Response.t * Run :=
  match rn_transfers r with
  | None => (Response.Error "file transfer is not enabled", r)
  | Some m =>
      let needle := map ascii_lower (trim selector) in
      if str_len needle <? 4 then (Response.Error "a transfer id prefix must be at least 4 characters", r)
      else
        match cancel_candidates m needle with
        | [one] =>
            let '(ok, m') := cancel m (tr_id one) in
            (if ok then Response.Ok else Response.Error "that transfer already finished", on_transfers (fun _ => m') r)
        | [] => (Response.Error "no active transfer matches", r)
        | _ => (Response.Error "ambiguous", r)
        end
  end.

Definition do_clipboard_send (r : Run) (e : Env) (device : str) (sensitive : bool) : Control.Response.t * Run :=
  match rn_clipboard r with
  | None => (Response.Error "clipboard.v1 is not enabled", r)
  | Some c =>
      match resolve_device (rn_daemon r) device with
      | None => (Response.Error "no device", r)
      | Some fp =>
          let '(out, c') := send_current_clipboard c fp sensitive (en_read e) (en_event_id e) in
          (match out with Ok _ => Response.Ok | Err _ => Response.Error "not sent" end, on_clipboard (fun _ => c') r)
      end
  end.

(** The write the clip asks for ends with [en_written]. *)
Definition do_clipboard_apply (r : Run) (e : Env) (device : str) : Control.Response.t * Run :=
  match rn_clipboard r with
  | None => (Response.Error "clipboard.v1 is not enabled", r)
  | Some c =>
      match resolve_device (rn_daemon r) device with
      | None => (Response.Error "no device", r)
      | Some fp =>
          match apply_pending c fp with
          | (Err _, c') => (Response.Error "not applied", on_clipboard (fun _ => c') r)
          | (Ok _, c') =>
              (match en_written e with Ok _ => Response.Ok | Err _ => Response.Error "not applied" end,
               on_clipboard (fun _ => write_done c' (cb_next_write c) (en_written e)) r)
          end
      end
  end.

Definition set_flag (p : ClipboardPolicy.t) (flag : ClipboardFlag) (enabled : bool) : ClipboardPolicy.t :=
  let '(ClipboardPolicy.Policy s v a b) := p in
  match flag with
  | FlagSend => ClipboardPolicy.Policy enabled v a b
  | FlagReceive => ClipboardPolicy.Policy s enabled a b
  | FlagAutoSend => ClipboardPolicy.Policy s v enabled b
  | FlagAutoReceive => ClipboardPolicy.Policy s v a enabled
  end.

Definition do_clipboard_policy (s : State) (device : str) (flag : ClipboardFlag) (enabled : bool) : Daemon.Response * State :=
  match resolve_device s device with
  | None => (RError "no device", s)
  | Some fp =>
      match trusted_peer (dm_store s) fp with
      | None => (RError "that device is not paired (or its pairing was revoked)", s)
      | Some peer =>
          let '(out, st, d) := set_clipboard_policy (dm_store s) (dm_disk s) fp (set_flag (tp_clipboard_policy peer) flag enabled) in
          let s1 := set_store s st d in
          match out with
          | Err _ => (RError "could not persist the policy", s1)
          | Ok _ => (ROk, notice s1 ClipboardPolicyChanged)
          end
      end
  end.

(** [None] for a lock policy that is not one. *)
Definition set_setting (p : NotificationPolicy.t) (setting : NotificationSetting) : option NotificationPolicy.t :=
  let '(NotificationPolicy.Policy m w d) := p in
  match setting with
  | SetMirror enabled => Some (NotificationPolicy.Policy enabled w d)
  | SetWhenLocked policy => (fun w => NotificationPolicy.Policy m w d) <$> LockPolicy.parse policy
  | SetDismissSync enabled => Some (NotificationPolicy.Policy m w enabled)
  end.

Definition do_notifications_policy (s : State) (device : str) (setting : NotificationSetting) : Daemon.Response * State :=
  match resolve_device s device with
  | None => (RError "no device", s)
  | Some fp =>
      match trusted_peer (dm_store s) fp with
      | None => (RError "that device is not paired (or its pairing was revoked)", s)
      | Some peer =>
          match set_setting (tp_notification_policy peer) setting with
          | None => (RError "not a lock policy. Use one of: full, app-only, suppress", s)
          | Some updated =>
              let '(out, st, d) := set_notification_policy (dm_store s) (dm_disk s) fp updated in
              let s1 := set_store s st d in
              match out with
              | Err _ => (RError "could not persist the policy", s1)
              | Ok _ =>
                  (ROk, match setting with SetMirror false => notice s1 (NotificationsRevoked fp) | _ => s1 end)
              end
          end
      end
  end.

(** [run_send_session] up to the offer; the events it then streams are those of
    the transfer it names. *)
Definition start_send (r : Run) (e : Env) (device path : str) : result Control.Response.t TransferId * Run :=
  match rn_transfers r with
  | None => (Err (Response.Error "file transfer is not enabled"), r)
  | Some m =>
      match resolve_device (rn_daemon r) device with
      | None => (Err (Response.Error "no device"), r)
      | Some fp =>
          match en_metadata e with
          | None => (Err (Response.Error "cannot read that file"), r)
          | Some false => (Err (Response.Error "only regular files can be sent (directories come later)"), r)
          | Some true =>
              let '(out, m') := offer_file m fp path (en_file_name e) (en_source e) (en_elsewhere e) (en_transfer_id e) in
              (match out with Ok id => Ok id | Err _ => Err (Response.Error "could not offer the file") end,
               on_transfers (fun _ => m') r)
          end
      end
  end.

(** What the stream of a send says of one event of its transfer. *)
Definition send_event (r : Run) (id : TransferId) (t : TransferRecord) : list Control.Event.t * bool :=
  if negb (eqb (tr_id t) id) then ([], false)
  else
    let terminal := TransferState.is_terminal (tr_state t) in
    (Event.TransferProgress (transfer_report r t) ::
     (if terminal
      then [Event.Finished (TransferState.as_str (tr_state t))
              (match tr_failure t with Some f => failure_text f | None => tr_filename t end)]
      else []),
     terminal).

(** What a person is shown of an offer. *)
Definition file_offer_request (r : Run) (offer : IncomingOffer) : FileOfferRequest := {|
  fq_transfer_id := TransferId.to_hex (io_transfer_id offer);
  fq_device_name := match trusted_peer (dm_store (rn_daemon r)) (io_peer offer) with
                    | Some p => tp_device_name p
                    | None => lit "an unknown device"
                    end;
  fq_device_id := io_peer_device_id offer;
  fq_fingerprint := to_hex (io_peer offer);
  fq_fingerprint_short := display_short (io_peer offer);
  fq_filename := io_filename offer;
  fq_size_bytes := io_size_bytes offer;
  fq_mime_type := io_mime_type offer |}.

(** * One request *)

Inductive Served :=
| Replied (r : Control.Response.t)
| Pairing                             (** a pairing window is open: [run_pair_session] *)
| Sending_ (id : TransferId)          (** the progress of this transfer is streamed *)
| Watching.                           (** [run_file_approval_session] *)

Definition ttl_of (ttl_secs : option N) : N :=
  match ttl_secs with Some t => from_secs t | None => DEFAULT_TOKEN_TTL end.

(** The dispatch of [serve_client]. *)
Definition serve (r : Run) (e : Env) (q : Control.Request.t) : Served * Run :=
  let answer '(a, r') := (Replied a, r') in
  let s := rn_daemon r in
  match q with
  | Request.Status => (Replied (Response.Status (build_status r e)), r)
  | Request.Devices => (Replied (Response.Devices (build_devices r)), r)
  | Request.Ping device => (Replied (do_ping r e device), r)
  | Request.Unpair device => answer (by_daemon r (do_unpair s device))
  | Request.HideRevokedDevice fp => answer (by_daemon r (do_hide_revoked s fp))
  | Request.HideAllRevokedDevices => answer (by_daemon r (do_hide_all_revoked s))
  | Request.Confirm _ => (Replied (Response.Error "confirm is only valid inside a pair session"), r)
  | Request.Pair ttl_secs =>
      match begin_pairing s (en_token e) (ttl_of ttl_secs) with
      | (Ok _, s') => (Pairing, set_daemon r s')
      | (Err _, s') => (Replied (Response.Error "could not start pairing"), set_daemon r s')
      end
  | Request.Grant device capability granted => answer (by_daemon r (do_grant s device capability granted))
  | Request.Transfers => (Replied (Response.Transfers (build_transfers r)), r)
  | Request.CancelTransfer transfer => answer (do_cancel_transfer r transfer)
  | Request.Send device path =>
      match start_send r e device path with
      | (Ok id, r') => (Sending_ id, r')
      | (Err a, r') => (Replied a, r')
      end
  | Request.WatchFileOffers =>
      match rn_file_approval r, rn_transfers r with
      | Some _, Some _ => (Watching, r)
      | _, _ => (Replied (Response.Error "this agent has no incoming-file approval seam"), r)
      end
  | Request.FileDecision _ _ =>
      (Replied (Response.Error "file_decision is only valid inside a watch_file_offers stream"), r)
  | Request.ClipboardStatus => let '(report, r') := build_clipboard_status r e in (Replied (Response.Clipboard report), r')
  | Request.ClipboardSend device sensitive => answer (do_clipboard_send r e device sensitive)
  | Request.ClipboardApply device => answer (do_clipboard_apply r e device)
  | Request.ClipboardPolicy device flag enabled => answer (by_daemon r (do_clipboard_policy s device flag enabled))
  | Request.NotificationsStatus => (Replied (Response.Notifications (build_notifications_status r e)), r)
  | Request.NotificationsPolicy device setting => answer (by_daemon r (do_notifications_policy s device setting))
  end.

(** The first line of a connection; [None] if it ends before one.  A line that
    is no request is answered and nothing else happens. *)
Definition serve_client (parse : str -> option Control.Request.t) (r : Run) (e : Env) (line : option str)
    : option Served * Run :=
  match line with
  | None => (None, r)
  | Some line =>
      match parse line with
      | None => (Some (Replied (Response.Error "malformed request")), r)
      | Some q => let '(a, r') := serve r e q in (Some a, r')
      end
  end.

(** * The pairing session *)

(** What wakes [run_pair_session]: its deadline, a line or the end of its
    connection, or a handshake that asks for confirmation, with the line the
    operator then sends, if any. *)
Inductive PairEvent :=
| PDeadline
| PLine (line : option str)
| PConfirm (device : DeviceInfo) (fp : Fingerprint) (line : option str).

(** What is said to the operator, what is answered to the handshake, and how the
    session ends, if it does. *)
Record PairTurn := {
  pt_events : list Control.Event.t;
  pt_answer : option bool;
  pt_outcome : option (string * str)
}.

Definition pair_step (parse : str -> option Control.Request.t) (ev : PairEvent) : PairTurn :=
  match ev with
  | PDeadline => {| pt_events := []; pt_answer := None; pt_outcome := Some ("expired"%string, lit "the pairing window closed") |}
  | PLine None => {| pt_events := []; pt_answer := None; pt_outcome := Some ("cancelled"%string, lit "operator disconnected") |}
  | PLine (Some _) => {| pt_events := []; pt_answer := None; pt_outcome := None |}
  | PConfirm device fp line =>
      let short := display_short fp in
      let answer := match line ≫= parse with Some (Request.Confirm true) => true | _ => false end in
      {| pt_events := [Event.ConfirmRequest (sanitize_device_name (di_device_name device)) (di_device_id device) (to_hex fp) short];
         pt_answer := Some answer;
         pt_outcome := Some ((if answer then "paired" else "declined")%string, short) |}
  end.

(** The loop, and [end_pairing] after it; [None] while it waits. *)
Fixpoint pair_loop (parse : str -> option Control.Request.t) (s : State) (evs : list PairEvent)
    : option (string * str) * State :=
  match evs with
  | [] => (None, s)
  | ev :: evs' =>
      match pt_outcome (pair_step parse ev) with
      | Some out => (Some out, end_pairing s)
      | None => pair_loop parse s evs'
      end
  end.

(** What a pairing session shows first: the payload of its QR code. *)
Definition pairing_ready `{SA : !SockAddr} (s : State) (token : PairingToken) (addresses : list socket_addr) (qr_ascii : str)
    (ttl : N) : Result Control.Event.t :=
  let info := dm_device_info s in
  fingerprint ← from_hex (di_identity_fingerprint info);
  token' ← from_base32 (to_base32 token);
  Ok (Event.PairingReady (QrPayload_encode fingerprint token' (di_device_id info) addresses) qr_ascii (as_secs ttl)).

(** The whole session: [sent] is whether the first event could be written; if
    not, it is left through [?].  [others] is what the rest of the daemon does
    while it waits. *)
Definition run_pair_session (parse : str -> option Control.Request.t) (s : State) (rng : option PairingToken) (ttl_secs : option N)
    (sent : bool) (others : State -> State) (evs : list PairEvent) : option (string * str) * State :=
  match begin_pairing s rng (ttl_of ttl_secs) with
  | (Err _, s1) => (None, s1)
  | (Ok _, s1) => if negb sent then (None, s1) else pair_loop parse (others s1) evs
  end.
End Server.
