(* ===== verification/ControlServerFacts.v ===== *)
(** Facts about the control server.

    Every request performs at most one operation on the trust store, the one it
    names ([serve_store]); so no request but a grant gives a device a right and
    none makes a revoked device trusted again.  Unpairing reaches the session,
    the transfers, the clipboard and the notifications.  What the Quick Panel
    offers from the daemon's own reports, the daemon would do for that very
    device ([panel_reaches_its_device]). *)
From S2P Require Import Prelude External Ids Wire Capability Pairing Qr Policy Identity Store UnixFs StoreFacts Control Panel PanelFacts Replay Discovery Transfer Sink Transfers TransfersFacts Approval NotifyContract NotifyQueue NotifyMirror Notifications Battery Dedup Clipboard Session SessionLoop Daemon DaemonFacts ControlServer.

Section Facts.
Context {D H : Type} `{SS : !SecretStore D, IB : !IdentityBackend, B64 : !Base64Codec, JS : !Json StateFile, HC : !HexCodec,
  B32 : !Base32Codec, CR : !Crypto, PF : !Prost FileControl, PC : !Prost ClipboardControl, PN : !Prost NotificationControl}.
Abbreviation State := (DaemonState D H).
Abbreviation Run := (Runtime D H).
Abbreviation peers_of r := (st_peers (dm_store (rn_daemon r))).

(** * Notices and the daemon *)

Lemma deliver_daemon l (r : Run) : rn_daemon (foldl deliver r l) = rn_daemon r.
Proof. revert r. induction l as [|n l IH]; intros r; simpl; [done|]. rewrite IH. by destruct n. Qed.

Lemma commit_daemon (r : Run) s : rn_daemon (commit r s) = s.
Proof. unfold commit. by rewrite deliver_daemon. Qed.

Lemma renegotiate_store (s : State) fp c g : dm_store (renegotiate_after_grant s fp c g).2 = dm_store s /\
  dm_disk (renegotiate_after_grant s fp c g).2 = dm_disk s.
Proof.
  unfold renegotiate_after_grant. destruct (on_grant_changed _ _ _ _ _) as [dec req].
  destruct (is_reconnect dec); [|done]. by destruct (session_for s fp).
Qed.

Lemma enforce_all_store l (s : State) :
  dm_store (foldl enforce_revocation s l) = dm_store s /\ dm_disk (foldl enforce_revocation s l) = dm_disk s.
Proof.
  revert s. induction l as [|fp l IH]; intros s; simpl; [done|].
  destruct (IH (enforce_revocation s fp)) as [-> ->]. by destruct (enforce_revocation_spec s fp) as (_ & _ & ? & ? & _).
Qed.

(** The request asks for the operation. *)
Definition asks (s : State) (q : Control.Request.t) (o : StoreOp) : Prop :=
  match o with
  | OpRevoke fp => exists device, q = Request.Unpair device /\ resolve_device s device = Some fp
  | OpHide fp => exists name, q = Request.HideRevokedDevice name /\ from_hex (trim name) = Ok fp
  | OpHideAll => q = Request.HideAllRevokedDevices
  | OpGrant fp c g => exists device, q = Request.Grant device c g /\ resolve_device s device = Some fp /\
      supports (dm_registry s) c = true /\ is_Some (trusted_peer (dm_store s) fp)
  | OpClipboard fp p => exists device flag enabled old, q = Request.ClipboardPolicy device flag enabled /\
      resolve_device s device = Some fp /\ trusted_peer (dm_store s) fp = Some old /\
      p = set_flag (tp_clipboard_policy old) flag enabled
  | OpNotification fp p => exists device setting old, q = Request.NotificationsPolicy device setting /\
      resolve_device s device = Some fp /\ trusted_peer (dm_store s) fp = Some old /\
      set_setting (tp_notification_policy old) setting = Some p
  | OpAdd _ | OpVersion _ _ => False
  end.

(** Nothing, or one operation that was asked for, happened to the trust store. *)
Definition stored_as_asked (s : State) (q : Control.Request.t) (s' : State) : Prop :=
  (dm_store s' = dm_store s /\ dm_disk s' = dm_disk s) \/
  exists o ok, asks s q o /\ run_op (dm_store s) (dm_disk s) o = (ok, dm_store s', dm_disk s').

Lemma unpair_store (s : State) device : stored_as_asked s (Request.Unpair device) (do_unpair s device).2.
Proof.
  unfold do_unpair. destruct (resolve_device s device) as [fp|] eqn:Hf; [|by left].
  destruct (Store.revoke_peer (dm_store s) (dm_disk s) fp) as [[r st] d] eqn:Hr. right. exists (OpRevoke fp), (is_ok r).
  split; [by exists device|]. cbn [run_op]. rewrite Hr. destruct r as [[]|e]; [|done..]. cbn [snd].
  by destruct (enforce_revocation_spec (set_store s st d) fp) as (_ & _ & -> & -> & _).
Qed.

Lemma hide_store (s : State) name : stored_as_asked s (Request.HideRevokedDevice name) (do_hide_revoked s name).2.
Proof.
  unfold do_hide_revoked. destruct (from_hex (trim name)) as [fp|] eqn:Hf; [|by left].
  destruct (hide_revoked_peer (dm_store s) (dm_disk s) fp) as [[r st] d] eqn:Hr. right. exists (OpHide fp), (is_ok r).
  split; [by exists name|]. cbn [run_op]. rewrite Hr. destruct r as [[]|e]; try done. cbn [snd].
  by destruct (enforce_revocation_spec (set_store s st d) fp) as (_ & _ & -> & -> & _).
Qed.

Lemma hide_all_store (s : State) : stored_as_asked s Request.HideAllRevokedDevices (do_hide_all_revoked s).2.
Proof.
  unfold do_hide_all_revoked. destruct (hide_all_revoked_peers (dm_store s) (dm_disk s)) as [[r st] d] eqn:Hr.
  right. exists OpHideAll, (is_ok r). split; [done|]. cbn [run_op]. rewrite Hr. destruct r as [l|e]; [|done]. cbn [snd].
  by destruct (enforce_all_store l (set_store s st d)) as [-> ->].
Qed.

Lemma grant_store (s : State) device c g : stored_as_asked s (Request.Grant device c g) (do_grant s device c g).2.
Proof.
  unfold do_grant. destruct (resolve_device s device) as [fp|] eqn:Hf; [|by left].
  destruct (supports (dm_registry s) c) eqn:Hs; [|by left].
  destruct (trusted_peer (dm_store s) fp) as [p|] eqn:Ht; [|by left]. simpl.
  destruct (set_capability_grant (dm_store s) (dm_disk s) fp c g) as [[r st] d] eqn:Hr. right.
  exists (OpGrant fp c g), (is_ok r). split; [exists device; by rewrite Ht; eauto|]. simpl. rewrite Hr.
  destruct r as [u|e]; [|done].
  match goal with |- context [renegotiate_after_grant ?s4 _ _ _] => pose proof (renegotiate_store s4 fp c g) as [Hst Hd];
    destruct (renegotiate_after_grant s4 fp c g) as [dec s5]; simpl in * end.
  rewrite Hst, Hd. by repeat case_match.
Qed.

Lemma clipboard_policy_store (s : State) device flag enabled :
  stored_as_asked s (Request.ClipboardPolicy device flag enabled) (do_clipboard_policy s device flag enabled).2.
Proof.
  unfold do_clipboard_policy. destruct (resolve_device s device) as [fp|] eqn:Hf; [|by left].
  destruct (trusted_peer (dm_store s) fp) as [p|] eqn:Ht; [|by left].
  destruct (set_clipboard_policy _ _ _ _) as [[r st] d] eqn:Hr. right.
  exists (OpClipboard fp (set_flag (tp_clipboard_policy p) flag enabled)), (is_ok r).
  split; [by exists device, flag, enabled, p|]. simpl. rewrite Hr. by destruct r.
Qed.

Lemma notifications_policy_store (s : State) device setting :
  stored_as_asked s (Request.NotificationsPolicy device setting) (do_notifications_policy s device setting).2.
Proof.
  unfold do_notifications_policy. destruct (resolve_device s device) as [fp|] eqn:Hf; [|by left].
  destruct (trusted_peer (dm_store s) fp) as [p|] eqn:Ht; [|by left].
  destruct (set_setting (tp_notification_policy p) setting) as [u|] eqn:Hu; [|by left].
  destruct (set_notification_policy _ _ _ _) as [[r st] d] eqn:Hr. right.
  exists (OpNotification fp u), (is_ok r). split; [by exists device, setting, p|]. simpl. rewrite Hr.
  destruct r; [|done]. by destruct setting as [[]| |].
Qed.

Lemma begin_pairing_store (s : State) rng ttl :
  dm_store (begin_pairing s rng ttl).2 = dm_store s /\ dm_disk (begin_pairing s rng ttl).2 = dm_disk s.
Proof. unfold begin_pairing. by destruct (PairingSession_new _ _ _). Qed.

Lemma components_daemon (r : Run) f : rn_daemon (on_transfers f r) = rn_daemon r.
Proof. done. Qed.

(** Any request: at most one operation of the trust store, the one it names. *)
Lemma serve_store (r : Run) e q : stored_as_asked (rn_daemon r) q (rn_daemon (serve r e q).2).
Proof.
  set (s := rn_daemon r). assert (Hsame : stored_as_asked s q s) by (by left).
  destruct q; simpl; try exact Hsame; rewrite ?commit_daemon.
  - destruct (begin_pairing_store s (en_token e) (ttl_of ttl_secs)) as [H1 H2]. unfold s in *.
    destruct (begin_pairing _ _ _) as [[] s']; by left.
  - apply unpair_store.
  - apply hide_store.
  - apply hide_all_store.
  - apply grant_store.
  - unfold start_send. repeat case_match; simplify_eq/=; exact Hsame.
  - by repeat case_match.
  - unfold do_cancel_transfer. repeat case_match; simplify_eq/=; exact Hsame.
  - unfold build_clipboard_status. destruct (rn_clipboard r); exact Hsame.
  - unfold do_clipboard_send. repeat case_match; simplify_eq/=; exact Hsame.
  - unfold do_clipboard_apply. repeat case_match; simplify_eq/=; exact Hsame.
  - apply clipboard_policy_store.
  - apply notifications_policy_store.
Qed.

(** * Rights *)

(** The device is paired and the user has granted it the capability. *)
Definition may (r : Run) (fp : Fingerprint) (c : str) : Prop :=
  exists p, trusted_peer (dm_store (rn_daemon r)) fp = Some p /\ allows p c = true.

Definition holds_right (m : gmap Fingerprint TrustedPeer) (fp : Fingerprint) (c : str) : Prop :=
  exists p, m !! fp = Some p /\ allows p c = true.

Lemma may_holds r fp c : may r fp c <-> holds_right (peers_of r) fp c.
Proof.
  unfold may, holds_right, trusted_peer. split.
  - intros (p & Hp & Ha). destruct (peers_of r !! fp) as [q|]; [|done]. destruct (tp_revoked q); [done|].
    simplify_eq/=. eauto.
  - intros (p & -> & Ha). exists p. unfold allows in *. by destruct (tp_revoked p).
Qed.

Lemma holds_right_alter f fp k c m :
  (forall p, allows (f p) c = true -> allows p c = true) -> holds_right (alter f fp m) k c -> holds_right m k c.
Proof.
  intros Hf (p & Hp & Ha). apply lookup_alter_Some in Hp as [(<- & q & Hq & ->)|[_ Hp]]; eexists; eauto.
Qed.

Lemma op_peers_rights o m k c :
  (forall fp g, o <> OpGrant fp c g) -> (forall p, o <> OpAdd p) -> holds_right (op_peers o m) k c -> holds_right m k c.
Proof.
  intros Hg Ha. destruct o as [p|fp|fp| |fp c' g|fp x|fp x|fp x]; simpl.
  - by destruct (Ha p).
  - by apply holds_right_alter.
  - apply holds_right_alter. intros p. by destruct (tp_revoked p && _).
  - intros (p & Hp & Hal). apply lookup_fmap_Some in Hp as (q & <- & Hq). exists q. split; [done|].
    by destruct (tp_revoked q && _).
  - apply holds_right_alter. intros p. unfold allows, set_granted. simpl.
    destruct (decide (c' = c)) as [->|Hne]; [by destruct (Hg fp g)|]. by rewrite lookup_insert_ne.
  - by apply holds_right_alter.
  - by apply holds_right_alter.
  - by apply holds_right_alter.
Qed.

Lemma op_effect_peers s d o ok s' d' :
  op_effect s d o ok s' d' -> st_peers s' = op_peers o (st_peers s) \/ st_peers s' = st_peers s.
Proof. intros [Ho|? ? _|? ? ? ? _ [->| ->]]; auto. Qed.

(** Withdrawing takes the right away or leaves it. *)
Lemma grant_rights fp c g m k :
  holds_right (op_peers (OpGrant fp c g) m) k c -> holds_right m k c \/ (k = fp /\ g = true).
Proof.
  intros (p & Hp & Ha). simpl in Hp.
  apply lookup_alter_Some in Hp as [(<- & q & Hq & ->)|[_ Hp]]; [|by left; exists p]. right. split; [done|]. unfold allows, set_granted in Ha. simpl in Ha. rewrite lookup_insert_eq in Ha. simpl in Ha.
  by apply andb_true_iff in Ha as [_ ->].
Qed.

(** C30: over the control socket, rights come from grants only.  Whatever request
    is served in whatever circumstances, a device may use a capability
    afterwards only if it might before, or the request is the grant of that very
    capability to a selector that names that device, the capability is one this
    daemon implements, and the device is paired; and no request makes a revoked
    device trusted again. *)
Theorem rights_only_by_grant (r : Run) e q fp c :
  peers_ok (peers_of r) ->
  let r' := (serve r e q).2 in
  (may r' fp c -> may r fp c \/
     exists device, q = Request.Grant device c true /\ resolve_device (rn_daemon r) device = Some fp /\
       supports (dm_registry (rn_daemon r)) c = true /\ is_Some (trusted_peer (dm_store (rn_daemon r)) fp)) /\
  (revoked_in (peers_of r) fp -> revoked_in (peers_of r') fp).
Proof.
  intros Hok r'. rewrite !may_holds. destruct (serve_store r e q) as [[Hs _]|(o & ok & Hask & Hrun)].
  { unfold r'. rewrite Hs. auto. }
  apply run_op_refines in Hrun; [|done]. apply op_effect_peers in Hrun as [Hp|Hp]; unfold r'; rewrite Hp; [|auto].
  split; [|apply op_peers_revoked; intros Hx; by destruct o; simpl in *]. intros Hm.
  destruct o as [| | | |k c' g| | |]; try (left; by apply op_peers_rights in Hm).
  destruct (decide (c' = c)) as [->|Hne].
  - apply grant_rights in Hm as [Hm|[-> ->]]; [by left|right]. destruct Hask as (device & -> & Hrest). eauto.
  - left. apply op_peers_rights in Hm; [done| |done]. by intros ? ? [= ->].
Qed.

(** * Revocation in every component *)

Lemma commit_revocation (r : Run) s1 fp :
  dm_notices s1 = dm_notices (rn_daemon r) ->
  let s' := enforce_revocation s1 fp in
  commit r s' = on_notifications (fun n => Notifications.revoke_peer n fp)
    (on_clipboard policy_changed
       (on_transfers (fun m => cancel_peer m fp FailureReason.Revoked) (authorize (set_daemon r s')))).
Proof.
  intros Hn s'. unfold commit. destruct (enforce_revocation_spec s1 fp) as (_ & _ & _ & _ & _ & Hnot).
  unfold s'. rewrite Hnot, Hn, drop_app_length. by destruct (session_for s1 fp).
Qed.

Lemma cancel_peer_env m fp reason : same_env m (cancel_peer m fp reason).
Proof. unfold cancel_peer. rewrite fail_all_map. apply fail_all_env. Qed.


(** * What the panel offers *)

Lemma hex_chars fp c : c ∈ to_hex fp -> in_range 48 57 c || in_range 97 102 c = true.
Proof. intros Hc. pose proof (hexlower_alphabet (bn_bytes fp)) as Ha. rewrite Forall_forall in Ha. by apply Ha. Qed.

Lemma hex_lower fp : to_ascii_lowercase (to_hex fp) = to_hex fp.
Proof.
  unfold to_ascii_lowercase. rewrite <- (map_id (to_hex fp)) at 2. apply map_ext_in. intros c Hc%list_elem_of_In%hex_chars.
  unfold ascii_lower, in_range in *. destruct (N.leb_spec 65 c), (N.leb_spec c 90), (N.leb_spec 48 c), (N.leb_spec c 57),
    (N.leb_spec 97 c), (N.leb_spec c 102); simpl in *; try done; lia.
Qed.

Lemma hex_not_space fp c : c ∈ to_hex fp -> is_whitespace c = false.
Proof.
  intros Hc%hex_chars. destruct (is_whitespace c) eqn:E; [exfalso|done].
  unfold is_whitespace, in_range in *. destruct (N.leb_spec 48 c), (N.leb_spec c 57), (N.leb_spec 97 c), (N.leb_spec c 102);
    simpl in *; try done; repeat (apply orb_true_iff in E as [E|E]); rewrite ?andb_true_iff, ?N.leb_le, ?N.eqb_eq in E; lia.
Qed.

Lemma drop_while_none {A} (p : A -> bool) l : (forall x, x ∈ l -> p x = false) -> drop_while p l = l.
Proof. destruct l as [|x l]; intros Hp; simpl; [done|]. by rewrite Hp by left. Qed.

Lemma hex_trim fp : trim (to_hex fp) = to_hex fp.
Proof.
  unfold trim, trim_start, trim_end_matches. rewrite (drop_while_none _ (to_hex fp)) by apply hex_not_space.
  rewrite drop_while_none; [apply rev_involutive|]. intros c Hc. apply (hex_not_space fp).
  rewrite list_elem_of_In in *. by apply in_rev.
Qed.

Lemma filter_only {A} (P : A -> Prop) `{forall x, base.Decision (P x)} l x :
  NoDup l -> x ∈ l -> (forall y, y ∈ l -> P y <-> y = x) -> filter P l = [x].
Proof.
  induction l as [|y l IH]; [by intros _ ?%elem_of_nil|]. intros [Hy Hl]%NoDup_cons Hx HP.
  assert (Hrest : forall z, z ∈ l -> P z <-> z = x) by (intros z Hz; apply HP; by right).
  destruct (decide (P y)) as [Hpy|Hpy].
  - rewrite filter_cons_True by done. apply HP in Hpy as ->; [|by left]. f_equal.
    destruct (filter P l) as [|z k] eqn:E; [done|]. assert (Hz : z ∈ filter P l) by (rewrite E; by left).
    apply list_elem_of_filter in Hz as [Hpz Hz]. apply Hrest in Hpz as ->; done.
  - rewrite filter_cons_False by done.
    apply elem_of_cons in Hx as [->|Hx]; [by destruct Hpy; apply HP; [left|]|]. by apply IH.
Qed.

Lemma listed_record (st : Store) p :
  peers_ok (st_peers st) -> p ∈ listed_peers st <-> st_peers st !! tp_fingerprint p = Some p /\ tp_hidden p = false.
Proof.
  intros Hok. unfold listed_peers, is_listed. rewrite list_elem_of_filter, negb_true_iff, elem_of_bt_values. split.
  - intros [Hh [k Hk]]. by destruct (Hok _ _ Hk) as [-> _].
  - intros [Hp Hh]. eauto.
Qed.

Lemma NoDup_map_filter {A B} (f : A -> B) (P : A -> Prop) `{forall x, base.Decision (P x)} l :
  NoDup (map f l) -> NoDup (map f (filter P l)).
Proof.
  induction l as [|x l IH]; [done|]. intros [Hx Hl]%NoDup_cons. destruct (decide (P x)).
  - rewrite filter_cons_True by done. simpl. constructor; [|by apply IH]. intros Hin. apply Hx.
    apply list_elem_of_fmap in Hin as (y & -> & [_ Hy]%list_elem_of_filter). by apply list_elem_of_fmap_2.
  - rewrite filter_cons_False by done. by apply IH.
Qed.

Lemma listed_nodup (st : Store) : peers_ok (st_peers st) -> NoDup (map tp_fingerprint (listed_peers st)).
Proof.
  intros Hok. assert (Hall : map tp_fingerprint (bt_values (st_peers st)) = bt_keys (st_peers st)).
  { unfold bt_values, bt_keys. rewrite <- !list_fmap_compose. apply list_fmap_ext. intros i [k p] Hi.
    apply list_elem_of_lookup_2, elem_of_bt_items in Hi. destruct (Hok _ _ Hi) as [Hf _]. exact Hf. }
  apply NoDup_map_filter. rewrite Hall. apply bt_keys_nodup.
Qed.

(** The full fingerprint of a listed device names it, as long as no listed
    device calls itself that. *)
Lemma resolve_hex (s : State) p :
  peers_ok (st_peers (dm_store s)) -> p ∈ listed_peers (dm_store s) ->
  (forall q, q ∈ listed_peers (dm_store s) -> tp_device_id q <> to_hex (tp_fingerprint p)) ->
  resolve_device s (to_hex (tp_fingerprint p)) = Some (tp_fingerprint p).
Proof.
  intros Hok Hp Hid. unfold resolve_device. rewrite hex_trim. fold (to_ascii_lowercase (to_hex (tp_fingerprint p))).
  rewrite hex_lower. set (hex := to_hex (tp_fingerprint p)).
  assert (Hlen : length hex = 64%nat) by apply to_hex_length.
  destruct (eqb hex []) eqn:E; [apply eqb_eq in E; by rewrite E in Hlen|]. cbn [negb].
  destruct (find_b _ _) as [q|] eqn:Ef; [apply find_b_some in Ef as [Hq Heq%eqb_eq]; by destruct (Hid q)|].
  destruct (N.ltb_spec (str_len hex) 8) as [Hl|_]; [pose proof (len_le_str_len hex); unfold len in *; lia|].
  rewrite (filter_only _ _ p); [done| |done|].
  - eapply NoDup_fmap_1. apply (listed_nodup _ Hok).
  - intros q Hq. rewrite starts_with_prefix. split; [|by intros ->].
    intros [k Hk]. assert (to_hex (tp_fingerprint q) = hex) as Heq%to_hex_inj.
    { rewrite Hk. assert (length k = 0%nat) as ->%nil_length_inv; [|by rewrite app_nil_r].
      apply (f_equal length) in Hk. rewrite to_hex_length, length_app in Hk. lia. }
    apply listed_record in Hp as [Hp _]; [|done]. apply listed_record in Hq as [Hq _]; [|done]. congruence.
Qed.

(** What a client holds after asking everything at once. *)
Definition polled (r : Run) (e : Env) : GuiState := {|
  gs_status := Some (build_status r e); gs_devices := Some (build_devices r); gs_transfers := Some (build_transfers r);
  gs_clipboard := Some (build_clipboard_status r e).1; gs_notifications := Some (build_notifications_status r e);
  gs_error := None |}.

Lemma polled_distinct (r : Run) e : peers_ok (peers_of r) -> NoDup (fingerprints (devices_of (polled r e))).
Proof.
  intros Hok. set (l := listed_peers (dm_store (rn_daemon r))).
  assert (fingerprints (devices_of (polled r e)) = map to_hex (map tp_fingerprint l)) as ->.
  { change (devices_of (polled r e)) with (map (device_report r) l). unfold fingerprints. rewrite !map_map.
    apply map_ext. intros p. apply hex_lower. }
  apply (NoDup_fmap_2_strong to_hex); [|by apply listed_nodup].
  intros x y _ _. apply to_hex_inj.
Qed.

(** The device an offer is about, in the daemon's own state: trusted, shown,
    connected, granted the capability, and the one meant. *)
Record meant (r : Run) (chosen : option str) (capability : str) (fp : str) (p : TrustedPeer) : Prop := {
  mt_fingerprint : fp = to_hex (tp_fingerprint p);
  mt_trusted : trusted_peer (dm_store (rn_daemon r)) (tp_fingerprint p) = Some p;
  mt_listed : p ∈ listed_peers (dm_store (rn_daemon r));
  mt_allows : allows p capability = true;
  mt_session : exists h, session_for (rn_daemon r) (tp_fingerprint p) = Some h /\ is_stale (dm_now (rn_daemon r)) h = false;
  mt_chosen : match chosen with
              | Some x => to_ascii_lowercase (trim x) = fp
              | None => forall q, q ∈ listed_peers (dm_store (rn_daemon r)) -> tp_revoked q = false -> q = p
              end
}.

Lemma offered_meant (r : Run) e chosen c d :
  peers_ok (peers_of r) -> offered (polled r e) chosen c d ->
  exists p, d = device_report r p /\ meant r chosen c (to_ascii_lowercase (dr_fingerprint d)) p.
Proof.
  intros Hok (_ & Hd & Ha & Hr & _ & Hc & Hg & _). simpl in Hd.
  apply list_elem_of_fmap in Hd as (p & -> & Hp). exists p. split; [done|]. simpl in Hr, Hg.
  pose proof (proj1 (listed_record _ _ Hok) Hp) as [Hl _].
  assert (Hg' : tp_granted_capabilities p !! c = Some true).
  { apply list_elem_of_fmap in Hg as ([k g] & -> & [Hgt Hin]%list_elem_of_filter). simpl in Hgt. subst g.
    by apply elem_of_bt_items in Hin. }
  split; simpl.
  - apply hex_lower.
  - unfold trusted_peer. by rewrite Hl, Hr.
  - done.
  - unfold allows. by rewrite Hr, Hg'.
  - simpl in Hc. rewrite Hr in Hc. destruct (session_for _ _) as [h|]; [|done]. exists h. split; [done|].
    unfold live_state in Hc. by destruct (is_stale _ h).
  - destruct chosen as [x|]; [exact Ha|]. intros q Hq Hqr. simpl in Ha. unfold build_devices in Ha.
    assert (Hin : device_report r q ∈ [device_report r p]).
    { rewrite <- Ha. apply list_elem_of_filter. split; [unfold shown; simpl; by rewrite Hqr|]. by apply list_elem_of_fmap_2. }
    apply list_elem_of_singleton in Hin. assert (tp_fingerprint q = tp_fingerprint p) as Hf.
    { apply to_hex_inj. by apply (f_equal dr_fingerprint) in Hin. }
    apply listed_record in Hq as [Hq _]; [|done]. congruence.
Qed.

Lemma sends_policy (r : Run) e p :
  peers_ok (peers_of r) -> p ∈ listed_peers (dm_store (rn_daemon r)) ->
  clipboard_sends (polled r e) (device_report r p) -> ClipboardPolicy.allow_send (tp_clipboard_policy p) = true.
Proof.
  intros Hok Hp (rep & q & Hrep & _ & _ & Hq & Hs). simpl in Hrep. injection Hrep as Hrep.
  unfold build_clipboard_status in Hrep. destruct (rn_clipboard r) as [c|]; simpl in Hrep; subst rep; simpl in Hq; [|done].
  assert (Hin : clipboard_peer_report r c p ∈ [q]).
  { rewrite <- Hq. apply list_elem_of_filter. split; [simpl; by rewrite !eqb_refl|]. by apply list_elem_of_fmap_2. }
  apply list_elem_of_singleton in Hin as <-. exact Hs.
Qed.

(** C31: what the panel offers is what the daemon would do.  If, from the daemon's
    own reports, the panel offers to send a file or the clipboard, the request it
    makes names, to that daemon, exactly the device meant: one that is trusted,
    listed, has a live session, and is the one chosen or the only one; the
    daemon's own checks would let it pass.  The one condition is that no listed
    device has been given that fingerprint as its device id. *)
Theorem panel_reaches_its_device `{UC : UnicodeCase} (r : Run) e chosen fp name path :
  peers_ok (peers_of r) ->
  (forall q, q ∈ listed_peers (dm_store (rn_daemon r)) -> tp_device_id q <> fp) ->
  let m := PanelModel_build (polled r e) chosen in
  (pm_send_file m = Ready fp name ->
   exists p, meant r chosen Daemon.FILES fp p /\ name = tp_device_name p /\
     send_file_request (pm_send_file m) path = Some (Request.Send fp path) /\
     resolve_device (rn_daemon r) fp = Some (tp_fingerprint p) /\
     is_authorized (rn_daemon r) (tp_fingerprint p) = true) /\
  (pm_send_clipboard m = Ready fp name ->
   exists p, meant r chosen Daemon.CLIPBOARD fp p /\ name = tp_device_name p /\
     send_clipboard_request (pm_send_clipboard m) = Some (Request.ClipboardSend fp false) /\
     resolve_device (rn_daemon r) fp = Some (tp_fingerprint p) /\
     ClipboardPolicy.allow_send (clipboard_policy_for (rn_daemon r) (tp_fingerprint p)) = true).
Proof.
  intros Hok Hid m.
  assert (Hres : forall c p, meant r chosen c fp p -> resolve_device (rn_daemon r) fp = Some (tp_fingerprint p)).
  { intros c p [-> _ Hl _ _ _]. by apply resolve_hex. }
  split; intros Hready.
  - pose proof Hready as Hoff. apply file_offers in Hoff as (d & Hd & -> & ->); [|by apply polled_distinct].
    apply offered_meant in Hd as (p & -> & Hm); [|done]. exists p. split; [done|]. split; [done|].
    split; [by rewrite Hready|]. split; [by eapply Hres|]. unfold is_authorized. rewrite (mt_trusted _ _ _ _ _ Hm).
    apply (mt_allows _ _ _ _ _ Hm).
  - pose proof Hready as Hoff. apply clipboard_offers in Hoff as (d & Hd & Hs & -> & ->); [|by apply polled_distinct].
    apply offered_meant in Hd as (p & -> & Hm); [|done]. exists p. split; [done|]. split; [done|].
    split; [by rewrite Hready|]. split; [by eapply Hres|]. unfold clipboard_policy_for.
    rewrite (mt_trusted _ _ _ _ _ Hm).
    assert (allows p Daemon.CLIPBOARD = true) as -> by apply (mt_allows _ _ _ _ _ Hm).
    apply (sends_policy r e); [done|apply (mt_listed _ _ _ _ _ Hm)|done].
Qed.
End Facts.
