(* ===== verification/ControlRuns.v ===== *)
(** Concrete runs of the control server and of the panel.

    A desktop with two paired devices, one of them connected and sending a file.
    The witnesses of the theorems of [PanelFacts] and [ControlServerFacts], and
    what goes otherwise than the source says: a device id that is another
    device's fingerprint takes over what is aimed at that device; a pairing
    session whose first event cannot be written leaves its window open; the end
    of an older pairing session closes the window of a newer one; a transfer in
    flight whose direction is unknown is said to be received. *)
From S2P Require Import Prelude External Ids Wire Capability Pairing Qr Policy Identity Store UnixFs StoreFacts Control Panel PanelFacts Replay Discovery Transfer Sink Transfers TransfersFacts TransferRuns Approval NotifyContract NotifyQueue NotifyMirror Notifications NotifyRuns Battery Dedup Clipboard ClipboardRuns Session SessionLoop Daemon DaemonFacts ControlServer ControlServerFacts.

Section Runs.
#[local] Existing Instances std_hex letters32 letters64 toy_crypto run_json whole_certificate toy_keys control_codec clip_codec notif_codec.

Program Definition ascii_case : UnicodeCase := {| to_lowercase s := map ascii_lower s |}.
Next Obligation. done. Qed.
#[local] Existing Instance ascii_case.

Definition paired (id name : string) (fp : Fingerprint) (caps : list str) : TrustedPeer := {|
  tp_device_id := lit id; tp_device_name := lit name; tp_platform := 1; tp_fingerprint := fp; tp_paired_at_unix := 5;
  tp_granted_capabilities := list_to_map (map (fun c => (c, true)) caps); tp_last_protocol_version := 1;
  tp_revoked := false; tp_hidden := false;
  tp_clipboard_policy := ClipboardPolicy.Policy true true false false;
  tp_notification_policy := NotificationPolicy.default |}.

Definition tablet : Fingerprint := pad_array [x03].
Definition phone_peer : TrustedPeer := paired "0a" "phone" phone [Daemon.FILES; Daemon.CLIPBOARD].
Definition tablet_peer : TrustedPeer := paired "0b" "tablet" tablet [].

Definition two_store : Store := {|
  st_identity := st_identity demo_store; st_settings := st_settings demo_store;
  st_peers := <[phone := phone_peer]> (<[tablet := tablet_peer]> ∅) |}.

Definition phone_handle : SessionHandle := {|
  sh_id := 1; sh_peer := phone; sh_profile := Profile.Pliwee; sh_device_id := lit "0a"; sh_device_name := lit "phone";
  sh_negotiated := [Daemon.FILES; Daemon.CLIPBOARD]; sh_started := 0; sh_last_inbound_ms := 3000 |}.

Definition two_daemon (st : Store) : DaemonState Fs unit := {|
  dm_store := st; dm_disk := demo_disk; dm_registry := {[ Daemon.FILES := tt; Daemon.CLIPBOARD := tt ]};
  dm_pairing := None; dm_operator := false; dm_sessions := {[ phone := phone_handle ]}; dm_requested := ∅;
  dm_last_seen := ∅; dm_device_info := device_info (st_identity demo_store); dm_now := from_secs 5; dm_unix := 7;
  dm_notices := [] |}.

Definition sink_caps : SinkCapabilities :=
  {| sc_body_markup := true; sc_body := true; sc_persistence := true; sc_dismiss_reporting := true |}.

Definition desk (st : Store) : Runtime Fs unit := {|
  rn_daemon := two_daemon st; rn_battery := ∅; rn_transfers := Some accepted_manager;
  rn_clipboard := Some (ClipboardManager_new (lit "d0"));
  rn_notifications := Some (Notifications.attach_session (NotificationManager_new sink_caps true false) phone 1);
  rn_file_approval := None; rn_listen_port := 55432; rn_listen_families := lit "IPv4"; rn_migrated_from := None;
  rn_legacy_partial_files := [] |}.

Definition quiet_env : Env := {|
  en_session_order := [phone]; en_pending_order := []; en_pong := None;
  en_backend := {| bk_id := lit "wl-clipboard"; bk_describe := []; bk_available := true; bk_watch := false; bk_sensitive := Ok tt |};
  en_read := Ok None; en_written := Ok tt; en_event_id := None; en_sink_id := []; en_sink_describe := []; en_lock_id := [];
  en_lock_describe := []; en_token := Some demo_token; en_metadata := Some true; en_file_name := lit "a.txt";
  en_source := None; en_transfer_id := None; en_elsewhere := fun m => m |}.

Lemma two_peers_ok : peers_ok (st_peers (dm_store (rn_daemon (desk two_store)))).
Proof.
  unfold peers_ok. simpl. apply map_Forall_insert_2; [by split|]. apply map_Forall_insert_2; [by split|].
  apply map_Forall_empty.
Defined.

(** The phone is chosen, in upper case: both actions are offered for it. *)
Definition chosen_phone : option str := Some (lit " 02" ++ map ascii_upper (drop 2 (to_hex phone))).
Definition two_panel : PanelModel := PanelModel_build (polled (desk two_store) quiet_env) chosen_phone.

Example panel_is_ready :
  pm_send_file two_panel = Ready (to_hex phone) (lit "phone") /\
  pm_send_clipboard two_panel = Ready (to_hex phone) (lit "phone") /\
  pm_target (PanelModel_build (polled (desk two_store) quiet_env) None) = MustChoose false.
Proof. vm_compute. done. Qed.

Lemma no_id_is_phone q : q ∈ listed_peers (dm_store (rn_daemon (desk two_store))) -> tp_device_id q <> to_hex phone.
Proof.
  intros Hq. assert (Hb : forallb (fun q => negb (eqb (tp_device_id q) (to_hex phone)))
    (listed_peers (dm_store (rn_daemon (desk two_store)))) = true) by (vm_compute; reflexivity).
  rewrite forallb_forall in Hb. apply list_elem_of_In, Hb in Hq. apply negb_true_iff, eqb_neq in Hq. exact Hq.
Defined.

Lemma panel_reaches_its_device_witness :
  exists p, resolve_device (rn_daemon (desk two_store)) (to_hex phone) = Some (tp_fingerprint p) /\
    is_authorized (rn_daemon (desk two_store)) (tp_fingerprint p) = true.
Proof.
  destruct (panel_reaches_its_device (desk two_store) quiet_env chosen_phone (to_hex phone) (lit "phone") (lit "/tmp/a")
    two_peers_ok no_id_is_phone) as [Hfile _].
  destruct Hfile as (p & _ & _ & _ & Hres & Hauth); [vm_compute; reflexivity|]. exists p. exact (conj Hres Hauth).
Defined.

Lemma panel_offers_exactly_witness :
  exists d, offered (polled (desk two_store) quiet_env) chosen_phone Panel.FILES d /\ dr_device_name d = lit "phone".
Proof.
  destruct (panel_offers_exactly (polled (desk two_store) quiet_env) chosen_phone (to_hex phone) (lit "phone")
    (polled_distinct (desk two_store) quiet_env two_peers_ok)) as [[Hfile _] _].
  destruct Hfile as (d & Hd & _ & Hn); [vm_compute; reflexivity|]. exists d. exact (conj Hd (eq_sym Hn)).
Defined.

(** The devices listed the other way round. *)
Definition backwards (s : GuiState) : GuiState := {|
  gs_status := gs_status s; gs_devices := (fun l => rev l) <$> gs_devices s; gs_transfers := gs_transfers s;
  gs_clipboard := gs_clipboard s; gs_notifications := gs_notifications s; gs_error := gs_error s |}.

Lemma backwards_reordered s : reordered s (backwards s).
Proof.
  split; simpl.
  - reflexivity.
  - destruct (gs_status s); constructor. by repeat split.
  - destruct (gs_devices s); constructor. apply Permutation_rev.
  - destruct (gs_transfers s); by constructor.
  - destruct (gs_clipboard s); constructor. by repeat split.
  - destruct (gs_notifications s); constructor. by repeat split.
Defined.

Lemma panel_order_independent_witness :
  PanelModel_build (backwards (polled (desk two_store) quiet_env)) chosen_phone = two_panel.
Proof.
  destruct (panel_order_independent (polled (desk two_store) quiet_env) (backwards (polled (desk two_store) quiet_env))
    chosen_phone (backwards_reordered _) (polled_distinct (desk two_store) quiet_env two_peers_ok)) as [_ H].
  - vm_compute. repeat constructor. set_solver.
  - exact (eq_sym (H eq_refl)).
Defined.

Lemma rights_only_by_grant_witness :
  let r' := (serve (desk two_store) quiet_env (Request.Grant (lit "0b") Daemon.FILES true)).2 in
  is_authorized (rn_daemon r') tablet = true /\ ~ may (desk two_store) tablet Daemon.FILES /\
  supports (dm_registry (rn_daemon (desk two_store))) Daemon.FILES = true.
Proof.
  intros r'. split; [vm_compute; reflexivity|].
  assert (Hno : ~ may (desk two_store) tablet Daemon.FILES).
  { intros (p & Hp & Ha). vm_compute in Hp. injection Hp as <-. vm_compute in Ha. discriminate Ha. }
  split; [exact Hno|].
  destruct (rights_only_by_grant (desk two_store) quiet_env (Request.Grant (lit "0b") Daemon.FILES true) tablet Daemon.FILES
    two_peers_ok) as [Hm _].
  destruct Hm as [Hm|(device & _ & _ & Hs & _)]; [|by destruct Hno|exact Hs].
  exists (set_granted Daemon.FILES true tablet_peer). split; vm_compute; reflexivity.
Defined.


(** The tablet paired under a device id that is the phone's fingerprint: the
    panel still aims at the phone, and the daemon takes the request for the
    tablet. *)
Definition impostor : TrustedPeer := {|
  tp_device_id := to_hex phone; tp_device_name := lit "tablet"; tp_platform := 1; tp_fingerprint := tablet; tp_paired_at_unix := 5;
  tp_granted_capabilities := {[ Daemon.FILES := true ]}; tp_last_protocol_version := 1; tp_revoked := false; tp_hidden := false;
  tp_clipboard_policy := ClipboardPolicy.default; tp_notification_policy := NotificationPolicy.default |}.

Definition impostor_store : Store := {|
  st_identity := st_identity demo_store; st_settings := st_settings demo_store;
  st_peers := <[phone := phone_peer]> (<[tablet := impostor]> ∅) |}.

Example device_id_names_another :
  let m := PanelModel_build (polled (desk impostor_store) quiet_env) (Some (to_hex phone)) in
  send_file_request (pm_send_file m) (lit "/tmp/a") = Some (Request.Send (to_hex phone) (lit "/tmp/a")) /\
  resolve_device (rn_daemon (desk impostor_store)) (to_hex phone) = Some tablet.
Proof. vm_compute. done. Qed.

Definition no_requests : str -> option Control.Request.t := fun _ => None.

(** The client is gone before it is told of the window. *)
Example window_outlives_its_session :
  let s := (run_pair_session no_requests (two_daemon two_store) (Some demo_token) None false (fun s => s) []).2 in
  daemon_pairing_active s = true.
Proof. vm_compute. done. Qed.

(** A second session opens a window while the first waits; the first expires. *)
Example older_session_closes_newer_window :
  let newer s := (run_pair_session no_requests s (Some demo_token) (Some 600) true (fun s => s) []).2 in
  let s := (run_pair_session no_requests (two_daemon two_store) (Some demo_token) None true newer [PDeadline]).2 in
  daemon_pairing_active (newer (two_daemon two_store)) = true /\ daemon_pairing_active s = false.
Proof. vm_compute. done. Qed.

(** A transfer in flight with a direction this build does not know. *)
Definition odd_transfer : TransferReport := {|
  xr_transfer_id := []; xr_seq := 1; xr_device_name := lit "phone"; xr_fingerprint_short := []; xr_direction := lit "relaying";
  xr_filename := lit "a.txt"; xr_mime_type := []; xr_size_bytes := 0; xr_bytes_transferred := 0; xr_percentage := None;
  xr_state := transfer_state.TRANSFERRING; xr_failure := None; xr_failure_code := None; xr_stored_at := None |}.

Example unknown_direction_is_received :
  let s := {| gs_status := None; gs_devices := None; gs_transfers := Some [odd_transfer]; gs_clipboard := None;
              gs_notifications := None; gs_error := None |} in
  outgoing (xr_direction odd_transfer) = None /\
  TransferLine_label <$> pm_transfer (PanelModel_build s None) = Some (lit "Receiving a.txt").
Proof. vm_compute. done. Qed.

(** What the transfer manager calls its states and failures is what a client may
    branch on, and both agree on which states are final. *)
Example vocabulary_agrees :
  forallb (fun f => mem (lit (FailureReason.code f)) transfer_failure.ALL) FailureReason.ALL = true /\
  forallb (fun c => existsb (fun f => eqb (lit (FailureReason.code f)) c) FailureReason.ALL) transfer_failure.ALL = true /\
  (forall st, transfer_state.is_terminal (lit (TransferState.as_str st)) = TransferState.is_terminal st) /\
  Direction_as_str Sending = transfer_direction.SENDING /\ Direction_as_str Receiving = transfer_direction.RECEIVING.
Proof. split_and!; [vm_compute; done..|by intros []|done|done]. Qed.
End Runs.
