(* ===== verification/CliServe.v ===== *)
(** The command-line client and the daemon behind it.

    A command changes what it names and nothing else; what is typed back from
    a report names the device of the report; a device is paired from a
    terminal only by a yes typed after it was named; nothing the daemon
    reports makes the client panic. *)
From S2P Require Import Prelude External Ids Wire Capability Pairing Qr Transfer Policy Identity Store Control UnixFs Utf8 Sink Transfers TransferRuns Approval StoreFacts Panel Replay Discovery NotifyContract NotifyQueue NotifyMirror Notifications NotifyRuns Battery Dedup Clipboard ClipboardRuns Session SessionLoop Daemon DaemonFacts ControlServer ControlServerFacts ControlRuns GuiPrompt Cli.

(** * Sizes *)

Lemma round_half_even_near a b : b <> 0 ->
  b * round_half_even a b <= a + b / 2 /\ a <= b * round_half_even a b + b / 2.
Proof.
  intros Hb. unfold round_half_even. pose proof (N.div_mod a b Hb) as Hd. pose proof (N.mod_lt a b Hb) as Hr.
  pose proof (N.div_mod b 2 ltac:(lia)) as H2. pose proof (N.mod_lt b 2 ltac:(lia)) as H2'.
  set (q := a / b) in *. set (r := a mod b) in *. set (h := b / 2) in *.
  destruct (N.ltb_spec (2 * r) b); [nia|]. destruct (N.ltb_spec b (2 * r)); [nia|]. destruct (N.even q); nia.
Qed.

(** Up to 2^53 the conversion is exact. *)
Lemma as_f64_exact n : n < 2 ^ 53 -> as_f64 n = n.
Proof.
  intros Hn. unfold as_f64. assert (N.log2 n <= 52) as Hl.
  { destruct (N.eq_dec n 0) as [->|Hz]; [by vm_compute|]. apply N.lt_succ_r, N.log2_lt_pow2; [lia|done]. }
  replace (N.log2 n - 52) with 0 by lia. unfold round_half_even. rewrite N.pow_0_r, N.div_1_r, N.mod_1_r.
  simpl. lia.
Qed.

Lemma human_unit_spec steps v u : let k := human_unit steps v u in
  u <= k <= u + N.of_nat steps /\ (u < k -> 1024 ^ k <= v) /\ (k < u + N.of_nat steps -> v < 1024 ^ (k + 1)).
Proof.
  revert u. induction steps as [|steps IH]; intros u; cbn [human_unit]; [split_and!; lia|].
  replace (1024 * 1024 ^ u) with (1024 ^ (u + 1)) by (rewrite N.add_1_r, N.pow_succ_r'; lia).
  destruct (N.leb_spec (1024 ^ (u + 1)) v) as [Hle|Hlt]; [|split_and!; intros; try lia; done].
  destruct (IH (u + 1)) as (H1 & H2 & H3). split_and!; [lia|lia| |intros; apply H3; lia].
  intros _. destruct (N.eq_dec (human_unit steps v (u + 1)) (u + 1)) as [->|Hne]; [done|]. apply H2. lia.
Qed.

(** The size that is shown is the unit it is given in, to the nearest tenth. *)
Lemma human_bytes_nearest bytes : bytes < 2 ^ 53 -> let u := human_unit 4 (as_f64 bytes) 0 in
  u <= 4 /\ (0 < u -> 1024 ^ u <= bytes) /\ (u < 4 -> bytes < 1024 ^ (u + 1)) /\
  let t := round_half_even (10 * as_f64 bytes) (1024 ^ u) in
  1024 ^ u * t <= 10 * bytes + 1024 ^ u / 2 /\ 10 * bytes <= 1024 ^ u * t + 1024 ^ u / 2.
Proof.
  intros Hb u. unfold u. rewrite as_f64_exact by done. destruct (human_unit_spec 4 bytes 0) as (H1 & H2 & H3).
  split; [lia|]. split; [intros; apply H2; lia|]. split; [intros; apply H3; lia|]. apply round_half_even_near. apply N.pow_nonzero. lia.
Qed.

(** * What the daemon reports never makes the client panic *)

Section Serve.
Context {D H : Type} `{SS : !SecretStore D, IB : !IdentityBackend, B64 : !Base64Codec, JS : !Json StateFile, HC : !HexCodec,
  B32 : !Base32Codec, CR : !Crypto, PF : !Prost FileControl, PC : !Prost ClipboardControl, PN : !Prost NotificationControl, UC : !UnicodeCase}.
Abbreviation State := (DaemonState D H).
Abbreviation Run := (Runtime D H).
Abbreviation peers_of r := (st_peers (dm_store (rn_daemon r))).
Abbreviation listed r := (listed_peers (dm_store (rn_daemon r))).

Lemma ascii_boundary s i : Forall (fun c => c < 128) s -> i <= len s -> is_char_boundary s i = true.
Proof.
  revert i. induction s as [|c s IH]; intros i Hs Hi.
  { unfold len in Hi. simpl in *. destruct (N.eqb_spec i 0); [done|lia]. }
  simpl. destruct (N.eqb_spec i 0) as [|Hz]; [done|]. apply Forall_cons in Hs as [Hc Hs].
  assert (char_len c = 1) as ->. { unfold char_len, char_utf8. by rewrite (proj2 (N.ltb_lt _ _) Hc). }
  rewrite IH; [|done|]; [|autorewrite with len in Hi; lia]. destruct (N.leb_spec 1 i); [done|lia].
Qed.

Lemma transfer_report_prints (r : Run) t indent : is_Some (print_transfer (transfer_report r t) indent).
Proof.
  unfold print_transfer. cbn [xr_transfer_id transfer_report]. rewrite ascii_boundary; [by eexists| |].
  - unfold TransferId.to_hex. eapply Forall_impl; [apply hex_string_ascii|]. cbn. intros c Hc. exact Hc.
  - unfold TransferId.to_hex, len. rewrite hex_string_length, bytesn_length. vm_compute. done.
Qed.

Lemma transfers_print (r : Run) : (print_response (Response.Transfers (build_transfers r)) []).2 = Success.
Proof.
  assert (Hall : forall l, (print_transfers (map (transfer_report r) l)).2 = Success).
  { induction l as [|t l IH]; [done|]. cbn [map print_transfers].
    destruct (transfer_report_prints r t (lit "  ")) as [x ->]. by destruct (print_transfers _). }
  cbn [print_response]. destruct (build_transfers r) as [|t l] eqn:E; [done|]. rewrite <- E. clear E.
  unfold build_transfers. by destruct (rn_transfers r).
Qed.

Lemma percentage_bound size n p : size * 100 <= u64_max -> percentage size n = Some p -> p <= 100.
Proof.
  unfold percentage. destruct (N.eqb_spec size 0); [done|]. intros Hs [= <-].
  pose proof (N.le_min_r n size) as Hm. rewrite (N.mod_small (N.min n size * 100)) by lia.
  assert (N.min n size * 100 / size <= 100) as Hle. { apply N.Div0.div_le_upper_bound. lia. }
  rewrite N.mod_small; lia.
Qed.

Lemma progress_prints (r : Run) t : tr_size_bytes t * 100 <= u64_max -> is_Some (progress_line (transfer_report r t)).
Proof.
  intros Hs. unfold progress_line. cbn [xr_percentage transfer_report]. destruct (percentage _ _) as [p|] eqn:E; [|by eexists].
  apply percentage_bound in E; [|done]. destruct (N.ltb_spec 24 (p * 24 / 100)) as [Hl|]; [|by eexists].
  assert (p * 24 / 100 <= 24) by (apply N.Div0.div_le_upper_bound; lia). lia.
Qed.

(** * A command changes what it names *)

(** What a command may do to the trust store. *)
Definition command_op (s : State) (c : CliCommand) (o : StoreOp) : Prop :=
  match c with
  | CmdUnpair device => exists fp, o = OpRevoke fp /\ resolve_device s device = Some fp
  | CmdRemoveFromList (Some name) false => exists fp, o = OpHide fp /\ from_hex (trim name) = Ok fp
  | CmdRemoveFromList None true => o = OpHideAll
  | CmdGrant device c => exists fp, o = OpGrant fp c true /\ resolve_device s device = Some fp
  | CmdRevoke device c => exists fp, o = OpGrant fp c false /\ resolve_device s device = Some fp
  | CmdClipboard (CAllow device _ _ | CAutoSend device _ | CAutoReceive device _) =>
      exists fp p, o = OpClipboard fp p /\ resolve_device s device = Some fp
  | CmdNotifications (NMirror device _ | NWhenLocked device _ | NDismissSync device _) =>
      exists fp p, o = OpNotification fp p /\ resolve_device s device = Some fp
  | _ => False
  end.

(** A command's request does at most the operation the command names, and the
    others none. *)
Lemma command_store (r : Run) e c q : simple_request c = Some q ->
  (dm_store (rn_daemon (serve r e q).2) = dm_store (rn_daemon r) /\ dm_disk (rn_daemon (serve r e q).2) = dm_disk (rn_daemon r)) \/
  exists o ok, command_op (rn_daemon r) c o /\
    run_op (dm_store (rn_daemon r)) (dm_disk (rn_daemon r)) o
      = (ok, dm_store (rn_daemon (serve r e q).2), dm_disk (rn_daemon (serve r e q).2)).
Proof.
  intros Hq. destruct (serve_store r e q) as [|(o & ok & Ha & Ho)]; [by left|right]. exists o, ok. split; [|done].
  destruct c as [| | | | |[f|] []| | | | | |[]|[]]; simpl in Hq; simplify_eq; destruct o; simpl in Ha |- *; naive_solver.
Qed.

(** * What is typed back *)

(** Every byte is two digits. *)
Hypothesis hexlower_app : forall a b, hexlower_encode (a ++ b) = hexlower_encode a ++ hexlower_encode b.

Lemma chunks4_join n s : (length s <= n)%nat -> 32 ∉ s -> without_spaces (join [32] (chunks4 n s)) = s.
Proof.
  unfold without_spaces. revert s. induction n as [|n IH]; intros s Hn Hs; [by destruct s; [|simpl in Hn; lia]|].
  destruct s as [|c s]; [done|]. cbn [chunks4].
  assert (Hall : forall t : str, 32 ∉ t -> filter (fun c => c <> 32) t = t).
  { induction t as [|x t IHt]; intros Ht; [done|]. rewrite filter_cons_True by set_solver. f_equal. apply IHt. set_solver. }
  assert (Hsplit : 32 ∉ take 4 (c :: s) /\ 32 ∉ drop 4 (c :: s)) by (rewrite <- not_elem_of_app; by rewrite take_drop).
  assert (Hrest : filter (fun c => c <> 32) (join [32] (chunks4 n (drop 4 (c :: s)))) = drop 4 (c :: s)).
  { apply IH; [rewrite length_drop; simpl in *; lia|apply Hsplit]. }
  assert (Hjoin : forall x l, filter (fun c => c <> 32) (join [32] (x :: l)) = filter (fun c => c <> 32) x ++ filter (fun c => c <> 32) (join [32] l)).
  { intros x [|y l]; [by rewrite app_nil_r|]. cbn [join]. rewrite !filter_app. simpl. done. }
  rewrite Hjoin, Hrest, Hall by apply Hsplit. apply take_drop.
Qed.

Lemma hex_digit_facts b c : c ∈ hexlower_encode b ->
  c < 128 /\ c <> 32 /\ ascii_lower (ascii_upper c) = c /\ is_whitespace c = false /\ ascii_upper c < 128 /\ ascii_upper c <> 32.
Proof.
  intros Hc. pose proof (hexlower_alphabet b) as Ha. rewrite Forall_forall in Ha. specialize (Ha c Hc).
  apply orb_true_iff in Ha. unfold is_ascii_digit, in_range in Ha. rewrite !andb_true_iff, !N.leb_le in Ha.
  assert (Hcases : c ∈ map N.of_nat (seq 48 10 ++ seq 97 6)).
  { apply list_elem_of_fmap. exists (N.to_nat c). rewrite N2Nat.id, elem_of_app, !elem_of_seq. split; [done|lia]. }
  clear Hc Ha. revert c Hcases. apply Forall_forall. vm_compute. repeat constructor; done.
Qed.

(** The selector of a device's short form is the beginning of its
    fingerprint. *)
Lemma short_selector (fp : Fingerprint) : to_lowercase (without_spaces (display_short fp)) = hexlower_encode (take 8 (bn_bytes fp)).
Proof.
  unfold display_short. set (hex := hexlower_encode _).
  assert (Hfacts : forall c, c ∈ hex -> c < 128 /\ c <> 32 /\ ascii_lower (ascii_upper c) = c /\ is_whitespace c = false /\
    ascii_upper c < 128 /\ ascii_upper c <> 32) by (intros c; apply hex_digit_facts).
  rewrite chunks4_join; [|done|].
  - rewrite to_lowercase_ascii.
    + rewrite map_map. rewrite <- (map_id hex) at 2. apply map_ext_in. intros c Hc%list_elem_of_In. by apply Hfacts.
    + apply forallb_forall. intros c Hc%list_elem_of_In. apply list_elem_of_fmap in Hc as (x & -> & Hx). apply N.ltb_lt. by apply Hfacts.
  - intros Hc. apply list_elem_of_fmap in Hc as (x & Hx & Hin). by apply (Hfacts x) in Hin as (_ & _ & _ & _ & _ & []).
Qed.

Lemma short_prefix (fp fp' : Fingerprint) : hexlower_encode (take 8 (bn_bytes fp)) `prefix_of` to_hex fp' ->
  take 8 (bn_bytes fp') = take 8 (bn_bytes fp).
Proof.
  unfold to_hex. rewrite <- (take_drop 8 (bn_bytes fp')) at 1. rewrite hexlower_app. intros [k Hk].
  apply app_inj_1 in Hk as [Hk _]; [|by rewrite !hexlower_encode_len, !length_take, !bytesn_length].
  apply (f_equal (fun s => hexlower_decode (str_bytes s))) in Hk. rewrite !hexlower_decode_encode in Hk. by injection Hk.
Qed.

(** The beginning of a fingerprint names its device, if it is nobody else's
    and nobody's device id. *)
Lemma resolve_short (s : State) p : let sel := hexlower_encode (take 8 (bn_bytes (tp_fingerprint p))) in
  peers_ok (st_peers (dm_store s)) -> p ∈ listed_peers (dm_store s) ->
  (forall q, q ∈ listed_peers (dm_store s) -> tp_device_id q <> sel) ->
  (forall q, q ∈ listed_peers (dm_store s) -> take 8 (bn_bytes (tp_fingerprint q)) = take 8 (bn_bytes (tp_fingerprint p)) -> q = p) ->
  resolve_device s sel = Some (tp_fingerprint p).
Proof.
  intros sel Hok Hp Hid Hone. unfold resolve_device.
  assert (Hlen : length sel = 16%nat) by (unfold sel; by rewrite hexlower_encode_len, length_take, bytesn_length).
  assert (Hspace : forall c, c ∈ sel -> is_whitespace c = false) by (intros c Hc; by apply (hex_digit_facts _ _ Hc)).
  assert (Hneedle : map ascii_lower (trim sel) = sel).
  { unfold trim, trim_start, trim_end_matches. rewrite (drop_while_none _ sel) by done.
    rewrite drop_while_none; [|intros c Hc; apply Hspace; rewrite list_elem_of_In in *; by apply in_rev].
    rewrite rev_involutive. rewrite <- (map_id sel) at 2. apply map_ext_in. intros c Hc%list_elem_of_In.
    pose proof (hexlower_alphabet (take 8 (bn_bytes (tp_fingerprint p)))) as Ha. rewrite Forall_forall in Ha. specialize (Ha c Hc).
    unfold ascii_lower. apply orb_true_iff in Ha. unfold is_ascii_digit, in_range in *. rewrite !andb_true_iff, !N.leb_le in Ha.
    destruct (N.leb_spec 65 c), (N.leb_spec c 90); simpl; lia. }
  rewrite Hneedle. destruct (eqb sel []) eqn:E; [apply eqb_eq in E; by rewrite E in Hlen|]. cbn [negb].
  destruct (find_b _ _) as [q|] eqn:Ef; [apply find_b_some in Ef as [Hq Heq%eqb_eq]; by destruct (Hid q)|].
  destruct (N.ltb_spec (str_len sel) 8) as [Hl|_]; [pose proof (len_le_str_len sel); unfold len in *; lia|].
  rewrite (filter_only _ _ p); [done| |done|].
  - eapply NoDup_fmap_1. apply (listed_nodup _ Hok).
  - intros q Hq. rewrite starts_with_prefix. split; [intros Hpre; apply Hone; [done|by apply short_prefix]|intros ->].
    unfold sel, to_hex. rewrite <- (take_drop 8 (bn_bytes (tp_fingerprint p))) at 2. rewrite hexlower_app. by apply prefix_app_r.
Qed.

(** The command printed for a clip that waits, typed back, asks the daemon
    for that very clip: its argument names to the daemon the device the clip is
    from, as long as no listed device shares the eight bytes that are printed
    or has been given them as its device id. *)
Theorem apply_hint_names_the_clip (r : Run) c p report :
  peers_ok (peers_of r) -> p ∈ listed r -> pending_report r c (tp_fingerprint p) = Some report ->
  (forall q, q ∈ listed r -> tp_device_id q <> apply_selector report) ->
  (forall q, q ∈ listed r -> take 8 (bn_bytes (tp_fingerprint q)) = take 8 (bn_bytes (tp_fingerprint p)) -> q = p) ->
  simple_request (CmdClipboard (CApply (apply_selector report))) = Some (Request.ClipboardApply (apply_selector report)) /\
  resolve_device (rn_daemon r) (apply_selector report) = Some (tp_fingerprint p).
Proof.
  intros Hok Hp Hr Hid Hone. split; [done|].
  assert (Hsel : apply_selector report = hexlower_encode (take 8 (bn_bytes (tp_fingerprint p)))).
  { unfold pending_report in Hr. destruct (cb_pending c !! _); [|done]. simpl in Hr. injection Hr as <-.
    unfold apply_selector. cbn [pr_fingerprint_short]. apply short_selector. }
  rewrite Hsel in *. by apply resolve_short.
Qed.

(** * Pairing from a terminal *)

(** A person typed y or yes, in any case and with blanks around it. *)
Definition typed_yes (line : option str) : Prop :=
  exists l, line = Some l /\ (map ascii_lower (trim l) = lit "y" \/ map ascii_lower (trim l) = lit "yes").

Lemma read_yes line : read_yes_no line = true <-> typed_yes line.
Proof.
  unfold typed_yes. destruct line as [l|]; simpl; [|naive_solver]. rewrite orb_true_iff, !eqb_true. naive_solver.
Qed.

(** A history in which every answer sent follows the prompt that names a device,
    and is what was typed to that prompt. *)
Inductive as_typed : list Answer -> list Effect -> Prop :=
| as_typed_nil answers : as_typed answers []
| as_typed_other answers eff effs : (forall b, eff <> Wrote (Request.Confirm b)) -> as_typed answers effs -> as_typed answers (eff :: effs)
| as_typed_prompt a b answers name id short effs : (b = true <-> typed_yes (an_line a)) -> as_typed answers effs ->
    as_typed (a :: answers) (confirm_prompt name id short ++ [Wrote (Request.Confirm b)] ++ effs)
| as_typed_silence name id short effs : as_typed [] effs ->
    as_typed [] (confirm_prompt name id short ++ [Wrote (Request.Confirm false)] ++ effs).

Lemma as_typed_others answers pre effs : (forall eff b, eff ∈ pre -> eff <> Wrote (Request.Confirm b)) -> as_typed answers effs ->
  as_typed answers (pre ++ effs).
Proof.
  induction pre as [|x pre IH]; intros Hpre He; [done|]. simpl. apply as_typed_other; [intros b; apply Hpre; left|].
  apply IH; [|done]. intros eff b Hin. apply Hpre. by right.
Qed.

Lemma as_typed_only answers pre : (forall eff b, eff ∈ pre -> eff <> Wrote (Request.Confirm b)) -> as_typed answers pre.
Proof. intros Hpre. rewrite <- (app_nil_r pre). apply as_typed_others; [done|constructor]. Qed.

Lemma pair_prompts_as_typed stream answers : as_typed answers (pair_prompts stream answers).1.
Proof.
  assert (Hquiet : forall l : list Effect, forallb (fun e => match e with Wrote _ => false | _ => true end) l = true ->
    forall eff b, eff ∈ l -> eff <> Wrote (Request.Confirm b)).
  { intros l Hl eff b Hin ->. rewrite forallb_forall in Hl. rewrite list_elem_of_In in Hin. by specialize (Hl _ Hin). }
  revert answers. induction stream as [|[l|] stream IH]; intros answers; simpl; [constructor| |constructor].
  destruct (is_error_line (cl_text l)) as [m|]; [apply as_typed_only; by apply Hquiet|].
  destruct (lt_event (cl_text l)) as [[payload qr secs|name id fp short|status detail| | | |]|]; try apply IH.
  - specialize (IH answers). destruct (pair_prompts stream answers) as [out e].
    do 4 (apply as_typed_other; [done|]). done.
  - destruct answers as [|a answers]; cbn [head tail default].
    + specialize (IH []). simpl. destruct (pair_prompts stream []) as [out e]. exact (as_typed_silence name id short out IH).
    + cbn [from_option]. change (Datatypes.id a) with a. destruct (an_written a); cbn [negb].
      * specialize (IH answers). destruct (pair_prompts stream answers) as [out e]. exact (as_typed_prompt a _ answers name id short out (read_yes _) IH).
      * apply as_typed_only; by apply Hquiet.
  - apply as_typed_only; by apply Hquiet.
  - constructor.
Qed.

(** The daemon and the terminal: what the daemon says when a device has proved
    the code, what the terminal answers, and what the daemon makes of it. *)
Definition event_line (ev : Event.t) : StreamItem :=
  SLine {| cl_text := {| lt_response := None; lt_event := Some ev |}; cl_message := [] |}.

Definition wrote_of (e : Effect) : option Request.t := match e with Wrote q => Some q | _ => None end.

Definition terminal_pairs (parse : str -> option Request.t) (show : Request.t -> str) (device : DeviceInfo) (fp : Fingerprint) (a : Answer)
    : list Effect * PairTurn :=
  let said := pt_events (pair_step parse (PConfirm device fp None)) in
  let effs := (pair_prompts (event_line <$> said) [a]).1 in
  (effs, pair_step parse (PConfirm device fp (show <$> head (omap wrote_of effs)))).

(** C33: pairing from a terminal takes a yes.  In any session every answer that
    is sent follows the prompt that names a device and is what was typed to
    that prompt, a no when nothing was; and between the daemon and the
    terminal, a device that has proved the pairing code is accepted exactly if
    y or yes was typed, and sent, after the name, the id and the fingerprint of
    that device were printed. *)
Theorem terminal_pairs_on_yes (parse : str -> option Request.t) (show : Request.t -> str) device fp a stream answers :
  (forall b, parse (show (Request.Confirm b)) = Some (Request.Confirm b)) ->
  as_typed answers (pair_prompts stream answers).1 /\
  let '(effs, turn) := terminal_pairs parse show device fp a in
  (pt_answer turn = Some true <-> typed_yes (an_line a) /\ an_written a = true) /\
  effs = confirm_prompt (sanitize_device_name (di_device_name device)) (di_device_id device) (display_short fp)
         ++ (if an_written a then [Wrote (Request.Confirm (bool_decide (pt_answer turn = Some true)))] else []).
Proof.
  intros Hround. split; [apply pair_prompts_as_typed|]. unfold terminal_pairs. destruct (an_written a) eqn:Hw; cbn; rewrite Hw; cbn; rewrite <- read_yes; [|naive_solver].
  rewrite Hround. destruct (read_yes_no (an_line a)); naive_solver.
Qed.
End Serve.

(** * How a run ends *)

(** One request ends well exactly when the daemon answered it with something
    other than an error (and a transfer it lists has an id that can be cut). *)
Lemma simple_success `{!UnicodeCase} q written stream : (simple q written stream).2 = Success <->
  written = true /\ exists l rest resp, stream = SLine l :: rest /\ lt_response (cl_text l) = Some resp /\
    (print_response resp (cl_message l)).2 = Success.
Proof.
  unfold simple. destruct written; simpl; [|naive_solver].
  destruct stream as [|[l|] rest]; simpl; [naive_solver| |naive_solver].
  destruct (lt_response (cl_text l)) as [resp|] eqn:E; simpl; [|naive_solver].
  destruct (print_response resp (cl_message l)) as [out e] eqn:Ep. simpl. split.
  - intros ->. split; [done|]. exists l, rest, resp. by rewrite Ep.
  - intros (_ & l' & rest' & resp' & [= <- <-] & Hl & Hp). rewrite E in Hl. injection Hl as <-. by rewrite Ep in Hp.
Qed.

(** A daemon that goes away in the middle of a transfer ends the command that
    sends the file with status 0, without a word. *)
Example lost_transfer_is_success : send_stream false [] = ([], Success) /\ exit_code (send_stream false []).2 = 0.
Proof. done. Qed.

(** * Concrete runs *)


Section Runs.
#[local] Existing Instances std_hex letters32 letters64 toy_crypto run_json whole_certificate toy_keys control_codec clip_codec notif_codec ascii_case.

Lemma std_hex_app (a b : bytes) : hexlower_encode (a ++ b) = hexlower_encode a ++ hexlower_encode b.
Proof. unfold hexlower_encode. simpl. unfold hex_string. apply bind_app. Qed.

(** The tablet's clip is held. *)
Definition holding : Clip := clip_run connected [EvMessage ClipboardRuns.tablet [] 2 (update x01 (lit "old"))].
Definition held_report : option PendingClipReport := pending_report (desk two_store) holding (tp_fingerprint tablet_peer).

Example hint_typed_back : (fun rep => (apply_selector rep, resolve_device (rn_daemon (desk two_store)) (apply_selector rep))) <$> held_report
  = Some (lit "0300000000000000", Some (tp_fingerprint tablet_peer)).
Proof. vm_compute. reflexivity. Qed.

Lemma all_listed (P : TrustedPeer -> bool) :
  forallb P (listed_peers (dm_store (rn_daemon (desk two_store)))) = true ->
  forall q, q ∈ listed_peers (dm_store (rn_daemon (desk two_store))) -> P q = true.
Proof. intros Hb q Hq. rewrite forallb_forall in Hb. apply list_elem_of_In, Hb in Hq. exact Hq. Defined.

Lemma apply_hint_names_the_clip_witness : exists report,
  held_report = Some report /\ resolve_device (rn_daemon (desk two_store)) (apply_selector report) = Some (tp_fingerprint tablet_peer).
Proof.
  destruct held_report as [rep|] eqn:Hrep; [|vm_compute in Hrep; discriminate Hrep]. exists rep. split; [reflexivity|].
  assert (Hsel : apply_selector rep = lit "0300000000000000").
  { pose proof hint_typed_back as Ht. rewrite Hrep in Ht. cbn [fmap option_fmap option_map] in Ht. congruence. }
  apply (apply_hint_names_the_clip std_hex_app (desk two_store) holding tablet_peer rep two_peers_ok).
  - apply list_elem_of_In. vm_compute. auto.
  - exact Hrep.
  - intros q Hq. rewrite Hsel.
    apply (all_listed (fun q => negb (eqb (tp_device_id q) (lit "0300000000000000")))) in Hq; [|vm_compute; reflexivity].
    apply negb_true_iff, eqb_neq in Hq. exact Hq.
  - intros q Hq. apply list_elem_of_In in Hq. vm_compute in Hq. destruct Hq as [<-|[<-|[]]]; [|reflexivity].
    intros Heq. vm_compute in Heq. discriminate Heq.
Defined.

(** Requests as their own text. *)
Definition show_confirm (q : Request.t) : str := match q with Request.Confirm true => lit "y" | Request.Confirm false => lit "n" | _ => [] end.

Definition new_phone : DeviceInfo := device_info (st_identity demo_store).

Definition read_confirm (s : str) : option Request.t := Some (Request.Confirm (eqb s (lit "y"))).

(** What the terminal shows of a device, and the daemon's decision. *)
Example terminal_says_yes :
  let run l := terminal_pairs read_confirm show_confirm new_phone ClipboardRuns.phone {| an_line := l; an_written := true |} in
  pt_answer (run (Some (lit " Yes"))).2 = Some true /\ pt_answer (run (Some (lit "yep"))).2 = Some false /\ pt_answer (run None).2 = Some false /\
  Println (lit "  fingerprint 0200 0000 0000 0000") ∈ (run None).1.
Proof. vm_compute. split_and!; try reflexivity. apply list_elem_of_In. simpl. auto 10. Qed.

Lemma terminal_pairs_on_yes_witness :
  let a := {| an_line := Some (lit "y"); an_written := true |} in
  as_typed [a] (pair_prompts [event_line (Event.ConfirmRequest (lit "phone") (lit "0a") [] (lit "0200"))] [a]).1 /\
  pt_answer (terminal_pairs read_confirm show_confirm new_phone ClipboardRuns.phone a).2 = Some true.
Proof.
  intros a.
  pose proof (terminal_pairs_on_yes read_confirm show_confirm new_phone ClipboardRuns.phone a
    [event_line (Event.ConfirmRequest (lit "phone") (lit "0a") [] (lit "0200"))] [a]) as Hth.
  destruct Hth as [Hans Hyes]; [intros []; vm_compute; reflexivity|]. split; [exact Hans|].
  destruct (terminal_pairs _ _ _ _ _) as [effs turn]. destruct Hyes as [[_ Hyes] _]. apply Hyes.
  split; [|reflexivity]. exists (lit "y"). split; [reflexivity|]. left. vm_compute. reflexivity.
Defined.
End Runs.

(** Sizes and durations as they are shown. *)
Example sizes : human_bytes 1023 = lit "1023 B" /\ human_bytes 1536 = lit "1.5 KiB" /\ human_bytes 1048575 = lit "1024.0 KiB" /\
  human_bytes u64_max = lit "16777216.0 TiB" /\ human_duration 3725 = lit "1h02m" /\ human_duration 65 = lit "1m05s".
Proof. vm_compute. split_and!; reflexivity. Qed.
