(* ===== verification/ViewsServe.v ===== *)
(** The pages and the daemon behind them.

    Every switch on a page drawn from the daemon's own reports shows what the
    trust store holds of one device, and moving it changes that, and only that,
    of that device; the badges of the notifications page say what the
    notification manager would do. *)
From S2P Require Import Prelude External Ids Wire Capability Pairing Qr Policy Identity Store UnixFs StoreFacts Control Utf8 Selection Panel Gui Views Replay Discovery Transfer Sink Transfers Approval NotifyContract NotifyQueue NotifyMirror Notifications Battery Dedup Clipboard Session SessionLoop Daemon ControlServer ControlServerFacts.

(** * What a switch is about *)

Inductive Right := Granted (c : str) | Flag (f : ClipboardFlag) | Mirroring | Dismissing.

#[export] Instance ClipboardFlag_eq_dec : EqDecision ClipboardFlag.
Proof. solve_decision. Defined.
#[export] Instance Right_eq_dec : EqDecision Right.
Proof. solve_decision. Defined.

(** What the trust store holds. *)
Definition holds (p : TrustedPeer) (x : Right) : bool :=
  match x with
  | Granted c => allows p c
  | Flag FlagSend => ClipboardPolicy.allow_send (tp_clipboard_policy p)
  | Flag FlagReceive => ClipboardPolicy.allow_receive (tp_clipboard_policy p)
  | Flag FlagAutoSend => ClipboardPolicy.auto_send (tp_clipboard_policy p)
  | Flag FlagAutoReceive => ClipboardPolicy.auto_receive (tp_clipboard_policy p)
  | Mirroring => NotificationPolicy.allow_mirror (tp_notification_policy p)
  | Dismissing => NotificationPolicy.allow_dismiss_sync (tp_notification_policy p)
  end.

Definition lock_policy (p : TrustedPeer) : LockPolicy.t := NotificationPolicy.when_sink_locked (tp_notification_policy p).

(** The request that changes it. *)
Definition request_for (device : str) (x : Right) (wanted : bool) : Request.t :=
  match x with
  | Granted c => Request.Grant device c wanted
  | Flag f => Request.ClipboardPolicy device f wanted
  | Mirroring => Request.NotificationsPolicy device (SetMirror wanted)
  | Dismissing => Request.NotificationsPolicy device (SetDismissSync wanted)
  end.

(** The operation on the trust store that does. *)
Definition op_for (p : TrustedPeer) (x : Right) (wanted : bool) : StoreOp :=
  let fp := tp_fingerprint p in
  let '(NotificationPolicy.Policy m l d) := tp_notification_policy p in
  match x with
  | Granted c => OpGrant fp c wanted
  | Flag f => OpClipboard fp (set_flag (tp_clipboard_policy p) f wanted)
  | Mirroring => OpNotification fp (NotificationPolicy.Policy wanted l d)
  | Dismissing => OpNotification fp (NotificationPolicy.Policy m l wanted)
  end.

Section Serve.
Context {D H : Type} `{SS : !SecretStore D, IB : !IdentityBackend, B64 : !Base64Codec, JS : !Json StateFile, HC : !HexCodec,
  B32 : !Base32Codec, CR : !Crypto, PF : !Prost FileControl, PC : !Prost ClipboardControl, PN : !Prost NotificationControl}.
Abbreviation State := (DaemonState D H).
Abbreviation Run := (Runtime D H).
Abbreviation peers_of r := (st_peers (dm_store (rn_daemon r))).
Abbreviation listed r := (listed_peers (dm_store (rn_daemon r))).

(** Device ids are as this program makes them, and no two listed devices have the
    same. *)
Definition ids_ok (r : Run) : Prop := forall p, p ∈ listed r ->
  tp_device_id p <> [] /\ map ascii_lower (trim (tp_device_id p)) = tp_device_id p /\
  forall q, q ∈ listed r -> tp_device_id q = tp_device_id p -> q = p.

Lemma resolve_id (r : Run) p : ids_ok r -> p ∈ listed r -> resolve_device (rn_daemon r) (tp_device_id p) = Some (tp_fingerprint p).
Proof.
  intros Hids Hp. destruct (Hids p Hp) as (Hne & Hnorm & Huniq). unfold resolve_device. rewrite Hnorm.
  assert (eqb (tp_device_id p) [] = false) as -> by by apply eqb_false. cbn [negb].
  destruct (find_b _ _) as [q|] eqn:Hf.
  - apply find_b_some in Hf as [Hq Heq%eqb_eq]. by rewrite (Huniq q Hq Heq).
  - pose proof (find_b_none _ _ _ Hf Hp) as Hn. simpl in Hn. by rewrite eqb_refl in Hn.
Qed.

(** Only a capability can be one the daemon does not have. *)
Definition implemented (r : Run) (x : Right) : bool := match x with Granted c => supports (dm_registry (rn_daemon r)) c | _ => true end.

(** * Moving it *)

Lemma op_for_effect m p x wanted k : m !! tp_fingerprint p = Some p -> tp_revoked p = false ->
  match op_peers (op_for p x wanted) m !! k with
  | Some p' => if decide (k = tp_fingerprint p)
               then (forall y, holds p' y = if decide (y = x) then wanted else holds p y) /\ lock_policy p' = lock_policy p /\ tp_revoked p' = false
               else m !! k = Some p'
  | None => m !! k = None
  end.
Proof.
  intros Hp Hr. unfold op_for. destruct (tp_notification_policy p) as [mm l d] eqn:Hn.
  assert (Halter : forall f, alter f (tp_fingerprint p) m !! k = if decide (k = tp_fingerprint p) then Some (f p) else m !! k).
  { intros f. destruct (decide _) as [->|Hne]; [by rewrite lookup_alter_eq, Hp|by rewrite lookup_alter_ne]. }
  destruct x as [c|f| |]; simpl; rewrite Halter; destruct (decide (k = _)) as [->|Hne]; try (by destruct (m !! k)); simpl;
    (split; [|split; [by unfold lock_policy; simpl; rewrite ?Hn|done]]).
  - intros [c'|f| |]; simpl; try done. unfold allows. simpl. rewrite Hr. simpl. destruct (decide (Granted c' = Granted c)) as [[= ->]|Hne].
    + by rewrite lookup_insert_eq.
    + rewrite lookup_insert_ne by congruence. done.
  - intros [c'|f'| |]; simpl; try done. destruct (tp_clipboard_policy p) as [a b e g] eqn:Hc. destruct f, f'; simpl; done.
  - intros [c'|f'| |]; simpl; try done. by rewrite Hn.
  - intros [c'|f'| |]; simpl; try done. by rewrite Hn.
Qed.

(** The reply and the trust store after the request. *)
Lemma serve_right (r : Run) e p x wanted :
  resolve_device (rn_daemon r) (tp_device_id p) = Some (tp_fingerprint p) ->
  trusted_peer (dm_store (rn_daemon r)) (tp_fingerprint p) = Some p ->
  implemented r x = true ->
  exists ok st d, run_op (dm_store (rn_daemon r)) (dm_disk (rn_daemon r)) (op_for p x wanted) = (ok, st, d) /\
    peers_of (serve r e (request_for (tp_device_id p) x wanted)).2 = st_peers st /\
    if ok : bool then (serve r e (request_for (tp_device_id p) x wanted)).1 = Replied Response.Ok
    else exists m, (serve r e (request_for (tp_device_id p) x wanted)).1 = Replied (Response.Error m).
Proof.
  intros Hres Ht Hsup. unfold op_for. destruct (tp_notification_policy p) as [m l d] eqn:Hn.
  destruct x as [c|f| |]; cbn [request_for serve by_daemon run_op fst snd]; rewrite commit_daemon.
  - cbn [implemented] in Hsup. unfold do_grant. rewrite Hres, Hsup, Ht. simpl. destruct (set_capability_grant _ _ _ _ _) as [[out st] dd].
    exists (is_ok out), st, dd. split; [done|]. destruct out as [u|err]; simpl; [|eauto].
    match goal with |- context [renegotiate_after_grant ?s4 ?a ?b ?g] => pose proof (renegotiate_store s4 a b g) as [Hst _];
      destruct (renegotiate_after_grant s4 a b g) as [dec s5]; simpl in * end.
    rewrite Hst. by repeat case_match.
  - unfold do_clipboard_policy. rewrite Hres, Ht. destruct (set_clipboard_policy _ _ _ _) as [[out st] dd].
    exists (is_ok out), st, dd. destruct out; simpl; eauto.
  - unfold do_notifications_policy. rewrite Hres, Ht, Hn. simpl. destruct (set_notification_policy _ _ _ _) as [[out st] dd].
    exists (is_ok out), st, dd. destruct out; simpl; [|eauto]. by destruct wanted.
  - unfold do_notifications_policy. rewrite Hres, Ht, Hn. simpl. destruct (set_notification_policy _ _ _ _) as [[out st] dd].
    exists (is_ok out), st, dd. destruct out; simpl; eauto.
Qed.

(** A capability the daemon does not have is refused, and nothing changes. *)
Lemma serve_unsupported (r : Run) e p x wanted :
  resolve_device (rn_daemon r) (tp_device_id p) = Some (tp_fingerprint p) ->
  implemented r x = false ->
  (serve r e (request_for (tp_device_id p) x wanted)).1 = Replied (Response.Error "this daemon does not implement it") /\
  peers_of (serve r e (request_for (tp_device_id p) x wanted)).2 = peers_of r.
Proof.
  intros Hres Hno. destruct x as [c|f| |]; [|done..]. cbn [implemented] in Hno.
  cbn [request_for serve by_daemon fst snd]. rewrite commit_daemon. unfold do_grant. by rewrite Hres, Hno.
Qed.

Lemma op_for_others m p x wanted k : k <> tp_fingerprint p -> op_peers (op_for p x wanted) m !! k = m !! k.
Proof.
  intros Hk. unfold op_for. destruct (tp_notification_policy p). destruct x; simpl; by rewrite lookup_alter_ne.
Qed.

Lemma op_effect_done s (d : D) o s' d' : op_effect s d o true s' d' -> st_peers s' = op_peers o (st_peers s).
Proof. by inversion 1. Qed.

(** * Finding it *)

(** The switches of the pages, whatever they are called. *)
Definition on_pages (s : GuiState) (active sensitive : bool) (moved : bool -> Request.t) : Prop :=
  exists label, WSwitch label active sensitive moved ∈ devices_page s ++ clipboard_page s ++ notifications_page s.

(** A switch of a listed device that is not revoked, for a right of it. *)
Definition switch_of (r : Run) (p : TrustedPeer) (x : Right) (active : bool) (moved : bool -> Request.t) : Prop :=
  p ∈ listed r /\ tp_revoked p = false /\ (forall w, moved w = request_for (tp_device_id p) x w) /\ active = holds p x.

Lemma granted_mem (r : Run) p c : tp_revoked p = false -> mem c (dr_granted_capabilities (device_report r p)) = allows p c.
Proof.
  intros Hr. apply Bool.eq_iff_eq_true. rewrite mem_true. simpl. rewrite list_elem_of_fmap. unfold allows. rewrite Hr. simpl. split.
  - intros ([k v] & -> & [Hv Hkv]%list_elem_of_filter). apply elem_of_bt_items in Hkv. simpl in *. by rewrite Hkv.
  - destruct (tp_granted_capabilities p !! c) as [[]|] eqn:E; try done. intros _. exists (c, true). split; [done|].
    apply list_elem_of_filter. split; [done|]. by apply elem_of_bt_items.
Qed.

Lemma device_switch (r : Run) p label active sensitive moved : p ∈ listed r ->
  WSwitch label active sensitive moved ∈ device_card (device_report r p) -> exists x, switch_of r p x active moved.
Proof.
  intros Hp. unfold device_card. rewrite elem_of_app. intros [Hin|Hin]; [repeat (apply elem_of_cons in Hin as [[=]|Hin]); by apply elem_of_nil in Hin|].
  apply list_elem_of_fmap in Hin as (c & Hc & Hin). unfold card_controls in Hin.
  change (dr_revoked (device_report r p)) with (tp_revoked p) in Hin.
  destruct (tp_revoked p) eqn:Hr; [by apply list_elem_of_singleton in Hin as ->|].
  apply elem_of_app in Hin as [Hin|Hin]; [|by apply list_elem_of_singleton in Hin as ->].
  apply list_elem_of_fmap in Hin as (k & -> & _). simpl in Hc. injection Hc as _ -> _ ->.
  exists (Granted k.1). split_and!; try done. apply (granted_mem r p k.1 Hr).
Qed.

Lemma clipboard_switch_of (r : Run) c p watch label active sensitive moved : p ∈ listed r ->
  WSwitch label active sensitive moved ∈ clipboard_card watch (clipboard_peer_report r c p) -> exists x, switch_of r p x active moved.
Proof.
  intros Hp. unfold clipboard_card. rewrite elem_of_app. intros [Hin|Hin]; [repeat (apply elem_of_cons in Hin as [[=]|Hin]); by apply elem_of_nil in Hin|].
  simpl in Hin. destruct (allows p Daemon.CLIPBOARD) eqn:Ha; simpl in Hin; [|by apply elem_of_nil in Hin].
  assert (tp_revoked p = false) as Hr by (unfold allows in Ha; by destruct (tp_revoked p)).
  repeat (apply elem_of_cons in Hin as [Hin|Hin]); try (by apply elem_of_nil in Hin); try done; injection Hin as _ -> _ ->;
    [exists (Flag FlagReceive)|exists (Flag FlagAutoReceive)|exists (Flag FlagSend)|exists (Flag FlagAutoSend)]; done.
Qed.

Lemma notification_switch_of (r : Run) l p available label active sensitive moved : p ∈ listed r ->
  WSwitch label active sensitive moved ∈ notification_card available (notification_peer_report r l p) -> exists x, switch_of r p x active moved.
Proof.
  intros Hp. unfold notification_card. rewrite elem_of_app. intros [Hin|Hin]; [repeat (apply elem_of_cons in Hin as [[=]|Hin]); by apply elem_of_nil in Hin|].
  simpl in Hin. destruct (tp_revoked p) eqn:Hr; [by apply elem_of_nil in Hin|].
  apply elem_of_cons in Hin as [[= _ -> _ ->]|Hin]; [by exists (Granted Daemon.NOTIFICATIONS)|].
  destruct (allows p Daemon.NOTIFICATIONS); simpl in Hin; [|by apply elem_of_nil in Hin].
  apply elem_of_cons in Hin as [[= _ -> _ ->]|Hin]; [by exists Mirroring|].
  apply elem_of_cons in Hin as [[=]|Hin]. unfold dismiss_sync_row in Hin. apply elem_of_app in Hin as [Hin|Hin].
  - apply list_elem_of_singleton in Hin as [= _ -> _ ->]. by exists Dismissing.
  - destruct (DismissReadiness.needs_attention _); [by apply list_elem_of_singleton in Hin|by apply elem_of_nil in Hin].
Qed.

Lemma on_pages_switch (r : Run) e active sensitive moved : on_pages (polled r e) active sensitive moved ->
  exists p x, switch_of r p x active moved.
Proof.
  intros [label Hin]. rewrite !elem_of_app in Hin. destruct Hin as [Hin|[Hin|Hin]].
  - unfold devices_page in Hin. apply elem_of_app in Hin as [Hin|Hin].
    + apply list_elem_of_fmap in Hin as (c & Hc & Hin). unfold page_controls in Hin. destruct (1 <? _); [|by apply elem_of_nil in Hin].
      by apply list_elem_of_singleton in Hin as ->.
    + apply list_elem_of_bind in Hin as (d & Hin & (p & -> & Hp)%list_elem_of_fmap). exists p. by eapply device_switch.
  - unfold clipboard_page in Hin. simpl in Hin. unfold build_clipboard_status in Hin. destruct (rn_clipboard r) as [c|]; simpl in Hin; [|by apply elem_of_nil in Hin].
    repeat (apply elem_of_cons in Hin as [[=]|Hin]). apply elem_of_app in Hin as [Hin|Hin].
    + apply list_elem_of_bind in Hin as (d & Hin & (p & -> & Hp)%list_elem_of_fmap). exists p. by eapply clipboard_switch_of.
    + apply list_elem_of_bind in Hin as (d & Hin & _). repeat (apply elem_of_cons in Hin as [[=]|Hin]). by apply elem_of_nil in Hin.
  - unfold notifications_page in Hin. simpl in Hin. unfold build_notifications_status in Hin. destruct (rn_notifications r) as [n|]; simpl in Hin; [|by apply elem_of_nil in Hin].
    repeat (apply elem_of_cons in Hin as [[=]|Hin]).
    apply list_elem_of_bind in Hin as (d & Hin & (p & -> & Hp)%list_elem_of_fmap). exists p. by eapply notification_switch_of.
Qed.


(** * What the badges say *)

Lemma live_report n fp : find_b (fun q => eqb (rp_peer q) fp) (Notifications.peer_reports n) = Notifications.peer_report fp <$> nt_peers n !! fp.
Proof.
  destruct (find_b _ _) as [q|] eqn:Hf.
  - apply find_b_some in Hf as [([k s] & -> & Hk%elem_of_bt_items)%list_elem_of_fmap Heq%eqb_eq]. simpl in *. subst k. by rewrite Hk.
  - destruct (nt_peers n !! fp) as [s|] eqn:Hs; [|done]. exfalso.
    assert (Notifications.peer_report fp s ∈ Notifications.peer_reports n) as Hin by (apply list_elem_of_fmap; exists (fp, s); split; [done|by apply elem_of_bt_items]).
    pose proof (find_b_none _ _ _ Hf Hin) as Hn. simpl in Hn. by rewrite eqb_refl in Hn.
Qed.

(** What the report carries of the roles is what the manager goes by. *)
Lemma report_roles (r : Run) n p : let rep := notification_peer_report r (Notifications.peer_reports n) p in let s := Notifications.slot_of n (tp_fingerprint p) in
  np_peer_is_source rep = has (sl_peer_roles s) Source /\ np_peer_is_dismiss_target rep = has (sl_peer_roles s) DismissTarget /\
  np_local_reports_dismissals rep = has_announced (sl_local_roles s) DismissReporter.
Proof. simpl. rewrite live_report. unfold Notifications.slot_of. by destruct (nt_peers n !! tp_fingerprint p). Qed.

(** What the manager may do with the notifications of a listed device. *)
Lemma listed_policy (r : Run) n p : peers_ok (peers_of r) -> nt_authorizer n = Some (notification_policy_for (rn_daemon r)) -> p ∈ listed r ->
  Notifications.policy_for n (tp_fingerprint p) = if allows p Daemon.NOTIFICATIONS then tp_notification_policy p else NotificationPolicy.DENIED.
Proof.
  intros Hok Ha Hp. unfold Notifications.policy_for. rewrite Ha. unfold notification_policy_for, trusted_peer.
  pose proof (listed_record (dm_store (rn_daemon r)) p Hok) as [Hrec _]. destruct (Hrec Hp) as [-> _].
  destruct (tp_revoked p) eqn:Hr; [|done]. unfold allows. by rewrite Hr.
Qed.

(** The notifications page tells the truth.  Of a listed device it says Ready
    exactly when the notification manager would show what the device sends: there
    is a server, the daemon's policy allows mirroring, the device has a session and
    has said it is a source.  It says Revoked, Off or Paused, the server being
    there, exactly when the policy forbids mirroring.  And where it offers
    dismissal syncing and the device is connected, it says the setting is active
    exactly when a notification dismissed here is put in the queue of requests to
    that device; otherwise dismissing asks nothing of it. *)
Theorem badges_tell_the_truth (r : Run) n p id origin :
  peers_ok (peers_of r) -> nt_authorizer n = Some (notification_policy_for (rn_daemon r)) -> p ∈ listed r ->
  let fp := tp_fingerprint p in
  let rep := notification_peer_report r (Notifications.peer_reports n) p in
  (Readiness.of_report rep (nt_available n) = Readiness.Ready <->
     nt_available n = true /\ NotificationPolicy.allow_mirror (Notifications.policy_for n fp) = true /\
     is_Some (Daemon.session_for (rn_daemon r) fp) /\ has (sl_peer_roles (Notifications.slot_of n fp)) Source = true) /\
  (Readiness.of_report rep true ∈ [Readiness.Revoked; Readiness.NotGranted; Readiness.Paused] <->
     NotificationPolicy.allow_mirror (Notifications.policy_for n fp) = false) /\
  (np_granted rep = true -> np_connected rep = true ->
     maybe_request_dismissal n fp id origin =
       if decide (DismissReadiness.of_report rep = DismissReadiness.Active)
       then Notifications.set_slot n fp (offer_to (Notifications.slot_of n fp) (Dismiss id origin)) else n).
Proof.
  intros Hok Ha Hp fp rep. pose proof (listed_policy r n p Hok Ha Hp) as Hpol. fold fp in Hpol.
  destruct (report_roles r n p) as (Hsrc & Htgt & Hrep). fold rep fp in Hsrc, Htgt, Hrep.
  assert (Hrev : tp_revoked p = true -> allows p Daemon.NOTIFICATIONS = false) by (unfold allows; by intros ->).
  split_and!.
  - unfold Readiness.of_report. rewrite Hpol, Hsrc. subst rep. cbn [np_revoked np_granted np_allow_mirror np_connected notification_peer_report].
    fold fp. destruct (tp_revoked p) eqn:Hr; [rewrite Hrev by done; simpl; naive_solver|].
    destruct (nt_available n), (allows p Daemon.NOTIFICATIONS), (NotificationPolicy.allow_mirror (tp_notification_policy p)); simpl; try naive_solver.
    destruct (Daemon.session_for (rn_daemon r) fp) as [h|]; [|split; [done|intros (_ & _ & [? [=]] & _)]]. simpl.
    destruct (has _ Source); simpl; naive_solver.
  - unfold Readiness.of_report. rewrite Hpol. change (np_revoked rep) with (tp_revoked p).
    change (np_granted rep) with (allows p Daemon.NOTIFICATIONS).
    change (np_allow_mirror rep) with (NotificationPolicy.allow_mirror (tp_notification_policy p)).
    destruct (tp_revoked p); [rewrite Hrev by done|];
      destruct (allows p Daemon.NOTIFICATIONS), (NotificationPolicy.allow_mirror (tp_notification_policy p)),
        (np_connected rep), (np_peer_is_source rep); clear; simpl; rewrite !elem_of_cons, elem_of_nil; intuition congruence.
  - intros Hg Hc. unfold maybe_request_dismissal, DismissReadiness.of_report. rewrite Hpol, Hrep, Htgt, Hc.
    change (np_granted rep) with (allows p Daemon.NOTIFICATIONS) in Hg. rewrite Hg.
    change (np_allow_dismiss_sync rep) with (NotificationPolicy.allow_dismiss_sync (tp_notification_policy p)).
    change (np_allow_mirror rep) with (NotificationPolicy.allow_mirror (tp_notification_policy p)). unfold NotificationPolicy.may_sync_dismissals.
    destruct (NotificationPolicy.allow_dismiss_sync _), (NotificationPolicy.allow_mirror _), (has_announced _ _), (has _ DismissTarget);
      simpl; done.
Qed.
End Serve.
