(* ===== verification/PromptServe.v ===== *)
(** The question and its answer, end to end.

    The daemon's approval seam ([Approval.v], [runtime/src/approval.rs] and the
    session of the control server) with the window attached to it
    ([GuiPrompt.v]).  The daemon tells the window of the offers its sessions
    show; a decision it takes in is one the window wrote.  Which session a
    decision reaches, how often, and when, is left open. *)
From S2P Require Import Prelude External Ids Transfer Control UnixFs Approval GuiPrompt GuiPromptFacts Daemon ControlServer ControlRuns.

(** An id survives its hexadecimal form. *)
Lemma hex_string_digits b : Forall (fun c => is_ascii_hexdigit c = true) (hex_string b).
Proof.
  induction b as [|x b IH]; [done|]. unfold hex_string in *. rewrite bind_cons. apply Forall_app. split; [|done].
  destruct x; vm_compute; repeat constructor.
Qed.

Lemma transfer_id_read_back id : TransferId.from_hex (TransferId.to_hex id) = Some id.
Proof.
  unfold TransferId.from_hex, TransferId.to_hex. pose proof (str_bytes_ascii _ (hex_string_ascii (bn_bytes id))) as Hraw.
  set (raw := str_bytes (hex_string (bn_bytes id))) in *.
  assert (Hlen : len raw = 32).
  { unfold len. rewrite <- (length_fmap to_N), Hraw, hex_string_length, bytesn_length. done. }
  assert (Hdig : forallb (fun b => is_ascii_hexdigit (to_N b)) raw = true).
  { apply forallb_forall. intros x Hx%list_elem_of_In. apply (proj1 (Forall_forall _ _) (hex_string_digits (bn_bytes id))).
    rewrite <- Hraw. by apply list_elem_of_fmap_2. }
  rewrite Hlen, Hdig, Hraw. cbn [negb orb N.eqb TRANSFER_ID_LEN]. rewrite hex_pairs_string; [apply try_into_bytes|].
  intros x. destruct (hex_byte_spec x) as (hi & lo & ? & _ & _ & _ & _ & ? & ? & _). eauto.
Qed.

Section Serve.
Context {D K : Type} `{!HexCodec} (unattended : bool).
Abbreviation Run := (Runtime D K).

(** The daemon's history, the window, and the answers given in it. *)
Record World := { wd_asks : list AEvent; wd_prompts : Prompts; wd_answers : list (FileOfferRequest * bool) }.

Definition World_new : World := {| wd_asks := []; wd_prompts := Prompts_new; wd_answers := [] |}.

Abbreviation seam w := (approval_run unattended (wd_asks w)).

(** The line the daemon writes for an offer. *)
Definition offer_line (r : Run) (offer : IncomingOffer) : LineText := {|
  lt_response := None; lt_event := Some (Event.OfferRequest (file_offer_request r offer)) |}.

Definition is_decision (ev : AEvent) : bool := match ev with ADecide _ _ _ => true | _ => false end.

(** A step of the window. *)
Definition window_step (w : World) (e : PromptEvent) : World := {|
  wd_asks := wd_asks w; wd_prompts := prompt_step (wd_prompts w) e; wd_answers := wd_answers w ++ answer_of (wd_prompts w) e |}.

Inductive world_step : World -> World -> Prop :=
| ws_daemon w ev : is_decision ev = false ->
    world_step w {| wd_asks := wd_asks w ++ [ev]; wd_prompts := wd_prompts w; wd_answers := wd_answers w |}
| ws_shown w e (r : Run) offer : (e, offer) ∈ fa_shown (seam w) ->
    world_step w (window_step w (PNet (NLine (Some (offer_line r offer)))))
| ws_window w e : line_ok (fun _ => False) e -> world_step w (window_step w e)
| ws_decide w e n transfer accept : (n, Request.FileDecision transfer accept) ∈ pr_wire (wd_prompts w) ->
    world_step w {| wd_asks := wd_asks w ++ [ADecide e transfer accept]; wd_prompts := wd_prompts w; wd_answers := wd_answers w |}.

(** A request that some session of the daemon showed. *)
Definition shown_by_daemon (w : World) (q : FileOfferRequest) : Prop :=
  exists e (r : Run) offer, (e, offer) ∈ fa_shown (seam w) /\ q = file_offer_request r offer.

Record world_ok (w : World) : Prop := {
  wo_keyed : keyed (wd_prompts w);
  wo_flight : in_flight (wd_prompts w) ⊆+ named <$> wd_answers w;
  wo_offers : offers_ok (shown_by_daemon w) (wd_prompts w);
  wo_answers : forall q b, (q, b) ∈ wd_answers w -> shown_by_daemon w q;
  wo_decided : forall e t b, ADecide e t b ∈ wd_asks w -> (t, b) ∈ named <$> wd_answers w
}.

Lemma world_ok_new : world_ok World_new.
Proof.
  constructor; cbn; try set_solver.
  - intros id r Hr. cbn in Hr. by rewrite lookup_empty in Hr.
  - split_and!; [intros id r Hr; cbn in Hr; by rewrite lookup_empty in Hr | cbn; set_solver | done].
Qed.

(** What was shown stays shown. *)
Lemma shown_mono a ev x : x ∈ fa_shown a -> x ∈ fa_shown (approval_step a ev).
Proof.
  destruct ev; simpl; unfold confirm_receive, confirm_resumed, confirm_dropped, session_start, session_offer,
    apply_file_decision, session_settled, session_end, attach, detach, FileApproval_decide, withdraw;
    repeat case_match; simpl; set_solver.
Qed.

Lemma shown_by_daemon_mono w ev q : shown_by_daemon w q ->
  shown_by_daemon {| wd_asks := wd_asks w ++ [ev]; wd_prompts := wd_prompts w; wd_answers := wd_answers w |} q.
Proof.
  intros (e & r & o & Hin & ->). exists e, r, o. split; [|done]. unfold approval_run. cbn. rewrite foldl_app. by apply shown_mono.
Qed.

Lemma world_ok_daemon w ev : world_ok w -> (forall e t b, ev = ADecide e t b -> (t, b) ∈ named <$> wd_answers w) ->
  world_ok {| wd_asks := wd_asks w ++ [ev]; wd_prompts := wd_prompts w; wd_answers := wd_answers w |}.
Proof.
  intros [H1 H2 H3 H4 H5] Hd. constructor; cbn; try done.
  - eapply offers_ok_mono; [|exact H3]. intros q. apply shown_by_daemon_mono.
  - intros q b Hq. eauto using shown_by_daemon_mono.
  - intros e t b [?|Hin]%elem_of_app; [eauto|]. apply list_elem_of_singleton in Hin. eauto.
Qed.

Lemma answer_shown P c e q b : offers_ok P c -> (q, b) ∈ answer_of c e -> P q.
Proof.
  intros (Ho & _ & _). unfold answer_of. destruct e as [| |id resp|]; try set_solver.
  destruct (pr_open c !! id) as [r|] eqn:Hr; [|set_solver]. destruct (pr_handle c); [|set_solver].
  rewrite list_elem_of_singleton. intros [= -> _]. eauto.
Qed.

Lemma world_ok_window w e : world_ok w -> line_ok (shown_by_daemon w) e -> world_ok (window_step w e).
Proof.
  intros [H1 H2 H3 H4 H5] Hl. constructor; cbn.
  - by apply keyed_step.
  - rewrite fmap_app. etransitivity; [by apply step_in_flight|]. by apply submseteq_app.
  - exact (offers_ok_step _ _ _ H3 Hl).
  - intros q b [?|Hin]%elem_of_app; [eauto|]. exact (answer_shown _ _ _ _ _ H3 Hin).
  - intros e' t b Hin. rewrite fmap_app. apply elem_of_app. left. eauto.
Qed.

Lemma world_ok_step w w' : world_step w w' -> world_ok w -> world_ok w'.
Proof.
  intros Hs Hok. destruct Hs as [w ev Hd|w e r offer Hin|w e Hl|w e n t b Hin].
  - apply world_ok_daemon; [done|]. by intros e t b ->.
  - apply world_ok_window; [done|]. intros t q [= <-] [= <-]. by exists e, r, offer.
  - apply world_ok_window; [done|]. intros t q He Hm. by destruct (Hl t q He Hm).
  - apply world_ok_daemon; [done|]. intros e' t' b' [= _ <- <-]. eapply elem_of_submseteq; [|apply wo_flight, Hok].
    unfold in_flight. apply elem_of_app. left. unfold decisions_of. apply list_elem_of_omap. by exists (n, Request.FileDecision t b).
Qed.

Lemma world_ok_reach w : rtc world_step World_new w -> world_ok w.
Proof.
  intros Hr. assert (Hok : world_ok World_new) by apply world_ok_new. revert Hok.
  induction Hr as [w|w w1 w2 Hs _ IH]; [done|]. intros Hok. apply IH. by apply (world_ok_step w w1).
Qed.
(** C13: a file is accepted only if a person accepted that file.  Over every
    interleaving of the daemon and the window, with connections that break and
    come back, prompts that are late, withdrawn or repeated, and answers that are
    late or lost, no two offers sharing an id: when the daemon accepts an offer
    and was not started to accept without asking, somebody pressed Accept in a
    dialog that was open and showed exactly that offer: its file name, its size,
    its type and the fingerprint of the device it comes from. *)
Theorem accepted_file_was_shown w k :
  rtc world_step World_new w -> distinct_asks (wd_asks w) -> (k, true) ∈ fa_results (seam w) ->
  unattended = true \/
  exists (r : Run) offer, (k, offer) ∈ asks_of (wd_asks w) /\ (file_offer_request r offer, true) ∈ wd_answers w.
Proof.
  intros Hr%world_ok_reach Hd Hk. pose proof (run_fits unattended (wd_asks w) Hd) as Hf.
  destruct (fi_results _ _ _ Hf k Hk) as [?|(pre & e & text & post & offer & s & Hev & Hask & Hhex & _)]; [by left|]. right.
  assert (Hin : (k, offer) ∈ asks_of (wd_asks w)) by (rewrite Hev; unfold asks_of in *; rewrite omap_app; set_solver).
  assert (Hdec : (text, true) ∈ named <$> wd_answers w) by (apply (wo_decided _ Hr e); rewrite Hev; set_solver).
  apply list_elem_of_fmap in Hdec as ([q b] & [= -> ->] & Hq).
  destruct (wo_answers _ Hr _ _ Hq) as (e' & r & offer' & Hshown & ->).
  destruct (fi_shown _ _ _ Hf _ _ Hshown) as [k' Hk']. cbn in Hhex. rewrite transfer_id_read_back in Hhex. injection Hhex as Hid.
  destruct (distinct_ids _ Hd k offer k' offer' Hin Hk') as [_ ->]; [by right|]. by exists r, offer'.
Qed.
End Serve.

(** * Concrete runs *)


#[local] Existing Instance std_hex.

Definition photo_hex : str := TransferId.to_hex (io_transfer_id photo).

Definition photo_request : FileOfferRequest := {|
  fq_transfer_id := photo_hex; fq_device_name := lit "Phone"; fq_device_id := lit "phone";
  fq_fingerprint := []; fq_fingerprint_short := []; fq_filename := lit "holiday.jpg"; fq_size_bytes := 4096;
  fq_mime_type := lit "image/jpeg" |}.

Definition event_line (e : Event.t) : PromptEvent := PNet (NLine (Some {| lt_response := None; lt_event := Some e |})).

(** Attached, asked and answered; the second press finds no dialog. *)
Definition attach_and_ask : list PromptEvent :=
  [PNet (NConnect true true); event_line (Event.FileApprovalReady false); PNet NRoom; PUpdate true;
   event_line (Event.OfferRequest photo_request); PNet NRoom; PUpdate true].

Example accepted_once :
  pr_wire (prompt_run (attach_and_ask ++ [PPress photo_hex ACCEPT; PPress photo_hex ACCEPT; PNet (NFlush 0); PNet (NDecision true); PNet (NDecision true)])) =
  [(1, Request.WatchFileOffers); (1, Request.FileDecision photo_hex true)].
Proof. vm_compute. reflexivity. Qed.

(** Withdrawn, or the connection lost: the dialog goes and a late press is nothing. *)
Example withdrawn_silently :
  pr_wire (prompt_run (attach_and_ask ++ [event_line (Event.FileOfferWithdrawn photo_hex "expired"); PNet NRoom; PUpdate true;
    PPress photo_hex ACCEPT; PNet (NFlush 0); PNet (NDecision true)])) = [(1, Request.WatchFileOffers)] /\
  pr_open (prompt_run (attach_and_ask ++ [PNet (NLine None); PNet NRoom; PUpdate true])) = ∅.
Proof. vm_compute. split; reflexivity. Qed.

(** Enter, Escape and closing the window decline. *)
Example closing_declines :
  pr_wire (prompt_run (attach_and_ask ++ [PPress photo_hex DECLINE; PNet (NFlush 0); PNet (NDecision true)])) =
  [(1, Request.WatchFileOffers); (1, Request.FileDecision photo_hex false)].
Proof. vm_compute. reflexivity. Qed.

(** The answer is given, the connection breaks before it is written, and the next
    attachment writes it. *)
Example stale_answer_sent :
  pr_wire (prompt_run (attach_and_ask ++ [PPress photo_hex ACCEPT; PNet (NLine None); PNet NRoom; PUpdate true;
    PNet NWake; PNet (NConnect true true); PNet (NFlush 0); PNet (NDecision true)])) =
  [(1, Request.WatchFileOffers); (2, Request.WatchFileOffers); (2, Request.FileDecision photo_hex true)].
Proof. vm_compute. reflexivity. Qed.

(** ** Pairing *)

Definition pair_line (e : Event.t) : PairInput := KLine (Some {| lt_response := None; lt_event := Some e |}).
Definition confirm_request : Event.t := Event.ConfirmRequest (lit "Phone") (lit "0a") (lit "ab12") (lit "AB12").

(** The device proves itself, the person compares and confirms, once. *)
Example paired_by_hand :
  pk_wire (pairing_run [KConnect None true true; pair_line confirm_request; KItem; KClick; KClick; KQueue; KWrite; KQueue; KWrite]) =
  [Request.Pair None; Request.Confirm true].
Proof. vm_compute. reflexivity. Qed.

(** The button does nothing before a device is there. *)
Example nothing_to_confirm : pk_wire (pairing_run [KConnect None true true; KClick; KQueue; KWrite]) = [Request.Pair None].
Proof. vm_compute. reflexivity. Qed.

(** The stream fails after the device was shown: its name and fingerprint are
    gone from the dialog, the button is still there, and its answer is written. *)
Example confirms_what_is_not_shown :
  let failed := KLine (Some {| lt_response := Some (Response.Error "no pairing window"); lt_event := None |}) in
  let c := pairing_run [KConnect None true true; pair_line confirm_request; KItem; failed; KItem] in
  pk_shown c = None /\ pk_button c = true /\
  pk_wire (foldl pairing_step c [KClick; KQueue; KWrite]) = [Request.Pair None; Request.Confirm true].
Proof. vm_compute. split_and!; reflexivity. Qed.

(** ** End to end *)

Abbreviation wstep := (@world_step Fs unit std_hex false).
Definition photo_dialog : FileOfferRequest := file_offer_request (desk two_store) photo.

(** The window's steps but for the line that brings the offer. *)
Lemma window_steps w evs : Forall (line_ok (fun _ => False)) evs -> rtc wstep w (foldl window_step w evs).
Proof.
  revert w. induction evs as [|e evs IH]; intros w Hf; [apply rtc_refl|]. inversion Hf; subst.
  eapply rtc_l; [by apply ws_window | by apply IH].
Defined.

Definition daemon_step (w : World) (ev : AEvent) : World := {|
  wd_asks := wd_asks w ++ [ev]; wd_prompts := wd_prompts w; wd_answers := wd_answers w |}.
Lemma daemon_steps w evs : Forall (fun ev => is_decision ev = false) evs -> rtc wstep w (foldl daemon_step w evs).
Proof.
  revert w. induction evs as [|e evs IH]; intros w Hf; [apply rtc_refl|]. inversion Hf; subst.
  eapply rtc_l; [by apply ws_daemon | by apply IH].
Defined.

Definition offered : World :=
  foldl daemon_step (window_step World_new (PNet (NConnect true true))) [AStart true; AAsk 0 photo; AOffer 1 true true].
Definition answered_world : World :=
  foldl window_step (window_step offered (PNet (NLine (Some (offer_line (desk two_store) photo)))))
    [PNet NRoom; PUpdate true; PPress photo_hex ACCEPT; PNet (NFlush 0); PNet (NDecision true)].
Definition decided_world : World := foldl daemon_step answered_world [ADecide 1 photo_hex true; AResumed 0].

Lemma decided_reached : rtc wstep World_new decided_world.
Proof.
  transitivity offered.
  { eapply rtc_l; [apply (ws_window false World_new (PNet (NConnect true true))); by intros ???|].
    apply daemon_steps. by repeat constructor. }
  eapply rtc_l; [apply (ws_shown false offered 1 (desk two_store) photo); apply list_elem_of_In; vm_compute; by left|].
  transitivity answered_world.
  { apply window_steps. repeat constructor; by intros ???. }
  eapply rtc_l; [apply (ws_decide false answered_world 1 1 photo_hex true); apply list_elem_of_In; vm_compute; by right; left|].
  apply (daemon_steps _ [AResumed 0]). by repeat constructor.
Defined.

Lemma accepted_file_was_shown_witness :
  rtc wstep World_new decided_world /\ (0, true) ∈ fa_results (approval_run false (wd_asks decided_world)) /\
  wd_answers decided_world = [(photo_dialog, true)] /\
  exists (r : Runtime Fs unit) offer, (0, offer) ∈ asks_of (wd_asks decided_world) /\
    (file_offer_request r offer, true) ∈ wd_answers decided_world.
Proof.
  assert (Hd : distinct_asks (wd_asks decided_world)) by (split; vm_compute; repeat constructor; set_solver).
  assert (Hk : (0, true) ∈ fa_results (approval_run false (wd_asks decided_world))) by (apply list_elem_of_In; vm_compute; by left).
  split; [exact decided_reached|]. split; [exact Hk|]. split; [vm_compute; reflexivity|].
  destruct (accepted_file_was_shown false decided_world 0 decided_reached Hd Hk) as [Hu|Hr]; [discriminate Hu | exact Hr].
Defined.
