(* ===== verification/ViewsRuns.v ===== *)
(** Concrete runs of the pages against the control server.

    The desktop of [ControlRuns], with its pages drawn from its own reports: the
    witnesses of the theorems of [ViewsServe], and what a device id that two
    devices share does to a card. *)
From S2P Require Import Prelude External Ids Wire Capability Pairing Qr Policy Identity Store UnixFs StoreFacts Control Utf8 Selection Panel Gui Views Replay Discovery Transfer Sink Transfers TransferRuns Approval NotifyContract NotifyQueue NotifyMirror Notifications NotifyRuns Battery Dedup Clipboard ClipboardRuns Session SessionLoop Daemon DaemonFacts ControlServer ControlServerFacts ControlRuns ViewsServe.

Section Runs.
#[local] Existing Instances std_hex letters32 letters64 toy_crypto run_json whole_certificate toy_keys control_codec clip_codec notif_codec.

Lemma two_listed : listed_peers (dm_store (rn_daemon (desk two_store))) = [phone_peer; tablet_peer].
Proof. vm_compute. reflexivity. Qed.

Lemma two_ids_ok : ids_ok (desk two_store).
Proof.
  intros p. rewrite two_listed. rewrite !elem_of_cons, elem_of_nil.
  intros [-> |[-> |[]]]; (split_and!; [done|vm_compute; reflexivity|]);
    intros q; rewrite !elem_of_cons, elem_of_nil; intros [-> |[-> |[]]] Heq; try done; vm_compute in Heq; congruence.
Qed.

(** The tablet's switch for files, off. *)
Lemma tablet_files_switch : on_pages (polled (desk two_store) quiet_env) false true (Request.Grant (lit "0b") Panel.FILES).
Proof.
  exists (lit "Files for tablet"). apply elem_of_app. left. unfold devices_page. apply elem_of_app. right.
  apply list_elem_of_bind. exists (device_report (desk two_store) tablet_peer). split.
  - apply (list_elem_of_lookup_2 _ 8). vm_compute. reflexivity.
  - apply (list_elem_of_lookup_2 _ 1). vm_compute. reflexivity.
Qed.


(** Moving it grants the tablet files, and nothing to the phone. *)
Example tablet_gets_files :
  (serve (desk two_store) quiet_env (Request.Grant (lit "0b") Panel.FILES true)).1 = Replied Response.Ok /\
  is_authorized (rn_daemon (serve (desk two_store) quiet_env (Request.Grant (lit "0b") Panel.FILES true)).2) tablet = true.
Proof. vm_compute. done. Qed.

(** A second device that pairs under the phone's id: the switch on its card, and
    the button that revokes it, act on the phone. *)
Definition twin : TrustedPeer := paired "0a" "twin" tablet [].
Definition twin_store : Store := {|
  st_identity := st_identity demo_store; st_settings := st_settings demo_store;
  st_peers := <[phone := phone_peer]> (<[tablet := twin]> ∅) |}.

Example twin_controls_act_on_the_phone :
  let d := device_report (desk twin_store) twin in
  let r' := (serve (desk twin_store) quiet_env (control_request (CRevoke (dr_device_id d) (dr_device_name d)) false)).2 in
  CRevoke (dr_device_id d) (dr_device_name d) ∈ card_controls d /\
  is_Some (trusted_peer (dm_store (rn_daemon r')) tablet) /\ trusted_peer (dm_store (rn_daemon r')) phone = None.
Proof. vm_compute. split; [|eauto]. repeat constructor. Qed.

Definition desk_notifications : Notif :=
  Notifications.set_authorizer_field (Notifications.attach_session (NotificationManager_new sink_caps true false) phone 1)
    (Some (notification_policy_for (rn_daemon (desk two_store)))).

(** The tablet may not mirror: the page says it is off. *)
Lemma badges_tell_the_truth_witness :
  nt_authorizer desk_notifications = Some (notification_policy_for (rn_daemon (desk two_store))) /\
  NotificationPolicy.allow_mirror (Notifications.policy_for desk_notifications tablet) = false /\
  Readiness.of_report (notification_peer_report (desk two_store) (peer_reports desk_notifications) tablet_peer) true = Readiness.NotGranted.
Proof.
  assert (Hin : tablet_peer ∈ listed_peers (dm_store (rn_daemon (desk two_store)))) by (rewrite two_listed; right; left).
  assert (Hr : Readiness.of_report (notification_peer_report (desk two_store) (peer_reports desk_notifications) tablet_peer) true = Readiness.NotGranted)
    by (vm_compute; reflexivity).
  split; [reflexivity|]. split; [|exact Hr].
  destruct (badges_tell_the_truth (desk two_store) desk_notifications tablet_peer (sample_id x01) (lit "o") two_peers_ok eq_refl Hin) as (_ & Hf & _).
  apply Hf. rewrite Hr. right. left.
Defined.
End Runs.
